(* ===== verification/_CoqProject ===== *)
-Q . S2P
Prelude.v
Netip.v
Packet.v
Segment.v
Fragment.v
Pieces.v
Reassembly4.v
Reassembly6.v
NatMapper.v
GoStrings.v
FlowIndex.v
Routes.v
Config.v
Fmt.v
Tracker.v
Policy.v
Dns.v
TlsHello.v
BrowserDisc.v
LogHub.v
Crypto.v
Cng.v
Snapshot.v
Windivert.v
Runner.v
RunnerSafe.v
RunnerProps.v
RunnerSticky.v
SendLoop.v
DnsRoute.v
HostPort.v
ProxyDial.v
ProxyFlow.v
BrowserProxy.v
PacFile.v
ProxyServe.v
WinUtil.v
Session.v
SessionProps.v
Shutdown.v
Gui.v
GuiText.v
GuiLayout.v
Replay.v
Handshake.v
WireGuard.v
WgLoop.v
WgTunnel.v
WgOpen.v
Utf.v
Win32.v
Relaunch.v
Status.v
GuiView.v
WinMain.v
