(* ===== verification/Prelude.v ===== *)
(** * SplitWire: a verification development

    SplitWire is a split-tunnelling client for Windows: it captures the outbound
    packets of the machine, decides for every flow whether it goes out directly or
    through WireGuard, and does so by program, destination network and domain.  This
    library models the Go code under [src/internal/] and the controller of the window under
    [src/cmd/splitwire/], and proves what makes them correct.

    ** The program and its model

    The engine ([engine/engine_windows.go]) is a set of loops around shared tables.
    The capture loop takes a packet from the WinDivert driver, reassembles fragments,
    parses it, finds the flow's owner and route, and either gives it back to the
    network or translates it, splits it to the tunnel MTU and queues it for the send
    loop, which hands it to the WireGuard client.  The receive loop takes what the
    client decrypted, undoes the translation and injects it into the local stack.
    Further loops feed the ownership index (FLOW and SOCKET events, snapshots of the
    system's tables), the domain tracker (sniffed DNS answers, bootstrap lookups) and
    sweep the tables.  For rules by domain a local HTTP proxy, to which a PAC script
    sends the browser, opens its connections with the route decided beforehand.  A
    session starts and stops all of this together, and the window starts and stops
    sessions.

    - [Prelude]: outcomes of Go code ([Res]), state and errors ([SR]), bytes and
      fixed-width integers, slices with Go's bounds checks.
    - [Netip], [GoStrings]: what the code uses of [net/netip], [strings] and
      [path/filepath].
    - [Packet], [Segment], [Fragment] ([packet/packet.go]): parsing, rewriting, MSS
      clamping, resets; TCP segmentation; IP fragmentation and header checksums.
    - [Pieces], [Reassembly4], [Reassembly6] ([reassembly/]): the fragment tables.
    - [NatMapper] ([nat/nat.go]): port translation; mappings are shared objects in a
      store, as the two Go maps share pointers.
    - [FlowIndex], [Snapshot] ([flow/]): which process owns a flow; the rows of the
      system tables are decoded from memory.
    - [Routes] ([engine/flowroute.go], [engine/proxyroute.go]): sticky routes.
    - [Config] ([config/config.go]); [Tracker], [Dns] ([domain/]); [Policy]
      ([policy/policy.go]); [TlsHello] ([tlshello/sni.go]); [BrowserDisc]
      ([browserdisc/]); [LogHub] ([loghub/]).
    - [Windivert] ([windivert/windivert_windows.go]): addresses, events, handles.
    - [Runner] ([engine/engine_windows.go]): the engine.  [Runner.Runner] is the Go
      struct with its two queues and the log of driver calls; one definition per turn
      of a loop ([capture_step], [receive_step], [send_step], [dns_step], ...).
      [RunnerSafe] has the invariant and a Hoare-style judgement with one lemma per
      operation; [RunnerProps], [RunnerSticky] (what the turns do to the route of a
      flow), [SendLoop] and [DnsRoute] the properties.
    - [HostPort]: what the code uses of [net] for addresses with ports.
    - [ProxyDial], [ProxyFlow] ([engine/proxydial.go], [engine/proxy_windows.go]): the
      connections of the hostname proxy, registered before they send anything, and
      their way through the engine; each packet a dialing socket sends is noted with the
      routes in force at that moment.
    - [BrowserProxy], [PacFile], [ProxyServe] ([browserproxy/proxy.go]): the proxy's
      handlers as lists of effects, and its PAC script run by an interpreter of the
      JavaScript it uses.
    - [WinUtil] ([winutil/]): the user's proxy settings behind PowerShell scripts, the
      driver files, the physical interface.
    - [Session], [SessionProps] ([app/session.go], the handles of [engine.Start] and
      [Runner.Close], [config.Load]): a machine with files, settings, handles, proxy
      and context, with the history of its states.
    - [Shutdown] ([engine/engine_windows.go]): the loops around the turns, and
      [Runner.Close].
    - [Gui] ([cmd/splitwire/main_windows.go]): the window's handlers, its goroutines,
      channels and messages as one transition system; [GuiText], [GuiLayout],
      [GuiView]: the log control and log files, the command line, the places of the
      controls, what they show and the commands; [WinMain]: the window procedure with
      all of these, and startup.
    - [Win32] ([cmd/splitwire/win32_windows.go]): texts to and from the system, dialogs,
      the message loop; [Relaunch] ([winutil/winutil_windows.go]): the relaunch with
      administrator rights.  [Utf], [Fmt]: what the code uses of Go's text encodings
      and formatting.
    - [Status] ([engine.Status], the client's counters): the status report.
    - [Crypto] ([cryptox/]): BLAKE2s, HMAC, KDFs, ChaCha20-Poly1305, XChaCha; [Cng]
      ([aead_windows.go]): the wrapper of the system's cipher.
    - [Replay], [Handshake], [WireGuard], [WgLoop], [WgTunnel], [WgOpen]
      ([wireguard/]): the replay window, the handshake against a responder
      written from the protocol, the client with its session table as shared objects,
      the handshake loop, the properties of all interleavings, the opening of the two
      sockets.

    State passing is explicit; a mutex-protected operation is one atomic step, and
    interleavings are sequences of such steps ([engine_run], [wg_step], [loop_run],
    [nat_step], ...).  [time.Now] is an argument, in nanoseconds.  A run-time panic is
    the outcome [Panic], never an omitted case.

    ** What the theorems show

    Paths of a packet: [engine_roundtrip] (out through the tunnel and back to the
    application), [capture_no_leak] (a selected datagram never leaves directly and a
    direct one never enters the tunnel, fragments included), [classify_correct] (which
    table decides, and that the decision sticks in every run until the flow's entry is
    removed), [dns_answer_tunnels] (from a DNS answer to a tunnelled flow),
    [send_loop_fair].  Engine invariant: [engine_safe] (every turn returns, with one
    exception that it names: a DNS packet cut short panics the DNS loop).  Translation:
    [nat_flows_separate], [nat_roundtrip].  Splitting and reassembly:
    [SplitForMTU_correct], [FragmentForMTU_correct] and the two round trips.
    Ownership: [Lookup_correct], [socket_tables_agree], [SnapshotExisting_replaces],
    [ResolveSocketOwner_correct].  Policy: the compiled index agrees with a scan of the
    rules ([Decide_correct], [DecideHost_correct], [policy_shortcuts]).  Tunnel:
    [handshake_agrees], [session_table], [tunnel_roundtrip], [delivered_once],
    [nonces_differ], [handshake_returns], [replay_window_exact], [New_opens],
    [diagnostics_account] (every datagram is counted under what became of it).
    Ciphers: [ChaCha20Poly1305_correct], and [cng_refines] (the system's cipher is the
    portable one, and no handle of it is lost or confused).  Parsers: what each accepts
    and returns, on every input.

    Hostname proxy: [proxied_flow_follows] (a proxied connection takes the route of its
    host from the first packet on), [dial_registers], [PAC_correct] (browser and proxy
    agree on the hosts, those written with a final dot excepted),
    [proxy_serves_configured], [log_limiter_exact].  Session: [session_all_or_nothing]
    (whatever fails, everything taken is given back, the PAC entry too unless the settings
    cannot be written), [pac_never_dangles] (no state sends the browser to a proxy that is
    gone, unless the caller is cancelled or the settings cannot be written at the end),
    [pac_session_restores], [EnsureAssets_safe], [last_config_roundtrip];
    [close_returns] (stopping the engine ends, the client last).  Window:
    [gui_one_session], [gui_settles] (left alone it comes to rest, never stuck between
    two states), [status_line_always] (in every state the status line on the screen agrees
    with the sessions started and not closed, and with their contexts if Stop was never
    pressed during a start), [layout_correct], [controls_hold_text]; [relaunch_same_arguments];
    [stop_is_lost], [close_leaks] and [cancelled_start_dangles] are runs in which a
    request comes too late for the code.

    ** Fuel

    Loops that Go writes without a structural argument carry fuel: IPv6 header chains
    (one unit per byte of the packet), DNS names (one per byte, 16 pointers), the port
    search (21000 ports), TLS records (one per byte), the handshake's waiting (one
    event at a time; [handshake_returns] counts timer events), the splitting of a command
    line and the decoding of UTF-8 (one per byte), decimal digits (64, enough for 64
    bits).  [OutOfFuel] is a separate outcome, and the theorems on each operation exclude it.

    ** Parameters

    What is not code of the repository is a parameter with its documented behaviour:
    [Unicode] (case mapping and spaces outside ASCII), [Platform] (path separators),
    [Decoders] ([netip.ParseAddr], base64, [strconv.Unquote]), the DNS resolver, the
    curve ([X25519]), the AEAD interface ([AEAD], with the portable implementation
    proved an instance), the cipher calls of Windows ([CNG] with [CNGLaws], which speaks
    of keys of a ChaCha20-Poly1305 provider only) and its window
    texts ([Windows] with [WindowsLaws]), each with an instance, the driver ([Divert] for
    the checksum helper; the answers of calls are arguments), the IP Helper tables ([TableReply]), the process of a pid,
    the enumeration order of Go maps, [url.Parse], [archive/zip], [filepath.Abs] and
    [filepath.Dir], and the answers of the network and of the file system.

    ** Not modelled

    The calls that create windows, fonts, cursors and timers and that tell the system of
    changed proxy settings, which have no logic of their own; net/http itself; log lines
    other than the diagnostic one; [ProbePAC], which only a test calls; the stubs for
    other systems, which only report errors; and the earlier copies of
    six files under [.splitwire-hotfix-backup].  A handler of the window is atomic:
    messages that a modal dialog lets through are not modelled.  A turn of the
    capture loop is atomic: other loops interleave between turns, and within a turn
    where it waits for an owner ([ce_wakeups]).  The script that reads the proxy settings
    is taken to answer with the settings, and a closed WireGuard session may still seal,
    where the system's cipher refuses, which allows more than the program does.  In
    [Shutdown] the ten loops share one scheme of waiting, failing and pausing, and a turn
    that was begun ends. *)

From stdpp Require Export base gmap list strings numbers.
From Stdlib Require Export ZArith Lia.

Declare Scope go_scope.
Delimit Scope go_scope with go.
Local Open Scope Z_scope.

(** ** Outcomes of Go code

    [Ok] is a normal return with a nil error, [Err] a normal return with a
    non-nil error (the text of the error identifies it), [Panic] a run-time
    panic (index or slice out of range) and [OutOfFuel] a loop of the model
    that was given too little fuel; theorems show that the last two never
    occur. *)
Inductive Res (A : Type) : Type :=
  | Ok (a : A)
  | Err (e : string)
  | Panic
  | OutOfFuel.
Arguments Ok {A} _.
Arguments Err {A} _.
Arguments Panic {A}.
Arguments OutOfFuel {A}.

#[export] Instance Res_ret : MRet Res := fun A a => Ok a.
#[export] Instance Res_bind : MBind Res := fun A B f m =>
  match m with
  | Ok a => f a
  | Err e => Err e
  | Panic => Panic
  | OutOfFuel => OutOfFuel
  end.

(** A run that returns to its caller: neither a panic nor a loop cut short. *)
Definition returns {A} (m : Res A) : Prop :=
  match m with Ok _ | Err _ => True | Panic | OutOfFuel => False end.

Definition is_Ok {A} (m : Res A) : bool :=
  match m with Ok _ => true | _ => false end.

Lemma bind_Ok {A B} (a : A) (f : A → Res B) : (Ok a ≫= f) = f a.
Proof. reflexivity. Qed.

Lemma bind_Ok_inv {A B} (m : Res A) (f : A → Res B) b :
  (m ≫= f) = Ok b → ∃ a, m = Ok a ∧ f a = Ok b.
Proof. destruct m; intros H; try discriminate H; eauto. Qed.

Lemma returns_bind {A B} (m : Res A) (f : A → Res B) :
  returns m → (∀ a, m = Ok a → returns (f a)) → returns (m ≫= f).
Proof. destruct m; simpl; auto; tauto. Qed.

Lemma returns_Ok {A} (a : A) : returns (Ok a).
Proof. exact I. Qed.
Lemma returns_Err {A} e : returns (Err e : Res A).
Proof. exact I. Qed.

Create HintDb go.
#[export] Hint Resolve returns_Ok returns_Err : go.

(** ** State and errors

    [SR S A] is a computation over a state [S] that may also fail; the state
    survives a failure, as it does in Go. *)
Definition SR (S A : Type) : Type := S → S * Res A.
#[export] Instance SR_ret S : MRet (SR S) := fun A a s => (s, Ok a).
#[export] Instance SR_bind S : MBind (SR S) := fun A B f m s =>
  match m s with
  | (s', Ok a) => f a s'
  | (s', Err e) => (s', Err e)
  | (s', Panic) => (s', Panic)
  | (s', OutOfFuel) => (s', OutOfFuel)
  end.
Definition liftR {S A} (r : Res A) : SR S A := fun s => (s, r).
Definition sget {S} : SR S S := fun s => (s, Ok s).
Definition sput {S} (s : S) : SR S unit := fun _ => (s, Ok tt).
Definition sfail {S A} (e : string) : SR S A := fun s => (s, Err e).

(** ** Machine integers: unsigned w-bit values are [Z] with explicit wrap. *)
Definition u8 (x : Z) : Z := x `mod` 256.
Definition u16 (x : Z) : Z := x `mod` 65536.
Definition u32 (x : Z) : Z := x `mod` 4294967296.
Definition u64 (x : Z) : Z := x `mod` 18446744073709551616.
(** [int32] *)
Definition i32 (x : Z) : Z := (x + 2 ^ 31) `mod` 2 ^ 32 - 2 ^ 31.

Lemma u8_range x : 0 <= u8 x < 256.
Proof. apply Z.mod_pos_bound. lia. Qed.
Lemma u16_range x : 0 <= u16 x < 65536.
Proof. apply Z.mod_pos_bound. lia. Qed.
Lemma u32_range x : 0 <= u32 x < 4294967296.
Proof. apply Z.mod_pos_bound. lia. Qed.
Lemma u64_range x : 0 <= u64 x < 18446744073709551616.
Proof. apply Z.mod_pos_bound. lia. Qed.
Lemma i32_id x : - 2 ^ 31 <= x < 2 ^ 31 → i32 x = x.
Proof. intros H. unfold i32. rewrite Z.mod_small by lia. lia. Qed.
Lemma u16_small x : 0 <= x < 65536 → u16 x = x.
Proof. apply Z.mod_small. Qed.
Lemma u32_small x : 0 <= x < 4294967296 → u32 x = x.
Proof. apply Z.mod_small. Qed.
Lemma u64_small x : 0 <= x < 18446744073709551616 → u64 x = x.
Proof. apply Z.mod_small. Qed.

(** ** Byte slices

    A [[]byte] (and a Go string) is a list of [Z] in [0,256). Reads and writes
    outside the slice panic. *)
Abbreviation bytes := (list Z) (only parsing).

Definition blen {A} (b : list A) : Z := Z.of_nat (length b).
Definition bytes_ok (b : bytes) : Prop := Forall (fun x => 0 <= x < 256) b.

(** Total accessors, used in statements and proofs. *)
Definition gb (b : bytes) (i : Z) : Z := default 0 (b !! Z.to_nat i).
Definition bsub {A} (b : list A) (lo hi : Z) : list A :=
  take (Z.to_nat (hi - lo)) (drop (Z.to_nat lo) b).
Definition bset (b : bytes) (i v : Z) : bytes := <[Z.to_nat i := v]> b.
(** [copy(b[off:], src)] when [off <= len(b)]: as many bytes as fit. *)
Definition bcopy (b : bytes) (off : Z) (src : bytes) : bytes :=
  take (Z.to_nat off) b ++ take (length b - Z.to_nat off) src
    ++ drop (Z.to_nat off + length src) b.
Definition zeros (n : Z) : bytes := replicate (Z.to_nat n) 0.

(** The Go operations, with their run-time checks. *)
Definition idx (b : bytes) (i : Z) : Res Z :=
  if (0 <=? i) && (i <? blen b) then Ok (gb b i) else Panic.
Definition slice {A} (b : list A) (lo hi : Z) : Res (list A) :=
  if (0 <=? lo) && (lo <=? hi) && (hi <=? blen b) then Ok (bsub b lo hi) else Panic.
Definition store (b : bytes) (i v : Z) : Res bytes :=
  if (0 <=? i) && (i <? blen b) then Ok (bset b i v) else Panic.
(** [copy(b[lo:hi], src)] *)
Definition copy_into (b : bytes) (lo hi : Z) (src : bytes) : Res bytes :=
  if (0 <=? lo) && (lo <=? hi) && (hi <=? blen b)
  then Ok (bcopy b lo (take (Z.to_nat (hi - lo)) src)) else Panic.

(** [encoding/binary], big endian. *)
Definition be16 (b : bytes) (i : Z) : Res Z :=
  x ← idx b i; y ← idx b (i + 1); Ok (x * 256 + y).
Definition be32 (b : bytes) (i : Z) : Res Z :=
  x ← be16 b i; y ← be16 b (i + 2); Ok (x * 65536 + y).
Definition enc16 (v : Z) : bytes := [(v `div` 256) `mod` 256; v `mod` 256].
Definition enc32 (v : Z) : bytes :=
  [(v `div` 16777216) `mod` 256; (v `div` 65536) `mod` 256; (v `div` 256) `mod` 256; v `mod` 256].
Definition put16 (b : bytes) (i v : Z) : Res bytes := copy_into b i (i + 2) (enc16 v).
Definition put32 (b : bytes) (i v : Z) : Res bytes := copy_into b i (i + 4) (enc32 v).

(** Pure counterparts of the reads. *)
Definition gb16 (b : bytes) (i : Z) : Z := gb b i * 256 + gb b (i + 1).
Definition gb32 (b : bytes) (i : Z) : Z := gb16 b i * 65536 + gb16 b (i + 2).

(** *** Lengths *)
Lemma blen_nonneg {A} (b : list A) : 0 <= blen b.
Proof. unfold blen; lia. Qed.
Lemma blen_nil {A} : blen (@nil A) = 0.
Proof. reflexivity. Qed.
Lemma blen_cons {A} (x : A) b : blen (x :: b) = 1 + blen b.
Proof. unfold blen; simpl; lia. Qed.
Lemma blen_app {A} (a b : list A) : blen (a ++ b) = blen a + blen b.
Proof. unfold blen; rewrite length_app; lia. Qed.
Lemma blen_bset b i v : blen (bset b i v) = blen b.
Proof. unfold blen, bset; by rewrite length_insert. Qed.
Lemma blen_bcopy b off src : 0 <= off <= blen b → blen (bcopy b off src) = blen b.
Proof.
  unfold blen, bcopy. intros. rewrite !length_app, !length_take, length_drop. lia.
Qed.
Lemma blen_zeros n : blen (zeros n) = Z.max 0 n.
Proof. unfold blen, zeros. rewrite length_replicate. lia. Qed.
Lemma blen_bsub {A} (b : list A) lo hi :
  0 <= lo → lo <= hi → hi <= blen b → blen (bsub b lo hi) = hi - lo.
Proof. unfold blen, bsub. intros. rewrite length_take, length_drop. lia. Qed.
Lemma blen_enc16 v : blen (enc16 v) = 2.
Proof. reflexivity. Qed.
Lemma blen_enc32 v : blen (enc32 v) = 4.
Proof. reflexivity. Qed.
Lemma blen_snoc {A} (b : list A) x : blen (b ++ [x]) = blen b + 1.
Proof. rewrite blen_app. reflexivity. Qed.

Create Rewrite HintDb blen.
#[export] Hint Rewrite @blen_nil @blen_cons @blen_app blen_bset blen_zeros blen_enc16
  blen_enc32 : blen.
(** Side conditions of the length lemmas: lengths of lengths, then [lia]. *)
Ltac bside :=
  first
  [ lia
  | repeat first
      [ rewrite blen_bset | rewrite blen_zeros | rewrite blen_app | rewrite blen_enc16
      | rewrite blen_enc32 | rewrite blen_cons | rewrite blen_nil
      | rewrite blen_bcopy by bside | rewrite blen_bsub by bside ];
    lia ].
#[export] Hint Rewrite blen_bcopy using bside : blen.
#[export] Hint Rewrite @blen_bsub using bside : blen.

Ltac blen_pos :=
  repeat match goal with
  | |- context [blen ?b] =>
      lazymatch goal with H : 0 <= blen b |- _ => fail | _ => pose proof (blen_nonneg b) end
  | _ : context [blen ?b] |- _ =>
      lazymatch goal with H : 0 <= blen b |- _ => fail | _ => pose proof (blen_nonneg b) end
  end.
Ltac blia := autorewrite with blen in *; try lia; blen_pos; lia.

(** *** Contents *)
Lemma gb_oob b i : blen b <= i → gb b i = 0.
Proof. unfold blen, gb; intros. rewrite lookup_ge_None_2; [done | lia]. Qed.

Lemma gb_app a b i :
  0 <= i → gb (a ++ b) i = if i <? blen a then gb a i else gb b (i - blen a).
Proof.
  intros Hi. unfold gb, blen. rewrite lookup_app.
  destruct (Z.ltb_spec i (Z.of_nat (length a))) as [Hlt|Hge].
  - destruct (lookup_lt_is_Some_2 a (Z.to_nat i)) as [x ->]; [lia | done].
  - rewrite lookup_ge_None_2 by lia. do 2 f_equal. lia.
Qed.

Lemma gb_cons x b i : 0 <= i → gb (x :: b) i = if i =? 0 then x else gb b (i - 1).
Proof.
  intros Hi. unfold gb. destruct (Z.eqb_spec i 0) as [->|Hne]; [done|].
  replace (Z.to_nat i) with (S (Z.to_nat (i - 1))) by lia. done.
Qed.

Lemma gb_bsub b lo hi i :
  0 <= lo → 0 <= i < hi - lo → gb (bsub b lo hi) i = gb b (lo + i).
Proof.
  intros. unfold gb, bsub. rewrite lookup_take_lt by lia. rewrite lookup_drop.
  do 2 f_equal. lia.
Qed.

Lemma gb_bset b i v j :
  0 <= i < blen b → 0 <= j → gb (bset b i v) j = if j =? i then v else gb b j.
Proof.
  intros Hi Hj. unfold gb, bset, blen in *. destruct (Z.eqb_spec j i) as [->|Hne].
  - rewrite list_lookup_insert_eq by lia. done.
  - rewrite list_lookup_insert_ne by lia. done.
Qed.

Lemma gb_zeros n i : gb (zeros n) i = 0.
Proof.
  unfold gb, zeros. destruct (replicate (Z.to_nat n) 0 !! Z.to_nat i) eqn:E; [|done].
  apply lookup_replicate in E as [-> _]. done.
Qed.

Lemma gb_bcopy b off src i :
  0 <= off → off + blen src <= blen b → 0 <= i →
  gb (bcopy b off src) i =
    if (off <=? i) && (i <? off + blen src) then gb src (i - off) else gb b i.
Proof.
  intros Hoff Hlen Hi. unfold bcopy.
  assert (length b - Z.to_nat off >= length src)%nat as Hfit by (unfold blen in *; lia).
  rewrite (take_ge src) by lia.
  assert (Hl : blen (take (Z.to_nat off) b) = off)
    by (unfold blen in *; rewrite length_take; lia).
  rewrite gb_app, Hl by lia.
  destruct (Z.ltb_spec i off) as [H1|H1].
  - rewrite (proj2 (Z.leb_gt off i)) by lia. simpl.
    unfold gb. rewrite lookup_take_lt by lia. done.
  - rewrite (proj2 (Z.leb_le off i)) by lia. simpl. rewrite gb_app by lia.
    destruct (Z.ltb_spec (i - off) (blen src)) as [H2|H2].
    + rewrite (proj2 (Z.ltb_lt i (off + blen src))) by lia. done.
    + rewrite (proj2 (Z.ltb_ge i (off + blen src))) by lia.
      unfold gb. rewrite lookup_drop. do 2 f_equal. unfold blen in *. lia.
Qed.

Lemma bytes_eq (a b : bytes) :
  blen a = blen b → (∀ i, 0 <= i < blen a → gb a i = gb b i) → a = b.
Proof.
  intros Hlen H. apply list_eq. intros n.
  destruct (decide (n < length a)%nat) as [Hn|Hn].
  - destruct (lookup_lt_is_Some_2 a n) as [x Hx]; [done|].
    destruct (lookup_lt_is_Some_2 b n) as [y Hy]; [unfold blen in *; lia|].
    specialize (H (Z.of_nat n)). unfold gb in H. rewrite Nat2Z.id, Hx, Hy in H.
    rewrite Hx, Hy. f_equal. apply H. unfold blen. lia.
  - rewrite !lookup_ge_None_2; [done | unfold blen in *; lia | lia].
Qed.

Lemma bsub_full {A} (b : list A) : bsub b 0 (blen b) = b.
Proof. unfold bsub, blen. simpl. rewrite drop_0. apply take_ge. lia. Qed.

Lemma bsub_app_split {A} (b : list A) lo mid hi :
  0 <= lo <= mid → mid <= hi → bsub b lo mid ++ bsub b mid hi = bsub b lo hi.
Proof.
  intros. unfold bsub.
  replace (Z.to_nat mid) with (Z.to_nat lo + Z.to_nat (mid - lo))%nat by lia.
  rewrite <- drop_drop.
  replace (Z.to_nat (hi - lo)) with (Z.to_nat (mid - lo) + Z.to_nat (hi - mid))%nat by lia.
  symmetry. rewrite <- take_take_drop. done.
Qed.

(** *** Well-formed bytes *)
Lemma gb_range b i : bytes_ok b → 0 <= gb b i < 256.
Proof.
  intros H. unfold gb. destruct (b !! Z.to_nat i) eqn:E; simpl; [|lia].
  unfold bytes_ok in H. rewrite Forall_lookup in H. eauto.
Qed.
Lemma gb16_range b i : bytes_ok b → 0 <= gb16 b i < 65536.
Proof. intros H. unfold gb16. pose proof (gb_range b i H). pose proof (gb_range b (i+1) H). lia. Qed.
Lemma gb32_range b i : bytes_ok b → 0 <= gb32 b i < 4294967296.
Proof.
  intros H. unfold gb32. pose proof (gb16_range b i H). pose proof (gb16_range b (i+2) H). lia.
Qed.

Lemma bytes_ok_app a b : bytes_ok (a ++ b) ↔ bytes_ok a ∧ bytes_ok b.
Proof. apply Forall_app. Qed.
Lemma bytes_ok_bset b i v : bytes_ok b → 0 <= v < 256 → bytes_ok (bset b i v).
Proof. intros. by apply Forall_insert. Qed.
Lemma bytes_ok_bsub b lo hi : bytes_ok b → bytes_ok (bsub b lo hi).
Proof. intros. apply Forall_take, Forall_drop. done. Qed.
Lemma bytes_ok_bcopy b off src : bytes_ok b → bytes_ok src → bytes_ok (bcopy b off src).
Proof.
  intros Hb Hs. unfold bcopy. rewrite !bytes_ok_app.
  split_and!; [by apply Forall_take | by apply Forall_take | by apply Forall_drop].
Qed.
Lemma bytes_ok_zeros n : bytes_ok (zeros n).
Proof. apply Forall_replicate. lia. Qed.
Lemma bytes_ok_enc16 v : bytes_ok (enc16 v).
Proof. repeat constructor; try lia. all: try (apply Z.mod_pos_bound; lia). Qed.
Lemma bytes_ok_enc32 v : bytes_ok (enc32 v).
Proof. repeat constructor; try lia. all: try (apply Z.mod_pos_bound; lia). Qed.
#[export] Hint Resolve bytes_ok_bset bytes_ok_bsub bytes_ok_bcopy bytes_ok_zeros
  bytes_ok_enc16 bytes_ok_enc32 : go.

(** *** The checked operations inside their bounds *)
Lemma idx_ok b i : 0 <= i < blen b → idx b i = Ok (gb b i).
Proof.
  intros. unfold idx. rewrite (proj2 (Z.leb_le _ _)), (proj2 (Z.ltb_lt _ _)) by lia. done.
Qed.
Lemma slice_ok {A} (b : list A) lo hi :
  0 <= lo → lo <= hi → hi <= blen b → slice b lo hi = Ok (bsub b lo hi).
Proof. intros. unfold slice. rewrite !(proj2 (Z.leb_le _ _)) by lia. done. Qed.
Lemma store_ok b i v : 0 <= i < blen b → store b i v = Ok (bset b i v).
Proof.
  intros. unfold store. rewrite (proj2 (Z.leb_le _ _)), (proj2 (Z.ltb_lt _ _)) by lia. done.
Qed.
Lemma copy_into_ok b lo hi src :
  0 <= lo → hi <= blen b → lo + blen src <= hi → copy_into b lo hi src = Ok (bcopy b lo src).
Proof.
  intros. pose proof (blen_nonneg src). unfold copy_into.
  rewrite !(proj2 (Z.leb_le _ _)) by lia. simpl. do 2 f_equal. apply take_ge.
  unfold blen in *. lia.
Qed.
Lemma be16_ok b i : 0 <= i → i + 2 <= blen b → be16 b i = Ok (gb16 b i).
Proof. intros. unfold be16. rewrite idx_ok by lia. simpl. rewrite idx_ok by lia. done. Qed.
Lemma be32_ok b i : 0 <= i → i + 4 <= blen b → be32 b i = Ok (gb32 b i).
Proof.
  intros. unfold be32. rewrite be16_ok by lia. simpl. rewrite be16_ok by lia. done.
Qed.
Lemma put16_ok b i v : 0 <= i → i + 2 <= blen b → put16 b i v = Ok (bcopy b i (enc16 v)).
Proof. intros. apply copy_into_ok; rewrite ?blen_enc16; lia. Qed.
Lemma put32_ok b i v : 0 <= i → i + 4 <= blen b → put32 b i v = Ok (bcopy b i (enc32 v)).
Proof. intros. apply copy_into_ok; rewrite ?blen_enc32; lia. Qed.

(** Run the checked operations of the goal whose bounds [lia] can see. *)
Ltac go_bounds := bside.
Ltac go_op :=
  match goal with
  | |- context [idx ?b ?i] => rewrite (idx_ok b i) by go_bounds
  | |- context [be16 ?b ?i] => rewrite (be16_ok b i) by go_bounds
  | |- context [be32 ?b ?i] => rewrite (be32_ok b i) by go_bounds
  | |- context [slice ?b ?lo ?hi] => rewrite (slice_ok b lo hi) by go_bounds
  | |- context [store ?b ?i ?v] => rewrite (store_ok b i v) by go_bounds
  | |- context [put16 ?b ?i ?v] => rewrite (put16_ok b i v) by go_bounds
  | |- context [put32 ?b ?i ?v] => rewrite (put32_ok b i v) by go_bounds
  | |- context [copy_into ?b ?lo ?hi ?s] => rewrite (copy_into_ok b lo hi s) by go_bounds
  end; rewrite ?bind_Ok.
Ltac go_ops := repeat go_op.
Ltac go_op_in H :=
  match type of H with
  | context [idx ?b ?i] => rewrite (idx_ok b i) in H by go_bounds
  | context [be16 ?b ?i] => rewrite (be16_ok b i) in H by go_bounds
  | context [be32 ?b ?i] => rewrite (be32_ok b i) in H by go_bounds
  | context [slice ?b ?lo ?hi] => rewrite (slice_ok b lo hi) in H by go_bounds
  | context [store ?b ?i ?v] => rewrite (store_ok b i v) in H by go_bounds
  | context [put16 ?b ?i ?v] => rewrite (put16_ok b i v) in H by go_bounds
  | context [put32 ?b ?i ?v] => rewrite (put32_ok b i v) in H by go_bounds
  | context [copy_into ?b ?lo ?hi ?s] => rewrite (copy_into_ok b lo hi s) in H by go_bounds
  end; rewrite ?bind_Ok in H.
Ltac go_ops_in H := repeat go_op_in H; cbv zeta in H.

(** Turn boolean comparisons into facts. *)
Ltac zbool :=
  repeat match goal with
  | H : (_ || _) = true |- _ => apply orb_true_iff in H
  | H : (_ || _) = false |- _ => apply orb_false_iff in H; destruct H
  | H : (_ && _) = true |- _ => apply andb_true_iff in H; destruct H
  | H : (_ && _) = false |- _ => apply andb_false_iff in H
  | H : negb _ = true |- _ => apply negb_true_iff in H
  | H : negb _ = false |- _ => apply negb_false_iff in H
  | H : (_ <? _) = true |- _ => apply Z.ltb_lt in H
  | H : (_ <? _) = false |- _ => apply Z.ltb_ge in H
  | H : (_ <=? _) = true |- _ => apply Z.leb_le in H
  | H : (_ <=? _) = false |- _ => apply Z.leb_gt in H
  | H : (_ =? _) = true |- _ => apply Z.eqb_eq in H
  | H : (_ =? _) = false |- _ => apply Z.eqb_neq in H
  end.
(** Split on the condition of the first [if] of the goal. *)
Ltac go_if :=
  match goal with
  | |- context [if ?c then _ else _] =>
      lazymatch type of c with bool => let E := fresh "Hc" in destruct c eqn:E; zbool end
  end.

(** ** Nibbles and flags *)
Lemma land_15 x : Z.land x 15 = x `mod` 16.
Proof. change 15 with (Z.ones 4). by rewrite Z.land_ones. Qed.
Lemma shiftr_4 x : Z.shiftr x 4 = x `div` 16.
Proof. by rewrite Z.shiftr_div_pow2. Qed.
Lemma land_15_range x : 0 <= Z.land x 15 < 16.
Proof. rewrite land_15. apply Z.mod_pos_bound. lia. Qed.
Lemma shiftr_4_range x : 0 <= x < 256 → 0 <= Z.shiftr x 4 < 16.
Proof. rewrite shiftr_4. intros. split; [apply Z.div_pos | apply Z.div_lt_upper_bound]; lia. Qed.

(** Decide the integer comparisons of the goal that [lia] settles. *)
Ltac zdec :=
  repeat match goal with
  | |- context [?x <? ?y] =>
      first [ rewrite (proj2 (Z.ltb_lt x y)) by lia | rewrite (proj2 (Z.ltb_ge x y)) by lia ]
  | |- context [?x <=? ?y] =>
      first [ rewrite (proj2 (Z.leb_le x y)) by lia | rewrite (proj2 (Z.leb_gt x y)) by lia ]
  | |- context [?x =? ?y] =>
      first [ rewrite (proj2 (Z.eqb_eq x y)) by lia | rewrite (proj2 (Z.eqb_neq x y)) by lia ]
  end; cbn [andb orb negb].

(** ** 16- and 32-bit fields *)
Lemma gb16_enc v b i :
  0 <= i → i + 2 <= blen b → 0 <= v < 65536 → gb16 (bcopy b i (enc16 v)) i = v.
Proof.
  intros Hi Hl Hv. unfold gb16. rewrite !gb_bcopy by (rewrite ?blen_enc16; lia).
  rewrite blen_enc16.
  rewrite !(proj2 (Z.leb_le _ _)), !(proj2 (Z.ltb_lt _ _)) by lia. simpl.
  replace (i - i) with 0 by lia. replace (i + 1 - i) with 1 by lia.
  unfold gb, enc16; simpl. rewrite (Z.mod_small (v `div` 256)) by (split; [apply Z.div_pos|apply Z.div_lt_upper_bound]; lia).
  pose proof (Z.div_mod v 256). lia.
Qed.

Lemma gb_bcopy_out b off src i :
  0 <= off → off + blen src <= blen b → 0 <= i → i < off ∨ off + blen src <= i →
  gb (bcopy b off src) i = gb b i.
Proof.
  intros ??? Ho. rewrite gb_bcopy by lia.
  destruct ((off <=? i) && (i <? off + blen src)) eqn:E; [zbool; lia | done].
Qed.
Lemma gb_bcopy_in b off src i :
  0 <= off → off + blen src <= blen b → off <= i < off + blen src →
  gb (bcopy b off src) i = gb src (i - off).
Proof.
  intros ??? . rewrite gb_bcopy by lia.
  rewrite (proj2 (Z.leb_le _ _)), (proj2 (Z.ltb_lt _ _)) by lia. done.
Qed.
Lemma gb16_bcopy_out b off src i :
  0 <= off → off + blen src <= blen b → 0 <= i → i + 2 <= off ∨ off + blen src <= i →
  gb16 (bcopy b off src) i = gb16 b i.
Proof. intros. unfold gb16. by rewrite !gb_bcopy_out by lia. Qed.
Lemma gb32_bcopy_out b off src i :
  0 <= off → off + blen src <= blen b → 0 <= i → i + 4 <= off ∨ off + blen src <= i →
  gb32 (bcopy b off src) i = gb32 b i.
Proof. intros. unfold gb32. by rewrite !gb16_bcopy_out by lia. Qed.
Lemma gb32_enc v b i :
  0 <= i → i + 4 <= blen b → 0 <= v < 4294967296 → gb32 (bcopy b i (enc32 v)) i = v.
Proof.
  intros Hi Hl Hv. unfold gb32, gb16. rewrite !gb_bcopy_in by (rewrite ?blen_enc32; lia).
  replace (i - i) with 0 by lia. replace (i + 1 - i) with 1 by lia.
  replace (i + 2 - i) with 2 by lia. replace (i + 2 + 1 - i) with 3 by lia.
  unfold gb, enc32; simpl. Z.div_mod_to_equations. lia.
Qed.
Lemma bsub_bcopy_same b off src :
  0 <= off → off + blen src <= blen b → bsub (bcopy b off src) off (off + blen src) = src.
Proof.
  intros. pose proof (blen_nonneg src). apply bytes_eq; [blia|]. intros i Hi.
  autorewrite with blen in Hi.
  rewrite gb_bsub, gb_bcopy_in by lia. f_equal. lia.
Qed.
Lemma bsub_bcopy_out b off src lo hi :
  0 <= off → off + blen src <= blen b → 0 <= lo <= hi → hi <= blen b →
  hi <= off ∨ off + blen src <= lo → bsub (bcopy b off src) lo hi = bsub b lo hi.
Proof.
  intros. pose proof (blen_nonneg src). apply bytes_eq; [blia|]. intros i Hi.
  autorewrite with blen in Hi.
  rewrite !gb_bsub, gb_bcopy_out by lia. done.
Qed.
Lemma bsub_eq a b lo hi :
  0 <= lo <= hi → hi <= blen a → hi <= blen b →
  (∀ i, lo <= i < hi → gb a i = gb b i) → bsub a lo hi = bsub b lo hi.
Proof.
  intros ??? H. apply bytes_eq; [blia|]. intros i Hi. autorewrite with blen in Hi.
  rewrite !gb_bsub by lia. apply H. lia.
Qed.
Lemma blen_0_nil {A} (b : list A) : blen b = 0 → b = [].
Proof. destruct b; [done|]. rewrite blen_cons. pose proof (blen_nonneg b). lia. Qed.
Lemma enc16_val v : 0 <= v < 65536 → (v `div` 256) `mod` 256 * 256 + v `mod` 256 = v.
Proof. intros. Z.div_mod_to_equations. lia. Qed.
Lemma enc32_val v : 0 <= v < 4294967296 →
  ((v `div` 16777216) `mod` 256 * 256 + (v `div` 65536) `mod` 256) * 65536
    + ((v `div` 256) `mod` 256 * 256 + v `mod` 256) = v.
Proof. intros. Z.div_mod_to_equations. lia. Qed.
Lemma u32_add_l x y : u32 (u32 x + y) = u32 (x + y).
Proof. unfold u32. by rewrite Z.add_mod_idemp_l by lia. Qed.
Lemma u32_add_r x y : u32 (x + u32 y) = u32 (x + y).
Proof. unfold u32. by rewrite Z.add_mod_idemp_r by lia. Qed.
Lemma bcopy_back b off v :
  0 <= off → off + blen v <= blen b →
  bcopy (bcopy b off v) off (bsub b off (off + blen v)) = b.
Proof.
  intros. pose proof (blen_nonneg v).
  assert (Hl : blen (bsub b off (off + blen v)) = blen v) by blia.
  apply bytes_eq; [blia|]. intros i Hi.
  rewrite blen_bcopy in Hi by blia. rewrite blen_bcopy in Hi by lia.
  destruct (decide (off <= i < off + blen v)).
  - rewrite gb_bcopy_in by blia. rewrite gb_bsub by lia. f_equal. lia.
  - rewrite !gb_bcopy_out by blia. done.
Qed.

(** Deciding well-formedness of concrete slices. *)
Definition bytes_okb (b : bytes) : bool := forallb (fun x => (0 <=? x) && (x <? 256)) b.
Lemma bytes_okb_ok b : bytes_okb b = true → bytes_ok b.
Proof.
  unfold bytes_okb, bytes_ok. rewrite forallb_forall, List.Forall_forall.
  intros H x Hx. specialize (H x Hx). zbool. lia.
Qed.
Lemma gb_bset_ne b i v j : 0 <= i < blen b → 0 <= j → j ≠ i → gb (bset b i v) j = gb b j.
Proof. intros. rewrite gb_bset by lia. by zdec. Qed.
Lemma gb_bset_eq b i v : 0 <= i < blen b → gb (bset b i v) i = v.
Proof. intros. rewrite gb_bset by lia. by zdec. Qed.
Lemma gb16_bset_ne b i v j :
  0 <= i < blen b → 0 <= j → i < j ∨ j + 1 < i → gb16 (bset b i v) j = gb16 b j.
Proof. intros. unfold gb16. by rewrite !gb_bset_ne by lia. Qed.
Lemma gb32_bset_ne b i v j :
  0 <= i < blen b → 0 <= j → i < j ∨ j + 3 < i → gb32 (bset b i v) j = gb32 b j.
Proof. intros. unfold gb32. by rewrite !gb16_bset_ne by lia. Qed.
(** Read through a stack of writes: skip those elsewhere, stop at the one that hits. *)
Ltac gb_read :=
  repeat first
  [ rewrite gb_bset_eq by bside
  | rewrite gb_bset_ne by bside
  | rewrite gb_bcopy_out by bside
  | rewrite gb_bcopy_in by bside
  | rewrite gb16_bset_ne by bside
  | rewrite gb16_bcopy_out by bside
  | rewrite gb16_enc by bside
  | rewrite gb32_bset_ne by bside
  | rewrite gb32_bcopy_out by bside
  | rewrite gb32_enc by bside ].
Lemma land_byte x y : 0 <= x < 256 → 0 <= Z.land x y < 256.
Proof.
  intros H. assert (E : Z.land x y = Z.land x y `mod` 256).
  { change 256 with (2 ^ 8). rewrite <- Z.land_ones by lia.
    rewrite <- Z.land_assoc, (Z.land_comm y), Z.land_assoc, Z.land_ones by lia.
    rewrite (Z.mod_small x) by (simpl; lia). done. }
  rewrite E. apply Z.mod_pos_bound. lia.
Qed.

(** ** Bit fields as arithmetic *)
Lemma land_ones_mod x n : 0 <= n → Z.land x (2 ^ n - 1) = x `mod` 2 ^ n.
Proof. intros. rewrite <- Z.land_ones by lia. by rewrite Z.ones_equiv, <- Z.sub_1_r. Qed.
Lemma land_pow2 x n : 0 <= n → Z.land x (2 ^ n) = (x `div` 2 ^ n) `mod` 2 * 2 ^ n.
Proof.
  intros Hn. rewrite <- Z.shiftr_div_pow2, <- Z.shiftl_mul_pow2 by lia.
  change 2 with (2 ^ 1) at 2. rewrite <- Z.land_ones by lia.
  apply Z.bits_inj'. intros k Hk. rewrite Z.land_spec, Z.pow2_bits_eqb by lia.
  rewrite Z.shiftl_spec by lia.
  destruct (Z.eqb_spec n k) as [->|Hne].
  - rewrite Z.sub_diag, Z.land_spec, Z.shiftr_spec by lia. by rewrite Z.add_0_l.
  - rewrite andb_false_r. destruct (decide (k < n)).
    + by rewrite Z.testbit_neg_r by lia.
    + rewrite Z.land_spec. rewrite (Z.ones_spec_high 1) by lia. by rewrite andb_false_r.
Qed.
Lemma lor_disjoint x y n : 0 <= n → 0 <= x < 2 ^ n → Z.lor (y * 2 ^ n) x = y * 2 ^ n + x.
Proof.
  intros Hn Hx. symmetry. rewrite <- Z.lxor_lor.
  - apply Z.add_nocarry_lxor. apply Z.bits_inj'. intros k Hk.
    rewrite Z.land_spec, <- Z.shiftl_mul_pow2, Z.shiftl_spec, Z.bits_0 by lia.
    destruct (decide (k < n)); [by rewrite Z.testbit_neg_r by lia|].
    rewrite <- (Z.mod_small x (2 ^ n)) by lia. rewrite Z.mod_pow2_bits_high by lia. apply andb_false_r.
  - apply Z.bits_inj'. intros k Hk.
    rewrite Z.land_spec, <- Z.shiftl_mul_pow2, Z.shiftl_spec, Z.bits_0 by lia.
    destruct (decide (k < n)); [by rewrite Z.testbit_neg_r by lia|].
    rewrite <- (Z.mod_small x (2 ^ n)) by lia. rewrite Z.mod_pow2_bits_high by lia. apply andb_false_r.
Qed.

Lemma Forall_elem {A} (P : A → Prop) l x : Forall P l → x ∈ l → P x.
Proof. intros H Hx. rewrite List.Forall_forall in H. by apply H, list_elem_of_In. Qed.

(** ** Deleting while ranging over a map: [for k, v := range m { if old(v) { delete(m, k) } }] *)
Definition sweep_map {K V} `{Countable K} (old : V → bool) (m : gmap K V) : gmap K V :=
  fold_left (fun m kv => if old (snd kv) then delete (fst kv) m else m) (map_to_list m) m.

Lemma sweep_fold_lookup {K V} `{Countable K} (old : V → bool) l (m : gmap K V) k :
  fold_left (fun m kv => if old (snd kv) then delete (fst kv) m else m) l m !! k =
    if existsb (fun kv => bool_decide (fst kv = k) && old (snd kv)) l then None else m !! k.
Proof.
  revert m. induction l as [|[k' v] l IH]; intros m; cbn; [done|]. rewrite IH.
  destruct (existsb _ l); [by rewrite orb_true_r|]. rewrite orb_false_r.
  destruct (old v); [|by rewrite andb_false_r]. rewrite andb_true_r.
  destruct (bool_decide (k' = k)) eqn:E.
  - apply bool_decide_eq_true in E as ->. apply lookup_delete_eq.
  - apply bool_decide_eq_false in E. by rewrite lookup_delete_ne.
Qed.

Lemma sweep_map_lookup {K V} `{Countable K} (old : V → bool) (m : gmap K V) k :
  sweep_map old m !! k = (v ← m !! k; if old v then None else Some v).
Proof.
  unfold sweep_map. rewrite sweep_fold_lookup.
  destruct (existsb _ _) eqn:E.
  - apply existsb_exists in E as ([k' v] & Hin & Hb). apply andb_true_iff in Hb as [Hb Ho].
    cbn in *. apply bool_decide_eq_true in Hb as ->. apply list_elem_of_In, elem_of_map_to_list in Hin.
    rewrite Hin. cbn. by rewrite Ho.
  - destruct (m !! k) as [v|] eqn:Hk; [|done]. cbn. destruct (old v) eqn:Ho; [|done].
    assert (Ht : existsb (fun kv => bool_decide (fst kv = k) && old (snd kv)) (map_to_list m) = true).
    { apply existsb_exists. exists (k, v). rewrite <- list_elem_of_In, elem_of_map_to_list. cbn.
      by rewrite bool_decide_eq_true_2. }
    congruence.
Qed.

(** ** Reading at a position of a concatenation *)
Lemma gb_at pre x post : gb (pre ++ x :: post) (blen pre) = x.
Proof. rewrite gb_app by apply blen_nonneg. rewrite Z.ltb_irrefl, Z.sub_diag. done. Qed.
Lemma gb_at1 pre x y post : gb (pre ++ x :: y :: post) (blen pre + 1) = y.
Proof.
  pose proof (blen_nonneg pre). rewrite gb_app by lia. rewrite (proj2 (Z.ltb_ge _ _)) by lia.
  by replace (blen pre + 1 - blen pre) with 1 by lia.
Qed.
Lemma gb16_at pre v post : 0 <= v < 65536 → gb16 (pre ++ enc16 v ++ post) (blen pre) = v.
Proof. intros. unfold gb16. cbn [enc16 app]. rewrite gb_at, gb_at1. by apply enc16_val. Qed.
Lemma bsub_at {A} (pre x post : list A) : bsub (pre ++ x ++ post) (blen pre) (blen pre + blen x) = x.
Proof.
  unfold bsub, blen. rewrite Nat2Z.id. replace (Z.to_nat _) with (length x) by lia.
  by rewrite drop_app_length, take_app_length.
Qed.
Lemma bsub_app_l {A} (a b : list A) lo hi : 0 <= lo → hi <= blen a → bsub (a ++ b) lo hi = bsub a lo hi.
Proof.
  intros H0 H. unfold bsub, blen in *. destruct (decide (lo < hi)) as [Hlt|Hge].
  - destruct (decide (Z.to_nat lo <= length a)%nat) as [Hl|Hl]; [|lia].
    rewrite drop_app_le by lia. rewrite take_app_le by (rewrite length_drop; lia). done.
  - replace (Z.to_nat (hi - lo)) with 0%nat by lia. by rewrite !take_0.
Qed.
