(* ===== verification/Netip.v ===== *)
(** * Addresses: what the code uses of Go's [net/netip]

    [netip.Addr] without zones (the packet path never creates one): the zero
    [Addr], an IPv4 address (4 bytes) or an IPv6 address (16 bytes).  All
    methods the sources call are here; [As4] and [As16] panic where Go's do. *)

From S2P Require Import Prelude.
Local Open Scope Z_scope.

Inductive Addr : Type :=
  | AddrZero
  | Addr4 (v : list Z)
  | Addr6 (v : list Z).

#[export] Instance Addr_eq_dec : EqDecision Addr.
Proof. solve_decision. Defined.
#[export] Program Instance Addr_countable : Countable Addr :=
  inj_countable
    (fun a => match a with AddrZero => (0, []) | Addr4 v => (4, v) | Addr6 v => (6, v) end)
    (fun '(t, v) => Some (if t =? 4 then Addr4 v else if t =? 6 then Addr6 v else AddrZero)) _.
Next Obligation. by intros []. Qed.

(** Addresses as Go can build them. *)
Definition Addr_ok (a : Addr) : Prop :=
  match a with
  | AddrZero => True
  | Addr4 v => blen v = 4 ∧ bytes_ok v
  | Addr6 v => blen v = 16 ∧ bytes_ok v
  end.

Definition AddrFrom4 (v : list Z) : Addr := Addr4 v.
Definition AddrFrom16 (v : list Z) : Addr := Addr6 v.

Definition IsValid (a : Addr) : bool := match a with AddrZero => false | _ => true end.
Definition Is4 (a : Addr) : bool := match a with Addr4 _ => true | _ => false end.
Definition Is6 (a : Addr) : bool := match a with Addr6 _ => true | _ => false end.

Definition mapped_prefix : list Z := [0;0;0;0;0;0;0;0;0;0;255;255].
Definition Is4In6 (a : Addr) : bool :=
  match a with Addr6 v => bool_decide (take 12 v = mapped_prefix) | _ => false end.

Definition Unmap (a : Addr) : Addr :=
  match a with
  | Addr6 v => if Is4In6 a then Addr4 (drop 12 v) else a
  | _ => a
  end.

Definition IsUnspecified (a : Addr) : bool :=
  match a with
  | AddrZero => false
  | Addr4 v => bool_decide (v = replicate 4 0)
  | Addr6 v => bool_decide (v = replicate 16 0)
  end.

Definition As4 (a : Addr) : Res (list Z) :=
  match a with
  | Addr4 v => Ok v
  | Addr6 v => if Is4In6 a then Ok (drop 12 v) else Panic
  | AddrZero => Panic
  end.
Definition As16 (a : Addr) : Res (list Z) :=
  match a with
  | AddrZero => Ok (replicate 16 0)
  | Addr4 v => Ok (mapped_prefix ++ v)
  | Addr6 v => Ok v
  end.

(** ** Prefixes *)
Record Prefix : Type := mkPrefix { pfx_addr : Addr; pfx_bits : Z }.

#[export] Instance Prefix_eq_dec : EqDecision Prefix.
Proof. solve_decision. Defined.

(** The address as a big-endian number. *)
Definition be_val (v : list Z) : Z := fold_left (fun acc x => acc * 256 + x) v 0.

Definition Prefix_Contains (p : Prefix) (ip : Addr) : bool :=
  match pfx_addr p, ip with
  | Addr4 v, Addr4 w =>
      (0 <=? pfx_bits p) && (Z.shiftr (be_val v) (32 - pfx_bits p) =? Z.shiftr (be_val w) (32 - pfx_bits p))
  | Addr6 v, Addr6 w =>
      (0 <=? pfx_bits p) && (Z.shiftr (be_val v) (128 - pfx_bits p) =? Z.shiftr (be_val w) (128 - pfx_bits p))
  | _, _ => false
  end.

(** ** Facts *)
Lemma Unmap_idem a : Addr_ok a → Unmap (Unmap a) = Unmap a.
Proof. destruct a as [|v|v]; simpl; try done. intros _. by destruct (bool_decide _) eqn:E; simpl; rewrite ?E. Qed.

Lemma Unmap_4 a : Is4 a = true → Unmap a = a.
Proof. by destruct a. Qed.

Lemma Unmap_ok a : Addr_ok a → Addr_ok (Unmap a).
Proof.
  destruct a as [|v|v]; simpl; try done. intros [Hl Hv].
  destruct (bool_decide _); simpl; [|done]. split.
  - unfold blen in *. rewrite length_drop. lia.
  - by apply Forall_drop.
Qed.
