(* ===== verification/Packet.v ===== *)
(** * IP packets: [internal/packet/packet.go], parsing, rewriting and MTU splitting

    Definitions follow the Go functions one for one.  A function that mutates
    its [[]byte] argument returns the new slice; a Go [error] is [Err]; an index
    outside the slice is [Panic].  The header-chain loops recurse on fuel, and
    [length b] is always enough because every iteration advances by at least
    eight bytes ([Parse_returns]). *)

From S2P Require Import Prelude Netip.
Local Open Scope Z_scope.

Definition ProtoTCP : Z := 6.
Definition ProtoUDP : Z := 17.

Definition ErrFragment : string := "fragmented packet not supported".

Record Packet : Type := mkPacket {
  pVersion : Z;
  pProtocol : Z;
  pSrc : Addr;
  pDst : Addr;
  pSrcPort : Z;
  pDstPort : Z;
  pL4 : Z;
  pTotal : Z
}.

Definition with_ports (p : Packet) (sp dp : Z) : Packet :=
  mkPacket (pVersion p) (pProtocol p) (pSrc p) (pDst p) sp dp (pL4 p) (pTotal p).
Definition with_src (p : Packet) (a : Addr) : Packet :=
  mkPacket (pVersion p) (pProtocol p) a (pDst p) (pSrcPort p) (pDstPort p) (pL4 p) (pTotal p).
Definition with_dst (p : Packet) (a : Addr) : Packet :=
  mkPacket (pVersion p) (pProtocol p) (pSrc p) a (pSrcPort p) (pDstPort p) (pL4 p) (pTotal p).

Definition ports (b : list Z) (p : Packet) : Res Packet :=
  if ((pProtocol p =? ProtoTCP) || (pProtocol p =? ProtoUDP)) && (pL4 p + 4 <=? pTotal p) then
    sp ← be16 b (pL4 p);
    dp ← be16 b (pL4 p + 2);
    Ok (with_ports p sp dp)
  else Ok p.

Definition parse4 (b : list Z) : Res Packet :=
  if blen b <? 20 then Err "short ipv4" else
  b0 ← idx b 0;
  let ihl := Z.land b0 15 * 4 in
  if (ihl <? 20) || (blen b <? ihl) then Err "bad ipv4 ihl" else
  frag ← be16 b 6;
  if negb (Z.land frag 0x3fff =? 0) then Err ErrFragment else
  total ← be16 b 2;
  let total := if (total <? ihl) || (blen b <? total) then blen b else total in
  proto ← idx b 9;
  src ← slice b 12 16;
  dst ← slice b 16 20;
  ports b (mkPacket 4 proto (AddrFrom4 src) (AddrFrom4 dst) 0 0 ihl total).

(** The extension-header loop of [parse6]: the header it stops at and its offset. *)
Fixpoint parse6_loop (fuel : nat) (b : list Z) (total next off : Z) : Res (Z * Z) :=
  match fuel with
  | O => OutOfFuel
  | S fuel =>
      if (next =? 0) || (next =? 43) || (next =? 60) then
        if total <? off + 2 then Err "short ipv6 extension" else
        next' ← idx b off;
        l ← idx b (off + 1);
        let n := (l + 1) * 8 in
        if total <? off + n then Err "bad ipv6 extension" else
        parse6_loop fuel b total next' (off + n)
      else if next =? 44 then Err ErrFragment
      else if next =? 51 then
        if total <? off + 2 then Err "short ah" else
        next' ← idx b off;
        l ← idx b (off + 1);
        let n := (l + 2) * 4 in
        if total <? off + n then Err "bad ah" else
        parse6_loop fuel b total next' (off + n)
      else Ok (next, off)
  end.

Definition parse6 (b : list Z) : Res Packet :=
  if blen b <? 40 then Err "short ipv6" else
  s ← slice b 8 24;
  d ← slice b 24 40;
  plen ← be16 b 4;
  let total := 40 + plen in
  let total :=
    if ((plen =? 0) && (40 <? blen b)) || (blen b <? total) || (total <? 40)
    then blen b else total in
  next ← idx b 6;
  '(next, off) ← parse6_loop (S (length b)) b total next 40;
  ports b (mkPacket 6 next (AddrFrom16 s) (AddrFrom16 d) 0 0 off total).

Definition Parse (b : list Z) : Res Packet :=
  if blen b <? 1 then Err "short packet" else
  b0 ← idx b 0;
  let v := Z.shiftr b0 4 in
  if v =? 4 then parse4 b
  else if v =? 6 then parse6 b
  else Err "not IP".

Definition RewriteSrc (b : list Z) (a : Addr) : Res (list Z) :=
  p ← Parse b;
  if (pVersion p =? 4) && Is4 a then
    v ← As4 a; copy_into b 12 16 v
  else if (pVersion p =? 6) && Is6 a then
    v ← As16 a; copy_into b 8 24 v
  else Err "source address family mismatch".

Definition RewriteSrcPort (b : list Z) (port : Z) : Res (list Z) :=
  p ← Parse b;
  if negb (pProtocol p =? ProtoTCP) && negb (pProtocol p =? ProtoUDP) then Err "not tcp/udp" else
  if blen b <? pL4 p + 2 then Err "short l4" else
  put16 b (pL4 p) port.

Definition RewriteDstPort (b : list Z) (port : Z) : Res (list Z) :=
  p ← Parse b;
  if negb (pProtocol p =? ProtoTCP) && negb (pProtocol p =? ProtoUDP) then Err "not tcp/udp" else
  if blen b <? pL4 p + 4 then Err "short l4" else
  put16 b (pL4 p + 2) port.

Definition RewriteDst (b : list Z) (a : Addr) : Res (list Z) :=
  p ← Parse b;
  if (pVersion p =? 4) && Is4 a then
    v ← As4 a; copy_into b 16 20 v
  else if (pVersion p =? 6) && Is6 a then
    v ← As16 a; copy_into b 24 40 v
  else Err "destination address family mismatch".

Definition TrimToIPLength (b : list Z) : Res (list Z) :=
  if blen b <? 1 then Ok b else
  b0 ← idx b 0;
  let v := Z.shiftr b0 4 in
  if v =? 4 then
    if 4 <=? blen b then
      n ← be16 b 2;
      if (20 <=? n) && (n <=? blen b) then slice b 0 n else Ok b
    else Ok b
  else if v =? 6 then
    if 6 <=? blen b then
      l ← be16 b 4;
      let n := 40 + l in
      if (40 <=? n) && (n <=? blen b) then slice b 0 n else Ok b
    else Ok b
  else Ok b.

Definition Pad16 (b : list Z) : list Z :=
  let n := (16 - blen b `mod` 16) `mod` 16 in
  if n =? 0 then b else bcopy (zeros (blen b + n)) 0 b.

(** The option walk of [ClampTCPMSS]; [hend] is [p.L4+hlen]. *)
Fixpoint clamp_loop (fuel : nat) (b : list Z) (maxMSS hend off : Z) : Res (bool * list Z) :=
  match fuel with
  | O => OutOfFuel
  | S fuel =>
      if off <? hend then
        kind ← idx b off;
        if kind =? 0 then Ok (false, b)
        else if kind =? 1 then clamp_loop fuel b maxMSS hend (off + 1)
        else if hend <? off + 2 then Err "short tcp option" else
        ln ← idx b (off + 1);
        if (ln <? 2) || (hend <? off + ln) then Err "bad tcp option length" else
        if (kind =? 2) && (ln =? 4) then
          cur ← be16 b (off + 2);
          if maxMSS <? cur then
            b' ← put16 b (off + 2) maxMSS;
            Ok (true, b')
          else Ok (false, b)
        else clamp_loop fuel b maxMSS hend (off + ln)
      else Ok (false, b)
  end.

Definition ClampTCPMSS (b : list Z) (maxMSS : Z) : Res (bool * list Z) :=
  p ← Parse b;
  if negb (pProtocol p =? ProtoTCP) || (pTotal p <? pL4 p + 20) then Ok (false, b) else
  fl ← idx b (pL4 p + 13);
  if Z.land fl 0x02 =? 0 then Ok (false, b) else
  h ← idx b (pL4 p + 12);
  let hlen := Z.shiftr h 4 * 4 in
  if (hlen <? 20) || (pTotal p <? pL4 p + hlen) then Err "bad tcp header length" else
  clamp_loop (S (length b)) b maxMSS (pL4 p + hlen) (pL4 p + 20).

Record TCPInfo : Type := mkTCPInfo {
  tiHeaderLen : Z;
  tiSeq : Z;
  tiAck : Z;
  tiFlags : Z;
  tiPayload : list Z
}.

Definition ParseTCPInfo (b : list Z) : Res (Packet * TCPInfo) :=
  p ← Parse b;
  if negb (pProtocol p =? ProtoTCP) || (pTotal p <? pL4 p + 20)
  then Err "not a complete TCP packet" else
  h ← idx b (pL4 p + 12);
  let hlen := Z.shiftr h 4 * 4 in
  if (hlen <? 20) || (pTotal p <? pL4 p + hlen) then Err "bad tcp header length" else
  seq ← be32 b (pL4 p + 4);
  ack ← be32 b (pL4 p + 8);
  fl ← idx b (pL4 p + 13);
  pl ← slice b (pL4 p + hlen) (pTotal p);
  Ok (p, mkTCPInfo hlen seq ack fl pl).

Definition BuildTCPResetReply (outbound : list Z) : Res (list Z) :=
  '(p, ti) ← ParseTCPInfo outbound;
  let segLen := u32 (blen (tiPayload ti)) in
  let segLen := if negb (Z.land (tiFlags ti) 0x02 =? 0) then u32 (segLen + 1) else segLen in
  let segLen := if negb (Z.land (tiFlags ti) 0x01 =? 0) then u32 (segLen + 1) else segLen in
  let '(seq, ack, flags) :=
    if negb (Z.land (tiFlags ti) 0x10 =? 0) then (tiAck ti, 0, 0x04)
    else (0, u32 (tiSeq ti + segLen), Z.lor 0x04 0x10) in
  if pVersion p =? 4 then
    b ← store (zeros 40) 0 0x45;
    b ← put16 b 2 40;
    b ← store b 8 64;
    b ← store b 9 ProtoTCP;
    s ← As4 (pDst p);
    d ← As4 (pSrc p);
    b ← copy_into b 12 16 s;
    b ← copy_into b 16 20 d;
    b ← put16 b 20 (pDstPort p);
    b ← put16 b 22 (pSrcPort p);
    b ← put32 b 24 seq;
    b ← put32 b 28 ack;
    b ← store b 32 (Z.shiftl 5 4);
    b ← store b 33 flags;
    put16 b 34 0
  else if pVersion p =? 6 then
    b ← store (zeros 60) 0 0x60;
    b ← put16 b 4 20;
    b ← store b 6 ProtoTCP;
    b ← store b 7 64;
    s ← As16 (pDst p);
    d ← As16 (pSrc p);
    b ← copy_into b 8 24 s;
    b ← copy_into b 24 40 d;
    b ← put16 b 40 (pDstPort p);
    b ← put16 b 42 (pSrcPort p);
    b ← put32 b 44 seq;
    b ← put32 b 48 ack;
    b ← store b 52 (Z.shiftl 5 4);
    store b 53 flags
  else Err "unsupported IP version".

Definition IsTCPSYN (b : list Z) : Res bool :=
  match Parse b with
  | Ok p =>
      if (pProtocol p =? ProtoTCP) && (pL4 p + 14 <=? pTotal p) then
        fl ← idx b (pL4 p + 13); Ok (negb (Z.land fl 0x02 =? 0))
      else Ok false
  | Err _ => Ok false
  | Panic => Panic
  | OutOfFuel => OutOfFuel
  end.

(** One segment of [SplitForMTU]: the body of its [for] loop. *)
Definition split_segment (b payload : list Z) (version l4 tcpHL baseSeq origFlags off en : Z)
    : Res (list Z) :=
  let hl := l4 + tcpHL in
  hdr ← slice b 0 hl;
  let seg := zeros (hl + (en - off)) in
  seg ← copy_into seg 0 (blen seg) hdr;
  pl ← slice payload off en;
  seg ← copy_into seg hl (blen seg) pl;
  seg ← put32 seg (l4 + 4) (u32 (baseSeq + u32 off));
  let flags :=
    if negb (en =? blen payload) then Z.land origFlags (Z.lnot (Z.lor (Z.lor 0x01 0x08) 0x80))
    else origFlags in
  seg ← store seg (l4 + 13) flags;
  seg ← store seg (l4 + 16) 0;
  seg ← store seg (l4 + 17) 0;
  if version =? 4 then
    if 65535 <? blen seg then Err "segmented IPv4 packet still too large" else
    seg ← put16 seg 2 (u16 (blen seg));
    seg ← store seg 10 0;
    store seg 11 0
  else
    let plen := blen seg - 40 in
    if 65535 <? plen then Err "segmented IPv6 payload still too large" else
    put16 seg 4 (u16 plen).

Fixpoint split_loop (fuel : nat) (b payload : list Z)
    (version l4 tcpHL baseSeq origFlags maxPayload off : Z) : Res (list (list Z)) :=
  match fuel with
  | O => OutOfFuel
  | S fuel =>
      if off <? blen payload then
        let en := off + maxPayload in
        let en := if blen payload <? en then blen payload else en in
        seg ← split_segment b payload version l4 tcpHL baseSeq origFlags off en;
        rest ← split_loop fuel b payload version l4 tcpHL baseSeq origFlags maxPayload
                 (off + maxPayload);
        Ok (seg :: rest)
      else Ok []
  end.

Definition SplitForMTU (b : list Z) (mtu : Z) : Res (list (list Z) * bool) :=
  if mtu <? 576 then Err "bad MTU" else
  if blen b <=? mtu then Ok ([b], false) else
  p ← Parse b;
  if negb (pProtocol p =? ProtoTCP) then Err "oversize non-TCP inner packet" else
  if blen b <? pL4 p + 20 then Err "short TCP LSO packet" else
  h ← idx b (pL4 p + 12);
  let tcpHL := Z.shiftr h 4 * 4 in
  if (tcpHL <? 20) || (blen b <? pL4 p + tcpHL) then Err "bad TCP header in LSO packet" else
  let maxPayload := mtu - pL4 p - tcpHL in
  if maxPayload <=? 0 then Err "MTU too small for headers" else
  payload ← slice b (pL4 p + tcpHL) (blen b);
  if blen payload =? 0 then Err "oversize TCP packet without payload" else
  baseSeq ← be32 b (pL4 p + 4);
  origFlags ← idx b (pL4 p + 13);
  if negb (Z.land origFlags 0x02 =? 0) then Err "oversize TCP SYN cannot be segmented" else
  out ← split_loop (S (length b)) b payload (pVersion p) (pL4 p) tcpHL baseSeq origFlags
          maxPayload 0;
  Ok (out, true).

(** ** Parsing *)

(** What the header walk guarantees: with eight times the fuel of the bytes
    left it returns, and it stops inside [total] at an upper-layer header. *)
Lemma parse6_loop_spec fuel b total next off :
  bytes_ok b → 0 <= next < 256 → 0 <= off <= total → total <= blen b →
  total - off < 8 * Z.of_nat fuel →
  match parse6_loop fuel b total next off with
  | Ok (nx, o) => off <= o <= total ∧ 0 <= nx < 256
  | Err _ => True
  | _ => False
  end.
Proof.
  intros Hb. revert next off.
  induction fuel as [|fuel IH]; intros next off Hn Ho Ht Hf; [lia|]. cbn [parse6_loop].
  pose proof (gb_range b off Hb). pose proof (gb_range b (off + 1) Hb).
  assert (Hstep : ∀ n, 8 <= n → off + n <= total →
    match parse6_loop fuel b total (gb b off) (off + n) with
    | Ok (nx, o) => off <= o <= total ∧ 0 <= nx < 256
    | Err _ => True
    | _ => False
    end).
  { intros n Hn8 Hnt. specialize (IH (gb b off) (off + n)).
    destruct (parse6_loop _ _ _ _ _) as [[]| | |]; [destruct IH; lia| done | |]; apply IH; lia. }
  destruct ((next =? 0) || (next =? 43) || (next =? 60)).
  { go_if; [done|]. go_ops. go_if; [done|]. apply Hstep; lia. }
  destruct (next =? 44); [done|]. destruct (next =? 51); [|split; lia].
  go_if; [done|]. go_ops. go_if; [done|]. apply Hstep; lia.
Qed.

(** The walk reads only the bytes from [off] on. *)
Lemma parse6_loop_ext fuel b b' total next off :
  blen b = blen b' → (∀ i, off <= i → gb b i = gb b' i) → 0 <= off → bytes_ok b →
  parse6_loop fuel b total next off = parse6_loop fuel b' total next off.
Proof.
  intros Hl. revert next off. induction fuel as [|fuel IH]; intros next off Heq Ho Hb; [done|].
  cbn [parse6_loop].
  assert (Hidx : ∀ i, off <= i → idx b i = idx b' i)
    by (intros i Hi; unfold idx; by rewrite Hl, Heq).
  rewrite !Hidx by lia.
  assert (Hpos : 0 <= gb b' (off + 1)) by (rewrite <- Heq by lia; by apply gb_range).
  unfold idx.
  destruct ((0 <=? off) && (off <? blen b')), ((0 <=? off + 1) && (off + 1 <? blen b'));
    simpl; try done.
  rewrite !IH; try done; try lia; intros; apply Heq; lia.
Qed.

Definition ports_of (b : list Z) (p : Packet) : Packet :=
  if ((pProtocol p =? ProtoTCP) || (pProtocol p =? ProtoUDP)) && (pL4 p + 4 <=? pTotal p)
  then with_ports p (gb16 b (pL4 p)) (gb16 b (pL4 p + 2)) else p.

Lemma ports_ok b p : 0 <= pL4 p → pTotal p <= blen b → ports b p = Ok (ports_of b p).
Proof. intros. unfold ports, ports_of. go_if; [|done]. by go_ops. Qed.

(** [parse4] with its reads done. *)
Lemma parse4_eq b : bytes_ok b →
  parse4 b =
    if blen b <? 20 then Err "short ipv4" else
    let ihl := Z.land (gb b 0) 15 * 4 in
    if (ihl <? 20) || (blen b <? ihl) then Err "bad ipv4 ihl" else
    if negb (Z.land (gb16 b 6) 0x3fff =? 0) then Err ErrFragment else
    let total := if (gb16 b 2 <? ihl) || (blen b <? gb16 b 2) then blen b else gb16 b 2 in
    Ok (ports_of b (mkPacket 4 (gb b 9) (Addr4 (bsub b 12 16)) (Addr4 (bsub b 16 20)) 0 0 ihl total)).
Proof.
  intros Hb. unfold parse4. destruct (Z.ltb_spec (blen b) 20); [done|]. go_ops.
  cbv zeta. destruct (_ || _) eqn:E; zbool; [done|]. go_ops.
  destruct (negb _); [done|]. go_ops.
  apply ports_ok; cbn [pL4 pTotal]; [lia|].
  destruct ((gb16 b 2 <? _) || (blen b <? gb16 b 2)) eqn:E2; zbool; lia.
Qed.

Definition total6 (b : list Z) : Z :=
  if ((gb16 b 4 =? 0) && (40 <? blen b)) || (blen b <? 40 + gb16 b 4) || (40 + gb16 b 4 <? 40)
  then blen b else 40 + gb16 b 4.

Lemma total6_range b : bytes_ok b → 40 <= blen b → 40 <= total6 b <= blen b.
Proof.
  intros Hb H. unfold total6. pose proof (gb16_range b 4 Hb).
  destruct (_ || _) eqn:E; zbool; lia.
Qed.

Lemma parse6_eq b : bytes_ok b →
  parse6 b =
    if blen b <? 40 then Err "short ipv6" else
    '(next, off) ← parse6_loop (S (length b)) b (total6 b) (gb b 6) 40;
    Ok (ports_of b (mkPacket 6 next (Addr6 (bsub b 8 24)) (Addr6 (bsub b 24 40)) 0 0 off (total6 b))).
Proof.
  intros Hb. unfold parse6. destruct (Z.ltb_spec (blen b) 40); [done|]. go_ops.
  cbv zeta. go_ops. fold (total6 b). pose proof (total6_range b Hb).
  pose proof (parse6_loop_spec (S (length b)) b (total6 b) (gb b 6) 40 Hb (gb_range b 6 Hb)) as Hl.
  unfold blen in *.
  destruct (parse6_loop _ _ _ _ _) as [[nx o]| | |]; try done. simpl.
  destruct Hl; try lia. apply ports_ok; cbn; unfold blen; lia.
Qed.

Lemma Parse_eq b : bytes_ok b →
  Parse b = if blen b <? 1 then Err "short packet" else
            if Z.shiftr (gb b 0) 4 =? 4 then parse4 b
            else if Z.shiftr (gb b 0) 4 =? 6 then parse6 b else Err "not IP".
Proof. intros Hb. unfold Parse. destruct (Z.ltb_spec (blen b) 1); [done|]. by go_ops. Qed.

(** Which address fields a packet of a given version has, and its length. *)
Definition src_of (v : Z) (b : list Z) : Addr :=
  if v =? 4 then Addr4 (bsub b 12 16) else Addr6 (bsub b 8 24).
Definition dst_of (v : Z) (b : list Z) : Addr :=
  if v =? 4 then Addr4 (bsub b 16 20) else Addr6 (bsub b 24 40).
Definition total_of (v l4 : Z) (b : list Z) : Z :=
  if v =? 4 then if (gb16 b 2 <? l4) || (blen b <? gb16 b 2) then blen b else gb16 b 2
  else total6 b.
(** The packet read off [b], given where its transport header starts. *)
Definition packet_of (v proto l4 : Z) (b : list Z) : Packet :=
  ports_of b (mkPacket v proto (src_of v b) (dst_of v b) 0 0 l4 (total_of v l4 b)).

(** A parsed packet: its fields are those of the header, and they are in range. *)
Definition Packet_ok (b : list Z) (p : Packet) : Prop :=
  (pVersion p = 4 ∧ 20 <= pL4 p <= 60 ∨ pVersion p = 6 ∧ 40 <= pL4 p) ∧
  pL4 p <= pTotal p <= blen b ∧
  0 <= pProtocol p < 256 ∧
  p = packet_of (pVersion p) (pProtocol p) (pL4 p) b.

Lemma ports_of_fields b p :
  pVersion (ports_of b p) = pVersion p ∧ pProtocol (ports_of b p) = pProtocol p ∧
  pSrc (ports_of b p) = pSrc p ∧ pDst (ports_of b p) = pDst p ∧
  pL4 (ports_of b p) = pL4 p ∧ pTotal (ports_of b p) = pTotal p.
Proof. unfold ports_of. by destruct (_ && _). Qed.

Lemma Parse_spec b : bytes_ok b →
  match Parse b with Ok p => Packet_ok b p | Err _ => True | _ => False end.
Proof.
  intros Hb. rewrite Parse_eq by done. destruct (Z.ltb_spec (blen b) 1); [done|].
  pose proof (gb_range b 9 Hb). pose proof (gb16_range b 2 Hb). pose proof (gb_range b 6 Hb).
  destruct (Z.shiftr (gb b 0) 4 =? 4).
  - rewrite parse4_eq by done. destruct (Z.ltb_spec (blen b) 20); [done|]. cbv zeta.
    pose proof (land_15_range (gb b 0)).
    destruct (_ || _) eqn:E; zbool; [done|]. destruct (negb _); [done|].
    match goal with |- Packet_ok _ (ports_of _ ?q) => set (q0 := q) end.
    pose proof (ports_of_fields b q0) as (Ev & Ep & Es & Ed & El & Et).
    unfold Packet_ok. rewrite Ev, Ep, El, Et. subst q0; cbn. repeat split; try lia.
    all: try (destruct (_ || _) eqn:E2; zbool; lia).
  - destruct (Z.shiftr (gb b 0) 4 =? 6); [|done]. rewrite parse6_eq by done.
    destruct (Z.ltb_spec (blen b) 40); [done|]. pose proof (total6_range b Hb).
    pose proof (parse6_loop_spec (S (length b)) b (total6 b) (gb b 6) 40 Hb) as Hl.
    destruct (parse6_loop _ _ _ _ _) as [[nx o]| | |]; try (apply Hl; unfold blen in *; lia).
    simpl. destruct Hl as [Hl1 Hl2]; [lia..|unfold blen in *; lia|].
    match goal with |- Packet_ok _ (ports_of _ ?q) => set (q0 := q) end.
    pose proof (ports_of_fields b q0) as (Ev & Ep & Es & Ed & El & Et).
    unfold Packet_ok. rewrite Ev, Ep, El, Et. subst q0; cbn. repeat split; lia.
Qed.

Lemma Parse_Ok b p : bytes_ok b → Parse b = Ok p → Packet_ok b p.
Proof. intros Hb H. pose proof (Parse_spec b Hb) as Hs. by rewrite H in Hs. Qed.

Lemma parse6_loop_agree fuel fuel' b b' total total' next off nx o :
  bytes_ok b → 0 <= off → total <= blen b →
  parse6_loop fuel b total next off = Ok (nx, o) →
  o <= total' <= blen b' → (∀ i, off <= i < o → gb b' i = gb b i) →
  o - off < 8 * Z.of_nat fuel' →
  off <= o ∧ parse6_loop fuel' b' total' next off = Ok (nx, o).
Proof.
  intros Hb Hoff Ht H Ho Hag Hf. revert fuel' next off Hoff H Hag Hf.
  induction fuel as [|fuel IH]; intros fuel' next off Hoff H Hag Hf; [done|].
  cbn [parse6_loop] in H.
  assert (Hstep : ∀ n, 8 <= n → off + n <= total → off + 2 <= total →
    parse6_loop fuel b total (gb b off) (off + n) = Ok (nx, o) →
    ∃ f, fuel' = S f ∧ off + n <= o ∧ gb b' off = gb b off ∧ gb b' (off + 1) = gb b (off + 1) ∧
      parse6_loop f b' total' (gb b off) (off + n) = Ok (nx, o)).
  { intros n Hn Hnt Hot Hrec.
    destruct fuel' as [|f].
    { exfalso. destruct (IH (S (Z.to_nat (o - (off + n)))) (gb b off) (off + n)) as [Hle _];
        try done; try lia; intros; apply Hag; lia. }
    destruct (IH f (gb b off) (off + n)) as [Hle Hr]; try done; try lia;
      [intros; apply Hag; lia|].
    exists f. repeat split; try done; apply Hag; lia. }
  pose proof (gb_range b (off + 1) Hb).
  destruct ((next =? 0) || (next =? 43) || (next =? 60)) eqn:E0.
  { destruct (Z.ltb_spec total (off + 2)); [done|].
    rewrite !idx_ok in H by lia. rewrite !bind_Ok in H. cbv zeta in H.
    destruct (Z.ltb_spec total (off + (gb b (off + 1) + 1) * 8)); [done|].
    destruct (Hstep ((gb b (off + 1) + 1) * 8)) as (f & -> & Hle & G1 & G2 & Hr); try done; try lia.
    split; [lia|]. cbn [parse6_loop]. rewrite E0. zdec. go_ops. rewrite G1, G2. by zdec. }
  destruct (next =? 44) eqn:E1; [done|]. destruct (next =? 51) eqn:E2.
  { destruct (Z.ltb_spec total (off + 2)); [done|].
    rewrite !idx_ok in H by lia. rewrite !bind_Ok in H. cbv zeta in H.
    destruct (Z.ltb_spec total (off + (gb b (off + 1) + 2) * 4)); [done|].
    destruct (Hstep ((gb b (off + 1) + 2) * 4)) as (f & -> & Hle & G1 & G2 & Hr); try done; try lia.
    split; [lia|]. cbn [parse6_loop]. rewrite E0, E1, E2. zdec. go_ops. rewrite G1, G2. by zdec. }
  injection H as -> ->. split; [lia|]. destruct fuel'; [lia|]. cbn [parse6_loop].
  by rewrite E0, E1, E2.
Qed.

(** The bytes before the transport header that decide how a packet parses:
    everything but lengths, addresses and (IPv4) identification, TTL, checksum. *)
Definition hdr_fixed (v i : Z) : bool :=
  if v =? 4 then (i =? 0) || (i =? 6) || (i =? 7) || (i =? 9)
  else (i =? 0) || (i =? 6) || (40 <=? i).

(** Two packets that agree on those bytes parse alike: the workhorse of every
    theorem about a rewritten packet. *)
Lemma Parse_transfer b b' p :
  bytes_ok b → bytes_ok b' → Parse b = Ok p → pL4 p <= blen b' →
  pL4 p <= total_of (pVersion p) (pL4 p) b' →
  (∀ i, 0 <= i < pL4 p → hdr_fixed (pVersion p) i = true → gb b' i = gb b i) →
  Parse b' = Ok (packet_of (pVersion p) (pProtocol p) (pL4 p) b').
Proof.
  intros Hb Hb' HP Hl Htot Hag. pose proof (Parse_Ok b p Hb HP) as (Hv & Hr & Hpr & Heq).
  rewrite Parse_eq in HP |- * by done.
  assert (0 < blen b') by lia. assert (gb b' 0 = gb b 0) as H0.
  { apply Hag; [lia|]. unfold hdr_fixed. by destruct (pVersion p =? 4). }
  rewrite H0. zdec. destruct (Z.ltb_spec (blen b) 1); [done|].
  destruct (Z.shiftr (gb b 0) 4 =? 4).
  - rewrite parse4_eq in HP |- * by done. destruct (Z.ltb_spec (blen b) 20); [done|].
    cbv zeta in HP |- *. rewrite H0. set (ihl := Z.land (gb b 0) 15 * 4) in *. clearbody ihl.
    destruct ((ihl <? 20) || (blen b <? ihl)) eqn:E; [done|].
    destruct (negb (Z.land (gb16 b 6) _ =? 0)) eqn:En; [done|]. injection HP as HP.
    set (q := mkPacket _ _ _ _ _ _ _ _) in HP.
    pose proof (ports_of_fields b q) as (Ev & Ep & _ & _ & El & _). rewrite HP in Ev, Ep, El.
    subst q; cbn in Ev, Ep, El. rewrite Ev in Hag. zbool.
    assert (H67 : gb16 b' 6 = gb16 b 6).
    { unfold gb16. rewrite !Hag; try done; lia. }
    rewrite (Hag 9) by (done || lia).
    rewrite H67, En, <- El. zdec. unfold packet_of, src_of, dst_of, total_of.
    by rewrite Ev, Ep.
  - destruct (Z.shiftr (gb b 0) 4 =? 6); [|done]. rewrite parse6_eq in HP |- * by done.
    destruct (Z.ltb_spec (blen b) 40); [done|].
    destruct (parse6_loop (S (length b)) _ _ _ _) as [[nx o]| | |] eqn:Elp; try done.
    rewrite bind_Ok in HP. injection HP as HP.
    set (q := mkPacket _ _ _ _ _ _ _ _) in HP.
    pose proof (ports_of_fields b q) as (Ev & Ep & _ & _ & El & _). rewrite HP in Ev, Ep, El.
    subst q; cbn in Ev, Ep, El. rewrite Ev in Hag.
    assert (40 <= pL4 p) by lia. pose proof (total6_range b' Hb').
    pose proof (total6_range b Hb).
    rewrite (Hag 6) by (done || lia). zdec.
    unfold total_of in Htot. rewrite Ev in Htot. simpl in Htot.
    destruct (parse6_loop_agree (S (length b)) (S (length b')) b b' (total6 b) (total6 b') (gb b 6) 40 nx o)
      as [Ho Hloop]; try done; try lia.
    + intros i Hi. apply Hag; [lia|]. unfold hdr_fixed. simpl. zdec. lia.
    + unfold blen in *. lia.
    + rewrite Hloop, bind_Ok. unfold packet_of, src_of, dst_of, total_of.
      rewrite Ev, Ep, <- El. done.
Qed.

(** ** Rewriting headers *)

Definition family_ok (v : Z) (a : Addr) : bool := if v =? 4 then Is4 a else Is6 a.
Definition src_off (v : Z) : Z := if v =? 4 then 12 else 8.
Definition dst_off (v : Z) : Z := if v =? 4 then 16 else 24.
Definition addr_bytes (a : Addr) : list Z :=
  match a with AddrZero => [] | Addr4 v | Addr6 v => v end.

Lemma Packet_version b p : Packet_ok b p → pVersion p = 4 ∨ pVersion p = 6.
Proof. intros ([[]|[]] & _); auto. Qed.

Lemma Packet_ok_fields b p : Packet_ok b p →
  pSrc p = src_of (pVersion p) b ∧ pDst p = dst_of (pVersion p) b ∧
  pTotal p = total_of (pVersion p) (pL4 p) b.
Proof.
  intros (_ & _ & _ & Heq). set (v := pVersion p) in *. set (l := pL4 p) in *.
  rewrite Heq. unfold packet_of.
  destruct (ports_of_fields b (mkPacket v (pProtocol p) (src_of v b) (dst_of v b) 0 0 l
    (total_of v l b))) as (_&_&->&->&_&->). done.
Qed.

(** The same packet but for its addresses, when ports and length are intact. *)
Lemma packet_of_agree b b' p :
  Packet_ok b p → total_of (pVersion p) (pL4 p) b' = pTotal p →
  (∀ i, pL4 p <= i < pL4 p + 4 → gb b' i = gb b i) →
  packet_of (pVersion p) (pProtocol p) (pL4 p) b' =
    mkPacket (pVersion p) (pProtocol p) (src_of (pVersion p) b') (dst_of (pVersion p) b')
      (pSrcPort p) (pDstPort p) (pL4 p) (pTotal p).
Proof.
  intros Hok Ht Hag. pose proof (Packet_ok_fields b p Hok) as (_ & _ & Ht').
  destruct Hok as (_ & _ & _ & Heq).
  assert (Hp : gb16 b' (pL4 p) = gb16 b (pL4 p) ∧ gb16 b' (pL4 p + 2) = gb16 b (pL4 p + 2)).
  { unfold gb16. rewrite !Hag by lia. done. }
  revert Ht Ht' Hp Heq. clear Hag. destruct p as [v pr s d sp dp l t]. cbn.
  unfold packet_of, ports_of; cbn. intros -> <- [-> ->] Heq.
  destruct (_ && _) in Heq |- *; by injection Heq as -> -> -> ->.
Qed.

(** Overwriting bytes that are not read by the header walk keeps version,
    protocol, offset and length. *)
Lemma Parse_bcopy b p off s :
  bytes_ok b → bytes_ok s → Parse b = Ok p → 0 <= off → off + blen s <= blen b →
  (∀ i, off <= i < off + blen s → 8 <= i ∧
     ((pVersion p = 4 ∧ i ≠ 9) ∨ (pVersion p = 6 ∧ i < 40) ∨ pL4 p <= i)) →
  Parse (bcopy b off s) = Ok (packet_of (pVersion p) (pProtocol p) (pL4 p) (bcopy b off s)) ∧
  total_of (pVersion p) (pL4 p) (bcopy b off s) = pTotal p.
Proof.
  intros Hb Hs HP Ho Hl Hin. pose proof (Parse_Ok b p Hb HP) as Hok.
  pose proof Hok as (Hv & Hr & Hpr & Heq). pose proof (blen_nonneg s).
  assert (Hlen : blen (bcopy b off s) = blen b) by blia.
  assert (Hsame : ∀ i, 0 <= i → (i < off ∨ off + blen s <= i) → gb (bcopy b off s) i = gb b i).
  { intros. apply gb_bcopy_out; lia. }
  assert (Hfix : ∀ i, 0 <= i < pL4 p → hdr_fixed (pVersion p) i = true →
                      gb (bcopy b off s) i = gb b i).
  { intros i Hi Hf. apply Hsame; [lia|].
    destruct (decide (i < off)); [lia|]. destruct (decide (off + blen s <= i)); [lia|].
    specialize (Hin i). unfold hdr_fixed in Hf. destruct (Packet_version b p Hok) as [E|E];
      rewrite E in *; simpl in Hf; zbool; lia. }
  assert (Hsmall : ∀ i, 0 <= i < 8 → gb (bcopy b off s) i = gb b i).
  { intros i Hi. apply Hsame; [lia|]. destruct (decide (off + blen s <= i)); [lia|].
    destruct (decide (i < off)); [lia|]. specialize (Hin i). lia. }
  assert (Htot : total_of (pVersion p) (pL4 p) (bcopy b off s) = pTotal p).
  { destruct (Packet_ok_fields b p Hok) as (_ & _ & ->).
    unfold total_of, total6, gb16. by rewrite Hlen, !Hsmall by lia. }
  split; [|done]. apply Parse_transfer with b; auto with go; try lia.
Qed.

(** A rewrite step: the address bytes at [off] replaced by those of [a]. *)
Lemma Parse_address b p off v :
  bytes_ok b → bytes_ok v → Parse b = Ok p →
  (pVersion p = 4 ∧ blen v = 4 ∧ 12 <= off <= 16 ∨
   pVersion p = 6 ∧ blen v = 16 ∧ 8 <= off <= 24) →
  off + blen v <= blen b ∧
  Parse (bcopy b off v) =
    Ok (mkPacket (pVersion p) (pProtocol p) (src_of (pVersion p) (bcopy b off v))
          (dst_of (pVersion p) (bcopy b off v)) (pSrcPort p) (pDstPort p) (pL4 p) (pTotal p)).
Proof.
  intros Hb Hv HP Hoff. pose proof (Parse_Ok b p Hb HP) as Hok.
  pose proof Hok as (Hver & Hr & _ & _). split; [lia|].
  destruct (Parse_bcopy b p off v) as [H1 H2]; try done; try lia.
  rewrite H1. f_equal. apply packet_of_agree with b; try done.
  intros i Hi. apply gb_bcopy_out; lia.
Qed.

Lemma RewriteSrc_spec b a p :
  bytes_ok b → Addr_ok a → Parse b = Ok p →
  if family_ok (pVersion p) a then
    RewriteSrc b a = Ok (bcopy b (src_off (pVersion p)) (addr_bytes a)) ∧
    Parse (bcopy b (src_off (pVersion p)) (addr_bytes a)) = Ok (with_src p a)
  else RewriteSrc b a = Err "source address family mismatch".
Proof.
  intros Hb Ha HP. pose proof (Parse_Ok b p Hb HP) as Hok.
  destruct (Packet_ok_fields b p Hok) as (_ & Hd & _).
  pose proof (Parse_address b p) as Hp.
  destruct (Packet_version b p Hok) as [E|E];
    unfold family_ok, src_off, RewriteSrc; rewrite HP, bind_Ok, E; simpl;
    destruct a as [|v|v]; simpl; try done; destruct Ha as [Hlv Hbv].
  - destruct (Hp 12 v) as [Hl H]; try done; try lia.
    rewrite copy_into_ok by lia. split; [done|]. rewrite H. f_equal. unfold with_src.
    f_equal; rewrite ?Hd; unfold src_of, dst_of; rewrite E; simpl; f_equal.
    + replace 16 with (12 + blen v) by lia. apply bsub_bcopy_same; lia.
    + apply bsub_bcopy_out; destruct Hok; lia.
  - destruct (Hp 8 v) as [Hl H]; try done; try lia.
    rewrite copy_into_ok by lia. split; [done|]. rewrite H. f_equal. unfold with_src.
    f_equal; rewrite ?Hd; unfold src_of, dst_of; rewrite E; simpl; f_equal.
    + replace 24 with (8 + blen v) by lia. apply bsub_bcopy_same; lia.
    + apply bsub_bcopy_out; destruct Hok; lia.
Qed.

Lemma RewriteDst_spec b a p :
  bytes_ok b → Addr_ok a → Parse b = Ok p →
  if family_ok (pVersion p) a then
    RewriteDst b a = Ok (bcopy b (dst_off (pVersion p)) (addr_bytes a)) ∧
    Parse (bcopy b (dst_off (pVersion p)) (addr_bytes a)) = Ok (with_dst p a)
  else RewriteDst b a = Err "destination address family mismatch".
Proof.
  intros Hb Ha HP. pose proof (Parse_Ok b p Hb HP) as Hok.
  destruct (Packet_ok_fields b p Hok) as (Hs & _ & _).
  pose proof (Parse_address b p) as Hp.
  destruct (Packet_version b p Hok) as [E|E];
    unfold family_ok, dst_off, RewriteDst; rewrite HP, bind_Ok, E; simpl;
    destruct a as [|v|v]; simpl; try done; destruct Ha as [Hlv Hbv].
  - destruct (Hp 16 v) as [Hl H]; try done; try lia.
    rewrite copy_into_ok by lia. split; [done|]. rewrite H. f_equal. unfold with_dst.
    f_equal; rewrite ?Hs; unfold src_of, dst_of; rewrite E; simpl; f_equal.
    + apply bsub_bcopy_out; destruct Hok; lia.
    + replace 20 with (16 + blen v) by lia. apply bsub_bcopy_same; lia.
  - destruct (Hp 24 v) as [Hl H]; try done; try lia.
    rewrite copy_into_ok by lia. split; [done|]. rewrite H. f_equal. unfold with_dst.
    f_equal; rewrite ?Hs; unfold src_of, dst_of; rewrite E; simpl; f_equal.
    + apply bsub_bcopy_out; destruct Hok; lia.
    + replace 40 with (24 + blen v) by lia. apply bsub_bcopy_same; lia.
Qed.

Definition transport (p : Packet) : bool := (pProtocol p =? ProtoTCP) || (pProtocol p =? ProtoUDP).

Definition has_ports (p : Packet) : bool := transport p && (pL4 p + 4 <=? pTotal p).

Lemma Packet_ports b p : Packet_ok b p →
  pSrcPort p = (if has_ports p then gb16 b (pL4 p) else 0) ∧
  pDstPort p = (if has_ports p then gb16 b (pL4 p + 2) else 0).
Proof.
  intros Hok. destruct (Packet_ok_fields b p Hok) as (_ & _ & Ht).
  destruct Hok as (_ & _ & _ & Heq). unfold has_ports, transport.
  unfold packet_of, ports_of in Heq. cbn in Heq. rewrite <- Ht in Heq.
  destruct (_ && _); rewrite Heq; done.
Qed.

(** Overwriting bytes at or after the transport header re-reads the ports only. *)
Lemma Parse_payload b p off s :
  bytes_ok b → bytes_ok s → Parse b = Ok p → pL4 p <= off → off + blen s <= blen b →
  Parse (bcopy b off s) =
    Ok (with_ports p (if has_ports p then gb16 (bcopy b off s) (pL4 p) else 0)
                     (if has_ports p then gb16 (bcopy b off s) (pL4 p + 2) else 0)).
Proof.
  intros Hb Hs HP Ho Hl. pose proof (Parse_Ok b p Hb HP) as Hok.
  pose proof Hok as (Hver & Hr & _ & _). pose proof (blen_nonneg s).
  destruct (Packet_ok_fields b p Hok) as (Hsrc & Hdst & _).
  destruct (Parse_bcopy b p off s) as [H1 H2]; try done; try lia.
  assert (src_of (pVersion p) (bcopy b off s) = pSrc p ∧ dst_of (pVersion p) (bcopy b off s) = pDst p)
    as [Es Ed].
  { rewrite Hsrc, Hdst. unfold src_of, dst_of.
    destruct (Packet_version b p Hok) as [E|E]; rewrite E; simpl; split; f_equal;
      apply bsub_bcopy_out; lia. }
  rewrite H1. unfold packet_of, ports_of, has_ports, transport. rewrite H2, Es, Ed. cbn.
  by destruct (_ && _).
Qed.

Lemma RewriteSrcPort_spec b port p :
  bytes_ok b → 0 <= port < 65536 → Parse b = Ok p →
  if transport p then
    if pL4 p + 2 <=? blen b then
      RewriteSrcPort b port = Ok (bcopy b (pL4 p) (enc16 port)) ∧
      Parse (bcopy b (pL4 p) (enc16 port)) =
        Ok (if has_ports p then with_ports p port (pDstPort p) else p)
    else RewriteSrcPort b port = Err "short l4"
  else RewriteSrcPort b port = Err "not tcp/udp".
Proof.
  intros Hb Hport HP. pose proof (Parse_Ok b p Hb HP) as Hok.
  pose proof Hok as (Hver & Hr & _ & _). destruct (Packet_ports b p Hok) as [Hsp Hdp].
  unfold RewriteSrcPort; rewrite HP, bind_Ok, <- negb_orb. fold (transport p).
  destruct (transport p) eqn:Et; [|done]. cbn [negb].
  destruct (Z.leb_spec (pL4 p + 2) (blen b)) as [Hl|Hl]; zdec; [|done].
  rewrite put16_ok by lia. split; [done|].
  rewrite Parse_payload with (p := p); rewrite ?blen_enc16; auto with go; try lia. f_equal.
  destruct (has_ports p) eqn:E; [|by destruct p; cbn in *; subst].
  unfold has_ports in E. zbool.
  rewrite Hdp, gb16_enc, gb16_bcopy_out by (rewrite ?blen_enc16; lia). done.
Qed.

Lemma RewriteDstPort_spec b port p :
  bytes_ok b → 0 <= port < 65536 → Parse b = Ok p →
  if transport p then
    if pL4 p + 4 <=? blen b then
      RewriteDstPort b port = Ok (bcopy b (pL4 p + 2) (enc16 port)) ∧
      Parse (bcopy b (pL4 p + 2) (enc16 port)) =
        Ok (if has_ports p then with_ports p (pSrcPort p) port else p)
    else RewriteDstPort b port = Err "short l4"
  else RewriteDstPort b port = Err "not tcp/udp".
Proof.
  intros Hb Hport HP. pose proof (Parse_Ok b p Hb HP) as Hok.
  pose proof Hok as (Hver & Hr & _ & _). destruct (Packet_ports b p Hok) as [Hsp Hdp].
  unfold RewriteDstPort; rewrite HP, bind_Ok, <- negb_orb. fold (transport p).
  destruct (transport p) eqn:Et; [|done]. cbn [negb].
  destruct (Z.leb_spec (pL4 p + 4) (blen b)) as [Hl|Hl]; zdec; [|done].
  rewrite put16_ok by lia. split; [done|].
  rewrite Parse_payload with (p := p); rewrite ?blen_enc16; auto with go; try lia. f_equal.
  destruct (has_ports p) eqn:E; [|by destruct p; cbn in *; subst].
  unfold has_ports in E. zbool.
  rewrite Hsp, gb16_enc, gb16_bcopy_out by (rewrite ?blen_enc16; lia). done.
Qed.

(** ** MSS clamping *)

(** An MSS option at [off], and the options a TCP receiver reaches from [off]:
    NOPs and options other than MSS are skipped, End-of-options stops. *)
Definition mss_option (b : list Z) (hend off : Z) : Prop :=
  off + 4 <= hend ∧ gb b off = 2 ∧ gb b (off + 1) = 4.

Inductive opt_reach (b : list Z) (hend : Z) : Z → Z → Prop :=
  | opt_here off : opt_reach b hend off off
  | opt_nop off o :
      off < hend → gb b off = 1 → opt_reach b hend (off + 1) o → opt_reach b hend off o
  | opt_skip off o :
      off < hend → gb b off ≠ 0 → gb b off ≠ 1 → ¬ mss_option b hend off →
      opt_reach b hend (off + gb b (off + 1)) o → opt_reach b hend off o.

(** What one run of the loop does to the slice. *)
Definition clamp_effect (b : list Z) (m hend off : Z) (ch : bool) (b' : list Z) : Prop :=
  if ch then ∃ o, off <= o ∧ mss_option b hend o ∧ opt_reach b hend off o ∧
                  m < gb16 b (o + 2) ∧ b' = bcopy b (o + 2) (enc16 m)
  else b' = b.

Lemma clamp_effect_prefix b m hend off ch b' i :
  hend <= blen b → 0 <= off → clamp_effect b m hend off ch b' → 0 <= i < off + 2 → gb b' i = gb b i.
Proof.
  intros Hh Ho H Hi. destruct ch; simpl in H; [|by subst].
  destruct H as (o & Hle & (Hm & _) & _ & _ & ->).
  rewrite gb_bcopy_out; rewrite ?blen_enc16; try done; lia.
Qed.

Lemma clamp_loop_spec fuel b m hend off :
  bytes_ok b → 0 <= m < 65536 → 0 <= off <= hend → hend <= blen b → hend - off < Z.of_nat fuel →
  match clamp_loop fuel b m hend off with
  | Ok (ch, b') =>
      clamp_effect b m hend off ch b' ∧
      ∀ o, opt_reach b' hend off o → mss_option b' hend o → gb16 b' (o + 2) <= m
  | Err _ => True
  | _ => False
  end.
Proof.
  intros Hb Hm. revert off.
  induction fuel as [|fuel IH]; intros off Ho Hh Hf; [lia|]. cbn [clamp_loop].
  destruct (Z.ltb_spec off hend) as [Hlt|Hge].
  2:{ split; [done|]. intros o Hr [Hmo _]. inversion Hr; subst; lia. }
  go_ops. pose proof (gb_range b (off + 1) Hb).
  destruct (Z.eqb_spec (gb b off) 0) as [H0|H0].
  { split; [done|]. intros o Hr (_ & H2 & _). inversion Hr; subst; lia. }
  assert (Hstep : ∀ n, 1 <= n → off + n <= hend → ¬ mss_option b hend off →
    (gb b off = 1 ∧ n = 1 ∨ 2 <= n ∧ gb b off ≠ 1 ∧ n = gb b (off + 1)) →
    match clamp_loop fuel b m hend (off + n) with
    | Ok (ch, b') =>
        clamp_effect b m hend off ch b' ∧
        ∀ o, opt_reach b' hend off o → mss_option b' hend o → gb16 b' (o + 2) <= m
    | Err _ => True
    | _ => False
    end).
  { intros n Hn Hne Hnm Hk. specialize (IH (off + n)).
    destruct (clamp_loop _ _ _ _ _) as [[ch b']| | |]; [|done|apply IH; lia|apply IH; lia].
    destruct IH as [He Hall]; [lia..|].
    assert (Hpre : ∀ i, 0 <= i < off + n + 2 → gb b' i = gb b i)
      by (intros; eapply clamp_effect_prefix; eauto; lia).
    split.
    - destruct ch; simpl in *; [|done]. destruct He as (o & Hle & Hmo & Hr & Hmm & ->).
      exists o. split_and!; try done; [lia|].
      destruct Hk as [[Hk ->]|(Hk1 & Hk2 & ->)]; [by apply opt_nop | by apply opt_skip].
    - intros o Hr Hmo. apply Hall; [|done]. inversion Hr; subst.
      + exfalso. apply Hnm. destruct Hmo as (? & ? & ?). unfold mss_option.
        rewrite <- !Hpre by lia. done.
      + rewrite Hpre in * by lia. destruct Hk as [[_ ->]|]; [done|lia].
      + rewrite !Hpre in * by lia. destruct Hk as [|(_ & _ & ->)]; [lia|done]. }
  destruct (Z.eqb_spec (gb b off) 1) as [H1|H1].
  { apply Hstep; [lia..| |auto]. intros (_ & ? & _). lia. }
  destruct (Z.ltb_spec hend (off + 2)); [done|]. go_ops.
  destruct ((gb b (off + 1) <? 2) || (hend <? off + gb b (off + 1))) eqn:E; zbool; [done|].
  destruct ((gb b off =? 2) && (gb b (off + 1) =? 4)) eqn:E2; zbool.
  2:{ apply Hstep; [lia..| |right; lia]. intros (? & ? & ?). lia. }
  assert (Hmss : mss_option b hend off) by (split; lia).
  go_ops. destruct (Z.ltb_spec m (gb16 b (off + 2))) as [Hgt|Hle].
  - split.
    { exists off. split_and!; try done. constructor. }
    intros o Hr Hmo. inversion Hr; subst.
    + rewrite gb16_enc by lia. lia.
    + rewrite gb_bcopy_out in * by (rewrite ?blen_enc16; lia). lia.
    + exfalso. match goal with H : ¬ mss_option _ _ _ |- _ => apply H end.
      unfold mss_option. rewrite !gb_bcopy_out by (rewrite ?blen_enc16; lia). split; lia.
  - split; [done|]. intros o Hr Hmo. inversion Hr; subst; [done|lia|done].
Qed.

(** The TCP SYN a clamp looks at: its option area ends at [hend]. *)
Definition clampable (b : list Z) (p : Packet) (hend : Z) : Prop :=
  pProtocol p = ProtoTCP ∧ pL4 p + 20 <= pTotal p ∧ Z.land (gb b (pL4 p + 13)) 2 ≠ 0 ∧
  hend = pL4 p + Z.shiftr (gb b (pL4 p + 12)) 4 * 4.

Lemma ClampTCPMSS_spec b m p :
  bytes_ok b → 0 <= m < 65536 → Parse b = Ok p →
  match ClampTCPMSS b m with
  | Ok (ch, b') =>
      (ch = false → b' = b) ∧ blen b' = blen b ∧ bytes_ok b' ∧ Parse b' = Parse b ∧
      ∀ hend, clampable b p hend →
        clamp_effect b m hend (pL4 p + 20) ch b' ∧
        ∀ o, opt_reach b' hend (pL4 p + 20) o → mss_option b' hend o → gb16 b' (o + 2) <= m
  | Err _ => True
  | _ => False
  end.
Proof.
  intros Hb Hm HP. pose proof (Parse_Ok b p Hb HP) as Hok.
  pose proof Hok as (Hver & Hr & _ & _). unfold ClampTCPMSS. rewrite HP, bind_Ok.
  destruct (_ || _) eqn:E; zbool.
  { split_and!; try done. intros hend (? & ? & _). lia. }
  go_ops. destruct (Z.eqb_spec (Z.land (gb b (pL4 p + 13)) 2) 0).
  { split_and!; try done. by intros hend (? & ? & ? & _). }
  go_ops. set (hend := pL4 p + Z.shiftr (gb b (pL4 p + 12)) 4 * 4).
  destruct (_ || _) eqn:E2; zbool; [done|].
  pose proof (clamp_loop_spec (S (length b)) b m hend (pL4 p + 20) Hb Hm) as Hl.
  destruct (clamp_loop _ _ _ _ _) as [[ch b']| | |]; [|done|apply Hl; unfold blen in *; lia..].
  destruct Hl as [He Hall]; [lia..|unfold blen in *; lia|]. split_and!.
  - by destruct ch.
  - destruct ch; simpl in He; [|by subst].
    destruct He as (o & ? & (? & _) & _ & _ & ->). blia.
  - destruct ch; simpl in He; [|by subst]. destruct He as (o & ? & _ & _ & _ & ->). auto with go.
  - rewrite <- HP. destruct ch; simpl in He; [|by subst].
    destruct He as (o & ? & (? & _) & _ & _ & ->).
    rewrite HP, Parse_payload with (p := p); rewrite ?blen_enc16; auto with go; try lia.
    f_equal. destruct (Packet_ports b p Hok) as [Hsp Hdp].
    rewrite !gb16_bcopy_out by (rewrite ?blen_enc16; lia). rewrite <- Hsp, <- Hdp. by destruct p.
  - intros h (_ & _ & _ & ->). done.
Qed.

(** ** Padding *)

Lemma blen_Pad16 b : blen (Pad16 b) = blen b + (16 - blen b `mod` 16) `mod` 16.
Proof.
  unfold Pad16. pose proof (blen_nonneg b).
  pose proof (Z.mod_pos_bound (16 - blen b `mod` 16) 16).
  destruct (Z.eqb_spec ((16 - blen b `mod` 16) `mod` 16) 0) as [->|]; [lia|]. blia.
Qed.

Lemma gb_Pad16 b i : 0 <= i < blen b → gb (Pad16 b) i = gb b i.
Proof.
  intros Hi. unfold Pad16. destruct (_ =? 0); [done|].
  pose proof (Z.mod_pos_bound (16 - blen b `mod` 16) 16).
  rewrite gb_bcopy_in by blia. f_equal. lia.
Qed.

Lemma bytes_ok_Pad16 b : bytes_ok b → bytes_ok (Pad16 b).
Proof. intros. unfold Pad16. destruct (_ =? 0); auto with go. Qed.

(** The IP header's own length equals the slice's. *)
Definition ip_length_exact (b : list Z) : Prop :=
  Z.shiftr (gb b 0) 4 = 4 ∧ gb16 b 2 = blen b ∧ 20 <= blen b ∨
  Z.shiftr (gb b 0) 4 = 6 ∧ 40 + gb16 b 4 = blen b ∧ 40 <= blen b.

Lemma TrimToIPLength_pad b : ip_length_exact b → TrimToIPLength (Pad16 b) = Ok b.
Proof.
  intros H. unfold TrimToIPLength. pose proof (blen_Pad16 b) as Hl. pose proof (blen_nonneg b).
  pose proof (Z.mod_pos_bound (16 - blen b `mod` 16) 16).
  assert (Hs : bsub (Pad16 b) 0 (blen b) = b).
  { rewrite <- (bsub_full b) at 3. apply bsub_eq; try lia. intros. by apply gb_Pad16. }
  destruct H as [(G0 & Hn & Hlen)|(G0 & Hn & Hlen)]; zdec; go_ops;
    rewrite gb_Pad16, G0 by lia; simpl; zdec; go_ops;
    unfold gb16; rewrite !gb_Pad16 by lia; fold (gb16 b 2) (gb16 b 4); rewrite Hn; zdec;
    (rewrite slice_ok by lia; by rewrite Hs).
Qed.

(** ** Reset replies *)

Lemma ParseTCPInfo_inv b p ti :
  bytes_ok b → ParseTCPInfo b = Ok (p, ti) →
  Parse b = Ok p ∧ pProtocol p = ProtoTCP ∧ pL4 p + 20 <= pTotal p ∧
  20 <= tiHeaderLen ti ∧ pL4 p + tiHeaderLen ti <= pTotal p ∧
  ti = mkTCPInfo (Z.shiftr (gb b (pL4 p + 12)) 4 * 4) (gb32 b (pL4 p + 4)) (gb32 b (pL4 p + 8))
         (gb b (pL4 p + 13)) (bsub b (pL4 p + tiHeaderLen ti) (pTotal p)).
Proof.
  intros Hb H. unfold ParseTCPInfo in H. apply bind_Ok_inv in H as (q & HP & H).
  pose proof (Parse_Ok b q Hb HP) as (Hver & Hr & _ & _).
  destruct (_ || _) eqn:E in H; zbool; [done|].
  go_ops_in H.
  destruct (_ || _) eqn:E2 in H; zbool; [done|].
  go_ops_in H. injection H as <- <-. cbn. split_and!; try done; lia.
Qed.

(** Sequence and acknowledgement numbers and flags of the reset (RFC 793):
    SEG.ACK when the segment acknowledges, otherwise an ACK of its whole length. *)
Definition segment_length (ti : TCPInfo) : Z :=
  blen (tiPayload ti) + (if Z.land (tiFlags ti) 2 =? 0 then 0 else 1)
    + (if Z.land (tiFlags ti) 1 =? 0 then 0 else 1).
Definition reset_fields (ti : TCPInfo) : Z * Z * Z :=
  if Z.land (tiFlags ti) 0x10 =? 0 then (0, u32 (tiSeq ti + segment_length ti), 0x14)
  else (tiAck ti, 0, 0x04).

Lemma list_4 {A} (v : list A) : blen v = 4 → ∃ a b c d, v = [a; b; c; d].
Proof.
  unfold blen. intros H.
  destruct v as [|a [|b [|c [|d [|]]]]]; simpl in H; try lia. by exists a, b, c, d.
Qed.
Lemma list_16 {A} (v : list A) : blen v = 16 →
  ∃ a b c d e f g h i j k l m n o p, v = [a; b; c; d; e; f; g; h; i; j; k; l; m; n; o; p].
Proof.
  unfold blen. intros H.
  do 17 (destruct v as [|? v]; simpl in H; [try lia|]); try lia. by repeat eexists.
Qed.

(** The 40- and 60-byte replies, byte for byte. *)
Definition reset4 (s d : list Z) (sp dp seq ack flags : Z) : list Z :=
  [0x45; 0; 0; 40; 0; 0; 0; 0; 64; 6; 0; 0] ++ s ++ d ++ enc16 sp ++ enc16 dp
    ++ enc32 seq ++ enc32 ack ++ [0x50; flags; 0; 0; 0; 0; 0; 0].
Definition reset6 (s d : list Z) (sp dp seq ack flags : Z) : list Z :=
  [0x60; 0; 0; 0; 0; 20; 6; 64] ++ s ++ d ++ enc16 sp ++ enc16 dp
    ++ enc32 seq ++ enc32 ack ++ [0x50; flags; 0; 0; 0; 0; 0; 0].

Lemma reset_fields_ok ti :
  0 <= tiAck ti < 4294967296 →
  (if negb (Z.land (tiFlags ti) 0x10 =? 0) then (tiAck ti, 0, 0x04)
   else (0, u32 (tiSeq ti +
     (let s := u32 (blen (tiPayload ti)) in
      let s := if negb (Z.land (tiFlags ti) 0x02 =? 0) then u32 (s + 1) else s in
      if negb (Z.land (tiFlags ti) 0x01 =? 0) then u32 (s + 1) else s)), Z.lor 0x04 0x10))
  = reset_fields ti.
Proof.
  intros Ha. unfold reset_fields, segment_length. cbv zeta.
  destruct (Z.land (tiFlags ti) 0x10 =? 0); cbn [negb]; [|done].
  do 2 f_equal. destruct (Z.land (tiFlags ti) 2 =? 0), (Z.land (tiFlags ti) 1 =? 0); cbn [negb];
    repeat first [rewrite <- (Z.add_assoc (u32 _)) | rewrite u32_add_l | rewrite u32_add_r];
    f_equal; lia.
Qed.

Lemma BuildTCPResetReply_bytes b p ti seq ack flags :
  bytes_ok b → ParseTCPInfo b = Ok (p, ti) → reset_fields ti = (seq, ack, flags) →
  BuildTCPResetReply b =
    Ok (if pVersion p =? 4
        then reset4 (addr_bytes (pDst p)) (addr_bytes (pSrc p)) (pDstPort p) (pSrcPort p) seq ack flags
        else reset6 (addr_bytes (pDst p)) (addr_bytes (pSrc p)) (pDstPort p) (pSrcPort p) seq ack flags).
Proof.
  intros Hb HT Hf. pose proof (ParseTCPInfo_inv b p ti Hb HT) as (HP & Hpr & Ht & Hh & Hh2 & Hti).
  pose proof (Parse_Ok b p Hb HP) as Hok. pose proof Hok as (Hver & Hr & _ & _).
  destruct (Packet_ok_fields b p Hok) as (Hs & Hd & _).
  unfold BuildTCPResetReply. rewrite HT, bind_Ok. rewrite reset_fields_ok, Hf.
  2:{ rewrite Hti. cbn. by apply gb32_range. }
  cbv iota. clear Hf HT Hti.
  destruct (Packet_version b p Hok) as [E|E]; rewrite Hs, Hd, E; unfold src_of, dst_of; cbn [Z.eqb Pos.eqb].
  - destruct (list_4 (bsub b 16 20)) as (?&?&?&?&->); [apply blen_bsub; lia|].
    destruct (list_4 (bsub b 12 16)) as (?&?&?&?&->); [apply blen_bsub; lia|]. reflexivity.
  - destruct (list_16 (bsub b 24 40)) as (?&?&?&?&?&?&?&?&?&?&?&?&?&?&?&?&->); [apply blen_bsub; lia|].
    destruct (list_16 (bsub b 8 24)) as (?&?&?&?&?&?&?&?&?&?&?&?&?&?&?&?&->); [apply blen_bsub; lia|].
    reflexivity.
Qed.

Lemma reset4_parse s d sp dp seq ack fl :
  blen s = 4 → blen d = 4 → 0 <= sp < 65536 → 0 <= dp < 65536 →
  0 <= seq < 4294967296 → 0 <= ack < 4294967296 →
  ParseTCPInfo (reset4 s d sp dp seq ack fl) =
    Ok (mkPacket 4 ProtoTCP (Addr4 s) (Addr4 d) sp dp 20 40, mkTCPInfo 20 seq ack fl []).
Proof.
  intros Hs Hd Hsp Hdp Hseq Hack.
  destruct (list_4 s Hs) as (?&?&?&?&->). destruct (list_4 d Hd) as (?&?&?&?&->).
  rewrite <- (enc16_val sp), <- (enc16_val dp), <- (enc32_val seq), <- (enc32_val ack) at 2 by done.
  unfold reset4, enc16, enc32.
  generalize ((sp `div` 256) `mod` 256). generalize (sp `mod` 256).
  reflexivity.
Qed.

Lemma reset6_parse s d sp dp seq ack fl :
  blen s = 16 → blen d = 16 → 0 <= sp < 65536 → 0 <= dp < 65536 →
  0 <= seq < 4294967296 → 0 <= ack < 4294967296 →
  ParseTCPInfo (reset6 s d sp dp seq ack fl) =
    Ok (mkPacket 6 ProtoTCP (Addr6 s) (Addr6 d) sp dp 40 60, mkTCPInfo 20 seq ack fl []).
Proof.
  intros Hs Hd Hsp Hdp Hseq Hack.
  destruct (list_16 s Hs) as (?&?&?&?&?&?&?&?&?&?&?&?&?&?&?&?&->).
  destruct (list_16 d Hd) as (?&?&?&?&?&?&?&?&?&?&?&?&?&?&?&?&->).
  rewrite <- (enc16_val sp), <- (enc16_val dp), <- (enc32_val seq), <- (enc32_val ack) at 2 by done.
  reflexivity.
Qed.

Lemma Packet_addrs_ok b p : bytes_ok b → Packet_ok b p → Addr_ok (pSrc p) ∧ Addr_ok (pDst p).
Proof.
  intros Hb Hok. destruct (Packet_ok_fields b p Hok) as (-> & -> & _).
  pose proof Hok as (Hver & Hr & _ & _).
  destruct (Packet_version b p Hok) as [E|E]; rewrite E in *; unfold src_of, dst_of; simpl;
    split; (split; [apply blen_bsub; lia | auto with go]).
Qed.

Lemma Packet_port_range b p : bytes_ok b → Packet_ok b p →
  0 <= pSrcPort p < 65536 ∧ 0 <= pDstPort p < 65536.
Proof.
  intros Hb Hok. destruct (Packet_ports b p Hok) as [-> ->].
  pose proof (gb16_range b (pL4 p) Hb). pose proof (gb16_range b (pL4 p + 2) Hb).
  destruct (has_ports p); lia.
Qed.

Lemma Packet_family b p : Packet_ok b p →
  family_ok (pVersion p) (pSrc p) = true ∧ family_ok (pVersion p) (pDst p) = true.
Proof.
  intros Hok. destruct (Packet_ok_fields b p Hok) as (-> & -> & _).
  destruct (Packet_version b p Hok) as [E|E]; rewrite E; done.
Qed.

(** ** Properties *)

(** [Parse] returns on every byte string (no index panics and the IPv6
    extension walk ends), and a packet it accepts has a version of 4 or 6, a
    transport offset inside the packet, a length inside the slice, and exactly
    the addresses, protocol and ports that stand in its header. *)
Theorem Parse_total_in_bounds (b : list Z) :
  bytes_ok b → returns (Parse b) ∧ ∀ p, Parse b = Ok p → Packet_ok b p.
Proof.
  intros Hb. split; [|intros p; by apply Parse_Ok].
  pose proof (Parse_spec b Hb). by destruct (Parse b).
Qed.

(** A UDP datagram 10.0.0.2:5000 -> 1.1.1.1:53 with four payload bytes. *)
Definition udp_sample : list Z :=
  [0x45; 0; 0; 32; 0; 7; 0; 0; 64; 17; 0; 0; 10; 0; 0; 2; 1; 1; 1; 1;
   0x13; 0x88; 0; 53; 0; 12; 0; 0; 97; 98; 99; 100].
(** A TCP SYN with an MSS option of 1460 after one NOP. *)
Definition syn_sample : list Z :=
  [0x45; 0; 0; 48; 0; 7; 0x40; 0; 64; 6; 0; 0; 10; 0; 0; 2; 1; 1; 1; 1;
   0x13; 0x88; 1; 187; 0; 0; 0; 9; 0; 0; 0; 0; 0x70; 2; 0xff; 0xff; 0; 0; 0; 0;
   1; 2; 4; 0x05; 0xb4; 1; 1; 0].

Lemma udp_sample_ok : bytes_ok udp_sample.
Proof. apply bytes_okb_ok. reflexivity. Qed.
Lemma syn_sample_ok : bytes_ok syn_sample.
Proof. apply bytes_okb_ok. reflexivity. Qed.

Lemma Parse_total_in_bounds_witness :
  returns (Parse udp_sample) ∧
  Parse udp_sample = Ok (mkPacket 4 17 (Addr4 [10; 0; 0; 2]) (Addr4 [1; 1; 1; 1]) 5000 53 20 32).
Proof.
  split; [|reflexivity]. apply (proj1 (Parse_total_in_bounds udp_sample udp_sample_ok)).
Defined.

(** Rewriting the source (or destination) address succeeds exactly when the
    families agree, changes that field and nothing else of the parsed packet,
    and rewriting it back restores the packet byte for byte. *)
Theorem Rewrite_address_roundtrip (b : list Z) (a : Addr) (p : Packet) :
  bytes_ok b → Addr_ok a → Parse b = Ok p →
  (if family_ok (pVersion p) a
   then ∃ b', RewriteSrc b a = Ok b' ∧ Parse b' = Ok (with_src p a) ∧
              RewriteSrc b' (pSrc p) = Ok b
   else ∃ e, RewriteSrc b a = Err e) ∧
  (if family_ok (pVersion p) a
   then ∃ b', RewriteDst b a = Ok b' ∧ Parse b' = Ok (with_dst p a) ∧
              RewriteDst b' (pDst p) = Ok b
   else ∃ e, RewriteDst b a = Err e).
Proof.
  intros Hb Ha HP. pose proof (Parse_Ok b p Hb HP) as Hok.
  pose proof Hok as (Hver & Hr & _ & _).
  destruct (Packet_addrs_ok b p Hb Hok) as [Hs Hd]. destruct (Packet_family b p Hok) as [Fs Fd].
  destruct (Packet_ok_fields b p Hok) as (Es & Ed & _).
  pose proof (RewriteSrc_spec b a p Hb Ha HP) as H1.
  pose proof (RewriteDst_spec b a p Hb Ha HP) as H2.
  destruct (family_ok (pVersion p) a) eqn:Ef; [|split; eauto].
  assert (Hab : bytes_ok (addr_bytes a) ∧ blen (addr_bytes a) = if pVersion p =? 4 then 4 else 16).
  { unfold family_ok in Ef. destruct (pVersion p =? 4), a; try done; by destruct Ha. }
  destruct Hab as [Hab Hla]. destruct H1 as [H1 H1'], H2 as [H2 H2'].
  split; eexists; (split_and!; [eassumption|eassumption|]).
  - pose proof (RewriteSrc_spec _ (pSrc p) _ (bytes_ok_bcopy b (src_off (pVersion p)) _ Hb Hab) Hs H1') as H3.
    cbn in H3. rewrite Fs in H3. destruct H3 as [-> _]. f_equal.
    rewrite Es. unfold src_of, src_off. destruct (Packet_version b p Hok) as [E|E];
      rewrite E in *; simpl in *;
      [replace 16 with (12 + blen (addr_bytes a)) by lia|replace 24 with (8 + blen (addr_bytes a)) by lia];
      apply bcopy_back; lia.
  - pose proof (RewriteDst_spec _ (pDst p) _ (bytes_ok_bcopy b (dst_off (pVersion p)) _ Hb Hab) Hd H2') as H3.
    cbn in H3. rewrite Fd in H3. destruct H3 as [-> _]. f_equal.
    rewrite Ed. unfold dst_of, dst_off. destruct (Packet_version b p Hok) as [E|E];
      rewrite E in *; simpl in *;
      [replace 20 with (16 + blen (addr_bytes a)) by lia|replace 40 with (24 + blen (addr_bytes a)) by lia];
      apply bcopy_back; lia.
Qed.

Lemma Rewrite_address_roundtrip_witness :
  ∃ b', RewriteSrc udp_sample (Addr4 [10; 66; 66; 20]) = Ok b' ∧
        RewriteSrc b' (Addr4 [10; 0; 0; 2]) = Ok udp_sample.
Proof.
  destruct (Rewrite_address_roundtrip udp_sample (Addr4 [10; 66; 66; 20])
    (mkPacket 4 17 (Addr4 [10; 0; 0; 2]) (Addr4 [1; 1; 1; 1]) 5000 53 20 32)) as [H _].
  - apply udp_sample_ok.
  - split; [reflexivity|]. by apply bytes_okb_ok.
  - reflexivity.
  - destruct H as (b' & H1 & _ & H2). by exists b'.
Defined.

(** [ClampTCPMSS] never panics or loops; on success the packet keeps its
    length and parses as before, is untouched when nothing was reported changed,
    and on a SYN changes at most the two value bytes of the first MSS option,
    lowering it: afterwards no MSS option a receiver reaches exceeds the limit. *)
Theorem ClampTCPMSS_clamps (b : list Z) (m : Z) (p : Packet) :
  bytes_ok b → 0 <= m < 65536 → Parse b = Ok p →
  match ClampTCPMSS b m with
  | Ok (ch, b') =>
      (ch = false → b' = b) ∧ blen b' = blen b ∧ bytes_ok b' ∧ Parse b' = Parse b ∧
      ∀ hend, clampable b p hend →
        clamp_effect b m hend (pL4 p + 20) ch b' ∧
        ∀ o, opt_reach b' hend (pL4 p + 20) o → mss_option b' hend o → gb16 b' (o + 2) <= m
  | Err _ => True
  | _ => False
  end.
Proof. apply ClampTCPMSS_spec. Qed.

Lemma ClampTCPMSS_clamps_witness :
  ∃ b', ClampTCPMSS syn_sample 1340 = Ok (true, b') ∧ gb16 b' 43 = 1340 ∧ Parse b' = Parse syn_sample.
Proof.
  assert (H : ∃ b', ClampTCPMSS syn_sample 1340 = Ok (true, b') ∧ gb16 b' 43 = 1340)
    by (eexists; split; reflexivity).
  destruct H as (b' & H & Hg). exists b'. split_and!; [done|done|].
  pose proof (ClampTCPMSS_clamps syn_sample 1340
    (mkPacket 4 6 (Addr4 [10; 0; 0; 2]) (Addr4 [1; 1; 1; 1]) 5000 443 20 48)
    syn_sample_ok ltac:(lia) eq_refl) as Hs.
  rewrite H in Hs. by destruct Hs as (_ & _ & _ & Hs & _).
Defined.

(** The zero padding a WireGuard sender adds up to a multiple of sixteen
    bytes is removed by the receiver: [TrimToIPLength] of [Pad16] of an IP packet
    whose header carries its length is the packet itself. *)
Theorem TrimToIPLength_Pad16 (b : list Z) :
  ip_length_exact b →
  blen (Pad16 b) `mod` 16 = 0 ∧ blen b <= blen (Pad16 b) < blen b + 16 ∧
  TrimToIPLength (Pad16 b) = Ok b.
Proof.
  intros H. split_and!; [| | |by apply TrimToIPLength_pad]; rewrite blen_Pad16;
    Z.div_mod_to_equations; lia.
Qed.

Lemma TrimToIPLength_Pad16_witness : TrimToIPLength (Pad16 udp_sample) = Ok udp_sample.
Proof.
  destruct (TrimToIPLength_Pad16 udp_sample) as (_ & _ & H); [|exact H].
  left. split_and!; done.
Defined.

(** The reset built for an outbound TCP segment is a complete TCP packet in
    the opposite direction (addresses and ports swapped) with a 20-byte header
    and no payload, and it carries SEG.ACK as its sequence number when the
    segment had ACK set, otherwise an acknowledgement of sequence number plus
    payload plus SYN and FIN, modulo 2^32. *)
Theorem BuildTCPResetReply_correct (b : list Z) (p : Packet) (ti : TCPInfo) :
  bytes_ok b → ParseTCPInfo b = Ok (p, ti) →
  ∃ r, BuildTCPResetReply b = Ok r ∧
    ParseTCPInfo r =
      (let '(seq, ack, flags) := reset_fields ti in
       let l4 := if pVersion p =? 4 then 20 else 40 in
       Ok (mkPacket (pVersion p) ProtoTCP (pDst p) (pSrc p) (pDstPort p) (pSrcPort p) l4 (l4 + 20),
           mkTCPInfo 20 seq ack flags [])).
Proof.
  intros Hb HT. destruct (reset_fields ti) as [[seq ack] flags] eqn:Ef.
  rewrite (BuildTCPResetReply_bytes b p ti seq ack flags) by done. eexists; split; [done|].
  pose proof (ParseTCPInfo_inv b p ti Hb HT) as (HP & _ & _ & _ & _ & Hti).
  pose proof (Parse_Ok b p Hb HP) as Hok. pose proof Hok as (Hver & Hr & _ & _).
  destruct (Packet_port_range b p Hb Hok). destruct (Packet_ok_fields b p Hok) as (-> & -> & _).
  assert (0 <= seq < 4294967296 ∧ 0 <= ack < 4294967296) as [].
  { unfold reset_fields in Ef. pose proof (gb32_range b (pL4 p + 8) Hb).
    pose proof (u32_range (tiSeq ti + segment_length ti)).
    destruct (_ =? 0) in Ef; injection Ef as <- <- <-; rewrite Hti in *; cbn in *; lia. }
  destruct (Packet_version b p Hok) as [E|E]; rewrite E in *; unfold src_of, dst_of; cbn [Z.eqb Pos.eqb addr_bytes].
  - rewrite reset4_parse; try done; apply blen_bsub; lia.
  - rewrite reset6_parse; try done; apply blen_bsub; lia.
Qed.

Lemma BuildTCPResetReply_correct_witness :
  ∃ r, BuildTCPResetReply syn_sample = Ok r ∧
    ParseTCPInfo r = Ok (mkPacket 4 6 (Addr4 [1; 1; 1; 1]) (Addr4 [10; 0; 0; 2]) 443 5000 20 40,
                         mkTCPInfo 20 0 10 0x14 []).
Proof.
  refine (BuildTCPResetReply_correct syn_sample
    (mkPacket 4 6 (Addr4 [10; 0; 0; 2]) (Addr4 [1; 1; 1; 1]) 5000 443 20 48)
    (mkTCPInfo 28 9 0 2 []) syn_sample_ok _). reflexivity.
Defined.
