(* ===== verification/Segment.v ===== *)
(** * Segmentation of TCP super-packets: [SplitForMTU]

    Proofs about [Packet.SplitForMTU]: every oversize TCP packet is cut into
    segments that fit the MTU, parse as the original with their own length, carry
    consecutive sequence numbers, and whose payloads concatenate to the original. *)

From S2P Require Import Prelude Netip Packet.
Local Open Scope Z_scope.

(** Flags of a segment: FIN, PSH and CWR stay on the last one only. *)
Definition segment_flags (fl : Z) (last : bool) : Z :=
  if last then fl else Z.land fl (Z.lnot (Z.lor (Z.lor 0x01 0x08) 0x80)).

Lemma segment_flags_range fl last : 0 <= fl < 256 → 0 <= segment_flags fl last < 256.
Proof.
  intros H. unfold segment_flags. destruct last; [done|]. by apply land_byte.
Qed.

(** The slice a run of the loop body produces. *)
Lemma split_segment_spec b payload v l4 hl seq fl off en :
  bytes_ok b → bytes_ok payload → 0 <= fl < 256 → 0 <= seq < 4294967296 →
  (v = 4 ∧ 20 <= l4 ∨ v = 6 ∧ 40 <= l4) → 20 <= hl →
  l4 + hl <= blen b → 0 <= off → off < en → en <= blen payload →
  match split_segment b payload v l4 hl seq fl off en with
  | Ok s =>
      bytes_ok s ∧ blen s = l4 + hl + (en - off) ∧
      bsub s (l4 + hl) (blen s) = bsub payload off en ∧
      (∀ i, 0 <= i < l4 → (if v =? 4 then i ≠ 2 ∧ i ≠ 3 ∧ i ≠ 10 ∧ i ≠ 11 else i ≠ 4 ∧ i ≠ 5) → gb s i = gb b i) ∧
      (∀ i, l4 <= i < l4 + 4 → gb s i = gb b i) ∧
      gb s (l4 + 12) = gb b (l4 + 12) ∧
      gb32 s (l4 + 4) = u32 (seq + off) ∧
      gb s (l4 + 13) = segment_flags fl (en =? blen payload) ∧
      (if v =? 4 then gb16 s 2 = blen s else 40 + gb16 s 4 = blen s)
  | Err _ => True
  | _ => False
  end.
Proof.
  intros Hb Hp Hfl Hseq Hv Hhl Hlen Ho Hoe Hen. unfold split_segment. cbv zeta.
  pose proof (segment_flags_range fl (en =? blen payload) Hfl) as Hsf.
  go_ops.
  replace (if negb (en =? blen payload) then _ else fl) with (segment_flags fl (en =? blen payload))
    by (unfold segment_flags; by destruct (en =? blen payload)).
  set (sf := segment_flags _ _) in *. clearbody sf.
  rewrite u32_add_r. pose proof (u32_range (seq + off)) as Hq.
  set (q := u32 (seq + off)) in *. clearbody q.
  set (s0 := bset (bset (bset _ (l4 + 13) sf) _ 0) _ 0).
  assert (L0 : blen s0 = l4 + hl + (en - off)) by (subst s0; bside).
  assert (B0 : bytes_ok s0) by (subst s0; auto 10 with go lia).
  assert (F0 : ∀ i, 0 <= i < l4 + 13 → i < l4 + 4 ∨ l4 + 8 <= i → gb s0 i = gb b i).
  { intros i Hi1 Hi2. subst s0. gb_read. rewrite gb_bsub by lia. f_equal. lia. }
  assert (F1 : ∀ i, l4 + hl <= i < l4 + hl + (en - off) → gb s0 i = gb payload (off + (i - (l4 + hl)))).
  { intros i Hi. subst s0. gb_read. by rewrite gb_bsub by lia. }
  assert (F2 : gb32 s0 (l4 + 4) = q) by (subst s0; by gb_read).
  assert (F3 : gb s0 (l4 + 13) = sf) by (subst s0; by gb_read).
  clearbody s0. rewrite L0.
  assert (Hpl : ∀ s, blen s = blen s0 → (∀ i, l4 + hl <= i < blen s0 → gb s i = gb s0 i) →
    bsub s (l4 + hl) (blen s) = bsub payload off en).
  { intros s Hs Heq. apply bytes_eq; rewrite Hs, L0.
    - rewrite !blen_bsub by lia. lia.
    - rewrite blen_bsub by lia. intros i Hi. rewrite !gb_bsub, Heq, F1 by lia. f_equal. lia. }
  destruct Hv as [[-> Hv]|[-> Hv]]; cbn [Z.eqb Pos.eqb]; (go_if; [done|]).
  - rewrite u16_small by lia. split_and!; auto 10 with go lia.
    + bside.
    + apply Hpl; [bside|]. intros i Hi. by gb_read.
    + intros i Hi Hni. gb_read. apply F0; lia.
    + intros i Hi. gb_read. apply F0; lia.
    + gb_read. apply F0; lia.
    + by gb_read.
    + by gb_read.
    + autorewrite with blen. by gb_read.
  - rewrite u16_small by lia. split_and!; auto 10 with go lia.
    + bside.
    + apply Hpl; [bside|]. intros i Hi. by gb_read.
    + intros i Hi Hni. gb_read. apply F0; lia.
    + intros i Hi. gb_read. apply F0; lia.
    + gb_read. apply F0; lia.
    + by gb_read.
    + by gb_read.
    + autorewrite with blen. gb_read. lia.
Qed.

(** One segment of packet [p] (slice [b], headers of [hl] bytes) at payload offset [off]. *)
Definition seg_ok (b : list Z) (p : Packet) (hl mtu off : Z) (last : bool) (s : list Z) : Prop :=
  hl < blen s <= mtu ∧
  Parse s = Ok (mkPacket (pVersion p) (pProtocol p) (pSrc p) (pDst p) (gb16 b (pL4 p))
                  (gb16 b (pL4 p + 2)) (pL4 p) (blen s)) ∧
  gb32 s (pL4 p + 4) = u32 (gb32 b (pL4 p + 4) + off) ∧
  gb s (pL4 p + 12) = gb b (pL4 p + 12) ∧
  gb s (pL4 p + 13) = segment_flags (gb b (pL4 p + 13)) last.

Fixpoint segs_ok (b : list Z) (p : Packet) (hl mtu off : Z) (segs : list (list Z)) : Prop :=
  match segs with
  | [] => True
  | s :: rest =>
      seg_ok b p hl mtu off (bool_decide (rest = [])) s ∧
      segs_ok b p hl mtu (off + (blen s - hl)) rest
  end.

Section Split.
Context (b : list Z) (p : Packet) (tcpHL mtu : Z).
Hypothesis Hb : bytes_ok b.
Hypothesis HP : Parse b = Ok p.
Hypothesis Htcp : pProtocol p = ProtoTCP.
Hypothesis HtcpHL : 20 <= tcpHL ∧ pL4 p + tcpHL <= blen b.
Hypothesis Hmtu : 0 < mtu - pL4 p - tcpHL.

Let hl := pL4 p + tcpHL.
Let payload := bsub b hl (blen b).
Let maxPayload := mtu - pL4 p - tcpHL.

Lemma split_segment_ok off en :
  0 <= off → off < en → en <= blen payload → en - off <= maxPayload →
  match split_segment b payload (pVersion p) (pL4 p) tcpHL (gb32 b (pL4 p + 4)) (gb b (pL4 p + 13)) off en with
  | Ok s => seg_ok b p hl mtu off (en =? blen payload) s ∧ blen s = hl + (en - off) ∧
            bsub s hl (blen s) = bsub payload off en
  | Err _ => True
  | _ => False
  end.
Proof.
  intros Ho Hoe Hen Hmax. pose proof (Parse_Ok b p Hb HP) as Hok.
  pose proof Hok as (Hver & Hr & _ & _).
  pose proof (split_segment_spec b payload (pVersion p) (pL4 p) tcpHL (gb32 b (pL4 p + 4))
    (gb b (pL4 p + 13)) off en Hb (bytes_ok_bsub _ _ _ Hb) (gb_range _ _ Hb) (gb32_range _ _ Hb)) as Hs.
  destruct (split_segment _ _ _ _ _ _ _ _ _) as [s| | |]; [|done|apply Hs; lia..].
  destruct Hs as (Bs & Ls & Ps & F0 & F1 & F12 & F2 & F3 & F4); [lia..|].
  fold hl in Ls, Ps. unfold maxPayload, hl in *.
  unfold seg_ok. split_and!; try done; try lia.
  assert (Hsa : src_of (pVersion p) s = pSrc p ∧ dst_of (pVersion p) s = pDst p).
  { destruct (Packet_ok_fields b p Hok) as (-> & -> & _). unfold src_of, dst_of.
    destruct (Packet_version b p Hok) as [E|E]; rewrite E in *; simpl in *; split; f_equal;
      apply bsub_eq; try lia; intros; apply F0; lia. }
  assert (Htot : total_of (pVersion p) (pL4 p) s = blen s).
  { unfold total_of, total6. destruct (Packet_version b p Hok) as [E|E]; rewrite E in *; simpl in *.
    - rewrite F4. zdec. done.
    - replace (gb16 s 4) with (blen s - 40) by lia. zdec. lia. }
  rewrite (Parse_transfer b s p Hb Bs HP).
  - f_equal. unfold packet_of, ports_of. rewrite Htot. destruct Hsa as [-> ->]. cbn.
    rewrite Htcp. cbn [Z.eqb Pos.eqb ProtoTCP orb andb]. zdec. unfold with_ports; cbn.
    unfold gb16. by rewrite !F1 by lia.
  - lia.
  - rewrite Htot. lia.
  - intros i Hi Hf. apply F0; [lia|]. unfold hdr_fixed in Hf.
    destruct (pVersion p =? 4); zbool; lia.
Qed.

Lemma split_loop_ok fuel off :
  0 <= off → Z.max 0 (blen payload - off) < Z.of_nat fuel →
  match split_loop fuel b payload (pVersion p) (pL4 p) tcpHL (gb32 b (pL4 p + 4))
          (gb b (pL4 p + 13)) maxPayload off with
  | Ok segs =>
      segs_ok b p hl mtu off segs ∧
      (off <= blen payload → concat (map (fun s => bsub s hl (blen s)) segs)
                             = bsub payload off (blen payload)) ∧
      (segs = [] ↔ blen payload <= off)
  | Err _ => True
  | _ => False
  end.
Proof.
  revert off. induction fuel as [|fuel IH]; intros off Ho Hf; [lia|].
  cbn [split_loop]. destruct (Z.ltb_spec off (blen payload)) as [Hlt|Hge].
  2:{ split_and!; [done| |split; [lia|done]]. intros. simpl.
      unfold bsub. replace (Z.to_nat (blen payload - off)) with 0%nat by lia. done. }
  cbv zeta. set (en := if blen payload <? off + maxPayload then blen payload else off + maxPayload).
  assert (0 < maxPayload) by (unfold maxPayload; lia).
  assert (Hen : off < en ∧ en <= blen payload ∧ en - off <= maxPayload ∧
                ((en =? blen payload) = true ↔ blen payload <= off + maxPayload)).
  { subst en. destruct (Z.ltb_spec (blen payload) (off + maxPayload)); rewrite Z.eqb_eq; lia. }
  destruct Hen as (He1 & He2 & He3 & He4).
  pose proof (split_segment_ok off en Ho He1 He2 He3) as Hs.
  destruct (split_segment _ _ _ _ _ _ _ _ _) as [s| | |]; [|done..]. rewrite bind_Ok.
  specialize (IH (off + maxPayload)).
  destruct (split_loop _ _ _ _ _ _ _ _ _ _) as [segs| | |]; [|done|apply IH; lia..].
  destruct IH as (I1 & I2 & I3); [lia..|]. rewrite bind_Ok. destruct Hs as (S1 & S2 & S3).
  split_and!.
  - cbn [segs_ok]. split.
    + replace (bool_decide (segs = [])) with (en =? blen payload); [done|].
      apply eq_iff_eq_true. rewrite bool_decide_eq_true. tauto.
    + destruct (decide (segs = [])) as [->|Hne]; [done|].
      assert (en = off + maxPayload) as Hee. { subst en. rewrite I3 in Hne. zdec. done. }
      replace (off + (blen s - hl)) with (off + maxPayload) by lia. done.
  - intros _. simpl. rewrite S3. destruct (decide (segs = [])) as [->|Hne].
    + simpl. rewrite app_nil_r. f_equal. apply Z.eqb_eq, He4. tauto.
    + assert (en = off + maxPayload) as Hee. { subst en. rewrite I3 in Hne. zdec. done. }
      rewrite I2 by (rewrite I3 in Hne; lia). rewrite <- Hee. apply bsub_app_split; lia.
  - split; [done|lia].
Qed.
End Split.

Lemma SplitForMTU_spec (b : list Z) (mtu : Z) :
  bytes_ok b →
  match SplitForMTU b mtu with
  | Ok (segs, false) => segs = [b] ∧ blen b <= mtu
  | Ok (segs, true) =>
      ∃ p hl, Parse b = Ok p ∧ pProtocol p = ProtoTCP ∧
        hl = pL4 p + Z.shiftr (gb b (pL4 p + 12)) 4 * 4 ∧
        segs_ok b p hl mtu 0 segs ∧
        concat (map (fun s => bsub s hl (blen s)) segs) = bsub b hl (blen b)
  | Err _ => True
  | _ => False
  end.
Proof.
  intros Hb. unfold SplitForMTU. destruct (Z.ltb_spec mtu 576); [done|].
  destruct (Z.leb_spec (blen b) mtu); [done|].
  pose proof (Parse_spec b Hb) as HS. destruct (Parse b) as [p| | |] eqn:HP; try done.
  rewrite bind_Ok. destruct (Z.eqb_spec (pProtocol p) ProtoTCP) as [Ht|]; [|done].
  cbn [negb]. destruct (Z.ltb_spec (blen b) (pL4 p + 20)); [done|].
  pose proof HS as (Hver & Hr & _ & _). go_ops.
  set (hl := Z.shiftr (gb b (pL4 p + 12)) 4 * 4). go_if; [done|].
  destruct (Z.leb_spec (mtu - pL4 p - hl) 0); [done|]. go_ops.
  destruct (_ =? 0); [done|]. go_ops. destruct (negb _); [done|].
  pose proof (split_loop_ok b p hl mtu Hb HP Ht ltac:(lia) ltac:(lia) (S (length b)) 0 ltac:(lia)) as Hl.
  autorewrite with blen in Hl.
  destruct (split_loop _ _ _ _ _ _ _ _ _ _) as [segs| | |]; [|done|apply Hl; unfold blen in *; lia..].
  destruct Hl as (G1 & G2 & _); [unfold blen in *; lia|]. rewrite bind_Ok.
  exists p, (pL4 p + hl). split_and!; try done. rewrite G2 by blia.
  rewrite <- (bsub_full (bsub b _ _)) at 2. by autorewrite with blen.
Qed.

(** C10: [SplitForMTU] never panics or loops.  A packet that fits is returned as
    it is.  An oversize TCP packet is cut into segments that each fit the MTU and
    parse as the original packet with their own length; sequence numbers advance
    by the payload already sent (modulo 2^32), FIN, PSH and CWR stay on the last
    segment only, and the payloads concatenate to the original payload. *)
Theorem SplitForMTU_correct (b : list Z) (mtu : Z) :
  bytes_ok b →
  match SplitForMTU b mtu with
  | Ok (segs, false) => segs = [b] ∧ blen b <= mtu
  | Ok (segs, true) =>
      ∃ p hl, Parse b = Ok p ∧ pProtocol p = ProtoTCP ∧
        hl = pL4 p + Z.shiftr (gb b (pL4 p + 12)) 4 * 4 ∧
        segs_ok b p hl mtu 0 segs ∧
        concat (map (fun s => bsub s hl (blen s)) segs) = bsub b hl (blen b)
  | Err _ => True
  | _ => False
  end.
Proof. apply SplitForMTU_spec. Qed.

(** A 700-byte TCP packet split for an MTU of 576. *)
Definition lso_sample : list Z :=
  [0x45; 0; 0; 0; 0; 7; 0x40; 0; 64; 6; 0; 0; 10; 0; 0; 2; 1; 1; 1; 1;
   0x13; 0x88; 1; 187; 0xff; 0xff; 0xff; 0xff; 0; 0; 0; 1; 0x50; 0x18; 0xff; 0xff; 0; 0; 0; 0]
  ++ replicate 660 7.
Definition lso_shape (r : Res (list (list Z) * bool)) : bool :=
  match r with
  | Ok ([s1; s2], true) => (blen s1 =? 576) && (blen s2 =? 164) && (gb32 s2 24 =? 535)
  | _ => false
  end.

Lemma SplitForMTU_correct_witness :
  ∃ s1 s2, SplitForMTU lso_sample 576 = Ok ([s1; s2], true) ∧
    blen s1 = 576 ∧ blen s2 = 164 ∧ gb32 s2 24 = 535 ∧
    concat (map (fun s => bsub s 40 (blen s)) [s1; s2]) = bsub lso_sample 40 (blen lso_sample).
Proof.
  assert (Hc : lso_shape (SplitForMTU lso_sample 576) = true) by (vm_compute; reflexivity).
  pose proof (SplitForMTU_correct lso_sample 576 ltac:(apply bytes_okb_ok; vm_compute; reflexivity)) as Hs.
  destruct (SplitForMTU lso_sample 576) as [[[|s1 [|s2 [|]]] []]| | |]; try discriminate Hc.
  cbn in Hc. zbool. exists s1, s2. split_and!; try done.
  destruct Hs as (p & hl & HP & _ & -> & _ & Hcat).
  assert (HP' : Parse lso_sample = Ok (mkPacket 4 6 (Addr4 [10; 0; 0; 2]) (Addr4 [1; 1; 1; 1]) 5000 443 20 700))
    by (vm_compute; reflexivity).
  rewrite HP' in HP. injection HP as <-. exact Hcat.
Defined.
