(* ===== verification/Fragment.v ===== *)
(** * IP fragmentation: [IsFragment], [FragmentForMTU] and its helpers
    ([internal/packet/packet.go], from line 435)

    The package variable [fragmentID] is the state of an [SR Z] computation.
    The extension-header walks recurse on fuel; [length b] iterations are enough
    since every step advances by at least eight bytes.  The theorems say that the
    fragments fit the MTU, are aligned, carry a valid header checksum (IPv4) and
    tile the original payload. *)

From S2P Require Import Prelude Netip Packet.
Local Open Scope Z_scope.

(** [atomic.AddUint32(&fragmentID, 1)] *)
Definition next_fragmentID : SR Z Z := fun s => (u32 (s + 1), Ok (u32 (s + 1))).

(** ** IPv4 *)

(** [sum += uint32(binary.BigEndian.Uint16(h[i:i+2]))] over the pairs, and the odd byte. *)
Fixpoint checksum_sum (h : list Z) (sum : Z) : Z :=
  match h with
  | a :: c :: rest => checksum_sum rest (u32 (sum + (a * 256 + c)))
  | [a] => u32 (sum + u32 (Z.shiftl a 8))
  | [] => sum
  end.

Fixpoint checksum_fold (fuel : nat) (sum : Z) : Res Z :=
  match fuel with
  | O => OutOfFuel
  | S fuel =>
      if negb (Z.shiftr sum 16 =? 0)
      then checksum_fold fuel (u32 (Z.land sum 0xffff + Z.shiftr sum 16))
      else Ok sum
  end.

(** [^uint16(sum)] is [65535 - uint16(sum)]. *)
Definition ipv4HeaderChecksum (h : list Z) : Res Z :=
  sum ← checksum_fold 4 (checksum_sum h 0);
  Ok (65535 - u16 sum).

(** One iteration of the loop of [fragmentIPv4]: the fragment and its payload length. *)
Definition fragment4_step (b payload : list Z) (ihl maxPayload id reserved off : Z)
    : Res (list Z * Z) :=
  let n := blen payload - off in
  let more := maxPayload <? n in
  let n := if more then maxPayload else n in
  let frag := zeros (ihl + n) in
  hdr ← slice b 0 ihl;
  frag ← copy_into frag 0 (blen frag) hdr;
  pl ← slice payload off (off + n);
  frag ← copy_into frag ihl (blen frag) pl;
  frag ← put16 frag 2 (u16 (blen frag));
  frag ← put16 frag 4 id;
  let flagsOff := Z.lor reserved (u16 (off `div` 8)) in
  let flagsOff := if more then Z.lor flagsOff 0x2000 else flagsOff in
  frag ← put16 frag 6 flagsOff;
  frag ← store frag 10 0;
  frag ← store frag 11 0;
  h ← slice frag 0 ihl;
  c ← ipv4HeaderChecksum h;
  frag ← put16 frag 10 c;
  Ok (frag, n).

Fixpoint fragment4_loop (fuel : nat) (b payload : list Z) (ihl maxPayload id reserved off : Z)
    : Res (list (list Z)) :=
  match fuel with
  | O => OutOfFuel
  | S fuel =>
      if off <? blen payload then
        '(frag, n) ← fragment4_step b payload ihl maxPayload id reserved off;
        rest ← fragment4_loop fuel b payload ihl maxPayload id reserved (off + n);
        Ok (frag :: rest)
      else Ok []
  end.

Definition fragmentIPv4 (b : list Z) (mtu : Z) : SR Z (list (list Z) * bool) :=
  if blen b <? 20 then sfail "short ipv4" else
  b0 ← liftR (idx b 0);
  let ihl := Z.land b0 15 * 4 in
  if (ihl <? 20) || (blen b <? ihl) then sfail "bad ipv4 ihl" else
  total ← liftR (be16 b 2);
  let total := if (total =? 0) || (blen b <? total) then blen b else total in
  if total <=? mtu then
    (whole ← liftR (slice b 0 total); mret ([whole], false))
  else
  fv ← liftR (be16 b 6);
  if negb (Z.land fv 0x3fff =? 0) then sfail "IPv4 packet is already fragmented" else
  if negb (Z.land fv 0x4000 =? 0) then sfail "IPv4 DF packet exceeds MTU" else
  let maxPayload := (mtu - ihl) `quot` 8 * 8 in
  if maxPayload <? 8 then sfail "MTU too small for IPv4 header" else
  payload ← liftR (slice b ihl total);
  id ← liftR (be16 b 4);
  id ← (if id =? 0 then
          x ← next_fragmentID;
          if u16 x =? 0 then (y ← next_fragmentID; mret (u16 y)) else mret (u16 x)
        else mret id);
  let reserved := Z.land fv 0x8000 in
  out ← liftR (fragment4_loop (S (length b)) b payload ihl maxPayload id reserved 0);
  mret (out, true).

(** ** IPv6 *)

(** Result of [ipv6FragmentPoint]: Go returns the error beside the other values. *)
Record FragPoint : Type := mkFragPoint {
  fpInsert : Z; fpPrevNext : Z; fpNext : Z; fpFound : bool; fpErr : option string
}.
Definition fp_error (e : string) : FragPoint := mkFragPoint 0 0 0 false (Some e).

Fixpoint fragpoint_loop (fuel : nat) (b : list Z) (total next prevNext off : Z) : Res FragPoint :=
  match fuel with
  | O => OutOfFuel
  | S fuel =>
      if (next =? 0) || (next =? 43) || (next =? 60) then
        if total <? off + 2 then Ok (fp_error "short ipv6 extension") else
        l ← idx b (off + 1);
        let n := (l + 1) * 8 in
        if (n <? 8) || (total <? off + n) then Ok (fp_error "bad ipv6 extension") else
        next' ← idx b off;
        fragpoint_loop fuel b total next' off (off + n)
      else if next =? 51 then
        if total <? off + 2 then Ok (fp_error "short ah") else
        l ← idx b (off + 1);
        let n := (l + 2) * 4 in
        if (n <? 8) || (total <? off + n) then Ok (fp_error "bad ah") else
        next' ← idx b off;
        fragpoint_loop fuel b total next' off (off + n)
      else if next =? 44 then
        if total <? off + 8 then
          Ok (mkFragPoint off prevNext next true (Some "short ipv6 fragment header"))
        else Ok (mkFragPoint off prevNext next true None)
      else Ok (mkFragPoint off prevNext next false None)
  end.

Definition ipv6FragmentPoint (b : list Z) : Res FragPoint :=
  if blen b <? 40 then Ok (fp_error "short/non-IPv6 packet") else
  b0 ← idx b 0;
  if negb (Z.shiftr b0 4 =? 6) then Ok (fp_error "short/non-IPv6 packet") else
  plen ← be16 b 4;
  let total := 40 + plen in
  let total := if (total <? 40) || (blen b <? total) then blen b else total in
  next ← idx b 6;
  fragpoint_loop (S (length b)) b total next 6 40.

Fixpoint insert_loop (fuel : nat) (b : list Z) (total next prevNext off : Z) : Res (Z * Z * Z) :=
  match fuel with
  | O => OutOfFuel
  | S fuel =>
      if (next =? 0) || (next =? 43) then
        if total <? off + 2 then Err "short IPv6 extension" else
        l ← idx b (off + 1);
        let n := (l + 1) * 8 in
        if (n <? 8) || (total <? off + n) then Err "bad IPv6 extension" else
        next' ← idx b off;
        insert_loop fuel b total next' off (off + n)
      else if next =? 60 then
        if total <? off + 2 then Err "short IPv6 destination options" else
        l ← idx b (off + 1);
        let n := (l + 1) * 8 in
        if (n <? 8) || (total <? off + n) then Err "bad IPv6 destination options" else
        next' ← idx b off;
        if negb (next' =? 43) then Ok (off, prevNext, next) else
        insert_loop fuel b total next' off (off + n)
      else if next =? 44 then Err "IPv6 packet is already fragmented"
      else Ok (off, prevNext, next)
  end.

Definition ipv6FragmentInsertPoint (b : list Z) : Res (Z * Z * Z) :=
  if blen b <? 40 then Err "short/non-IPv6 packet" else
  b0 ← idx b 0;
  if negb (Z.shiftr b0 4 =? 6) then Err "short/non-IPv6 packet" else
  plen ← be16 b 4;
  let total := 40 + plen in
  if (total <? 40) || (blen b <? total) then Err "truncated IPv6 packet" else
  next ← idx b 6;
  insert_loop (S (length b)) b total next 6 40.

(** One iteration of the loop of [fragmentIPv6]. *)
Definition fragment6_step (b payload : list Z) (insert prevNext next maxPayload id off : Z)
    : Res (list Z * Z) :=
  let n := blen payload - off in
  let more := maxPayload <? n in
  let n := if more then maxPayload else n in
  let frag := zeros (insert + 8 + n) in
  hdr ← slice b 0 insert;
  frag ← copy_into frag 0 (blen frag) hdr;
  frag ← store frag prevNext 44;
  frag ← store frag insert next;
  let v := u16 (Z.shiftl (off `div` 8) 3) in
  let v := if more then Z.lor v 1 else v in
  frag ← put16 frag (insert + 2) v;
  frag ← put32 frag (insert + 4) id;
  pl ← slice payload off (off + n);
  frag ← copy_into frag (insert + 8) (blen frag) pl;
  if 65535 <? blen frag - 40 then Err "fragmented IPv6 payload exceeds 65535" else
  frag ← put16 frag 4 (u16 (blen frag - 40));
  Ok (frag, n).

Fixpoint fragment6_loop (fuel : nat) (b payload : list Z)
    (insert prevNext next maxPayload id off : Z) : Res (list (list Z)) :=
  match fuel with
  | O => OutOfFuel
  | S fuel =>
      if off <? blen payload then
        '(frag, n) ← fragment6_step b payload insert prevNext next maxPayload id off;
        rest ← fragment6_loop fuel b payload insert prevNext next maxPayload id (off + n);
        Ok (frag :: rest)
      else Ok []
  end.

Definition fragmentIPv6 (b : list Z) (mtu : Z) : SR Z (list (list Z) * bool) :=
  if blen b <? 40 then sfail "short ipv6" else
  plen ← liftR (be16 b 4);
  if plen =? 0 then sfail "IPv6 jumbogram fragmentation is unsupported" else
  let total := 40 + plen in
  if blen b <? total then sfail "truncated ipv6 packet" else
  if total <=? mtu then
    (whole ← liftR (slice b 0 total); mret ([whole], false))
  else
  whole ← liftR (slice b 0 total);
  fp ← liftR (ipv6FragmentPoint whole);
  match fpErr fp with
  | Some e => sfail e
  | None =>
      if fpFound fp then sfail "IPv6 packet is already fragmented" else
      '(insert, prevNext, next) ← liftR (ipv6FragmentInsertPoint whole);
      let maxPayload := (mtu - insert - 8) `quot` 8 * 8 in
      if maxPayload <? 8 then sfail "MTU too small for IPv6 headers" else
      payload ← liftR (slice b insert total);
      x ← next_fragmentID;
      id ← (if x =? 0 then next_fragmentID else mret x);
      out ← liftR (fragment6_loop (S (length b)) b payload insert prevNext next maxPayload id 0);
      mret (out, true)
  end.

(** ** Entry points *)
Definition IsFragment (b : list Z) : Res bool :=
  if blen b <? 1 then Ok false else
  b0 ← idx b 0;
  let v := Z.shiftr b0 4 in
  if v =? 4 then
    if blen b <? 8 then Ok false else
    (fv ← be16 b 6; Ok (negb (Z.land fv 0x3fff =? 0)))
  else if v =? 6 then
    (fp ← ipv6FragmentPoint b; Ok (fpFound fp))
  else Ok false.

Definition FragmentForMTU (b : list Z) (mtu : Z) : SR Z (list (list Z) * bool) :=
  if mtu <? 576 then sfail "bad MTU" else
  if blen b <=? mtu then mret ([b], false) else
  if blen b <? 1 then sfail "empty IP packet" else
  b0 ← liftR (idx b 0);
  let v := Z.shiftr b0 4 in
  if v =? 4 then fragmentIPv4 b mtu
  else if v =? 6 then fragmentIPv6 b mtu
  else sfail "not IP".

(** ** The header checksum *)

(** The sum of the 16-bit words of a slice, unbounded. *)
Fixpoint words (h : list Z) : Z :=
  match h with
  | a :: c :: rest => a * 256 + c + words rest
  | [a] => a * 256
  | [] => 0
  end.

Lemma list_pair_ind {A} (P : list A → Prop) :
  P [] → (∀ a, P [a]) → (∀ a c l, P l → P (a :: c :: l)) → ∀ l, P l.
Proof. intros H0 H1 H2. fix IH 1. intros [|a [|c l]]; [done|done|by apply H2]. Qed.

Lemma checksum_sum_words h s : bytes_ok h → 0 <= s < 4294967296 → checksum_sum h s = u32 (s + words h).
Proof.
  revert s. induction h as [|a|a c l IH] using list_pair_ind; intros s Hh Hs; cbn [checksum_sum words].
  - rewrite Z.add_0_r. by rewrite u32_small.
  - rewrite u32_add_r. by rewrite Z.shiftl_mul_pow2 by lia.
  - inversion Hh as [|?? H1 Ht]; inversion Ht as [|?? H2 Hl]; subst.
    rewrite IH by (done || apply u32_range). rewrite u32_add_l. f_equal. lia.
Qed.

Lemma words_bounds h : bytes_ok h → 0 <= words h <= 65535 * blen h.
Proof.
  induction h as [|a|a c l IH] using list_pair_ind; intros Hh; cbn [words].
  - done.
  - inversion Hh; subst. unfold blen; cbn [length]; lia.
  - inversion Hh as [|?? H1 Ht]; inversion Ht as [|?? H2 Hl]; subst.
    rewrite !blen_cons. pose proof (IH Hl). pose proof (blen_nonneg l). lia.
Qed.

Lemma checksum_step s : 0 <= s < 4294967296 →
  u32 (Z.land s 0xffff + Z.shiftr s 16) = s `mod` 65536 + s `div` 65536.
Proof.
  intros Hs. change 0xffff with (2 ^ 16 - 1). rewrite land_ones_mod, Z.shiftr_div_pow2 by lia.
  apply u32_small. change (2 ^ 16) with 65536. Z.div_mod_to_equations. lia.
Qed.

(** Folding computes the ones-complement representative: congruent modulo
    65535, and zero only for a zero sum. *)
Lemma checksum_fold_spec s : 0 <= s < 4294967296 →
  ∃ f, checksum_fold 4 s = Ok f ∧ 0 <= f < 65536 ∧ f `mod` 65535 = s `mod` 65535 ∧ (f = 0 ↔ s = 0).
Proof.
  assert (Hone : ∀ n s, 0 <= s < 65536 → checksum_fold (S n) s = Ok s).
  { intros n x Hx. cbn [checksum_fold]. rewrite Z.shiftr_div_pow2, Z.div_small by (simpl; lia). done. }
  assert (Hred : ∀ n s, 65536 <= s < 4294967296 →
    checksum_fold (S n) s = checksum_fold n (s `mod` 65536 + s `div` 65536)).
  { intros n x Hx. cbn [checksum_fold]. rewrite Z.shiftr_div_pow2 by lia.
    destruct (Z.eqb_spec (x `div` 2 ^ 16) 0) as [E|E].
    - change (2 ^ 16) with 65536 in E. Z.div_mod_to_equations. lia.
    - cbn [negb]. rewrite <- checksum_step by lia. by rewrite Z.shiftr_div_pow2 by lia. }
  assert (Hm : ∀ s, 0 <= s → (s `mod` 65536 + s `div` 65536) `mod` 65535 = s `mod` 65535).
  { intros x Hx. rewrite (Z.div_mod x 65536) at 3 by lia.
    replace (65536 * (x `div` 65536) + x `mod` 65536)
      with (x `mod` 65536 + x `div` 65536 + x `div` 65536 * 65535) by lia.
    by rewrite Z.mod_add by lia. }
  intros Hs. destruct (decide (s < 65536)) as [H1|H1].
  { exists s. rewrite Hone by lia. split_and!; try lia; done. }
  rewrite Hred by lia. specialize (Hm s ltac:(lia)) as Hm1.
  set (s1 := s `mod` 65536 + s `div` 65536) in *.
  assert (B1 : 0 < s1 <= 131070) by (subst s1; Z.div_mod_to_equations; lia). clearbody s1.
  destruct (decide (s1 < 65536)) as [H2|H2].
  { exists s1. rewrite Hone by lia. split_and!; [done|lia..]. }
  rewrite Hred by lia. specialize (Hm s1 ltac:(lia)) as Hm2.
  set (s2 := s1 `mod` 65536 + s1 `div` 65536) in *.
  assert (B2 : 0 < s2 < 65536) by (subst s2; Z.div_mod_to_equations; lia). clearbody s2.
  exists s2. rewrite Hone by lia. split_and!; [done|lia..].
Qed.

Lemma ipv4HeaderChecksum_spec h : bytes_ok h → blen h < 65536 →
  ∃ f, ipv4HeaderChecksum h = Ok (65535 - f) ∧ 0 <= f < 65536 ∧
       f `mod` 65535 = words h `mod` 65535 ∧ (f = 0 ↔ words h = 0).
Proof.
  intros Hh Hl. pose proof (words_bounds h Hh) as Hw.
  unfold ipv4HeaderChecksum. rewrite checksum_sum_words, Z.add_0_l, u32_small by (done || lia).
  destruct (checksum_fold_spec (words h)) as (f & -> & Hf & Hm & H0); [lia|].
  exists f. rewrite bind_Ok, u16_small by done. done.
Qed.

Lemma words_put16_10 h c : 12 <= blen h → 0 <= c < 65536 →
  words (bcopy h 10 (enc16 c)) = words h - gb16 h 10 + c.
Proof.
  intros Hl Hc. unfold blen in Hl.
  do 12 (destruct h as [|? h]; [cbn [length] in Hl; lia|]).
  unfold bcopy. rewrite (take_ge (enc16 c)) by (cbn [length enc16]; lia).
  change (_ ++ _ ++ _) with (z :: z0 :: z1 :: z2 :: z3 :: z4 :: z5 :: z6 :: z7 :: z8
    :: (c `div` 256) `mod` 256 :: c `mod` 256 :: h).
  change (gb16 _ 10) with (z9 * 256 + z10). cbn [words].
  pose proof (enc16_val c Hc). lia.
Qed.

(** A header whose checksum field is filled in with the sum of the rest
    verifies: its own checksum is zero. *)
Lemma checksum_verifies h c : bytes_ok h → 12 <= blen h < 65536 → gb16 h 10 = 0 →
  ipv4HeaderChecksum h = Ok c →
  0 <= c < 65536 ∧ ipv4HeaderChecksum (bcopy h 10 (enc16 c)) = Ok 0.
Proof.
  intros Hh Hl H10 Hc. destruct (ipv4HeaderChecksum_spec h Hh) as (f & Hf & Bf & Mf & Zf); [lia|].
  rewrite Hf in Hc. injection Hc as <-. split; [lia|].
  destruct (ipv4HeaderChecksum_spec (bcopy h 10 (enc16 (65535 - f)))) as (g & Hg & Bg & Mg & Zg);
    [auto with go | blia |].
  rewrite Hg. do 2 f_equal. rewrite words_put16_10, H10 in * by lia.
  pose proof (words_bounds h Hh).
  assert (Hz : (words h - 0 + (65535 - f)) `mod` 65535 = 0).
  { replace (words h - 0 + (65535 - f)) with (words h - f + 1 * 65535) by lia.
    rewrite Z.mod_add, Zminus_mod, <- Mf, Z.sub_diag by lia. done. }
  rewrite Hz in Mg. assert (g ≠ 0) by (rewrite Zg; lia).
  Z.div_mod_to_equations. lia.
Qed.

(** ** IPv4 fragments *)

(** The header bytes a fragment takes over from the original: all but the
    length, the identification, the flags and offset, and the checksum. *)
Definition kept4 (i : Z) : Prop := i < 2 ∨ 8 <= i < 10 ∨ 12 <= i.

(** [f] is the fragment with payload [data] at offset [off] of the packet whose
    header is the first [ihl] bytes of [b]. *)
Record is_frag4 (b : list Z) (ihl id rsv off : Z) (data : list Z) (more : bool) (f : list Z) : Prop := {
  if4_bytes : bytes_ok f;
  if4_len : blen f = ihl + blen data;
  if4_total : gb16 f 2 = blen f;
  if4_id : gb16 f 4 = id;
  if4_flags : gb16 f 6 = rsv + off `div` 8 + (if more then 8192 else 0);
  if4_hdr : ∀ i, 0 <= i < ihl → kept4 i → gb f i = gb b i;
  if4_data : bsub f ihl (blen f) = data;
  if4_sum : ipv4HeaderChecksum (bsub f 0 ihl) = Ok 0
}.

Lemma frag4_flags r x (more : bool) :
  (r = 0 ∨ r = 32768) → 0 <= x < 8192 →
  (if more then Z.lor (Z.lor r x) 0x2000 else Z.lor r x) = r + x + (if more then 8192 else 0).
Proof.
  intros Hr Hx. change 0x2000 with 8192.
  assert (E : ∀ y, Z.lor (y * 8192) x = y * 8192 + x).
  { intros y. apply (lor_disjoint x y 13); simpl; lia. }
  destruct more.
  - rewrite <- Z.lor_assoc, (Z.lor_comm x), Z.lor_assoc.
    destruct Hr as [->| ->]; [change (Z.lor 0 8192) with (1 * 8192) | change (Z.lor 32768 8192) with (5 * 8192)];
      rewrite E; lia.
  - destruct Hr as [->| ->]; [rewrite Z.lor_0_l; lia | rewrite (E 4 : Z.lor 32768 x = _); lia].
Qed.

Lemma bsub_bcopy_prefix b off src hi :
  0 <= off → off + blen src <= hi → hi <= blen b →
  bsub (bcopy b off src) 0 hi = bcopy (bsub b 0 hi) off src.
Proof.
  intros. pose proof (blen_nonneg src). apply bytes_eq; [blia|]. intros i Hi.
  rewrite blen_bsub in Hi by blia. rewrite gb_bsub by lia. rewrite !gb_bcopy by blia.
  destruct (_ && _); [f_equal; lia|]. by rewrite gb_bsub by lia.
Qed.

Lemma fragment4_step_spec b payload ihl maxPayload id rsv off :
  bytes_ok b → bytes_ok payload → 20 <= ihl <= 60 → ihl <= blen b → ihl + blen payload <= 65535 →
  8 <= maxPayload → 0 <= id < 65536 → (rsv = 0 ∨ rsv = 32768) → 0 <= off < blen payload →
  let n := Z.min maxPayload (blen payload - off) in
  ∃ f, fragment4_step b payload ihl maxPayload id rsv off = Ok (f, n) ∧
    is_frag4 b ihl id rsv off (bsub payload off (off + n)) (maxPayload <? blen payload - off) f.
Proof.
  intros Hb Hp Hihl Hl Htot Hmax Hid Hr Hoff n. unfold fragment4_step. cbv zeta.
  replace (if maxPayload <? blen payload - off then maxPayload else blen payload - off) with n
    by (subst n; destruct (Z.ltb_spec maxPayload (blen payload - off)); lia).
  assert (Hn : 0 < n /\ off + n <= blen payload) by lia.
  assert (Hx : 0 <= off `div` 8 < 8192) by (Z.div_mod_to_equations; lia).
  rewrite (u16_small (off `div` 8)) by lia. rewrite frag4_flags by done.
  set (more := maxPayload <? _). clearbody more. clearbody n.
  set (fl := rsv + _ + _). assert (Hfl : 0 <= fl < 65536) by (subst fl; destruct more; lia).
  go_ops. rewrite u16_small by bside.
  set (f0 := bset (bset _ 10 0) 11 0).
  assert (L0 : blen f0 = ihl + n) by (subst f0; bside).
  assert (B0 : bytes_ok f0) by (subst f0; auto 12 with go lia).
  assert (S0 : gb16 f0 10 = 0). { subst f0. unfold gb16. by gb_read. }
  assert (T0 : gb16 f0 2 = ihl + n) by (subst f0; gb_read; bside).
  assert (I0 : gb16 f0 4 = id) by (subst f0; by gb_read).
  assert (F0 : gb16 f0 6 = fl) by (subst f0; by gb_read).
  assert (H0 : ∀ i, 0 <= i < ihl → kept4 i → gb f0 i = gb b i).
  { intros i Hi Hk. unfold kept4 in Hk. subst f0. gb_read. rewrite gb_bsub by lia. f_equal. lia. }
  assert (P0 : ∀ i, ihl <= i < ihl + n → gb f0 i = gb payload (off + (i - ihl))).
  { intros i Hi. subst f0. gb_read. by rewrite gb_bsub by lia. }
  clearbody f0. go_ops.
  destruct (ipv4HeaderChecksum_spec (bsub f0 0 ihl)) as (c & Hc & Bc & _); [auto with go|blia|].
  rewrite Hc, bind_Ok. go_ops.
  destruct (checksum_verifies (bsub f0 0 ihl) (65535 - c)) as [_ HV];
    [auto with go | blia | unfold gb16 in *; rewrite !gb_bsub by lia; done | done |].
  eexists. split; [done|]. split.
  - auto 10 with go lia.
  - autorewrite with blen. lia.
  - gb_read. rewrite T0. bside.
  - by gb_read.
  - by gb_read.
  - intros i Hi Hk. unfold kept4 in Hk. gb_read. by apply H0.
  - apply bytes_eq; [blia|]. intros i Hi. autorewrite with blen in Hi.
    rewrite gb_bsub by bside. gb_read. rewrite P0 by lia. rewrite gb_bsub by lia. f_equal. lia.
  - rewrite bsub_bcopy_prefix by (rewrite ?blen_enc16; lia). done.
Qed.

(** Consecutive fragments tile the payload from [off] to its end. *)
Fixpoint frags4_ok (b : list Z) (ihl id rsv mtu : Z) (payload : list Z) (off : Z)
    (frags : list (list Z)) : Prop :=
  match frags with
  | [] => off = blen payload
  | f :: rest =>
      let n := blen f - ihl in
      0 < n ∧ blen f <= mtu ∧ off `mod` 8 = 0 ∧ off + n <= blen payload ∧
      is_frag4 b ihl id rsv off (bsub payload off (off + n)) (negb (bool_decide (rest = []))) f ∧
      frags4_ok b ihl id rsv mtu payload (off + n) rest
  end.

Lemma fragment4_loop_spec fuel b payload ihl maxPayload id rsv mtu off :
  bytes_ok b → bytes_ok payload → 20 <= ihl <= 60 → ihl <= blen b → ihl + blen payload <= 65535 →
  8 <= maxPayload → maxPayload `mod` 8 = 0 → ihl + maxPayload <= mtu →
  0 <= id < 65536 → (rsv = 0 ∨ rsv = 32768) → 0 <= off <= blen payload →
  (off < blen payload → off `mod` 8 = 0) → blen payload - off < Z.of_nat fuel →
  ∃ frags, fragment4_loop fuel b payload ihl maxPayload id rsv off = Ok frags ∧
    frags4_ok b ihl id rsv mtu payload off frags ∧ (frags = [] ↔ off = blen payload).
Proof.
  intros Hb Hp Hihl Hl Htot Hmax Hm8 Hmtu Hid Hr. revert off.
  induction fuel as [|fuel IH]; intros off Hoff Hal Hf; [lia|]. cbn [fragment4_loop].
  destruct (Z.ltb_spec off (blen payload)) as [Hlt|Hge].
  2:{ exists []. split_and!; [done|simpl; lia|]. split; [lia|done]. }
  destruct (fragment4_step_spec b payload ihl maxPayload id rsv off) as (f & -> & Hfr); try done; try lia.
  set (n := Z.min maxPayload (blen payload - off)) in *. rewrite bind_Ok. cbv beta iota.
  destruct (IH (off + n)) as (rest & -> & Hrest & Hnil); [lia| |lia|].
  { intros. assert (n = maxPayload) as -> by lia. rewrite Z.add_mod, Hm8, Hal by lia. done. }
  rewrite bind_Ok. exists (f :: rest). split_and!; [done| |split; [done|lia]].
  assert (Hn : blen f - ihl = n).
  { destruct Hfr as [_ Hlf _ _ _ _ _ _]. rewrite Hlf, blen_bsub by lia. lia. }
  cbn [frags4_ok]. rewrite Hn. split_and!; try lia; try done.
  replace (negb (bool_decide (rest = []))) with (maxPayload <? blen payload - off); [done|].
  apply eq_iff_eq_true. rewrite Z.ltb_lt, negb_true_iff, bool_decide_eq_false, Hnil. lia.
Qed.

(** The datagram length [fragmentIPv4] and the reassembler go by. *)
Definition total4 (b : list Z) : Z :=
  if (gb16 b 2 =? 0) || (blen b <? gb16 b 2) then blen b else gb16 b 2.
Definition ihl4 (b : list Z) : Z := Z.land (gb b 0) 15 * 4.
Definition rsv4 (b : list Z) : Z := Z.land (gb16 b 6) 0x8000.

Lemma total4_le b : total4 b <= blen b.
Proof. unfold total4. destruct (_ || _) eqn:E; zbool; lia. Qed.
Lemma rsv4_cases b : rsv4 b = 0 ∨ rsv4 b = 32768.
Proof.
  unfold rsv4. change 0x8000 with (2 ^ 15). rewrite land_pow2 by lia.
  pose proof (Z.mod_pos_bound (gb16 b 6 `div` 2 ^ 15) 2 ltac:(lia)) as H.
  set (x := _ `mod` 2) in *. clearbody x. change (2 ^ 15) with 32768. lia.
Qed.

(** The identification drawn when the packet carries none. *)
Lemma fresh_id s : 0 <= s < 4294967296 →
  ∃ s' id, (x ← next_fragmentID;
            if u16 x =? 0 then (y ← next_fragmentID; mret (u16 y)) else mret (u16 x)) s
           = (s', Ok id) ∧ 0 < id < 65536 ∧ 0 <= s' < 4294967296.
Proof.
  intros Hs. unfold next_fragmentID, mbind, SR_bind, mret, SR_ret.
  pose proof (u16_range (u32 (s + 1))). pose proof (u32_range (s + 1)).
  destruct (Z.eqb_spec (u16 (u32 (s + 1))) 0) as [E|E].
  - eexists _, _. split; [done|].
    pose proof (u16_range (u32 (u32 (s + 1) + 1))). pose proof (u32_range (u32 (s + 1) + 1)).
    split; [|lia]. split; [|lia].
    unfold u16, u32 in *. Z.div_mod_to_equations. lia.
  - eexists _, _. split; [done|]. lia.
Qed.

Definition frag4_refused (b : list Z) : Prop :=
  blen b < 20 ∨ ihl4 b < 20 ∨ blen b < ihl4 b ∨
  Z.land (gb16 b 6) 0x3fff ≠ 0 ∨ Z.land (gb16 b 6) 0x4000 ≠ 0.

Lemma fragmentIPv4_spec b mtu s :
  bytes_ok b → 576 <= mtu → 0 <= s < 4294967296 → total4 b <= 65535 →
  match snd (fragmentIPv4 b mtu s) with
  | Ok (frags, false) => frags = [bsub b 0 (total4 b)] ∧ total4 b <= mtu
  | Ok (frags, true) =>
      ¬ frag4_refused b ∧ mtu < total4 b ∧
      ∃ id, 0 < id < 65536 ∧ (gb16 b 4 ≠ 0 → id = gb16 b 4) ∧
        frags4_ok b (ihl4 b) id (rsv4 b) mtu (bsub b (ihl4 b) (total4 b)) 0 frags
  | Err _ => frag4_refused b
  | _ => False
  end.
Proof.
  intros Hb Hmtu Hs Htot. unfold fragmentIPv4, frag4_refused.
  destruct (Z.ltb_spec (blen b) 20); [cbn [snd sfail negb]; tauto|].
  unfold liftR. unfold mbind at 1, SR_bind at 1. go_ops. fold (ihl4 b).
  destruct (_ || _) eqn:Hi; zbool; [destruct Hi; zbool; cbn [snd sfail negb]; tauto|].
  unfold mbind at 1, SR_bind at 1. go_ops. fold (total4 b).
  pose proof (total4_le b) as Htl.
  destruct (Z.leb_spec (total4 b) mtu).
  { unfold mbind, SR_bind, mret, SR_ret. rewrite slice_ok; [done|lia|unfold total4|lia].
    pose proof (gb16_range b 2 Hb). destruct (_ || _) eqn:E; zbool; lia. }
  unfold mbind at 1, SR_bind at 1. go_ops.
  destruct (Z.eqb_spec (Z.land (gb16 b 6) 0x3fff) 0) as [Hfr|]; [|cbn [snd sfail negb]; tauto]. cbn [negb].
  destruct (Z.eqb_spec (Z.land (gb16 b 6) 0x4000) 0) as [Hdf|]; [|cbn [snd sfail negb]; tauto]. cbn [negb].
  pose proof (land_15_range (gb b 0)) as Hih. fold (ihl4 b) in Hih.
  assert (Hih' : ihl4 b <= 60) by (unfold ihl4 in *; lia).
  rewrite Z.quot_div_nonneg by lia.
  set (mp := (mtu - ihl4 b) `div` 8 * 8).
  assert (Hmp : 8 <= mp ∧ mp `mod` 8 = 0 ∧ ihl4 b + mp <= mtu).
  { split_and!; [|subst mp; apply Z.mod_mul; lia|]; subst mp; Z.div_mod_to_equations; lia. }
  destruct (Z.ltb_spec mp 8); [lia|].
  unfold mbind at 1, SR_bind at 1. go_ops. unfold mbind at 1, SR_bind at 1. go_ops.
  pose proof (gb16_range b 4 Hb) as Hid.
  set (draw := if gb16 b 4 =? 0 then _ else _).
  assert (Hdraw : ∃ s' id, draw s = (s', Ok id) ∧ 0 < id < 65536 ∧ (gb16 b 4 ≠ 0 → id = gb16 b 4)).
  { subst draw. destruct (Z.eqb_spec (gb16 b 4) 0) as [E|E].
    - destruct (fresh_id s Hs) as (s' & id & E' & ? & _). exists s', id. rewrite E'. done.
    - exists s, (gb16 b 4). split_and!; [done|lia|lia|done]. }
  destruct Hdraw as (s' & id & Ed & Hid1 & Hid2).
  unfold mbind at 1, SR_bind at 1. rewrite Ed. clear Ed draw.
  unfold mbind at 1, SR_bind at 1. fold (rsv4 b).
  destruct (fragment4_loop_spec (S (length b)) b (bsub b (ihl4 b) (total4 b)) (ihl4 b) mp id (rsv4 b) mtu 0)
    as (frags & -> & Hfs & _); rewrite ?blen_bsub by lia; auto with go; try lia.
  - apply rsv4_cases.
  - unfold blen in *; lia.
  - cbn. split_and!; [lia|lia|]. exists id. done.
Qed.

(** ** IPv6 fragments *)

Lemma fragpoint_loop_returns fuel b total next prev off :
  bytes_ok b → total <= blen b → 0 <= off <= total → total - off < Z.of_nat fuel →
  ∃ fp, fragpoint_loop fuel b total next prev off = Ok fp.
Proof.
  intros Hb Ht. revert next prev off.
  induction fuel as [|fuel IH]; intros next prev off Ho Hf; [lia|]. cbn [fragpoint_loop].
  repeat match goal with
  | |- context [if ?c then _ else _] => destruct c eqn:?; zbool; [eauto; fail|]
  | |- context [if ?c then _ else _] => destruct c eqn:?; zbool; [|eauto; fail]
  | _ => go_if
  | _ => progress go_ops
  end; try (eexists; reflexivity); pose proof (gb_range b (off + 1) Hb); apply IH; lia.
Qed.

Lemma ipv6FragmentPoint_returns b : bytes_ok b → ∃ fp, ipv6FragmentPoint b = Ok fp.
Proof.
  intros Hb. unfold ipv6FragmentPoint. destruct (Z.ltb_spec (blen b) 40); [eauto|]. go_ops.
  destruct (negb _); [eauto|]. go_ops. pose proof (gb16_range b 4 Hb).
  apply fragpoint_loop_returns; [done|destruct (_ || _) eqn:E; zbool; unfold blen in *; lia..].
Qed.

(** The unfragmentable extension headers from offset [off] (announced as
    [next] by the byte at [prev]) to [ins], whose header [nx] is announced at [prv]. *)
Inductive chain6 (b : list Z) : Z → Z → Z → Z → Z → Z → Prop :=
  | chain6_stop next prev off : chain6 b next prev off off prev next
  | chain6_step next prev off ins prv nx :
      (next = 0 ∨ next = 43 ∨ next = 60) →
      off + 2 <= ins →
      chain6 b (gb b off) off (off + (gb b (off + 1) + 1) * 8) ins prv nx →
      chain6 b next prev off ins prv nx.

Lemma chain6_bounds b next prev off ins prv nx :
  bytes_ok b → chain6 b next prev off ins prv nx →
  off <= ins ∧ ((ins = off ∧ prv = prev ∧ nx = next) ∨ (off <= prv < ins ∧ gb b prv = nx)).
Proof.
  intros Hb H. induction H as [|next prev off ins prv nx Hn Hi H IH]; [lia|].
  pose proof (gb_range b (off + 1) Hb). destruct IH as [Hle [(-> & -> & ->)|[Hp Hg]]]; [|lia].
  split; [lia|]. right. split; [lia|done].
Qed.

Lemma insert_loop_spec fuel b total next prev off :
  bytes_ok b → total <= blen b → 0 <= off <= total → total - off < Z.of_nat fuel →
  match insert_loop fuel b total next prev off with
  | Ok (ins, prv, nx) => ins <= total ∧ chain6 b next prev off ins prv nx
  | Err _ => True
  | _ => False
  end.
Proof.
  intros Hb Ht. revert next prev off.
  induction fuel as [|fuel IH]; intros next prev off Ho Hf; [lia|]. cbn [insert_loop].
  pose proof (gb_range b (off + 1) Hb).
  assert (Hstep : (next = 0 ∨ next = 43 ∨ next = 60) → off + (gb b (off + 1) + 1) * 8 <= total →
    match insert_loop fuel b total (gb b off) off (off + (gb b (off + 1) + 1) * 8) with
    | Ok (ins, prv, nx) => ins <= total ∧ chain6 b next prev off ins prv nx
    | Err _ => True
    | _ => False
    end).
  { intros Hn Hle. specialize (IH (gb b off) off (off + (gb b (off + 1) + 1) * 8) ltac:(lia) ltac:(lia)).
    destruct (insert_loop _ _ _ _ _ _) as [[[ins prv] nx]| | |]; try done.
    destruct IH as [IH1 IH2]. split; [done|]. apply chain6_step; [done| |done].
    apply chain6_bounds in IH2 as [IH2 _]; [lia|done]. }
  destruct ((next =? 0) || (next =? 43)) eqn:E1; zbool.
  - go_if; [done|]. go_ops. go_if; [done|]. go_ops. apply Hstep; lia.
  - destruct (Z.eqb_spec next 60); [|destruct (Z.eqb_spec next 44); [done|split; [lia|constructor]]].
    go_if; [done|]. go_ops. go_if; [done|]. go_ops.
    go_if; [split; [lia|constructor]|]. apply Hstep; lia.
Qed.

(** [f] is the fragment with payload [data] at offset [off] of packet [b],
    whose Fragment header sits at [ins] and is announced at [prv]. *)
Record is_frag6 (b : list Z) (ins prv nx id off : Z) (data : list Z) (more : bool) (f : list Z) : Prop := {
  if6_bytes : bytes_ok f;
  if6_len : blen f = ins + 8 + blen data;
  if6_total : 40 + gb16 f 4 = blen f;
  if6_prev : gb f prv = 44;
  if6_next : gb f ins = nx;
  if6_off : gb16 f (ins + 2) = off + (if more then 1 else 0);
  if6_id : gb32 f (ins + 4) = id;
  if6_hdr : ∀ i, 0 <= i < ins → i ≠ 4 → i ≠ 5 → i ≠ prv → gb f i = gb b i;
  if6_data : bsub f (ins + 8) (blen f) = data
}.

Lemma frag6_off off (more : bool) : 0 <= off < 65536 → off `mod` 8 = 0 →
  (if more then Z.lor (u16 (Z.shiftl (off `div` 8) 3)) 1 else u16 (Z.shiftl (off `div` 8) 3))
  = off + (if more then 1 else 0).
Proof.
  intros Ho Hm. rewrite Z.shiftl_mul_pow2 by lia. change (2 ^ 3) with 8.
  assert (E : off `div` 8 * 8 = off) by (Z.div_mod_to_equations; lia). rewrite E, u16_small by lia.
  destruct more; [|lia].
  replace off with (off `div` 2 * 2 ^ 1) by (change (2 ^ 1) with 2; Z.div_mod_to_equations; lia).
  apply (lor_disjoint 1 _ 1); simpl; lia.
Qed.

Lemma fragment6_step_spec b payload ins prv nx maxPayload id off :
  bytes_ok b → bytes_ok payload → 40 <= ins <= blen b → 6 <= prv < ins → 0 <= nx < 256 →
  ins + 8 + maxPayload <= 65575 → 8 <= maxPayload → 0 <= id < 4294967296 →
  0 <= off < blen payload → blen payload <= 65535 → off `mod` 8 = 0 →
  let n := Z.min maxPayload (blen payload - off) in
  ∃ f, fragment6_step b payload ins prv nx maxPayload id off = Ok (f, n) ∧
    is_frag6 b ins prv nx id off (bsub payload off (off + n)) (maxPayload <? blen payload - off) f.
Proof.
  intros Hb Hp Hins Hprv Hnx Hfit Hmax Hid Hoff Hpl H8 n. unfold fragment6_step. cbv zeta.
  replace (if maxPayload <? blen payload - off then maxPayload else blen payload - off) with n
    by (subst n; destruct (Z.ltb_spec maxPayload (blen payload - off)); lia).
  assert (Hn : 0 < n /\ off + n <= blen payload /\ n <= maxPayload) by lia.
  rewrite frag6_off by (done || lia). set (more := maxPayload <? _). clearbody more. clearbody n.
  set (fl := off + (if more then 1 else 0)). assert (Hfl : 0 <= fl < 65536) by (subst fl; destruct more; Z.div_mod_to_equations; lia).
  go_ops. set (f0 := bcopy _ (ins + 8) _).
  assert (L0 : blen f0 = ins + 8 + n) by (subst f0; bside). rewrite L0. zdec. rewrite u16_small by lia.
  assert (B0 : bytes_ok f0) by (subst f0; auto 12 with go lia).
  assert (Q0 : gb f0 prv = 44) by (subst f0; by gb_read).
  assert (N0 : gb f0 ins = nx) by (subst f0; by gb_read).
  assert (F0 : gb16 f0 (ins + 2) = fl) by (subst f0; by gb_read).
  assert (I0 : gb32 f0 (ins + 4) = id) by (subst f0; by gb_read).
  assert (H0 : ∀ i, 0 <= i < ins → i ≠ prv → gb f0 i = gb b i).
  { intros i Hi Hk. subst f0. gb_read. rewrite gb_bsub by lia. f_equal. lia. }
  assert (P0 : ∀ i, ins + 8 <= i < ins + 8 + n → gb f0 i = gb payload (off + (i - (ins + 8)))).
  { intros i Hi. subst f0. gb_read. by rewrite gb_bsub by lia. }
  clearbody f0. go_ops. eexists. split; [done|]. split.
  - auto with go.
  - autorewrite with blen. lia.
  - gb_read. bside.
  - by gb_read.
  - by gb_read.
  - by gb_read.
  - by gb_read.
  - intros i Hi ???. gb_read. by apply H0.
  - apply bytes_eq; [blia|]. intros i Hi. autorewrite with blen in Hi.
    rewrite gb_bsub by bside. gb_read. rewrite P0 by lia. rewrite gb_bsub by lia. f_equal. lia.
Qed.

Fixpoint frags6_ok (b : list Z) (ins prv nx id mtu : Z) (payload : list Z) (off : Z)
    (frags : list (list Z)) : Prop :=
  match frags with
  | [] => off = blen payload
  | f :: rest =>
      let n := blen f - (ins + 8) in
      0 < n ∧ blen f <= mtu ∧ off `mod` 8 = 0 ∧ off + n <= blen payload ∧
      is_frag6 b ins prv nx id off (bsub payload off (off + n)) (negb (bool_decide (rest = []))) f ∧
      frags6_ok b ins prv nx id mtu payload (off + n) rest
  end.

Lemma fragment6_loop_spec fuel b payload ins prv nx maxPayload id mtu off :
  bytes_ok b → bytes_ok payload → 40 <= ins <= blen b → 6 <= prv < ins → 0 <= nx < 256 →
  ins + 8 + maxPayload <= 65575 → 8 <= maxPayload → 0 <= id < 4294967296 →
  blen payload <= 65535 → maxPayload `mod` 8 = 0 → ins + 8 + maxPayload <= mtu →
  0 <= off <= blen payload → (off < blen payload → off `mod` 8 = 0) →
  blen payload - off < Z.of_nat fuel →
  ∃ frags, fragment6_loop fuel b payload ins prv nx maxPayload id off = Ok frags ∧
    frags6_ok b ins prv nx id mtu payload off frags ∧ (frags = [] ↔ off = blen payload).
Proof.
  intros Hb Hp Hins Hprv Hnx Hfit Hmax Hid Hpl Hm8 Hmtu. revert off.
  induction fuel as [|fuel IH]; intros off Hoff Hal Hf; [lia|]. cbn [fragment6_loop].
  destruct (Z.ltb_spec off (blen payload)) as [Hlt|Hge].
  2:{ exists []. split_and!; [done|simpl; lia|]. split; [lia|done]. }
  destruct (fragment6_step_spec b payload ins prv nx maxPayload id off) as (f & -> & Hfr); try done; try lia.
  set (n := Z.min maxPayload (blen payload - off)) in *. rewrite bind_Ok. cbv beta iota.
  destruct (IH (off + n)) as (rest & -> & Hrest & Hnil); [lia| |lia|].
  { intros. assert (n = maxPayload) as -> by lia. rewrite Z.add_mod, Hm8, Hal by lia. done. }
  rewrite bind_Ok. exists (f :: rest). split_and!; [done| |split; [done|lia]].
  assert (Hn : blen f - (ins + 8) = n).
  { destruct Hfr as [_ Hlf _ _ _ _ _ _ _]. rewrite Hlf, blen_bsub by lia. lia. }
  cbn [frags6_ok]. rewrite Hn. split_and!; try lia; try done.
  replace (negb (bool_decide (rest = []))) with (maxPayload <? blen payload - off); [done|].
  apply eq_iff_eq_true. rewrite Z.ltb_lt, negb_true_iff, bool_decide_eq_false, Hnil. lia.
Qed.

(** The fragments of an IPv6 packet: the unfragmentable part is a chain of
    extension headers at the start of the packet. *)
Definition fragmented6 (b : list Z) (mtu : Z) (ins prv nx id : Z) (frags : list (list Z)) : Prop :=
  40 <= ins ∧ ins + 16 <= mtu ∧ 6 <= prv < ins ∧ gb b prv = nx ∧ (prv = 6 ∨ 40 <= prv) ∧
  chain6 b (gb b 6) 6 40 ins prv nx ∧
  0 < id < 4294967296 ∧
  frags6_ok b ins prv nx id mtu (bsub b ins (40 + gb16 b 4)) 0 frags.

Lemma chain6_agree b b' next prev off ins prv nx :
  bytes_ok b → chain6 b next prev off ins prv nx → 0 <= off →
  (∀ i, off <= i < ins → gb b i = gb b' i) → chain6 b' next prev off ins prv nx.
Proof.
  intros Hb H. induction H as [|next prev off ins prv nx Hn Hi H IH]; intros Ho Hg; [constructor|].
  pose proof (gb_range b (off + 1) Hb).
  apply chain6_step; [done|done|]. rewrite <- !Hg by lia. apply IH; [lia|]. intros. apply Hg. lia.
Qed.

Lemma fresh_id6 s : 0 <= s < 4294967296 →
  ∃ s' id, (x ← next_fragmentID; if x =? 0 then next_fragmentID else mret x) s = (s', Ok id) ∧
    0 < id < 4294967296.
Proof.
  intros Hs. unfold next_fragmentID, mbind, SR_bind, mret, SR_ret.
  pose proof (u32_range (s + 1)).
  destruct (Z.eqb_spec (u32 (s + 1)) 0) as [->|E]; eexists _, _; (split; [done|]); [done|lia].
Qed.

Lemma fragmentIPv6_spec b mtu s :
  bytes_ok b → 576 <= mtu → 0 <= s < 4294967296 →
  match snd (fragmentIPv6 b mtu s) with
  | Ok (frags, false) => frags = [bsub b 0 (40 + gb16 b 4)] ∧ 40 + gb16 b 4 <= mtu
  | Ok (frags, true) =>
      mtu < 40 + gb16 b 4 <= blen b ∧ ∃ ins prv nx id, fragmented6 b mtu ins prv nx id frags
  | Err _ => True
  | _ => False
  end.
Proof.
  intros Hb Hmtu Hs. unfold fragmentIPv6.
  destruct (Z.ltb_spec (blen b) 40); [done|]. pose proof (gb16_range b 4 Hb) as Hpl.
  unfold liftR. unfold mbind at 1, SR_bind at 1. go_ops.
  destruct (Z.eqb_spec (gb16 b 4) 0); [done|].
  destruct (Z.ltb_spec (blen b) (40 + gb16 b 4)); [done|].
  set (total := 40 + gb16 b 4) in *. set (w := bsub b 0 total).
  assert (Hw : blen w = total) by (subst w; blia).
  assert (Bw : bytes_ok w) by (subst w; auto with go).
  assert (Gw : ∀ i, 0 <= i < total → gb w i = gb b i). { intros. subst w. by rewrite gb_bsub by lia. }
  destruct (Z.leb_spec total mtu); unfold mbind at 1, SR_bind at 1; rewrite slice_ok by lia; [done|].
  fold w. unfold mbind at 1, SR_bind at 1. destruct (ipv6FragmentPoint_returns w Bw) as [fp ->].
  destruct (fpErr fp); [done|]. destruct (fpFound fp); [done|].
  unfold mbind at 1, SR_bind at 1. unfold ipv6FragmentInsertPoint.
  destruct (Z.ltb_spec (blen w) 40); [done|]. go_ops. destruct (negb _); [done|]. go_ops.
  replace (gb16 w 4) with (gb16 b 4) by (unfold gb16; rewrite !Gw by lia; done).
  fold total. zdec. go_ops.
  pose proof (insert_loop_spec (S (length w)) w total (gb w 6) 6 40 Bw ltac:(lia) ltac:(lia)) as HI.
  destruct (insert_loop _ _ _ _ _ _) as [[[ins prv] nx]| | |]; [|done|apply HI; unfold blen in *; lia..].
  destruct HI as [HI1 HI2]; [unfold blen in *; lia|].
  apply (chain6_agree w b) in HI2; [|done|lia|intros; apply Gw; lia]. rewrite Gw in HI2 by lia.
  destruct (chain6_bounds _ _ _ _ _ _ _ Hb HI2) as [Hins Hprv].
  cbv beta iota. set (d8 := (mtu - ins - 8) `quot` 8).
  destruct (Z.ltb_spec (d8 * 8) 8) as [Hsm|Hsm]; [done|].
  assert (Hd : ins + 8 + d8 * 8 <= mtu).
  { subst d8. destruct (decide (0 <= mtu - ins - 8)).
    - rewrite Z.quot_div_nonneg by lia. Z.div_mod_to_equations. lia.
    - assert ((mtu - ins - 8) `quot` 8 <= 0); [|lia].
      rewrite <- (Z.opp_involutive (mtu - ins - 8)), Z.quot_opp_l by lia.
      pose proof (Z.quot_pos (- (mtu - ins - 8)) 8). lia. }
  unfold mbind at 1, SR_bind at 1. rewrite slice_ok by lia.
  destruct (fresh_id6 s Hs) as (s' & id & Hd1 & Hd2).
  assert (Hprv' : 6 <= prv < ins ∧ gb b prv = nx ∧ (prv = 6 ∨ 40 <= prv)).
  { destruct Hprv as [(-> & -> & ->)|[Hp1 Hp2]]; split_and!; try done; lia. }
  destruct Hprv' as (Hp1 & Hp2 & Hp3).
  destruct (fragment6_loop_spec (S (length b)) b (bsub b ins total) ins prv nx (d8 * 8) id mtu 0)
    as (frags & Hlp & Hfs & _); rewrite ?blen_bsub by lia; auto with go; try lia.
  - subst nx. by apply gb_range.
  - by apply Z.mod_mul.
  - unfold blen in *; lia.
  - revert Hd1. unfold mbind, SR_bind, mret, SR_ret, next_fragmentID.
    destruct (u32 (s + 1) =? 0); intros Hd1; injection Hd1 as <- <-; rewrite Hlp; cbn [snd];
      (split; [lia|]); exists ins, prv, nx; eexists; unfold fragmented6; split_and!; try done; lia.
Qed.

Lemma FragmentForMTU_spec (b : list Z) (mtu s : Z) :
  bytes_ok b → 0 <= s < 4294967296 →
  (Z.shiftr (gb b 0) 4 = 4 → total4 b <= 65535) →
  match snd (FragmentForMTU b mtu s) with
  | Ok (frags, false) => 576 <= mtu ∧ ∃ n, frags = [bsub b 0 n] ∧ n <= mtu
  | Ok (frags, true) =>
      576 <= mtu ∧
      ((Z.shiftr (gb b 0) 4 = 4 ∧ ¬ frag4_refused b ∧ mtu < total4 b ∧
        ∃ id, 0 < id < 65536 ∧ (gb16 b 4 ≠ 0 → id = gb16 b 4) ∧
          frags4_ok b (ihl4 b) id (rsv4 b) mtu (bsub b (ihl4 b) (total4 b)) 0 frags) ∨
       (Z.shiftr (gb b 0) 4 = 6 ∧ mtu < 40 + gb16 b 4 <= blen b ∧
        ∃ ins prv nx id, fragmented6 b mtu ins prv nx id frags))
  | Err _ => mtu < 576 ∨ Z.shiftr (gb b 0) 4 ≠ 4 ∨ frag4_refused b
  | _ => False
  end.
Proof.
  intros Hb Hs H4. unfold FragmentForMTU. destruct (Z.ltb_spec mtu 576); [left; lia|].
  destruct (Z.leb_spec (blen b) mtu).
  { cbn. split; [done|]. exists (blen b). by rewrite bsub_full. }
  destruct (Z.ltb_spec (blen b) 1); [lia|]. unfold liftR, mbind, SR_bind. rewrite idx_ok by lia.
  destruct (Z.eqb_spec (Z.shiftr (gb b 0) 4) 4) as [E4|E4].
  - pose proof (fragmentIPv4_spec b mtu s Hb ltac:(lia) Hs (H4 E4)) as HF.
    destruct (snd (fragmentIPv4 b mtu s)) as [[frags []]| | |]; try tauto.
    split; [lia|]. destruct HF as [-> HF]. by exists (total4 b).
  - destruct (Z.eqb_spec (Z.shiftr (gb b 0) 4) 6) as [E6|E6]; [|by right; left].
    pose proof (fragmentIPv6_spec b mtu s Hb ltac:(lia) Hs) as HF.
    destruct (snd (fragmentIPv6 b mtu s)) as [[frags []]| | |]; try tauto.
    split; [lia|]. destruct HF as [-> HF]. by exists (40 + gb16 b 4).
Qed.

(** [FragmentForMTU] never panics or loops.  A packet that fits is
    returned as it is (cut to its own length).  An IPv4 packet that does not is
    refused only when its header is bad, it is a fragment already or DF is set;
    otherwise the fragments fit the MTU, carry the header of the original with a
    valid checksum, a common non-zero identification (the packet's own when it
    has one), MF on all but the last, offsets in multiples of 8, and tile the
    payload.  IPv6 fragments repeat the unfragmentable extension chain, announce
    the Fragment header at its end and tile the rest in the same way. *)
Theorem FragmentForMTU_correct (b : list Z) (mtu s : Z) :
  bytes_ok b → 0 <= s < 4294967296 →
  (Z.shiftr (gb b 0) 4 = 4 → total4 b <= 65535) →
  match snd (FragmentForMTU b mtu s) with
  | Ok (frags, false) => 576 <= mtu ∧ ∃ n, frags = [bsub b 0 n] ∧ n <= mtu
  | Ok (frags, true) =>
      576 <= mtu ∧
      ((Z.shiftr (gb b 0) 4 = 4 ∧ ¬ frag4_refused b ∧ mtu < total4 b ∧
        ∃ id, 0 < id < 65536 ∧ (gb16 b 4 ≠ 0 → id = gb16 b 4) ∧
          frags4_ok b (ihl4 b) id (rsv4 b) mtu (bsub b (ihl4 b) (total4 b)) 0 frags) ∨
       (Z.shiftr (gb b 0) 4 = 6 ∧ mtu < 40 + gb16 b 4 <= blen b ∧
        ∃ ins prv nx id, fragmented6 b mtu ins prv nx id frags))
  | Err _ => mtu < 576 ∨ Z.shiftr (gb b 0) 4 ≠ 4 ∨ frag4_refused b
  | _ => False
  end.
Proof. apply FragmentForMTU_spec. Qed.

(** A 1020-byte UDP datagram without identification, fragmented for an MTU of 576. *)
Definition big_udp : list Z :=
  [0x45; 0; 3; 252; 0; 0; 0; 0; 64; 17; 0; 0; 10; 0; 0; 2; 1; 1; 1; 1] ++ replicate 1000 7.
Definition big_udp_shape (r : Res (list (list Z) * bool)) : bool :=
  match r with
  | Ok ([f1; f2], true) =>
      (blen f1 =? 572) && (blen f2 =? 468) && (gb16 f1 6 =? 8192) && (gb16 f2 6 =? 69) && (gb16 f2 4 =? 8)
  | _ => false
  end.

Lemma FragmentForMTU_correct_witness :
  ∃ f1 f2, snd (FragmentForMTU big_udp 576 7) = Ok ([f1; f2], true) ∧
    blen f1 = 572 ∧ blen f2 = 468 ∧ gb16 f1 6 = 8192 ∧ gb16 f2 6 = 69 ∧ gb16 f2 4 = 8 ∧
    ipv4HeaderChecksum (bsub f2 0 20) = Ok 0.
Proof.
  assert (Hc : big_udp_shape (snd (FragmentForMTU big_udp 576 7)) = true) by (vm_compute; reflexivity).
  pose proof (FragmentForMTU_correct big_udp 576 7 ltac:(apply bytes_okb_ok; vm_compute; reflexivity)
    ltac:(lia) ltac:(intros _; vm_compute; discriminate)) as Hs.
  destruct (snd (FragmentForMTU big_udp 576 7)) as [[[|f1 [|f2 [|]]] []]| | |]; try discriminate Hc.
  cbn in Hc. zbool. exists f1, f2. split_and!; try done.
  destruct Hs as [_ [(_ & _ & _ & id & _ & _ & _ & _ & _ & _ & _ & _ & _ & _ & _ & [_ _ _ _ _ _ _ Hk] & _)|[He _]]].
  - exact Hk.
  - vm_compute in He. discriminate He.
Defined.

(** [IsFragment] returns on every slice. *)
Lemma IsFragment_returns b : bytes_ok b → ∃ r, IsFragment b = Ok r.
Proof.
  intros Hb. unfold IsFragment. destruct (Z.ltb_spec (blen b) 1); [eauto|]. go_ops.
  destruct (_ =? 4); [|destruct (_ =? 6); [|eauto]].
  - destruct (Z.ltb_spec (blen b) 8); [eauto|]. go_ops. eauto.
  - destruct (ipv6FragmentPoint_returns b Hb) as [fp ->]. eauto.
Qed.
