(* ===== verification/Pieces.v ===== *)
(** * Reassembly tables: what [reassembly/ipv4.go] and [reassembly/ipv6.go] share

    Both reassemblers keep a map of partial datagrams under a common byte budget,
    drop entries that have expired, and put pieces together with the same loops.
    The map, the budget and the sweep are a record over the key and datagram types
    (class [Datagram] says what the table needs of a datagram); the loops over
    pieces are functions on lists.  Time is nanoseconds in [Z]. *)

From S2P Require Import Prelude.
Local Open Scope Z_scope.

(** ** Results and pieces *)
Record Result : Type := mkResult {
  rPacket : list Z; rReady : bool; rFragmented : bool; rFragmentMTU : Z
}.
Definition passthrough (pkt : list Z) : Result := mkResult pkt true false 0.
Definition incomplete : Result := mkResult [] false true 0.

Record piece : Type := mkPiece { poff : Z; pdata : list Z }.
Definition pend (q : piece) : Z := poff q + blen (pdata q).

(** [off < q.off+len(q.data) && q.off < end] *)
Definition overlapping (off en : Z) (q : piece) : bool := (off <? pend q) && (poff q <? en).

(** [for i := off; i < off+n; i++ { covered[i] = true }] *)
Fixpoint mark (n : nat) (covered : list bool) (i : Z) : Res (list bool) :=
  match n with
  | O => Ok covered
  | S n =>
      if (0 <=? i) && (i <? blen covered)
      then mark n (<[Z.to_nat i := true]> covered) (i + 1) else Panic
  end.

(** The coverage loop; [None] is a piece that reaches past the final length. *)
Fixpoint cover (pieces : list piece) (last : Z) (covered : list bool) : Res (option (list bool)) :=
  match pieces with
  | [] => Ok (Some covered)
  | q :: rest =>
      if last <? pend q then Ok None else
      covered ← mark (length (pdata q)) covered (poff q);
      cover rest last covered
  end.

(** [copy(out[hl+q.off:], q.data)] for every piece. *)
Fixpoint copy_pieces (pieces : list piece) (hl : Z) (out : list Z) : Res (list Z) :=
  match pieces with
  | [] => Ok out
  | q :: rest =>
      out ← copy_into out (hl + poff q) (blen out) (pdata q);
      copy_pieces rest hl out
  end.

(** ** The table *)
Class Datagram (D : Type) := { dg_bytes : D → Z; dg_updated : D → Z }.

Record Table (K D : Type) `{Countable K} : Type := mkTable {
  t_m : gmap K D;
  t_maxEntries : Z;
  t_maxBytes : Z;
  t_bytes : Z;
  t_ttl : Z;
  t_expired : Z
}.
Arguments mkTable {K D _ _} _ _ _ _ _ _.
Arguments t_m {K D _ _} _.
Arguments t_maxEntries {K D _ _} _.
Arguments t_maxBytes {K D _ _} _.
Arguments t_bytes {K D _ _} _.
Arguments t_ttl {K D _ _} _.
Arguments t_expired {K D _ _} _.

Section Table.
Context {K D : Type} `{Countable K} `{Datagram D}.
Implicit Types (r : Table K D) (k : K) (d : D) (now : Z).

Definition NewTable : Table K D := mkTable ∅ 1024 16777216 0 30000000000 0.

(** [r.m[k] = d], and the byte counter. *)
Definition put_entry r k d (bytes : Z) : Table K D :=
  mkTable (<[k := d]> (t_m r)) (t_maxEntries r) (t_maxBytes r) bytes (t_ttl r) (t_expired r).

(** [dropLocked(k, d)], with [d] the entry at [k]. *)
Definition dropLocked r k : Table K D :=
  match t_m r !! k with
  | Some d =>
      let bytes := t_bytes r - dg_bytes d in
      mkTable (delete k (t_m r)) (t_maxEntries r) (t_maxBytes r)
        (if bytes <? 0 then 0 else bytes) (t_ttl r) (t_expired r)
  | None => r
  end.

Definition count_expired r : Table K D :=
  mkTable (t_m r) (t_maxEntries r) (t_maxBytes r) (t_bytes r) (t_ttl r) (u64 (t_expired r + 1)).

Definition sweep_entry now r (kd : K * D) : Table K D :=
  if t_ttl r <? now - dg_updated (snd kd) then count_expired (dropLocked r (fst kd)) else r.
Definition sweepLocked r now : Table K D := fold_left (sweep_entry now) (map_to_list (t_m r)) r.

Definition TakeExpired r : Table K D * Z :=
  (mkTable (t_m r) (t_maxEntries r) (t_maxBytes r) (t_bytes r) (t_ttl r) 0, t_expired r).

(** *** The byte budget *)
Definition total_bytes (m : gmap K D) : Z := map_fold (fun _ d acc => dg_bytes d + acc) 0 m.

Lemma total_bytes_empty : total_bytes ∅ = 0.
Proof. apply map_fold_empty. Qed.
Lemma total_bytes_insert (m : gmap K D) k d :
  m !! k = None → total_bytes (<[k := d]> m) = dg_bytes d + total_bytes m.
Proof. intros Hk. unfold total_bytes. rewrite map_fold_insert_L; [done|intros; lia|done]. Qed.
Lemma total_bytes_delete (m : gmap K D) k d :
  m !! k = Some d → total_bytes m = dg_bytes d + total_bytes (delete k m).
Proof. intros Hk. unfold total_bytes. by rewrite (map_fold_delete_L _ 0 k d) by (done || (intros; lia)). Qed.
Lemma total_bytes_replace (m : gmap K D) k d :
  total_bytes (<[k := d]> m) = dg_bytes d + total_bytes (delete k m).
Proof. rewrite <- insert_delete_eq. apply total_bytes_insert, lookup_delete_eq. Qed.
Lemma total_bytes_nonneg (m : gmap K D) :
  map_Forall (fun _ d => 0 <= dg_bytes d) m → 0 <= total_bytes m.
Proof.
  induction m as [|k d m Hk IH] using map_ind; intros Hm; [by rewrite total_bytes_empty|].
  apply map_Forall_insert in Hm as [Hd Hm]; [|done]. rewrite total_bytes_insert by done.
  specialize (IH Hm). simpl in Hd. lia.
Qed.

(** What holds of every reachable table: the counter is the sum of the entries
    and stays within the limits, and entries satisfy [P]. *)
Record table_wf (P : D → Prop) (r : Table K D) : Prop := {
  wf_sum : t_bytes r = total_bytes (t_m r);
  wf_bytes : t_bytes r <= t_maxBytes r;
  wf_size : Z.of_nat (size (t_m r)) <= t_maxEntries r;
  wf_pos : map_Forall (fun _ d => 0 <= dg_bytes d) (t_m r);
  wf_entries : map_Forall (fun _ d => P d) (t_m r)
}.

Lemma NewTable_wf P : table_wf P NewTable.
Proof.
  split; cbn [NewTable t_m t_bytes t_maxBytes t_maxEntries].
  - by rewrite total_bytes_empty.
  - lia.
  - by rewrite map_size_empty.
  - apply map_Forall_empty.
  - apply map_Forall_empty.
Qed.

(** Limits and clock settings, which no operation changes. *)
Definition same_limits r r' : Prop :=
  t_maxEntries r' = t_maxEntries r ∧ t_maxBytes r' = t_maxBytes r ∧ t_ttl r' = t_ttl r.

Lemma dropLocked_m r k : t_m (dropLocked r k) = delete k (t_m r).
Proof.
  unfold dropLocked. destruct (t_m r !! k) eqn:E; simpl; [done|]. by rewrite delete_id.
Qed.
Lemma dropLocked_limits r k : same_limits r (dropLocked r k).
Proof. unfold dropLocked. by destruct (t_m r !! k). Qed.

Lemma dropLocked_wf P r k :
  table_wf P r → table_wf P (dropLocked r k) ∧ t_bytes (dropLocked r k) <= t_bytes r.
Proof.
  intros [Hs Hb Hn Hp He]. unfold dropLocked. destruct (t_m r !! k) as [d|] eqn:E; [|done].
  pose proof (total_bytes_delete _ _ _ E) as Hd. pose proof (Hp _ _ E) as Hpd. simpl in Hpd.
  assert (Hpos : map_Forall (fun _ d => 0 <= dg_bytes d) (delete k (t_m r))) by by apply map_Forall_delete.
  pose proof (total_bytes_nonneg _ Hpos). pose proof (map_size_delete_Some k (t_m r) ltac:(eauto)).
  cbn. split; [split; cbn|].
  - destruct (Z.ltb_spec (t_bytes r - dg_bytes d) 0); lia.
  - destruct (Z.ltb_spec (t_bytes r - dg_bytes d) 0); lia.
  - lia.
  - done.
  - by apply map_Forall_delete.
  - destruct (Z.ltb_spec (t_bytes r - dg_bytes d) 0); lia.
Qed.

Lemma sweep_entry_spec P now r kd :
  table_wf P r →
  table_wf P (sweep_entry now r kd) ∧ same_limits r (sweep_entry now r kd) ∧
  t_bytes (sweep_entry now r kd) <= t_bytes r ∧
  t_m (sweep_entry now r kd) =
    (if t_ttl r <? now - dg_updated (snd kd) then delete (fst kd) (t_m r) else t_m r).
Proof.
  intros Hw. unfold sweep_entry. destruct (t_ttl r <? _); [|done].
  destruct (dropLocked_wf P r (fst kd) Hw) as [[] Hle].
  split_and!; [split; try done|apply (dropLocked_limits r (fst kd))|done|apply dropLocked_m].
Qed.

Lemma sweep_fold_spec P now l r :
  table_wf P r →
  let r' := fold_left (sweep_entry now) l r in
  table_wf P r' ∧ same_limits r r' ∧ t_bytes r' <= t_bytes r ∧
  ∀ k, t_m r' !! k =
    if bool_decide (Exists (fun kd => fst kd = k ∧ t_ttl r < now - dg_updated (snd kd)) l)
    then None else t_m r !! k.
Proof.
  revert r. induction l as [|kd l IH]; intros r Hw; cbn [fold_left].
  { split_and!; [done|done|lia|]. intros k. rewrite bool_decide_eq_false_2; [done|]. by intros ?%Exists_nil. }
  destruct (sweep_entry_spec P now r kd Hw) as (Hw1 & Hl1 & Hb1 & Hm1).
  destruct (IH _ Hw1) as (Hw2 & Hl2 & Hb2 & Hm2). unfold same_limits in *.
  split_and!; try done; try lia; try (intuition congruence).
  intros k. rewrite Hm2, Hm1. destruct Hl1 as (_ & _ & ->).
  destruct (bool_decide (Exists _ l)) eqn:E1; [apply bool_decide_eq_true in E1 |apply bool_decide_eq_false in E1].
  { rewrite bool_decide_eq_true_2; [done|]. by apply Exists_cons_tl. }
  destruct (Z.ltb_spec (t_ttl r) (now - dg_updated (snd kd))) as [Hlt|Hge].
  - destruct (decide (fst kd = k)) as [<-|Hne].
    + rewrite lookup_delete_eq, bool_decide_eq_true_2; [done|]. by apply Exists_cons_hd.
    + rewrite lookup_delete_ne by done. rewrite bool_decide_eq_false_2; [done|].
      rewrite Exists_cons. tauto.
  - rewrite bool_decide_eq_false_2; [done|]. rewrite Exists_cons. intros [[_ ?]|?]; [lia|done].
Qed.

(** A sweep keeps exactly the entries touched within the time to live. *)
Lemma sweepLocked_spec P now r :
  table_wf P r →
  table_wf P (sweepLocked r now) ∧ same_limits r (sweepLocked r now) ∧
  t_bytes (sweepLocked r now) <= t_bytes r ∧
  Z.of_nat (size (t_m (sweepLocked r now))) <= Z.of_nat (size (t_m r)) ∧
  ∀ k, t_m (sweepLocked r now) !! k =
    (d ← t_m r !! k; if t_ttl r <? now - dg_updated d then None else Some d).
Proof.
  intros Hw. destruct (sweep_fold_spec P now (map_to_list (t_m r)) r Hw) as (Hw' & Hl & Hb & Hm).
  assert (Hk : ∀ k, t_m (sweepLocked r now) !! k =
    (d ← t_m r !! k; if t_ttl r <? now - dg_updated d then None else Some d)).
  { intros k. unfold sweepLocked. rewrite Hm.
    destruct (bool_decide _) eqn:E; [apply bool_decide_eq_true in E|apply bool_decide_eq_false in E].
    - apply Exists_exists in E as ([k' d] & Hin & <- & Hlt). apply list_elem_of_In, elem_of_map_to_list in Hin.
      simpl in *. rewrite Hin. simpl. by rewrite (proj2 (Z.ltb_lt _ _)).
    - destruct (t_m r !! k) as [d|] eqn:Ek; [|done]. simpl.
      destruct (Z.ltb_spec (t_ttl r) (now - dg_updated d)); [|done].
      destruct E. apply Exists_exists. exists (k, d). by rewrite <- list_elem_of_In, elem_of_map_to_list. }
  split_and!; try done.
  assert (Hsub : t_m (sweepLocked r now) ⊆ t_m r).
  { apply map_subseteq_spec. intros k d. rewrite Hk. destruct (t_m r !! k) as [d'|]; [|done].
    simpl. destruct (_ <? _); [done|]. congruence. }
  apply inj_le. by apply map_subseteq_size.
Qed.

Lemma put_entry_wf (P : D → Prop) r k d bytes :
  table_wf P r → P d → 0 <= dg_bytes d →
  bytes = dg_bytes d + total_bytes (delete k (t_m r)) → bytes <= t_maxBytes r →
  (is_Some (t_m r !! k) ∨ Z.of_nat (size (t_m r)) < t_maxEntries r) →
  table_wf P (put_entry r k d bytes).
Proof.
  intros [Hs Hb Hn Hp He] HPd Hd0 Hby Hmax Hk. split; cbn [put_entry t_m t_bytes t_maxBytes t_maxEntries].
  - by rewrite total_bytes_replace.
  - done.
  - destruct Hk as [Hk|Hk].
    + by rewrite map_size_insert_Some.
    + rewrite map_size_insert. destruct (t_m r !! k); simpl; lia.
  - by apply map_Forall_insert_2.
  - by apply map_Forall_insert_2.
Qed.
End Table.

(** ** Coverage *)
Definition cov (c : list bool) (j : Z) : Prop := c !! Z.to_nat j = Some true.

Lemma mark_spec n c i :
  0 <= i → i + Z.of_nat n <= blen c →
  ∃ c', mark n c i = Ok c' ∧ blen c' = blen c ∧
    ∀ j, 0 <= j → cov c' j ↔ cov c j ∨ i <= j < i + Z.of_nat n.
Proof.
  revert c i. induction n as [|n IH]; intros c i Hi Hn; cbn [mark].
  { exists c. split_and!; [done..|]. intros. split; [tauto|]. intros [?|?]; [done|lia]. }
  zdec. destruct (IH (<[Z.to_nat i := true]> c) (i + 1)) as (c' & -> & Hl & Hc);
    [lia|unfold blen in *; rewrite length_insert; lia|].
  exists c'. split_and!; [done| |].
  { rewrite Hl. unfold blen. by rewrite length_insert. }
  intros j Hj. rewrite Hc by done. unfold cov. destruct (decide (j = i)) as [->|Hne].
  - rewrite list_lookup_insert_eq by (unfold blen in *; lia). split; [intros; right; lia|by left].
  - rewrite list_lookup_insert_ne by lia. split; (intros [?|?]; [by left|right; lia]).
Qed.

Lemma cover_spec pieces last c :
  blen c = last → Forall (fun q => 0 <= poff q) pieces →
  match cover pieces last c with
  | Ok (Some c') =>
      blen c' = last ∧ Forall (fun q => pend q <= last) pieces ∧
      ∀ j, 0 <= j → cov c' j ↔ cov c j ∨ ∃ q, q ∈ pieces ∧ poff q <= j < pend q
  | Ok None => ∃ q, q ∈ pieces ∧ last < pend q
  | _ => False
  end.
Proof.
  revert c. induction pieces as [|q rest IH]; intros c Hl Hp; cbn [cover].
  { split_and!; [done|constructor|]. intros. split; [tauto|]. intros [?|(q & Hq & _)]; [done|].
    by apply not_elem_of_nil in Hq. }
  inversion Hp as [|?? Hq Hrest]; subst.
  destruct (Z.ltb_spec (blen c) (pend q)) as [Hlt|Hge].
  { exists q. split; [constructor|done]. }
  destruct (mark_spec (length (pdata q)) c (poff q)) as (c1 & -> & Hl1 & Hc1); [lia|unfold pend, blen in *; lia|].
  rewrite bind_Ok. specialize (IH c1 Hl1 Hrest).
  destruct (cover rest (blen c) c1) as [[c'|]| | |]; try done.
  - destruct IH as (Hl' & Hf & Hc'). split_and!; [done|by constructor|].
    intros j Hj. rewrite Hc', Hc1 by done. unfold pend, blen in *. split.
    + intros [[?|?]|(q' & Hq' & ?)]; [by left|right; exists q; split; [constructor|lia]|].
      right. exists q'. split; [by constructor|done].
    + intros [?|(q' & Hq' & ?)]; [tauto|]. apply elem_of_cons in Hq' as [->|Hq'].
      * left. right. lia.
      * right. eauto.
  - destruct IH as (q' & Hq' & ?). exists q'. split; [by constructor|done].
Qed.

Lemma all_covered c : forallb (fun v => v) c = true ↔ ∀ j, 0 <= j < blen c → cov c j.
Proof.
  rewrite forallb_forall. unfold cov, blen. split.
  - intros Hc j Hj. destruct (lookup_lt_is_Some_2 c (Z.to_nat j)) as [v Hv]; [lia|].
    rewrite Hv. f_equal. apply Hc. apply list_elem_of_In. by eapply list_elem_of_lookup_2.
  - intros Hc v Hv. apply list_elem_of_In, list_elem_of_lookup in Hv as [i Hi].
    pose proof (lookup_lt_Some _ _ _ Hi). specialize (Hc (Z.of_nat i) ltac:(lia)).
    rewrite Nat2Z.id in Hc. congruence.
Qed.

(** ** Assembly of disjoint pieces *)
Definition disjoint_pieces (p q : piece) : Prop := pend p <= poff q ∨ pend q <= poff p.
#[export] Instance disjoint_pieces_sym : Symmetric disjoint_pieces.
Proof. intros p q. unfold disjoint_pieces. lia. Qed.

Lemma overlapping_false off data q :
  overlapping off (off + blen data) q = false ↔ disjoint_pieces (mkPiece off data) q.
Proof.
  unfold overlapping, disjoint_pieces, pend. cbn [poff pdata].
  rewrite andb_false_iff, !Z.ltb_ge. unfold pend. lia.
Qed.

Definition pairwise_disjoint (l : list piece) : Prop := ForallOrdPairs disjoint_pieces l.

Lemma pairwise_perm l l' : l ≡ₚ l' → pairwise_disjoint l → pairwise_disjoint l'.
Proof.
  unfold pairwise_disjoint. induction 1 as [|x l l' Hp IH|x y l|l l1 l' H1 IH1 H2 IH2]; intros Hl.
  - done.
  - inversion Hl; subst. constructor; [|by apply IH]. by rewrite <- Hp.
  - inversion Hl as [|?? Hx Hl']; inversion Hl' as [|?? Hy Hl'']; inversion Hx; subst.
    constructor; [constructor; [by apply disjoint_pieces_sym|done]|by constructor].
  - auto.
Qed.
Lemma pairwise_snoc l q : pairwise_disjoint (l ++ [q]) ↔ pairwise_disjoint l ∧ Forall (disjoint_pieces q) l.
Proof.
  assert (Hp : l ++ [q] ≡ₚ q :: l) by (rewrite Permutation_app_comm; done).
  split.
  - intros H. apply (pairwise_perm _ _ Hp) in H. by inversion H.
  - intros [H1 H2]. apply (pairwise_perm (q :: l)); [done|]. by constructor.
Qed.

Lemma copy_pieces_spec pieces hl out :
  0 <= hl → Forall (fun q => 0 <= poff q ∧ hl + pend q <= blen out) pieces →
  pairwise_disjoint pieces →
  ∃ out', copy_pieces pieces hl out = Ok out' ∧ blen out' = blen out ∧
    (bytes_ok out → Forall (fun q => bytes_ok (pdata q)) pieces → bytes_ok out') ∧
    (∀ i, 0 <= i → (∀ q, q ∈ pieces → i < hl + poff q ∨ hl + pend q <= i) → gb out' i = gb out i) ∧
    (∀ q i, q ∈ pieces → 0 <= i < blen (pdata q) → gb out' (hl + poff q + i) = gb (pdata q) i).
Proof.
  intros Hhl. revert out. induction pieces as [|q rest IH]; intros out Hf Hd; cbn [copy_pieces].
  { exists out. split_and!; try done. intros q i Hq. by apply not_elem_of_nil in Hq. }
  inversion Hf as [|?? [Hq1 Hq2] Hrest]; inversion Hd as [|?? Hdq Hdr]; subst.
  unfold pend in Hq2. pose proof (blen_nonneg (pdata q)).
  rewrite copy_into_ok, bind_Ok by lia. set (o1 := bcopy out (hl + poff q) (pdata q)).
  assert (L1 : blen o1 = blen out) by (subst o1; blia).
  destruct (IH o1) as (o2 & -> & L2 & B2 & G2 & P2); [by rewrite L1|done|].
  exists o2. split_and!; [done|lia| | |].
  - intros Bo Bp. inversion Bp; subst. apply B2; [subst o1; auto with go|done].
  - intros i Hi Hout. rewrite G2; [|done|intros; apply Hout; by constructor].
    subst o1. apply gb_bcopy_out; [lia..|]. specialize (Hout q ltac:(constructor)). unfold pend in Hout. lia.
  - intros q' i Hq' Hi. apply elem_of_cons in Hq' as [->|Hq']; [|by apply P2].
    rewrite G2; [|lia|].
    + subst o1. rewrite gb_bcopy_in by lia. f_equal. lia.
    + intros q' Hq'. rewrite List.Forall_forall in Hdq. apply list_elem_of_In, Hdq in Hq'.
      unfold disjoint_pieces, pend in *. lia.
Qed.

Definition sum_len (l : list piece) : Z := foldr (fun q acc => blen (pdata q) + acc) 0 l.
Lemma sum_len_snoc l q : sum_len (l ++ [q]) = sum_len l + blen (pdata q).
Proof. unfold sum_len. rewrite foldr_app. simpl. induction l; simpl; lia. Qed.
Lemma sum_len_nonneg l : 0 <= sum_len l.
Proof. unfold sum_len. induction l as [|q l IH]; simpl; [done|]. pose proof (blen_nonneg (pdata q)). lia. Qed.

(** ** Fragments of one datagram

    A fragment as [PushInfo] reads it before it takes the lock; [H] holds what
    is particular to the family. *)
Record fragment (H : Type) : Type := mkFragment {
  fHdr : H; fTotal : Z; fOff : Z; fMore : bool; fData : list Z
}.
Arguments mkFragment {H} _ _ _ _ _.
Arguments fHdr {H} _.
Arguments fTotal {H} _.
Arguments fOff {H} _.
Arguments fMore {H} _.
Arguments fData {H} _.

Lemma sum_len_perm l l' : l ≡ₚ l' → sum_len l = sum_len l'.
Proof. unfold sum_len. induction 1; simpl; lia. Qed.

Lemma pairwise_prefix l l' : pairwise_disjoint (l ++ l') → pairwise_disjoint l.
Proof.
  unfold pairwise_disjoint. induction l as [|q l IH]; [constructor|]. cbn. intros H.
  inversion H as [|?? Hq Hl]; subst. constructor; [|by apply IH]. by apply Forall_app in Hq as [? _].
Qed.

Section Tiles.
Context {H : Type}.
Implicit Types (fds seen rest : list (list Z * fragment H)) (fd : list Z * fragment H).

(** A fragment in wire form comes with what [PushInfo] reads from it. *)
Definition piece_of fd : piece := mkPiece (fOff (snd fd)) (fData (snd fd)).
Definition is_first fd : bool := fOff (snd fd) =? 0.
Definition is_last fd : bool := negb (fMore (snd fd)).
Definition max_packet fds : Z :=
  fold_left (fun m fd => if m <? fTotal (snd fd) then fTotal (snd fd) else m) fds 0.

(** Descriptors that tile [payload] from [off] to its end, in order. *)
Fixpoint tiles (payload : list Z) (off : Z) (fds : list (list Z * fragment H)) : Prop :=
  match fds with
  | [] => off = blen payload
  | fd :: rest =>
      let d := snd fd in
      fOff d = off ∧ 0 < blen (fData d) ∧ fMore d = negb (bool_decide (rest = [])) ∧
      off + blen (fData d) <= blen payload ∧ fData d = bsub payload off (off + blen (fData d)) ∧
      tiles payload (off + blen (fData d)) rest
  end.

(** Facts about tilings that do not depend on the order. *)
Lemma tiles_range payload off fds fd :
  tiles payload off fds → fd ∈ fds →
  off <= fOff (snd fd) ∧ 0 < blen (fData (snd fd)) ∧ fOff (snd fd) + blen (fData (snd fd)) <= blen payload.
Proof.
  revert off. induction fds as [|g rest IH]; intros off Ht Hin; [by apply not_elem_of_nil in Hin|].
  cbn [tiles] in Ht. destruct Ht as (H1 & H2 & _ & H4 & _ & H6).
  apply elem_of_cons in Hin as [->|Hin]; [lia|]. specialize (IH _ H6 Hin). lia.
Qed.
Lemma tiles_more payload off fds fd :
  tiles payload off fds → fd ∈ fds →
  fMore (snd fd) = false ↔ fOff (snd fd) + blen (fData (snd fd)) = blen payload.
Proof.
  revert off. induction fds as [|g rest IH]; intros off Ht Hin; [by apply not_elem_of_nil in Hin|].
  cbn [tiles] in Ht. destruct Ht as (H1 & H2 & H3 & H4 & H5 & H6).
  apply elem_of_cons in Hin as [->|Hin]; [|by eapply IH].
  rewrite H3, negb_false_iff, bool_decide_eq_true. destruct rest as [|g' rest].
  - split; [|done]. cbn in H6. lia.
  - split; [done|]. cbn in H6. lia.
Qed.
Lemma tiles_data payload off fds fd :
  tiles payload off fds → fd ∈ fds →
  fData (snd fd) = bsub payload (fOff (snd fd)) (fOff (snd fd) + blen (fData (snd fd))).
Proof.
  revert off. induction fds as [|g rest IH]; intros off Ht Hin; [by apply not_elem_of_nil in Hin|].
  cbn [tiles] in Ht. destruct Ht as (H1 & H2 & H3 & H4 & H5 & H6).
  apply elem_of_cons in Hin as [->|Hin]; [by rewrite H1|by eapply IH].
Qed.
Lemma tiles_disjoint payload off fds :
  tiles payload off fds → pairwise_disjoint (map piece_of fds).
Proof.
  revert off. induction fds as [|g rest IH]; intros off Ht; [constructor|].
  pose proof Ht as (H1 & H2 & H3 & H4 & H5 & H6).
  cbn [map]. constructor; [|by eapply IH]. apply List.Forall_forall. intros q Hq.
  apply in_map_iff in Hq as (fd & <- & Hin). apply list_elem_of_In in Hin.
  pose proof (tiles_range _ _ _ _ H6 Hin). left. unfold pend, piece_of; cbn. lia.
Qed.
Lemma tiles_cover payload off fds j :
  tiles payload off fds → off <= j < blen payload →
  ∃ fd, fd ∈ fds ∧ fOff (snd fd) <= j < fOff (snd fd) + blen (fData (snd fd)).
Proof.
  revert off. induction fds as [|g rest IH]; intros off Ht Hj; cbn [tiles] in Ht; [lia|].
  destruct Ht as (H1 & H2 & H3 & H4 & H5 & H6).
  destruct (decide (j < off + blen (fData (snd g)))).
  - exists g. split; [constructor|lia].
  - destruct (IH _ H6) as (fd & ? & ?); [lia|]. exists fd. split; [by constructor|done].
Qed.
Lemma tiles_sum payload off fds :
  tiles payload off fds → sum_len (map piece_of fds) = blen payload - off.
Proof.
  revert off. induction fds as [|g rest IH]; intros off Ht; cbn [tiles] in Ht; [cbn; lia|].
  destruct Ht as (H1 & H2 & H3 & H4 & H5 & H6). specialize (IH _ H6). unfold sum_len in *. cbn in *. lia.
Qed.

Context (payload : list Z) (fds : list (list Z * fragment H)).
Hypothesis Htiles : tiles payload 0 fds.
Hypothesis Hpos : 0 < blen payload.

Lemma seen_in seen rest fd : seen ++ rest ≡ₚ fds → fd ∈ seen → fd ∈ fds.
Proof. intros <- Hin. apply elem_of_app. by left. Qed.

Lemma seen_disjoint seen rest : seen ++ rest ≡ₚ fds → pairwise_disjoint (map piece_of (seen ++ rest)).
Proof.
  intros Hp. apply (pairwise_perm (map piece_of fds)); [by rewrite Hp|by eapply tiles_disjoint].
Qed.

Lemma seen_pieces seen rest : seen ++ rest ≡ₚ fds →
  Forall (fun q => 0 <= poff q ∧ 0 < blen (pdata q)) (map piece_of seen) ∧
  Forall (fun q => pend q <= blen payload) (map piece_of seen).
Proof.
  intros Hp. split; apply List.Forall_forall; intros q Hq; apply in_map_iff in Hq as (fd & <- & Hin);
    apply list_elem_of_In in Hin; pose proof (seen_in _ _ _ Hp Hin) as Hf;
    pose proof (tiles_range _ _ _ _ Htiles Hf); unfold piece_of, pend; cbn; lia.
Qed.

(** A fragment still to come overlaps none of those already there. *)
Lemma seen_no_overlap seen x rest : seen ++ x :: rest ≡ₚ fds →
  existsb (overlapping (fOff (snd x)) (fOff (snd x) + blen (fData (snd x)))) (map piece_of seen) = false.
Proof.
  intros Hp. apply not_true_iff_false. rewrite existsb_exists. intros (q & Hq & Ho).
  assert (Hp' : (seen ++ [x]) ++ rest ≡ₚ fds) by by rewrite <- app_assoc.
  pose proof (seen_disjoint _ _ Hp') as Hd. rewrite map_app in Hd. apply pairwise_prefix in Hd.
  rewrite map_app in Hd. cbn [map] in Hd. apply pairwise_snoc in Hd as [_ Hd].
  rewrite List.Forall_forall in Hd. specialize (Hd q Hq).
  apply overlapping_false in Hd. congruence.
Qed.

Lemma cover_seen seen rest : seen ++ rest ≡ₚ fds →
  ∃ c, cover (map piece_of seen) (blen payload) (replicate (Z.to_nat (blen payload)) false) = Ok (Some c) ∧
    (forallb (fun v => v) c = true ↔ rest = []).
Proof.
  intros Hp. destruct (seen_pieces _ _ Hp) as [Hpo Hpe].
  pose proof (cover_spec (map piece_of seen) (blen payload) (replicate (Z.to_nat (blen payload)) false)
    ltac:(unfold blen; rewrite length_replicate; lia)
    ltac:(eapply List.Forall_impl; [|exact Hpo]; intros q; cbv beta; tauto)) as Hc.
  destruct (cover _ _ _) as [[c|]| | |]; [|exfalso|done..].
  2:{ destruct Hc as (q & Hq & Hlt). pose proof (Forall_elem _ _ _ Hpe Hq). cbv beta in *. lia. }
  destruct Hc as (Hl & _ & Hc). exists c. split; [done|]. rewrite all_covered, Hl.
  assert (Hno : ∀ j, ¬ cov (replicate (Z.to_nat (blen payload)) false) j).
  { intros j Hj. unfold cov in Hj. apply lookup_replicate in Hj as [? _]. done. }
  split.
  - intros Hall. destruct rest as [|y rest]; [done|exfalso].
    assert (Hy : y ∈ fds) by (rewrite <- Hp; apply elem_of_app; right; constructor).
    pose proof (tiles_range _ _ _ _ Htiles Hy) as Hr.
    specialize (Hall (fOff (snd y)) ltac:(lia)). apply Hc in Hall as [Hn|(q & Hq & Hin)]; [by apply Hno in Hn| |lia].
    apply list_elem_of_In, in_map_iff in Hq as (z & <- & Hz). apply list_elem_of_In in Hz.
    pose proof (seen_disjoint _ _ Hp) as Hd. rewrite map_app in Hd.
    apply (pairwise_perm _ (map piece_of (y :: rest) ++ map piece_of seen)) in Hd; [|apply Permutation_app_comm].
    cbn [map app] in Hd. inversion Hd as [|?? Hy' _]; subst. apply Forall_app in Hy' as [_ Hy'].
    rewrite List.Forall_forall in Hy'. specialize (Hy' (piece_of z)).
    assert (Hdz : disjoint_pieces (piece_of y) (piece_of z)) by (apply Hy', in_map, list_elem_of_In, Hz).
    unfold disjoint_pieces, pend, piece_of in *; cbn in *. lia.
  - intros -> j Hj. rewrite app_nil_r in Hp. destruct (tiles_cover _ _ _ j Htiles) as (fd & Hfd & Hjd); [lia|].
    apply Hc; [lia|]. right. exists (piece_of fd). unfold pend, piece_of; cbn. split; [|done].
    rewrite <- Hp in Hfd. apply list_elem_of_In, (in_map piece_of), list_elem_of_In, Hfd.
Qed.

Lemma seen_all seen : seen ≡ₚ fds → existsb is_first seen = true ∧ existsb is_last seen = true.
Proof.
  intros Hp. split; apply existsb_exists.
  - destruct (tiles_cover _ _ _ 0 Htiles) as (fd & Hfd & Hj); [lia|].
    pose proof (tiles_range _ _ _ _ Htiles Hfd). exists fd.
    rewrite <- list_elem_of_In, Hp. split; [done|]. apply Z.eqb_eq. lia.
  - destruct (tiles_cover _ _ _ (blen payload - 1) Htiles) as (fd & Hfd & Hj); [lia|].
    pose proof (tiles_range _ _ _ _ Htiles Hfd). exists fd.
    rewrite <- list_elem_of_In, Hp. split; [done|]. unfold is_last. rewrite negb_true_iff.
    apply (tiles_more _ _ _ _ Htiles Hfd). lia.
Qed.
End Tiles.

(** Consecutive arrivals are at most [ttl] apart. *)
Fixpoint spaced (ttl prev : Z) (arrivals : list (Z * list Z)) : Prop :=
  match arrivals with
  | [] => True
  | (now, _) :: rest => now - prev <= ttl ∧ spaced ttl now rest
  end.
