(* ===== verification/Reassembly4.v ===== *)
(** * IPv4 reassembly: [internal/reassembly/ipv4.go]

    The reassembler is a [Table] of partial datagrams.  A Go map of pointers is
    a [gmap] of records here: every mutation of [*d] is written back with
    [put_entry], so that [dropLocked] sees it as it does through the pointer.
    [time.Now()] is the argument [now].  The theorems: the table stays within its
    limits under any input, and the fragments of a datagram pushed in any order
    give the datagram back. *)

From S2P Require Import Prelude Packet Fragment Pieces.
Local Open Scope Z_scope.

Record key : Type := mkKey { kSrc : list Z; kDst : list Z; kProto : Z; kId : Z }.
#[export] Instance key_eq_dec : EqDecision key.
Proof. solve_decision. Defined.
#[export] Program Instance key_countable : Countable key :=
  inj_countable (fun k => (kSrc k, kDst k, kProto k, kId k))
    (fun '(s, d, p, i) => Some (mkKey s d p i)) _.
Next Obligation. by intros []. Qed.

Record datagram : Type := mkDatagram {
  dHeader : option (list Z);
  dPieces : list piece;
  dLast : Z;
  dHaveLast : bool;
  dUpdated : Z;
  dBytes : Z;
  dMaxPacket : Z
}.
#[export] Instance datagram_Datagram : Datagram datagram :=
  {| dg_bytes := dBytes; dg_updated := dUpdated |}.

Definition IPv4 : Type := Table key datagram.
Definition NewIPv4 : IPv4 := NewTable.

(** The fragment [PushInfo] has read from a packet before it takes the lock. *)
Record header4 : Type := mkHeader4 { hKey : key; hIhl : Z }.
Abbreviation fragment4 := (fragment header4).
Definition fKey (f : fragment4) : key := hKey (fHdr f).
Definition fIhl (f : fragment4) : Z := hIhl (fHdr f).

(** [PushInfo] up to the lock: [inl] is an early return of a packet that is no
    fragment. *)
Definition read_fragment (pkt : list Z) : Res (Result + fragment4) :=
  if blen pkt <? 1 then Ok (inl (passthrough pkt)) else
  b0 ← idx pkt 0;
  if negb (Z.shiftr b0 4 =? 4) then Ok (inl (passthrough pkt)) else
  if blen pkt <? 20 then Err "short IPv4 fragment" else
  let ihl := Z.land b0 15 * 4 in
  if (ihl <? 20) || (blen pkt <? ihl) then Err "bad IPv4 IHL" else
  total ← be16 pkt 2;
  let total := if (total =? 0) || (blen pkt <? total) then blen pkt else total in
  if total <? ihl then Err "bad IPv4 fragment length" else
  fv ← be16 pkt 6;
  let off := Z.land fv 0x1fff * 8 in
  let more := negb (Z.land fv 0x2000 =? 0) in
  if (off =? 0) && negb more then (whole ← slice pkt 0 total; Ok (inl (passthrough whole))) else
  pl ← slice pkt ihl total;
  if blen pl =? 0 then Err "empty IPv4 fragment" else
  if more && negb (blen pl `mod` 8 =? 0)
  then Err "non-final IPv4 fragment payload is not 8-byte aligned" else
  let en := off + blen pl in
  if 65535 - ihl <? en then Err "IPv4 reassembly too large" else
  src ← slice pkt 12 16;
  dst ← slice pkt 16 20;
  proto ← idx pkt 9;
  id ← be16 pkt 4;
  Ok (inr (mkFragment (mkHeader4 (mkKey src dst proto id) ihl) total off more pl)).

(** The output packet, once every byte is covered. *)
Definition assemble (header : list Z) (pieces : list piece) (last : Z) : Res (list Z) :=
  let out := zeros (blen header + last) in
  out ← copy_into out 0 (blen out) header;
  out ← copy_pieces pieces (blen header) out;
  fv ← be16 out 6;
  out ← put16 out 6 (Z.land fv 0xC000);
  out ← put16 out 2 (u16 (blen out));
  out ← store out 10 0;
  store out 11 0.

(** From the coverage check on: [d] is the entry at [k] of [r]. *)
Definition finish4 (r : IPv4) (k : key) (d : datagram) : IPv4 * Res Result :=
  match dHeader d with
  | None => (r, Ok incomplete)
  | Some header =>
      if negb (dHaveLast d) then (r, Ok incomplete) else
      if dLast d <? 0 then (r, Panic) else
      match cover (dPieces d) (dLast d) (replicate (Z.to_nat (dLast d)) false) with
      | Ok None => (dropLocked r k, Err "fragment past final IPv4 length")
      | Ok (Some covered) =>
          if negb (forallb (fun v => v) covered) then (r, Ok incomplete) else
          if 65535 <? blen header + dLast d
          then (dropLocked r k, Err "reassembled IPv4 packet exceeds 65535") else
          match assemble header (dPieces d) (dLast d) with
          | Ok out => (dropLocked r k, Ok (mkResult out true true (dMaxPacket d)))
          | Err e => (r, Err e)
          | Panic => (r, Panic)
          | OutOfFuel => (r, OutOfFuel)
          end
      | Err e => (r, Err e)
      | Panic => (r, Panic)
      | OutOfFuel => (r, OutOfFuel)
      end
  end.

(** Overlap and budget checks, then the new piece. *)
Definition add_piece4 (r : IPv4) (now : Z) (pkt : list Z) (f : fragment4) (d : datagram)
    : IPv4 * Res Result :=
  let k := fKey f in
  let pl := fData f in
  let en := fOff f + blen pl in
  if existsb (overlapping (fOff f) en) (dPieces d)
  then (dropLocked r k, Err "overlapping IPv4 fragments") else
  if t_maxBytes r <? t_bytes r + blen pl
  then (dropLocked r k, Err "IPv4 reassembly memory limit") else
  match slice pkt 0 (fIhl f) with
  | Ok hdr =>
      let d := mkDatagram
        (if fOff f =? 0 then Some hdr else dHeader d)
        (dPieces d ++ [mkPiece (fOff f) pl])
        (if negb (fMore f) then en else dLast d)
        (if negb (fMore f) then true else dHaveLast d)
        now
        (dBytes d + blen pl)
        (if dMaxPacket d <? fTotal f then fTotal f else dMaxPacket d) in
      finish4 (put_entry r k d (t_bytes r + blen pl)) k d
  | _ => (r, Panic)
  end.

(** [PushInfo] under the lock. *)
Definition push_fragment4 (r : IPv4) (now : Z) (pkt : list Z) (f : fragment4) : IPv4 * Res Result :=
  let r := sweepLocked r now in
  match t_m r !! fKey f with
  | None =>
      if t_maxEntries r <=? Z.of_nat (size (t_m r))
      then (r, Err "IPv4 reassembly table full") else
      let d := mkDatagram None [] (-1) false now 0 0 in
      add_piece4 (put_entry r (fKey f) d (t_bytes r)) now pkt f d
  | Some d => add_piece4 r now pkt f d
  end.

Definition PushInfo (now : Z) (pkt : list Z) : SR IPv4 Result := fun r =>
  match read_fragment pkt with
  | Ok (inl res) => (r, Ok res)
  | Ok (inr f) => push_fragment4 r now pkt f
  | Err e => (r, Err e)
  | Panic => (r, Panic)
  | OutOfFuel => (r, OutOfFuel)
  end.

Definition Push (now : Z) (pkt : list Z) : SR IPv4 (list Z * bool) :=
  res ← PushInfo now pkt;
  mret (rPacket res, rReady res).

Definition Sweep (now : Z) : SR IPv4 unit := fun r => (sweepLocked r now, Ok tt).

(** ** What holds of fragments and datagrams *)
Record fragment4_ok (pkt : list Z) (f : fragment4) : Prop := {
  fo_ihl : 20 <= fIhl f <= 60;
  fo_fits : fIhl f <= blen pkt;
  fo_off : 0 <= fOff f;
  fo_data : 0 < blen (fData f);
  fo_bytes : bytes_ok (fData f);
  fo_end : fOff f + blen (fData f) <= 65535 - fIhl f
}.

Lemma read_fragment_spec pkt : bytes_ok pkt →
  match read_fragment pkt with
  | Ok (inr f) => fragment4_ok pkt f
  | Ok (inl _) | Err _ => True
  | _ => False
  end.
Proof.
  intros Hb. unfold read_fragment. destruct (Z.ltb_spec (blen pkt) 1); [done|]. go_ops.
  destruct (negb _); [done|]. destruct (Z.ltb_spec (blen pkt) 20); [done|].
  pose proof (land_15_range (gb pkt 0)). go_if; [done|]. go_ops. fold (total4 pkt).
  pose proof (total4_le pkt). destruct (Z.ltb_spec (total4 pkt) (Z.land (gb pkt 0) 15 * 4)); [done|].
  go_ops. destruct ((_ =? 0) && _); [by go_ops|]. go_ops.
  destruct (Z.eqb_spec (blen (bsub pkt (Z.land (gb pkt 0) 15 * 4) (total4 pkt))) 0); [done|].
  destruct (_ && _); [done|].
  destruct (Z.ltb_spec (65535 - Z.land (gb pkt 0) 15 * 4)
    (Z.land (gb16 pkt 6) 0x1fff * 8 + blen (bsub pkt (Z.land (gb pkt 0) 15 * 4) (total4 pkt)))); [done|].
  go_ops. split; unfold fIhl; cbn [fHdr hIhl fOff fData]; try lia; auto with go.
  - change 0x1fff with (2 ^ 13 - 1). rewrite land_ones_mod by lia.
    pose proof (Z.mod_pos_bound (gb16 pkt 6) (2 ^ 13) ltac:(lia)). lia.
  - pose proof (blen_nonneg (bsub pkt (Z.land (gb pkt 0) 15 * 4) (total4 pkt))). lia.
Qed.

Definition piece4_ok (q : piece) : Prop :=
  0 <= poff q ∧ 0 < blen (pdata q) ∧ pend q <= 65515 ∧ bytes_ok (pdata q).

Record datagram_ok (d : datagram) : Prop := {
  do_bytes : dBytes d = sum_len (dPieces d);
  do_pieces : Forall piece4_ok (dPieces d);
  do_disjoint : pairwise_disjoint (dPieces d);
  do_header : ∀ h, dHeader d = Some h → 20 <= blen h <= 60 ∧ bytes_ok h;
  do_last : dHaveLast d = true → 0 < dLast d <= 65515
}.

Lemma datagram_bytes_pos d : datagram_ok d → 0 <= dBytes d.
Proof. intros [-> _ _ _ _]. apply sum_len_nonneg. Qed.

(** Every piece holds at least one byte: the budget also bounds their number. *)
Lemma datagram_piece_count d : datagram_ok d → Z.of_nat (length (dPieces d)) <= dBytes d.
Proof.
  intros [-> Hp _ _ _]. induction (dPieces d) as [|q l IH]; [done|].
  inversion Hp as [|?? Hq Hl]; subst. specialize (IH Hl). unfold piece4_ok in Hq. simpl. lia.
Qed.

(** ** The assembled packet *)
Record assembled (header : list Z) (pieces : list piece) (last : Z) (out : list Z) : Prop := {
  as_bytes : bytes_ok out;
  as_len : blen out = blen header + last;
  as_total : gb16 out 2 = blen out;
  as_flags : gb16 out 6 = Z.land (gb16 header 6) 0xC000;
  as_sum : gb out 10 = 0 ∧ gb out 11 = 0;
  as_hdr : ∀ i, 0 <= i < blen header → (i < 2 ∨ 4 <= i < 6 ∨ 8 <= i < 10 ∨ 12 <= i) → gb out i = gb header i;
  as_data : ∀ q i, q ∈ pieces → 0 <= i < blen (pdata q) →
              gb out (blen header + poff q + i) = gb (pdata q) i
}.

Lemma land_C000_range x : 0 <= x < 65536 → 0 <= Z.land x 0xC000 < 65536.
Proof.
  intros Hx. change 65536 with (2 ^ 16) in *. rewrite <- (Z.mod_small x (2 ^ 16)) by lia.
  rewrite <- Z.land_ones by lia. rewrite <- Z.land_assoc, (Z.land_comm (Z.ones 16)), Z.land_assoc.
  rewrite Z.land_ones by lia. apply Z.mod_pos_bound. lia.
Qed.

Lemma assemble_spec header pieces last :
  20 <= blen header → bytes_ok header → 0 < last → blen header + last <= 65535 →
  Forall piece4_ok pieces → Forall (fun q => pend q <= last) pieces → pairwise_disjoint pieces →
  ∃ out, assemble header pieces last = Ok out ∧ assembled header pieces last out.
Proof.
  intros Hl Hb Hlast Htot Hp He Hd. unfold assemble. cbv zeta. go_ops.
  set (o0 := bcopy (zeros (blen header + last)) 0 header).
  assert (L0 : blen o0 = blen header + last) by (subst o0; bside).
  assert (H0 : ∀ i, 0 <= i < blen header → gb o0 i = gb header i).
  { intros i Hi. subst o0. rewrite gb_bcopy_in by bside. f_equal. lia. }
  destruct (copy_pieces_spec pieces (blen header) o0) as (o1 & -> & L1 & B1 & G1 & P1); [lia| |done|].
  { rewrite List.Forall_forall in *. intros q Hq. specialize (Hp q Hq). specialize (He q Hq).
    unfold piece4_ok in Hp. cbv beta in He. rewrite L0. lia. }
  rewrite bind_Ok. specialize (B1 ltac:(subst o0; auto with go)
    ltac:(eapply List.Forall_impl; [|exact Hp]; intros q; unfold piece4_ok; tauto)).
  assert (Hh : ∀ i, 0 <= i < blen header → gb o1 i = gb header i).
  { intros i Hi. rewrite G1, H0; [done|lia|lia|]. intros q Hq. left.
    pose proof (Forall_elem _ _ _ Hp Hq) as Hpq. unfold piece4_ok in Hpq. lia. }
  clearbody o0. assert (F6 : gb16 o1 6 = gb16 header 6) by (unfold gb16; by rewrite !Hh by lia).
  go_ops. pose proof (land_C000_range (gb16 header 6) (gb16_range _ _ Hb)) as Hfl.
  rewrite F6, u16_small by bside.
  eexists. split; [done|]. split.
  - auto 10 with go lia.
  - bside.
  - gb_read. bside.
  - by gb_read.
  - split; by gb_read.
  - intros i Hi Hni. gb_read. by apply Hh.
  - intros q i Hq Hi. pose proof (Forall_elem _ _ _ Hp Hq) as Hpq. pose proof (Forall_elem _ _ _ He Hq) as Heq.
    unfold piece4_ok, pend in Hpq. cbv beta in Heq. unfold pend in Heq. gb_read. by apply P1.
Qed.

(** ** Every push keeps the table within its limits *)
Definition result_ok (res : Res Result) : Prop :=
  match res with
  | Ok x => rReady x = true → rFragmented x = true →
            20 < blen (rPacket x) <= 65535 ∧ bytes_ok (rPacket x)
  | Err _ => True
  | _ => False
  end.
Definition push_ok (r : IPv4) (p : IPv4 * Res Result) : Prop :=
  table_wf datagram_ok (fst p) ∧ same_limits r (fst p) ∧ result_ok (snd p).

Lemma finish4_ok r k d :
  table_wf datagram_ok r → datagram_ok d → push_ok r (finish4 r k d).
Proof.
  intros Hw Hd. pose proof Hd as [_ Hp Hdj Hh Hlast]. unfold finish4, push_ok.
  pose proof (dropLocked_wf datagram_ok r k Hw) as [Hdw _].
  pose proof (dropLocked_limits r k) as Hdl.
  destruct (dHeader d) as [header|]; [|done].
  destruct (Hh header eq_refl) as [Hhl Hhb].
  destruct (dHaveLast d); [|done]. specialize (Hlast eq_refl). cbn [negb]. zdec.
  pose proof (cover_spec (dPieces d) (dLast d) (replicate (Z.to_nat (dLast d)) false)
    ltac:(unfold blen; rewrite length_replicate; lia)
    ltac:(eapply List.Forall_impl; [|exact Hp]; intros q; unfold piece4_ok; tauto)) as Hc.
  destruct (cover _ _ _) as [[c|]| | |]; [|done..]. destruct Hc as (_ & He & _).
  destruct (negb _); [done|]. destruct (Z.ltb_spec 65535 (blen header + dLast d)); [done|].
  destruct (assemble_spec header (dPieces d) (dLast d)) as (out & -> & Ha); try done; try lia.
  cbn. split_and!; try done. intros _ _. destruct Ha as [? -> _ _ _ _ _]. split; [lia|done].
Qed.

Lemma add_piece4_ok r now pkt f d :
  table_wf datagram_ok r → bytes_ok pkt → fragment4_ok pkt f → t_m r !! fKey f = Some d →
  push_ok r (add_piece4 r now pkt f d).
Proof.
  intros Hw Hb [Hihl Hfit Hoff Hdat Hdb Hend] Hk. unfold add_piece4. cbv zeta.
  pose proof (dropLocked_wf datagram_ok r (fKey f) Hw) as [Hdw _].
  pose proof (dropLocked_limits r (fKey f)) as Hdl.
  destruct (existsb _ _) eqn:Eo; [done|].
  destruct (Z.ltb_spec (t_maxBytes r) (t_bytes r + blen (fData f))) as [|Hmax]; [done|].
  rewrite slice_ok by lia. pose proof (wf_entries _ _ Hw _ _ Hk) as Hd. cbv beta in Hd.
  set (d' := mkDatagram _ _ _ _ _ _ _).
  assert (Hd' : datagram_ok d').
  { destruct Hd as [D1 D2 D3 D4 D5]. split; subst d'; cbn.
    - rewrite sum_len_snoc. cbn. lia.
    - apply Forall_app. split; [done|]. constructor; [|constructor].
      unfold piece4_ok, pend; cbn. split_and!; try done; lia.
    - apply pairwise_snoc. split; [done|]. apply List.Forall_forall. intros q Hq.
      apply overlapping_false. destruct (overlapping _ _ q) eqn:E; [|done].
      assert (existsb (overlapping (fOff f) (fOff f + blen (fData f))) (dPieces d) = true); [|congruence].
      apply existsb_exists. eauto.
    - intros h. destruct (fOff f =? 0); [|apply D4]. intros [= <-]. split; [blia|auto with go].
    - destruct (fMore f); cbn; [apply D5|lia]. }
  assert (Hput : table_wf datagram_ok (put_entry r (fKey f) d' (t_bytes r + blen (fData f)))).
  { apply put_entry_wf; eauto.
    - by apply datagram_bytes_pos.
    - pose proof (total_bytes_delete _ _ _ Hk). pose proof (wf_sum _ _ Hw).
      subst d'. cbn in *. lia. }
  destruct (finish4_ok _ (fKey f) d' Hput Hd') as (F1 & F2 & F3). split_and!; try done.
Qed.

Lemma empty_datagram_ok now : datagram_ok (mkDatagram None [] (-1) false now 0 0).
Proof. split; cbn; try done; constructor. Qed.

Lemma PushInfo_ok r now pkt :
  table_wf datagram_ok r → bytes_ok pkt → push_ok r (PushInfo now pkt r).
Proof.
  intros Hw Hb. unfold PushInfo. pose proof (read_fragment_spec pkt Hb) as Hr.
  destruct (read_fragment pkt) as [[res|f]|e| |] eqn:Er; try done.
  - split_and!; try done. unfold result_ok; cbn. revert Er. unfold read_fragment.
    intros Er. assert (rFragmented res = false) as ->; [|done].
    repeat match type of Er with
    | (let _ := _ in _) = _ => cbv zeta in Er
    | (if ?c then _ else _) = _ => destruct c
    | (_ ≫= _) = _ => apply bind_Ok_inv in Er as (? & _ & Er)
    end; try discriminate Er; injection Er as <-; done.
  - unfold push_fragment4. cbv zeta.
    destruct (sweepLocked_spec datagram_ok now r Hw) as (Hw1 & Hl1 & _).
    set (r1 := sweepLocked r now) in *. clearbody r1.
    destruct (t_m r1 !! fKey f) as [d|] eqn:Ek.
    + destruct (add_piece4_ok r1 now pkt f d Hw1 Hb Hr Ek) as (A1 & A2 & A3).
      split_and!; try done. unfold same_limits in *. intuition congruence.
    + destruct (Z.leb_spec (t_maxEntries r1) (Z.of_nat (size (t_m r1)))); [done|].
      set (r2 := put_entry r1 _ _ _).
      assert (Hw2 : table_wf datagram_ok r2).
      { subst r2. apply put_entry_wf; try done.
        - apply empty_datagram_ok.
        - cbn. rewrite delete_id by done. by rewrite (wf_sum _ _ Hw1).
        - by destruct Hw1.
        - right. lia. }
      destruct (add_piece4_ok r2 now pkt f (mkDatagram None [] (-1) false now 0 0) Hw2 Hb Hr)
        as (A1 & A2 & A3); [subst r2; apply lookup_insert_eq|].
      split_and!; try done. unfold same_limits in *. cbn in *. intuition congruence.
Qed.

(** ** Reading back the fragments of a datagram *)

Lemma land_1fff r x (more : bool) :
  (r = 0 ∨ r = 32768) → 0 <= x < 8192 →
  Z.land (r + x + (if more then 8192 else 0)) 0x1fff = x ∧
  negb (Z.land (r + x + (if more then 8192 else 0)) 0x2000 =? 0) = more.
Proof.
  intros Hr Hx. change 0x1fff with (2 ^ 13 - 1). change 0x2000 with (2 ^ 13).
  rewrite land_ones_mod, land_pow2 by lia. change (2 ^ 13) with 8192. split.
  - destruct more, Hr as [->| ->]; Z.div_mod_to_equations; lia.
  - destruct more, Hr as [->| ->]; cbn [negb];
      [apply negb_true_iff, Z.eqb_neq|apply negb_true_iff, Z.eqb_neq
      |apply negb_false_iff, Z.eqb_eq|apply negb_false_iff, Z.eqb_eq]; Z.div_mod_to_equations; lia.
Qed.

Definition key4 (b : list Z) (id : Z) : key := mkKey (bsub b 12 16) (bsub b 16 20) (gb b 9) id.

Lemma read_is_frag4 b id rsv off data more f :
  is_frag4 b (ihl4 b) id rsv off data more f →
  Z.shiftr (gb b 0) 4 = 4 → 20 <= ihl4 b <= blen b → (rsv = 0 ∨ rsv = 32768) →
  0 < blen data → 0 <= off → off `mod` 8 = 0 → ihl4 b + off + blen data <= 65535 →
  (more = true → blen data `mod` 8 = 0) → (off ≠ 0 ∨ more = true) →
  read_fragment f = Ok (inr (mkFragment (mkHeader4 (key4 b id) (ihl4 b)) (blen f) off more data)).
Proof.
  intros [Fb Fl Ft Fi Ff Fh Fd _] H4 Hih Hr Hdat Hoff Hm8 Htot Hal Hfr.
  assert (G0 : gb f 0 = gb b 0) by (apply Fh; unfold kept4; lia).
  unfold read_fragment. zdec. go_ops. rewrite G0, H4. cbn [negb Z.eqb Pos.eqb]. zdec.
  fold (ihl4 b). zdec. go_ops. rewrite Ft. zdec. go_ops.
  rewrite Ff. destruct (land_1fff rsv (off `div` 8) more) as [E1 E2];
    [done|Z.div_mod_to_equations; lia|].
  rewrite E1, E2. replace (off `div` 8 * 8) with off by (Z.div_mod_to_equations; lia).
  replace ((off =? 0) && negb more) with false.
  2:{ destruct (Z.eqb_spec off 0), more; cbn; intuition congruence. }
  go_ops. rewrite Fd. zdec.
  replace (more && negb (blen data `mod` 8 =? 0)) with false.
  2:{ destruct more; [|done]. rewrite Hal by done. done. }
  go_ops. do 4 f_equal. rewrite Fi. unfold key4. f_equal.
  - apply bsub_eq; [lia..|]. intros. apply Fh; unfold kept4; lia.
  - apply bsub_eq; [lia..|]. intros. apply Fh; unfold kept4; lia.
  - apply Fh; unfold kept4; lia.
Qed.

(** What one descriptor of the datagram [b] satisfies on its own. *)
Definition desc_ok (b : list Z) (id rsv : Z) (fd : list Z * fragment4) : Prop :=
  let '(f, d) := fd in
  bytes_ok f ∧ read_fragment f = Ok (inr d) ∧ fKey d = key4 b id ∧ fIhl d = ihl4 b ∧ fTotal d = blen f ∧
  fragment4_ok f d ∧
  is_frag4 b (ihl4 b) id rsv (fOff d) (fData d) (fMore d) f.

Lemma frags4_describe b id rsv mtu payload off frags :
  frags4_ok b (ihl4 b) id rsv mtu payload off frags →
  bytes_ok payload → Z.shiftr (gb b 0) 4 = 4 → 20 <= ihl4 b <= blen b → (rsv = 0 ∨ rsv = 32768) →
  0 <= off → ihl4 b + blen payload <= 65535 → (off ≠ 0 ∨ mtu < ihl4 b + blen payload) →
  ∃ fds, frags = map fst fds ∧ tiles payload off fds ∧ Forall (desc_ok b id rsv) fds.
Proof.
  intros Hf Hp H4 Hih Hr. revert off Hf.
  induction frags as [|f rest IH]; intros off Hf Ho Ht Hw.
  { exists []. done. }
  cbn [frags4_ok] in Hf. destruct Hf as (Hn & Hmtu & H8 & Hle & Hif & Hrest).
  set (n := blen f - ihl4 b) in *.
  destruct (IH (off + n)) as (fds & -> & Htl & Hds); [done|lia|lia|lia|].
  set (data := bsub payload off (off + n)) in *. set (more := negb (bool_decide _)) in *.
  assert (Hdl : blen data = n) by (subst data; blia).
  assert (Hrd : read_fragment f = Ok (inr (mkFragment (mkHeader4 (key4 b id) (ihl4 b)) (blen f) off more data))).
  { eapply read_is_frag4; try done; try lia.
    - subst more. intros Hmore. destruct fds as [|g fds]; [done|]. cbn [map frags4_ok] in Hrest.
      rewrite Hdl. destruct Hrest as (_ & _ & H8' & _). Z.div_mod_to_equations. lia.
    - destruct Hw as [?|Hw]; [by left|]. destruct (decide (off = 0)) as [->|]; [|by left]. right.
      subst more. destruct fds as [|g fds]; [|done]. cbn [map frags4_ok] in Hrest. lia. }
  exists ((f, mkFragment (mkHeader4 (key4 b id) (ihl4 b)) (blen f) off more data) :: fds). split_and!.
  - done.
  - cbn [tiles snd fOff fData fMore]. rewrite Hdl. split_and!; try done; try lia.
    subst more. do 2 f_equal. apply bool_decide_ext. split; [apply map_eq_nil|by intros ->].
  - constructor; [|done]. pose proof (if4_bytes _ _ _ _ _ _ _ _ Hif) as Hbf.
    pose proof (read_fragment_spec f Hbf) as Hok. rewrite Hrd in Hok.
    unfold desc_ok. split_and!; done.
Qed.

(** ** Pushing the fragments of one datagram in any order *)
Section Datagram.
Context (b : list Z) (id rsv : Z) (payload : list Z) (fds : list (list Z * fragment4)) (hd0 : list Z).
Hypothesis Htiles : tiles payload 0 fds.
Hypothesis Hdesc : Forall (desc_ok b id rsv) fds.
Hypothesis Hpos : 0 < blen payload.
Hypothesis Hfit : ihl4 b + blen payload <= 65535.
Hypothesis Hhd : ∀ fd, fd ∈ fds → fOff (snd fd) = 0 → bsub (fst fd) 0 (ihl4 b) = hd0.
Hypothesis Hhdok : bytes_ok hd0 ∧ blen hd0 = ihl4 b ∧ 20 <= ihl4 b.

Let k := key4 b id.
(** The entry after the fragments [seen], in the order of their arrival. *)
Definition entry_of (seen : list (list Z * fragment4)) (now : Z) : datagram :=
  mkDatagram (if existsb is_first seen then Some hd0 else None) (map piece_of seen)
    (if existsb is_last seen then blen payload else -1) (existsb is_last seen) now
    (sum_len (map piece_of seen)) (max_packet seen).

Lemma pieces_ok seen rest : seen ++ rest ≡ₚ fds → Forall piece4_ok (map piece_of seen).
Proof.
  intros Hp. apply List.Forall_forall; intros q Hq; apply in_map_iff in Hq as (fd & <- & Hin).
  apply list_elem_of_In in Hin. pose proof (seen_in _ _ _ _ Hp Hin) as Hf.
  pose proof (tiles_range _ _ _ _ Htiles Hf). unfold piece4_ok, piece_of, pend; cbn.
  pose proof (Forall_elem _ _ _ Hdesc Hf) as Hd. destruct fd as [f d]. cbn in *.
  destruct Hd as (_ & _ & _ & _ & _ & [? _ _ _ ? ?] & _). split_and!; try done; lia.
Qed.

Lemma entry_step seen x now now' : x ∈ fds →
  (if fOff (snd x) =? 0 then Some (bsub (fst x) 0 (ihl4 b)) else dHeader (entry_of seen now'))
    = dHeader (entry_of (seen ++ [x]) now) ∧
  (if negb (fMore (snd x)) then fOff (snd x) + blen (fData (snd x)) else dLast (entry_of seen now'))
    = dLast (entry_of (seen ++ [x]) now) ∧
  (if negb (fMore (snd x)) then true else dHaveLast (entry_of seen now'))
    = dHaveLast (entry_of (seen ++ [x]) now).
Proof.
  intros Hx. unfold entry_of; cbn. rewrite !existsb_app. cbn [existsb].
  assert (Ef : is_first x = (fOff (snd x) =? 0)) by done.
  assert (El : is_last x = negb (fMore (snd x))) by done. rewrite Ef, El. split_and!.
  - destruct (existsb is_first seen), (Z.eqb_spec (fOff (snd x)) 0); cbn; try done; f_equal; by apply Hhd.
  - destruct (existsb is_last seen), (fMore (snd x)) eqn:E; cbn; try done;
      by apply (tiles_more _ _ _ _ Htiles Hx).
  - by destruct (existsb is_last seen), (fMore (snd x)).
Qed.

Lemma finish_partial r seen rest now : seen ++ rest ≡ₚ fds → rest ≠ [] →
  finish4 r k (entry_of seen now) = (r, Ok incomplete).
Proof.
  intros Hp Hne. unfold finish4, entry_of; cbn [dHeader dHaveLast dLast dPieces].
  destruct (existsb is_first seen); [|done]. destruct (existsb is_last seen); [|done]. cbn [negb]. zdec.
  destruct (cover_seen payload fds Htiles seen rest Hp) as (c & -> & Hc).
  destruct (forallb _ c); [|done]. by destruct Hne; apply Hc.
Qed.

Lemma finish_complete r seen now : seen ≡ₚ fds →
  ∃ out, finish4 r k (entry_of seen now) = (dropLocked r k, Ok (mkResult out true true (max_packet seen))) ∧
    assembled hd0 (map piece_of seen) (blen payload) out.
Proof.
  intros Hp. unfold finish4, entry_of; cbn [dHeader dHaveLast dLast dPieces dMaxPacket].
  destruct (seen_all payload fds Htiles Hpos seen Hp) as [-> ->]. cbv beta iota. cbn [negb]. zdec.
  assert (Hp' : seen ++ [] ≡ₚ fds) by by rewrite app_nil_r.
  destruct (cover_seen payload fds Htiles seen [] Hp') as (c & -> & Hc). rewrite (proj2 Hc) by done. cbn [negb].
  destruct Hhdok as (Hb0 & Hl0 & Hih).
  pose proof (pieces_ok _ _ Hp') as Hpo. destruct (seen_pieces payload fds Htiles _ _ Hp') as [_ Hpe].
  destruct (assemble_spec hd0 (map piece_of seen) (blen payload)) as (out & -> & Ha); try done; try lia.
  - pose proof (seen_disjoint payload fds Htiles _ _ Hp') as Hd. by rewrite app_nil_r in Hd.
  - by exists out.
Qed.

Lemma add_piece_step r seen x rest now now' :
  seen ++ x :: rest ≡ₚ fds → t_bytes r + blen (fData (snd x)) <= t_maxBytes r →
  add_piece4 r now (fst x) (snd x) (entry_of seen now') =
    finish4 (put_entry r k (entry_of (seen ++ [x]) now) (t_bytes r + blen (fData (snd x)))) k
      (entry_of (seen ++ [x]) now).
Proof.
  intros Hp Hbud. assert (Hx : x ∈ fds) by (rewrite <- Hp; apply elem_of_app; right; constructor).
  pose proof (Forall_elem _ _ _ Hdesc Hx) as Hdx. unfold desc_ok in Hdx. destruct x as [f d].
  destruct Hdx as (_ & _ & Hk & Hih & _ & Hfo & _). cbn [fst snd] in *.
  assert (Hno : existsb (overlapping (fOff d) (fOff d + blen (fData d))) (dPieces (entry_of seen now')) = false).
  { exact (seen_no_overlap payload fds Htiles _ _ _ Hp). }
  unfold add_piece4. cbv zeta. rewrite Hno, (proj2 (Z.ltb_ge _ _)) by lia.
  rewrite slice_ok; [|lia|destruct Hfo; lia|apply Hfo].
  destruct (entry_step seen (f, d) now now' Hx) as (E1 & E2 & E3). cbn [fst snd] in *.
  rewrite Hih, Hk. fold k. set (d' := mkDatagram _ _ _ _ _ _ _).
  assert (d' = entry_of (seen ++ [(f, d)]) now) as ->; [|done].
  set (e := entry_of (seen ++ [(f, d)]) now) in *.
  transitivity (mkDatagram (dHeader e) (dPieces e) (dLast e) (dHaveLast e) (dUpdated e) (dBytes e) (dMaxPacket e));
    [|done].
  subst d'. f_equal; [exact E1| |exact E2|exact E3| | ]; subst e; cbn [entry_of dPieces dBytes dMaxPacket].
  - by rewrite map_app.
  - rewrite map_app. cbn [map]. by rewrite sum_len_snoc.
  - unfold max_packet. by rewrite fold_left_app.
Qed.

(** The table before the next fragment: no entry yet, or the entry of [seen]. *)
Definition waiting (r : IPv4) (seen : list (list Z * fragment4)) (tl : Z) : Prop :=
  (seen = [] ∧ t_m r !! k = None ∧ Z.of_nat (size (t_m r)) < t_maxEntries r) ∨
  t_m r !! k = Some (entry_of seen tl).

Lemma push_step r seen x rest now tl :
  table_wf datagram_ok r → waiting r seen tl → now - tl <= t_ttl r →
  t_bytes r + blen (fData (snd x)) <= t_maxBytes r → seen ++ x :: rest ≡ₚ fds →
  ∃ r' res, PushInfo now (fst x) r = (r', res) ∧ table_wf datagram_ok r' ∧ same_limits r r' ∧
    if decide (rest = []) then
      t_m r' !! k = None ∧
      ∃ out, res = Ok (mkResult out true true (max_packet (seen ++ [x]))) ∧
        assembled hd0 (map piece_of (seen ++ [x])) (blen payload) out
    else
      res = Ok incomplete ∧ waiting r' (seen ++ [x]) now ∧
      t_bytes r' <= t_bytes r + blen (fData (snd x)).
Proof.
  intros Hw Hwait Httl Hbud Hp.
  assert (Hx : x ∈ fds) by (rewrite <- Hp; apply elem_of_app; right; constructor).
  pose proof (Forall_elem _ _ _ Hdesc Hx) as Hdx.
  assert (Hxk : bytes_ok (fst x) ∧ read_fragment (fst x) = Ok (inr (snd x)) ∧ fKey (snd x) = k).
  { destruct x as [f d]. unfold desc_ok in Hdx. cbn. tauto. }
  destruct Hxk as (Hbx & Hrx & Hkx).
  destruct (PushInfo_ok r now (fst x) Hw Hbx) as (P1 & P2 & _).
  destruct (PushInfo now (fst x) r) as [r' res] eqn:EP. exists r', res. cbn [fst] in P1, P2.
  split_and!; try done. unfold PushInfo in EP. rewrite Hrx in EP. unfold push_fragment4 in EP.
  cbv zeta in EP. destruct (sweepLocked_spec datagram_ok now r Hw) as (_ & Hl1 & Hb1 & Hs1 & Hm1).
  set (r1 := sweepLocked r now) in *. clearbody r1. destruct Hl1 as (L1 & L2 & L3).
  rewrite Hkx, Hm1 in EP.
  assert (Hfin : ∀ r0, t_bytes r0 = t_bytes r1 → t_maxBytes r0 = t_maxBytes r1 → ∀ now',
    add_piece4 r0 now (fst x) (snd x) (entry_of seen now') = (r', res) →
    if decide (rest = []) then
      t_m r' !! k = None ∧
      ∃ out, res = Ok (mkResult out true true (max_packet (seen ++ [x]))) ∧
        assembled hd0 (map piece_of (seen ++ [x])) (blen payload) out
    else
      res = Ok incomplete ∧ waiting r' (seen ++ [x]) now ∧
      t_bytes r' <= t_bytes r + blen (fData (snd x))).
  { intros r0 B0 M0 now' EA. rewrite (add_piece_step r0 seen x rest now now') in EA; [|done|lia].
    assert (Hp' : (seen ++ [x]) ++ rest ≡ₚ fds) by by rewrite <- app_assoc.
    destruct (decide (rest = [])) as [->|Hne].
    - rewrite app_nil_r in Hp'. destruct (finish_complete (put_entry r0 k (entry_of (seen ++ [x]) now)
        (t_bytes r0 + blen (fData (snd x)))) (seen ++ [x]) now Hp') as (out & Ef & Ha).
      rewrite Ef in EA. injection EA as <- <-. split; [|by exists out].
      rewrite dropLocked_m. apply lookup_delete_eq.
    - rewrite (finish_partial _ _ rest) in EA by done. injection EA as <- <-.
      split_and!; [done| |cbn; lia]. right. apply lookup_insert_eq. }
  destruct Hwait as [(-> & Hnone & Hsize)|Hsome].
  - rewrite Hnone in EP. cbn [mbind option_bind] in EP. rewrite (proj2 (Z.leb_gt _ _)) in EP by lia.
    exact (Hfin (put_entry r1 k (entry_of [] now) (t_bytes r1)) eq_refl eq_refl now EP).
  - rewrite Hsome in EP. cbn [mbind option_bind dg_updated datagram_Datagram dUpdated entry_of] in EP.
    rewrite (proj2 (Z.ltb_ge _ _)) in EP by lia.
    exact (Hfin r1 eq_refl eq_refl tl EP).
Qed.
End Datagram.

(** Push a sequence of packets, each at its arrival time. *)
Fixpoint push_all (arrivals : list (Z * list Z)) (r : IPv4) : IPv4 * list (Res Result) :=
  match arrivals with
  | [] => (r, [])
  | (now, pkt) :: rest =>
      let '(r, res) := PushInfo now pkt r in
      let '(r, out) := push_all rest r in
      (r, res :: out)
  end.

Lemma push_all_reassembles b id rsv payload fds hd0 :
  tiles payload 0 fds → Forall (desc_ok b id rsv) fds → 0 < blen payload →
  ihl4 b + blen payload <= 65535 →
  (∀ fd, fd ∈ fds → fOff (snd fd) = 0 → bsub (fst fd) 0 (ihl4 b) = hd0) →
  bytes_ok hd0 ∧ blen hd0 = ihl4 b ∧ 20 <= ihl4 b →
  ∀ arrivals todo seen r tl,
    map snd arrivals = map fst todo → todo ≠ [] → seen ++ todo ≡ₚ fds →
    table_wf datagram_ok r → waiting b id payload hd0 r seen tl →
    spaced (t_ttl r) tl arrivals → t_bytes r + sum_len (map piece_of todo) <= t_maxBytes r →
    ∃ r' parts out, push_all arrivals r =
        (r', parts ++ [Ok (mkResult out true true (max_packet (seen ++ todo)))]) ∧
      Forall (eq (Ok incomplete)) parts ∧ table_wf datagram_ok r' ∧ t_m r' !! key4 b id = None ∧
      assembled hd0 (map piece_of (seen ++ todo)) (blen payload) out.
Proof.
  intros Ht Hd Hpos Hfit Hhd Hok. induction arrivals as [|[now pkt] arrivals IH];
    intros todo seen r tl Hmap Hne Hp Hw Hwait Hsp Hbud.
  { by destruct todo. }
  destruct todo as [|x todo]; [done|]. cbn [map fst snd] in Hmap. injection Hmap as -> Hmap.
  cbn [spaced] in Hsp. destruct Hsp as [Hn Hsp]. unfold sum_len in Hbud. cbn [map foldr piece_of pdata] in Hbud.
  fold (sum_len (map piece_of todo)) in Hbud. pose proof (sum_len_nonneg (map piece_of todo)).
  destruct (push_step b id rsv payload fds hd0 Ht Hd Hpos Hfit Hhd Hok r seen x todo now tl)
    as (r1 & res & E & Hw1 & (Q1 & Q2 & Q3) & Hcase); try done; try lia.
  cbn [push_all]. rewrite E.
  assert (Happ : seen ++ x :: todo = (seen ++ [x]) ++ todo) by by rewrite <- app_assoc.
  destruct (decide (todo = [])) as [->|Hne'].
  - destruct Hcase as (Hk & out & -> & Ha). destruct arrivals; [|done]. cbn [push_all].
    exists r1, [], out. split_and!; [done|constructor|done|done|done].
  - destruct Hcase as (-> & Hwait' & Hb').
    destruct (IH todo (seen ++ [x]) r1 now) as (r2 & parts & out & -> & Hparts & Hw2 & Hk2 & Ha); try done.
    + by rewrite <- Happ.
    + by rewrite Q3.
    + lia.
    + exists r2, (Ok incomplete :: parts), out. rewrite Happ. split_and!; try done. by constructor.
Qed.

(** The datagram [out] is [b] with its length field filled in, the
    identification [id] and the checksum cleared. *)
Record restored4 (b : list Z) (id : Z) (out : list Z) : Prop := {
  rs_bytes : bytes_ok out;
  rs_len : blen out = total4 b;
  rs_total : gb16 out 2 = total4 b;
  rs_id : gb16 out 4 = id;
  rs_flags : gb16 out 6 = gb16 b 6;
  rs_sum : gb out 10 = 0 ∧ gb out 11 = 0;
  rs_rest : ∀ i, 0 <= i < total4 b → kept4 i → gb out i = gb b i
}.

Lemma rsv4_flags b : bytes_ok b → ¬ frag4_refused b →
  gb16 b 6 = rsv4 b ∧ 20 <= ihl4 b <= 60 ∧ ihl4 b <= blen b.
Proof.
  intros Hb Hr. unfold frag4_refused in Hr.
  assert (Hm : Z.land (gb16 b 6) 0x3fff = 0) by (destruct (Z.eq_dec (Z.land (gb16 b 6) 0x3fff) 0); tauto).
  assert (Hd : Z.land (gb16 b 6) 0x4000 = 0) by (destruct (Z.eq_dec (Z.land (gb16 b 6) 0x4000) 0); tauto).
  pose proof (land_15_range (gb b 0)). pose proof (gb16_range b 6 Hb) as Hx. split; [|unfold ihl4 in *; lia].
  unfold rsv4. revert Hm Hd. set (x := gb16 b 6) in *. clearbody x.
  change 0x3fff with (2 ^ 14 - 1). change 0x4000 with (2 ^ 14). change 0x8000 with (2 ^ 15).
  rewrite land_ones_mod, !land_pow2 by lia. change (2 ^ 14) with 16384. change (2 ^ 15) with 32768.
  intros. Z.div_mod_to_equations. lia.
Qed.

Lemma assembled_restores b id payload (fds seen : list (list Z * fragment4)) out hd0 f0 d0 :
  bytes_ok b → ¬ frag4_refused b → payload = bsub b (ihl4 b) (total4 b) → ihl4 b <= total4 b →
  tiles payload 0 fds → seen ≡ₚ fds →
  is_frag4 b (ihl4 b) id (rsv4 b) 0 d0 true f0 → hd0 = bsub f0 0 (ihl4 b) →
  assembled hd0 (map piece_of seen) (blen payload) out → restored4 b id out.
Proof.
  intros Hb Hr -> Hit Ht Hp [Fb Fl Ft Fi Ff Fh Fd _] -> [A1 A2 A3 A4 A5 A6 A7].
  destruct (rsv4_flags b Hb Hr) as (Hfl & Hih & Hil). pose proof (total4_le b) as Htl.
  pose proof (blen_nonneg d0).
  assert (Hhl : blen (bsub f0 0 (ihl4 b)) = ihl4 b) by blia.
  assert (Hpl : blen (bsub b (ihl4 b) (total4 b)) = total4 b - ihl4 b) by blia.
  rewrite Hhl in *. rewrite Hpl in *.
  assert (H6 : ∀ i, 0 <= i < ihl4 b → (i < 2 ∨ 4 <= i < 6 ∨ 8 <= i < 10 ∨ 12 <= i) → gb out i = gb f0 i).
  { intros i Hi Hni. rewrite A6 by done. by rewrite gb_bsub by lia. }
  split; try done; try lia.
  - rewrite <- Fi. unfold gb16. by rewrite !H6 by lia.
  - assert (E6 : gb16 (bsub f0 0 (ihl4 b)) 6 = gb16 f0 6) by (unfold gb16; by rewrite !gb_bsub by lia).
    rewrite A4, E6, Ff, Hfl. destruct (rsv4_cases b) as [E|E]; rewrite E; reflexivity.
  - intros i Hi Hk. destruct (decide (i < ihl4 b)).
    + rewrite H6 by (unfold kept4 in Hk; lia). apply Fh; [lia|done].
    + destruct (tiles_cover _ _ _ (i - ihl4 b) Ht) as (fd & Hfd & Hj); [lia|].
      pose proof (tiles_range _ _ _ _ Ht Hfd) as Hrg. rewrite Hpl in Hrg.
      assert (Hs : piece_of fd ∈ map piece_of seen).
      { rewrite <- Hp in Hfd. apply list_elem_of_In, (in_map piece_of), list_elem_of_In, Hfd. }
      specialize (A7 _ (i - ihl4 b - fOff (snd fd)) Hs). unfold piece_of in A7; cbn in A7.
      replace (ihl4 b + fOff (snd fd) + (i - ihl4 b - fOff (snd fd))) with i in A7 by lia.
      rewrite A7 by lia. rewrite (tiles_data _ _ _ _ Ht Hfd). rewrite !gb_bsub by lia. f_equal. lia.
Qed.

(** C5: Fragmentation and reassembly are inverse, whatever the order of arrival.
    When [FragmentForMTU] has cut an IPv4 datagram, pushing its fragments in any
    order (no gap longer than the time to live, room in the table, no older
    datagram under the same key) returns "incomplete" for every fragment but the
    last to arrive, and for that one the datagram: same header and payload, the
    length filled in, the checksum cleared, the identification kept when there
    was one.  The entry is gone afterwards. *)
Theorem fragment_reassemble_roundtrip (b : list Z) (mtu s : Z) (frags : list (list Z))
    (r : IPv4) (t0 : Z) (arrivals : list (Z * list Z)) :
  bytes_ok b → 0 <= s < 4294967296 → Z.shiftr (gb b 0) 4 = 4 → total4 b <= 65535 →
  snd (FragmentForMTU b mtu s) = Ok (frags, true) →
  map snd arrivals ≡ₚ frags → spaced (t_ttl r) t0 arrivals →
  table_wf datagram_ok r → (∀ id, t_m r !! key4 b id = None) →
  Z.of_nat (size (t_m r)) < t_maxEntries r → t_bytes r + blen b <= t_maxBytes r →
  ∃ r' parts out m id,
    push_all arrivals r = (r', parts ++ [Ok (mkResult out true true m)]) ∧
    Forall (eq (Ok incomplete)) parts ∧ restored4 b id out ∧ 0 < id < 65536 ∧
    (gb16 b 4 ≠ 0 → id = gb16 b 4) ∧ table_wf datagram_ok r' ∧ t_m r' !! key4 b id = None.
Proof.
  intros Hb Hs H4 Htot Hfr Hperm Hsp Hw Hno Hsize Hbud.
  assert (Hf : ∃ id, ¬ frag4_refused b ∧ mtu < total4 b ∧ 0 < id < 65536 ∧ (gb16 b 4 ≠ 0 → id = gb16 b 4) ∧
    frags4_ok b (ihl4 b) id (rsv4 b) mtu (bsub b (ihl4 b) (total4 b)) 0 frags ∧ 576 <= mtu).
  { revert Hfr. unfold FragmentForMTU. destruct (Z.ltb_spec mtu 576); [done|].
    destruct (Z.leb_spec (blen b) mtu); [done|]. destruct (Z.ltb_spec (blen b) 1); [done|].
    unfold liftR, mbind, SR_bind. rewrite idx_ok, H4 by lia. cbn [Z.eqb Pos.eqb]. intros Hfr.
    pose proof (fragmentIPv4_spec b mtu s Hb ltac:(lia) Hs Htot) as HF. rewrite Hfr in HF.
    destruct HF as (? & ? & id & ? & ? & ?). exists id. done. }
  destruct Hf as (id & Hr & Hmtu & Hid & Hid' & Hfs & Hm576).
  destruct (rsv4_flags b Hb Hr) as (_ & Hih & Hil). pose proof (total4_le b) as Htl.
  set (payload := bsub b (ihl4 b) (total4 b)) in *.
  assert (Hpl : blen payload = total4 b - ihl4 b) by (subst payload; blia).
  destruct (frags4_describe b id (rsv4 b) mtu payload 0 frags) as (fds & -> & Ht & Hd);
    try done; try lia; [subst payload; auto with go|apply rsv4_cases|].
  destruct fds as [|x fds]; [cbn in Ht; lia|].
  assert (Hx0 : fOff (snd x) = 0) by (by destruct Ht).
  pose proof (Forall_elem _ _ x Hd ltac:(constructor)) as Hdx.
  destruct x as [f0 d0]. unfold desc_ok in Hdx. destruct Hdx as (Bf & _ & _ & _ & _ & _ & Hif).
  assert (Hmore : fMore d0 = true).
  { destruct (fMore d0) eqn:E; [done|]. pose proof (tiles_more _ _ _ _ Ht (list_elem_of_here _ _)) as Hm.
    cbn [snd] in Hm. rewrite E in Hm. apply proj1 in Hm. specialize (Hm eq_refl).
    cbn [frags4_ok map fst] in Hfs. pose proof (if4_len _ _ _ _ _ _ _ _ Hif). cbn [snd] in Hx0. lia. }
  cbn [snd] in Hx0. rewrite Hx0, Hmore in Hif. pose proof (if4_len _ _ _ _ _ _ _ _ Hif) as Hl0.
  pose proof (blen_nonneg (fData d0)).
  apply Permutation_map_inv in Hperm as (fds' & Hmap & Hp).
  destruct (push_all_reassembles b id (rsv4 b) payload ((f0, d0) :: fds) (bsub f0 0 (ihl4 b))
    Ht Hd ltac:(lia) ltac:(lia)) with (arrivals := arrivals) (todo := fds') (seen := @nil (list Z * fragment4)) (r := r) (tl := t0)
    as (r' & parts & out & Epush & Hparts & Hw' & Hk & Ha); try done.
  - intros fd Hin Hz. apply elem_of_cons in Hin as [->|Hin]; [done|].
    cbn [tiles] in Ht. destruct Ht as (_ & Hn0 & _ & _ & _ & Ht'). pose proof (tiles_range _ _ _ _ Ht' Hin). lia.
  - split_and!; [auto with go|blia|lia].
  - intros ->. by apply Permutation_sym, Permutation_nil in Hp.
  - left. done.
  - rewrite <- (sum_len_perm _ _ (Permutation_map piece_of Hp)), (tiles_sum _ _ _ Ht). lia.
  - exists r', parts, out, (max_packet fds'), id. split_and!; try done; try lia.
    eapply (assembled_restores b id payload ((f0, d0) :: fds) fds' out); try done; lia.
Qed.

(** The two fragments of [big_udp], the last one first. *)
Lemma fragment_reassemble_roundtrip_witness :
  ∃ f1 f2 r' parts out m id,
    snd (FragmentForMTU big_udp 576 7) = Ok ([f1; f2], true) ∧
    push_all [(5, f2); (9, f1)] NewIPv4 = (r', parts ++ [Ok (mkResult out true true m)]) ∧
    restored4 big_udp id out.
Proof.
  assert (Hc : big_udp_shape (snd (FragmentForMTU big_udp 576 7)) = true) by (vm_compute; reflexivity).
  destruct (snd (FragmentForMTU big_udp 576 7)) as [[[|f1 [|f2 [|]]] []]| | |] eqn:E; try discriminate Hc.
  destruct (fragment_reassemble_roundtrip big_udp 576 7 [f1; f2] NewIPv4 0 [(5, f2); (9, f1)])
    as (r' & parts & out & m & id & Hp & _ & Hr & _).
  - apply bytes_okb_ok. vm_compute. reflexivity.
  - lia.
  - vm_compute. reflexivity.
  - vm_compute. discriminate.
  - exact E.
  - apply perm_swap.
  - cbn. lia.
  - apply NewTable_wf.
  - intros id. apply lookup_empty.
  - cbn. rewrite map_size_empty. lia.
  - change (t_bytes NewIPv4 + blen big_udp <= t_maxBytes NewIPv4) with (0 + blen big_udp <= 16777216).
    assert (blen big_udp = 1020) as -> by (vm_compute; reflexivity). lia.
  - exists f1, f2, r', parts, out, m, id. split; [reflexivity|]. split; [exact Hp|exact Hr].
Defined.

(** ** Reachable tables *)
Inductive reachable4 : IPv4 → Prop :=
  | reach4_new : reachable4 NewIPv4
  | reach4_push r now pkt : reachable4 r → bytes_ok pkt → reachable4 (fst (PushInfo now pkt r))
  | reach4_sweep r now : reachable4 r → reachable4 (fst (Sweep now r))
  | reach4_take r : reachable4 r → reachable4 (fst (TakeExpired r)).

Lemma reachable4_wf r : reachable4 r →
  table_wf datagram_ok r ∧ t_maxBytes r = 16777216 ∧ t_maxEntries r = 1024 ∧ t_ttl r = 30000000000.
Proof.
  induction 1 as [|r now pkt Hr (Hw & IH) Hb|r now Hr (Hw & IH)|r Hr (Hw & IH)].
  - split; [apply NewTable_wf|done].
  - destruct (PushInfo_ok r now pkt Hw Hb) as (Hw' & (L1 & L2 & L3) & _). rewrite L1, L2, L3. done.
  - destruct (sweepLocked_spec datagram_ok now r Hw) as (Hw' & (L1 & L2 & L3) & _).
    unfold Sweep; cbn [fst]. rewrite L1, L2, L3. done.
  - destruct Hw. split; [split|]; done.
Qed.

(** The reassembly table is bounded and never panics, whatever packets
    arrive: in every reachable state at most 1024 datagrams and 16 MiB of
    payload are held, the byte counter is exactly the sum over the datagrams, the
    number of pieces of a datagram is bounded by its bytes, pieces do not overlap,
    and the next push returns; a packet it hands out after reassembly fits an
    IPv4 length field. *)
Theorem IPv4_bounded (r : IPv4) (now : Z) (pkt : list Z) :
  reachable4 r → bytes_ok pkt →
  t_bytes r = total_bytes (t_m r) ∧ 0 <= t_bytes r <= 16777216 ∧ Z.of_nat (size (t_m r)) <= 1024 ∧
  (∀ k d, t_m r !! k = Some d →
     dBytes d = sum_len (dPieces d) ∧ Z.of_nat (length (dPieces d)) <= dBytes d ∧
     pairwise_disjoint (dPieces d)) ∧
  match snd (PushInfo now pkt r) with
  | Ok res => rReady res = true → rFragmented res = true → 20 < blen (rPacket res) <= 65535
  | Err _ => True
  | _ => False
  end.
Proof.
  intros Hr Hb. destruct (reachable4_wf r Hr) as (Hw & Hm & He & _).
  destruct (PushInfo_ok r now pkt Hw Hb) as (_ & _ & Hres). destruct Hw as [W1 W2 W3 W4 W5].
  pose proof (total_bytes_nonneg _ W4). split_and!; try lia.
  - intros k d Hk. pose proof (W5 k d Hk) as Hd. cbv beta in Hd.
    split_and!; [apply Hd|by apply datagram_piece_count|apply Hd].
  - destruct (snd (PushInfo now pkt r)) as [res| | |]; try done. intros Ha Hf. by destruct (Hres Ha Hf).
Qed.

Lemma IPv4_bounded_witness :
  0 <= t_bytes (fst (PushInfo 5 udp_sample NewIPv4)) <= 16777216.
Proof.
  apply (IPv4_bounded (fst (PushInfo 5 udp_sample NewIPv4)) 6 udp_sample);
    [apply reach4_push; [apply reach4_new|apply udp_sample_ok]|apply udp_sample_ok].
Defined.
