(* ===== verification/Reassembly6.v ===== *)
(** * IPv6 reassembly: [internal/reassembly/ipv6.go]

    Same table as for IPv4 ([Pieces.Table]); a datagram remembers the
    unfragmentable prefix of the first fragment to arrive and where its Next
    Header byte is.  The theorems: the table stays within its byte and entry
    limits under any input, the fragments of a packet pushed in any order give
    the packet back exactly, and the limits do not bound the number of pieces. *)

From S2P Require Import Prelude Packet Fragment Pieces.
Local Open Scope Z_scope.

Record key6 : Type := mkKey6 { k6Src : list Z; k6Dst : list Z; k6Id : Z; k6Next : Z }.
#[export] Instance key6_eq_dec : EqDecision key6.
Proof. solve_decision. Defined.
#[export] Program Instance key6_countable : Countable key6 :=
  inj_countable (fun k => (k6Src k, k6Dst k, k6Id k, k6Next k))
    (fun '(s, d, i, n) => Some (mkKey6 s d i n)) _.
Next Obligation. by intros []. Qed.

Record datagram6 : Type := mkDatagram6 {
  d6Prefix : list Z;
  d6PrevNext : Z;
  d6Next : Z;
  d6Pieces : list piece;
  d6Last : Z;
  d6HaveLast : bool;
  d6Updated : Z;
  d6Bytes : Z;
  d6MaxPacket : Z
}.
#[export] Instance datagram6_Datagram : Datagram datagram6 :=
  {| dg_bytes := d6Bytes; dg_updated := d6Updated |}.

Definition IPv6 : Type := Table key6 datagram6.
Definition NewIPv6 : IPv6 := NewTable.

(** The walk of [findIPv6Fragment]: offset of the Fragment header and of the
    Next Header byte that points to it, [None] when there is none. *)
Fixpoint find_loop (fuel : nat) (pkt : list Z) (total next prevNext off : Z) : Res (option (Z * Z)) :=
  match fuel with
  | O => OutOfFuel
  | S fuel =>
      if (next =? 0) || (next =? 43) || (next =? 60) then
        if total <? off + 2 then Err "short IPv6 extension" else
        l ← idx pkt (off + 1);
        let n := (l + 1) * 8 in
        if (n <? 8) || (total <? off + n) then Err "bad IPv6 extension" else
        next' ← idx pkt off;
        find_loop fuel pkt total next' off (off + n)
      else if next =? 51 then
        if total <? off + 2 then Err "short IPv6 AH" else
        l ← idx pkt (off + 1);
        let n := (l + 2) * 4 in
        if (n <? 8) || (total <? off + n) then Err "bad IPv6 AH" else
        next' ← idx pkt off;
        find_loop fuel pkt total next' off (off + n)
      else if next =? 44 then Ok (Some (off, prevNext))
      else Ok None
  end.

Definition findIPv6Fragment (pkt : list Z) : Res (option (Z * Z)) :=
  if blen pkt <? 40 then Err "short/non-IPv6 packet" else
  b0 ← idx pkt 0;
  if negb (Z.shiftr b0 4 =? 6) then Err "short/non-IPv6 packet" else
  plen ← be16 pkt 4;
  let total := 40 + plen in
  let total := if (blen pkt <? total) || (total <? 40) then blen pkt else total in
  next ← idx pkt 6;
  find_loop (S (length pkt)) pkt total next 6 40.

(** What [PushInfo] has read from a packet before it takes the lock. *)
Record header6 : Type := mkHeader6 { h6Key : key6; h6FragOff : Z; h6PrevNext : Z; h6Next : Z }.
Abbreviation fragment6 := (fragment header6).

Definition read_fragment6 (pkt : list Z) : Res (Result + fragment6) :=
  if blen pkt <? 1 then Ok (inl (passthrough pkt)) else
  b0 ← idx pkt 0;
  if negb (Z.shiftr b0 4 =? 6) then Ok (inl (passthrough pkt)) else
  if blen pkt <? 40 then Err "short IPv6 fragment" else
  plen ← be16 pkt 4;
  if plen =? 0 then Err "IPv6 jumbogram reassembly is unsupported" else
  let total := 40 + plen in
  if blen pkt <? total then Err "truncated IPv6 packet" else
  whole ← slice pkt 0 total;
  found ← findIPv6Fragment whole;
  match found with
  | None => Ok (inl (passthrough whole))
  | Some (fragOff, prevNext) =>
      if total <? fragOff + 8 then Err "short IPv6 fragment header" else
      next ← idx pkt fragOff;
      fv ← be16 pkt (fragOff + 2);
      let off := Z.shiftr fv 3 * 8 in
      let more := negb (Z.land fv 1 =? 0) in
      pld ← slice pkt (fragOff + 8) total;
      if (blen pld =? 0) && more then Err "empty non-final IPv6 fragment" else
      if more && negb (blen pld `mod` 8 =? 0)
      then Err "non-final IPv6 fragment payload is not 8-byte aligned" else
      let en := off + blen pld in
      if 65535 <? en then Err "IPv6 reassembly fragmentable part too large" else
      src ← slice pkt 8 24;
      dst ← slice pkt 24 40;
      id ← be32 pkt (fragOff + 4);
      Ok (inr (mkFragment (mkHeader6 (mkKey6 src dst id next) fragOff prevNext next) total off more pld))
  end.

(** The output packet; [inl] is the check on the previous next-header offset. *)
Definition assemble6 (d : datagram6) : Res (string + list Z) :=
  let out := zeros (blen (d6Prefix d) + d6Last d) in
  out ← copy_into out 0 (blen out) (d6Prefix d);
  if (d6PrevNext d <? 0) || (blen out <=? d6PrevNext d)
  then Ok (inl "invalid IPv6 previous next-header offset") else
  out ← store out (d6PrevNext d) (d6Next d);
  out ← copy_pieces (d6Pieces d) (blen (d6Prefix d)) out;
  out ← put16 out 4 (u16 (blen out - 40));
  Ok (inr out).

Definition finish6 (r : IPv6) (k : key6) (d : datagram6) : IPv6 * Res Result :=
  if negb (d6HaveLast d) then (r, Ok incomplete) else
  if d6Last d <? 0 then (r, Panic) else
  match cover (d6Pieces d) (d6Last d) (replicate (Z.to_nat (d6Last d)) false) with
  | Ok None => (dropLocked r k, Err "fragment past final IPv6 length")
  | Ok (Some covered) =>
      if negb (forallb (fun v => v) covered) then (r, Ok incomplete) else
      if 65535 <? blen (d6Prefix d) + d6Last d - 40
      then (dropLocked r k, Err "reassembled IPv6 payload exceeds 65535") else
      match assemble6 d with
      | Ok (inl e) => (dropLocked r k, Err e)
      | Ok (inr out) => (dropLocked r k, Ok (mkResult out true true (d6MaxPacket d)))
      | Err e => (r, Err e)
      | Panic => (r, Panic)
      | OutOfFuel => (r, OutOfFuel)
      end
  | Err e => (r, Err e)
  | Panic => (r, Panic)
  | OutOfFuel => (r, OutOfFuel)
  end.

Definition add_piece6 (r : IPv6) (now : Z) (f : fragment6) (d : datagram6) : IPv6 * Res Result :=
  let k := h6Key (fHdr f) in
  let pld := fData f in
  let en := fOff f + blen pld in
  if existsb (overlapping (fOff f) en) (d6Pieces d)
  then (dropLocked r k, Err "overlapping IPv6 fragments") else
  if t_maxBytes r <? t_bytes r + blen pld
  then (dropLocked r k, Err "IPv6 reassembly memory limit") else
  let d := mkDatagram6 (d6Prefix d) (d6PrevNext d) (d6Next d)
    (d6Pieces d ++ [mkPiece (fOff f) pld])
    (if negb (fMore f) then en else d6Last d)
    (if negb (fMore f) then true else d6HaveLast d)
    now
    (d6Bytes d + blen pld)
    (if d6MaxPacket d <? fTotal f then fTotal f else d6MaxPacket d) in
  finish6 (put_entry r k d (t_bytes r + blen pld)) k d.

Definition push_fragment6 (r : IPv6) (now : Z) (pkt : list Z) (f : fragment6) : IPv6 * Res Result :=
  let r := sweepLocked r now in
  let h := fHdr f in
  match t_m r !! h6Key h with
  | None =>
      if t_maxEntries r <=? Z.of_nat (size (t_m r))
      then (r, Err "IPv6 reassembly table full") else
      match slice pkt 0 (h6FragOff h) with
      | Ok prefix =>
          let d := mkDatagram6 prefix (h6PrevNext h) (h6Next h) [] (-1) false now 0 0 in
          add_piece6 (put_entry r (h6Key h) d (t_bytes r)) now f d
      | _ => (r, Panic)
      end
  | Some d =>
      if negb (d6PrevNext d =? h6PrevNext h) || negb (blen (d6Prefix d) =? h6FragOff h)
      then (dropLocked r (h6Key h), Err "inconsistent IPv6 fragment header chain")
      else add_piece6 r now f d
  end.

Definition PushInfo6 (now : Z) (pkt : list Z) : SR IPv6 Result := fun r =>
  match read_fragment6 pkt with
  | Ok (inl res) => (r, Ok res)
  | Ok (inr f) => push_fragment6 r now pkt f
  | Err e => (r, Err e)
  | Panic => (r, Panic)
  | OutOfFuel => (r, OutOfFuel)
  end.

Definition Push6 (now : Z) (pkt : list Z) : SR IPv6 (list Z * bool) :=
  res ← PushInfo6 now pkt;
  mret (rPacket res, rReady res).

Definition Sweep6 (now : Z) : SR IPv6 unit := fun r => (sweepLocked r now, Ok tt).

(** ** What holds of fragments and datagrams *)
Lemma find_loop_spec fuel pkt total next prev off :
  bytes_ok pkt → total <= blen pkt → 40 <= off <= total → 6 <= prev < off →
  total - off < Z.of_nat fuel →
  match find_loop fuel pkt total next prev off with
  | Ok (Some (o, p)) => 40 <= o <= total ∧ 6 <= p < o
  | Ok None | Err _ => True
  | _ => False
  end.
Proof.
  intros Hb Ht. revert next prev off.
  induction fuel as [|fuel IH]; intros next prev off Ho Hp Hf; [lia|]. cbn [find_loop].
  pose proof (gb_range pkt (off + 1) Hb).
  destruct ((next =? 0) || (next =? 43) || (next =? 60)).
  - go_if; [done|]. go_ops. go_if; [done|]. go_ops. apply IH; lia.
  - destruct (next =? 51); [|destruct (next =? 44); [lia|done]].
    go_if; [done|]. go_ops. go_if; [done|]. go_ops. apply IH; lia.
Qed.

Record fragment6_ok (pkt : list Z) (f : fragment6) : Prop := {
  f6_frag : 40 <= h6FragOff (fHdr f) <= blen pkt;
  f6_prev : 6 <= h6PrevNext (fHdr f) < h6FragOff (fHdr f);
  f6_next : 0 <= h6Next (fHdr f) < 256;
  f6_off : 0 <= fOff f;
  f6_bytes : bytes_ok (fData f);
  f6_end : fOff f + blen (fData f) <= 65535;
  f6_version : Z.shiftr (gb pkt 0) 4 = 6
}.

Lemma read_fragment6_spec pkt : bytes_ok pkt →
  match read_fragment6 pkt with
  | Ok (inr f) => fragment6_ok pkt f
  | Ok (inl res) => rFragmented res = false
  | Err _ => True
  | _ => False
  end.
Proof.
  intros Hb. unfold read_fragment6. destruct (Z.ltb_spec (blen pkt) 1); [done|]. go_ops.
  destruct (Z.eqb_spec (Z.shiftr (gb pkt 0) 4) 6) as [Hv6|]; [cbn [negb]|done]. destruct (Z.ltb_spec (blen pkt) 40); [done|]. go_ops.
  pose proof (gb16_range pkt 4 Hb). destruct (_ =? 0); [done|].
  destruct (Z.ltb_spec (blen pkt) (40 + gb16 pkt 4)); [done|]. go_ops.
  set (total := 40 + gb16 pkt 4) in *. set (w := bsub pkt 0 total).
  assert (Hw : blen w = total) by (subst w; blia).
  assert (Bw : bytes_ok w) by (subst w; auto with go).
  unfold findIPv6Fragment. zdec. go_ops. destruct (negb _); [done|]. go_ops.
  set (tw := if (blen w <? 40 + gb16 w 4) || (40 + gb16 w 4 <? 40) then blen w else 40 + gb16 w 4).
  assert (Htw : 40 <= tw <= total).
  { subst tw. pose proof (gb16_range w 4 Bw). destruct (_ || _) eqn:E; zbool; lia. }
  clearbody tw.
  pose proof (find_loop_spec (S (length w)) w tw (gb w 6) 6 40 Bw ltac:(lia) ltac:(lia) ltac:(lia)
    ltac:(unfold blen in *; lia)) as HF.
  destruct (find_loop _ _ _ _ _ _) as [[[o p]|]| | |]; try done. rewrite bind_Ok.
  destruct (Z.ltb_spec total (o + 8)); [done|]. go_ops. destruct (_ && _); [done|].
  destruct (_ && _); [done|].
  destruct (Z.ltb_spec 65535 (Z.shiftr (gb16 pkt (o + 2)) 3 * 8 + blen (bsub pkt (o + 8) total))); [done|].
  go_ops. split; cbn [fHdr h6FragOff h6PrevNext h6Next fOff fData]; try lia; auto with go.
  - by apply gb_range.
  - pose proof (gb16_range pkt (o + 2) Hb). rewrite Z.shiftr_div_pow2 by lia.
    pose proof (Z.div_pos (gb16 pkt (o + 2)) (2 ^ 3)). lia.
Qed.

Definition piece6_ok (q : piece) : Prop := 0 <= poff q ∧ pend q <= 65535 ∧ bytes_ok (pdata q).

Record datagram6_ok (d : datagram6) : Prop := {
  d6o_bytes : d6Bytes d = sum_len (d6Pieces d);
  d6o_pieces : Forall piece6_ok (d6Pieces d);
  d6o_disjoint : pairwise_disjoint (d6Pieces d);
  d6o_prefix : 40 <= blen (d6Prefix d) ∧ bytes_ok (d6Prefix d);
  d6o_prev : 6 <= d6PrevNext d < blen (d6Prefix d);
  d6o_next : 0 <= d6Next d < 256;
  d6o_last : d6HaveLast d = true → 0 <= d6Last d <= 65535;
  d6o_version : Z.shiftr (gb (d6Prefix d) 0) 4 = 6
}.

Lemma datagram6_bytes_pos d : datagram6_ok d → 0 <= d6Bytes d.
Proof. intros [-> _ _ _ _ _ _]. apply sum_len_nonneg. Qed.

(** ** The assembled packet *)
Record assembled6 (d : datagram6) (out : list Z) : Prop := {
  as6_bytes : bytes_ok out;
  as6_len : blen out = blen (d6Prefix d) + d6Last d;
  as6_total : 40 + gb16 out 4 = blen out;
  as6_next : gb out (d6PrevNext d) = d6Next d;
  as6_hdr : ∀ i, 0 <= i < blen (d6Prefix d) → i ≠ 4 → i ≠ 5 → i ≠ d6PrevNext d →
              gb out i = gb (d6Prefix d) i;
  as6_data : ∀ q i, q ∈ d6Pieces d → 0 <= i < blen (pdata q) →
              gb out (blen (d6Prefix d) + poff q + i) = gb (pdata q) i
}.

Lemma assemble6_spec d :
  datagram6_ok d → d6HaveLast d = true → blen (d6Prefix d) + d6Last d - 40 <= 65535 →
  Forall (fun q => pend q <= d6Last d) (d6Pieces d) →
  ∃ out, assemble6 d = Ok (inr out) ∧ assembled6 d out.
Proof.
  intros [_ Hp Hd [Hl Hb] Hpv Hnx Hlast] HL Htot He. specialize (Hlast HL).
  unfold assemble6. cbv zeta. go_ops.
  set (o0 := bcopy (zeros (blen (d6Prefix d) + d6Last d)) 0 (d6Prefix d)).
  assert (L0 : blen o0 = blen (d6Prefix d) + d6Last d) by (subst o0; bside). rewrite L0. zdec. go_ops.
  set (o1 := bset o0 (d6PrevNext d) (d6Next d)).
  assert (L1 : blen o1 = blen o0) by (subst o1; bside).
  assert (H1 : ∀ i, 0 <= i < blen (d6Prefix d) → i ≠ d6PrevNext d → gb o1 i = gb (d6Prefix d) i).
  { intros i Hi Hne. subst o1 o0. gb_read. f_equal. lia. }
  assert (N1 : gb o1 (d6PrevNext d) = d6Next d) by (subst o1; by gb_read).
  destruct (copy_pieces_spec (d6Pieces d) (blen (d6Prefix d)) o1) as (o2 & -> & L2 & B2 & G2 & P2); [lia| |done|].
  { rewrite List.Forall_forall in *. intros q Hq. specialize (Hp q Hq). specialize (He q Hq).
    unfold piece6_ok in Hp. cbv beta in He. lia. }
  rewrite bind_Ok. specialize (B2 ltac:(subst o1 o0; auto with go)
    ltac:(eapply List.Forall_impl; [|exact Hp]; intros q; unfold piece6_ok; tauto)).
  assert (Hh : ∀ i, 0 <= i < blen (d6Prefix d) → gb o2 i = gb o1 i).
  { intros i Hi. apply G2; [lia|]. intros q Hq. left.
    pose proof (Forall_elem _ _ _ Hp Hq) as Hpq. unfold piece6_ok in Hpq. lia. }
  clearbody o0 o1. go_ops. rewrite u16_small by lia.
  eexists. split; [done|]. split.
  - auto with go.
  - bside.
  - gb_read. bside.
  - gb_read. rewrite Hh by lia. done.
  - intros i Hi ???. gb_read. rewrite Hh by lia. by apply H1.
  - intros q i Hq Hi. pose proof (Forall_elem _ _ _ Hp Hq) as Hpq. pose proof (Forall_elem _ _ _ He Hq) as Heq.
    unfold piece6_ok in Hpq. cbv beta in Heq. unfold pend in *. gb_read. by apply P2.
Qed.

(** ** Every push keeps the table within its limits *)
Definition result6_ok (res : Res Result) : Prop :=
  match res with
  | Ok x => rReady x = true → rFragmented x = true →
            40 <= blen (rPacket x) <= 65575 ∧ bytes_ok (rPacket x) ∧ Z.shiftr (gb (rPacket x) 0) 4 = 6
  | Err _ => True
  | _ => False
  end.
Definition push6_ok (r : IPv6) (p : IPv6 * Res Result) : Prop :=
  table_wf datagram6_ok (fst p) ∧ same_limits r (fst p) ∧ result6_ok (snd p).

Lemma finish6_ok r k d :
  table_wf datagram6_ok r → datagram6_ok d → push6_ok r (finish6 r k d).
Proof.
  intros Hw Hd. pose proof Hd as [_ Hp Hdj Hpre _ _ Hlast]. unfold finish6, push6_ok.
  pose proof (dropLocked_wf datagram6_ok r k Hw) as [Hdw _].
  pose proof (dropLocked_limits r k) as Hdl.
  destruct (d6HaveLast d) eqn:HL; [|done]. specialize (Hlast eq_refl). cbn [negb]. zdec.
  pose proof (cover_spec (d6Pieces d) (d6Last d) (replicate (Z.to_nat (d6Last d)) false)
    ltac:(unfold blen; rewrite length_replicate; lia)
    ltac:(eapply List.Forall_impl; [|exact Hp]; intros q; unfold piece6_ok; tauto)) as Hc.
  destruct (cover _ _ _) as [[c|]| | |]; [|done..]. destruct Hc as (_ & He & _).
  destruct (negb _); [done|]. destruct (Z.ltb_spec 65535 (blen (d6Prefix d) + d6Last d - 40)); [done|].
  destruct (assemble6_spec d) as (out & -> & Ha); try done; try lia.
  cbn. split_and!; try done. intros _ _. destruct Ha as [? -> _ _ Hh _]. split; [lia|]. split; [done|].
  pose proof (d6o_prev d Hd). rewrite Hh by lia. apply Hd.
Qed.

Lemma add_piece6_ok r now pkt f d :
  table_wf datagram6_ok r → fragment6_ok pkt f → t_m r !! h6Key (fHdr f) = Some d →
  push6_ok r (add_piece6 r now f d).
Proof.
  intros Hw [_ _ _ Hoff Hdb Hend] Hk. unfold add_piece6. cbv zeta. set (k := h6Key (fHdr f)) in *.
  pose proof (dropLocked_wf datagram6_ok r k Hw) as [Hdw _].
  pose proof (dropLocked_limits r k) as Hdl. pose proof (blen_nonneg (fData f)) as Hnn.
  destruct (existsb _ _) eqn:Eo; [done|].
  destruct (Z.ltb_spec (t_maxBytes r) (t_bytes r + blen (fData f))) as [|Hmax]; [done|].
  pose proof (wf_entries _ _ Hw _ _ Hk) as Hd. cbv beta in Hd.
  set (d' := mkDatagram6 _ _ _ _ _ _ _ _ _).
  assert (Hd' : datagram6_ok d').
  { destruct Hd as [D1 D2 D3 D4 D5 D6 D7]. split; subst d'; cbn; try done.
    - rewrite sum_len_snoc. cbn. lia.
    - apply Forall_app. split; [done|]. constructor; [|constructor].
      unfold piece6_ok, pend; cbn. split_and!; try done; lia.
    - apply pairwise_snoc. split; [done|]. apply List.Forall_forall. intros q Hq.
      apply overlapping_false. destruct (overlapping _ _ q) eqn:E; [|done].
      assert (existsb (overlapping (fOff f) (fOff f + blen (fData f))) (d6Pieces d) = true); [|congruence].
      apply existsb_exists. eauto.
    - destruct (fMore f); cbn; [apply D7|lia]. }
  assert (Hput : table_wf datagram6_ok (put_entry r k d' (t_bytes r + blen (fData f)))).
  { apply put_entry_wf; eauto.
    - by apply datagram6_bytes_pos.
    - pose proof (total_bytes_delete _ _ _ Hk). pose proof (wf_sum _ _ Hw).
      subst d'. cbn in *. lia. }
  destruct (finish6_ok _ k d' Hput Hd') as (F1 & F2 & F3). split_and!; try done.
Qed.

Lemma PushInfo6_ok r now pkt :
  table_wf datagram6_ok r → bytes_ok pkt → push6_ok r (PushInfo6 now pkt r).
Proof.
  intros Hw Hb. unfold PushInfo6. pose proof (read_fragment6_spec pkt Hb) as Hr.
  destruct (read_fragment6 pkt) as [[res|f]|e| |]; try done.
  { split_and!; try done. cbn. rewrite Hr. done. }
  unfold push_fragment6. cbv zeta.
  destruct (sweepLocked_spec datagram6_ok now r Hw) as (Hw1 & Hl1 & _).
  set (r1 := sweepLocked r now) in *. clearbody r1. set (k := h6Key (fHdr f)) in *.
  assert (Htrans : ∀ r0 p, same_limits r1 r0 → push6_ok r0 p → push6_ok r p).
  { intros r0 p Hl (A1 & A2 & A3). split_and!; try done. unfold same_limits in *. intuition congruence. }
  destruct (t_m r1 !! k) as [d|] eqn:Ek.
  - destruct (_ || _).
    + apply (Htrans r1); [done|]. split_and!; [apply (dropLocked_wf _ _ _ Hw1)|apply dropLocked_limits|done].
    + apply (Htrans r1); [done|]. by apply (add_piece6_ok r1 now pkt f d).
  - destruct (Z.leb_spec (t_maxEntries r1) (Z.of_nat (size (t_m r1)))); [done|].
    pose proof Hr as [Q1 Q2 Q3 _ _ _]. rewrite slice_ok by lia.
    set (d0 := mkDatagram6 _ _ _ _ _ _ _ _ _).
    assert (Hw2 : table_wf datagram6_ok (put_entry r1 k d0 (t_bytes r1))).
    { apply put_entry_wf; try done.
      - subst d0. split; cbn; try done; try (by constructor); try lia.
        + split; [blia|auto with go].
        + autorewrite with blen. lia.
        + rewrite gb_bsub by lia. apply Hr.
      - cbn. rewrite delete_id by done. by rewrite (wf_sum _ _ Hw1).
      - by destruct Hw1.
      - right. lia. }
    apply (Htrans (put_entry r1 k d0 (t_bytes r1))); [done|].
    apply (add_piece6_ok _ now pkt f d0); try done. apply lookup_insert_eq.
Qed.

(** ** Reading back the fragments of a packet *)
Lemma chain6_find b f next prev off ins prv nx :
  bytes_ok b → chain6 b next prev off ins prv nx →
  0 <= off → prev < off → gb f prv = 44 →
  (∀ i, off <= i < ins → i ≠ prv → gb f i = gb b i) →
  ∀ fuel total, ins <= total <= blen f → total - off < Z.of_nat fuel →
  find_loop fuel f total (if prev =? prv then 44 else next) prev off = Ok (Some (ins, prv)).
Proof.
  intros Hb H. induction H as [next prev off|next prev off ins prv nx Hn Hi H IH];
    intros Ho Hp H44 Hag fuel total Ht Hf; (destruct fuel as [|fuel]; [lia|]); cbn [find_loop].
  { by rewrite Z.eqb_refl. }
  destruct (chain6_bounds _ _ _ _ _ _ _ Hb H) as [Hle Hprv].
  pose proof (gb_range b (off + 1) Hb).
  assert (Hpo : off <= prv) by (destruct Hprv as [(_ & -> & _)|?]; lia).
  assert (Hne1 : off + 1 ≠ prv) by (destruct Hprv as [(_ & -> & _)|?]; lia).
  rewrite (proj2 (Z.eqb_neq prev prv)) by lia.
  replace ((next =? 0) || (next =? 43) || (next =? 60)) with true by (destruct Hn as [->|[->| ->]]; done).
  zdec. go_ops. rewrite (Hag (off + 1)) by lia. zdec. go_ops.
  replace (gb f off) with (if off =? prv then 44 else gb b off).
  2:{ destruct (Z.eqb_spec off prv) as [->|]; [done|]. rewrite Hag by lia. done. }
  apply IH; try done; try lia. intros. apply Hag; lia.
Qed.

Definition key6_of (b : list Z) (id nx : Z) : key6 := mkKey6 (bsub b 8 24) (bsub b 24 40) id nx.

Lemma frag6_offset off (more : bool) : 0 <= off → off `mod` 8 = 0 →
  Z.shiftr (off + (if more then 1 else 0)) 3 * 8 = off ∧
  negb (Z.land (off + (if more then 1 else 0)) 1 =? 0) = more.
Proof.
  intros Ho H8. rewrite Z.shiftr_div_pow2 by lia. change (2 ^ 3) with 8.
  set (v := off + _). rewrite (land_ones_mod v 1 ltac:(lia) : Z.land v 1 = v `mod` 2). subst v. split.
  - destruct more; Z.div_mod_to_equations; lia.
  - destruct more; [apply negb_true_iff, Z.eqb_neq|apply negb_false_iff, Z.eqb_eq]; Z.div_mod_to_equations; lia.
Qed.

Lemma read_is_frag6 b ins prv nx id off data more f :
  bytes_ok b → Z.shiftr (gb b 0) 4 = 6 → 40 <= ins <= blen b → 6 <= prv < ins → (prv = 6 ∨ 40 <= prv) →
  chain6 b (gb b 6) 6 40 ins prv nx →
  is_frag6 b ins prv nx id off data more f →
  0 < blen data → 0 <= off → off `mod` 8 = 0 → off + blen data <= 65535 →
  (more = true → blen data `mod` 8 = 0) →
  read_fragment6 f = Ok (inr (mkFragment (mkHeader6 (key6_of b id nx) ins prv nx) (blen f) off more data)).
Proof.
  intros Hb H6 Hins Hprv Hp40 Hch [Fb Fl Ft Fp Fn Fo Fi Fh Fd] Hdat Hoff H8 Hend Hal.
  assert (G0 : gb f 0 = gb b 0) by (apply Fh; lia).
  unfold read_fragment6. zdec. go_ops. rewrite G0, H6. cbn [negb Z.eqb Pos.eqb]. zdec. go_ops.
  zdec. go_ops. rewrite !Ft, bsub_full.
  unfold findIPv6Fragment. zdec. go_ops. rewrite G0, H6. cbn [negb Z.eqb Pos.eqb]. go_ops.
  rewrite Ft. rewrite Z.ltb_irrefl. zdec.
  replace (gb f 6) with (if 6 =? prv then 44 else gb b 6).
  2:{ destruct (Z.eqb_spec 6 prv) as [<-|]; [done|]. rewrite Fh by lia. done. }
  rewrite (chain6_find b f (gb b 6) 6 40 ins prv nx Hb Hch);
    [|lia|lia|done|intros; apply Fh; lia|lia|unfold blen in *; lia].
  rewrite bind_Ok. zdec. go_ops. rewrite Fo.
  destruct (frag6_offset off more Hoff H8) as [-> ->]. rewrite Fd.
  zdec. replace (more && negb (blen data `mod` 8 =? 0)) with false.
  2:{ destruct more; [|done]. rewrite Hal by done. done. }
  go_ops. rewrite Fn, Fi. do 4 f_equal. unfold key6_of. f_equal.
  - apply bsub_eq; [lia..|]. intros. apply Fh; lia.
  - apply bsub_eq; [lia..|]. intros. apply Fh; lia.
Qed.

Definition desc6_ok (b : list Z) (ins prv nx id : Z) (fd : list Z * fragment6) : Prop :=
  let '(f, d) := fd in
  bytes_ok f ∧ read_fragment6 f = Ok (inr d) ∧ fHdr d = mkHeader6 (key6_of b id nx) ins prv nx ∧
  fragment6_ok f d ∧ is_frag6 b ins prv nx id (fOff d) (fData d) (fMore d) f.

Lemma frags6_describe b ins prv nx id mtu payload off frags :
  frags6_ok b ins prv nx id mtu payload off frags →
  bytes_ok b → bytes_ok payload → Z.shiftr (gb b 0) 4 = 6 → 40 <= ins <= blen b → 6 <= prv < ins →
  (prv = 6 ∨ 40 <= prv) → chain6 b (gb b 6) 6 40 ins prv nx →
  0 <= off → blen payload <= 65535 →
  ∃ fds, frags = map fst fds ∧ tiles payload off fds ∧ Forall (desc6_ok b ins prv nx id) fds.
Proof.
  intros Hf Hb Hp H6 Hins Hprv Hp40 Hch. revert off Hf.
  induction frags as [|f rest IH]; intros off Hf Ho Ht.
  { exists []. done. }
  cbn [frags6_ok] in Hf. destruct Hf as (Hn & Hmtu & H8 & Hle & Hif & Hrest).
  set (n := blen f - (ins + 8)) in *.
  destruct (IH (off + n)) as (fds & -> & Htl & Hds); [done|lia|lia|].
  set (data := bsub payload off (off + n)) in *. set (more := negb (bool_decide _)) in *.
  assert (Hdl : blen data = n) by (subst data; blia).
  assert (Hrd : read_fragment6 f =
    Ok (inr (mkFragment (mkHeader6 (key6_of b id nx) ins prv nx) (blen f) off more data))).
  { eapply read_is_frag6; try done; try lia.
    subst more. intros Hmore. destruct fds as [|g fds]; [done|]. cbn [map frags6_ok] in Hrest.
    rewrite Hdl. destruct Hrest as (_ & _ & H8' & _). Z.div_mod_to_equations. lia. }
  exists ((f, mkFragment (mkHeader6 (key6_of b id nx) ins prv nx) (blen f) off more data) :: fds). split_and!.
  - done.
  - cbn [tiles snd fOff fData fMore]. rewrite Hdl. split_and!; try done; try lia.
    subst more. do 2 f_equal. apply bool_decide_ext. split; [apply map_eq_nil|by intros ->].
  - constructor; [|done]. pose proof (if6_bytes _ _ _ _ _ _ _ _ _ Hif) as Hbf.
    pose proof (read_fragment6_spec f Hbf) as Hok. rewrite Hrd in Hok.
    unfold desc6_ok. split_and!; done.
Qed.

(** ** Pushing the fragments of one packet in any order *)
Section Datagram6.
Context (b : list Z) (ins prv nx id : Z) (payload : list Z) (fds : list (list Z * fragment6)) (pre : list Z).
Hypothesis Htiles : tiles payload 0 fds.
Hypothesis Hdesc : Forall (desc6_ok b ins prv nx id) fds.
Hypothesis Hpos : 0 < blen payload.
Hypothesis Hfit : ins + blen payload - 40 <= 65535.
Hypothesis Hins : 40 <= ins ∧ 6 <= prv < ins.
Hypothesis Hpre : bytes_ok pre ∧ blen pre = ins ∧ Z.shiftr (gb pre 0) 4 = 6.

Let k := key6_of b id nx.

(** The entry after the fragments [seen]; [pre] is the prefix of the first to arrive. *)
Definition entry6_of (seen : list (list Z * fragment6)) (now : Z) : datagram6 :=
  mkDatagram6 pre prv nx (map piece_of seen)
    (if existsb is_last seen then blen payload else -1) (existsb is_last seen) now
    (sum_len (map piece_of seen)) (max_packet seen).

Lemma nx_range : 0 <= nx < 256.
Proof.
  destruct fds as [|[f d] l]; [cbn in Htiles; lia|].
  pose proof (Forall_elem _ _ (f, d) Hdesc ltac:(constructor)) as Hd.
  unfold desc6_ok in Hd. destruct Hd as (_ & _ & Hh & [_ _ Hn _ _ _] & _). by rewrite Hh in Hn.
Qed.

Lemma entry6_ok seen rest now : seen ++ rest ≡ₚ fds → datagram6_ok (entry6_of seen now).
Proof.
  intros Hp. destruct Hpre as (P1 & P2 & P3).
  assert (Hd : ∀ fd, fd ∈ fds → bytes_ok (fData (snd fd)) ∧ fOff (snd fd) + blen (fData (snd fd)) <= 65535).
  { intros fd Hfd. pose proof (Forall_elem _ _ _ Hdesc Hfd) as Hd. destruct fd as [f d].
    destruct Hd as (_ & _ & _ & [? _ _ _ ? ?] & _). done. }
  split; cbn; rewrite ?P2; try done; try lia.
  - apply List.Forall_forall. intros q Hq. apply in_map_iff in Hq as (fd & <- & Hin).
    apply list_elem_of_In in Hin. pose proof (seen_in _ _ _ _ Hp Hin) as Hf.
    pose proof (tiles_range _ _ _ _ Htiles Hf). destruct (Hd fd Hf). unfold piece6_ok, pend, piece_of; cbn.
    split_and!; try done; lia.
  - pose proof (seen_disjoint payload fds Htiles _ _ Hp) as Hdj. rewrite map_app in Hdj.
    by apply pairwise_prefix in Hdj.
  - split; [lia|done].
  - apply nx_range.
  - intros ->. lia.
Qed.

Lemma finish6_partial r seen rest now : seen ++ rest ≡ₚ fds → rest ≠ [] →
  finish6 r k (entry6_of seen now) = (r, Ok incomplete).
Proof.
  intros Hp Hne. unfold finish6, entry6_of; cbn [d6HaveLast d6Last d6Pieces].
  destruct (existsb is_last seen); [|done]. cbn [negb]. zdec.
  destruct (cover_seen payload fds Htiles seen rest Hp) as (c & -> & Hc).
  destruct (forallb _ c); [|done]. by destruct Hne; apply Hc.
Qed.

Lemma finish6_complete r seen now : seen ≡ₚ fds →
  ∃ out, finish6 r k (entry6_of seen now) = (dropLocked r k, Ok (mkResult out true true (max_packet seen))) ∧
    assembled6 (entry6_of seen now) out.
Proof.
  intros Hp. assert (Hp' : seen ++ [] ≡ₚ fds) by by rewrite app_nil_r.
  pose proof (entry6_ok seen [] now Hp') as Hok. destruct Hpre as (P1 & P2 & P3).
  destruct (seen_all payload fds Htiles Hpos seen Hp) as [_ Hl].
  destruct (seen_pieces payload fds Htiles _ _ Hp') as [_ Hpe].
  destruct (assemble6_spec (entry6_of seen now) Hok) as (out & Ea & Ha);
    [done|cbn; rewrite Hl, P2; lia|cbn; by rewrite Hl|].
  unfold finish6. rewrite Ea. unfold entry6_of at 1 2 3 4 5 6 7. cbn [d6HaveLast d6Last d6Pieces d6Prefix d6MaxPacket entry6_of].
  rewrite Hl. cbn [negb]. zdec.
  destruct (cover_seen payload fds Htiles seen [] Hp') as (c & -> & Hc). rewrite (proj2 Hc) by done. cbn [negb].
  by exists out.
Qed.

Lemma add_piece6_step r seen x rest now now' :
  seen ++ x :: rest ≡ₚ fds → t_bytes r + blen (fData (snd x)) <= t_maxBytes r →
  add_piece6 r now (snd x) (entry6_of seen now') =
    finish6 (put_entry r k (entry6_of (seen ++ [x]) now) (t_bytes r + blen (fData (snd x)))) k
      (entry6_of (seen ++ [x]) now).
Proof.
  intros Hp Hbud. assert (Hx : x ∈ fds) by (rewrite <- Hp; apply elem_of_app; right; constructor).
  pose proof (Forall_elem _ _ _ Hdesc Hx) as Hdx. unfold desc6_ok in Hdx. destruct x as [f d].
  destruct Hdx as (_ & _ & Hk & _). cbn [fst snd] in *.
  unfold add_piece6. cbv zeta. cbn [d6Pieces entry6_of].
  rewrite (seen_no_overlap payload fds Htiles _ _ _ Hp : existsb (overlapping (fOff d) (fOff d + blen (fData d))) _ = false).
  rewrite (proj2 (Z.ltb_ge _ _)) by lia. rewrite Hk. cbn [h6Key]. fold k.
  set (d' := mkDatagram6 _ _ _ _ _ _ _ _ _).
  assert (d' = entry6_of (seen ++ [(f, d)]) now) as ->; [|done].
  subst d'. unfold entry6_of. cbn [d6Prefix d6PrevNext d6Next d6Last d6HaveLast d6Bytes d6MaxPacket].
  pose proof (tiles_more _ _ _ _ Htiles Hx) as Hm. cbn [snd] in Hm.
  rewrite !existsb_app, map_app. cbn [existsb map]. rewrite sum_len_snoc.
  assert (El : is_last (f, d) = negb (fMore d)) by done. rewrite El.
  f_equal.
  - destruct (existsb is_last seen), (fMore d); cbn; try done; by apply Hm.
  - by destruct (existsb is_last seen), (fMore d).
  - unfold max_packet. by rewrite fold_left_app.
Qed.

Definition waiting6 (r : IPv6) (seen : list (list Z * fragment6)) (tl : Z) : Prop :=
  t_m r !! k = Some (entry6_of seen tl).

Lemma push6_finish (r r0 : IPv6) seen x rest now now' r' res :
  seen ++ x :: rest ≡ₚ fds → t_bytes r0 <= t_bytes r →
  t_bytes r0 + blen (fData (snd x)) <= t_maxBytes r0 →
  add_piece6 r0 now (snd x) (entry6_of seen now') = (r', res) →
  if decide (rest = []) then
    t_m r' !! k = None ∧
    ∃ out, res = Ok (mkResult out true true (max_packet (seen ++ [x]))) ∧
      assembled6 (entry6_of (seen ++ [x]) now) out
  else
    res = Ok incomplete ∧ waiting6 r' (seen ++ [x]) now ∧
    t_bytes r' <= t_bytes r + blen (fData (snd x)).
Proof.
  intros Hp Hle Hbud EA. rewrite (add_piece6_step r0 seen x rest now now') in EA by done.
  assert (Hp' : (seen ++ [x]) ++ rest ≡ₚ fds) by by rewrite <- app_assoc.
  destruct (decide (rest = [])) as [->|Hne].
  - rewrite app_nil_r in Hp'. destruct (finish6_complete (put_entry r0 k (entry6_of (seen ++ [x]) now)
      (t_bytes r0 + blen (fData (snd x)))) (seen ++ [x]) now Hp') as (out & Ef & Ha).
    rewrite Ef in EA. injection EA as <- <-. split; [|by exists out].
    rewrite dropLocked_m. apply lookup_delete_eq.
  - rewrite (finish6_partial _ _ rest) in EA by done. injection EA as <- <-.
    split_and!; [done| |cbn; lia]. apply lookup_insert_eq.
Qed.
End Datagram6.

Fixpoint push6_all (arrivals : list (Z * list Z)) (r : IPv6) : IPv6 * list (Res Result) :=
  match arrivals with
  | [] => (r, [])
  | (now, pkt) :: rest =>
      let '(r, res) := PushInfo6 now pkt r in
      let '(r, out) := push6_all rest r in
      (r, res :: out)
  end.

Section Arrivals6.
Context (b : list Z) (ins prv nx id : Z) (payload : list Z) (fds : list (list Z * fragment6)).
Hypothesis Htiles : tiles payload 0 fds.
Hypothesis Hdesc : Forall (desc6_ok b ins prv nx id) fds.
Hypothesis Hpos : 0 < blen payload.
Hypothesis Hfit : ins + blen payload - 40 <= 65535.
Hypothesis Hins : 40 <= ins ∧ 6 <= prv < ins.
Let k := key6_of b id nx.

(** The prefix an entry can have: that of one of the fragments. *)
Definition prefix_of_frag (pre : list Z) : Prop := ∃ fd, fd ∈ fds ∧ pre = bsub (fst fd) 0 ins.

Lemma prefix_of_frag_ok pre : prefix_of_frag pre → bytes_ok pre ∧ blen pre = ins ∧ Z.shiftr (gb pre 0) 4 = 6.
Proof.
  intros ([f d] & Hin & ->). pose proof (Forall_elem _ _ _ Hdesc Hin) as Hd.
  destruct Hd as (Hb & _ & Hh & [Hf _ _ _ _ _ Hv] & _). rewrite Hh in Hf. cbn in *. split_and!; [auto with go|blia|].
  rewrite gb_bsub by lia. done.
Qed.

(** The first fragment opens the entry, the later ones extend it. *)
Lemma push6_step r seen x rest now tl pre :
  table_wf datagram6_ok r → seen ++ x :: rest ≡ₚ fds →
  t_bytes r + blen (fData (snd x)) <= t_maxBytes r →
  (seen = [] ∧ t_m r !! k = None ∧ Z.of_nat (size (t_m r)) < t_maxEntries r ∧ pre = bsub (fst x) 0 ins ∨
   prefix_of_frag pre ∧ waiting6 b prv nx id payload pre r seen tl ∧ now - tl <= t_ttl r) →
  ∃ r' res, PushInfo6 now (fst x) r = (r', res) ∧ table_wf datagram6_ok r' ∧ same_limits r r' ∧
    prefix_of_frag pre ∧
    if decide (rest = []) then
      t_m r' !! k = None ∧
      ∃ out, res = Ok (mkResult out true true (max_packet (seen ++ [x]))) ∧
        assembled6 (entry6_of prv nx payload pre (seen ++ [x]) now) out
    else
      res = Ok incomplete ∧ waiting6 b prv nx id payload pre r' (seen ++ [x]) now ∧
      t_bytes r' <= t_bytes r + blen (fData (snd x)).
Proof.
  intros Hw Hp Hbud Hwait.
  assert (Hx : x ∈ fds) by (rewrite <- Hp; apply elem_of_app; right; constructor).
  assert (Hpre : prefix_of_frag pre) by (destruct Hwait as [(_ & _ & _ & ->)|[? _]]; [by exists x|done]).
  destruct (prefix_of_frag_ok pre Hpre) as (P1 & P2 & P3).
  pose proof (Forall_elem _ _ _ Hdesc Hx) as Hdx.
  assert (Hxk : bytes_ok (fst x) ∧ read_fragment6 (fst x) = Ok (inr (snd x)) ∧
    fHdr (snd x) = mkHeader6 k ins prv nx ∧ ins <= blen (fst x)).
  { destruct x as [f d]. destruct Hdx as (? & ? & Hh & [Hf _ _ _ _ _] & _). rewrite Hh in Hf. cbn in *.
    split_and!; try done. lia. }
  destruct Hxk as (Hbx & Hrx & Hhx & Hlx).
  destruct (PushInfo6_ok r now (fst x) Hw Hbx) as (G1 & G2 & _).
  destruct (PushInfo6 now (fst x) r) as [r' res] eqn:EP. exists r', res. cbn [fst] in G1, G2.
  split_and!; try done. unfold PushInfo6 in EP. rewrite Hrx in EP. unfold push_fragment6 in EP.
  cbv zeta in EP. destruct (sweepLocked_spec datagram6_ok now r Hw) as (_ & (L1 & L2 & L3) & Hb1 & Hs1 & Hm1).
  set (r1 := sweepLocked r now) in *. clearbody r1.
  rewrite Hhx in EP. cbn [h6Key h6FragOff h6PrevNext h6Next] in EP. rewrite Hm1 in EP.
  destruct Hwait as [(-> & Hnone & Hsize & Hpe)|(_ & Hsome & Httl)].
  - rewrite Hnone in EP. cbn [mbind option_bind] in EP. rewrite (proj2 (Z.leb_gt _ _)) in EP by lia.
    rewrite slice_ok in EP by lia. rewrite <- Hpe in EP.
    refine (push6_finish b ins prv nx id payload fds pre Htiles Hdesc Hpos Hfit Hins (conj P1 (conj P2 P3)) r
      (put_entry r1 k (entry6_of prv nx payload pre [] now) (t_bytes r1)) [] x rest now now r' res Hp _ _ EP); cbn; lia.
  - unfold waiting6 in Hsome. fold k in Hsome. rewrite Hsome in EP.
    cbn [mbind option_bind dg_updated datagram6_Datagram d6Updated entry6_of] in EP.
    rewrite (proj2 (Z.ltb_ge _ _)) in EP by lia. cbn [d6PrevNext d6Prefix entry6_of] in EP.
    rewrite P2, !Z.eqb_refl in EP. cbn [negb orb] in EP.
    refine (push6_finish b ins prv nx id payload fds pre Htiles Hdesc Hpos Hfit Hins (conj P1 (conj P2 P3)) r
      r1 seen x rest now tl r' res Hp _ _ EP); lia.
Qed.

Lemma push6_all_reassembles arrivals todo seen r tl pre :
  map snd arrivals = map fst todo → todo ≠ [] → seen ++ todo ≡ₚ fds →
  table_wf datagram6_ok r →
  (seen = [] ∧ t_m r !! k = None ∧ Z.of_nat (size (t_m r)) < t_maxEntries r ∨
   prefix_of_frag pre ∧ waiting6 b prv nx id payload pre r seen tl) →
  spaced (t_ttl r) tl arrivals → t_bytes r + sum_len (map piece_of todo) <= t_maxBytes r →
  ∃ r' parts out pre' now, push6_all arrivals r =
      (r', parts ++ [Ok (mkResult out true true (max_packet (seen ++ todo)))]) ∧
    Forall (eq (Ok incomplete)) parts ∧ table_wf datagram6_ok r' ∧ t_m r' !! k = None ∧
    prefix_of_frag pre' ∧ assembled6 (entry6_of prv nx payload pre' (seen ++ todo) now) out.
Proof.
  revert todo seen r tl pre. induction arrivals as [|[now pkt] arrivals IH];
    intros todo seen r tl pre Hmap Hne Hp Hw Hwait Hsp Hbud.
  { by destruct todo. }
  destruct todo as [|x todo]; [done|]. cbn [map fst snd] in Hmap. injection Hmap as -> Hmap.
  cbn [spaced] in Hsp. destruct Hsp as [Hn Hsp]. unfold sum_len in Hbud. cbn [map foldr piece_of pdata] in Hbud.
  fold (sum_len (map piece_of todo)) in Hbud. pose proof (sum_len_nonneg (map piece_of todo)).
  assert (Hstep : ∃ pre', (seen = [] ∧ t_m r !! k = None ∧ Z.of_nat (size (t_m r)) < t_maxEntries r ∧
      pre' = bsub (fst x) 0 ins ∨
    prefix_of_frag pre' ∧ waiting6 b prv nx id payload pre' r seen tl ∧ now - tl <= t_ttl r)).
  { destruct Hwait as [(? & ? & ?)|[? ?]]; [exists (bsub (fst x) 0 ins); by left|exists pre; by right]. }
  destruct Hstep as (pre' & Hstep).
  destruct (push6_step r seen x todo now tl pre') as (r1 & res & E & Hw1 & (Q1 & Q2 & Q3) & Hpf & Hcase); try done; try lia.
  cbn [push6_all]. rewrite E.
  assert (Happ : seen ++ x :: todo = (seen ++ [x]) ++ todo) by by rewrite <- app_assoc.
  destruct (decide (todo = [])) as [->|Hne'].
  - destruct Hcase as (Hk & out & -> & Ha). destruct arrivals; [|done]. cbn [push6_all].
    exists r1, [], out, pre', now. split_and!; try done; constructor.
  - destruct Hcase as (-> & Hwait' & Hb').
    destruct (IH todo (seen ++ [x]) r1 now pre') as (r2 & parts & out & pre2 & now2 & -> & Hparts & Hw2 & Hk2 & Hpf2 & Ha);
      try done; rewrite <- ?Happ; try done.
    + by right.
    + by rewrite Q3.
    + lia.
    + exists r2, (Ok incomplete :: parts), out, pre2, now2. rewrite Happ. split_and!; try done. by constructor.
Qed.

Lemma assembled6_restores seen now out pre total :
  bytes_ok b → 40 <= ins <= total → total <= blen b → payload = bsub b ins total → total = 40 + gb16 b 4 →
  gb b prv = nx → (prv = 6 ∨ 40 <= prv) →
  seen ≡ₚ fds → prefix_of_frag pre → assembled6 (entry6_of prv nx payload pre seen now) out →
  out = bsub b 0 total.
Proof.
  intros Hb Hin Htot Hpl Htt Hnx Hp40 Hp Hpre [A1 A2 A3 A4 A5 A6].
  destruct (prefix_of_frag_ok pre Hpre) as (P1 & P2 & P3).
  destruct (seen_all payload fds Htiles Hpos seen Hp) as [_ Hl].
  assert (Hbl : blen payload = total - ins) by (rewrite Hpl; blia).
  cbn [entry6_of d6Prefix d6Last d6PrevNext d6Next d6Pieces] in *. rewrite Hl, P2 in *.
  assert (Hpg : ∀ i, 0 <= i < ins → i ≠ 4 → i ≠ 5 → i ≠ prv → gb pre i = gb b i).
  { destruct Hpre as ([f d] & Hfd & ->). cbn [fst] in *. intros i Hi ???.
    pose proof (Forall_elem _ _ _ Hdesc Hfd) as Hd. destruct Hd as (_ & _ & _ & _ & Hif).
    rewrite gb_bsub by lia. by apply (if6_hdr _ _ _ _ _ _ _ _ _ Hif). }
  assert (H45 : gb16 out 4 = gb16 b 4) by lia.
  assert (gb out 4 = gb b 4 ∧ gb out 5 = gb b 5) as [H4 H5].
  { unfold gb16 in H45. change (4 + 1) with 5 in H45. pose proof (gb_range out 4 A1). pose proof (gb_range out 5 A1).
    pose proof (gb_range b 4 Hb). pose proof (gb_range b 5 Hb). lia. }
  apply bytes_eq; [blia|]. intros i Hi. rewrite A2 in Hi. rewrite gb_bsub by lia. rewrite Z.add_0_l.
  destruct (decide (i = 4)) as [->|]; [done|]. destruct (decide (i = 5)) as [->|]; [done|].
  destruct (decide (i = prv)) as [->|]; [by rewrite A4|].
  destruct (decide (i < ins)); [rewrite A5 by lia; apply Hpg; lia|].
  destruct (tiles_cover _ _ _ (i - ins) Htiles) as (fd & Hfd & Hj); [lia|].
  pose proof (tiles_range _ _ _ _ Htiles Hfd) as Hrg.
  assert (Hs : piece_of fd ∈ map piece_of seen).
  { rewrite <- Hp in Hfd. apply list_elem_of_In, (in_map piece_of), list_elem_of_In, Hfd. }
  specialize (A6 _ (i - ins - fOff (snd fd)) Hs). unfold piece_of in A6; cbn in A6.
  replace (ins + fOff (snd fd) + (i - ins - fOff (snd fd))) with i in A6 by lia.
  rewrite A6 by lia. rewrite (tiles_data _ _ _ _ Htiles Hfd). rewrite gb_bsub by lia. rewrite Hpl.
  rewrite gb_bsub by lia. f_equal. lia.
Qed.
End Arrivals6.

(** C9: IPv6 fragmentation and reassembly are inverse, whatever the order of
    arrival: pushing the fragments [FragmentForMTU] made of a packet, in any order
    (no gap longer than the time to live, room in the table, no older packet under
    the same key), returns "incomplete" for all but the last to arrive and then
    exactly the original packet, cut to its length field. *)
Theorem fragment6_reassemble_roundtrip (b : list Z) (mtu s : Z) (frags : list (list Z))
    (r : IPv6) (t0 : Z) (arrivals : list (Z * list Z)) :
  bytes_ok b → 0 <= s < 4294967296 → Z.shiftr (gb b 0) 4 = 6 →
  snd (FragmentForMTU b mtu s) = Ok (frags, true) →
  map snd arrivals ≡ₚ frags → spaced (t_ttl r) t0 arrivals →
  table_wf datagram6_ok r → (∀ id nx, t_m r !! key6_of b id nx = None) →
  Z.of_nat (size (t_m r)) < t_maxEntries r → t_bytes r + blen b <= t_maxBytes r →
  ∃ r' parts m, push6_all arrivals r =
      (r', parts ++ [Ok (mkResult (bsub b 0 (40 + gb16 b 4)) true true m)]) ∧
    Forall (eq (Ok incomplete)) parts ∧ table_wf datagram6_ok r'.
Proof.
  intros Hb Hs H6 Hfr Hperm Hsp Hw Hno Hsize Hbud.
  assert (Hf : mtu < 40 + gb16 b 4 <= blen b ∧ ∃ ins prv nx id, fragmented6 b mtu ins prv nx id frags).
  { revert Hfr. unfold FragmentForMTU. destruct (Z.ltb_spec mtu 576); [done|].
    destruct (Z.leb_spec (blen b) mtu); [done|]. destruct (Z.ltb_spec (blen b) 1); [done|].
    unfold liftR, mbind, SR_bind. rewrite idx_ok, H6 by lia. cbn [Z.eqb Pos.eqb]. intros Hfr.
    pose proof (fragmentIPv6_spec b mtu s Hb ltac:(lia) Hs) as HF. by rewrite Hfr in HF. }
  destruct Hf as (Htot & ins & prv & nx & id & Hi & Hi16 & Hprv & Hnx & Hp40 & Hch & Hid & Hfs).
  set (total := 40 + gb16 b 4) in *. pose proof (gb16_range b 4 Hb) as Hr16.
  set (payload := bsub b ins total) in *.
  assert (Hpl : blen payload = total - ins) by (subst payload; blia).
  destruct (frags6_describe b ins prv nx id mtu payload 0 frags) as (fds & -> & Ht & Hd);
    try done; try lia; [subst payload; auto with go|].
  apply Permutation_map_inv in Hperm as (fds' & Hmap & Hp).
  destruct (push6_all_reassembles b ins prv nx id payload fds Ht Hd ltac:(lia) ltac:(lia) ltac:(lia)
    arrivals fds' [] r t0 []) as (r' & parts & out & pre & now & Ep & Hparts & Hw' & _ & Hpf & Ha); try done.
  - intros ->. apply Permutation_sym, Permutation_nil in Hp. subst. cbn in Ht. lia.
  - by left.
  - rewrite <- (sum_len_perm _ _ (Permutation_map piece_of Hp)), (tiles_sum _ _ _ Ht). lia.
  - rewrite (assembled6_restores b ins prv nx id payload fds Ht Hd ltac:(lia) ltac:(lia) fds' now out pre total) in Ep;
      try done; try lia. by exists r', parts, (max_packet fds').
Qed.

(** A 1040-byte UDP packet behind a Hop-by-Hop header. *)
Definition big_udp6 : list Z :=
  [0x60; 0; 0; 0; 3; 0xe8; 0; 64] ++ replicate 16 1 ++ replicate 16 2
  ++ [17; 0; 1; 4; 0; 0; 0; 0] ++ replicate 992 7.
Definition two_frags (r : Res (list (list Z) * bool)) : bool :=
  match r with Ok ([_; _], true) => true | _ => false end.

(** Its two fragments, the last one first. *)
Lemma fragment6_reassemble_roundtrip_witness :
  ∃ f1 f2 r' parts m, snd (FragmentForMTU big_udp6 576 7) = Ok ([f1; f2], true) ∧
    push6_all [(5, f2); (9, f1)] NewIPv6 = (r', parts ++ [Ok (mkResult (bsub big_udp6 0 1040) true true m)]).
Proof.
  assert (Hc : two_frags (snd (FragmentForMTU big_udp6 576 7)) = true) by (vm_compute; reflexivity).
  destruct (snd (FragmentForMTU big_udp6 576 7)) as [[[|f1 [|f2 [|]]] []]| | |] eqn:E; try discriminate Hc.
  destruct (fragment6_reassemble_roundtrip big_udp6 576 7 [f1; f2] NewIPv6 0 [(5, f2); (9, f1)])
    as (r' & parts & m & Hp & _).
  - apply bytes_okb_ok. vm_compute. reflexivity.
  - lia.
  - vm_compute. reflexivity.
  - exact E.
  - apply perm_swap.
  - cbn. lia.
  - apply NewTable_wf.
  - intros id nx. apply lookup_empty.
  - cbn. rewrite map_size_empty. lia.
  - change (t_bytes NewIPv6 + blen big_udp6 <= t_maxBytes NewIPv6) with (0 + blen big_udp6 <= 16777216).
    assert (blen big_udp6 = 1040) as -> by (vm_compute; reflexivity). lia.
  - exists f1, f2, r', parts, m. split; [reflexivity|]. exact Hp.
Defined.

(** ** Reachable tables *)
Inductive reachable6 : IPv6 → Prop :=
  | reach6_new : reachable6 NewIPv6
  | reach6_push r now pkt : reachable6 r → bytes_ok pkt → reachable6 (fst (PushInfo6 now pkt r))
  | reach6_sweep r now : reachable6 r → reachable6 (fst (Sweep6 now r))
  | reach6_take r : reachable6 r → reachable6 (fst (TakeExpired r)).

Lemma reachable6_wf r : reachable6 r →
  table_wf datagram6_ok r ∧ t_maxBytes r = 16777216 ∧ t_maxEntries r = 1024 ∧ t_ttl r = 30000000000.
Proof.
  induction 1 as [|r now pkt Hr (Hw & IH) Hb|r now Hr (Hw & IH)|r Hr (Hw & IH)].
  - split; [apply NewTable_wf|done].
  - destruct (PushInfo6_ok r now pkt Hw Hb) as (Hw' & (L1 & L2 & L3) & _). rewrite L1, L2, L3. done.
  - destruct (sweepLocked_spec datagram6_ok now r Hw) as (Hw' & (L1 & L2 & L3) & _).
    unfold Sweep6; cbn [fst]. rewrite L1, L2, L3. done.
  - destruct Hw. split; [split|]; done.
Qed.

(** C36: In every reachable state of the IPv6 reassembler at most 1024 packets
    and 16 MiB of payload are held, the byte counter is exactly the sum over the
    packets, pieces do not overlap, and whatever packet arrives next, the push
    returns without a panic; what it hands out after reassembly fits an IPv6
    length field. *)
Theorem IPv6_bounded (r : IPv6) (now : Z) (pkt : list Z) :
  reachable6 r → bytes_ok pkt →
  t_bytes r = total_bytes (t_m r) ∧ 0 <= t_bytes r <= 16777216 ∧ Z.of_nat (size (t_m r)) <= 1024 ∧
  (∀ k d, t_m r !! k = Some d → d6Bytes d = sum_len (d6Pieces d) ∧ pairwise_disjoint (d6Pieces d)) ∧
  match snd (PushInfo6 now pkt r) with
  | Ok res => rReady res = true → rFragmented res = true → 40 <= blen (rPacket res) <= 65575
  | Err _ => True
  | _ => False
  end.
Proof.
  intros Hr Hb. destruct (reachable6_wf r Hr) as (Hw & Hm & He & _).
  destruct (PushInfo6_ok r now pkt Hw Hb) as (_ & _ & Hres). destruct Hw as [W1 W2 W3 W4 W5].
  pose proof (total_bytes_nonneg _ W4). split_and!; try lia.
  - intros k d Hk. pose proof (W5 k d Hk) as Hd. cbv beta in Hd. split; apply Hd.
  - destruct (snd (PushInfo6 now pkt r)) as [res| | |]; try done. intros Ha Hf. by destruct (Hres Ha Hf).
Qed.

(** An empty final fragment: offset 8, no more fragments, no payload. *)
Definition empty_final : list Z :=
  [0x60; 0; 0; 0; 0; 8; 44; 64] ++ replicate 16 1 ++ replicate 16 2 ++ [17; 0; 0; 8; 0; 0; 0; 9].

Lemma empty_final_ok : bytes_ok empty_final.
Proof. apply bytes_okb_ok. vm_compute. reflexivity. Qed.

Lemma IPv6_bounded_witness :
  0 <= t_bytes (fst (PushInfo6 5 empty_final NewIPv6)) <= 16777216.
Proof.
  exact (proj1 (proj2 (IPv6_bounded (fst (PushInfo6 5 empty_final NewIPv6)) 6 empty_final
    (reach6_push _ _ _ reach6_new empty_final_ok) empty_final_ok))).
Defined.

(** The table that holds [n] copies of that fragment. *)
Definition empties (n : nat) : datagram6 :=
  mkDatagram6 (bsub empty_final 0 40) 6 17 (replicate n (mkPiece 8 [])) 8 true 0 0 48.
Definition empties_table (n : nat) : IPv6 :=
  mkTable {[ key6_of empty_final 9 17 := empties n ]} 1024 16777216 0 30000000000 0.

Lemma replicate_snoc_same {A} n (x : A) : replicate n x ++ [x] = replicate (S n) x.
Proof. induction n as [|n IH]; [done|]. cbn. by rewrite IH. Qed.

Lemma cover_empties n c : blen c = 8 → cover (replicate n (mkPiece 8 [])) 8 c = Ok (Some c).
Proof. intros Hc. induction n as [|n IH]; [done|]. exact IH. Qed.

Definition empty_desc : fragment6 :=
  mkFragment (mkHeader6 (key6_of empty_final 9 17) 40 6 17) 48 8 false [].
Lemma read_empty_final : read_fragment6 empty_final = Ok (inr empty_desc).
Proof. vm_compute. reflexivity. Qed.

(** One more copy of the fragment on an entry that has [n]. *)
Lemma add_empty (r : IPv6) last have maxp n :
  t_bytes r = 0 → t_maxBytes r = 16777216 → maxp <= 48 →
  add_piece6 r 0 empty_desc (mkDatagram6 (bsub empty_final 0 40) 6 17 (replicate n (mkPiece 8 [])) last have 0 0 maxp)
  = (put_entry r (key6_of empty_final 9 17) (empties (S n)) 0, Ok incomplete).
Proof.
  intros Hb Hm Hp. unfold add_piece6, empty_desc. cbv zeta. cbn [fHdr h6Key fOff fData fMore fTotal negb].
  cbn [d6Pieces d6Prefix d6PrevNext d6Next d6Last d6HaveLast d6Bytes d6MaxPacket].
  change (8 + blen (@nil Z)) with 8. rewrite Hb, Hm. change (0 + blen (@nil Z)) with 0.
  assert (existsb (overlapping 8 8) (replicate n (mkPiece 8 [])) = false) as ->.
  { induction n as [|n IH]; [done|]. exact IH. }
  change (16777216 <? 0) with false. cbv beta iota. rewrite replicate_snoc_same.
  replace (if maxp <? 48 then 48 else maxp) with 48 by (destruct (Z.ltb_spec maxp 48); lia).
  fold (empties (S n)). unfold finish6. cbn [empties d6HaveLast negb d6Last d6Pieces].
  change (8 <? 0) with false. cbv beta iota. rewrite cover_empties by done. done.
Qed.

Lemma push_first_empty : fst (PushInfo6 0 empty_final NewIPv6) = empties_table 1.
Proof.
  unfold PushInfo6. rewrite read_empty_final. unfold push_fragment6. cbv zeta.
  assert (sweepLocked NewIPv6 0 = NewIPv6) as ->
    by (unfold sweepLocked, NewIPv6, NewTable; cbn [t_m]; by rewrite map_to_list_empty).
  cbn [empty_desc fHdr h6Key h6FragOff h6PrevNext h6Next NewIPv6 NewTable t_m t_maxEntries t_bytes].
  rewrite lookup_empty, map_size_empty. change (1024 <=? Z.of_nat 0) with false. cbv beta iota.
  rewrite slice_ok by (vm_compute; congruence).
  rewrite (add_empty _ (-1) false 0 0) by done.
  unfold put_entry, empties_table. cbn [fst t_m t_maxEntries t_maxBytes t_ttl t_expired].
  by rewrite insert_insert_eq.
Qed.

Lemma push_empty n : fst (PushInfo6 0 empty_final (empties_table n)) = empties_table (S n).
Proof.
  unfold PushInfo6. rewrite read_empty_final. unfold push_fragment6. cbv zeta.
  assert (sweepLocked (empties_table n) 0 = empties_table n) as ->
    by (unfold sweepLocked, empties_table; cbn [t_m]; by rewrite map_to_list_singleton).
  cbn [empty_desc fHdr h6Key h6FragOff h6PrevNext h6Next].
  assert (t_m (empties_table n) !! key6_of empty_final 9 17 = Some (empties n)) as -> by apply lookup_singleton_eq.
  change (negb (d6PrevNext (empties n) =? _) || _) with false. cbv beta iota.
  rewrite (add_empty _ 8 true 48 n) by done.
  unfold put_entry, empties_table. cbn [fst t_m t_maxEntries t_maxBytes t_ttl t_expired].
  by rewrite insert_singleton_eq.
Qed.

(** The limits of the IPv6 reassembler do not bound its memory: an empty
    final fragment is stored without being counted, so that for every [n] a
    reachable table with a byte counter of zero holds one packet with more than
    [n] pieces.  (Every such fragment also renews the packet's time to live.) *)
Theorem IPv6_empty_fragments_unbounded (n : nat) :
  reachable6 (empties_table (S n)) ∧ t_bytes (empties_table (S n)) = 0 ∧
  t_m (empties_table (S n)) !! key6_of empty_final 9 17 = Some (empties (S n)) ∧
  length (d6Pieces (empties (S n))) = S n.
Proof.
  split_and!; [|done|apply lookup_singleton_eq|cbn; by rewrite length_replicate].
  induction n as [|n IH].
  - rewrite <- push_first_empty. apply reach6_push; [constructor|apply empty_final_ok].
  - rewrite <- push_empty. apply reach6_push; [exact IH|apply empty_final_ok].
Qed.
