(* ===== verification/NatMapper.v ===== *)
(** * Address translation: [internal/nat/nat.go]

    [byOut] and [byReply] hold pointers to shared [mapping] objects: the model
    keeps the objects in a heap [gmap nat mapping] and the two maps hold
    locations, so that an update of [Seen] or [Meta] through one map is seen
    through the other.  Functions that rewrite the packet return it beside the
    result, also when they fail half way.  [time.Now()] is the argument [now]. *)

From S2P Require Import Prelude Netip Packet.
Local Open Scope Z_scope.

Record Meta : Type := mkMeta { IfIdx : Z; SubIfIdx : Z }.
Definition Meta0 : Meta := mkMeta 0 0.

Record outboundKey : Type := mkOut {
  oProto : Z; oLocal : Addr; oRemote : Addr; oLocalPort : Z; oRemotePort : Z
}.
Record replyKey : Type := mkReply {
  rProto : Z; rRemote : Addr; rTunnel : Addr; rRemotePort : Z; rTunnelPort : Z
}.
#[export] Instance outboundKey_eq_dec : EqDecision outboundKey.
Proof. solve_decision. Defined.
#[export] Program Instance outboundKey_countable : Countable outboundKey :=
  inj_countable (fun k => (oProto k, oLocal k, oRemote k, oLocalPort k, oRemotePort k))
    (fun '(p, l, r, lp, rp) => Some (mkOut p l r lp rp)) _.
Next Obligation. by intros []. Qed.
#[export] Instance replyKey_eq_dec : EqDecision replyKey.
Proof. solve_decision. Defined.
#[export] Program Instance replyKey_countable : Countable replyKey :=
  inj_countable (fun k => (rProto k, rRemote k, rTunnel k, rRemotePort k, rTunnelPort k))
    (fun '(p, r, t, rp, tp) => Some (mkReply p r t rp tp)) _.
Next Obligation. by intros []. Qed.

Record mapping : Type := mkMapping {
  mpLocal : Addr; mpPort : Z; mpTunnelPort : Z; mpMeta : Meta; mpSeen : Z
}.

Record Mapper : Type := mkMapper {
  m_v4 : Addr;
  m_v6 : Addr;
  m_byOut : gmap outboundKey nat;
  m_byReply : gmap replyKey nat;
  m_next : Z;
  m_heap : gmap nat mapping;
  m_fresh : nat
}.

Definition New (v4 v6 : Addr) : Mapper := mkMapper v4 v6 ∅ ∅ 40000 ∅ 0%nat.

Definition set_next (m : Mapper) (n : Z) : Mapper :=
  mkMapper (m_v4 m) (m_v6 m) (m_byOut m) (m_byReply m) n (m_heap m) (m_fresh m).
Definition set_object (m : Mapper) (l : nat) (mp : mapping) : Mapper :=
  mkMapper (m_v4 m) (m_v6 m) (m_byOut m) (m_byReply m) (m_next m) (<[l := mp]> (m_heap m)) (m_fresh m).
(** A new object, entered in both maps. *)
Definition add_mapping (m : Mapper) (ok : outboundKey) (rk : replyKey) (mp : mapping) : Mapper :=
  mkMapper (m_v4 m) (m_v6 m) (<[ok := m_fresh m]> (m_byOut m)) (<[rk := m_fresh m]> (m_byReply m))
    (m_next m) (<[m_fresh m := mp]> (m_heap m)) (S (m_fresh m)).

Definition touch (mp : mapping) (now : Z) : mapping :=
  mkMapping (mpLocal mp) (mpPort mp) (mpTunnelPort mp) (mpMeta mp) now.
Definition with_meta (mp : mapping) (meta : Meta) : mapping :=
  mkMapping (mpLocal mp) (mpPort mp) (mpTunnelPort mp) meta (mpSeen mp).

(** [tun := m.v6; if addr.Is4() { tun = m.v4 }] *)
Definition tunnel_for (m : Mapper) (a : Addr) : Addr := if Is4 a then m_v4 m else m_v6 m.

Definition with_port (rk : replyKey) (tp : Z) : replyKey :=
  mkReply (rProto rk) (rRemote rk) (rTunnel rk) (rRemotePort rk) tp.

(** The search for a free tunnel port: [n] iterations left. *)
Fixpoint search_port (n : nat) (byReply : gmap replyKey nat) (rk : replyKey) (next : Z)
    : Z * option Z :=
  match n with
  | O => (next, None)
  | S n =>
      let tp := next in
      let next := u16 (next + 1) in
      let next := if 60999 <? next then 40000 else next in
      match byReply !! with_port rk tp with
      | None => (next, Some tp)
      | Some _ => search_port n byReply rk next
      end
  end.

(** After the lock: the packet leaves with the tunnel address and port of [mp]. *)
Definition translate_out (raw : list Z) (p : Packet) (tun : Addr) (meta : Meta)
    (m : Mapper) (mp : mapping) : Mapper * list Z * Res Meta :=
  match RewriteSrc raw tun with
  | Ok raw1 =>
      if negb (mpTunnelPort mp =? pSrcPort p) then
        match RewriteSrcPort raw1 (mpTunnelPort mp) with
        | Ok raw2 => (m, raw2, Ok meta)
        | Err e => (m, raw1, Err e)
        | Panic => (m, raw1, Panic)
        | OutOfFuel => (m, raw1, OutOfFuel)
        end
      else (m, raw1, Ok meta)
  | Err e => (m, raw, Err e)
  | Panic => (m, raw, Panic)
  | OutOfFuel => (m, raw, OutOfFuel)
  end.

Definition PrepareOutbound (now : Z) (m : Mapper) (raw : list Z) (meta : Meta)
    : Mapper * list Z * Res Meta :=
  match Parse raw with
  | Ok p =>
      if negb (pProtocol p =? ProtoTCP) && negb (pProtocol p =? ProtoUDP)
      then (m, raw, Err "unsupported protocol") else
      let tun := tunnel_for m (pSrc p) in
      if negb (IsValid tun) then (m, raw, Err "no tunnel address") else
      let okey := mkOut (pProtocol p) (pSrc p) (pDst p) (pSrcPort p) (pDstPort p) in
      let enter (m : Mapper) (tp : Z) (rkey : replyKey) :=
        let mp := mkMapping (pSrc p) (pSrcPort p) tp meta now in
        translate_out raw p tun meta (add_mapping m okey rkey mp) mp in
      match m_byOut m !! okey with
      | None =>
          let tp := pSrcPort p in
          let rkey := mkReply (pProtocol p) (pDst p) tun (pDstPort p) tp in
          match m_byReply m !! rkey with
          | Some _ =>
              match search_port (Z.to_nat 21000) (m_byReply m) rkey (m_next m) with
              | (next, None) => (set_next m next, raw, Err "no free tunnel-side source port")
              | (next, Some tp) => enter (set_next m next) tp (with_port rkey tp)
              end
          | None => enter m tp rkey
          end
      | Some l =>
          match m_heap m !! l with
          | Some mp =>
              let mp := with_meta (touch mp now) meta in
              translate_out raw p tun meta (set_object m l mp) mp
          | None => (m, raw, Panic)
          end
      end
  | Err e => (m, raw, Err e)
  | Panic => (m, raw, Panic)
  | OutOfFuel => (m, raw, OutOfFuel)
  end.

Definition RestoreInbound (now : Z) (m : Mapper) (raw : list Z)
    : Mapper * list Z * Res (Meta * bool) :=
  match Parse raw with
  | Ok p =>
      if negb (pProtocol p =? ProtoTCP) && negb (pProtocol p =? ProtoUDP)
      then (m, raw, Ok (Meta0, false)) else
      let key := mkReply (pProtocol p) (pSrc p) (pDst p) (pSrcPort p) (pDstPort p) in
      match m_byReply m !! key with
      | None => (m, raw, Ok (Meta0, false))
      | Some l =>
          match m_heap m !! l with
          | None => (m, raw, Panic)
          | Some mp =>
              let m := set_object m l (touch mp now) in
              match RewriteDst raw (mpLocal mp) with
              | Ok raw1 =>
                  if negb (pDstPort p =? mpPort mp) then
                    match RewriteDstPort raw1 (mpPort mp) with
                    | Ok raw2 => (m, raw2, Ok (mpMeta mp, true))
                    | Err e => (m, raw1, Err e)
                    | Panic => (m, raw1, Panic)
                    | OutOfFuel => (m, raw1, OutOfFuel)
                    end
                  else (m, raw1, Ok (mpMeta mp, true))
              | Err e => (m, raw, Err e)
              | Panic => (m, raw, Panic)
              | OutOfFuel => (m, raw, OutOfFuel)
              end
          end
      end
  | Err e => (m, raw, Err e)
  | Panic => (m, raw, Panic)
  | OutOfFuel => (m, raw, OutOfFuel)
  end.

(** The reply key of an outbound key with tunnel port [tp]. *)
Definition reply_of (m : Mapper) (k : outboundKey) (tp : Z) : replyKey :=
  mkReply (oProto k) (oRemote k) (tunnel_for m (oLocal k)) (oRemotePort k) tp.

Definition sweep_step (cut : Z) (m : Mapper) (kl : outboundKey * nat) : Mapper :=
  match m_heap m !! snd kl with
  | Some mp =>
      if mpSeen mp <? cut then
        mkMapper (m_v4 m) (m_v6 m) (delete (fst kl) (m_byOut m))
          (delete (reply_of m (fst kl) (mpTunnelPort mp)) (m_byReply m))
          (m_next m) (m_heap m) (m_fresh m)
      else m
  | None => m
  end.
Definition Sweep (now age : Z) (m : Mapper) : Mapper :=
  fold_left (sweep_step (now - age)) (map_to_list (m_byOut m)) m.

(** ** The invariant: outbound keys and reply keys are in bijection *)
Definition same_family (a b : Addr) : Prop := Is4 a = Is4 b ∧ Is6 a = Is6 b.

Record mapping_ok (mp : mapping) : Prop := {
  mo_local : Addr_ok (mpLocal mp);
  mo_port : 0 <= mpPort mp < 65536;
  mo_tport : 0 <= mpTunnelPort mp < 65536;
  mo_choice : mpTunnelPort mp = mpPort mp ∨ 40000 <= mpTunnelPort mp <= 60999
}.

Record nat_wf (m : Mapper) : Prop := {
  nw_out : ∀ k l, m_byOut m !! k = Some l →
    ∃ mp, m_heap m !! l = Some mp ∧ mpLocal mp = oLocal k ∧ mpPort mp = oLocalPort k ∧
          m_byReply m !! reply_of m k (mpTunnelPort mp) = Some l;
  nw_reply : ∀ rk l, m_byReply m !! rk = Some l →
    ∃ k mp, m_byOut m !! k = Some l ∧ m_heap m !! l = Some mp ∧ rk = reply_of m k (mpTunnelPort mp);
  nw_inj : ∀ k1 k2 l, m_byOut m !! k1 = Some l → m_byOut m !! k2 = Some l → k1 = k2;
  nw_heap : ∀ l mp, m_heap m !! l = Some mp → (l < m_fresh m)%nat ∧ mapping_ok mp;
  nw_family : ∀ k l, m_byOut m !! k = Some l → same_family (oLocal k) (oRemote k);
  nw_next : 40000 <= m_next m <= 60999
}.

Lemma New_wf v4 v6 : nat_wf (New v4 v6).
Proof. split; cbn; intros; rewrite ?lookup_empty in *; try done; lia. Qed.

(** The ports the code may hand out: the flow's own, else one of the pool. *)
Definition port_choice (own tp : Z) : Prop := tp = own ∨ 40000 <= tp <= 60999.
Lemma nat_wf_port m k l : nat_wf m → m_byOut m !! k = Some l →
  ∃ mp, m_heap m !! l = Some mp ∧ mpLocal mp = oLocal k ∧ mpPort mp = oLocalPort k ∧
    m_byReply m !! reply_of m k (mpTunnelPort mp) = Some l ∧ 0 <= mpTunnelPort mp < 65536 ∧ port_choice (oLocalPort k) (mpTunnelPort mp).
Proof.
  intros Hw Hk. destruct (nw_out m Hw k l Hk) as (mp & Hl & E1 & E2 & E3). destruct (nw_heap m Hw l mp Hl) as [_ [_ _ Hp Hc]].
  exists mp. unfold port_choice. by rewrite <- E2.
Qed.

(** Two flows never share a reply key. *)
Lemma nat_wf_separate m k1 k2 l1 l2 mp1 mp2 :
  nat_wf m → m_byOut m !! k1 = Some l1 → m_byOut m !! k2 = Some l2 →
  m_heap m !! l1 = Some mp1 → m_heap m !! l2 = Some mp2 →
  reply_of m k1 (mpTunnelPort mp1) = reply_of m k2 (mpTunnelPort mp2) → k1 = k2.
Proof.
  intros Hw H1 H2 G1 G2 E.
  destruct (nw_out m Hw _ _ H1) as (a1 & A1 & _ & _ & B1).
  destruct (nw_out m Hw _ _ H2) as (a2 & A2 & _ & _ & B2).
  assert (a1 = mp1) as -> by congruence. assert (a2 = mp2) as -> by congruence.
  assert (l1 = l2) as -> by congruence. by apply (nw_inj m Hw _ _ l2).
Qed.

(** *** The port search *)
Definition nth_port (next : Z) (i : Z) : Z := 40000 + (next - 40000 + i) `mod` 21000.

Lemma search_port_spec n byReply rk next :
  40000 <= next <= 60999 →
  let '(next', res) := search_port n byReply rk next in
  40000 <= next' <= 60999 ∧
  match res with
  | Some tp => 40000 <= tp <= 60999 ∧ byReply !! with_port rk tp = None
  | None => ∀ i, 0 <= i < Z.of_nat n → byReply !! with_port rk (nth_port next i) ≠ None
  end.
Proof.
  revert next. induction n as [|n IH]; intros next Hn; cbn [search_port].
  { split; [done|]. lia. }
  cbv zeta. rewrite u16_small by lia.
  set (nx := if 60999 <? next + 1 then 40000 else next + 1).
  assert (Hnx : 40000 <= nx <= 60999 ∧ nx = nth_port next 1).
  { unfold nth_port. subst nx. destruct (Z.ltb_spec 60999 (next + 1)).
    - assert (next = 60999) as -> by lia. done.
    - rewrite Z.mod_small by lia. lia. }
  destruct Hnx as [Hnx Enx]. clearbody nx.
  destruct (byReply !! with_port rk next) as [l|] eqn:E; [|split; [lia|]; split; [lia|done]].
  specialize (IH nx Hnx). destruct (search_port n byReply rk nx) as [next' [tp|]]; [done|].
  destruct IH as [I1 I2]. split; [done|]. intros i Hi. destruct (decide (i = 0)) as [->|].
  - unfold nth_port. rewrite Z.mod_small by lia. replace (40000 + _) with next by lia. by rewrite E.
  - specialize (I2 (i - 1) ltac:(lia)). replace (nth_port next i) with (nth_port nx (i - 1)); [done|].
    rewrite Enx. unfold nth_port. f_equal.
    replace (40000 + (next - 40000 + 1) `mod` 21000 - 40000 + (i - 1))
      with ((next - 40000 + 1) `mod` 21000 + (i - 1)) by lia.
    rewrite Z.add_mod_idemp_l by lia. f_equal. lia.
Qed.

(** A failed search has tried every port of the range. *)
Lemma search_port_exhausts byReply rk next next' tp :
  40000 <= next <= 60999 → search_port (Z.to_nat 21000) byReply rk next = (next', None) →
  40000 <= tp <= 60999 → byReply !! with_port rk tp ≠ None.
Proof.
  intros Hn E Htp. pose proof (search_port_spec (Z.to_nat 21000) byReply rk next Hn) as H.
  rewrite E in H. destruct H as [_ H]. specialize (H ((tp - next) `mod` 21000)).
  rewrite Z2Nat.id in H by lia. specialize (H (Z.mod_pos_bound (tp - next) 21000 ltac:(lia))).
  replace (nth_port next ((tp - next) `mod` 21000)) with tp in H; [done|].
  unfold nth_port. rewrite Z.add_mod_idemp_r by lia.
  replace (next - 40000 + (tp - next)) with (tp - 40000) by lia. rewrite Z.mod_small by lia. lia.
Qed.

(** *** Preservation *)
Definition same_binding (mp mp' : mapping) : Prop :=
  mpLocal mp' = mpLocal mp ∧ mpPort mp' = mpPort mp ∧ mpTunnelPort mp' = mpTunnelPort mp.

Lemma set_object_wf m l mp mp' :
  nat_wf m → m_heap m !! l = Some mp → same_binding mp mp' → nat_wf (set_object m l mp').
Proof.
  intros [W1 W2 W3 W4 W5 W6] Hl (S1 & S2 & S3).
  assert (Hlk : ∀ l0 x, m_heap m !! l0 = Some x →
    ∃ y, m_heap (set_object m l mp') !! l0 = Some y ∧ same_binding x y).
  { intros l0 x Hx. cbn. destruct (decide (l = l0)) as [<-|Hne].
    - rewrite lookup_insert_eq. exists mp'. split; [done|]. by assert (x = mp) as -> by congruence.
    - rewrite lookup_insert_ne by done. by exists x. }
  split; try done.
  - intros k l0 Hk. destruct (W1 k l0 Hk) as (x & Hx & E1 & E2 & E3).
    destruct (Hlk l0 x Hx) as (y & Hy & Y1 & Y2 & Y3). exists y. rewrite Y1, Y2, Y3. done.
  - intros rk l0 Hk. destruct (W2 rk l0 Hk) as (k & x & H1 & Hx & E).
    destruct (Hlk l0 x Hx) as (y & Hy & Y1 & Y2 & Y3). exists k, y. rewrite Y3. done.
  - intros l0 x. cbn. destruct (decide (l = l0)) as [<-|Hne].
    + rewrite lookup_insert_eq. intros [= <-]. destruct (W4 l mp Hl) as [? [? ? ? ?]].
      split; [done|]. split; rewrite ?S1, ?S2, ?S3; done.
    + rewrite lookup_insert_ne by done. apply W4.
Qed.

Lemma set_next_wf m n : nat_wf m → 40000 <= n <= 60999 → nat_wf (set_next m n).
Proof. intros [] Hn. split; done. Qed.

Lemma add_mapping_wf m k mp :
  nat_wf m → m_byOut m !! k = None → m_byReply m !! reply_of m k (mpTunnelPort mp) = None →
  mpLocal mp = oLocal k → mpPort mp = oLocalPort k → mapping_ok mp →
  same_family (oLocal k) (oRemote k) →
  nat_wf (add_mapping m k (reply_of m k (mpTunnelPort mp)) mp).
Proof.
  intros [W1 W2 W3 W4 W5 W6] Hk Hr El Ep Hok Hf.
  assert (Hold : ∀ l x, m_heap m !! l = Some x → <[m_fresh m := mp]> (m_heap m) !! l = Some x).
  { intros l x Hx. destruct (W4 l x Hx). rewrite lookup_insert_ne by lia. done. }
  assert (Hnew : ∀ k0 l, m_byOut m !! k0 = Some l → l ≠ m_fresh m).
  { intros k0 l Hl ->. destruct (W1 _ _ Hl) as (x & Hx & _). destruct (W4 _ _ Hx). lia. }
  split; cbn; try done.
  - intros k0 l. destruct (decide (k = k0)) as [<-|Hne].
    + rewrite lookup_insert_eq. intros [= <-]. exists mp. rewrite !lookup_insert_eq. done.
    + rewrite lookup_insert_ne by done. intros Hl. destruct (W1 _ _ Hl) as (x & Hx & E1 & E2 & E3).
      exists x. split_and!; [by apply Hold|done..|]. unfold reply_of, tunnel_for in *; cbn.
      rewrite lookup_insert_ne; [done|]. intros E. rewrite E in Hr. congruence.
  - intros rk l. destruct (decide (reply_of m k (mpTunnelPort mp) = rk)) as [<-|Hne].
    + rewrite lookup_insert_eq. intros [= <-]. exists k, mp. by rewrite !lookup_insert_eq.
    + rewrite lookup_insert_ne by done. intros Hl. destruct (W2 _ _ Hl) as (k0 & x & H1 & Hx & E).
      exists k0, x. rewrite lookup_insert_ne by congruence. split_and!; [done|by apply Hold|done].
  - intros k1 k2 l. destruct (decide (k = k1)) as [<-|N1], (decide (k = k2)) as [<-|N2];
      rewrite ?lookup_insert_eq, ?lookup_insert_ne by done; try done.
    + intros [= <-] H2. by apply Hnew in H2.
    + intros H1 [= <-]. by apply Hnew in H1.
    + apply W3.
  - intros l x. destruct (decide (m_fresh m = l)) as [<-|Hne].
    + rewrite lookup_insert_eq. intros [= <-]. split; [lia|done].
    + rewrite lookup_insert_ne by done. intros Hx. destruct (W4 _ _ Hx). split; [lia|done].
  - intros k0 l. destruct (decide (k = k0)) as [<-|Hne]; [done|]. rewrite lookup_insert_ne by done. apply W5.
Qed.

(** ** Outbound packets *)
Definition out_key (p : Packet) : outboundKey :=
  mkOut (pProtocol p) (pSrc p) (pDst p) (pSrcPort p) (pDstPort p).

(** The translation is in force for [k]: packets of the flow leave with tunnel port [tp]. *)
Definition bound (m : Mapper) (k : outboundKey) (tp : Z) (meta : Meta) : Prop :=
  ∃ l mp, m_byOut m !! k = Some l ∧ m_heap m !! l = Some mp ∧ mpTunnelPort mp = tp ∧ mpMeta mp = meta.

Lemma Packet_same_family b p : Packet_ok b p → same_family (pSrc p) (pDst p).
Proof.
  intros Hok. destruct (Packet_ok_fields b p Hok) as (-> & -> & _).
  destruct (Packet_version b p Hok) as [E|E]; rewrite E; done.
Qed.

(** The packet the code sends: source address and port replaced. *)
Lemma rewrite_out raw p tun tp :
  bytes_ok raw → Parse raw = Ok p → transport p = true → Addr_ok tun →
  family_ok (pVersion p) tun = true → 0 <= tp < 65536 →
  ∃ raw1, RewriteSrc raw tun = Ok raw1 ∧ bytes_ok raw1 ∧ Parse raw1 = Ok (with_src p tun) ∧
    (if negb (tp =? pSrcPort p) then
       match RewriteSrcPort raw1 tp with
       | Ok raw2 => bytes_ok raw2 ∧
           (has_ports p = true → Parse raw2 = Ok (with_ports (with_src p tun) tp (pDstPort p)))
       | Err _ => has_ports p = false
       | _ => False
       end
     else True).
Proof.
  intros Hb HP Ht Ha Hf Htp. pose proof (Parse_Ok raw p Hb HP) as Hok.
  pose proof (RewriteSrc_spec raw tun p Hb Ha HP) as H1. rewrite Hf in H1. destruct H1 as [E1 P1].
  assert (Hab : bytes_ok (addr_bytes tun)) by (destruct tun; [constructor|apply Ha..]).
  assert (Hb1 : bytes_ok (bcopy raw (src_off (pVersion p)) (addr_bytes tun))) by auto with go.
  eexists. split_and!; [done..|]. destruct (negb _); [|done].
  pose proof (RewriteSrcPort_spec _ tp _ Hb1 Htp P1) as H2.
  replace (transport (with_src p tun)) with true in H2 by (rewrite <- Ht; done).
  replace (has_ports (with_src p tun)) with (has_ports p) in H2 by done.
  destruct (Z.leb_spec (pL4 (with_src p tun) + 2) (blen (bcopy raw (src_off (pVersion p)) (addr_bytes tun)))) as [Hl|Hl].
  - destruct H2 as [-> H2]. split; [auto with go|]. intros Hp. by rewrite Hp in H2.
  - rewrite H2. unfold has_ports. rewrite Ht. cbn [andb]. apply Z.leb_gt.
    pose proof (Parse_Ok _ _ Hb1 P1) as (_ & Hr & _). cbn in *. lia.
Qed.

(** The tunnel addresses of a mapper: each absent or of its own family. *)
Definition tunnels_ok (m : Mapper) : Prop :=
  (m_v4 m = AddrZero ∨ Is4 (m_v4 m) = true ∧ Addr_ok (m_v4 m)) ∧
  (m_v6 m = AddrZero ∨ Is6 (m_v6 m) = true ∧ Addr_ok (m_v6 m)).

(** Every translation of [m] is still in force in [m']. *)
Definition extends (m m' : Mapper) : Prop :=
  m_v4 m' = m_v4 m ∧ m_v6 m' = m_v6 m ∧
  ∀ k l mp, m_byOut m !! k = Some l → m_heap m !! l = Some mp →
    m_byOut m' !! k = Some l ∧ ∃ mp', m_heap m' !! l = Some mp' ∧ same_binding mp mp'.

#[export] Instance extends_preorder : PreOrder extends.
Proof.
  split.
  - intros m. unfold extends, same_binding. split_and!; try done. eauto 10.
  - intros m1 m2 m3 (A1 & A2 & A3) (B1 & B2 & B3). split_and!; try congruence.
    intros k l mp Hk Hl. destruct (A3 _ _ _ Hk Hl) as (C1 & mp2 & C2 & C3 & C4 & C5).
    destruct (B3 _ _ _ C1 C2) as (D1 & mp3 & D2 & D3 & D4 & D5). split; [done|]. exists mp3.
    split; [done|]. unfold same_binding. intuition congruence.
Qed.

Lemma set_next_extends m n : extends m (set_next m n).
Proof. unfold extends, same_binding. split_and!; try done. intros k l mp Hk Hl. split; [done|]. by exists mp. Qed.

Lemma set_object_extends m l mp mp' :
  m_heap m !! l = Some mp → same_binding mp mp' → extends m (set_object m l mp').
Proof.
  intros Hl Hs. split_and!; try done. intros k l0 x Hk Hx. split; [done|]. cbn.
  destruct (decide (l = l0)) as [<-|Hne].
  - rewrite lookup_insert_eq. exists mp'. by assert (x = mp) as -> by congruence.
  - rewrite lookup_insert_ne by done. by exists x.
Qed.

Lemma add_mapping_extends m k rk mp :
  nat_wf m → m_byOut m !! k = None → extends m (add_mapping m k rk mp).
Proof.
  intros Hw Hk. split_and!; try done. intros k0 l x Hk0 Hx. cbn.
  rewrite lookup_insert_ne by congruence. split; [done|]. exists x. split; [|done].
  rewrite lookup_insert_ne; [done|]. intros <-. destruct (nw_heap m Hw _ _ Hx). lia.
Qed.

(** The ports of the pool that are taken for this destination. *)
Definition pool_exhausted (m : Mapper) (p : Packet) : Prop :=
  ∀ tp, tp = pSrcPort p ∨ 40000 <= tp <= 60999 →
    m_byReply m !! reply_of m (out_key p) tp ≠ None.

Definition out_refused (m : Mapper) (raw : list Z) : Prop :=
  match Parse raw with
  | Ok p => transport p = false ∨ has_ports p = false ∨ IsValid (tunnel_for m (pSrc p)) = false ∨
            m_byOut m !! out_key p = None ∧ pool_exhausted m p
  | _ => True
  end.

Record sent (m m' : Mapper) (raw raw' : list Z) (meta : Meta) (p : Packet) (tp : Z) : Prop := {
  sn_parse : Parse raw = Ok p;
  sn_transport : transport p = true;
  sn_port : 0 <= tp < 65536;
  sn_bound : bound m' (out_key p) tp meta;
  sn_packet : has_ports p = true →
    Parse raw' = Ok (with_ports (with_src p (tunnel_for m (pSrc p))) tp (pDstPort p))
}.

Definition out_ok (m : Mapper) (raw : list Z) (meta : Meta) (r : Mapper * list Z * Res Meta) : Prop :=
  let '(m', raw', res) := r in
  nat_wf m' ∧ extends m m' ∧ bytes_ok raw' ∧
  match res with
  | Ok meta' => meta' = meta ∧ ∃ p tp, sent m m' raw raw' meta p tp
  | Err _ => out_refused m raw
  | _ => False
  end.

Lemma tunnel_family m raw p : tunnels_ok m → Packet_ok raw p →
  IsValid (tunnel_for m (pSrc p)) = true →
  family_ok (pVersion p) (tunnel_for m (pSrc p)) = true ∧ Addr_ok (tunnel_for m (pSrc p)).
Proof.
  intros [H4 H6] Hok. destruct (Packet_ok_fields raw p Hok) as (-> & _ & _). unfold tunnel_for, family_ok.
  destruct (Packet_version raw p Hok) as [E|E]; rewrite E; cbn; intros Hv.
  - destruct H4 as [E0|?]; [by rewrite E0 in Hv|tauto].
  - destruct H6 as [E0|?]; [by rewrite E0 in Hv|tauto].
Qed.

Lemma translate_out_ok m m' raw meta p mp l :
  bytes_ok raw → tunnels_ok m → Parse raw = Ok p → transport p = true →
  IsValid (tunnel_for m (pSrc p)) = true →
  nat_wf m' → extends m m' → m_byOut m' !! out_key p = Some l → m_heap m' !! l = Some mp → mpMeta mp = meta →
  out_ok m raw meta (translate_out raw p (tunnel_for m (pSrc p)) meta m' mp).
Proof.
  intros Hb Htun HP Ht Hv Hw Hx Hk Hl Hm. pose proof (Parse_Ok raw p Hb HP) as Hok.
  destruct (tunnel_family m raw p Htun Hok Hv) as [Hf Ha].
  destruct (nw_heap m' Hw _ _ Hl) as [_ [_ _ Htp _]].
  destruct (rewrite_out raw p _ (mpTunnelPort mp) Hb HP Ht Ha Hf Htp) as (raw1 & E1 & B1 & P1 & H2).
  assert (Hbd : bound m' (out_key p) (mpTunnelPort mp) meta) by (exists l, mp; done).
  unfold translate_out. rewrite E1. destruct (negb (mpTunnelPort mp =? pSrcPort p)) eqn:En.
  - destruct (RewriteSrcPort raw1 (mpTunnelPort mp)) as [raw2| | |]; try done.
    + destruct H2 as [B2 P2]. split_and!; try done. exists p, (mpTunnelPort mp). done.
    + split_and!; try done. unfold out_refused. rewrite HP. tauto.
  - zbool. split_and!; try done. exists p, (mpTunnelPort mp). split; try done. intros Hp.
    rewrite P1, En. by destruct p.
Qed.

Lemma PrepareOutbound_ok now m raw meta :
  nat_wf m → tunnels_ok m → bytes_ok raw → out_ok m raw meta (PrepareOutbound now m raw meta).
Proof.
  intros Hw Htun Hb. unfold PrepareOutbound. pose proof (Parse_spec raw Hb) as HS.
  destruct (Parse raw) as [p|e| |] eqn:HP; try done.
  2:{ split_and!; try done. unfold out_refused. by rewrite HP. }
  rewrite <- negb_orb. fold (transport p). destruct (transport p) eqn:Ht; cbn [negb].
  2:{ split_and!; try done. unfold out_refused. rewrite HP. tauto. }
  destruct (IsValid (tunnel_for m (pSrc p))) eqn:Hv; cbn [negb].
  2:{ split_and!; try done. unfold out_refused. rewrite HP. tauto. }
  fold (out_key p). cbv zeta. rename HS into Hok.
  destruct (Packet_addrs_ok raw p Hb Hok) as [Has _]. destruct (Packet_port_range raw p Hb Hok) as [Hsp _].
  assert (Hent : ∀ n tp, 40000 <= n <= 60999 → 0 <= tp < 65536 → tp = pSrcPort p ∨ 40000 <= tp <= 60999 → m_byOut m !! out_key p = None →
    m_byReply m !! reply_of m (out_key p) tp = None →
    out_ok m raw meta (translate_out raw p (tunnel_for m (pSrc p)) meta
      (add_mapping (set_next m n) (out_key p) (reply_of m (out_key p) tp)
         (mkMapping (pSrc p) (pSrcPort p) tp meta now)) (mkMapping (pSrc p) (pSrcPort p) tp meta now))).
  { intros n tp Hn Htp Hch Hk Hr. set (mp := mkMapping (pSrc p) (pSrcPort p) tp meta now).
    pose proof (set_next_wf m n Hw Hn) as Hw1.
    apply (translate_out_ok m _ raw meta p mp (m_fresh m)); try done.
    - apply (add_mapping_wf (set_next m n) (out_key p) mp); try done. by apply (Packet_same_family raw).
    - by apply (add_mapping_extends (set_next m n)).
    - apply lookup_insert_eq.
    - apply lookup_insert_eq. }
  destruct (m_byOut m !! out_key p) as [l|] eqn:Hk.
  - destruct (nw_out m Hw _ _ Hk) as (mp & Hl & _). rewrite Hl.
    assert (Hs : same_binding mp (with_meta (touch mp now) meta)) by done.
    apply (translate_out_ok m _ raw meta p _ l); try done.
    + by eapply set_object_wf.
    + by eapply set_object_extends.
    + apply lookup_insert_eq.
  - change (mkReply (pProtocol p) (pDst p) (tunnel_for m (pSrc p)) (pDstPort p) (pSrcPort p))
      with (reply_of m (out_key p) (pSrcPort p)).
    destruct (m_byReply m !! reply_of m (out_key p) (pSrcPort p)) as [l|] eqn:Hr.
    + pose proof (search_port_spec (Z.to_nat 21000) (m_byReply m) (reply_of m (out_key p) (pSrcPort p))
        (m_next m) (nw_next m Hw)) as Hsrch.
      destruct (search_port _ _ _ _) as [next [tp|]] eqn:Es.
      * destruct Hsrch as (H1 & H2 & H3). exact (Hent next tp H1 ltac:(lia) (or_intror H2) eq_refl H3).
      * destruct Hsrch as [H1 _]. split_and!; try done.
        -- by apply set_next_wf.
        -- apply set_next_extends.
        -- unfold out_refused. rewrite HP. do 3 right. split; [done|]. intros tp [->|Htp]; [by rewrite Hr|].
           exact (search_port_exhausts _ _ _ _ tp (nw_next m Hw) Es Htp).
    + specialize (Hent (m_next m) (pSrcPort p) (nw_next m Hw) Hsp (or_introl eq_refl) eq_refl Hr). by destruct m.
Qed.

(** ** Inbound packets *)
Definition in_key (p : Packet) : replyKey :=
  mkReply (pProtocol p) (pSrc p) (pDst p) (pSrcPort p) (pDstPort p).

Record delivered (m : Mapper) (raw raw' : list Z) (meta : Meta) (k : outboundKey) : Prop := {
  dl_flow : ∃ p l mp, Parse raw = Ok p ∧ m_byOut m !! k = Some l ∧ m_heap m !! l = Some mp ∧
    in_key p = reply_of m k (mpTunnelPort mp) ∧ meta = mpMeta mp ∧
    (has_ports p = true →
     Parse raw' = Ok (with_ports (with_dst p (oLocal k)) (pSrcPort p) (oLocalPort k)))
}.

Definition in_ok (m : Mapper) (raw : list Z) (r : Mapper * list Z * Res (Meta * bool)) : Prop :=
  let '(m', raw', res) := r in
  nat_wf m' ∧ extends m m' ∧ bytes_ok raw' ∧
  match res with
  | Ok (meta, true) => ∃ k, delivered m raw raw' meta k
  | Ok (_, false) => raw' = raw ∧ m' = m ∧
      ∀ p, Parse raw = Ok p → transport p = true → m_byReply m !! in_key p = None
  | Err _ => match Parse raw with Ok p => has_ports p = false | _ => True end
  | _ => False
  end.

Lemma family_transfer v a b : same_family a b → family_ok v b = true → family_ok v a = true.
Proof. intros [H4 H6]. unfold family_ok. by rewrite H4, H6. Qed.

Lemma rewrite_in raw p a port :
  bytes_ok raw → Parse raw = Ok p → transport p = true → Addr_ok a →
  family_ok (pVersion p) a = true → 0 <= port < 65536 →
  ∃ raw1, RewriteDst raw a = Ok raw1 ∧ bytes_ok raw1 ∧ Parse raw1 = Ok (with_dst p a) ∧
    (if negb (pDstPort p =? port) then
       match RewriteDstPort raw1 port with
       | Ok raw2 => bytes_ok raw2 ∧
           (has_ports p = true → Parse raw2 = Ok (with_ports (with_dst p a) (pSrcPort p) port))
       | Err _ => has_ports p = false
       | _ => False
       end
     else True).
Proof.
  intros Hb HP Ht Ha Hf Htp. pose proof (Parse_Ok raw p Hb HP) as Hok.
  pose proof (RewriteDst_spec raw a p Hb Ha HP) as H1. rewrite Hf in H1. destruct H1 as [E1 P1].
  assert (Hab : bytes_ok (addr_bytes a)) by (destruct a; [constructor|apply Ha..]).
  assert (Hb1 : bytes_ok (bcopy raw (dst_off (pVersion p)) (addr_bytes a))) by auto with go.
  eexists. split_and!; [done..|]. destruct (negb _); [|done].
  pose proof (RewriteDstPort_spec _ port _ Hb1 Htp P1) as H2.
  replace (transport (with_dst p a)) with true in H2 by (rewrite <- Ht; done).
  replace (has_ports (with_dst p a)) with (has_ports p) in H2 by done.
  destruct (Z.leb_spec (pL4 (with_dst p a) + 4) (blen (bcopy raw (dst_off (pVersion p)) (addr_bytes a)))) as [Hl|Hl].
  - destruct H2 as [-> H2]. split; [auto with go|]. intros Hp. by rewrite Hp in H2.
  - rewrite H2. unfold has_ports. rewrite Ht. cbn [andb]. apply Z.leb_gt.
    pose proof (Parse_Ok _ _ Hb1 P1) as (_ & Hr & _). cbn in *. lia.
Qed.

Lemma RestoreInbound_ok now m raw :
  nat_wf m → bytes_ok raw → in_ok m raw (RestoreInbound now m raw).
Proof.
  intros Hw Hb. unfold RestoreInbound. pose proof (Parse_spec raw Hb) as HS.
  destruct (Parse raw) as [p|e| |] eqn:HP; try done.
  2:{ split_and!; try done. by rewrite HP. }
  rewrite <- negb_orb. fold (transport p). destruct (transport p) eqn:Ht; cbn [negb].
  2:{ split_and!; try done. intros q Hq. rewrite HP in Hq. injection Hq as <-. congruence. }
  fold (in_key p). cbv zeta. rename HS into Hok.
  destruct (m_byReply m !! in_key p) as [l|] eqn:Hr.
  2:{ split_and!; try done. intros q Hq. rewrite HP in Hq. injection Hq as <-. done. }
  destruct (nw_reply m Hw _ _ Hr) as (k & mp & Hk & Hl & Ek). rewrite Hl.
  destruct (nw_out m Hw _ _ Hk) as (mp' & Hl' & El & Ep & _).
  assert (mp' = mp) as -> by congruence. clear Hl'.
  destruct (nw_heap m Hw _ _ Hl) as [_ [Ha Hport _]].
  assert (Hf : family_ok (pVersion p) (mpLocal mp) = true).
  { rewrite El. apply (family_transfer _ _ _ (nw_family m Hw _ _ Hk)).
    replace (oRemote k) with (pSrc p) by (unfold in_key, reply_of in Ek; congruence).
    apply (Packet_family raw p Hok). }
  assert (Hs : same_binding mp (touch mp now)) by done.
  pose proof (set_object_wf m l mp _ Hw Hl Hs) as Hw'.
  pose proof (set_object_extends m l mp _ Hl Hs) as Hx.
  destruct (rewrite_in raw p (mpLocal mp) (mpPort mp) Hb HP Ht Ha Hf Hport) as (raw1 & -> & B1 & P1 & H2).
  assert (Hdel : ∀ raw', (has_ports p = true →
      Parse raw' = Ok (with_ports (with_dst p (oLocal k)) (pSrcPort p) (oLocalPort k))) →
    ∃ k, delivered m raw raw' (mpMeta mp) k).
  { intros raw' Hraw. exists k. split. exists p, l, mp. done. }
  destruct (negb (pDstPort p =? mpPort mp)) eqn:En.
  - destruct (RewriteDstPort raw1 (mpPort mp)) as [raw2| | |]; try done.
    + destruct H2 as [B2 P2]. split_and!; try done. apply Hdel. by rewrite <- El, <- Ep.
    + split_and!; try done. by rewrite HP.
  - zbool. split_and!; try done. apply Hdel. intros _. rewrite P1, <- El, <- Ep, <- En. by destruct p.
Qed.

(** ** Sweeping *)
Definition stale (m : Mapper) (cut : Z) (l : nat) : Prop :=
  ∃ mp, m_heap m !! l = Some mp ∧ mpSeen mp < cut.
#[export] Instance stale_dec m cut l : Decision (stale m cut l).
Proof.
  destruct (m_heap m !! l) as [mp|] eqn:E.
  - destruct (decide (mpSeen mp < cut)); [left; by exists mp|right].
    intros (x & Hx & ?). congruence.
  - right. intros (x & Hx & _). congruence.
Defined.

Ltac bool_ext :=
  match goal with
  | |- (if bool_decide ?A then _ else _) = (if bool_decide ?B then _ else _) =>
      rewrite (bool_decide_ext A B); [done|]
  end.

Lemma delete_mapping_wf m k l mp :
  nat_wf m → m_byOut m !! k = Some l → m_heap m !! l = Some mp →
  nat_wf (mkMapper (m_v4 m) (m_v6 m) (delete k (m_byOut m))
    (delete (reply_of m k (mpTunnelPort mp)) (m_byReply m)) (m_next m) (m_heap m) (m_fresh m)).
Proof.
  intros Hw Hk Hl. pose proof Hw as [W1 W2 W3 W4 W5 W6]. split; cbn; try done.
  - intros k0 l0 [Hne H0]%lookup_delete_Some. destruct (W1 _ _ H0) as (x & Hx & E1 & E2 & E3).
    exists x. split_and!; try done. change (reply_of _ k0 _) with (reply_of m k0 (mpTunnelPort x)).
    rewrite lookup_delete_ne; [done|]. intros E.
    destruct Hne. by eapply nat_wf_separate.
  - intros rk l0 [Hne H0]%lookup_delete_Some. destruct (W2 _ _ H0) as (k0 & x & H1 & Hx & E).
    exists k0, x. split_and!; try done. rewrite lookup_delete_ne; [done|].
    intros <-. destruct Hne. assert (l0 = l) as -> by congruence.
    assert (x = mp) as -> by congruence. done.
  - intros k1 k2 l0 [_ H1]%lookup_delete_Some [_ H2]%lookup_delete_Some. by eapply W3.
  - intros k0 l0 [_ H0]%lookup_delete_Some. by eapply W5.
Qed.

Lemma sweep_fold_ok cut kls m :
  nat_wf m → NoDup (map fst kls) → (∀ k l, (k, l) ∈ kls → m_byOut m !! k = Some l) →
  let m' := fold_left (sweep_step cut) kls m in
  nat_wf m' ∧ m_heap m' = m_heap m ∧ m_next m' = m_next m ∧ m_v4 m' = m_v4 m ∧ m_v6 m' = m_v6 m ∧
  ∀ k, m_byOut m' !! k =
    (l ← m_byOut m !! k; if bool_decide ((k, l) ∈ kls ∧ stale m cut l) then None else Some l).
Proof.
  revert m. induction kls as [|[k l] kls IH]; intros m Hw Hnd Hin; cbn [fold_left].
  { split_and!; try done. intros k. destruct (m_byOut m !! k) as [l|]; [cbn|done].
    rewrite bool_decide_eq_false_2; [done|]. intros [H%not_elem_of_nil _]. done. }
  cbn [map fst] in Hnd. inversion_clear Hnd as [|?? Hnk Hnd']. rename Hnd' into Hnd.
  pose proof (Hin k l ltac:(constructor)) as Hk. destruct (nw_out m Hw _ _ Hk) as (mp & Hl & _).
  assert (Hks : ∀ l', (k, l') ∉ kls).
  { intros l' Hl'. apply Hnk. apply list_elem_of_In in Hl'. apply (in_map fst) in Hl'. by apply list_elem_of_In. }
  assert (Es : sweep_step cut m (k, l) = if mpSeen mp <? cut then
    mkMapper (m_v4 m) (m_v6 m) (delete k (m_byOut m))
      (delete (reply_of m k (mpTunnelPort mp)) (m_byReply m)) (m_next m) (m_heap m) (m_fresh m) else m).
  { unfold sweep_step. cbn [fst snd]. by rewrite Hl. }
  rewrite Es. clear Es. destruct (Z.ltb_spec (mpSeen mp) cut) as [Hlt|Hge].
  - pose proof (delete_mapping_wf m k l mp Hw Hk Hl) as Hw1. set (m1 := mkMapper _ _ _ _ _ _ _) in *.
    destruct (IH m1 Hw1 Hnd) as (I1 & I2 & I3 & I4 & I5 & I6).
    { intros k0 l0 H0. cbn. rewrite lookup_delete_ne; [apply Hin; by constructor|].
      intros <-. by apply Hks in H0. }
    split_and!; try done. intros k0. rewrite I6. cbn.
    destruct (decide (k = k0)) as [<-|Hne].
    + rewrite lookup_delete_eq, Hk. cbn. rewrite bool_decide_eq_true_2; [done|].
      split; [constructor|]. by exists mp.
    + rewrite lookup_delete_ne by done. destruct (m_byOut m !! k0) as [l0|]; [cbn|done].
      bool_ext. rewrite elem_of_cons.
      unfold stale; cbn. split; [tauto|]. intros [[[= <- _]|?] ?]; [done|tauto].
  - destruct (IH m Hw Hnd) as (I1 & I2 & I3 & I4 & I5 & I6).
    { intros k0 l0 H0. apply Hin. by constructor. }
    split_and!; try done. intros k0. rewrite I6. destruct (m_byOut m !! k0) as [l0|]; [cbn|done].
    bool_ext. rewrite elem_of_cons. split; [tauto|].
    intros [[[= -> ->]|?] Hs]; [|tauto]. destruct Hs as (x & Hx & ?). assert (x = mp) as -> by congruence. lia.
Qed.

Lemma Sweep_ok now age m : nat_wf m →
  nat_wf (Sweep now age m) ∧ m_heap (Sweep now age m) = m_heap m ∧
  m_v4 (Sweep now age m) = m_v4 m ∧ m_v6 (Sweep now age m) = m_v6 m ∧
  ∀ k, m_byOut (Sweep now age m) !! k =
    (l ← m_byOut m !! k; if bool_decide (stale m (now - age) l) then None else Some l).
Proof.
  intros Hw. destruct (sweep_fold_ok (now - age) (map_to_list (m_byOut m)) m Hw) as (I1 & I2 & I3 & I4 & I5 & I6).
  - apply NoDup_fst_map_to_list.
  - intros k l. apply elem_of_map_to_list.
  - split_and!; try done. intros k. unfold Sweep. rewrite I6. destruct (m_byOut m !! k) as [l|] eqn:E; [cbn|done].
    bool_ext. rewrite elem_of_map_to_list. tauto.
Qed.

(** ** Runs of the mapper *)
Inductive nat_step : Mapper → Mapper → Prop :=
  | step_out now m raw meta : bytes_ok raw → nat_step m (fst (fst (PrepareOutbound now m raw meta)))
  | step_in now m raw : bytes_ok raw → nat_step m (fst (fst (RestoreInbound now m raw))).

(** Traffic only, and traffic with sweeps. *)
Definition nat_traffic : Mapper → Mapper → Prop := rtc nat_step.
Inductive nat_reach (v4 v6 : Addr) : Mapper → Prop :=
  | reach_new : nat_reach v4 v6 (New v4 v6)
  | reach_step m m' : nat_reach v4 v6 m → nat_step m m' → nat_reach v4 v6 m'
  | reach_sweep now age m : nat_reach v4 v6 m → nat_reach v4 v6 (Sweep now age m).

Definition addr4_or_none (a : Addr) : Prop := a = AddrZero ∨ Is4 a = true ∧ Addr_ok a.
Definition addr6_or_none (a : Addr) : Prop := a = AddrZero ∨ Is6 a = true ∧ Addr_ok a.

Lemma nat_step_ok m m' : nat_wf m → tunnels_ok m → nat_step m m' →
  nat_wf m' ∧ extends m m' ∧ tunnels_ok m'.
Proof.
  intros Hw Ht Hs. assert (H : nat_wf m' ∧ extends m m').
  { destruct Hs as [now m raw meta Hb|now m raw Hb].
    - pose proof (PrepareOutbound_ok now m raw meta Hw Ht Hb) as H.
      destruct (PrepareOutbound now m raw meta) as [[m' raw'] res]. by destruct H as (? & ? & _).
    - pose proof (RestoreInbound_ok now m raw Hw Hb) as H.
      destruct (RestoreInbound now m raw) as [[m' raw'] res]. by destruct H as (? & ? & _). }
  destruct H as [H1 H2]. split_and!; try done. destruct H2 as (E4 & E6 & _).
  unfold tunnels_ok in *. by rewrite E4, E6.
Qed.

Lemma nat_traffic_ok m m' : nat_wf m → tunnels_ok m → nat_traffic m m' →
  nat_wf m' ∧ extends m m' ∧ tunnels_ok m'.
Proof.
  intros Hw Ht Hs. induction Hs as [m|m m1 m' H1 Hs IH]; [done|].
  destruct (nat_step_ok m m1 Hw Ht H1) as (Hw1 & Hx1 & Ht1).
  destruct (IH Hw1 Ht1) as (Hw2 & Hx2 & Ht2). split_and!; try done. by transitivity m1.
Qed.

Lemma nat_reach_ok v4 v6 m : addr4_or_none v4 → addr6_or_none v6 → nat_reach v4 v6 m →
  nat_wf m ∧ tunnels_ok m ∧ m_v4 m = v4 ∧ m_v6 m = v6.
Proof.
  intros H4 H6. induction 1 as [|m m' Hr (Hw & Ht & E4 & E6) Hs|now age m Hr (Hw & Ht & E4 & E6)].
  - split_and!; try done; apply New_wf.
  - destruct (nat_step_ok m m' Hw Ht Hs) as (Hw' & (X4 & X6 & _) & Ht'). split_and!; try done; congruence.
  - destruct (Sweep_ok now age m Hw) as (Hw' & _ & X4 & X6 & _). split_and!; try done; try congruence.
    unfold tunnels_ok in *. by rewrite X4, X6.
Qed.

(** C3: Flows do not interfere.  In every reachable mapper the outbound flows
    and the reply keys are in bijection: each flow's reply key leads back to the
    flow's own local address and port, no two flows share a reply key, and every
    reply key belongs to a flow.  Every tunnel port in use is a 16-bit port and is
    either the flow's own source port or one of 40000-60999, and so is the port with
    which a packet of the flow leaves; the port cursor stays in 40000-60999. *)
Theorem nat_flows_separate (v4 v6 : Addr) (m : Mapper) :
  addr4_or_none v4 → addr6_or_none v6 → nat_reach v4 v6 m →
  40000 <= m_next m <= 60999 ∧
  (∀ k l, m_byOut m !! k = Some l → ∃ mp, m_heap m !! l = Some mp ∧
     mpLocal mp = oLocal k ∧ mpPort mp = oLocalPort k ∧
     m_byReply m !! reply_of m k (mpTunnelPort mp) = Some l ∧
     0 <= mpTunnelPort mp < 65536 ∧ port_choice (oLocalPort k) (mpTunnelPort mp)) ∧
  (∀ k1 k2 l1 l2 mp1 mp2, m_byOut m !! k1 = Some l1 → m_byOut m !! k2 = Some l2 →
     m_heap m !! l1 = Some mp1 → m_heap m !! l2 = Some mp2 → k1 ≠ k2 →
     reply_of m k1 (mpTunnelPort mp1) ≠ reply_of m k2 (mpTunnelPort mp2)) ∧
  (∀ rk l, m_byReply m !! rk = Some l → ∃ k mp, m_byOut m !! k = Some l ∧
     m_heap m !! l = Some mp ∧ rk = reply_of m k (mpTunnelPort mp)) ∧
  (∀ now raw meta meta' m' raw' p, bytes_ok raw → Parse raw = Ok p → has_ports p = true →
     PrepareOutbound now m raw meta = (m', raw', Ok meta') →
     ∃ tp, Parse raw' = Ok (with_ports (with_src p (tunnel_for m (pSrc p))) tp (pDstPort p)) ∧ port_choice (pSrcPort p) tp).
Proof.
  intros H4 H6 Hr. destruct (nat_reach_ok v4 v6 m H4 H6 Hr) as (Hw & Ht & _). split; [apply (nw_next m Hw)|]. split_and!.
  - intros k l Hk. destruct (nat_wf_port m k l Hw Hk) as (mp & H). by exists mp.
  - intros k1 k2 l1 l2 mp1 mp2 H1 H2 G1 G2 Hne E. by destruct Hne; eapply nat_wf_separate.
  - apply (nw_reply m Hw).
  - intros now raw meta meta' m' raw' p Hb HP Hp E. pose proof (PrepareOutbound_ok now m raw meta Hw Ht Hb) as H. rewrite E in H.
    destruct H as (Hw' & _ & _ & _ & p' & tp & [S1 _ _ (l & mp & Hk & Hl & <- & _) S5]). assert (p' = p) as -> by congruence.
    exists (mpTunnelPort mp). split; [by apply S5|]. destruct (nat_wf_port m' _ l Hw' Hk) as (mp' & Hl' & _ & _ & _ & _ & Hc).
    by assert (mp' = mp) as -> by congruence.
Qed.

Definition tun4 : Addr := Addr4 [10; 66; 66; 20].
Definition some_meta : Meta := mkMeta 18 0.
Lemma tun4_ok : addr4_or_none tun4.
Proof. right. split; [done|]. split; [done|]. by apply bytes_okb_ok. Qed.

(** Two hosts behind the mapper send to 1.1.1.1:53 from port 5000: the second flow
    collides and gets the first port of the pool. *)
Definition udp_sample2 : list Z :=
  [0x45; 0; 0; 32; 0; 8; 0; 0; 64; 17; 0; 0; 10; 0; 0; 3; 1; 1; 1; 1; 0x13; 0x88; 0; 53; 0; 12; 0; 0; 97; 98; 99; 100].
Definition collision1 : Mapper := fst (fst (PrepareOutbound 1 (New tun4 AddrZero) udp_sample some_meta)).
Definition collision2 : Mapper := fst (fst (PrepareOutbound 2 collision1 udp_sample2 some_meta)).
Lemma nat_flows_separate_witness :
  match m_heap collision2 !! 0%nat, m_heap collision2 !! 1%nat with
  | Some a, Some b => mpTunnelPort a = 5000 ∧ mpTunnelPort b = 40000 ∧ port_choice 5000 (mpTunnelPort b) ∧
      m_byReply collision2 !! reply_of collision2 (mkOut 17 (Addr4 [10; 0; 0; 3]) (Addr4 [1; 1; 1; 1]) 5000 53) (mpTunnelPort b) = Some 1%nat
  | _, _ => False
  end.
Proof.
  assert (Hr : nat_reach tun4 AddrZero collision2).
  { eapply reach_step; [eapply reach_step; [apply reach_new|]|]; apply step_out; by apply bytes_okb_ok. }
  destruct (nat_flows_separate tun4 AddrZero collision2 tun4_ok (or_introl eq_refl) Hr) as (_ & H & _).
  destruct (H (mkOut 17 (Addr4 [10; 0; 0; 3]) (Addr4 [1; 1; 1; 1]) 5000 53) 1%nat) as (mp & Hl & _ & _ & Hb & _ & Hc); [vm_compute; reflexivity|].
  rewrite Hl. destruct (m_heap collision2 !! 0%nat) as [a|] eqn:Ea; [|vm_compute in Ea; discriminate Ea].
  split; [vm_compute in Ea; by injection Ea as <-|]. split; [|split; [exact Hc|exact Hb]].
  vm_compute in Hl. by injection Hl as <-.
Defined.

(** C8: Round trip through the tunnel.  When [PrepareOutbound] accepts a packet
    that carries ports, the packet leaves from the tunnel address of its family
    with some tunnel port [tp], destination unchanged; and after any further
    traffic, a reply addressed to that tunnel address and port is delivered to
    the original local address and port, everything else unchanged; if nothing
    happened in between it comes with the interface the packet came from. *)
Theorem nat_roundtrip (now : Z) (m m' m'' : Mapper) (raw raw' : list Z) (meta meta' : Meta) (p : Packet) :
  nat_wf m → tunnels_ok m → bytes_ok raw → Parse raw = Ok p → has_ports p = true →
  PrepareOutbound now m raw meta = (m', raw', Ok meta') → nat_traffic m' m'' →
  ∃ tp, Parse raw' = Ok (with_ports (with_src p (tunnel_for m (pSrc p))) tp (pDstPort p)) ∧
    ∀ now' reply q, bytes_ok reply → Parse reply = Ok q → has_ports q = true →
      in_key q = mkReply (pProtocol p) (pDst p) (tunnel_for m (pSrc p)) (pDstPort p) tp →
      ∃ m3 reply' meta3, RestoreInbound now' m'' reply = (m3, reply', Ok (meta3, true)) ∧
        Parse reply' = Ok (with_ports (with_dst q (pSrc p)) (pSrcPort q) (pSrcPort p)) ∧
        (m'' = m' → meta3 = meta).
Proof.
  intros Hw Ht Hb HP Hports HO Htr. pose proof (PrepareOutbound_ok now m raw meta Hw Ht Hb) as H.
  rewrite HO in H. destruct H as (Hw' & (X4 & X6 & _) & _ & _ & p' & tp & [S1 S2 S3 S4 S5]).
  assert (p' = p) as -> by congruence. exists tp. split; [by apply S5|].
  intros now' reply q Hbr HQ Hqp Hkey.
  assert (Ht' : tunnels_ok m') by (unfold tunnels_ok in *; by rewrite X4, X6).
  destruct (nat_traffic_ok m' m'' Hw' Ht' Htr) as (Hw2 & (Y4 & Y6 & Hx) & _).
  destruct S4 as (l & mp & Hk & Hl & Etp & Em).
  destruct (Hx _ _ _ Hk Hl) as (Hk2 & mp2 & Hl2 & B1 & B2 & B3).
  destruct (nw_out m'' Hw2 _ _ Hk2) as (mp2' & Hl2' & _ & _ & Hr2).
  assert (mp2' = mp2) as -> by congruence. clear Hl2'.
  assert (Er : reply_of m'' (out_key p) (mpTunnelPort mp2) = in_key q).
  { rewrite Hkey, B3, Etp. unfold reply_of, tunnel_for. by rewrite Y4, Y6, X4, X6. }
  rewrite Er in Hr2.
  pose proof (RestoreInbound_ok now' m'' reply Hw2 Hbr) as HR.
  destruct (RestoreInbound now' m'' reply) as [[m3 reply'] res] eqn:EQ.
  destruct HR as (_ & _ & _ & HR). destruct res as [[meta3 []]|e| |]; try done.
  - destruct HR as (k & [(q' & l3 & mp3 & D1 & D2 & D3 & D4 & D5 & D6)]).
    assert (q' = q) as -> by congruence.
    assert (l3 = l) as ->.
    { destruct (nw_out m'' Hw2 _ _ D2) as (x & Hx3 & _ & _ & Hr3). assert (x = mp3) as -> by congruence.
      rewrite <- D4 in Hr3. congruence. }
    assert (k = out_key p) as -> by by apply (nw_inj m'' Hw2 _ _ l).
    exists m3, reply', meta3. split_and!; [done|by apply D6|].
    intros ->. rewrite D5. congruence.
  - destruct HR as (_ & _ & HR). exfalso. rewrite (HR q HQ) in Hr2; [done|].
    unfold has_ports in Hqp. by apply andb_true_iff in Hqp as [? _].
  - exfalso. rewrite HQ in HR. congruence.
Qed.

(** A reply to [udp_sample] as it leaves through the tunnel. *)
Definition udp_reply : list Z :=
  [0x45; 0; 0; 32; 0; 9; 0; 0; 64; 17; 0; 0; 1; 1; 1; 1; 10; 66; 66; 20; 0; 53; 0x13; 0x88; 0; 12; 0; 0; 1; 2; 3; 4].

Lemma nat_roundtrip_witness :
  ∃ m3 reply' meta3,
    RestoreInbound 2 (fst (fst (PrepareOutbound 1 (New tun4 AddrZero) udp_sample some_meta))) udp_reply
      = (m3, reply', Ok (meta3, true)) ∧
    Parse reply' = Ok (mkPacket 4 17 (Addr4 [1; 1; 1; 1]) (Addr4 [10; 0; 0; 2]) 53 5000 20 32) ∧
    meta3 = some_meta.
Proof.
  destruct (PrepareOutbound 1 (New tun4 AddrZero) udp_sample some_meta) as [[m' raw'] res] eqn:E.
  assert (Hr : snd (PrepareOutbound 1 (New tun4 AddrZero) udp_sample some_meta) = Ok some_meta)
    by (vm_compute; reflexivity).
  rewrite E in Hr. cbn [snd] in Hr. subst res. cbn [fst].
  destruct (nat_roundtrip 1 (New tun4 AddrZero) m' m' udp_sample raw' some_meta some_meta
    (mkPacket 4 17 (Addr4 [10; 0; 0; 2]) (Addr4 [1; 1; 1; 1]) 5000 53 20 32)) as (tp & Hp & H).
  - apply New_wf.
  - split; [apply tun4_ok|by left].
  - apply udp_sample_ok.
  - reflexivity.
  - reflexivity.
  - exact E.
  - apply rtc_refl.
  - assert (Hraw : snd (fst (PrepareOutbound 1 (New tun4 AddrZero) udp_sample some_meta)) =
      [69; 0; 0; 32; 0; 7; 0; 0; 64; 17; 0; 0; 10; 66; 66; 20; 1; 1; 1; 1; 19; 136; 0; 53; 0; 12; 0; 0; 97; 98; 99; 100])
      by (vm_compute; reflexivity).
    rewrite E in Hraw. cbn [fst snd] in Hraw. subst raw'.
    assert (tp = 5000) as -> by (vm_compute in Hp; congruence).
    destruct (H 2 udp_reply (mkPacket 4 17 (Addr4 [1; 1; 1; 1]) (Addr4 [10; 66; 66; 20]) 53 5000 20 32))
      as (m3 & reply' & meta3 & H1 & H2 & H3).
    + apply bytes_okb_ok. reflexivity.
    + reflexivity.
    + reflexivity.
    + reflexivity.
    + exists m3, reply', meta3. split; [exact H1|]. split; [exact H2|]. apply H3. reflexivity.
Defined.

(** [PrepareOutbound] never panics and refuses a packet only when it has to:
    the packet does not parse, is not TCP or UDP, is too short to carry ports, no
    tunnel address of its family is configured, or its flow is new and its own
    port and all 21000 ports of the pool are taken towards that destination.
    Accepted packets leave with a 16-bit port. *)
Theorem PrepareOutbound_accepts (now : Z) (m : Mapper) (raw : list Z) (meta : Meta) :
  nat_wf m → tunnels_ok m → bytes_ok raw →
  match snd (PrepareOutbound now m raw meta) with
  | Ok meta' => meta' = meta ∧ ∃ p tp, Parse raw = Ok p ∧ 0 <= tp < 65536 ∧
      bound (fst (fst (PrepareOutbound now m raw meta))) (out_key p) tp meta
  | Err _ =>
      match Parse raw with
      | Ok p => transport p = false ∨ has_ports p = false ∨ IsValid (tunnel_for m (pSrc p)) = false ∨
          m_byOut m !! out_key p = None ∧
          ∀ tp, tp = pSrcPort p ∨ 40000 <= tp <= 60999 → m_byReply m !! reply_of m (out_key p) tp ≠ None
      | _ => True
      end
  | _ => False
  end.
Proof.
  intros Hw Ht Hb. pose proof (PrepareOutbound_ok now m raw meta Hw Ht Hb) as H.
  destruct (PrepareOutbound now m raw meta) as [[m' raw'] [meta'|e| |]]; cbn [fst snd];
    destruct H as (_ & _ & _ & H); try done.
  destruct H as (-> & p & tp & [S1 S2 S3 S4 S5]). split; [done|]. by exists p, tp.
Qed.

Lemma PrepareOutbound_accepts_witness :
  ∃ p tp, Parse udp_sample = Ok p ∧ 0 <= tp < 65536 ∧
    bound (fst (fst (PrepareOutbound 1 (New tun4 AddrZero) udp_sample some_meta))) (out_key p) tp some_meta.
Proof.
  pose proof (PrepareOutbound_accepts 1 (New tun4 AddrZero) udp_sample some_meta (New_wf _ _)
    (conj tun4_ok (or_introl eq_refl)) udp_sample_ok) as H.
  assert (Hr : snd (PrepareOutbound 1 (New tun4 AddrZero) udp_sample some_meta) = Ok some_meta)
    by (vm_compute; reflexivity).
  rewrite Hr in H. exact (proj2 H).
Defined.

(** [Sweep] removes exactly the flows not seen since the cut, from both
    maps, and keeps the invariant: a flow survives iff its mapping was used at or
    after [now - age]. *)
Theorem nat_Sweep_exact (now age : Z) (m : Mapper) (k : outboundKey) (l : nat) (mp : mapping) :
  nat_wf m → m_byOut m !! k = Some l → m_heap m !! l = Some mp →
  nat_wf (Sweep now age m) ∧
  m_byOut (Sweep now age m) !! k = (if mpSeen mp <? now - age then None else Some l) ∧
  m_byReply (Sweep now age m) !! reply_of m k (mpTunnelPort mp) =
    (if mpSeen mp <? now - age then None else Some l).
Proof.
  intros Hw Hk Hl. destruct (Sweep_ok now age m Hw) as (Hw' & Hh & E4 & E6 & Ho).
  assert (Hk' : m_byOut (Sweep now age m) !! k = (if mpSeen mp <? now - age then None else Some l)).
  { rewrite Ho, Hk. cbn. destruct (Z.ltb_spec (mpSeen mp) (now - age)).
    - rewrite bool_decide_eq_true_2; [done|]. by exists mp.
    - rewrite bool_decide_eq_false_2; [done|]. intros (x & Hx & ?). assert (x = mp) as -> by congruence. lia. }
  assert (Er : ∀ k', reply_of (Sweep now age m) k' = reply_of m k').
  { intros k'. unfold reply_of, tunnel_for. by rewrite E4, E6. }
  split_and!; try done. destruct (mpSeen mp <? now - age) eqn:Es.
  - destruct (m_byReply (Sweep now age m) !! _) as [l'|] eqn:Er'; [exfalso|done].
    destruct (nw_reply _ Hw' _ _ Er') as (k' & mp' & H1 & H2 & H3). rewrite Er in H3. rewrite Hh in H2.
    assert (H1' : m_byOut m !! k' = Some l').
    { rewrite Ho in H1. destruct (m_byOut m !! k') as [x|]; [cbn in H1|done]. by destruct (bool_decide _). }
    assert (k = k') as <- by by eapply (nat_wf_separate m). congruence.
  - destruct (nw_out _ Hw' _ _ Hk') as (x & Hx & _ & _ & Hrep). rewrite Hh, Hl in Hx. injection Hx as <-.
    by rewrite Er in Hrep.
Qed.

Lemma nat_Sweep_exact_witness :
  m_byOut (Sweep 1000 10 (fst (fst (PrepareOutbound 1 (New tun4 AddrZero) udp_sample some_meta))))
    !! mkOut 17 (Addr4 [10; 0; 0; 2]) (Addr4 [1; 1; 1; 1]) 5000 53 = None.
Proof.
  set (m := fst (fst (PrepareOutbound 1 (New tun4 AddrZero) udp_sample some_meta))).
  assert (Hw : nat_wf m).
  { refine (proj1 (nat_reach_ok tun4 AddrZero m tun4_ok (or_introl eq_refl) _)).
    eapply reach_step; [apply reach_new|]. apply step_out, udp_sample_ok. }
  destruct (nat_Sweep_exact 1000 10 m (mkOut 17 (Addr4 [10; 0; 0; 2]) (Addr4 [1; 1; 1; 1]) 5000 53) 0%nat
    (mkMapping (Addr4 [10; 0; 0; 2]) 5000 5000 some_meta 1)) as (_ & H & _); [exact Hw|vm_compute; reflexivity..|].
  exact H.
Defined.
