(* ===== verification/GoStrings.v ===== *)
(** * Strings: what the code uses of Go's [strings] and [path/filepath]

    A Go string is a list of bytes.  [ToLower] and [TrimSpace] follow the
    library: a string of ASCII bytes takes the fast path, which is written out;
    from the first byte outside ASCII on the library consults the Unicode tables,
    which the class [Unicode] stands for.  [filepath.Base] drops the volume name
    of the platform, whose length is the method [volumeLen] of [Platform].  Of
    the tables only this is used: a trimmed string has nothing left to trim, and
    lower casing maps runes to runes; [volumeLen] is between 0 and the length of the path. *)

From S2P Require Import Prelude.
From Stdlib Require Export Ascii.
Local Open Scope Z_scope.

Abbreviation str := (list Z) (only parsing).

(** Literals. *)
Definition lit (s : string) : list Z := map (fun c => Z.of_N (N_of_ascii c)) (String.list_ascii_of_string s).

Class Platform := {
  volumeLen : list Z → Z;           (** [len(filepath.VolumeName(path))] *)
  isPathSeparator : Z → bool;       (** [os.IsPathSeparator] *)
  separator : Z;                    (** [filepath.Separator] *)
  volumeLen_bound : ∀ p, 0 <= volumeLen p <= blen p
}.

Definition isASCII (s : list Z) : bool := forallb (fun c => c <? 128) s.
Definition lower_byte (c : Z) : Z := if (65 <=? c) && (c <=? 90) then c + 32 else c.
Definition is_space (c : Z) : bool := ((9 <=? c) && (c <=? 13)) || (c =? 32).

Fixpoint drop_spaces (s : list Z) : list Z :=
  match s with
  | c :: rest => if (c <? 128) && is_space c then drop_spaces rest else s
  | [] => []
  end.
Definition non_ascii_head (s : list Z) : bool := match s with c :: _ => 128 <=? c | [] => false end.

(** [TrimSpace], given the Unicode-aware [TrimFunc] and [TrimRightFunc]. *)
Definition trim_with (ut utr : list Z → list Z) (s : list Z) : list Z :=
  let l := drop_spaces s in
  if non_ascii_head l then ut l else
  let r := drop_spaces (rev l) in
  if non_ascii_head r then utr (rev r) else rev r.

(** The Unicode paths: [Map(unicode.ToLower, s)], [TrimFunc(s, unicode.IsSpace)]
    and [TrimRightFunc(s, unicode.IsSpace)].  What trimming leaves has nothing
    left to trim; lower casing works rune by rune, so that an ASCII prefix of the
    result is no longer than the string. *)
Class Unicode := {
  u_lower : list Z → list Z;
  u_trim : list Z → list Z;
  u_trim_right : list Z → list Z;
  u_trim_trimmed : ∀ s, trim_with u_trim u_trim_right (u_trim s) = u_trim s;
  u_trim_right_trimmed : ∀ s, drop_spaces s = s → non_ascii_head s = false →
    trim_with u_trim u_trim_right (u_trim_right s) = u_trim_right s;
  u_lower_runes : ∀ s p t, u_lower s = p ++ t → isASCII p = true → blen p <= blen s
}.

Section Strings.
Context {U : Unicode}.

Definition ToLower (s : list Z) : list Z := if isASCII s then map lower_byte s else u_lower s.

Definition TrimSpace (s : list Z) : list Z := trim_with u_trim u_trim_right s.
End Strings.

Definition HasPrefix (s p : list Z) : bool := bool_decide (take (length p) s = p).
Definition HasSuffix (s p : list Z) : bool :=
  (length p <=? length s)%nat && bool_decide (drop (length s - length p) s = p).
Definition TrimPrefix (s p : list Z) : list Z := if HasPrefix s p then drop (length p) s else s.
Definition TrimSuffix (s p : list Z) : list Z :=
  if HasSuffix s p then take (length s - length p) s else s.
(** [strings.Contains] with a one-byte substring, [ContainsAny], [ReplaceAll] of a byte. *)
Definition contains_byte (s : list Z) (c : Z) : bool := existsb (Z.eqb c) s.
Definition ContainsAny (s chars : list Z) : bool := existsb (fun c => contains_byte chars c) s.
Definition replace_byte (s : list Z) (old new : Z) : list Z := map (fun c => if c =? old then new else c) s.

(** [strings.Split(s, sep)] and [strings.Cut(s, sep)] with a one-byte separator. *)
Fixpoint split_byte (s : list Z) (sep : Z) : list (list Z) :=
  match s with
  | [] => [[]]
  | c :: rest =>
      if c =? sep then [] :: split_byte rest sep
      else match split_byte rest sep with
           | x :: xs => (c :: x) :: xs
           | [] => [[c]]
           end
  end.
Fixpoint cut_byte (s : list Z) (sep : Z) : option (list Z * list Z) :=
  match s with
  | [] => None
  | c :: rest =>
      if c =? sep then Some ([], rest)
      else match cut_byte rest sep with Some (a, b) => Some (c :: a, b) | None => None end
  end.

(** [filepath.Base] *)
Section Base.
Context {F : Platform}.
Fixpoint drop_separators (s : list Z) : list Z :=
  match s with
  | c :: rest => if isPathSeparator c then drop_separators rest else s
  | [] => []
  end.
Fixpoint before_separator (s : list Z) : list Z :=
  match s with
  | c :: rest => if isPathSeparator c then [] else c :: before_separator rest
  | [] => []
  end.
Definition Base (path : list Z) : Res (list Z) :=
  match path with
  | [] => Ok (lit ".")
  | _ =>
      let path := rev (drop_separators (rev path)) in
      path ← slice path (volumeLen path) (blen path);
      let path := rev (before_separator (rev path)) in
      Ok (match path with [] => [separator] | _ => path end)
  end.

Lemma Base_returns path : ∃ b, Base path = Ok b.
Proof.
  unfold Base. destruct path as [|c p]; [eauto|].
  pose proof (volumeLen_bound (rev (drop_separators (rev (c :: p))))).
  rewrite slice_ok by lia. eauto.
Qed.
End Base.

(** ** Facts *)
Lemma HasPrefix_spec s p : HasPrefix s p = true ↔ ∃ r, s = p ++ r.
Proof.
  unfold HasPrefix. rewrite bool_decide_eq_true. split.
  - intros E. exists (drop (length p) s). rewrite <- E at 1. symmetry. apply take_drop.
  - intros [r ->]. by rewrite take_app_length.
Qed.
Lemma HasSuffix_spec s p : HasSuffix s p = true ↔ ∃ r, s = r ++ p.
Proof.
  unfold HasSuffix. rewrite andb_true_iff, bool_decide_eq_true, Nat.leb_le. split.
  - intros [Hl E]. exists (take (length s - length p) s). rewrite <- E at 2. symmetry. apply take_drop.
  - intros [r ->]. rewrite length_app. split; [lia|].
    replace (length r + length p - length p)%nat with (length r) by lia. by rewrite drop_app_length.
Qed.

Lemma lower_byte_idem c : lower_byte (lower_byte c) = lower_byte c.
Proof.
  unfold lower_byte. destruct ((65 <=? c) && (c <=? 90)) eqn:E; [|by rewrite E]. zbool.
  rewrite (proj2 (Z.leb_gt (c + 32) 90)) by lia. by rewrite andb_false_r.
Qed.
Lemma lower_byte_ascii c : c < 128 → lower_byte c < 128.
Proof. unfold lower_byte. destruct (_ && _) eqn:E; zbool; lia. Qed.

Lemma ToLower_ascii {U : Unicode} s : isASCII s = true → ToLower s = map lower_byte s ∧ isASCII (ToLower s) = true.
Proof.
  intros H. unfold ToLower. rewrite H. split; [done|]. unfold isASCII in *.
  rewrite forallb_forall in *. intros c Hc. apply in_map_iff in Hc as (x & <- & Hx).
  specialize (H x Hx). rewrite Z.ltb_lt in *. by apply lower_byte_ascii.
Qed.
(** An ASCII prefix of the lower-cased string is no longer than the string. *)
Lemma ToLower_prefix_len {U : Unicode} s p : isASCII p = true → HasPrefix (ToLower s) p = true → blen p <= blen s.
Proof.
  intros Hp [r E]%HasPrefix_spec. unfold ToLower in E. destruct (isASCII s).
  - apply (f_equal blen) in E. unfold blen in *. rewrite length_map, length_app in E. lia.
  - by eapply u_lower_runes.
Qed.
Lemma ToLower_ascii_idem {U : Unicode} s : isASCII s = true → ToLower (ToLower s) = ToLower s.
Proof.
  intros H. destruct (ToLower_ascii s H) as [E Ha]. unfold ToLower at 1. rewrite Ha, E, map_map.
  apply map_ext. apply lower_byte_idem.
Qed.

Lemma drop_spaces_idem s : drop_spaces (drop_spaces s) = drop_spaces s.
Proof.
  induction s as [|c s IH]; [done|]. cbn. destruct ((c <? 128) && is_space c) eqn:E; [done|]. cbn. by rewrite E.
Qed.
Lemma drop_spaces_suffix s : ∃ l, s = l ++ drop_spaces s ∧ Forall (fun c => (c <? 128) && is_space c = true) l.
Proof.
  induction s as [|c s (l & E & Hl)]; [by exists []|]. cbn. destruct ((c <? 128) && is_space c) eqn:Ec.
  - exists (c :: l). split; [by rewrite E at 1|by constructor].
  - by exists [].
Qed.
(** A string whose first byte is no ASCII space keeps it when its end is trimmed. *)
Lemma drop_spaces_rev_head s :
  drop_spaces s = s → drop_spaces (rev (drop_spaces (rev s))) = rev (drop_spaces (rev s)).
Proof.
  intros Hs. destruct (drop_spaces_suffix (rev s)) as (l & E & Hl).
  assert (Es : s = rev (drop_spaces (rev s)) ++ rev l) by (rewrite <- rev_app_distr, <- E; by rewrite rev_involutive).
  set (t := rev (drop_spaces (rev s))) in *. clearbody t. destruct t as [|c t]; [done|].
  rewrite Es in Hs. cbn in Hs |- *. destruct ((c <? 128) && is_space c) eqn:Ec; [|done].
  exfalso. assert (H : length (drop_spaces (t ++ rev l)) = length (c :: t ++ rev l)) by by rewrite Hs.
  destruct (drop_spaces_suffix (t ++ rev l)) as (l2 & E2 & _). apply (f_equal length) in E2.
  cbn [length] in H. rewrite !length_app in *. lia.
Qed.

Lemma TrimSpace_idem {U : Unicode} s : TrimSpace (TrimSpace s) = TrimSpace s.
Proof.
  unfold TrimSpace. unfold trim_with at 2 3. cbv zeta.
  destruct (non_ascii_head (drop_spaces s)) eqn:E1; [apply u_trim_trimmed|].
  destruct (non_ascii_head (drop_spaces (rev (drop_spaces s)))) eqn:E2.
  - assert (H : drop_spaces (rev (drop_spaces (rev (drop_spaces s)))) = rev (drop_spaces (rev (drop_spaces s))))
      by (apply drop_spaces_rev_head, drop_spaces_idem).
    apply u_trim_right_trimmed; [done|].
    destruct (drop_spaces_suffix (rev (drop_spaces s))) as (l & E & _).
    assert (Es : drop_spaces s = rev (drop_spaces (rev (drop_spaces s))) ++ rev l)
      by (rewrite <- rev_app_distr, <- E; by rewrite rev_involutive).
    destruct (rev (drop_spaces (rev (drop_spaces s)))) as [|c t] eqn:Et; [done|]. rewrite Es in E1. exact E1.
  - unfold trim_with. cbv zeta. rewrite drop_spaces_rev_head by apply drop_spaces_idem.
    replace (non_ascii_head (rev (drop_spaces (rev (drop_spaces s))))) with false.
    + rewrite rev_involutive, drop_spaces_idem, E2. done.
    + destruct (drop_spaces_suffix (rev (drop_spaces s))) as (l & E & _).
      assert (Es : drop_spaces s = rev (drop_spaces (rev (drop_spaces s))) ++ rev l)
        by (rewrite <- rev_app_distr, <- E; by rewrite rev_involutive).
      destruct (rev (drop_spaces (rev (drop_spaces s)))) as [|c t] eqn:Et; [done|]. rewrite Es in E1. by symmetry.
Qed.

(** ** Concrete instances, for examples

    Strings outside ASCII are cut to nothing; a POSIX platform has no volumes. *)
Definition ascii_unicode : Unicode.
Proof.
  refine {| u_lower _ := []; u_trim _ := []; u_trim_right _ := [] |}; try done.
  intros s [|c p] t E _; [apply blen_nonneg|done].
Defined.
Definition posix : Platform.
Proof.
  refine {| volumeLen _ := 0; isPathSeparator c := c =? 47; separator := 47 |}.
  intros p. pose proof (blen_nonneg p). lia.
Defined.
