(* ===== verification/FlowIndex.v ===== *)
(** * Process ownership of flows: [internal/flow/index.go]

    The index keeps four sources of ownership; live sockets are stored twice,
    by endpoint id ([sockets]) and by local endpoint ([socketLocal]).  Ranging
    over a Go map visits entries in an unspecified order: [newest] works on a
    list, and the theorems hold for every enumeration [enum] of a bucket.  The
    channel [notify] has capacity one and is modelled by whether it is full. *)

From S2P Require Import Prelude Netip GoStrings.
Local Open Scope Z_scope.

Record Key : Type := mkKey {
  kProto : Z; kLocal : Addr; kRemote : Addr; kLocalPort : Z; kRemotePort : Z
}.
Record localKey : Type := mkLocalKey { lkProto : Z; lkLocal : Addr; lkPort : Z }.
#[export] Instance Key_eq_dec : EqDecision Key.
Proof. solve_decision. Defined.
#[export] Program Instance Key_countable : Countable Key :=
  inj_countable (fun k => (kProto k, kLocal k, kRemote k, kLocalPort k, kRemotePort k))
    (fun '(p, l, r, lp, rp) => Some (mkKey p l r lp rp)) _.
Next Obligation. by intros []. Qed.
#[export] Instance localKey_eq_dec : EqDecision localKey.
Proof. solve_decision. Defined.
#[export] Program Instance localKey_countable : Countable localKey :=
  inj_countable (fun k => (lkProto k, lkLocal k, lkPort k)) (fun '(p, l, q) => Some (mkLocalKey p l q)) _.
Next Obligation. by intros []. Qed.

Record Process : Type := mkProcess { prPID : Z; prName : list Z; prPath : list Z }.
Definition Process0 : Process := mkProcess 0 [] [].
Record entry : Type := mkEntry { eP : Process; eSeen : Z }.
Record socketEntry : Type := mkSocketEntry { sKey : localKey; sEntry : entry }.

Record Index : Type := mkIndex {
  ix_m : gmap Key entry;
  ix_snapshotExact : gmap Key entry;
  ix_locals : gmap localKey entry;
  ix_sockets : gmap Z socketEntry;
  ix_socketLocal : gmap localKey (gmap Z entry);
  ix_notify : bool
}.

Definition New : Index := mkIndex ∅ ∅ ∅ ∅ ∅ false.

Definition backslash : Z := 92.
Definition slash : Z := 47.

Section Index.
Context {U : Unicode} {F : Platform}.
Implicit Types (i : Index) (p : Process) (k : Key) (lk : localKey) (now : Z).

Definition NormalizeProcess p : Res Process :=
  let name := TrimSpace (prName p) in
  if bool_decide (name = []) && negb (bool_decide (prPath p = [])) then
    (b ← Base (replace_byte (prPath p) backslash slash); Ok (mkProcess (prPID p) b (prPath p)))
  else Ok (mkProcess (prPID p) name (prPath p)).

Definition normalizeLocal (a : Addr) : Addr :=
  if negb (IsValid a) || IsUnspecified a then AddrZero else Unmap a.

Definition signal i : Index :=
  mkIndex (ix_m i) (ix_snapshotExact i) (ix_locals i) (ix_sockets i) (ix_socketLocal i) true.

Definition Add now k p i : Res Index :=
  p ← NormalizeProcess p;
  Ok (signal (mkIndex (<[k := mkEntry p now]> (ix_m i)) (ix_snapshotExact i) (ix_locals i)
    (ix_sockets i) (ix_socketLocal i) (ix_notify i))).

Definition AddSnapshotExact now k p i : Res Index :=
  p ← NormalizeProcess p;
  Ok (signal (mkIndex (ix_m i) (<[k := mkEntry p now]> (ix_snapshotExact i)) (ix_locals i)
    (ix_sockets i) (ix_socketLocal i) (ix_notify i))).

Definition AddLocal now (proto : Z) (local : Addr) (port : Z) p i : Res Index :=
  if port =? 0 then Ok i else
  p ← NormalizeProcess p;
  let local := normalizeLocal local in
  Ok (signal (mkIndex (ix_m i) (ix_snapshotExact i)
    (<[mkLocalKey proto local port := mkEntry p now]> (ix_locals i))
    (ix_sockets i) (ix_socketLocal i) (ix_notify i))).

Definition deleteSocketIndexLocked (endpointID : Z) lk i : Index :=
  let sockets := delete endpointID (ix_sockets i) in
  let socketLocal :=
    match ix_socketLocal i !! lk with
    | Some bucket =>
        let bucket := delete endpointID bucket in
        if bool_decide (bucket = ∅) then delete lk (ix_socketLocal i)
        else <[lk := bucket]> (ix_socketLocal i)
    | None => ix_socketLocal i
    end in
  mkIndex (ix_m i) (ix_snapshotExact i) (ix_locals i) sockets socketLocal (ix_notify i).

Definition AddSocket now (endpointID proto : Z) (local : Addr) (port : Z) p i : Res Index :=
  if (endpointID =? 0) || (port =? 0) then AddLocal now proto local port p i else
  p ← NormalizeProcess p;
  let lk := mkLocalKey proto (normalizeLocal local) port in
  let i := match ix_sockets i !! endpointID with
           | Some old => deleteSocketIndexLocked endpointID (sKey old) i
           | None => i
           end in
  let e := mkEntry p now in
  let bucket := match ix_socketLocal i !! lk with Some bucket => bucket | None => ∅ end in
  Ok (signal (mkIndex (ix_m i) (ix_snapshotExact i) (ix_locals i)
    (<[endpointID := mkSocketEntry lk e]> (ix_sockets i))
    (<[lk := <[endpointID := e]> bucket]> (ix_socketLocal i)) (ix_notify i))).

Definition Delete k i : Index :=
  mkIndex (delete k (ix_m i)) (ix_snapshotExact i) (ix_locals i) (ix_sockets i) (ix_socketLocal i) (ix_notify i).

Definition DeleteLocal (proto : Z) (local : Addr) (port : Z) i : Index :=
  let local := normalizeLocal local in
  let l := delete (mkLocalKey proto local port) (ix_locals i) in
  let l := if IsValid local then delete (mkLocalKey proto AddrZero port) l else l in
  mkIndex (ix_m i) (ix_snapshotExact i) l (ix_sockets i) (ix_socketLocal i) (ix_notify i).

Definition DeleteSocket (endpointID : Z) i : Index :=
  if endpointID =? 0 then i else
  match ix_sockets i !! endpointID with
  | Some old => deleteSocketIndexLocked endpointID (sKey old) i
  | None => i
  end.

(** The loop of [newest] over an enumeration of a bucket. *)
Fixpoint newest_loop (l : list (Z * entry)) (best : option entry) : option entry :=
  match l with
  | [] => best
  | (_, e) :: rest =>
      newest_loop rest
        (match best with
         | None => Some e
         | Some b => if eSeen b <? eSeen e then Some e else Some b
         end)
  end.

Section Lookup.
Context (enum : gmap Z entry → list (Z * entry)).
Definition newest (bucket : option (gmap Z entry)) : option entry :=
  newest_loop (match bucket with Some b => enum b | None => [] end) None.

Definition orElse {A} (x y : option A) : option A := match x with Some _ => x | None => y end.

Definition exactLocal k : localKey := mkLocalKey (kProto k) (normalizeLocal (kLocal k)) (kLocalPort k).
Definition wildLocal k : localKey := mkLocalKey (kProto k) AddrZero (kLocalPort k).

Definition Lookup k i : option entry :=
  let valid := IsValid (lkLocal (exactLocal k)) in
  let e := ix_m i !! k in
  let e := orElse e (newest (ix_socketLocal i !! exactLocal k)) in
  let e := orElse e (if valid then newest (ix_socketLocal i !! wildLocal k) else None) in
  let e := orElse e (ix_snapshotExact i !! k) in
  let e := orElse e (ix_locals i !! exactLocal k) in
  orElse e (if valid then ix_locals i !! wildLocal k else None).

(** What [WaitLookup] sees after its first lookup: the index at every wake-up,
    until the deadline fires (the end of the list). *)
Fixpoint wait_loop k (wakeups : list Index) : option entry :=
  match wakeups with
  | [] => None
  | i :: rest => match Lookup k i with Some e => Some e | None => wait_loop k rest end
  end.
Definition WaitLookup k i (wakeups : list Index) : option entry :=
  match Lookup k i with Some e => Some e | None => wait_loop k wakeups end.
End Lookup.

Definition drop_old {K} `{Countable K} (cut : Z) (m : gmap K entry) : gmap K entry :=
  sweep_map (fun e => eSeen e <? cut) m.
Definition Sweep now (age : Z) i : Index :=
  let cut := now - age in
  mkIndex (drop_old cut (ix_m i)) (drop_old cut (ix_snapshotExact i)) (drop_old cut (ix_locals i))
    (ix_sockets i) (ix_socketLocal i) (ix_notify i).

(** [Match], the loop over the configured names. *)
Fixpoint match_loop (name path : list Z) (names : list (list Z)) : Res bool :=
  match names with
  | [] => Ok false
  | x :: rest =>
      let x := ToLower (TrimSpace x) in
      if bool_decide (x = []) then match_loop name path rest else
      if contains_byte x backslash then
        if bool_decide (path = replace_byte x slash backslash) then Ok true
        else match_loop name path rest
      else
        b ← Base (replace_byte x backslash slash);
        if bool_decide (name = ToLower b) then Ok true else match_loop name path rest
  end.
Definition Match p (names : list (list Z)) : Res bool :=
  match_loop (ToLower (prName p)) (ToLower (replace_byte (prPath p) slash backslash)) names.

(** ** The two socket tables agree *)
Definition in_bucket i lk (id : Z) (e : entry) : Prop :=
  ∃ b, ix_socketLocal i !! lk = Some b ∧ b !! id = Some e.

Record index_wf i : Prop := {
  iw_agree : ∀ lk id e, in_bucket i lk id e ↔ ix_sockets i !! id = Some (mkSocketEntry lk e);
  iw_nonempty : ∀ lk b, ix_socketLocal i !! lk = Some b → b ≠ ∅
}.

Lemma index_New_wf : index_wf New.
Proof. split; cbn; [|done]. intros lk id e. unfold in_bucket; cbn. split; [|done]. by intros (b & Hb & _). Qed.

Lemma NormalizeProcess_returns p : ∃ p', NormalizeProcess p = Ok p'.
Proof.
  unfold NormalizeProcess. cbv zeta. destruct (_ && _); [|eauto].
  destruct (Base_returns (replace_byte (prPath p) backslash slash)) as [b ->]. eauto.
Qed.

(** Closing an endpoint removes that endpoint and nothing else. *)
Lemma deleteSocket_wf id lk e i :
  index_wf i → ix_sockets i !! id = Some (mkSocketEntry lk e) →
  index_wf (deleteSocketIndexLocked id lk i) ∧
  ix_sockets (deleteSocketIndexLocked id lk i) = delete id (ix_sockets i).
Proof.
  intros [Ha Hn] Hid. pose proof (proj2 (Ha lk id e) Hid) as (b & Hb & Hbe).
  split; [|done]. split; unfold deleteSocketIndexLocked; cbn; rewrite Hb.
  - intros lk0 id0 e0. rewrite lookup_delete_Some, <- Ha. unfold in_bucket; cbn.
    destruct (bool_decide (delete id b = ∅)) eqn:Eb; [apply bool_decide_eq_true in Eb|].
    + split.
      * intros (b0 & [Hne Hb0]%lookup_delete_Some & He0). split; [|eauto].
        intros <-. destruct (proj1 (Ha lk0 id e0)); [by exists b0|].
        assert (H : Some (mkSocketEntry lk0 e0) = Some (mkSocketEntry lk e)) by (rewrite <- Hid; symmetry; apply Ha; by exists b0).
        congruence.
      * intros [Hne (b0 & Hb0 & He0)]. exists b0. rewrite lookup_delete_Some. split_and!; try done.
        intros <-. assert (b0 = b) as -> by congruence.
        assert (delete id b !! id0 = Some e0) by (by rewrite lookup_delete_ne). by rewrite Eb in *.
    + destruct (decide (lk = lk0)) as [<-|Hne].
      * split.
        -- intros (b0 & Hb0 & He0). rewrite lookup_insert_eq in Hb0. injection Hb0 as <-.
           apply lookup_delete_Some in He0 as [? ?]. eauto.
        -- intros [Hne (b0 & Hb0 & He0)]. assert (b0 = b) as -> by congruence.
           exists (delete id b). rewrite lookup_insert_eq. split; [done|]. by rewrite lookup_delete_ne.
      * rewrite lookup_insert_ne by done. split; [|tauto]. intros Hin. split; [|done]. intros <-.
        assert (H : Some (mkSocketEntry lk0 e0) = Some (mkSocketEntry lk e)) by (rewrite <- Hid; symmetry; by apply Ha).
        congruence.
  - intros lk0 b0. destruct (bool_decide (delete id b = ∅)) eqn:Eb.
    + intros [_ H]%lookup_delete_Some. by eapply Hn.
    + apply bool_decide_eq_false in Eb. destruct (decide (lk = lk0)) as [<-|Hne].
      * rewrite lookup_insert_eq. by intros [= <-].
      * rewrite lookup_insert_ne by done. apply Hn.
Qed.

Lemma DeleteSocket_ok id i : index_wf i →
  index_wf (DeleteSocket id i) ∧
  ix_sockets (DeleteSocket id i) = (if id =? 0 then ix_sockets i else delete id (ix_sockets i)) ∧
  ix_m (DeleteSocket id i) = ix_m i ∧ ix_snapshotExact (DeleteSocket id i) = ix_snapshotExact i ∧
  ix_locals (DeleteSocket id i) = ix_locals i.
Proof.
  intros Hw. unfold DeleteSocket. destruct (id =? 0); [done|].
  destruct (ix_sockets i !! id) as [[lk e]|] eqn:E.
  - by destruct (deleteSocket_wf id lk e i Hw E).
  - split_and!; try done. by rewrite delete_id.
Qed.

(** Opening an endpoint enters it in both tables, whatever it was before. *)
Lemma AddSocket_ok now id proto local port p i :
  index_wf i → id ≠ 0 → port ≠ 0 →
  ∃ p' i', AddSocket now id proto local port p i = Ok i' ∧ NormalizeProcess p = Ok p' ∧ index_wf i' ∧
    ix_sockets i' =
      <[id := mkSocketEntry (mkLocalKey proto (normalizeLocal local) port) (mkEntry p' now)]> (ix_sockets i) ∧
    ix_m i' = ix_m i ∧ ix_snapshotExact i' = ix_snapshotExact i ∧ ix_locals i' = ix_locals i.
Proof.
  intros Hw Hid Hport. unfold AddSocket. rewrite (proj2 (Z.eqb_neq id 0)), (proj2 (Z.eqb_neq port 0)) by done.
  cbn [orb]. destruct (NormalizeProcess_returns p) as [p' ->]. rewrite bind_Ok. cbv zeta.
  set (lk := mkLocalKey proto (normalizeLocal local) port). set (e := mkEntry p' now).
  set (i1 := match ix_sockets i !! id with Some old => _ | None => i end).
  assert (H1 : index_wf i1 ∧ ix_sockets i1 = delete id (ix_sockets i) ∧ ix_m i1 = ix_m i ∧
    ix_snapshotExact i1 = ix_snapshotExact i ∧ ix_locals i1 = ix_locals i).
  { subst i1. destruct (ix_sockets i !! id) as [[lk0 e0]|] eqn:E.
    - by destruct (deleteSocket_wf id lk0 e0 i Hw E).
    - split_and!; try done. by rewrite delete_id. }
  destruct H1 as ([Ha Hn] & Hs & Hm & Hx & Hl). clearbody i1.
  assert (Hfree : ∀ lk0 e0, ¬ in_bucket i1 lk0 id e0).
  { intros lk0 e0 H. apply Ha in H. by rewrite Hs, lookup_delete_eq in H. }
  eexists p', _. split_and!; try done; cbn.
  2:{ rewrite Hs. by rewrite insert_delete_eq. }
  split; cbn.
  - intros lk0 id0 e0. unfold in_bucket; cbn. destruct (decide (lk = lk0)) as [<-|Hlk].
    + rewrite lookup_insert_eq. destruct (decide (id = id0)) as [<-|Hne].
      * rewrite lookup_insert_eq. split.
        -- intros (b & [= <-] & He). rewrite lookup_insert_eq in He. congruence.
        -- intros [= <-]. eexists. split; [done|]. by rewrite lookup_insert_eq.
      * rewrite lookup_insert_ne by done. rewrite <- Ha. unfold in_bucket. split.
        -- intros (b & [= <-] & He). rewrite lookup_insert_ne in He by done.
           destruct (ix_socketLocal i1 !! lk) as [b|]; [eauto|]. by rewrite lookup_empty in He.
        -- intros (b & Hb & He). rewrite Hb. eexists. split; [done|]. by rewrite lookup_insert_ne.
    + rewrite lookup_insert_ne by done. fold (in_bucket i1 lk0 id0 e0).
      destruct (decide (id = id0)) as [<-|Hne].
      * rewrite lookup_insert_eq. split; [intros H; by apply Hfree in H|congruence].
      * rewrite lookup_insert_ne by done. apply Ha.
  - intros lk0 b0. destruct (decide (lk = lk0)) as [<-|Hlk].
    + rewrite lookup_insert_eq. intros [= <-]. apply insert_non_empty.
    + rewrite lookup_insert_ne by done. apply Hn.
Qed.

(** Every operation of the package. *)
Inductive index_step : Index → Index → Prop :=
  | st_Add now k p i i' : Add now k p i = Ok i' → index_step i i'
  | st_AddSnapshotExact now k p i i' : AddSnapshotExact now k p i = Ok i' → index_step i i'
  | st_AddLocal now pr a q p i i' : AddLocal now pr a q p i = Ok i' → index_step i i'
  | st_AddSocket now id pr a q p i i' : AddSocket now id pr a q p i = Ok i' → index_step i i'
  | st_Delete k i : index_step i (Delete k i)
  | st_DeleteLocal pr a q i : index_step i (DeleteLocal pr a q i)
  | st_DeleteSocket id i : index_step i (DeleteSocket id i)
  | st_Sweep now age i : index_step i (Sweep now age i).

(** [index_wf] depends on the socket tables only. *)
Lemma index_wf_sockets i i' :
  ix_sockets i' = ix_sockets i → ix_socketLocal i' = ix_socketLocal i → index_wf i → index_wf i'.
Proof. intros E1 E2 [Ha Hn]. split; unfold in_bucket in *; rewrite ?E1, ?E2; done. Qed.

Lemma AddLocal_sockets now pr a q p i i' : AddLocal now pr a q p i = Ok i' →
  ix_sockets i' = ix_sockets i ∧ ix_socketLocal i' = ix_socketLocal i.
Proof.
  unfold AddLocal. destruct (q =? 0); [by intros [= <-]|].
  destruct (NormalizeProcess_returns p) as [p' ->]. rewrite bind_Ok. by intros [= <-].
Qed.

Lemma index_step_wf i i' : index_wf i → index_step i i' → index_wf i'.
Proof.
  intros Hw Hs. destruct Hs as [now k p i i' E|now k p i i' E|now pr a q p i i' E|now id pr a q p i i' E| | |id i|];
    try (apply (index_wf_sockets i); done).
  - apply bind_Ok_inv in E as (p' & _ & [= <-]). by apply (index_wf_sockets i).
  - apply bind_Ok_inv in E as (p' & _ & [= <-]). by apply (index_wf_sockets i).
  - apply AddLocal_sockets in E as [E1 E2]. by apply (index_wf_sockets i).
  - destruct (decide (id = 0 ∨ q = 0)) as [Hz|Hz].
    + assert (E' : AddLocal now pr a q p i = Ok i').
      { revert E. unfold AddSocket.
        replace ((id =? 0) || (q =? 0)) with true; [done|].
        symmetry. rewrite orb_true_iff, !Z.eqb_eq. tauto. }
      apply AddLocal_sockets in E' as [E1 E2]. by apply (index_wf_sockets i).
    + destruct (AddSocket_ok now id pr a q p i Hw) as (p' & i1 & E1 & _ & Hw1 & _); [tauto..|]. congruence.
  - apply (DeleteSocket_ok id i Hw).
Qed.

Inductive reachable : Index → Prop :=
  | reach_new : reachable New
  | reach_step i i' : reachable i → index_step i i' → reachable i'.
Lemma reachable_wf i : reachable i → index_wf i.
Proof. induction 1; [apply index_New_wf|by eapply index_step_wf]. Qed.

(** ** Lookup *)

(** The newest of a list: present, and no other is later. *)
Definition is_newest (l : list (Z * entry)) (e : entry) : Prop :=
  (∃ id, (id, e) ∈ l) ∧ ∀ id' e', (id', e') ∈ l → eSeen e' <= eSeen e.

Lemma newest_loop_spec l best :
  match newest_loop l best with
  | Some e => (best = Some e ∨ ∃ id, (id, e) ∈ l) ∧
      (∀ id' e', (id', e') ∈ l → eSeen e' <= eSeen e) ∧ (∀ b, best = Some b → eSeen b <= eSeen e)
  | None => l = [] ∧ best = None
  end.
Proof.
  revert best. induction l as [|[id e] l IH]; intros best; cbn [newest_loop].
  { destruct best as [b|]; [|done]. split_and!; [by left| |intros ? [= ->]; lia].
    intros id' e' H. by apply not_elem_of_nil in H. }
  set (b1 := match best with None => _ | Some b => _ end). specialize (IH b1).
  assert (Hb1 : ∃ x, b1 = Some x ∧ eSeen e <= eSeen x ∧ (∀ b, best = Some b → eSeen b <= eSeen x) ∧
    (x = e ∨ best = Some x)).
  { subst b1. destruct best as [b|].
    - destruct (Z.ltb_spec (eSeen b) (eSeen e)); eexists; (split; [done|]); split_and!;
        try lia; try (intros ? [= <-]; lia); tauto.
    - exists e. split_and!; try done; try lia. by left. }
  destruct Hb1 as (x & Eb & H1 & H2 & H3). clearbody b1. subst b1.
  destruct (newest_loop l (Some x)) as [y|]; [|by destruct IH].
  destruct IH as (I1 & I2 & I3). specialize (I3 x eq_refl). split_and!.
  - destruct I1 as [[= ->]|(id' & Hin)].
    + destruct H3 as [->|?]; [|by left]. right. exists id. constructor.
    + right. exists id'. by constructor.
  - intros id' e' H. apply elem_of_cons in H as [[= -> ->]|H]; [lia|by eapply I2].
  - intros b Hb. specialize (H2 b Hb). lia.
Qed.

Section LookupSpec.
Context (enum : gmap Z entry → list (Z * entry)).
Hypothesis enum_perm : ∀ b, enum b ≡ₚ map_to_list b.

(** In terms of the endpoints only: the live sockets bound to [lk]. *)
Definition live i lk (id : Z) (e : entry) : Prop := ix_sockets i !! id = Some (mkSocketEntry lk e).
Definition newest_live i lk (r : option entry) : Prop :=
  match r with
  | Some e => (∃ id, live i lk id e) ∧ ∀ id' e', live i lk id' e' → eSeen e' <= eSeen e
  | None => ∀ id e, ¬ live i lk id e
  end.

Lemma newest_spec i lk : index_wf i → newest_live i lk (newest enum (ix_socketLocal i !! lk)).
Proof.
  intros [Ha Hn]. unfold newest, newest_live, live.
  pose proof (newest_loop_spec (match ix_socketLocal i !! lk with Some b => enum b | None => [] end) None) as H.
  destruct (newest_loop _ None) as [e|].
  - destruct H as ([?|(id & Hin)] & Hmax & _); [done|].
    destruct (ix_socketLocal i !! lk) as [b|] eqn:Eb; [|by apply not_elem_of_nil in Hin].
    split.
    + exists id. apply Ha. exists b. split; [done|]. rewrite enum_perm in Hin. by apply elem_of_map_to_list.
    + intros id' e' (b' & Hb' & He')%Ha. assert (b' = b) as -> by congruence.
      apply (Hmax id'). rewrite enum_perm. by apply elem_of_map_to_list.
  - destruct H as [H _]. intros id e (b & Hb & He)%Ha. rewrite Hb in H.
    apply elem_of_map_to_list in He. rewrite <- enum_perm, H in He. by apply not_elem_of_nil in He.
Qed.

(** The first of a list of sources that has an answer. *)
Fixpoint first_of (l : list (option entry)) : option entry :=
  match l with [] => None | x :: rest => orElse x (first_of rest) end.

(** The specification: exact flow, then live sockets on the address, then on
    the wildcard, then the historical snapshot, in this order. *)
Definition lookup_spec i k (r : option entry) : Prop :=
  ∃ s1 s2, newest_live i (exactLocal k) s1 ∧ newest_live i (wildLocal k) s2 ∧
    let valid := IsValid (normalizeLocal (kLocal k)) in
    r = first_of [ix_m i !! k; s1; (if valid then s2 else None); ix_snapshotExact i !! k;
                  ix_locals i !! exactLocal k; (if valid then ix_locals i !! wildLocal k else None)].

Lemma Lookup_refines i k : index_wf i → lookup_spec i k (Lookup enum k i).
Proof.
  intros Hw. exists (newest enum (ix_socketLocal i !! exactLocal k)), (newest enum (ix_socketLocal i !! wildLocal k)).
  split_and!; [by apply newest_spec..|]. cbv zeta. unfold Lookup. cbn [exactLocal lkLocal first_of].
  set (a := ix_m i !! k). set (b := newest enum (ix_socketLocal i !! exactLocal k)).
  destruct (IsValid _); destruct a, b; cbn; try done;
    destruct (newest enum (ix_socketLocal i !! wildLocal k)); cbn; try done;
    destruct (ix_snapshotExact i !! k); cbn; try done; destruct (ix_locals i !! exactLocal k); cbn; try done.
  all: by destruct (ix_locals i !! wildLocal k).
Qed.
End LookupSpec.
End Index.

Section Properties.
Context {U : Unicode} {F : Platform}.
Implicit Types (i : Index) (p : Process) (k : Key) (lk : localKey) (now : Z).

(** The two socket tables never drift apart: after any sequence of
    operations an endpoint is in the bucket of a local endpoint exactly when it
    is recorded under its id with that local endpoint and the same owner, and no
    bucket is empty. *)
Theorem socket_tables_agree i :
  reachable i →
  (∀ lk id e, in_bucket i lk id e ↔ ix_sockets i !! id = Some (mkSocketEntry lk e)) ∧
  (∀ lk b, ix_socketLocal i !! lk = Some b → b ≠ ∅).
Proof. intros Hr. destruct (reachable_wf i Hr) as [Ha Hn]. done. Qed.

(** C32: [Lookup] implements its specification, whatever order the runtime ranges
    over a bucket in: an exact flow entry wins; then the newest live socket bound
    to the local address; then the newest bound to the wildcard (if the address
    is a concrete one); then the snapshot of connections and of local ports. *)
Theorem Lookup_correct (enum : gmap Z entry → list (Z * entry)) i k :
  (∀ b, enum b ≡ₚ map_to_list b) → reachable i → lookup_spec i k (Lookup enum k i).
Proof. intros He Hr. by apply Lookup_refines, reachable_wf. Qed.

(** A late CLOSE of an old endpoint cannot take away a reused local port:
    after a socket [id] was opened on the tuple later than every live socket
    there, closing any other endpoint leaves the new owner's process as the
    answer for every flow from that tuple without an exact flow entry. *)
Theorem late_close_keeps_new_owner (enum : gmap Z entry → list (Z * entry)) i k now id old proto local port p :
  (∀ b, enum b ≡ₚ map_to_list b) → reachable i → id ≠ 0 → port ≠ 0 → old ≠ id →
  kProto k = proto → normalizeLocal (kLocal k) = normalizeLocal local → kLocalPort k = port →
  ix_m i !! k = None →
  (∀ id' e', live i (exactLocal k) id' e' → eSeen e' < now) →
  ∃ i' p', AddSocket now id proto local port p i = Ok i' ∧ NormalizeProcess p = Ok p' ∧
    Lookup enum k (DeleteSocket old i') = Some (mkEntry p' now).
Proof.
  intros He Hr Hid Hport Hold Hp Hl Hq Hm Hlast.
  destruct (AddSocket_ok now id proto local port p i (reachable_wf i Hr) Hid Hport)
    as (p' & i' & E & En & Hw & Hs & Em & _). exists i', p'. split_and!; try done.
  destruct (DeleteSocket_ok old i' Hw) as (Hw2 & Hs2 & Em2 & _).
  set (i2 := DeleteSocket old i') in *.
  destruct (Lookup_refines enum He i2 k Hw2) as (s1 & s2 & H1 & _ & ->).
  rewrite Em2, Em, Hm. cbn [first_of orElse].
  assert (Elk : exactLocal k = mkLocalKey proto (normalizeLocal local) port) by (unfold exactLocal; congruence).
  assert (Hlive : live i2 (exactLocal k) id (mkEntry p' now)).
  { unfold live. rewrite Hs2. assert (Hid2 : ix_sockets i' !! id = Some (mkSocketEntry (exactLocal k) (mkEntry p' now))).
    { rewrite Hs, Elk. apply lookup_insert_eq. }
    destruct (old =? 0); [done|]. by rewrite lookup_delete_ne. }
  destruct s1 as [e|]; [|by apply H1 in Hlive]. cbn. f_equal. destruct H1 as [(id1 & H1) Hmax].
  specialize (Hmax id _ Hlive). cbn in Hmax. unfold live in H1. rewrite Hs2 in H1.
  assert (H1' : ix_sockets i' !! id1 = Some (mkSocketEntry (exactLocal k) e)).
  { destruct (old =? 0); [done|]. by apply lookup_delete_Some in H1 as [_ ?]. }
  rewrite Hs in H1'. destruct (decide (id = id1)) as [<-|Hne].
  - rewrite lookup_insert_eq in H1'. congruence.
  - rewrite lookup_insert_ne in H1' by done. specialize (Hlast _ _ H1'). lia.
Qed.

(** [Sweep] forgets exactly the flow and snapshot entries older than the
    cut and never a live socket, however old. *)
Theorem index_Sweep_exact now (age : Z) i k lk :
  ix_sockets (Sweep now age i) = ix_sockets i ∧ ix_socketLocal (Sweep now age i) = ix_socketLocal i ∧
  ix_m (Sweep now age i) !! k = (e ← ix_m i !! k; if eSeen e <? now - age then None else Some e) ∧
  ix_snapshotExact (Sweep now age i) !! k =
    (e ← ix_snapshotExact i !! k; if eSeen e <? now - age then None else Some e) ∧
  ix_locals (Sweep now age i) !! lk = (e ← ix_locals i !! lk; if eSeen e <? now - age then None else Some e).
Proof. split_and!; try done; cbn; unfold drop_old; apply sweep_map_lookup. Qed.
End Properties.

(** A concrete platform for the examples: ASCII only, no volumes. *)
#[local] Existing Instance ascii_unicode.
#[local] Existing Instance posix.

Definition old_exe : Process := mkProcess 1 (lit "old.exe") [].
Definition new_exe : Process := mkProcess 2 (lit "new.exe") [].
Definition reuse_key : Key := mkKey 17 (Addr4 [10; 0; 0; 10]) (Addr4 [203; 0; 113; 1]) 50000 3478.
Definition after_old : Index :=
  match AddSocket 1 100 17 (Addr4 [10; 0; 0; 10]) 50000 old_exe New with Ok i => i | _ => New end.

Lemma after_old_reachable : reachable after_old.
Proof.
  eapply reach_step; [apply reach_new|]. eapply (st_AddSocket 1 100 17 (Addr4 [10; 0; 0; 10]) 50000 old_exe).
  reflexivity.
Qed.

Lemma socket_tables_agree_witness :
  in_bucket after_old (exactLocal reuse_key) 100 (mkEntry old_exe 1).
Proof. apply (socket_tables_agree after_old after_old_reachable). vm_compute. reflexivity. Defined.

Lemma Lookup_correct_witness :
  lookup_spec after_old reuse_key (Some (mkEntry old_exe 1)).
Proof.
  exact (Lookup_correct map_to_list after_old reuse_key (fun b => Permutation_refl _) after_old_reachable).
Defined.

Lemma late_close_keeps_new_owner_witness :
  ∃ i' p', AddSocket 2 200 17 (Addr4 [10; 0; 0; 10]) 50000 new_exe after_old = Ok i' ∧
    NormalizeProcess new_exe = Ok p' ∧ Lookup map_to_list reuse_key (DeleteSocket 100 i') = Some (mkEntry p' 2).
Proof.
  apply (late_close_keeps_new_owner map_to_list after_old reuse_key 2 200 100 17 (Addr4 [10; 0; 0; 10]) 50000 new_exe);
    try reflexivity; try lia.
  - exact after_old_reachable.
  - intros id' e' H. unfold live in H. change (ix_sockets after_old) with
      ({[ 100 := mkSocketEntry (exactLocal reuse_key) (mkEntry old_exe 1) ]} : gmap Z socketEntry) in H.
    apply lookup_singleton_Some in H as [_ H]. injection H as <-. reflexivity.
Defined.
