(* ===== verification/Routes.v ===== *)
(** * Sticky routes: [internal/engine/flowroute.go] and [internal/engine/proxyroute.go]

    A flow's route is decided once; [flowRouteTable] remembers the decision per
    flow key, [proxyRouteTable] remembers what the local proxy chose for an
    upstream connection it dialled.  [time.Now()] is the argument [now]. *)

From S2P Require Import Prelude Netip GoStrings FlowIndex.
Local Open Scope Z_scope.

(** ** flowroute.go *)
Module FlowRoute.
Record flowRouteEntry : Type := mkFlowRoute { frTunnel : bool; frProc : Process; frKnown : bool; frSeen : Z }.
Abbreviation flowRouteTable := (gmap Key flowRouteEntry).
Definition newFlowRouteTable : flowRouteTable := ∅.

Definition seen_at (e : flowRouteEntry) (now : Z) : flowRouteEntry :=
  mkFlowRoute (frTunnel e) (frProc e) (frKnown e) now.
Definition Lookup (now : Z) (k : Key) (t : flowRouteTable) : flowRouteTable * option flowRouteEntry :=
  match t !! k with
  | Some e => let e := seen_at e now in (<[k := e]> t, Some e)
  | None => (t, None)
  end.
Definition Set_ (now : Z) (k : Key) (tunnel : bool) (proc : Process) (known : bool) (t : flowRouteTable)
    : flowRouteTable :=
  match t !! k with
  | Some _ => t
  | None => <[k := mkFlowRoute tunnel proc known now]> t
  end.
Definition Delete (k : Key) (t : flowRouteTable) : flowRouteTable := delete k t.
Definition Sweep (now age : Z) (t : flowRouteTable) : flowRouteTable :=
  sweep_map (fun e => frSeen e <? now - age) t.

(** What a table is asked to do, and a run of requests. *)
Inductive op : Type :=
  | OpLookup (now : Z) (k : Key)
  | OpSet (now : Z) (k : Key) (tunnel : bool) (proc : Process) (known : bool)
  | OpDelete (k : Key)
  | OpSweep (now age : Z).
Definition apply (o : op) (t : flowRouteTable) : flowRouteTable :=
  match o with
  | OpLookup now k => fst (Lookup now k t)
  | OpSet now k tn p kn => Set_ now k tn p kn t
  | OpDelete k => Delete k t
  | OpSweep now age => Sweep now age t
  end.
Definition run (ops : list op) (t : flowRouteTable) : flowRouteTable := fold_left (fun t o => apply o t) ops t.

Definition same_route (e e' : flowRouteEntry) : Prop :=
  frTunnel e' = frTunnel e ∧ frProc e' = frProc e ∧ frKnown e' = frKnown e ∧ frSeen e <= frSeen e'.

(** Requests at times that do not run backwards, none of which deletes [k] and
    no sweep of which cuts after [seen]. *)
Fixpoint harmless (k : Key) (seen : Z) (ops : list op) : Prop :=
  match ops with
  | [] => True
  | o :: rest =>
      match o with
      | OpLookup now _ | OpSet now _ _ _ _ => seen <= now
      | OpDelete k' => k' ≠ k
      | OpSweep now age => now - age <= seen
      end ∧ harmless k seen rest
  end.

Lemma apply_keeps o k seen t e :
  harmless k seen [o] → seen <= frSeen e → t !! k = Some e →
  ∃ e', apply o t !! k = Some e' ∧ frTunnel e' = frTunnel e ∧ frProc e' = frProc e ∧ frKnown e' = frKnown e ∧
    seen <= frSeen e'.
Proof.
  intros [Ho _] Hs Hk. destruct o as [now k'|now k' tn p kn|k'|now age]; cbn in *.
  - unfold Lookup. destruct (t !! k') as [e0|] eqn:E0; [|by exists e]. cbn.
    destruct (decide (k' = k)) as [->|Hne].
    + assert (e0 = e) as -> by congruence. exists (seen_at e now). rewrite lookup_insert_eq. done.
    + exists e. by rewrite lookup_insert_ne.
  - unfold Set_. destruct (t !! k') as [e0|] eqn:E0; [by exists e|].
    exists e. rewrite lookup_insert_ne by congruence. done.
  - exists e. unfold Delete. by rewrite lookup_delete_ne.
  - exists e. unfold Sweep. rewrite sweep_map_lookup, Hk. cbn. by rewrite (proj2 (Z.ltb_ge _ _)) by lia.
Qed.

(** A route decision is sticky: once a flow has an entry, no later [Set]
    (or lookup) changes where its packets go or whom they belong to; only
    deleting the flow or sweeping it after its last use removes it. *)
Theorem route_is_sticky (ops : list op) (k : Key) (t : flowRouteTable) (e : flowRouteEntry) (seen : Z) :
  t !! k = Some e → seen <= frSeen e → harmless k seen ops →
  ∃ e', run ops t !! k = Some e' ∧ frTunnel e' = frTunnel e ∧ frProc e' = frProc e ∧ frKnown e' = frKnown e.
Proof.
  revert t e. induction ops as [|o ops IH]; intros t e Hk Hs Hh; [by exists e|].
  destruct Hh as [Ho Hh]. destruct (apply_keeps o k seen t e) as (e1 & H1 & A & B & C & D); [by split|done|done|].
  destruct (IH _ e1 H1 D Hh) as (e2 & H2 & A2 & B2 & C2). exists e2. cbn. split; [done|]. intuition congruence.
Qed.

Definition k0 : Key := mkKey 6 (Addr4 [10; 0; 0; 2]) (Addr4 [1; 1; 1; 1]) 5000 443.
Definition p0 : Process := mkProcess 7 [97] [].
Lemma route_is_sticky_witness :
  ∃ e', run [OpSet 20 k0 false p0 false; OpLookup 25 k0; OpSweep 30 25] (Set_ 10 k0 true p0 true newFlowRouteTable) !! k0
    = Some e' ∧ frTunnel e' = true.
Proof.
  destruct (route_is_sticky [OpSet 20 k0 false p0 false; OpLookup 25 k0; OpSweep 30 25] k0
    (Set_ 10 k0 true p0 true newFlowRouteTable) (mkFlowRoute true p0 true 10) 10) as (e' & H & Ht & _).
  - vm_compute. reflexivity.
  - cbn. lia.
  - cbn. lia.
  - exists e'. split; [exact H|exact Ht].
Defined.
End FlowRoute.

(** ** proxyroute.go *)
Module ProxyRoute.
Record proxyRouteKey : Type := mkProxyKey { pkProto : Z; pkLocalPort : Z; pkRemote : Addr; pkRemotePort : Z }.
#[export] Instance proxyRouteKey_eq_dec : EqDecision proxyRouteKey.
Proof. solve_decision. Defined.
#[export] Program Instance proxyRouteKey_countable : Countable proxyRouteKey :=
  inj_countable (fun k => (pkProto k, pkLocalPort k, pkRemote k, pkRemotePort k))
    (fun '(p, l, r, q) => Some (mkProxyKey p l r q)) _.
Next Obligation. by intros []. Qed.

Record proxyRouteEntry : Type := mkProxyEntry { peTunnel : bool; peSeen : Z }.
Abbreviation proxyRouteTable := (gmap proxyRouteKey proxyRouteEntry).
Definition newProxyRouteTable : proxyRouteTable := ∅.

Definition proxyKeyFromFlow (k : Key) : proxyRouteKey :=
  mkProxyKey (kProto k) (kLocalPort k) (Unmap (kRemote k)) (kRemotePort k).
Definition unmap_key (k : proxyRouteKey) : proxyRouteKey :=
  mkProxyKey (pkProto k) (pkLocalPort k) (Unmap (pkRemote k)) (pkRemotePort k).

Definition Set_ (now : Z) (k : proxyRouteKey) (tunnel : bool) (t : proxyRouteTable) : proxyRouteTable :=
  if (pkProto k =? 0) || (pkLocalPort k =? 0) || negb (IsValid (pkRemote k)) || (pkRemotePort k =? 0) then t
  else <[unmap_key k := mkProxyEntry tunnel now]> t.
Definition Lookup (now : Z) (k : Key) (t : proxyRouteTable) : proxyRouteTable * (bool * bool) :=
  let pk := proxyKeyFromFlow k in
  match t !! pk with
  | Some e => (<[pk := mkProxyEntry (peTunnel e) now]> t, (peTunnel e, true))
  | None => (t, (false, false))
  end.
Definition DeleteFlow (k : Key) (t : proxyRouteTable) : proxyRouteTable := delete (proxyKeyFromFlow k) t.
Definition DeleteKey (k : proxyRouteKey) (t : proxyRouteTable) : proxyRouteTable := delete (unmap_key k) t.
Definition Sweep (now age : Z) (t : proxyRouteTable) : proxyRouteTable :=
  sweep_map (fun e => peSeen e <? now - age) t.

(** What the proxy recorded is found for the flow it dialled: a [Set] with
    complete fields is returned by [Lookup] of every flow with the same protocol,
    local port and remote endpoint, whether the remote address is written as IPv4
    or as IPv4-mapped IPv6 and whatever the local address; an incomplete key
    changes nothing; [DeleteKey] and [DeleteFlow] undo it. *)
Theorem proxy_route_found (now now' : Z) (pk : proxyRouteKey) (tunnel : bool) (k : Key) (t : proxyRouteTable) :
  kProto k = pkProto pk → kLocalPort k = pkLocalPort pk → kRemotePort k = pkRemotePort pk →
  Unmap (kRemote k) = Unmap (pkRemote pk) →
  (if (pkProto pk =? 0) || (pkLocalPort pk =? 0) || negb (IsValid (pkRemote pk)) || (pkRemotePort pk =? 0)
   then Set_ now pk tunnel t = t
   else snd (Lookup now' k (Set_ now pk tunnel t)) = (tunnel, true)) ∧
  snd (Lookup now' k (DeleteKey pk t)) = (false, false) ∧
  snd (Lookup now' k (DeleteFlow k t)) = (false, false).
Proof.
  intros E1 E2 E3 E4. assert (Ek : proxyKeyFromFlow k = unmap_key pk) by (unfold proxyKeyFromFlow, unmap_key; congruence).
  unfold Set_, Lookup, DeleteKey, DeleteFlow. rewrite Ek, lookup_delete_eq. split_and!; try done.
  destruct (_ || _); [done|]. by rewrite lookup_insert_eq.
Qed.

Definition pk0 : proxyRouteKey := mkProxyKey 6 5000 (Addr6 (mapped_prefix ++ [1; 1; 1; 1])) 443.
Lemma proxy_route_found_witness :
  snd (Lookup 9 FlowRoute.k0 (Set_ 5 pk0 true newProxyRouteTable)) = (true, true).
Proof.
  exact (proj1 (proxy_route_found 5 9 pk0 true FlowRoute.k0 newProxyRouteTable eq_refl eq_refl eq_refl eq_refl)).
Defined.
End ProxyRoute.
