(* ===== verification/Config.v ===== *)
(** * Configuration: [internal/config/config.go]

    Parsing of the WireGuard file and of the SplitWire rules, validation and
    domain patterns.  Text decoders of the standard library that the code only
    calls ([netip.ParseAddr], [netip.ParsePrefix], [Prefix.Masked],
    [strconv.Unquote], [base64]) are the class [Decoders]; everything else,
    [bufio.Scanner] and [strconv.Atoi] included, is written out.  File access
    ([Load]) is the pair of contents [LoadFromData] takes. *)

From S2P Require Import Prelude Netip GoStrings.
Local Open Scope Z_scope.

Record Peer : Type := mkPeer {
  PublicKey : list Z; PresharedKey : list Z; Endpoint : list Z; PersistentKeepalive : Z
}.
Record Group : Type := mkGroup {
  gName : list Z; gApps : list (list Z); gDomains : list (list Z); gNetworks : list Prefix
}.
Record Config : Type := mkConfig {
  cPrivateKey : list Z;
  cAddresses : list Prefix;
  cDNSServers : list Addr;
  cPeer : Peer;
  cGroups : list Group;
  cPhysicalInterface : list Z;
  cMTU : Z;
  cDNSRefreshSeconds : Z;
  cUsedDefaultRules : bool;
  cDefaultRulesPath : list Z
}.

Class Decoders := {
  ParseAddr : list Z → option Addr;
  ParsePrefix : list Z → option Prefix;
  Masked : Prefix → Prefix;
  Unquote : list Z → option (list Z);
  Base64 : list Z → option (list Z)
}.

Definition Defaults : Config :=
  mkConfig [] [] [] (mkPeer [] [] [] 0) [] [] 1380 60 false [].

Definition set_wg (c : Config) (key : list Z) (addrs : list Prefix) (dns : list Addr) (peer : Peer) : Config :=
  mkConfig key addrs dns peer (cGroups c) (cPhysicalInterface c) (cMTU c) (cDNSRefreshSeconds c)
    (cUsedDefaultRules c) (cDefaultRulesPath c).
Definition set_split (c : Config) (groups : list Group) (iface : list Z) (mtu refresh : Z) : Config :=
  mkConfig (cPrivateKey c) (cAddresses c) (cDNSServers c) (cPeer c) groups iface mtu refresh
    (cUsedDefaultRules c) (cDefaultRulesPath c).
Definition set_groups (c : Config) (groups : list Group) : Config :=
  set_split c groups (cPhysicalInterface c) (cMTU c) (cDNSRefreshSeconds c).
Definition set_defaults_used (c : Config) : Config :=
  mkConfig (cPrivateKey c) (cAddresses c) (cDNSServers c) (cPeer c) (cGroups c) (cPhysicalInterface c)
    (cMTU c) (cDNSRefreshSeconds c) true (cDefaultRulesPath c).

(** ** Text *)

(** [bufio.ScanLines]: lines end at a newline, a trailing carriage return is
    dropped, an empty last line is none; a line of 64 KiB stops the scanner with an error. *)
Definition dropCR (l : list Z) : list Z := TrimSuffix l [13].
Definition raw_lines (data : list Z) : list (list Z) :=
  match rev (split_byte data 10) with
  | [] :: rest => rev rest
  | all => rev all
  end.
Fixpoint scan (lines : list (list Z)) : list (list Z) * bool :=
  match lines with
  | [] => ([], true)
  | l :: rest => if 65536 <=? blen l then ([], false) else let '(ls, ok) := scan rest in (dropCR l :: ls, ok)
  end.

(** [strconv.Atoi] on a 64-bit platform. *)
Definition digit (c : Z) : option Z := if (48 <=? c) && (c <=? 57) then Some (c - 48) else None.
Fixpoint digits (s : list Z) (acc : Z) : option Z :=
  match s with
  | [] => Some acc
  | c :: rest => match digit c with Some d => digits rest (acc * 10 + d) | None => None end
  end.
Definition Atoi (s : list Z) : option Z :=
  let '(neg, ds) := match s with
                    | 43 :: r => (false, r)
                    | 45 :: r => (true, r)
                    | _ => (false, s)
                    end in
  match ds with
  | [] => None
  | _ =>
      match digits ds 0 with
      | Some n =>
          let n := if (neg : bool) then - n else n in
          if (- 9223372036854775808 <=? n) && (n <=? 9223372036854775807) then Some n else None
      | None => None
      end
  end.

Fixpoint stripComment (s : list Z) : list Z :=
  match s with
  | [] => []
  | c :: rest => if (c =? 35) || (c =? 59) then [] else c :: stripComment rest
  end.

Section Config.
Context {U : Unicode} {D : Decoders}.

Definition splitList (v : list Z) : list (list Z) :=
  List.filter (fun x => negb (bool_decide (x = []))) (map TrimSpace (split_byte v 44)).
Definition lowerList (v : list Z) : list (list Z) :=
  map (fun x => ToLower (TrimSuffix x (lit "."))) (splitList v).

(** ** Sections *)
Inductive sectionKind : Type :=
  sectionOther | sectionInterface | sectionPeer | sectionSplitWire | sectionGroup.

Definition is_group_header (low : list Z) : bool :=
  bool_decide (low = lit "group") || HasPrefix low (lit "group ") || HasPrefix low (lit "group" ++ [9]).

Definition parseSection (raw : list Z) : Res (sectionKind * list Z) :=
  let raw := TrimSpace raw in
  let low := ToLower raw in
  if bool_decide (low = lit "interface") then Ok (sectionInterface, []) else
  if bool_decide (low = lit "peer") then Ok (sectionPeer, []) else
  if bool_decide (low = lit "splitwire") then Ok (sectionSplitWire, []) else
  if is_group_header low then
    rest ← slice raw 5 (blen raw);
    let rest := TrimSpace rest in
    if bool_decide (rest = []) then Err "group section requires a name" else
    name ← (if HasPrefix rest [34] then
              match Unquote rest with Some u => Ok u | None => Err "invalid group name" end
            else Ok rest);
    let name := TrimSpace name in
    if bool_decide (name = []) then Err "group name cannot be empty" else
    Ok (sectionGroup, name)
  else Ok (sectionOther, []).

Definition hasSplit_line (text : list Z) : bool :=
  let line := TrimSpace (stripComment text) in
  if (blen line <? 2) || negb (gb line 0 =? 91) || negb (gb line (blen line - 1) =? 93) then false else
  let low := ToLower (TrimSpace (bsub line 1 (blen line - 1))) in
  bool_decide (low = lit "splitwire") || is_group_header low.
Definition hasSplitSections (data : list Z) : bool :=
  existsb hasSplit_line (fst (scan (raw_lines data))).

(** ** The line loop of [parseInto] *)
Record pstate : Type := mkPstate { psKind : sectionKind; psPeerSeen : bool; psGroup : Z; psCfg : Config }.

Fixpoint parse_prefixes (xs : list (list Z)) : option (list Prefix) :=
  match xs with
  | [] => Some []
  | x :: rest =>
      match ParsePrefix x, parse_prefixes rest with
      | Some p, Some ps => Some (p :: ps)
      | _, _ => None
      end
  end.
Fixpoint dns_servers (xs : list (list Z)) : list Addr :=
  match xs with
  | [] => []
  | x :: rest => match ParseAddr (TrimSpace x) with
                 | Some a => Unmap a :: dns_servers rest
                 | None => dns_servers rest
                 end
  end.

Definition interface_key (k v : list Z) (c : Config) : Res Config :=
  if bool_decide (k = lit "privatekey") then Ok (set_wg c v (cAddresses c) (cDNSServers c) (cPeer c)) else
  if bool_decide (k = lit "address") then
    match parse_prefixes (splitList v) with
    | Some ps => Ok (set_wg c (cPrivateKey c) (cAddresses c ++ ps) (cDNSServers c) (cPeer c))
    | None => Err "Address"
    end
  else if bool_decide (k = lit "dns") then
    Ok (set_wg c (cPrivateKey c) (cAddresses c) (cDNSServers c ++ dns_servers (splitList v)) (cPeer c))
  else Ok c.

Definition peer_key (k v : list Z) (c : Config) : Res Config :=
  let p := cPeer c in
  let set p := set_wg c (cPrivateKey c) (cAddresses c) (cDNSServers c) p in
  if bool_decide (k = lit "publickey") then Ok (set (mkPeer v (PresharedKey p) (Endpoint p) (PersistentKeepalive p))) else
  if bool_decide (k = lit "presharedkey") then Ok (set (mkPeer (PublicKey p) v (Endpoint p) (PersistentKeepalive p))) else
  if bool_decide (k = lit "endpoint") then Ok (set (mkPeer (PublicKey p) (PresharedKey p) v (PersistentKeepalive p))) else
  if bool_decide (k = lit "persistentkeepalive") then
    match Atoi v with
    | Some n => Ok (set (mkPeer (PublicKey p) (PresharedKey p) (Endpoint p) n))
    | None => Err "PersistentKeepalive"
    end
  else Ok c.

Definition splitwire_key (k v : list Z) (c : Config) : Res Config :=
  if bool_decide (k = lit "physicalinterface") || bool_decide (k = lit "interface") then
    Ok (set_split c (cGroups c) v (cMTU c) (cDNSRefreshSeconds c)) else
  if bool_decide (k = lit "mtu") then
    match Atoi v with
    | Some n => Ok (set_split c (cGroups c) (cPhysicalInterface c) n (cDNSRefreshSeconds c))
    | None => Err "MTU"
    end
  else if bool_decide (k = lit "dnsrefreshseconds") then
    match Atoi v with
    | Some n => Ok (set_split c (cGroups c) (cPhysicalInterface c) (cMTU c) n)
    | None => Err "DNSRefreshSeconds"
    end
  else Ok c.

Definition group_key (gi : Z) (k v : list Z) (c : Config) : Res Config :=
  if (gi <? 0) || (blen (cGroups c) <=? gi) then Err "internal group parser state" else
  match cGroups c !! Z.to_nat gi with
  | None => Panic
  | Some g =>
      let put g := set_groups c (<[Z.to_nat gi := g]> (cGroups c)) in
      if bool_decide (k = lit "apps") || bool_decide (k = lit "applications") then
        Ok (put (mkGroup (gName g) (splitList v) (gDomains g) (gNetworks g))) else
      if bool_decide (k = lit "domains") then
        Ok (put (mkGroup (gName g) (gApps g) (lowerList v) (gNetworks g))) else
      if bool_decide (k = lit "networks") || bool_decide (k = lit "ips") || bool_decide (k = lit "addresses") then
        match parse_prefixes (splitList v) with
        | Some ps => Ok (put (mkGroup (gName g) (gApps g) (gDomains g) (map Masked ps)))
        | None => Err "Network"
        end
      else Ok c
  end.

Definition section_line (allowWireGuard : bool) (line : list Z) (s : pstate) : Res pstate :=
  inner ← slice line 1 (blen line - 1);
  '(kind, name) ← parseSection (TrimSpace inner);
  let c := match kind with
           | sectionGroup => set_groups (psCfg s) (cGroups (psCfg s) ++ [mkGroup name [] [] []])
           | _ => psCfg s
           end in
  let gi := match kind with sectionGroup => blen (cGroups c) - 1 | _ => -1 end in
  match allowWireGuard, kind with
  | true, sectionPeer =>
      if psPeerSeen s then Err "SplitWire supports exactly one [Peer]" else Ok (mkPstate kind true gi c)
  | _, _ => Ok (mkPstate kind (psPeerSeen s) gi c)
  end.

Definition key_line (allowWireGuard : bool) (line : list Z) (s : pstate) : Res pstate :=
  match cut_byte line 61 with
  | None => Err "expected key = value"
  | Some (k, v) =>
      let k := ToLower (TrimSpace k) in
      let v := TrimSpace v in
      c ← match psKind s with
          | sectionInterface => if negb allowWireGuard then Ok (psCfg s) else interface_key k v (psCfg s)
          | sectionPeer => if negb allowWireGuard then Ok (psCfg s) else peer_key k v (psCfg s)
          | sectionSplitWire => splitwire_key k v (psCfg s)
          | sectionGroup => group_key (psGroup s) k v (psCfg s)
          | sectionOther => Ok (psCfg s)
          end;
      Ok (mkPstate (psKind s) (psPeerSeen s) (psGroup s) c)
  end.

Definition is_section (line : list Z) : bool := HasPrefix line (lit "[") && HasSuffix line (lit "]").
Definition parse_line (allowWireGuard : bool) (text : list Z) (s : pstate) : Res pstate :=
  let line := TrimSpace (stripComment text) in
  if bool_decide (line = []) then Ok s else
  if is_section line then section_line allowWireGuard line s else key_line allowWireGuard line s.

Fixpoint parse_lines (allowWireGuard : bool) (lines : list (list Z)) (s : pstate) : Res pstate :=
  match lines with
  | [] => Ok s
  | l :: rest => s ← parse_line allowWireGuard l s; parse_lines allowWireGuard rest s
  end.

Definition parseInto (data : list Z) (c : Config) (allowWireGuard : bool) : Res Config :=
  let '(lines, ok) := scan (raw_lines data) in
  s ← parse_lines allowWireGuard lines (mkPstate sectionOther false (-1) c);
  if (ok : bool) then Ok (psCfg s) else Err "bufio.Scanner: token too long".

(** ** Validation *)
Definition validWGKey (s : list Z) : Res unit :=
  match Base64 (TrimSpace s) with
  | None => Err "illegal base64 data"
  | Some b => if negb (blen b =? 32) then Err "expected 32 bytes" else Ok tt
  end.
Definition DecodeKey (s : list Z) : Res (list Z) :=
  match Base64 (TrimSpace s) with
  | None => Err "illegal base64 data"
  | Some b => if negb (blen b =? 32) then Err "expected 32 bytes" else Ok b
  end.

Fixpoint dedupe_loop (lower : bool) (xs : list (list Z)) (seen out : list (list Z)) : list (list Z) :=
  match xs with
  | [] => out
  | x :: rest =>
      let x := TrimSpace x in
      let x := if lower then ToLower x else x in
      if bool_decide (x = []) then dedupe_loop lower rest seen out else
      let k := ToLower x in
      if bool_decide (k ∈ seen) then dedupe_loop lower rest seen out
      else dedupe_loop lower rest (k :: seen) (out ++ [x])
  end.
Definition dedupe (xs : list (list Z)) (lower : bool) : list (list Z) := dedupe_loop lower xs [] [].

Definition star : list Z := lit "*".
Definition normalizeApps (xs : list (list Z)) : list (list Z) :=
  let out := dedupe xs false in
  if bool_decide (star ∈ out) then [star] else out.
Definition canon_domain (x : list Z) : list Z := ToLower (TrimSuffix (TrimSpace x) (lit ".")).
Definition normalizeDomains (xs : list (list Z)) : list (list Z) :=
  let out := dedupe (map canon_domain xs) true in
  if bool_decide (star ∈ out) then [star] else out.

Definition validateDomainPattern (p : list Z) : Res unit :=
  if bool_decide (p = star) then Ok tt else
  bad ← (if contains_byte p 42 then
           if negb (HasPrefix p (lit "*.")) then Ok true else
           rest ← slice p 2 (blen p);
           Ok (contains_byte rest 42 || (blen p <=? 2))
         else Ok false);
  if (bad : bool) then Err "only '*' or a leading '*.' wildcard is supported" else
  let base := TrimPrefix p (lit "*.") in
  if bool_decide (base = []) || ContainsAny base (lit " /\:") || HasPrefix base (lit ".") || HasSuffix base (lit ".")
  then Err "invalid DNS name pattern" else Ok tt.

Fixpoint all_domains_ok (ds : list (list Z)) : Res unit :=
  match ds with
  | [] => Ok tt
  | d :: rest => _ ← validateDomainPattern d; all_domains_ok rest
  end.

Fixpoint validate_groups (gs : list Group) (seen : list (list Z)) : Res (list Group) :=
  match gs with
  | [] => Ok []
  | g :: rest =>
      let name := TrimSpace (gName g) in
      if bool_decide (name = []) then Err "group has empty name" else
      let key := ToLower name in
      if bool_decide (key ∈ seen) then Err "duplicate group name" else
      let apps := normalizeApps (gApps g) in
      let domains := normalizeDomains (gDomains g) in
      if bool_decide (apps = []) then Err "Apps is required" else
      if bool_decide (domains = []) && bool_decide (gNetworks g = []) then Err "Domains or Networks is required" else
      _ ← all_domains_ok domains;
      rest' ← validate_groups rest (key :: seen);
      Ok (mkGroup name apps domains (gNetworks g) :: rest')
  end.

Definition Validate (c : Config) : Res Config :=
  _ ← validWGKey (cPrivateKey c);
  _ ← validWGKey (PublicKey (cPeer c));
  _ ← (if negb (bool_decide (PresharedKey (cPeer c) = [])) then validWGKey (PresharedKey (cPeer c)) else Ok tt);
  if bool_decide (TrimSpace (Endpoint (cPeer c)) = []) then Err "Peer.Endpoint is required" else
  if bool_decide (cAddresses c = []) then Err "Interface.Address is required" else
  if (cMTU c <? 576) || (9000 <? cMTU c) then Err "MTU is unreasonable" else
  let refresh := if cDNSRefreshSeconds c <? 10 then 10 else cDNSRefreshSeconds c in
  if bool_decide (cGroups c = []) then Err "no split rules configured" else
  gs ← validate_groups (cGroups c) [];
  Ok (set_split c gs (cPhysicalInterface c) (cMTU c) refresh).

Definition LoadFromData (wgData defaultData : list Z) : Res Config :=
  let cfg := Defaults in
  cfg ← (if negb (hasSplitSections wgData) then
           if bool_decide (defaultData = []) then Err "default config is empty" else
           cfg ← parseInto defaultData cfg false;
           Ok (set_defaults_used cfg)
         else Ok cfg);
  cfg ← parseInto wgData cfg true;
  Validate cfg.

(** ** Queries *)
Definition AppsAll (g : Group) : bool := bool_decide (gApps g = [star]).
Definition DomainsAll (g : Group) : bool := bool_decide (gDomains g = [star]).

Definition MatchDomainPattern (pattern host : list Z) : Res bool :=
  let p := canon_domain pattern in
  let h := canon_domain host in
  if bool_decide (p = star) then Ok (negb (bool_decide (h = []))) else
  if HasPrefix p (lit "*.") then
    base ← slice p 2 (blen p);
    Ok (negb (bool_decide (h = base)) && HasSuffix h (lit "." ++ base))
  else Ok (bool_decide (h = p)).

Fixpoint match_any (ps : list (list Z)) (host : list Z) : Res bool :=
  match ps with
  | [] => Ok false
  | p :: rest => b ← MatchDomainPattern p host; if (b : bool) then Ok true else match_any rest host
  end.
Definition MatchesDomain (g : Group) (host : list Z) : Res bool := match_any (gDomains g) host.

Fixpoint patterns_loop (ps seen out : list (list Z)) : list (list Z) :=
  match ps with
  | [] => out
  | p :: rest =>
      if bool_decide (p = star) then patterns_loop rest seen out else
      let k := ToLower p in
      if bool_decide (k ∈ seen) then patterns_loop rest seen out
      else patterns_loop rest (k :: seen) (out ++ [p])
  end.
Definition ProxyDomainPatterns (c : Config) : list (list Z) := patterns_loop (flat_map gDomains (cGroups c)) [] [].

Definition TunnelIPv4 (c : Config) : Addr * bool :=
  match List.find (fun p => Is4 (pfx_addr p)) (cAddresses c) with
  | Some p => (pfx_addr p, true)
  | None => (AddrZero, false)
  end.
Definition TunnelIPv6 (c : Config) : Addr * bool :=
  match List.find (fun p => Is6 (pfx_addr p)) (cAddresses c) with
  | Some p => (pfx_addr p, true)
  | None => (AddrZero, false)
  end.

(** ** Domain patterns *)

(** What a pattern means on names in canonical form (trimmed, no final dot,
    lower case). *)
Definition pattern_matches (p h : list Z) : Prop :=
  if bool_decide (p = star) then h ≠ []
  else if HasPrefix p (lit "*.") then ∃ x, h = x ++ lit "." ++ drop 2 p
  else h = p.

Lemma MatchDomainPattern_total pattern host :
  ∃ b, MatchDomainPattern pattern host = Ok b ∧
    (b = true ↔ pattern_matches (canon_domain pattern) (canon_domain host)).
Proof.
  unfold MatchDomainPattern, pattern_matches. cbv zeta.
  set (p := canon_domain pattern). set (h := canon_domain host). clearbody p h.
  destruct (bool_decide (p = star)).
  { eexists. split; [done|]. rewrite negb_true_iff, bool_decide_eq_false. done. }
  destruct (HasPrefix p (lit "*.")) eqn:Ep.
  - apply HasPrefix_spec in Ep as [base ->].
    rewrite slice_ok; [|lia|rewrite blen_app; change (blen (lit "*.")) with 2; pose proof (blen_nonneg base); lia|lia].
    rewrite bind_Ok. eexists. split; [done|].
    replace (bsub (lit "*." ++ base) 2 (blen (lit "*." ++ base))) with base.
    2:{ unfold bsub. rewrite blen_app. change (blen (lit "*.")) with 2.
        replace (Z.to_nat (2 + blen base - 2)) with (length base) by (unfold blen; lia).
        change (drop (Z.to_nat 2) (lit "*." ++ base)) with base. by rewrite take_ge by lia. }
    change (drop 2 (lit "*." ++ base)) with base.
    rewrite andb_true_iff, negb_true_iff, bool_decide_eq_false, HasSuffix_spec. split; [by intros [_ ?]|].
    intros [x ->]. split; [|by exists x]. intros E. apply (f_equal length) in E.
    rewrite !length_app in E. cbn in E. lia.
  - eexists. split; [done|]. apply bool_decide_eq_true.
Qed.

Lemma match_any_total ps host :
  ∃ b, match_any ps host = Ok b ∧
    (b = true ↔ ∃ p, p ∈ ps ∧ pattern_matches (canon_domain p) (canon_domain host)).
Proof.
  induction ps as [|p ps (b & E & Hb)]; cbn [match_any].
  { exists false. split; [done|]. split; [done|]. intros (p & H & _). by apply not_elem_of_nil in H. }
  destruct (MatchDomainPattern_total p host) as (b0 & -> & H0). rewrite bind_Ok. destruct b0.
  - exists true. split; [done|]. split; [|done]. intros _. exists p. split; [constructor|by apply H0].
  - exists b. split; [done|]. rewrite Hb. split.
    + intros (q & Hq & Hm). exists q. split; [by constructor|done].
    + intros (q & Hq & Hm). apply elem_of_cons in Hq as [->|Hq]; [|eauto].
      apply H0 in Hm. done.
Qed.

(** ** Deduplication *)
Lemma dedupe_loop_spec lower xs seen out :
  NoDup (map ToLower out) → Forall (fun x => x ≠ []) out → (∀ k, k ∈ seen ↔ k ∈ map ToLower out) →
  let r := dedupe_loop lower xs seen out in
  NoDup (map ToLower r) ∧ Forall (fun x => x ≠ []) r ∧ (∃ more, r = out ++ more) ∧
  (∀ x, x ∈ r → x ∈ out ∨ ∃ y, y ∈ xs ∧ x = (if lower then ToLower (TrimSpace y) else TrimSpace y)) ∧
  (∀ y, y ∈ xs → let x := if lower then ToLower (TrimSpace y) else TrimSpace y in
     x = [] ∨ ToLower x ∈ map ToLower r).
Proof.
  revert seen out. induction xs as [|y xs IH]; intros seen out Hnd Hne Hseen; cbn [dedupe_loop].
  { split_and!; try done; [by exists []; rewrite app_nil_r|tauto|]. intros y Hy. by apply not_elem_of_nil in Hy. }
  cbv zeta. set (x := if lower then ToLower (TrimSpace y) else TrimSpace y).
  destruct (bool_decide (x = [])) eqn:Ex; [apply bool_decide_eq_true in Ex|apply bool_decide_eq_false in Ex].
  { destruct (IH seen out Hnd Hne Hseen) as (I1 & I2 & I3 & I4 & I5). split_and!; try done.
    - intros z Hz. destruct (I4 z Hz) as [?|(w & Hw & ?)]; [by left|]. right. exists w. split; [by constructor|done].
    - intros w Hw. apply elem_of_cons in Hw as [->|Hw]; [by left|by apply I5]. }
  destruct (bool_decide (ToLower x ∈ seen)) eqn:Es; [apply bool_decide_eq_true in Es|apply bool_decide_eq_false in Es].
  { destruct (IH seen out Hnd Hne Hseen) as (I1 & I2 & I3 & I4 & I5). split_and!; try done.
    - intros z Hz. destruct (I4 z Hz) as [?|(w & Hw & ?)]; [by left|]. right. exists w. split; [by constructor|done].
    - intros w Hw. apply elem_of_cons in Hw as [->|Hw]; [|by apply I5]. right. fold x.
      destruct I3 as [more ->]. rewrite map_app. apply elem_of_app. left. by apply Hseen. }
  destruct (IH (ToLower x :: seen) (out ++ [x])) as (I1 & I2 & [more I3] & I4 & I5).
  - rewrite map_app. apply list.NoDup_app. split_and!; [done| |apply NoDup_singleton].
    intros k Hk Hk2. apply list_elem_of_singleton in Hk2 as ->. by apply Es, Hseen.
  - apply Forall_app. split; [done|]. by constructor.
  - intros k. rewrite map_app, elem_of_app, elem_of_cons, Hseen. cbn. rewrite list_elem_of_singleton. tauto.
  - split_and!; try done.
    + exists ([x] ++ more). rewrite I3. by rewrite <- app_assoc.
    + intros z Hz. destruct (I4 z Hz) as [H|(w & Hw & ?)].
      * apply elem_of_app in H as [H|H]; [by left|]. apply list_elem_of_singleton in H as ->.
        right. exists y. split; [constructor|done].
      * right. exists w. split; [by constructor|done].
    + intros w Hw. apply elem_of_cons in Hw as [->|Hw]; [|by apply I5]. right. fold x. rewrite I3, !map_app.
      rewrite !elem_of_app. left. right. by constructor.
Qed.

Lemma dedupe_spec xs lower :
  let r := dedupe xs lower in
  NoDup (map ToLower r) ∧ Forall (fun x => x ≠ []) r ∧
  (∀ x, x ∈ r → ∃ y, y ∈ xs ∧ x = (if lower then ToLower (TrimSpace y) else TrimSpace y)) ∧
  (∀ y, y ∈ xs → let x := if lower then ToLower (TrimSpace y) else TrimSpace y in
     x = [] ∨ ToLower x ∈ map ToLower r).
Proof.
  destruct (dedupe_loop_spec lower xs [] []) as (I1 & I2 & _ & I4 & I5);
    [constructor|constructor|intros; by rewrite !elem_of_nil|].
  cbv zeta. split_and!; try done. intros x Hx. destruct (I4 x Hx) as [H|?]; [|done].
  by apply not_elem_of_nil in H.
Qed.

(** A selector list in normal form: no blanks, no two entries equal up to case,
    and the catch-all stands alone. *)
Definition selectors_ok (l : list (list Z)) : Prop :=
  NoDup (map ToLower l) ∧ Forall (fun x => x ≠ []) l ∧ (star ∈ l → l = [star]).

Lemma star_alone l : NoDup (map ToLower l) → Forall (fun x => x ≠ []) l →
  selectors_ok (if bool_decide (star ∈ l) then [star] else l).
Proof.
  intros H1 H2. destruct (bool_decide (star ∈ l)) eqn:E.
  - split_and!; [apply NoDup_singleton|by constructor|done].
  - apply bool_decide_eq_false in E. split_and!; try done.
Qed.
Lemma normalizeApps_ok xs : selectors_ok (normalizeApps xs).
Proof. unfold normalizeApps. destruct (dedupe_spec xs false) as (? & ? & _). by apply star_alone. Qed.
Lemma normalizeDomains_ok xs : selectors_ok (normalizeDomains xs).
Proof.
  unfold normalizeDomains. destruct (dedupe_spec (map canon_domain xs) true) as (? & ? & _). by apply star_alone.
Qed.

(** ** Validation *)
Lemma validateDomainPattern_returns p : returns (validateDomainPattern p).
Proof.
  unfold validateDomainPattern. destruct (bool_decide _); [done|].
  destruct (contains_byte p 42); [destruct (HasPrefix p (lit "*.")) eqn:E|]; cbn [negb].
  - apply HasPrefix_spec in E as [r ->]. rewrite slice_ok;
      [|lia|rewrite blen_app; change (blen (lit "*.")) with 2; pose proof (blen_nonneg r); lia|lia].
    rewrite !bind_Ok. destruct (_ || _); [done|]. cbv zeta. by destruct (_ || _).
  - done.
  - rewrite bind_Ok. cbv beta iota zeta. by destruct (_ || _).
Qed.

Lemma all_domains_ok_spec ds :
  match all_domains_ok ds with
  | Ok _ => Forall (fun d => validateDomainPattern d = Ok tt) ds
  | Err _ => True
  | _ => False
  end.
Proof.
  induction ds as [|d ds IH]; cbn [all_domains_ok]; [constructor|].
  pose proof (validateDomainPattern_returns d). destruct (validateDomainPattern d) as [[]| | |] eqn:E; try done.
  rewrite bind_Ok. destruct (all_domains_ok ds); try done. by constructor.
Qed.

Record group_ok (g : Group) : Prop := {
  go_name : gName g ≠ [] ∧ TrimSpace (gName g) = gName g;
  go_apps : gApps g ≠ [] ∧ selectors_ok (gApps g);
  go_domains : selectors_ok (gDomains g) ∧ Forall (fun d => validateDomainPattern d = Ok tt) (gDomains g);
  go_dest : gDomains g ≠ [] ∨ gNetworks g ≠ []
}.

Lemma validate_groups_spec gs seen :
  match validate_groups gs seen with
  | Ok gs' => Forall group_ok gs' ∧ length gs' = length gs ∧ NoDup (map (fun g => ToLower (gName g)) gs') ∧
      (∀ g, g ∈ gs' → ToLower (gName g) ∉ seen)
  | Err _ => True
  | _ => False
  end.
Proof.
  revert seen. induction gs as [|g gs IH]; intros seen; cbn [validate_groups].
  { split_and!; try done; try constructor. intros g Hg. by apply not_elem_of_nil in Hg. }
  cbv zeta. destruct (bool_decide (TrimSpace (gName g) = [])) eqn:E1; [done|]. apply bool_decide_eq_false in E1.
  destruct (bool_decide (_ ∈ seen)) eqn:E2; [done|]. apply bool_decide_eq_false in E2.
  destruct (bool_decide (normalizeApps (gApps g) = [])) eqn:E3; [done|]. apply bool_decide_eq_false in E3.
  destruct (_ && _) eqn:E4; [done|]. apply andb_false_iff in E4. rewrite !bool_decide_eq_false in E4.
  pose proof (all_domains_ok_spec (normalizeDomains (gDomains g))) as Hd.
  destruct (all_domains_ok _); try done. rewrite bind_Ok.
  specialize (IH (ToLower (TrimSpace (gName g)) :: seen)).
  destruct (validate_groups gs _) as [gs'| | |]; try done. rewrite bind_Ok. destruct IH as (I1 & I2 & I3 & I4).
  split_and!.
  - constructor; [|done]. split; cbn; try done.
    + split; [done|apply TrimSpace_idem].
    + split; [done|apply normalizeApps_ok].
    + split; [apply normalizeDomains_ok|done].
  - cbn. by rewrite I2.
  - cbn. constructor; [|done]. intros Hin. apply list_elem_of_In, in_map_iff in Hin as (g' & E & Hg').
    apply list_elem_of_In in Hg'. apply (I4 g' Hg'). rewrite E. constructor.
  - intros g' Hg'. apply elem_of_cons in Hg' as [->|Hg']; [done|].
    specialize (I4 g' Hg'). rewrite not_elem_of_cons in I4. tauto.
Qed.

(** ** Parsing returns *)
Lemma group_header_len s : is_group_header (ToLower s) = true → 5 <= blen s.
Proof.
  unfold is_group_header. rewrite !orb_true_iff, bool_decide_eq_true. intros [[E|E]|E].
  - apply (ToLower_prefix_len s (lit "group") eq_refl). rewrite E. reflexivity.
  - pose proof (ToLower_prefix_len s (lit "group ") eq_refl E) as H. change (blen (lit "group ")) with 6 in H. lia.
  - pose proof (ToLower_prefix_len s (lit "group" ++ [9]) eq_refl E) as H.
    change (blen (lit "group" ++ [9])) with 6 in H. lia.
Qed.

Lemma parseSection_spec raw :
  match parseSection raw with
  | Ok (kind, name) =>
      (kind = sectionGroup ∨ kind = sectionSplitWire →
       bool_decide (ToLower (TrimSpace raw) = lit "splitwire") || is_group_header (ToLower (TrimSpace raw)) = true)
  | Err _ => True
  | _ => False
  end.
Proof.
  unfold parseSection. cbv zeta. set (low := ToLower (TrimSpace raw)).
  destruct (bool_decide (low = lit "interface")); [intros [?|?]; done|].
  destruct (bool_decide (low = lit "peer")); [intros [?|?]; done|].
  destruct (bool_decide (low = lit "splitwire")); [done|].
  destruct (is_group_header low) eqn:E; [|intros [?|?]; done].
  rewrite slice_ok by (pose proof (group_header_len _ E); lia). rewrite bind_Ok.
  destruct (bool_decide _); [done|]. destruct (HasPrefix _ [34]).
  - destruct (Unquote _); [|done]. rewrite bind_Ok. by destruct (bool_decide _).
  - rewrite bind_Ok. by destruct (bool_decide _).
Qed.

Lemma is_section_spec line : is_section line = true →
  2 <= blen line ∧ gb line 0 = 91 ∧ gb line (blen line - 1) = 93.
Proof.
  unfold is_section. rewrite andb_true_iff. intros [[r Er]%HasPrefix_spec [l El]%HasSuffix_spec].
  change (lit "[") with [91] in Er. change (lit "]") with [93] in El.
  assert (Hl : 2 <= blen line).
  { rewrite Er. destruct r as [|c r]; [|rewrite blen_app; change (blen [91]) with 1; rewrite blen_cons;
      pose proof (blen_nonneg r); lia]. rewrite Er in El. destruct l as [|x [|y l]]; done. }
  split_and!; [done|by rewrite Er|]. rewrite El, blen_snoc. replace (blen l + 1 - 1) with (blen l) by lia.
  rewrite gb_app by apply blen_nonneg. rewrite Z.ltb_irrefl, Z.sub_diag. done.
Qed.

(** The two halves of a configuration. *)
Definition wg_part (c : Config) := (cPrivateKey c, cAddresses c, cDNSServers c, cPeer c).
Definition split_part (c : Config) := (cGroups c, cPhysicalInterface c, cMTU c, cDNSRefreshSeconds c).
Definition meta_part (c : Config) := (cUsedDefaultRules c, cDefaultRulesPath c).
Definition split_kind (k : sectionKind) : bool :=
  match k with sectionSplitWire | sectionGroup => true | _ => false end.

Lemma keys_wg k v c :
  match interface_key k v c with
  | Ok c' => split_part c' = split_part c ∧ meta_part c' = meta_part c
  | Err _ => True | _ => False end ∧
  match peer_key k v c with
  | Ok c' => split_part c' = split_part c ∧ meta_part c' = meta_part c
  | Err _ => True | _ => False end.
Proof.
  unfold interface_key, peer_key. split.
  - destruct (bool_decide _); [done|]. destruct (bool_decide _); [by destruct (parse_prefixes _)|].
    by destruct (bool_decide _).
  - do 3 (destruct (bool_decide _); [done|]). destruct (bool_decide _); [|done]. by destruct (Atoi v).
Qed.

Lemma keys_split gi k v c :
  match splitwire_key k v c with
  | Ok c' => wg_part c' = wg_part c ∧ meta_part c' = meta_part c
  | Err _ => True | _ => False end ∧
  match group_key gi k v c with
  | Ok c' => wg_part c' = wg_part c ∧ meta_part c' = meta_part c
  | Err _ => True | _ => False end.
Proof.
  unfold splitwire_key, group_key. split.
  - destruct (_ || _); [done|]. destruct (bool_decide _); [by destruct (Atoi v)|].
    destruct (bool_decide _); [by destruct (Atoi v)|done].
  - destruct ((gi <? 0) || _) eqn:E; [done|]. zbool.
    destruct (cGroups c !! Z.to_nat gi) as [g|] eqn:Eg.
    + destruct (_ || _); [done|]. destruct (bool_decide _); [done|]. destruct (_ || _ || _); [|done].
      by destruct (parse_prefixes _).
    + apply lookup_ge_None_1 in Eg. unfold blen in *. lia.
Qed.

Lemma parse_line_spec allow text s :
  match parse_line allow text s with
  | Ok s' => meta_part (psCfg s') = meta_part (psCfg s) ∧
      (allow = false → wg_part (psCfg s') = wg_part (psCfg s)) ∧
      (hasSplit_line text = false → split_kind (psKind s) = false →
       split_kind (psKind s') = false ∧ split_part (psCfg s') = split_part (psCfg s))
  | Err _ => True
  | _ => False
  end.
Proof.
  unfold parse_line. cbv zeta. unfold hasSplit_line. cbv zeta. set (line := TrimSpace (stripComment text)).
  destruct (bool_decide (line = [])); [done|]. destruct (is_section line) eqn:Es.
  - destruct (is_section_spec line Es) as (Hl & G0 & G1). unfold section_line.
    rewrite slice_ok by lia. rewrite bind_Ok. rewrite G0, G1. zdec.
    set (inner := bsub line 1 (blen line - 1)).
    pose proof (parseSection_spec (TrimSpace inner)) as HP. rewrite TrimSpace_idem in HP.
    destruct (parseSection (TrimSpace inner)) as [[kind name]| | |]; try done. rewrite bind_Ok.
    assert (Hk : bool_decide (ToLower (TrimSpace inner) = lit "splitwire") || is_group_header (ToLower (TrimSpace inner)) = false
      → split_kind kind = false).
    { intros E. destruct kind; try done; rewrite HP in E; tauto. }
    destruct kind, allow; try destruct (psPeerSeen s); cbn; try done; split_and!; try done; intros E _; by apply Hk in E.
  - unfold key_line. destruct (cut_byte line 61) as [[k v]|]; [|done]. cbv zeta.
    set (k' := ToLower (TrimSpace k)). set (v' := TrimSpace v).
    destruct (keys_wg k' v' (psCfg s)) as [W1 W2]. destruct (keys_split (psGroup s) k' v' (psCfg s)) as [S1 S2].
    destruct (psKind s) eqn:Ek.
    + rewrite bind_Ok. done.
    + destruct allow; cbn [negb]; [|done]. destruct (interface_key _ _ _); try done. rewrite bind_Ok. cbn.
      split_and!; [tauto|done|intros; split; [done|tauto]].
    + destruct allow; cbn [negb]; [|done]. destruct (peer_key _ _ _); try done. rewrite bind_Ok. cbn.
      split_and!; [tauto|done|intros; split; [done|tauto]].
    + destruct (splitwire_key _ _ _); try done. rewrite bind_Ok. cbn. split_and!; try tauto. done.
    + destruct (group_key _ _ _ _); try done. rewrite bind_Ok. cbn. split_and!; try tauto. done.
Qed.

Lemma parse_lines_spec allow lines s :
  match parse_lines allow lines s with
  | Ok s' => meta_part (psCfg s') = meta_part (psCfg s) ∧
      (allow = false → wg_part (psCfg s') = wg_part (psCfg s)) ∧
      (existsb hasSplit_line lines = false → split_kind (psKind s) = false →
       split_part (psCfg s') = split_part (psCfg s))
  | Err _ => True
  | _ => False
  end.
Proof.
  revert s. induction lines as [|l lines IH]; intros s; cbn [parse_lines]; [done|].
  pose proof (parse_line_spec allow l s) as H1. destruct (parse_line allow l s) as [s1| | |]; try done.
  rewrite bind_Ok. specialize (IH s1). destruct (parse_lines allow lines s1) as [s2| | |]; try done.
  destruct H1 as (A1 & A2 & A3), IH as (B1 & B2 & B3). split_and!; [congruence| |].
  - intros Ha. rewrite B2, A2 by done. done.
  - cbn. intros [E1 E2]%orb_false_iff Hk. destruct (A3 E1 Hk) as [Hk1 Hs1]. rewrite B3 by done. done.
Qed.

Lemma parseInto_spec data c allow :
  match parseInto data c allow with
  | Ok c' => meta_part c' = meta_part c ∧ (allow = false → wg_part c' = wg_part c) ∧
      (hasSplitSections data = false → split_part c' = split_part c)
  | Err _ => True
  | _ => False
  end.
Proof.
  unfold parseInto, hasSplitSections. destruct (scan (raw_lines data)) as [lines ok]. cbn [fst].
  pose proof (parse_lines_spec allow lines (mkPstate sectionOther false (-1) c)) as H.
  destruct (parse_lines _ _ _) as [s| | |]; try done. rewrite bind_Ok. destruct ok; [|done].
  destruct H as (H1 & H2 & H3). split_and!; try done. intros E. by apply H3.
Qed.

Lemma validWGKey_returns s : returns (validWGKey s).
Proof. unfold validWGKey. destruct (Base64 _); [|done]. by destruct (negb _). Qed.

(** What [Validate] asks of a configuration, before it is brought into normal form. *)
Record group_acceptable (g : Group) : Prop := {
  ga_name : TrimSpace (gName g) ≠ [];
  ga_apps : normalizeApps (gApps g) ≠ [];
  ga_dest : normalizeDomains (gDomains g) ≠ [] ∨ gNetworks g ≠ [];
  ga_domains : Forall (fun d => validateDomainPattern d = Ok tt) (normalizeDomains (gDomains g))
}.
Definition group_id (g : Group) : list Z := ToLower (TrimSpace (gName g)).
Record acceptable (c : Config) : Prop := {
  ac_key : validWGKey (cPrivateKey c) = Ok tt ∧ validWGKey (PublicKey (cPeer c)) = Ok tt;
  ac_psk : PresharedKey (cPeer c) = [] ∨ validWGKey (PresharedKey (cPeer c)) = Ok tt;
  ac_endpoint : TrimSpace (Endpoint (cPeer c)) ≠ [];
  ac_addresses : cAddresses c ≠ [];
  ac_mtu : 576 <= cMTU c <= 9000;
  ac_groups : cGroups c ≠ [] ∧ Forall group_acceptable (cGroups c) ∧ NoDup (map group_id (cGroups c))
}.
Lemma all_domains_accepts ds : Forall (fun d => validateDomainPattern d = Ok tt) ds → all_domains_ok ds = Ok tt.
Proof. induction 1 as [|d ds Hd _ IH]; [done|]. cbn. by rewrite Hd, bind_Ok. Qed.
Lemma validate_groups_accepts gs seen : Forall group_acceptable gs → NoDup (map group_id gs) →
  (∀ g, g ∈ gs → group_id g ∉ seen) → ∃ gs', validate_groups gs seen = Ok gs'.
Proof.
  intros Hf. revert seen. induction Hf as [|g gs [H1 H2 H3 H4] _ IH]; intros seen Hn Hs; [by eexists|].
  cbn [map] in Hn. apply list.NoDup_cons in Hn as [Hg Hn]. cbn [validate_groups]. cbv zeta. fold (group_id g).
  rewrite !bool_decide_eq_false_2 by (try done; apply Hs; by left).
  assert (bool_decide (normalizeDomains (gDomains g) = []) && bool_decide (gNetworks g = []) = false) as ->
    by (apply andb_false_iff; rewrite !bool_decide_eq_false; done).
  rewrite (all_domains_accepts _ H4), bind_Ok. destruct (IH (group_id g :: seen) Hn) as [gs' ->]; [|rewrite bind_Ok; by eexists].
  intros g' Hg' [E|Hin]%elem_of_cons; [|by apply (Hs g'); [by right|]].
  apply Hg. rewrite <- E. apply list_elem_of_In, in_map, list_elem_of_In. done.
Qed.
Lemma Validate_accepts c : acceptable c → ∃ c', Validate c = Ok c'.
Proof.
  intros [[K1 K2] Kp H1 H2 H3 (H4 & H5 & H6)]. unfold Validate. rewrite K1, K2, !bind_Ok.
  assert ((if negb (bool_decide (PresharedKey (cPeer c) = [])) then validWGKey (PresharedKey (cPeer c)) else Ok tt) = Ok tt) as ->.
  { destruct (bool_decide_reflect (PresharedKey (cPeer c) = [])) as [|Hne]; [done|]. by destruct Kp. }
  rewrite bind_Ok, !bool_decide_eq_false_2 by done. rewrite (proj2 (Z.ltb_ge _ _)), (proj2 (Z.ltb_ge _ _)) by lia. cbn [orb]. cbv zeta.
  destruct (validate_groups_accepts (cGroups c) [] H5 H6) as [gs ->]; [intros g _; apply not_elem_of_nil|]. rewrite bind_Ok. by eexists.
Qed.

(** What a validated configuration satisfies. *)
Record config_ok (c : Config) : Prop := {
  co_key : validWGKey (cPrivateKey c) = Ok tt ∧ validWGKey (PublicKey (cPeer c)) = Ok tt;
  co_psk : PresharedKey (cPeer c) = [] ∨ validWGKey (PresharedKey (cPeer c)) = Ok tt;
  co_endpoint : TrimSpace (Endpoint (cPeer c)) ≠ [];
  co_addresses : cAddresses c ≠ [];
  co_mtu : 576 <= cMTU c <= 9000;
  co_refresh : 10 <= cDNSRefreshSeconds c;
  co_groups : cGroups c ≠ [] ∧ Forall group_ok (cGroups c) ∧ NoDup (map (fun g => ToLower (gName g)) (cGroups c))
}.

Lemma Validate_spec c :
  match Validate c with
  | Ok c' => config_ok c' ∧ wg_part c' = wg_part c ∧ meta_part c' = meta_part c ∧
      cMTU c' = cMTU c ∧ cPhysicalInterface c' = cPhysicalInterface c ∧
      validate_groups (cGroups c) [] = Ok (cGroups c')
  | Err _ => True
  | _ => False
  end.
Proof.
  unfold Validate. pose proof (validWGKey_returns (cPrivateKey c)) as R1.
  destruct (validWGKey (cPrivateKey c)) as [[]| | |] eqn:K1; try done. rewrite bind_Ok.
  pose proof (validWGKey_returns (PublicKey (cPeer c))) as R2.
  destruct (validWGKey (PublicKey (cPeer c))) as [[]| | |] eqn:K2; try done. rewrite bind_Ok.
  assert (R3 : returns (if negb (bool_decide (PresharedKey (cPeer c) = [])) then validWGKey (PresharedKey (cPeer c)) else Ok tt))
    by (destruct (negb _); [apply validWGKey_returns|done]).
  destruct (if negb _ then _ else _) as [[]| | |] eqn:K3; try done. rewrite bind_Ok.
  assert (Hpsk : PresharedKey (cPeer c) = [] ∨ validWGKey (PresharedKey (cPeer c)) = Ok tt)
    by (destruct (bool_decide_reflect (PresharedKey (cPeer c) = [])); [by left|by right]).
  destruct (bool_decide (TrimSpace _ = [])) eqn:E1; [done|]. apply bool_decide_eq_false in E1.
  destruct (bool_decide (cAddresses c = [])) eqn:E2; [done|]. apply bool_decide_eq_false in E2.
  destruct (_ || _) eqn:E3; [done|]. zbool. cbv zeta.
  destruct (bool_decide (cGroups c = [])) eqn:E4; [done|]. apply bool_decide_eq_false in E4.
  pose proof (validate_groups_spec (cGroups c) []) as HG.
  destruct (validate_groups (cGroups c) []) as [gs| | |]; try done. rewrite bind_Ok.
  destruct HG as (G1 & G2 & G3 & _). split_and!; try done. split; cbn; try done; try lia.
  - destruct (Z.ltb_spec (cDNSRefreshSeconds c) 10); lia.
  - split_and!; try done. intros ->. destruct (cGroups c); done.
Qed.

Lemma patterns_loop_spec ps seen out :
  NoDup (map ToLower out) → star ∉ out → (∀ k, k ∈ seen ↔ k ∈ map ToLower out) →
  let r := patterns_loop ps seen out in
  NoDup (map ToLower r) ∧ star ∉ r ∧ (∃ more, r = out ++ more) ∧
  (∀ p, p ∈ r → p ∈ out ∨ p ∈ ps) ∧ (∀ p, p ∈ ps → p ≠ star → ToLower p ∈ map ToLower r).
Proof.
  revert seen out. induction ps as [|p ps IH]; intros seen out Hnd Hst Hseen; cbn [patterns_loop].
  { split_and!; try done; [by exists []; rewrite app_nil_r|tauto|]. intros p Hp. by apply not_elem_of_nil in Hp. }
  cbv zeta. destruct (bool_decide (p = star)) eqn:Ep; [apply bool_decide_eq_true in Ep|apply bool_decide_eq_false in Ep].
  { destruct (IH seen out Hnd Hst Hseen) as (I1 & I2 & I3 & I4 & I5). split_and!; try done.
    - intros q Hq. rewrite elem_of_cons. destruct (I4 q Hq); tauto.
    - intros q Hq Hne. apply elem_of_cons in Hq as [->|Hq]; [done|by apply I5]. }
  destruct (bool_decide (ToLower p ∈ seen)) eqn:Es; [apply bool_decide_eq_true in Es|apply bool_decide_eq_false in Es].
  { destruct (IH seen out Hnd Hst Hseen) as (I1 & I2 & I3 & I4 & I5). split_and!; try done.
    - intros q Hq. rewrite elem_of_cons. destruct (I4 q Hq); tauto.
    - intros q Hq Hne. apply elem_of_cons in Hq as [->|Hq]; [|by apply I5].
      destruct I3 as [more ->]. rewrite map_app. apply elem_of_app. left. by apply Hseen. }
  destruct (IH (ToLower p :: seen) (out ++ [p])) as (I1 & I2 & [more I3] & I4 & I5).
  - rewrite map_app. apply list.NoDup_app. split_and!; [done| |apply NoDup_singleton].
    intros k Hk Hk2. apply list_elem_of_singleton in Hk2 as ->. by apply Es, Hseen.
  - rewrite elem_of_app, list_elem_of_singleton. intros [?|?]; congruence.
  - intros k. rewrite map_app, elem_of_app, elem_of_cons, Hseen. cbn. rewrite list_elem_of_singleton. tauto.
  - split_and!; try done.
    + exists ([p] ++ more). rewrite I3. by rewrite <- app_assoc.
    + intros q Hq. rewrite elem_of_cons. destruct (I4 q Hq) as [H|H]; [|tauto].
      apply elem_of_app in H as [H|H]; [tauto|]. apply list_elem_of_singleton in H. tauto.
    + intros q Hq Hne. apply elem_of_cons in Hq as [->|Hq]; [|by apply I5]. rewrite I3, !map_app, !elem_of_app.
      left. right. by constructor.
Qed.

(** ** Properties *)

(** A domain pattern means what its syntax says, on names without their
    surrounding space, final dot and case: ["*"] matches every non-empty name,
    ["*.base"] exactly the names that end in [".base"] (never [base] itself), and
    any other pattern exactly itself; a group matches a host iff one of its
    patterns does.  No host or pattern makes the code panic. *)
Theorem domain_patterns (g : Group) (pattern host : list Z) :
  (∃ b, MatchDomainPattern pattern host = Ok b ∧
     (b = true ↔ pattern_matches (canon_domain pattern) (canon_domain host))) ∧
  (∃ b, MatchesDomain g host = Ok b ∧
     (b = true ↔ ∃ p, p ∈ gDomains g ∧ pattern_matches (canon_domain p) (canon_domain host))).
Proof. split; [apply MatchDomainPattern_total|apply match_any_total]. Qed.

(** C33: [Validate] refuses a configuration only for a reason ([acceptable] names them
    all: the keys, the pre-shared one included, the endpoint, the addresses, the MTU,
    the groups), and otherwise returns one whose private and public keys are valid, whose
    pre-shared key is absent or valid, with an endpoint, an address, an MTU of 576 to
    9000, a refresh of at least 10 seconds and at least one group; group names are
    non-blank, trimmed and distinct up to case, applications and domains are non-blank
    and distinct up to case with ["*"] standing alone, every domain pattern is well
    formed and every group has applications and a destination.  The WireGuard part is
    unchanged. *)
Theorem Validate_normalizes (c : Config) :
  match Validate c with
  | Ok c' => config_ok c' ∧ wg_part c' = wg_part c ∧ cMTU c' = cMTU c
  | Err _ => ¬ acceptable c
  | _ => False
  end.
Proof.
  pose proof (Validate_spec c) as H. pose proof (Validate_accepts c) as Ha.
  destruct (Validate c); try done; [tauto|]. intros Hc. by destruct (Ha Hc).
Qed.

(** Where the parts of a loaded configuration come from.  Loading never
    panics.  The default rules are used exactly when the WireGuard file has no
    SplitWire or Group section; then the groups, the MTU and the interface are
    those of the default file alone, and the default file cannot set a key, an
    address, a resolver or the peer.  The result is a valid configuration. *)
Theorem LoadFromData_sources (wg def : list Z) :
  match LoadFromData wg def with
  | Ok cfg =>
      config_ok cfg ∧ cUsedDefaultRules cfg = negb (hasSplitSections wg) ∧
      (hasSplitSections wg = false →
       ∃ c0, parseInto def Defaults false = Ok c0 ∧ wg_part c0 = wg_part Defaults ∧
         validate_groups (cGroups c0) [] = Ok (cGroups cfg) ∧ cMTU cfg = cMTU c0 ∧
         cPhysicalInterface cfg = cPhysicalInterface c0)
  | Err _ => True
  | _ => False
  end.
Proof.
  unfold LoadFromData. cbv zeta. destruct (hasSplitSections wg) eqn:Hs; cbn [negb].
  - rewrite bind_Ok. pose proof (parseInto_spec wg Defaults true) as H1.
    destruct (parseInto wg Defaults true) as [c1| | |]; try done. rewrite bind_Ok.
    pose proof (Validate_spec c1) as H2. destruct (Validate c1) as [c2| | |]; try done.
    destruct H1 as (M1 & _). destruct H2 as (V1 & V2 & V3 & _). split_and!; try done.
    unfold meta_part in *. cbn in M1. congruence.
  - destruct (bool_decide _); [done|]. pose proof (parseInto_spec def Defaults false) as H0.
    destruct (parseInto def Defaults false) as [c0| | |]; try done. rewrite !bind_Ok.
    pose proof (parseInto_spec wg (set_defaults_used c0) true) as H1.
    destruct (parseInto wg (set_defaults_used c0) true) as [c1| | |]; try done. rewrite bind_Ok.
    pose proof (Validate_spec c1) as H2. destruct (Validate c1) as [c2| | |]; try done.
    destruct H0 as (M0 & W0 & _), H1 as (M1 & _ & S1), H2 as (V1 & V2 & V3 & V4 & V5 & V6).
    specialize (S1 Hs). unfold meta_part, split_part in *. cbn in *.
    split_and!; try done; [congruence|]. intros _. exists c0. split_and!; try done; [by apply W0|..]; try congruence.
Qed.

(** The patterns handed to the system proxy are the groups' domains without
    the catch-all (the proxy file is never a catch-all) and without duplicates up
    to case, and no other domain is left out. *)
Theorem ProxyDomainPatterns_complete (c : Config) :
  let r := ProxyDomainPatterns c in
  star ∉ r ∧ NoDup (map ToLower r) ∧
  (∀ p, p ∈ r → ∃ g, g ∈ cGroups c ∧ p ∈ gDomains g) ∧
  (∀ g p, g ∈ cGroups c → p ∈ gDomains g → p ≠ star → ToLower p ∈ map ToLower r).
Proof.
  destruct (patterns_loop_spec (flat_map gDomains (cGroups c)) [] []) as (I1 & I2 & _ & I4 & I5);
    [cbn; apply base.NoDup_nil_2|by intros ?%not_elem_of_nil|done|].
  cbv zeta. split_and!; try done.
  - intros p Hp. destruct (I4 p Hp) as [H|H]; [by apply not_elem_of_nil in H|].
    apply list_elem_of_In, in_flat_map in H as (g & Hg & Hin). exists g. by rewrite !list_elem_of_In.
  - intros g p Hg Hp Hne. apply I5; [|done]. apply list_elem_of_In, in_flat_map. exists g. by rewrite <- !list_elem_of_In.
Qed.
End Config.

(** ** A configuration that is accepted

    With a decoder for which every text is a key; the names, the refresh and the domains
    are brought into normal form, and a bad pre-shared key is what spoils it. *)
Definition key_decoders : Decoders :=
  {| ParseAddr _ := None; ParsePrefix _ := None; Masked p := p; Unquote _ := None;
     Base64 s := if bool_decide (s = lit "bad") then None else Some (zeros 32) |}.
Definition sample_config (psk : list Z) : Config :=
  mkConfig (lit "k") [mkPrefix (Addr4 [10; 66; 66; 20]) 32] [] (mkPeer (lit "k") psk (lit "h:1") 0)
    [mkGroup (lit " g ") [lit "a.exe"; lit "A.EXE"] [lit "A.b."; lit "a.B"] []] [] 1380 3 false [].
Lemma Validate_normalizes_witness :
  match @Validate ascii_unicode key_decoders (sample_config (lit "k")) with
  | Ok c' => @config_ok ascii_unicode key_decoders c' ∧ cDNSRefreshSeconds c' = 10 ∧ map gDomains (cGroups c') = [[lit "a.b"]]
  | _ => False
  end ∧ ¬ @acceptable ascii_unicode key_decoders (sample_config (lit "bad")).
Proof.
  pose proof (@Validate_normalizes ascii_unicode key_decoders (sample_config (lit "k"))) as H1.
  pose proof (@Validate_normalizes ascii_unicode key_decoders (sample_config (lit "bad"))) as H2. split.
  - assert (E : match @Validate ascii_unicode key_decoders (sample_config (lit "k")) with
      | Ok c' => cDNSRefreshSeconds c' = 10 ∧ map gDomains (cGroups c') = [[lit "a.b"]] | _ => False end) by (vm_compute; split; reflexivity).
    destruct (@Validate ascii_unicode key_decoders (sample_config (lit "k"))) as [c'|e| |]; [|destruct E..]. split; [apply H1|exact E].
  - assert (E : is_Ok (@Validate ascii_unicode key_decoders (sample_config (lit "bad"))) = false) by (vm_compute; reflexivity).
    destruct (@Validate ascii_unicode key_decoders (sample_config (lit "bad"))) as [c'|e| |]; [discriminate E|exact H2|destruct H2..].
Defined.
