(* ===== verification/Fmt.v ===== *)
(** * Formatting: what the code uses of Go's [fmt] and [strconv]

    [%d], [%08x] and [%.1f] on the values the code prints.  [%.1f] of a [float64] is
    the decimal of one place nearest to the exact value of the float, ties to even;
    [float64(n)] of an unsigned integer is the nearest number of 53 bits, ties to
    even. *)

From S2P Require Import Prelude GoStrings Config.
Local Open Scope Z_scope.

Definition digit_byte (d : Z) : Z := if d <? 10 then 48 + d else 87 + d.
(** The digits of [v] before [acc]; 64 units of fuel are enough for 64 bits. *)
Fixpoint fmt_digits (fuel : nat) (base v : Z) (acc : list Z) : list Z :=
  match fuel with
  | O => acc
  | S fuel =>
      let acc := digit_byte (v `mod` base) :: acc in
      if v <? base then acc else fmt_digits fuel base (v `div` base) acc
  end.
Definition fmt_d (v : Z) : list Z := if v <? 0 then 45 :: fmt_digits 64 10 (- v) [] else fmt_digits 64 10 v [].
Definition fmt_08x (v : Z) : list Z :=
  let s := fmt_digits 64 16 v [] in replicate (8 - length s) 48 ++ s.
(** Bytes as the text of an error. *)
Definition text (s : list Z) : string := String.string_of_list_ascii (map (fun c => ascii_of_N (Z.to_N c)) s).

(** [n / 2^k] rounded to the nearest integer, ties to even. *)
Definition round_even (n d : Z) : Z :=
  let q := n `div` d in
  let r := n `mod` d in
  if 2 * r <? d then q else if d <? 2 * r then q + 1 else if Z.even q then q else q + 1.
(** [float64(n)], which is an integer again. *)
Definition float64 (n : Z) : Z :=
  let s := Z.max 0 (Z.log2 n - 52) in round_even n (2 ^ s) * 2 ^ s.
(** [fmt.Sprintf("%.1f", float64(n)/d)] for [d] a power of two. *)
Definition fmt_1f (n d : Z) : list Z :=
  let t := round_even (float64 n * 10) d in fmt_d (t `div` 10) ++ [46] ++ fmt_d (t `mod` 10).

(** ** What is printed can be read back *)
Lemma digit_digit_byte d : 0 <= d < 10 → digit (digit_byte d) = Some d.
Proof. intros H. assert (d = 0 ∨ d = 1 ∨ d = 2 ∨ d = 3 ∨ d = 4 ∨ d = 5 ∨ d = 6 ∨ d = 7 ∨ d = 8 ∨ d = 9) as Hd by lia. by destruct_or! Hd; subst d. Qed.

Lemma fmt_digits_acc fuel base : ∀ v acc, fmt_digits fuel base v acc = fmt_digits fuel base v [] ++ acc.
Proof.
  induction fuel as [|fuel IH]; intros v acc; [done|]. cbn [fmt_digits]. destruct (v <? base); [done|].
  rewrite IH, (IH _ [_]), <- app_assoc. done.
Qed.
Lemma digits_app x : ∀ y a, digits (x ++ y) a = match digits x a with Some b => digits y b | None => None end.
Proof. induction x as [|c x IH]; intros y a; [done|]. cbn [digits app]. destruct (digit c); [apply IH|done]. Qed.
Lemma digits_fmt fuel : ∀ v, 0 <= v < 10 ^ Z.of_nat fuel → (0 < fuel)%nat → digits (fmt_digits fuel 10 v []) 0 = Some v.
Proof.
  induction fuel as [|fuel IH]; intros v Hv Hf; [lia|]. cbn [fmt_digits]. pose proof (Z.mod_pos_bound v 10 ltac:(lia)) as Hm.
  destruct (Z.ltb_spec v 10) as [Hl|Hl].
  - cbn [digits]. rewrite Z.mod_small, digit_digit_byte by lia. done.
  - rewrite Nat2Z.inj_succ, Z.pow_succ_r in Hv by lia. rewrite fmt_digits_acc, digits_app, IH.
    + cbn [digits]. rewrite digit_digit_byte by lia. f_equal. pose proof (Z.div_mod v 10). lia.
    + split; [apply Z.div_pos; lia|apply Z.div_lt_upper_bound; lia].
    + destruct fuel; [cbn in Hv; lia|lia].
Qed.
Lemma fmt_digits_head fuel v acc : (0 < fuel)%nat → 0 <= v → ∃ d r, fmt_digits fuel 10 v acc = digit_byte d :: r ∧ 0 <= d < 10.
Proof.
  revert v acc. induction fuel as [|fuel IH]; intros v acc Hf Hv; [lia|]. cbn [fmt_digits]. pose proof (Z.mod_pos_bound v 10 ltac:(lia)).
  destruct (v <? 10); [eauto|]. destruct fuel; [eauto|]. apply IH; [lia|apply Z.div_pos; lia].
Qed.
Lemma small_pow v : v <= 2 ^ 64 → v < 10 ^ Z.of_nat 64.
Proof. intros H. eapply Z.le_lt_trans; [exact H|]. reflexivity. Qed.
(** [Atoi] reads what [%d] prints. *)
Lemma Atoi_fmt_d v : - 2 ^ 63 <= v < 2 ^ 63 → Atoi (fmt_d v) = Some v.
Proof.
  intros Hv. unfold fmt_d, Atoi. destruct (Z.ltb_spec v 0) as [Hn|Hn].
  - destruct (fmt_digits_head 64 (- v) [] ltac:(lia) ltac:(lia)) as (d & r & E & _).
    rewrite E, <- E, digits_fmt by (try split; try apply small_pow; lia). rewrite Z.opp_involutive.
    rewrite (proj2 (Z.leb_le _ v)), (proj2 (Z.leb_le v _)) by lia. done.
  - destruct (fmt_digits_head 64 v [] ltac:(lia) ltac:(lia)) as (d & r & E & Hd).
    assert (Ed : digits (digit_byte d :: r) 0 = Some v) by (rewrite <- E; apply digits_fmt; [split; [lia|apply small_pow; lia]|lia]).
    rewrite E. assert (d = 0 ∨ d = 1 ∨ d = 2 ∨ d = 3 ∨ d = 4 ∨ d = 5 ∨ d = 6 ∨ d = 7 ∨ d = 8 ∨ d = 9) as Hc by lia.
    destruct_or! Hc; subst d; (match goal with |- context [digit_byte ?x] => let k := eval vm_compute in (digit_byte x) in change (digit_byte x) with k in * end);
      cbv beta iota; rewrite Ed, (proj2 (Z.leb_le _ v)), (proj2 (Z.leb_le v _)) by lia; done.
Qed.

(** ** Rounding *)
Lemma round_even_close n d : 0 < d → Z.abs (2 * (round_even n d * d - n)) <= d.
Proof.
  intros Hd. unfold round_even. cbv zeta. pose proof (Z.div_mod n d ltac:(lia)) as E. pose proof (Z.mod_pos_bound n d Hd).
  set (q := n `div` d) in *. set (r := n `mod` d) in *. clearbody q r.
  destruct (Z.ltb_spec (2 * r) d); [nia|]. destruct (Z.ltb_spec d (2 * r)); [nia|]. destruct (Z.even q); nia.
Qed.
Lemma round_even_mono n m d : 0 < d → n <= m → round_even n d <= round_even m d.
Proof.
  intros Hd Hnm. pose proof (round_even_close n d Hd) as H1. pose proof (round_even_close m d Hd) as H2.
  destruct (decide (n `div` d = m `div` d)) as [E|E].
  - unfold round_even. cbv zeta. rewrite <- E. pose proof (Z.div_mod n d ltac:(lia)). pose proof (Z.div_mod m d ltac:(lia)).
    assert (n `mod` d <= m `mod` d) by nia.
    destruct (Z.ltb_spec (2 * n `mod` d) d), (Z.ltb_spec d (2 * n `mod` d)), (Z.ltb_spec (2 * m `mod` d) d), (Z.ltb_spec d (2 * m `mod` d)), (Z.even (n `div` d)); lia.
  - pose proof (Z.div_le_mono n m d Hd Hnm). unfold round_even. cbv zeta. clear H1 H2. repeat (destruct (_ <? _)); repeat destruct (Z.even _); lia.
Qed.
Lemma float64_small n : 0 <= n < 2 ^ 53 → float64 n = n.
Proof.
  intros H. unfold float64. assert (Hl : Z.log2 n <= 52) by (destruct (decide (n = 0)) as [->|]; [done|apply Z.lt_succ_r, Z.log2_lt_pow2; [lia|exact (proj2 H)]]).
  replace (Z.max 0 (Z.log2 n - 52)) with 0 by lia. change (2 ^ 0) with 1. unfold round_even. cbv zeta. rewrite Z.mod_1_r, Z.div_1_r. change (2 * 0 <? 1) with true. cbv iota. lia.
Qed.
