(* ===== verification/Tracker.v ===== *)
(** * Addresses learned for domain groups: [internal/domain/tracker.go]

    The tracker maps an address to the groups it was learned for, each with an
    expiry time (nanoseconds).  The clock is an argument of every operation.
    The maps are never iterated in an order that shows: where Go ranges over one,
    the model takes an enumeration ([enum]) or the result does not depend on it. *)

From S2P Require Import Prelude Netip GoStrings Config.
Local Open Scope Z_scope.

Record Tracker : Type := mkTracker {
  tr_ips : gmap Addr (gmap Z Z);
  tr_groups : list Group
}.

Definition New (groups : list Group) : Tracker := mkTracker ∅ groups.

Definition Second : Z := 1000000000.
Definition clampTTL (ttl : Z) : Z :=
  if ttl <? 10 * Second then 10 * Second else
  if 24 * 3600 * Second <? ttl then 24 * 3600 * Second else ttl.

(** The loop of [AddGroups] over the group indexes. *)
Definition add_group (n exp : Z) (m : gmap Z Z) (i : Z) : gmap Z Z :=
  if (i <? 0) || (n <=? i) then m else
  match m !! i with
  | Some old => if old <? exp then <[i := exp]> m else m
  | None => <[i := exp]> m
  end.
Definition AddGroups (now : Z) (ip : Addr) (groups : list Z) (ttl : Z) (t : Tracker) : Tracker :=
  if negb (IsValid ip) || (blen groups =? 0) then t else
  let ip := Unmap ip in
  let exp := now + clampTTL ttl in
  let m := match tr_ips t !! ip with Some m => m | None => ∅ end in
  mkTracker (<[ip := fold_left (add_group (blen (tr_groups t)) exp) groups m]> (tr_ips t)) (tr_groups t).

Definition ContainsGroup (now : Z) (ip : Addr) (group : Z) (t : Tracker) : bool :=
  match tr_ips t !! Unmap ip with
  | Some m => match m !! group with Some exp => now <? exp | None => false end
  | None => false
  end.
Definition Contains (now : Z) (ip : Addr) (t : Tracker) : bool :=
  match tr_ips t !! Unmap ip with
  | Some m => existsb (fun kv => now <? snd kv) (map_to_list m)
  | None => false
  end.

Definition sweep_ip (now : Z) (ips : gmap Addr (gmap Z Z)) (kv : Addr * gmap Z Z) : gmap Addr (gmap Z Z) :=
  let m := sweep_map (fun exp => negb (now <? exp)) (snd kv) in
  if bool_decide (m = ∅) then delete (fst kv) ips else <[fst kv := m]> ips.
Definition Sweep (now : Z) (t : Tracker) : Tracker :=
  mkTracker (fold_left (sweep_ip now) (map_to_list (tr_ips t)) (tr_ips t)) (tr_groups t).
Definition Count (t : Tracker) : Z := Z.of_nat (size (tr_ips t)).

Section Names.
Context {U : Unicode}.

Fixpoint name_groups_loop (name : list Z) (i : Z) (groups : list Group) : Res (list Z) :=
  match groups with
  | [] => Ok []
  | g :: rest =>
      if DomainsAll g then name_groups_loop name (i + 1) rest else
      b ← MatchesDomain g name;
      out ← name_groups_loop name (i + 1) rest;
      Ok (if (b : bool) then i :: out else out)
  end.
Definition NameGroups (name : list Z) (t : Tracker) : Res (list Z) :=
  let name := ToLower (TrimSuffix (TrimSpace name) (lit ".")) in
  if bool_decide (name = []) then Ok [] else name_groups_loop name 0 (tr_groups t).
Definition NameMatches (name : list Z) (t : Tracker) : Res bool :=
  gs ← NameGroups name t; Ok (negb (blen gs =? 0)).

Fixpoint groups_for_loop (names : list (list Z)) (seen : gset Z) (t : Tracker) : Res (gset Z) :=
  match names with
  | [] => Ok seen
  | name :: rest => gs ← NameGroups name t; groups_for_loop rest (list_to_set gs ∪ seen) t
  end.
(** [enum] is the order in which the run-time ranges over the set. *)
Definition GroupsForNames (enum : gset Z → list Z) (names : list (list Z)) (t : Tracker) : Res (list Z) :=
  seen ← groups_for_loop names ∅ t; Ok (enum seen).

Definition AddForName (now : Z) (name : list Z) (ip : Addr) (ttl : Z) (t : Tracker) : Res (Tracker * list Z) :=
  groups ← NameGroups name t;
  Ok (AddGroups now ip groups ttl t, groups).

(** ** [ResolveBootstrapWithResolver] *)

(** [string(rune(gi))]: UTF-8, with the replacement character for integers that are no rune. *)
Definition utf8 (r : Z) : list Z :=
  let r := if (r <? 0) || (1114111 <? r) || ((55296 <=? r) && (r <=? 57343)) then 65533 else r in
  if r <? 128 then [r] else
  if r <? 2048 then [192 + r `div` 64; 128 + r `mod` 64] else
  if r <? 65536 then [224 + r `div` 4096; 128 + (r `div` 64) `mod` 64; 128 + r `mod` 64] else
  [240 + r `div` 262144; 128 + (r `div` 4096) `mod` 64; 128 + (r `div` 64) `mod` 64; 128 + r `mod` 64].

Record item : Type := mkItem { it_name : list Z; it_group : Z }.
Fixpoint pattern_items (gi : Z) (ps : list (list Z)) (seen : gset (list Z)) (out : list item) : gset (list Z) * list item :=
  match ps with
  | [] => (seen, out)
  | p :: rest =>
      let name := TrimPrefix p (lit "*.") in
      if bool_decide (name = []) || bool_decide (name = star) then pattern_items gi rest seen out else
      let key := ToLower name ++ [0] ++ utf8 gi in
      if bool_decide (key ∈ seen) then pattern_items gi rest seen out
      else pattern_items gi rest ({[key]} ∪ seen) (out ++ [mkItem name gi])
  end.
Fixpoint group_items (gi : Z) (groups : list Group) (seen : gset (list Z)) (out : list item) : list item :=
  match groups with
  | [] => out
  | g :: rest =>
      if DomainsAll g then group_items (gi + 1) rest seen out else
      let '(seen, out) := pattern_items gi (gDomains g) seen out in
      group_items (gi + 1) rest seen out
  end.

(** [clock n] is the time at the [n]-th call of [AddGroups]; [resolver] stands
    for [net.Resolver.LookupNetIP] ([None] is an error). *)
Fixpoint add_ips (clock : nat → Z) (group : Z) (ips : list Addr) (ttl : Z) (nt : nat * Tracker) : nat * Tracker :=
  match ips with
  | [] => nt
  | ip :: rest => add_ips clock group rest ttl (S (fst nt), AddGroups (clock (fst nt)) ip [group] ttl (snd nt))
  end.
Fixpoint resolve_items (clock : nat → Z) (resolver : list Z → option (list Addr)) (items : list item) (ttl : Z)
    (nt : nat * Tracker) : nat * Tracker :=
  match items with
  | [] => nt
  | it :: rest =>
      resolve_items clock resolver rest ttl
        (match resolver (it_name it) with
         | None => nt
         | Some ips => add_ips clock (it_group it) ips ttl nt
         end)
  end.
Definition ResolveBootstrapWithResolver (clock : nat → Z) (resolver : list Z → option (list Addr)) (ttl : Z)
    (t : Tracker) : Tracker :=
  snd (resolve_items clock resolver (group_items 0 (tr_groups t) ∅ []) ttl (0%nat, t)).
End Names.

(** ** Lemmas *)
Definition live (now : Z) (e : option Z) : bool := match e with Some exp => now <? exp | None => false end.
Definition entry_of (t : Tracker) (ip : Addr) (group : Z) : option Z := m ← tr_ips t !! Unmap ip; m !! group.

Lemma ContainsGroup_entry now ip g t : ContainsGroup now ip g t = live now (entry_of t ip g).
Proof. unfold ContainsGroup, entry_of. by destruct (tr_ips t !! Unmap ip). Qed.

Definition longer (old : option Z) (exp : Z) : option Z :=
  Some (match old with Some x => Z.max x exp | None => exp end).

Lemma add_group_lookup n exp m i j :
  add_group n exp m i !! j = if bool_decide (j = i ∧ 0 <= i < n) then longer (m !! j) exp else m !! j.
Proof.
  unfold add_group. destruct ((i <? 0) || (n <=? i)) eqn:E.
  - rewrite bool_decide_eq_false_2; [done|]. zbool. lia.
  - zbool. destruct (decide (j = i)) as [->|Hne].
    + rewrite bool_decide_eq_true_2 by lia. unfold longer. destruct (m !! i) as [old|] eqn:Em.
      * destruct (Z.ltb_spec old exp); [rewrite lookup_insert_eq|rewrite Em]; f_equal; lia.
      * by rewrite lookup_insert_eq.
    + rewrite bool_decide_eq_false_2 by (intros [? _]; done).
      destruct (m !! i); [destruct (_ <? _)|]; rewrite ?lookup_insert_ne by congruence; done.
Qed.

Lemma longer_idem o exp : longer (longer o exp) exp = longer o exp.
Proof. unfold longer. destruct o; f_equal; lia. Qed.

Lemma add_groups_lookup n exp groups m j :
  fold_left (add_group n exp) groups m !! j =
    if bool_decide (j ∈ groups ∧ 0 <= j < n) then longer (m !! j) exp else m !! j.
Proof.
  revert m. induction groups as [|i groups IH]; intros m; cbn [fold_left].
  { rewrite bool_decide_eq_false_2; [done|]. intros [H _]. by apply not_elem_of_nil in H. }
  rewrite IH, add_group_lookup.
  destruct (decide (j = i ∧ 0 <= i < n)) as [[-> Hr]|Hne].
  - rewrite (bool_decide_eq_true_2 (i = i ∧ _)) by done. rewrite longer_idem.
    rewrite (bool_decide_eq_true_2 (i ∈ i :: groups ∧ _)) by (split; [constructor|done]). by destruct (bool_decide _).
  - rewrite (bool_decide_eq_false_2 (j = i ∧ _)) by done.
    assert (E : bool_decide (j ∈ groups ∧ 0 <= j < n) = bool_decide (j ∈ i :: groups ∧ 0 <= j < n)).
    { apply bool_decide_ext. rewrite elem_of_cons. split; [tauto|]. intros [[->|?] ?]; tauto. }
    by rewrite E.
Qed.

Lemma AddGroups_entry now ip groups ttl t ip' g :
  entry_of (AddGroups now ip groups ttl t) ip' g =
    if bool_decide (IsValid ip = true ∧ Unmap ip' = Unmap ip ∧ g ∈ groups ∧ 0 <= g < blen (tr_groups t))
    then longer (entry_of t ip' g) (now + clampTTL ttl) else entry_of t ip' g.
Proof.
  unfold AddGroups. destruct (negb (IsValid ip) || (blen groups =? 0)) eqn:E.
  - rewrite bool_decide_eq_false_2; [done|]. intros (H1 & _ & H2 & _). rewrite H1 in E. cbn in E.
    zbool. apply blen_0_nil in E as ->. by apply not_elem_of_nil in H2.
  - zbool. unfold entry_of. cbn. destruct (decide (Unmap ip' = Unmap ip)) as [Eu|Hne].
    + rewrite Eu, lookup_insert_eq. cbn. rewrite add_groups_lookup.
      rewrite (bool_decide_ext (IsValid ip = true ∧ _) (g ∈ groups ∧ 0 <= g < blen (tr_groups t)))
        by tauto.
      destruct (tr_ips t !! Unmap ip); done.
    + rewrite lookup_insert_ne by congruence. rewrite bool_decide_eq_false_2 by tauto. done.
Qed.

Lemma AddGroups_groups now ip groups ttl t : tr_groups (AddGroups now ip groups ttl t) = tr_groups t.
Proof. unfold AddGroups. by destruct (_ || _). Qed.

Lemma live_longer now o exp : live now (longer o exp) = live now o || (now <? exp).
Proof.
  unfold live, longer. destruct o as [x|]; [|done].
  destruct (Z.ltb_spec now (Z.max x exp)), (Z.ltb_spec now x), (Z.ltb_spec now exp); cbn; try done; lia.
Qed.

Definition swept (now : Z) (m : gmap Z Z) : option (gmap Z Z) :=
  let m := sweep_map (fun exp => negb (now <? exp)) m in if bool_decide (m = ∅) then None else Some m.

Lemma sweep_ip_fold now l ips k :
  NoDup l.*1 →
  fold_left (sweep_ip now) l ips !! k = match List.find (fun kv => bool_decide (fst kv = k)) l with
                                        | Some kv => swept now (snd kv)
                                        | None => ips !! k
                                        end.
Proof.
  revert ips. induction l as [|[k' m] l IH]; intros ips Hnd; cbn [fold_left]; [done|].
  cbn in Hnd. apply list.NoDup_cons in Hnd as [Hnin Hnd]. rewrite IH by done. cbn [List.find fst snd].
  destruct (bool_decide (k' = k)) eqn:E; [apply bool_decide_eq_true in E as ->|apply bool_decide_eq_false in E].
  - destruct (List.find _ l) as [kv|] eqn:Ef.
    + apply List.find_some in Ef as [Hin Heq]. apply bool_decide_eq_true in Heq as <-.
      exfalso. apply Hnin. apply list_elem_of_In. by apply in_map.
    + unfold sweep_ip, swept. cbn. destruct (bool_decide _); [apply lookup_delete_eq|apply lookup_insert_eq].
  - destruct (List.find _ l); [done|]. unfold sweep_ip. cbn.
    destruct (bool_decide _); [by rewrite lookup_delete_ne|by rewrite lookup_insert_ne].
Qed.

Lemma Sweep_lookup now t ip : tr_ips (Sweep now t) !! ip = m ← tr_ips t !! ip; swept now m.
Proof.
  cbn. rewrite sweep_ip_fold by apply NoDup_fst_map_to_list.
  destruct (List.find _ _) as [[k m]|] eqn:Ef.
  - apply List.find_some in Ef as [Hin Heq]. apply bool_decide_eq_true in Heq. cbn in Heq. subst k.
    apply list_elem_of_In, elem_of_map_to_list in Hin. by rewrite Hin.
  - destruct (tr_ips t !! ip) as [m|] eqn:E; [|done]. exfalso.
    apply elem_of_map_to_list, list_elem_of_In in E. apply (List.find_none _ _ Ef) in E.
    cbn in E. by apply bool_decide_eq_false in E.
Qed.

Lemma Sweep_entry now t ip g :
  entry_of (Sweep now t) ip g = exp ← entry_of t ip g; if now <? exp then Some exp else None.
Proof.
  unfold entry_of. rewrite Sweep_lookup. destruct (tr_ips t !! Unmap ip) as [m|]; [|done]. cbn. unfold swept.
  assert (E : sweep_map (fun exp => negb (now <? exp)) m !! g = exp ← m !! g; if now <? exp then Some exp else None).
  { rewrite sweep_map_lookup. destruct (m !! g); [|done]. cbn. by destruct (now <? _). }
  destruct (bool_decide _) eqn:Eb; [|exact E]. apply bool_decide_eq_true in Eb. rewrite Eb in E. cbn.
  by rewrite <- E, lookup_empty.
Qed.

Section NameLemmas.
Context {U : Unicode}.

Definition named (g : Group) (name : list Z) : Prop :=
  DomainsAll g = false ∧ ∃ p, p ∈ gDomains g ∧ pattern_matches (canon_domain p) (canon_domain name).

Lemma name_groups_loop_spec name i groups :
  ∃ out, name_groups_loop name i groups = Ok out ∧ NoDup out ∧
    (∀ j, j ∈ out ↔ ∃ n g, groups !! n = Some g ∧ j = i + Z.of_nat n ∧ named g name).
Proof.
  revert i. induction groups as [|g groups IH]; intros i; cbn [name_groups_loop].
  { exists []. split_and!; [done|constructor|]. intros j. rewrite elem_of_nil. split; [done|].
    by intros (n & g & H & _). }
  assert (step : ∀ (out : list Z) j, (j ∈ out ↔ ∃ n g', groups !! n = Some g' ∧ j = i + 1 + Z.of_nat n ∧ named g' name) →
    (∃ n g', (g :: groups) !! n = Some g' ∧ j = i + Z.of_nat n ∧ named g' name) ↔ (j = i ∧ named g name) ∨ j ∈ out).
  { intros out j ->. split.
    - intros ([|n] & g' & H & -> & Hn); cbn in H; [left; simplify_eq; split; [lia|done]|].
      right. exists n, g'. split_and!; [done|lia|done].
    - intros [[-> Hn]|(n & g' & H & -> & Hn)]; [exists 0%nat, g; split_and!; [done|lia|done]|].
      exists (S n), g'. split_and!; [done|lia|done]. }
  destruct (IH (i + 1)) as (out & E & Hnd & Hout). destruct (DomainsAll g) eqn:Ed.
  - exists out. split_and!; [done|done|]. intros j. rewrite (step out j (Hout j)). unfold named. rewrite Ed.
    split; [tauto|]. intros [(_ & ? & _)|?]; done.
  - destruct (match_any_total (gDomains g) name) as (b & Eb & Hb). unfold MatchesDomain. rewrite Eb, bind_Ok, E, bind_Ok.
    destruct b; eexists; (split_and!; [done| |]); try done.
    + constructor; [|done]. rewrite Hout. intros (n & g' & _ & H & _). lia.
    + intros j. rewrite (step out j (Hout j)), elem_of_cons. unfold named. rewrite Ed. tauto.
    + intros j. rewrite (step out j (Hout j)). unfold named. rewrite Ed. split; [tauto|].
      intros [(_ & _ & H)|?]; [|done]. by apply Hb in H.
Qed.

Lemma NameGroups_spec name t :
  ∃ out, NameGroups name t = Ok out ∧ NoDup out ∧
    (∀ j, j ∈ out ↔ canon_domain name ≠ [] ∧
       ∃ g, 0 <= j ∧ tr_groups t !! Z.to_nat j = Some g ∧ named g (canon_domain name)).
Proof.
  unfold NameGroups. cbv zeta. change (ToLower (TrimSuffix (TrimSpace name) (lit "."))) with (canon_domain name).
  destruct (bool_decide _) eqn:Eb; [apply bool_decide_eq_true in Eb|apply bool_decide_eq_false in Eb].
  { exists []. split_and!; [done|constructor|]. intros j. rewrite elem_of_nil. tauto. }
  destruct (name_groups_loop_spec (canon_domain name) 0 (tr_groups t)) as (out & E & Hnd & Hout).
  exists out. split_and!; try done. intros j. rewrite Hout. split.
  - intros (n & g & H & -> & Hn). split; [done|]. exists g. rewrite Z.add_0_l, Nat2Z.id. split_and!; [lia|done|done].
  - intros (_ & g & H & Hg & Hn). exists (Z.to_nat j), g. split_and!; [done|lia|done].
Qed.

Lemma groups_for_loop_spec names seen t :
  ∃ r, groups_for_loop names seen t = Ok r ∧
    ∀ j, j ∈ r ↔ j ∈ seen ∨ ∃ name out, name ∈ names ∧ NameGroups name t = Ok out ∧ j ∈ out.
Proof.
  revert seen. induction names as [|name names IH]; intros seen; cbn [groups_for_loop].
  { exists seen. split; [done|]. intros j. split; [tauto|]. intros [?|(n & _ & H & _)]; [done|]. by apply not_elem_of_nil in H. }
  destruct (NameGroups_spec name t) as (out & E & _). rewrite E, bind_Ok.
  destruct (IH (list_to_set out ∪ seen)) as (r & -> & Hr). exists r. split; [done|]. intros j.
  rewrite Hr, elem_of_union, elem_of_list_to_set. split.
  - intros [[H|H]|(n & o & Hn & Ho & Hj)]; [|tauto|].
    + right. exists name, out. split_and!; [constructor|done|done].
    + right. exists n, o. split_and!; [by constructor|done|done].
  - intros [H|(n & o & Hn & Ho & Hj)]; [tauto|]. apply elem_of_cons in Hn as [->|Hn].
    + left. left. congruence.
    + right. eauto.
Qed.
End NameLemmas.

Lemma Contains_spec now ip t : Contains now ip t = true ↔ ∃ i, ContainsGroup now ip i t = true.
Proof.
  unfold Contains, ContainsGroup. destruct (tr_ips t !! Unmap ip) as [m|]; [|split; [done|by intros []]].
  rewrite existsb_exists. split.
  + intros ([i e] & Hin & He). apply list_elem_of_In, elem_of_map_to_list in Hin. exists i. by rewrite Hin.
  + intros (i & Hi). destruct (m !! i) as [e|] eqn:E; [|done]. exists (i, e). split; [|done].
    by apply list_elem_of_In, elem_of_map_to_list.
Qed.

(** ** Properties *)

(** The tracker remembers exactly what it was told.  After [AddGroups] an
    address is in a group at a time iff it was before or it is the added address
    (IPv4 and IPv4-mapped IPv6 being the same), the group is one of the added
    indexes of a configured group, and the time is before the new expiry, which is
    10 seconds to 24 hours away; so an expiry is never shortened.  [Contains] is
    membership in some group. *)
Theorem tracker_remembers (now now' : Z) (ip ip' : Addr) (groups : list Z) (ttl g : Z) (t : Tracker) :
  let t' := AddGroups now ip groups ttl t in
  ContainsGroup now' ip' g t' = ContainsGroup now' ip' g t ||
    bool_decide (IsValid ip = true ∧ Unmap ip' = Unmap ip ∧ g ∈ groups ∧ 0 <= g < blen (tr_groups t)) &&
    (now' <? now + clampTTL ttl) ∧
  10 * Second <= clampTTL ttl <= 86400 * Second ∧
  (Contains now' ip' t = true ↔ ∃ i, ContainsGroup now' ip' i t = true).
Proof.
  cbv zeta. split_and!.
  - rewrite !ContainsGroup_entry, AddGroups_entry. destruct (bool_decide _); [apply live_longer|].
    by rewrite orb_false_r.
  - unfold clampTTL, Second. repeat case_match; zbool; lia.
  - unfold clampTTL, Second. repeat case_match; zbool; lia.
  - apply Contains_spec.
Qed.

(** Sweeping shows nowhere but in the memory: at the time of the sweep and
    at any later time every address is in the same groups as without it, and what
    it leaves is exactly the addresses still in some group. *)
Theorem tracker_Sweep_transparent (now now' : Z) (t : Tracker) :
  now <= now' →
  (∀ ip g, ContainsGroup now' ip g (Sweep now t) = ContainsGroup now' ip g t) ∧
  (∀ ip, Contains now' ip (Sweep now t) = Contains now' ip t) ∧
  (∀ ip, is_Some (tr_ips (Sweep now t) !! Unmap ip) ↔ Contains now ip t = true).
Proof.
  intros Hle.
  assert (HC : ∀ ip g, ContainsGroup now' ip g (Sweep now t) = ContainsGroup now' ip g t).
  { intros ip g. rewrite !ContainsGroup_entry, Sweep_entry. destruct (entry_of t ip g) as [e|]; [|done]. cbn.
    destruct (Z.ltb_spec now e); [done|]. cbn. symmetry. apply Z.ltb_ge. lia. }
  split_and!; [done| |].
  - intros ip. apply eq_true_iff_eq. rewrite !Contains_spec. by setoid_rewrite HC.
  - intros ip. rewrite Sweep_lookup, Contains_spec. unfold ContainsGroup, swept.
    destruct (tr_ips t !! Unmap ip) as [m|]; cbn; [|split; [by intros []|by intros []]].
    destruct (bool_decide _) eqn:E; [apply bool_decide_eq_true in E|apply bool_decide_eq_false in E].
    + split; [by intros []|]. intros (g & Hg). destruct (m !! g) as [e|] eqn:Eg; [|done].
      assert (sweep_map (fun exp => negb (now <? exp)) m !! g = Some e) as H
        by (rewrite sweep_map_lookup, Eg; cbn; by rewrite Hg).
      by rewrite E, lookup_empty in H.
    + split; [|eauto]. intros _. apply map_choose in E as (g & e & He). exists g.
      rewrite sweep_map_lookup in He. destruct (m !! g) as [x|]; [|done]. cbn in He.
      by destruct (now <? x).
Qed.

Lemma tracker_Sweep_transparent_witness :
  ContainsGroup 30 (Addr4 [1; 1; 1; 1]) 0
    (Sweep 20 (mkTracker {[Addr4 [1; 1; 1; 1] := {[0 := 40; 1 := 15]}]} [mkGroup [] [] [] []])) = true.
Proof.
  rewrite (proj1 (tracker_Sweep_transparent 20 30
    (mkTracker {[Addr4 [1; 1; 1; 1] := {[0 := 40; 1 := 15]}]} [mkGroup [] [] [] []]) ltac:(lia))).
  vm_compute. reflexivity.
Defined.

Section NameClaims.
Context {U : Unicode}.

(** A name belongs to exactly the groups with a matching domain pattern,
    the catch-all groups aside: [NameGroups] returns their indexes without
    repetition, [NameMatches] tells whether there is one, and [GroupsForNames] the
    union over several names, in the order the set is enumerated.  None of them
    panics. *)
Theorem NameGroups_correct (enum : gset Z → list Z) (name : list Z) (names : list (list Z)) (t : Tracker) :
  (∀ s, Permutation (enum s) (elements s)) →
  ∃ out, NameGroups name t = Ok out ∧ NoDup out ∧
    (∀ j, j ∈ out ↔ canon_domain name ≠ [] ∧
       ∃ g, 0 <= j ∧ tr_groups t !! Z.to_nat j = Some g ∧ named g (canon_domain name)) ∧
    (∃ b, NameMatches name t = Ok b ∧ (b = true ↔ ∃ j, j ∈ out)) ∧
    ∃ all, GroupsForNames enum names t = Ok all ∧ NoDup all ∧
      ∀ j, j ∈ all ↔ ∃ n o, n ∈ names ∧ NameGroups n t = Ok o ∧ j ∈ o.
Proof.
  intros Henum. destruct (NameGroups_spec name t) as (out & E & Hnd & Hout). exists out. split_and!; try done.
  - unfold NameMatches. rewrite E, bind_Ok. eexists. split; [done|]. destruct out as [|j out]; cbn.
    + split; [done|]. intros (j & H). by apply not_elem_of_nil in H.
    + split; [|done]. intros _. exists j. constructor.
  - unfold GroupsForNames. destruct (groups_for_loop_spec names ∅ t) as (r & -> & Hr). rewrite bind_Ok.
    exists (enum r). split_and!; [done|rewrite Henum; apply NoDup_elements|].
    intros j. rewrite Henum, elem_of_elements, Hr, elem_of_empty. tauto.
Qed.

(** ** The bootstrap *)
Lemma utf8_suffix_code (a b : list Z) g h :
  0 <= g < 55296 → 0 <= h < 55296 → a ++ [0] ++ utf8 g = b ++ [0] ++ utf8 h → a = b ∧ g = h.
Proof.
  intros Hg Hh. unfold utf8. cbv zeta.
  rewrite !(proj2 (Z.ltb_ge _ 0)), !(proj2 (Z.ltb_ge 1114111 _)), !(proj2 (Z.leb_gt 55296 _)) by lia. cbn [orb andb].
  rewrite !(proj2 (Z.ltb_lt _ 65536)) by lia.
  assert (C1 : ∀ (l : list Z) x y, l ++ [x; y] = (l ++ [x]) ++ [y]) by (intros; by rewrite <- app_assoc).
  assert (C2 : ∀ (l : list Z) x y z, l ++ [x; y; z] = ((l ++ [x]) ++ [y]) ++ [z]) by (intros; by rewrite <- !app_assoc).
  assert (C3 : ∀ (l : list Z) x y z w, l ++ [x; y; z; w] = (((l ++ [x]) ++ [y]) ++ [z]) ++ [w])
    by (intros; by rewrite <- !app_assoc).
  destruct (Z.ltb_spec g 128), (Z.ltb_spec h 128), (Z.ltb_spec g 2048), (Z.ltb_spec h 2048); try lia; cbn [app];
    rewrite ?C1, ?C2, ?C3; intros E;
    repeat match goal with
    | H : ?l ++ [?x] = ?r ++ [?y] |- _ =>
        apply app_inj_tail in H as [? ?]
    end; (split; [try done|]); Z.div_mod_to_equations; lia.
Qed.

Lemma add_ips_groups clock g ips ttl nt : tr_groups (snd (add_ips clock g ips ttl nt)) = tr_groups (snd nt).
Proof. revert nt. induction ips as [|ip ips IH]; intros nt; cbn [add_ips]; [done|]. rewrite IH. apply AddGroups_groups. Qed.

Lemma ContainsGroup_add now n ip gs ttl t ip' g :
  ContainsGroup now ip' g (AddGroups n ip gs ttl t) = true ↔
  ContainsGroup now ip' g t = true ∨
  (IsValid ip = true ∧ Unmap ip' = Unmap ip ∧ g ∈ gs ∧ 0 <= g < blen (tr_groups t)) ∧ now < n + clampTTL ttl.
Proof.
  rewrite !ContainsGroup_entry, AddGroups_entry. destruct (bool_decide _) eqn:E.
  - apply bool_decide_eq_true in E. rewrite live_longer, orb_true_iff, Z.ltb_lt. tauto.
  - apply bool_decide_eq_false in E. tauto.
Qed.

(** What adding a list of addresses does, over all clocks not before [T]. *)
Lemma add_ips_spec now clock g ips ttl nt ip' g' :
  (ContainsGroup now ip' g' (snd (add_ips clock g ips ttl nt)) = true →
     ContainsGroup now ip' g' (snd nt) = true ∨
     g' = g ∧ 0 <= g < blen (tr_groups (snd nt)) ∧ ∃ a, a ∈ ips ∧ IsValid a = true ∧ Unmap ip' = Unmap a) ∧
  (ContainsGroup now ip' g' (snd nt) = true → ContainsGroup now ip' g' (snd (add_ips clock g ips ttl nt)) = true) ∧
  (∀ T, (∀ n, T <= clock n) → now < T + clampTTL ttl → g' = g → 0 <= g < blen (tr_groups (snd nt)) →
     (∃ a, a ∈ ips ∧ IsValid a = true ∧ Unmap ip' = Unmap a) →
     ContainsGroup now ip' g' (snd (add_ips clock g ips ttl nt)) = true).
Proof.
  revert nt. induction ips as [|ip ips IH]; intros nt; cbn [add_ips].
  { split_and!; try tauto. intros T _ _ _ _ (a & H & _). by apply not_elem_of_nil in H. }
  destruct (IH (S (fst nt), AddGroups (clock (fst nt)) ip [g] ttl (snd nt))) as (I1 & I2 & I3). cbn [fst snd] in *.
  rewrite AddGroups_groups in I1, I3. split_and!.
  - intros H. destruct (I1 H) as [Hc|(-> & Hr & a & Ha & Hv & Hu)].
    + apply ContainsGroup_add in Hc as [?|[(Hv & Hu & Hg & Hr) _]]; [by left|]. apply list_elem_of_singleton in Hg as ->.
      right. split_and!; try done; try lia. exists ip. split_and!; [constructor|done|done].
    + right. split_and!; try done; try lia. exists a. split_and!; [by constructor|done|done].
  - intros H. apply I2, ContainsGroup_add. by left.
  - intros T HT Hn -> Hr (a & Ha & Hv & Hu). apply elem_of_cons in Ha as [->|Ha].
    + apply I2, ContainsGroup_add. right. split; [split_and!; try done; [by constructor|lia|lia]|].
      specialize (HT (fst nt)). lia.
    + apply (I3 T); eauto.
Qed.

Definition from_items (resolver : list Z → option (list Addr)) (items : list item) (ip : Addr) (g : Z) : Prop :=
  ∃ it ips a, it ∈ items ∧ it_group it = g ∧ resolver (it_name it) = Some ips ∧ a ∈ ips ∧ IsValid a = true ∧
    Unmap ip = Unmap a.

Lemma resolve_items_spec now clock resolver items ttl nt ip g :
  let t' := snd (resolve_items clock resolver items ttl nt) in
  (ContainsGroup now ip g t' = true →
     ContainsGroup now ip g (snd nt) = true ∨ 0 <= g < blen (tr_groups (snd nt)) ∧ from_items resolver items ip g) ∧
  (ContainsGroup now ip g (snd nt) = true → ContainsGroup now ip g t' = true) ∧
  (∀ T, (∀ n, T <= clock n) → now < T + clampTTL ttl → 0 <= g < blen (tr_groups (snd nt)) →
     from_items resolver items ip g → ContainsGroup now ip g t' = true).
Proof.
  cbv zeta. revert nt. induction items as [|it items IH]; intros nt; cbn [resolve_items].
  { split_and!; try tauto. intros T _ _ _ (x & _ & _ & H & _). by apply not_elem_of_nil in H. }
  assert (W : ∀ x y, from_items resolver items x y → from_items resolver (it :: items) x y).
  { intros x y (i & ips & a & Hi & H). exists i, ips, a. split; [by constructor|done]. }
  destruct (resolver (it_name it)) as [ips|] eqn:Er.
  - destruct (IH (add_ips clock (it_group it) ips ttl nt)) as (I1 & I2 & I3).
    destruct (add_ips_spec now clock (it_group it) ips ttl nt ip g) as (A1 & A2 & A3).
    rewrite add_ips_groups in I1, I3. split_and!.
    + intros H. destruct (I1 H) as [Hc|[Hr Hf]]; [|right; eauto].
      destruct (A1 Hc) as [?|(-> & Hr & a & Ha & Hv & Hu)]; [by left|]. right. split; [done|].
      exists it, ips, a. split_and!; try done. constructor.
    + tauto.
    + intros T HT Hn Hr (i & ips' & a & Hi & Hg & Hres & Ha & Hv & Hu). apply elem_of_cons in Hi as [->|Hi].
      * apply I2, (A3 T); try done; [by rewrite Hg|]. rewrite Er in Hres. simplify_eq. eauto.
      * apply (I3 T); try done. exists i, ips', a. split_and!; done.
  - destruct (IH nt) as (I1 & I2 & I3). split_and!.
    + intros H. destruct (I1 H) as [?|[? ?]]; [by left|right; eauto].
    + tauto.
    + intros T HT Hn Hr (i & ips' & a & Hi & Hg & Hres & H). apply elem_of_cons in Hi as [->|Hi]; [congruence|].
      apply (I3 T); try done. exists i, ips', a. split_and!; try done; tauto.
Qed.

(** The item a pattern stands for, if any, and the key it is deduplicated by. *)
Definition base_name (p : list Z) : list Z := TrimPrefix p (lit "*.").
Definition usable (p : list Z) : Prop := base_name p ≠ [] ∧ base_name p ≠ star.
Definition item_key (it : item) : list Z := ToLower (it_name it) ++ [0] ++ utf8 (it_group it).

Lemma pattern_items_spec gi ps seen out seen' out' :
  (∀ k, k ∈ seen ↔ k ∈ map item_key out) → pattern_items gi ps seen out = (seen', out') →
  (∀ k, k ∈ seen' ↔ k ∈ map item_key out') ∧ (∀ it, it ∈ out → it ∈ out') ∧
  (∀ it, it ∈ out' → it ∈ out ∨ it_group it = gi ∧ ∃ p, p ∈ ps ∧ usable p ∧ it_name it = base_name p) ∧
  (∀ p, p ∈ ps → usable p → item_key (mkItem (base_name p) gi) ∈ map item_key out').
Proof.
  revert seen out. induction ps as [|p ps IH]; intros seen out Hs; cbn [pattern_items].
  { intros [= <- <-]. split_and!; try tauto. intros p H. by apply not_elem_of_nil in H. }
  cbv zeta. fold (base_name p).
  assert (weaken : ∀ P : list Z → Prop, (∃ q, q ∈ ps ∧ P q) → ∃ q, q ∈ p :: ps ∧ P q)
    by (intros P (q & Hq & HP); exists q; split; [by constructor|done]).
  destruct (bool_decide (base_name p = []) || bool_decide (base_name p = star)) eqn:Eu.
  - intros E. destruct (IH _ _ Hs E) as (I1 & I2 & I3 & I4). split_and!; try done.
    + intros it Hit. destruct (I3 it Hit) as [?|(? & H)]; [by left|right; split; [done|by apply weaken]].
    + intros q Hq [U1 U2]. apply elem_of_cons in Hq as [->|Hq]; [|by apply I4].
      apply orb_true_iff in Eu. rewrite !bool_decide_eq_true in Eu. tauto.
  - apply orb_false_iff in Eu. rewrite !bool_decide_eq_false in Eu.
    set (key := ToLower (base_name p) ++ [0] ++ utf8 gi).
    destruct (bool_decide (key ∈ seen)) eqn:Ek; [apply bool_decide_eq_true in Ek|apply bool_decide_eq_false in Ek]; intros E.
    + destruct (IH _ _ Hs E) as (I1 & I2 & I3 & I4). split_and!; try done.
      * intros it Hit. destruct (I3 it Hit) as [?|(? & H)]; [by left|right; split; [done|by apply weaken]].
      * intros q Hq Hu. apply elem_of_cons in Hq as [->|Hq]; [|by apply I4]. apply Hs in Ek.
        apply list_elem_of_In, in_map_iff in Ek as (it & Ekey & Hin). unfold key in Ekey.
        apply list_elem_of_In, in_map_iff. exists it. split; [done|]. apply list_elem_of_In, I2. by apply list_elem_of_In.
    + destruct (IH ({[key]} ∪ seen) (out ++ [mkItem (base_name p) gi])) as (I1 & I2 & I3 & I4); [|done|].
      { intros k. rewrite map_app, elem_of_union, elem_of_app, elem_of_singleton, Hs. cbn. rewrite list_elem_of_singleton.
        unfold item_key, key. cbn. tauto. }
      split_and!; try done.
      * intros it Hit. apply I2, elem_of_app. by left.
      * intros it Hit. destruct (I3 it Hit) as [H|(? & H)]; [|right; split; [done|by apply weaken]].
        apply elem_of_app in H as [H|H]; [by left|]. apply list_elem_of_singleton in H as ->. right.
        split; [done|]. exists p. split_and!; [constructor|done|done].
      * intros q Hq Hu. apply elem_of_cons in Hq as [->|Hq]; [|by apply I4].
        apply list_elem_of_In, in_map_iff. eexists. split; [done|]. apply list_elem_of_In, I2, elem_of_app.
        right. constructor.
Qed.

Lemma group_items_spec gi gs seen out :
  (∀ k, k ∈ seen ↔ k ∈ map item_key out) →
  let r := group_items gi gs seen out in
  (∀ it, it ∈ out → it ∈ r) ∧
  (∀ it, it ∈ r → it ∈ out ∨ ∃ n g p, gs !! n = Some g ∧ it_group it = gi + Z.of_nat n ∧ DomainsAll g = false ∧
     p ∈ gDomains g ∧ usable p ∧ it_name it = base_name p) ∧
  (∀ n g p, gs !! n = Some g → DomainsAll g = false → p ∈ gDomains g → usable p →
     item_key (mkItem (base_name p) (gi + Z.of_nat n)) ∈ map item_key r).
Proof.
  cbv zeta. revert gi seen out. induction gs as [|g gs IH]; intros gi seen out Hs; cbn [group_items].
  { split_and!; try tauto. done. }
  assert (shift : ∀ n g', gs !! n = Some g' → (g :: gs) !! S n = Some g' ∧ gi + 1 + Z.of_nat n = gi + Z.of_nat (S n))
    by (intros; split; [done|lia]).
  destruct (DomainsAll g) eqn:Ed; [|destruct (pattern_items gi (gDomains g) seen out) as [seen1 out1] eqn:Ep].
  - destruct (IH (gi + 1) seen out Hs) as (I1 & I2 & I3). split_and!; try done.
    + intros it Hit. destruct (I2 it Hit) as [?|(n & g' & p & Hn & Hg & H)]; [by left|]. right.
      exists (S n), g', p. destruct (shift n g' Hn) as [? E]. rewrite <- E. split_and!; try done; tauto.
    + intros [|n] g' p Hn; cbn in Hn; [simplify_eq; congruence|]. destruct (shift n g' Hn) as [_ E]. rewrite <- E.
      intros. by apply (I3 n g').
  - destruct (pattern_items_spec _ _ _ _ _ _ Hs Ep) as (P1 & P2 & P3 & P4).
    destruct (IH (gi + 1) seen1 out1 P1) as (I1 & I2 & I3). split_and!.
    + auto.
    + intros it Hit. destruct (I2 it Hit) as [H|(n & g' & p & Hn & Hg & H)].
      * destruct (P3 it H) as [?|(Hg & p & Hp & Hu & Hnm)]; [by left|]. right. exists 0%nat, g, p.
        split_and!; try done. lia.
      * right. exists (S n), g', p. destruct (shift n g' Hn) as [? E]. rewrite <- E. split_and!; try done; tauto.
    + intros [|n] g' p Hn Hd Hp Hu; cbn in Hn.
      * simplify_eq. replace (gi + Z.of_nat 0) with gi by lia.
        specialize (P4 p Hp Hu). apply list_elem_of_In, in_map_iff in P4 as (it & Ek & Hin).
        apply list_elem_of_In, in_map_iff. exists it. split; [done|]. apply list_elem_of_In, I1. by apply list_elem_of_In.
      * destruct (shift n g' Hn) as [_ E]. rewrite <- E. by apply (I3 n g').
Qed.

(** The bootstrap learns the configured names and nothing else.  Whatever
    is in a group afterwards was in it before or is an address the resolver gave
    for the name of one of the group's patterns (a wildcard standing for its
    base); and for every pattern of a group that is not a catch-all, up to case of
    the name, all valid addresses the resolver returns are in the group until at
    least the lifetime after the earliest clock reading.  (At most 55296 groups,
    the range in which the deduplication key tells groups apart.) *)
Theorem ResolveBootstrap_learns (clock : nat → Z) (resolver : list Z → option (list Addr)) (ttl now T : Z)
    (t : Tracker) (ip : Addr) (n : nat) (g : Group) :
  tr_groups t !! n = Some g → blen (tr_groups t) <= 55296 → (∀ k, T <= clock k) → now < T + clampTTL ttl →
  let t' := ResolveBootstrapWithResolver clock resolver ttl t in
  (ContainsGroup now ip (Z.of_nat n) t' = true →
   ContainsGroup now ip (Z.of_nat n) t = true ∨
   DomainsAll g = false ∧ ∃ p ips a, p ∈ gDomains g ∧ usable p ∧ resolver (base_name p) = Some ips ∧ a ∈ ips ∧
     Unmap ip = Unmap a) ∧
  (∀ p, DomainsAll g = false → p ∈ gDomains g → usable p →
   ∃ name, ToLower name = ToLower (base_name p) ∧
     ∀ ips, resolver name = Some ips → ip ∈ ips → IsValid ip = true → ContainsGroup now ip (Z.of_nat n) t' = true).
Proof.
  intros Hn Hb HT Hnow. cbv zeta. unfold ResolveBootstrapWithResolver.
  destruct (group_items_spec 0 (tr_groups t) ∅ []) as (_ & G2 & G3); [intros; by rewrite elem_of_empty, elem_of_nil|].
  set (items := group_items 0 (tr_groups t) ∅ []) in *.
  destruct (resolve_items_spec now clock resolver items ttl (0%nat, t) ip (Z.of_nat n)) as (R1 & _ & R3). cbn [snd] in R1, R3.
  pose proof (lookup_lt_Some _ _ _ Hn) as Hlt. split.
  - intros H. destruct (R1 H) as [?|(_ & it & ips & a & Hit & Hg & Hr & Ha & Hv & Hu)]; [by left|]. right.
    destruct (G2 it Hit) as [H0|(m & g' & p & Hm & Hg' & Hd & Hp & Hup & Hname)]; [by apply not_elem_of_nil in H0|].
    assert (m = n) as -> by lia. simplify_eq. split; [done|]. exists p, ips, a. rewrite <- Hname. by split_and!.
  - intros p Hd Hp Hu. specialize (G3 n g p Hn Hd Hp Hu). rewrite Z.add_0_l in G3.
    apply list_elem_of_In, in_map_iff in G3 as (it & Ek & Hin). apply list_elem_of_In in Hin.
    destruct (G2 it Hin) as [H0|(m & g' & q & Hm & Hg' & Hd' & Hq & Huq & Hname)]; [by apply not_elem_of_nil in H0|].
    unfold item_key in Ek. cbn [it_name it_group] in Ek.
    apply lookup_lt_Some in Hm. unfold blen in Hb. apply utf8_suffix_code in Ek as [E1 E2]; [|lia|lia].
    exists (it_name it). split; [done|]. intros ips Hr Hip Hv.
    apply (R3 T); [done|done|unfold blen; lia|]. exists it, ips, ip. by split_and!.
Qed.
End NameClaims.

Definition example_groups : list Group :=
  [mkGroup (lit "g") [lit "*"] [lit "*"] []; mkGroup (lit "h") [lit "app.exe"] [lit "*.example.com"; lit "Example.com"] []].
Lemma NameGroups_correct_witness :
  @NameGroups ascii_unicode (lit " WWW.Example.COM. ") (New example_groups) = Ok [1] ∧
  ∃ all, @GroupsForNames ascii_unicode elements [lit "a.example.com"; lit "example.com"] (New example_groups) = Ok all ∧
    NoDup all ∧ 1 ∈ all.
Proof.
  split; [vm_compute; reflexivity|].
  destruct (@NameGroups_correct ascii_unicode elements (lit "www.example.com") [lit "a.example.com"; lit "example.com"]
    (New example_groups) (fun s => Permutation_refl (elements s))) as (out & _ & _ & _ & _ & all & E & Hnd & Hall).
  exists all. split; [exact E|]. split; [exact Hnd|]. apply Hall. exists (lit "example.com"), [1].
  split; [repeat constructor|]. split; [vm_compute; reflexivity|constructor].
Defined.

Definition example_resolver (name : list Z) : option (list Addr) :=
  if bool_decide (name = lit "example.com") then Some [Addr4 [1; 2; 3; 4]] else None.
Lemma ResolveBootstrap_learns_witness :
  ContainsGroup 15 (Addr4 [1; 2; 3; 4]) 1
    (@ResolveBootstrapWithResolver ascii_unicode (fun _ => 5) example_resolver 0 (New example_groups)) = true ∧
  (ContainsGroup 15 (Addr4 [9; 9; 9; 9]) 1
    (@ResolveBootstrapWithResolver ascii_unicode (fun _ => 5) example_resolver 0 (New example_groups)) = true →
   ∃ p ips a, p ∈ gDomains (mkGroup (lit "h") [lit "app.exe"] [lit "*.example.com"; lit "Example.com"] []) ∧
     usable p ∧ example_resolver (base_name p) = Some ips ∧ a ∈ ips ∧ Unmap (Addr4 [9; 9; 9; 9]) = Unmap a).
Proof.
  split; [vm_compute; reflexivity|]. intros H.
  destruct (proj1 (@ResolveBootstrap_learns ascii_unicode (fun _ => 5) example_resolver 0 15 5 (New example_groups)
    (Addr4 [9; 9; 9; 9]) 1 (mkGroup (lit "h") [lit "app.exe"] [lit "*.example.com"; lit "Example.com"] [])
    eq_refl ltac:(vm_compute; discriminate) ltac:(intros; lia) ltac:(vm_compute; reflexivity)) H) as [H0|[_ H0]].
  - vm_compute in H0. discriminate H0.
  - exact H0.
Defined.
