(* ===== verification/Policy.v ===== *)
(** * Routing policy: [internal/policy/policy.go]

    The engine compiles the application selectors of the groups into two maps and
    a list of global groups, and decides per process and destination.  [eDomains]
    is the current content of the shared tracker ([None] for a nil pointer); the
    clock is an argument.  A group index out of range panics. *)

From S2P Require Import Prelude Netip GoStrings Config FlowIndex Tracker.
Local Open Scope Z_scope.

Record Decision : Type := mkDecision { dTunnel : bool; dReason : list Z; dGroup : list Z }.
Definition Decision0 : Decision := mkDecision false [] [].

Record Engine : Type := mkEngine {
  eCfg : Config;
  eDomains : option Tracker;
  eInternal : list (list Z);
  eGlobal : list Z;
  eByName : gmap (list Z) (list Z);
  eByPath : gmap (list Z) (list Z)
}.

Section Policy.
Context {U : Unicode} {F : Platform}.

Definition canonPath (s : list Z) : list Z := ToLower (replace_byte (TrimSpace s) slash backslash).
Definition canonName (s : list Z) : Res (list Z) :=
  b ← Base (replace_byte (TrimSpace s) backslash slash); Ok (ToLower b).

Definition push (k : list Z) (i : Z) (m : gmap (list Z) (list Z)) : gmap (list Z) (list Z) :=
  <[k := default [] (m !! k) ++ [i]]> m.
Definition has_separator (app : list Z) : bool := ContainsAny app [backslash; slash].

Fixpoint compile_group (i : Z) (apps : list (list Z)) (byName byPath : gmap (list Z) (list Z)) :
    Res (gmap (list Z) (list Z) * gmap (list Z) (list Z)) :=
  match apps with
  | [] => Ok (byName, byPath)
  | app :: rest =>
      if has_separator app then compile_group i rest byName (push (canonPath app) i byPath)
      else k ← canonName app; compile_group i rest (push k i byName) byPath
  end.
Fixpoint compile_loop (i : Z) (groups : list Group) (e : Engine) : Res Engine :=
  match groups with
  | [] => Ok e
  | g :: rest =>
      if AppsAll g then
        compile_loop (i + 1) rest
          (mkEngine (eCfg e) (eDomains e) (eInternal e) (eGlobal e ++ [i]) (eByName e) (eByPath e))
      else
        '(byName, byPath) ← compile_group i (gApps g) (eByName e) (eByPath e);
        compile_loop (i + 1) rest (mkEngine (eCfg e) (eDomains e) (eInternal e) (eGlobal e) byName byPath)
  end.
Definition compileApps (e : Engine) : Res Engine :=
  compile_loop 0 (cGroups (eCfg e)) (mkEngine (eCfg e) (eDomains e) (eInternal e) (eGlobal e) ∅ ∅).

Definition New (cfg : Config) (domains : option Tracker) : Res Engine :=
  compileApps (mkEngine cfg domains [] [] ∅ ∅).
Definition NewWithInternal (cfg : Config) (domains : option Tracker) (internal : list (list Z)) : Res Engine :=
  e ← New cfg domains;
  Ok (mkEngine (eCfg e) (eDomains e) internal (eGlobal e) (eByName e) (eByPath e)).

Definition candidateSlices (proc : Process) (e : Engine) : Res (list Z * list Z * list Z) :=
  k ← canonName (prName proc);
  Ok (eGlobal e, default [] (eByName e !! k), default [] (eByPath e !! canonPath (prPath proc))).

Definition group_at (e : Engine) (i : Z) : Res Group :=
  if i <? 0 then Panic else match cGroups (eCfg e) !! Z.to_nat i with Some g => Ok g | None => Panic end.

Definition groupDestinationMatches (now groupIndex : Z) (g : Group) (dst : Addr) (e : Engine) : bool :=
  if DomainsAll g then true else
  if existsb (fun n => Prefix_Contains n dst) (gNetworks g) then true else
  match eDomains e with Some t => ContainsGroup now dst groupIndex t | None => false end.

Fixpoint decideIDs (now : Z) (ids : list Z) (dst : Addr) (e : Engine) : Res Decision :=
  match ids with
  | [] => Ok Decision0
  | i :: rest =>
      g ← group_at e i;
      if negb (groupDestinationMatches now i g dst e) then decideIDs now rest dst e
      else Ok (mkDecision true (lit "group:" ++ gName g) (gName g))
  end.
Definition Decide (now : Z) (proc : Process) (dst : Addr) (e : Engine) : Res Decision :=
  let dst := Unmap dst in
  '(global, names, paths) ← candidateSlices proc e;
  d ← decideIDs now global dst e;
  if dTunnel d then Ok d else
  d ← decideIDs now names dst e;
  if dTunnel d then Ok d else
  decideIDs now paths dst e.

Fixpoint decideHostIDs (ids : list Z) (host : list Z) (e : Engine) : Res Decision :=
  match ids with
  | [] => Ok Decision0
  | i :: rest =>
      g ← group_at e i;
      skip ← (if DomainsAll g then Ok true else b ← MatchesDomain g host; Ok (negb b));
      if (skip : bool) then decideHostIDs rest host e
      else Ok (mkDecision true (lit "host-group:" ++ gName g) (gName g))
  end.
Definition DecideHost (proc : Process) (host : list Z) (e : Engine) : Res Decision :=
  '(global, names, paths) ← candidateSlices proc e;
  d ← decideHostIDs global host e;
  if dTunnel d then Ok d else
  d ← decideHostIDs names host e;
  if dTunnel d then Ok d else
  decideHostIDs paths host e.

Definition IsInternal (proc : Process) (e : Engine) : Res bool := Match proc (eInternal e).

Fixpoint could_loop (now : Z) (ids : list Z) (dst : Addr) (e : Engine) : Res bool :=
  match ids with
  | [] => Ok false
  | i :: rest =>
      g ← group_at e i;
      if groupDestinationMatches now i g dst e then Ok true else could_loop now rest dst e
  end.
Definition CouldTunnelWithoutProcess (now : Z) (dst : Addr) (e : Engine) : Res bool :=
  could_loop now (eGlobal e) (Unmap dst) e.

Fixpoint needsTLSIDs (ids : list Z) (e : Engine) : Res bool :=
  match ids with
  | [] => Ok false
  | i :: rest =>
      g ← group_at e i;
      if negb (DomainsAll g) && (0 <? blen (gDomains g)) then Ok true else needsTLSIDs rest e
  end.
Definition NeedsTLSDiscovery (proc : Process) (e : Engine) : Res bool :=
  '(global, names, paths) ← candidateSlices proc e;
  b ← needsTLSIDs global e;
  if (b : bool) then Ok true else
  b ← needsTLSIDs names e;
  if (b : bool) then Ok true else needsTLSIDs paths e.

(** The two loops of [ShouldSuppressQUIC] have the body of [needsTLSIDs]. *)
Definition ShouldSuppressQUIC (proc : Process) (e : Engine) : Res bool :=
  k ← canonName (prName proc);
  b ← needsTLSIDs (default [] (eByName e !! k)) e;
  if (b : bool) then Ok true else
  needsTLSIDs (default [] (eByPath e !! canonPath (prPath proc))) e.

Fixpoint domainIPIDs (now : Z) (ids : list Z) (dst : Addr) (e : Engine) : Res bool :=
  match ids with
  | [] => Ok false
  | i :: rest =>
      g ← group_at e i;
      if DomainsAll g then domainIPIDs now rest dst e else
      if match eDomains e with Some t => ContainsGroup now dst i t | None => false end then Ok true
      else domainIPIDs now rest dst e
  end.
Definition IsDomainIPForProcess (now : Z) (proc : Process) (dst : Addr) (e : Engine) : Res bool :=
  let dst := Unmap dst in
  '(global, names, paths) ← candidateSlices proc e;
  b ← domainIPIDs now global dst e;
  if (b : bool) then Ok true else
  b ← domainIPIDs now names dst e;
  if (b : bool) then Ok true else domainIPIDs now paths dst e.
End Policy.

(** ** The reference: scan all groups in configuration order *)
Section Reference.
Context {U : Unicode} {F : Platform}.

Definition names_app (k : Res (list Z)) (app : list Z) : bool :=
  negb (has_separator app) && match canonName app, k with Ok a, Ok b => bool_decide (a = b) | _, _ => false end.
Definition paths_app (k : list Z) (app : list Z) : bool := has_separator app && bool_decide (canonPath app = k).

(** How a group selects a process: for everyone, by executable name or by path. *)
Definition sel_global (g : Group) : bool := AppsAll g.
Definition sel_name (proc : Process) (g : Group) : bool :=
  negb (AppsAll g) && existsb (names_app (canonName (prName proc))) (gApps g).
Definition sel_path (proc : Process) (g : Group) : bool :=
  negb (AppsAll g) && existsb (paths_app (canonPath (prPath proc))) (gApps g).
Definition app_selected (proc : Process) (g : Group) : bool := sel_global g || sel_name proc g || sel_path proc g.

Fixpoint scan_groups (sel : Group → bool) (dest : Z → Group → bool) (i : Z) (groups : list Group) : option Group :=
  match groups with
  | [] => None
  | g :: rest => if sel g && dest i g then Some g else scan_groups sel dest (i + 1) rest
  end.
Definition orElse3 {A} (a b c : option A) : option A :=
  match a with Some _ => a | None => match b with Some _ => b | None => c end end.
(** The first matching group, global groups before groups that name the
    executable before groups that give its path. *)
Definition best_group (proc : Process) (dest : Z → Group → bool) (groups : list Group) : option Group :=
  orElse3 (scan_groups sel_global dest 0 groups) (scan_groups (sel_name proc) dest 0 groups)
    (scan_groups (sel_path proc) dest 0 groups).

(** ** Index lists *)

(** The index lists the compiler builds: each group's index, once per selector that hits. *)
Fixpoint ids (hits : Group → nat) (i : Z) (groups : list Group) : list Z :=
  match groups with
  | [] => []
  | g :: rest => replicate (hits g) i ++ ids hits (i + 1) rest
  end.
Definition hits_global (g : Group) : nat := if AppsAll g then 1 else 0.
Definition hits_by (f : list Z → bool) (g : Group) : nat :=
  if AppsAll g then 0 else length (List.filter f (gApps g)).

Lemma canonName_returns s : ∃ k, canonName s = Ok k.
Proof. unfold canonName. destruct (Base_returns (replace_byte (TrimSpace s) backslash slash)) as [b ->]. eauto. Qed.

Lemma push_lookup k i m k' :
  default [] (push k i m !! k') = default [] (m !! k') ++ (if bool_decide (k = k') then [i] else []).
Proof.
  unfold push. destruct (decide (k = k')) as [->|Hne].
  - rewrite lookup_insert_eq, bool_decide_eq_true_2 by done. done.
  - rewrite lookup_insert_ne, bool_decide_eq_false_2 by done. by rewrite app_nil_r.
Qed.

Lemma compile_group_spec i apps bn bp :
  ∃ bn' bp', compile_group i apps bn bp = Ok (bn', bp') ∧
    (∀ k, default [] (bn' !! k) = default [] (bn !! k) ++ replicate (length (List.filter (names_app (Ok k)) apps)) i) ∧
    (∀ k, default [] (bp' !! k) = default [] (bp !! k) ++ replicate (length (List.filter (paths_app k) apps)) i).
Proof.
  revert bn bp. induction apps as [|app apps IH]; intros bn bp; cbn [compile_group].
  { exists bn, bp. split_and!; [done|..]; intros k; cbn; by rewrite app_nil_r. }
  destruct (has_separator app) eqn:Es.
  - destruct (IH bn (push (canonPath app) i bp)) as (bn' & bp' & -> & Hn & Hp). exists bn', bp'. split_and!; [done|..].
    + intros k. rewrite Hn. cbn. unfold names_app at 2. rewrite Es. done.
    + intros k. rewrite Hp, push_lookup. cbn. unfold paths_app at 2. rewrite Es. cbn.
      destruct (bool_decide _); cbn; by rewrite <- app_assoc.
  - destruct (canonName_returns app) as [k0 Ek]. rewrite Ek, bind_Ok.
    destruct (IH (push k0 i bn) bp) as (bn' & bp' & -> & Hn & Hp). exists bn', bp'. split_and!; [done|..].
    + intros k. rewrite Hn, push_lookup. cbn. unfold names_app at 2. rewrite Es, Ek. cbn.
      destruct (bool_decide _); cbn; by rewrite <- app_assoc.
    + intros k. rewrite Hp. cbn. unfold paths_app at 2. rewrite Es. done.
Qed.

Lemma compile_loop_spec i groups e :
  ∃ e', compile_loop i groups e = Ok e' ∧ eCfg e' = eCfg e ∧ eDomains e' = eDomains e ∧ eInternal e' = eInternal e ∧
    eGlobal e' = eGlobal e ++ ids hits_global i groups ∧
    (∀ k, default [] (eByName e' !! k) = default [] (eByName e !! k) ++ ids (hits_by (names_app (Ok k))) i groups) ∧
    (∀ k, default [] (eByPath e' !! k) = default [] (eByPath e !! k) ++ ids (hits_by (paths_app k)) i groups).
Proof.
  revert i e. induction groups as [|g groups IH]; intros i e; cbn [compile_loop ids].
  { exists e. split_and!; try done; intros; by rewrite app_nil_r. }
  unfold hits_global at 1, hits_by. destruct (AppsAll g) eqn:Ea.
  - destruct (IH (i + 1) (mkEngine (eCfg e) (eDomains e) (eInternal e) (eGlobal e ++ [i]) (eByName e) (eByPath e)))
      as (e' & -> & H1 & H2 & H3 & H4 & H5 & H6). exists e'. cbn in *. split_and!; try done.
    rewrite H4. by rewrite <- app_assoc.
  - destruct (compile_group_spec i (gApps g) (eByName e) (eByPath e)) as (bn & bp & -> & Hn & Hp). rewrite bind_Ok.
    destruct (IH (i + 1) (mkEngine (eCfg e) (eDomains e) (eInternal e) (eGlobal e) bn bp))
      as (e' & -> & H1 & H2 & H3 & H4 & H5 & H6). exists e'. cbn in *. split_and!; try done.
    + intros k. by rewrite H5, Hn, <- app_assoc.
    + intros k. by rewrite H6, Hp, <- app_assoc.
Qed.

(** What the constructors establish and no operation changes. *)
Record compiled (e : Engine) : Prop := {
  cp_global : eGlobal e = ids hits_global 0 (cGroups (eCfg e));
  cp_name : ∀ k, default [] (eByName e !! k) = ids (hits_by (names_app (Ok k))) 0 (cGroups (eCfg e));
  cp_path : ∀ k, default [] (eByPath e !! k) = ids (hits_by (paths_app k)) 0 (cGroups (eCfg e))
}.

Lemma NewWithInternal_compiled cfg domains internal :
  ∃ e, NewWithInternal cfg domains internal = Ok e ∧ compiled e ∧ eCfg e = cfg ∧ eDomains e = domains ∧
    eInternal e = internal.
Proof.
  unfold NewWithInternal, New, compileApps. cbn [eCfg eDomains eInternal eGlobal].
  destruct (compile_loop_spec 0 (cGroups cfg) (mkEngine cfg domains [] [] ∅ ∅)) as (e & -> & H1 & H2 & H3 & H4 & H5 & H6).
  rewrite bind_Ok. eexists. split; [done|]. cbn in *. split_and!; try done.
  split; cbn; rewrite H1; [done|..]; intros k; [rewrite H5|rewrite H6]; by rewrite lookup_empty.
Qed.

(** ** From index lists to the reference scan *)
Fixpoint pick (groups : list Group) (dest : Z → Group → bool) (l : list Z) : option Group :=
  match l with
  | [] => None
  | i :: rest =>
      match groups !! Z.to_nat i with
      | Some g => if dest i g then Some g else pick groups dest rest
      | None => pick groups dest rest
      end
  end.

Lemma pick_replicate all dest n i g rest :
  all !! Z.to_nat i = Some g →
  pick all dest (replicate n i ++ rest) = if negb (n =? 0)%nat && dest i g then Some g else pick all dest rest.
Proof.
  intros Hg. induction n as [|n IH]; [done|]. cbn. rewrite Hg. destruct (dest i g) eqn:E; [done|].
  rewrite IH. by rewrite andb_false_r.
Qed.

Lemma pick_ids all dest hits pre groups :
  all = pre ++ groups →
  pick all dest (ids hits (blen pre) groups) = scan_groups (fun g => negb (hits g =? 0)%nat) dest (blen pre) groups.
Proof.
  revert pre. induction groups as [|g groups IH]; intros pre Hall; cbn [ids scan_groups]; [done|].
  rewrite (pick_replicate all dest (hits g) (blen pre) g).
  - destruct (_ && _); [done|]. specialize (IH (pre ++ [g])). rewrite blen_snoc in IH. apply IH. by rewrite <- app_assoc.
  - rewrite Hall. unfold blen. rewrite Nat2Z.id. by rewrite list_lookup_middle.
Qed.

Lemma ids_range hits i groups j : j ∈ ids hits i groups → i <= j < i + blen groups.
Proof.
  revert i. induction groups as [|g groups IH]; intros i; cbn [ids]; [by intros ?%not_elem_of_nil|].
  rewrite elem_of_app, blen_cons. intros [H|H].
  - apply elem_of_replicate in H as [-> _]. pose proof (blen_nonneg groups). lia.
  - apply IH in H. lia.
Qed.

Lemma scan_ext sel sel' dest i groups : (∀ g, sel g = sel' g) → scan_groups sel dest i groups = scan_groups sel' dest i groups.
Proof. intros E. revert i. induction groups as [|g groups IH]; intros i; cbn; [done|]. by rewrite E, IH. Qed.

Lemma hits_by_sel f g : negb (hits_by f g =? 0)%nat = negb (AppsAll g) && existsb f (gApps g).
Proof.
  unfold hits_by. destruct (AppsAll g); [done|]. cbn. induction (gApps g) as [|a l IH]; [done|]. cbn.
  by destruct (f a).
Qed.

(** The three candidate lists give the three scans. *)
Lemma candidates_spec proc e : compiled e →
  ∃ a b c, candidateSlices proc e = Ok (a, b, c) ∧
    (∀ j, j ∈ a ∨ j ∈ b ∨ j ∈ c → 0 <= j < blen (cGroups (eCfg e))) ∧
    (∀ dest, pick (cGroups (eCfg e)) dest a = scan_groups sel_global dest 0 (cGroups (eCfg e)) ∧
       pick (cGroups (eCfg e)) dest b = scan_groups (sel_name proc) dest 0 (cGroups (eCfg e)) ∧
       pick (cGroups (eCfg e)) dest c = scan_groups (sel_path proc) dest 0 (cGroups (eCfg e))).
Proof.
  intros [C1 C2 C3]. unfold candidateSlices. destruct (canonName_returns (prName proc)) as [k Ek].
  rewrite Ek, bind_Ok. eexists _, _, _. split; [done|]. rewrite C1, C2, C3. split.
  - intros j [H|[H|H]]; by apply ids_range in H.
  - intros dest. assert (P : ∀ hits, pick (cGroups (eCfg e)) dest (ids hits 0 (cGroups (eCfg e))) =
      scan_groups (fun g => negb (hits g =? 0)%nat) dest 0 (cGroups (eCfg e)))
      by (intros hits; by apply (pick_ids _ dest hits [])).
    rewrite !P. split_and!; apply scan_ext; intros g.
    + unfold hits_global, sel_global. by destruct (AppsAll g).
    + rewrite hits_by_sel. unfold sel_name. by rewrite Ek.
    + rewrite hits_by_sel. done.
Qed.

Lemma group_at_ok e i : 0 <= i < blen (cGroups (eCfg e)) →
  ∃ g, group_at e i = Ok g ∧ cGroups (eCfg e) !! Z.to_nat i = Some g.
Proof.
  intros Hi. unfold group_at. rewrite (proj2 (Z.ltb_ge _ _)) by lia.
  destruct (lookup_lt_is_Some_2 (cGroups (eCfg e)) (Z.to_nat i)) as [g ->]; [unfold blen in Hi; lia|eauto].
Qed.

Definition in_range (e : Engine) (l : list Z) : Prop := ∀ j, j ∈ l → 0 <= j < blen (cGroups (eCfg e)).
Lemma in_range_cons e i l : in_range e (i :: l) → 0 <= i < blen (cGroups (eCfg e)) ∧ in_range e l.
Proof. intros H. split; [apply H; constructor|]. intros j Hj. apply H. by constructor. Qed.

(** One step of each loop, in terms of [pick]. *)
Ltac loop_step IH H :=
  apply in_range_cons in H as [?Hi ?Hr];
  let g := fresh "g" in let E := fresh "E" in let L := fresh "L" in
  destruct (group_at_ok _ _ Hi) as (g & E & L); cbn [pick]; rewrite E, bind_Ok, L.

Definition ip_decision (o : option Group) : Decision :=
  match o with Some g => mkDecision true (lit "group:" ++ gName g) (gName g) | None => Decision0 end.
Definition host_decision (o : option Group) : Decision :=
  match o with Some g => mkDecision true (lit "host-group:" ++ gName g) (gName g) | None => Decision0 end.
Definition found (o : option Group) : bool := match o with Some _ => true | None => false end.

(** Destination tests. *)
Definition dest_ip (now : Z) (dst : Addr) (e : Engine) (i : Z) (g : Group) : bool := groupDestinationMatches now i g dst e.
Definition dest_host (host : list Z) (i : Z) (g : Group) : bool :=
  negb (DomainsAll g) && match MatchesDomain g host with Ok b => b | _ => false end.
Definition dest_named (i : Z) (g : Group) : bool := negb (DomainsAll g) && (0 <? blen (gDomains g)).
Definition dest_learned (now : Z) (dst : Addr) (e : Engine) (i : Z) (g : Group) : bool :=
  negb (DomainsAll g) && match eDomains e with Some t => ContainsGroup now dst i t | None => false end.

Lemma decideIDs_pick now l dst e : in_range e l →
  decideIDs now l dst e = Ok (ip_decision (pick (cGroups (eCfg e)) (dest_ip now dst e) l)).
Proof.
  induction l as [|i l IH]; intros H; cbn [decideIDs]; [done|]. loop_step IH H. unfold dest_ip at 1.
  destruct (groupDestinationMatches _ _ _ _ _); [done|by apply IH].
Qed.
Lemma decideHostIDs_pick l host e : in_range e l →
  decideHostIDs l host e = Ok (host_decision (pick (cGroups (eCfg e)) (dest_host host) l)).
Proof.
  induction l as [|i l IH]; intros H; cbn [decideHostIDs]; [done|]. loop_step IH H. unfold dest_host at 1.
  destruct (DomainsAll g); cbn [negb andb]; rewrite ?bind_Ok; [by apply IH|].
  destruct (match_any_total (gDomains g) host) as (b & Eb & _). unfold MatchesDomain. rewrite Eb, !bind_Ok.
  destruct b; [done|by apply IH].
Qed.
Lemma could_loop_pick now l dst e : in_range e l →
  could_loop now l dst e = Ok (found (pick (cGroups (eCfg e)) (dest_ip now dst e) l)).
Proof.
  induction l as [|i l IH]; intros H; cbn [could_loop]; [done|]. loop_step IH H. unfold dest_ip at 1.
  destruct (groupDestinationMatches _ _ _ _ _); [done|by apply IH].
Qed.
Lemma needsTLSIDs_pick l e : in_range e l →
  needsTLSIDs l e = Ok (found (pick (cGroups (eCfg e)) dest_named l)).
Proof.
  induction l as [|i l IH]; intros H; cbn [needsTLSIDs]; [done|]. loop_step IH H. unfold dest_named at 1.
  destruct (_ && _); [done|by apply IH].
Qed.
Lemma domainIPIDs_pick now l dst e : in_range e l →
  domainIPIDs now l dst e = Ok (found (pick (cGroups (eCfg e)) (dest_learned now dst e) l)).
Proof.
  induction l as [|i l IH]; intros H; cbn [domainIPIDs]; [done|]. loop_step IH H. unfold dest_learned at 1.
  destruct (DomainsAll g); cbn [negb andb]; [by apply IH|].
  destruct (match eDomains e with Some _ => _ | None => _ end); [done|by apply IH].
Qed.

(** ** The queries are scans *)
Lemma Decide_scan now proc dst e : compiled e →
  Decide now proc dst e = Ok (ip_decision (best_group proc (dest_ip now (Unmap dst) e) (cGroups (eCfg e)))).
Proof.
  intros C. destruct (candidates_spec proc e C) as (a & b & c & E & R & P). unfold Decide. cbv zeta. rewrite E, bind_Ok.
  destruct (P (dest_ip now (Unmap dst) e)) as (P1 & P2 & P3). unfold best_group. rewrite <- P1, <- P2, <- P3.
  rewrite !decideIDs_pick, bind_Ok by (intros j Hj; apply R; tauto).
  destruct (pick _ _ a); [done|]. cbn [ip_decision Decision0 dTunnel orElse3]. rewrite bind_Ok.
  by destruct (pick _ _ b).
Qed.
Lemma DecideHost_scan proc host e : compiled e →
  DecideHost proc host e = Ok (host_decision (best_group proc (dest_host host) (cGroups (eCfg e)))).
Proof.
  intros C. destruct (candidates_spec proc e C) as (a & b & c & E & R & P). unfold DecideHost. rewrite E, bind_Ok.
  destruct (P (dest_host host)) as (P1 & P2 & P3). unfold best_group. rewrite <- P1, <- P2, <- P3.
  rewrite !decideHostIDs_pick, bind_Ok by (intros j Hj; apply R; tauto).
  destruct (pick _ _ a); [done|]. cbn [host_decision Decision0 dTunnel orElse3]. rewrite bind_Ok.
  by destruct (pick _ _ b).
Qed.
Lemma queries_scan now proc dst e : compiled e →
  let gs := cGroups (eCfg e) in
  CouldTunnelWithoutProcess now dst e = Ok (found (scan_groups sel_global (dest_ip now (Unmap dst) e) 0 gs)) ∧
  NeedsTLSDiscovery proc e = Ok (found (best_group proc dest_named gs)) ∧
  ShouldSuppressQUIC proc e = Ok (found (scan_groups (sel_name proc) dest_named 0 gs) ||
                                  found (scan_groups (sel_path proc) dest_named 0 gs)) ∧
  IsDomainIPForProcess now proc dst e = Ok (found (best_group proc (dest_learned now (Unmap dst) e) gs)).
Proof.
  intros C. destruct (candidates_spec proc e C) as (a & b & c & E & R & P). cbv zeta.
  assert (Ra : in_range e a) by (intros j Hj; apply R; tauto).
  assert (Rb : in_range e b) by (intros j Hj; apply R; tauto).
  assert (Rc : in_range e c) by (intros j Hj; apply R; tauto).
  assert (Hs : eGlobal e = a ∧ ∃ k, canonName (prName proc) = Ok k ∧ default [] (eByName e !! k) = b ∧
    default [] (eByPath e !! canonPath (prPath proc)) = c).
  { unfold candidateSlices in E. destruct (canonName_returns (prName proc)) as [k Ek]. rewrite Ek, bind_Ok in E.
    simplify_eq. eauto. }
  destruct Hs as (Ea & k & Ek & Eb & Ec).
  unfold CouldTunnelWithoutProcess, NeedsTLSDiscovery, ShouldSuppressQUIC, IsDomainIPForProcess, best_group. cbv zeta.
  rewrite Ek, Ea, E, !bind_Ok, Eb, Ec.
  destruct (P dest_named) as (N1 & N2 & N3). destruct (P (dest_ip now (Unmap dst) e)) as (D1 & _ & _).
  destruct (P (dest_learned now (Unmap dst) e)) as (L1 & L2 & L3).
  rewrite could_loop_pick, !needsTLSIDs_pick, !domainIPIDs_pick, !bind_Ok by done.
  rewrite <- N1, <- N2, <- N3, <- D1, <- L1, <- L2, <- L3. split_and!; try done.
  - by destruct (pick _ dest_named a), (pick _ dest_named b).
  - by destruct (pick _ dest_named b), (pick _ dest_named c).
  - by destruct (pick _ (dest_learned now (Unmap dst) e) a), (pick _ (dest_learned now (Unmap dst) e) b).
Qed.

Lemma scan_Some sel dest i groups g :
  scan_groups sel dest i groups = Some g → ∃ n, groups !! n = Some g ∧ sel g = true ∧ dest (i + Z.of_nat n) g = true.
Proof.
  revert i. induction groups as [|g0 groups IH]; intros i; cbn [scan_groups]; [done|].
  destruct (sel g0 && dest i g0) eqn:E.
  - intros [= ->]. zbool. exists 0%nat. replace (i + Z.of_nat 0) with i by lia. done.
  - intros H. destruct (IH (i + 1) H) as (n & Hn & Hs & Hd). exists (S n).
    replace (i + Z.of_nat (S n)) with (i + 1 + Z.of_nat n) by lia. done.
Qed.
Lemma scan_None sel dest i groups n g :
  scan_groups sel dest i groups = None → groups !! n = Some g → sel g = true → dest (i + Z.of_nat n) g = false.
Proof.
  revert i n. induction groups as [|g0 groups IH]; intros i n; cbn [scan_groups]; [done|].
  destruct (sel g0 && dest i g0) eqn:E; [done|]. intros H. destruct n as [|n]; cbn.
  - intros [= ->] Hs. rewrite Hs in E. replace (i + Z.of_nat 0) with i by lia. done.
  - intros Hn Hs. replace (i + Z.of_nat (S n)) with (i + 1 + Z.of_nat n) by lia. by apply IH.
Qed.
Lemma found_scan sel dest groups :
  found (scan_groups sel dest 0 groups) = true ↔ ∃ n g, groups !! n = Some g ∧ sel g = true ∧ dest (Z.of_nat n) g = true.
Proof.
  destruct (scan_groups sel dest 0 groups) as [g|] eqn:E; cbn.
  - split; [|done]. intros _. apply scan_Some in E as (n & H). exists n, g. by rewrite Z.add_0_l in H.
  - split; [done|]. intros (n & g & Hn & Hs & Hd). pose proof (scan_None _ _ _ _ _ _ E Hn Hs) as H.
    rewrite Z.add_0_l in H. congruence.
Qed.
Lemma best_group_Some proc dest groups g :
  best_group proc dest groups = Some g → ∃ n, groups !! n = Some g ∧ app_selected proc g = true ∧ dest (Z.of_nat n) g = true.
Proof.
  unfold best_group, app_selected.
  destruct (scan_groups sel_global dest 0 groups) as [x|] eqn:E1; cbn [orElse3].
  { intros [= ->]. apply scan_Some in E1 as (n & Hn & -> & Hd). by exists n. }
  destruct (scan_groups (sel_name proc) dest 0 groups) as [x|] eqn:E2.
  { intros [= ->]. apply scan_Some in E2 as (n & Hn & -> & Hd). exists n. by rewrite orb_true_r. }
  intros E3. apply scan_Some in E3 as (n & Hn & -> & Hd). exists n. by rewrite orb_true_r.
Qed.
Lemma found_best proc dest groups :
  found (best_group proc dest groups) = true ↔
  ∃ n g, groups !! n = Some g ∧ app_selected proc g = true ∧ dest (Z.of_nat n) g = true.
Proof.
  split.
  - destruct (best_group proc dest groups) as [g|] eqn:E; [|done]. intros _. apply best_group_Some in E as (n & H). eauto.
  - intros (n & g & Hn & Hs & Hd). unfold app_selected in Hs. apply orb_true_iff in Hs as [Hs|Hs]; [apply orb_true_iff in Hs as [Hs|Hs]|].
    all: assert (Hf := proj2 (found_scan _ dest groups) (ex_intro _ n (ex_intro _ g (conj Hn (conj Hs Hd)))));
      unfold best_group, orElse3; repeat case_match; done.
Qed.

(** What the tests of a group say. *)
Lemma dest_ip_spec now dst e i g :
  dest_ip now dst e i g = true ↔
  DomainsAll g = true ∨ (∃ n, n ∈ gNetworks g ∧ Prefix_Contains n dst = true) ∨
  ∃ t, eDomains e = Some t ∧ ContainsGroup now dst i t = true.
Proof.
  unfold dest_ip, groupDestinationMatches. destruct (DomainsAll g); [tauto|].
  destruct (existsb _ _) eqn:E.
  - apply existsb_exists in E as (n & Hin & Hc). apply list_elem_of_In in Hin. split; [|done]. intros _. right. left. eauto.
  - destruct (eDomains e) as [t|].
    + split; [intros H; right; right; eauto|]. intros [?|[(n & Hn & Hc)|(t' & [= <-] & ?)]]; try done.
      assert (existsb (fun n => Prefix_Contains n dst) (gNetworks g) = true)
        by (apply existsb_exists; exists n; by rewrite <- list_elem_of_In). congruence.
    + split; [done|]. intros [?|[(n & Hn & Hc)|(t' & ? & ?)]]; try done.
      assert (existsb (fun n => Prefix_Contains n dst) (gNetworks g) = true)
        by (apply existsb_exists; exists n; by rewrite <- list_elem_of_In). congruence.
Qed.

(** A group is for a process: for every process, or one of its selectors names
    the executable or gives its path (up to case, spaces and slash direction). *)
Definition app_matches (proc : Process) (g : Group) : Prop :=
  AppsAll g = true ∨
  ∃ app, app ∈ gApps g ∧
    (if has_separator app then canonPath app = canonPath (prPath proc) else canonName app = canonName (prName proc)).
Definition explicit_match (proc : Process) (g : Group) : Prop := AppsAll g = false ∧ app_matches proc g.

Lemma explicit_spec proc g : sel_name proc g || sel_path proc g = true ↔ explicit_match proc g.
Proof.
  unfold explicit_match, app_matches, sel_name, sel_path. destruct (AppsAll g); cbn [negb andb orb]; [split; [done|by intros []]|].
  rewrite orb_true_iff, !existsb_exists. destruct (canonName_returns (prName proc)) as [k Ek]. split.
  - intros [(app & Hin & H)|(app & Hin & H)]; apply list_elem_of_In in Hin; (split; [done|right; exists app; split; [done|]]).
    + unfold names_app in H. destruct (has_separator app); [done|]. cbn in H. rewrite Ek in *.
      destruct (canonName app) as [a| | |]; try done. apply bool_decide_eq_true in H. by rewrite H.
    + unfold paths_app in H. destruct (has_separator app); [|done]. by apply bool_decide_eq_true in H.
  - intros [_ [?|(app & Hin & H)]]; [done|]. apply list_elem_of_In in Hin.
    destruct (has_separator app) eqn:Es; [right|left]; exists app; (split; [done|]).
    + unfold paths_app. rewrite Es. by apply bool_decide_eq_true.
    + unfold names_app. rewrite Es, H, Ek. cbn. by apply bool_decide_eq_true.
Qed.
Lemma app_selected_spec proc g : app_selected proc g = true ↔ app_matches proc g.
Proof.
  unfold app_selected, sel_global. destruct (AppsAll g) eqn:Ea; cbn [orb].
  - split; [by left|done].
  - rewrite explicit_spec. unfold explicit_match. tauto.
Qed.

Lemma tunnel_found o : dTunnel (ip_decision o) = found o ∧ dTunnel (host_decision o) = found o.
Proof. by destruct o. Qed.

(** ** Properties *)

(** C4: Who is tunnelled.  On every configuration the selectors compile, and
    [Decide] answers without panic: it tunnels iff some group is for the process
    and has the destination, because it takes every destination, lists a network
    with it, or has learned the address for one of its names and not forgotten it.
    The compiled index agrees with scanning all groups: the group reported is the
    first one, global groups before groups that name the executable before groups
    that give its path; and when nothing matches the decision is empty. *)
Theorem Decide_correct (cfg : Config) (domains : option Tracker) (internal : list (list Z)) (now : Z)
    (proc : Process) (dst : Addr) :
  ∃ e d, NewWithInternal cfg domains internal = Ok e ∧ Decide now proc dst e = Ok d ∧
    (dTunnel d = true ↔
       ∃ n g, cGroups cfg !! n = Some g ∧ app_matches proc g ∧
         (DomainsAll g = true ∨ (∃ p, p ∈ gNetworks g ∧ Prefix_Contains p (Unmap dst) = true) ∨
          ∃ t, domains = Some t ∧ ContainsGroup now (Unmap dst) (Z.of_nat n) t = true)) ∧
    d = ip_decision (best_group proc (dest_ip now (Unmap dst) e) (cGroups cfg)).
Proof.
  destruct (NewWithInternal_compiled cfg domains internal) as (e & E & C & E1 & E2 & _). eexists e, _.
  split_and!; [done|by apply Decide_scan| |by rewrite E1].
  rewrite (proj1 (tunnel_found _)), found_best, E1. setoid_rewrite dest_ip_spec. setoid_rewrite app_selected_spec.
  by rewrite E2.
Qed.

Lemma host_tunnels proc host groups :
  dTunnel (host_decision (best_group proc (dest_host host) groups)) = true ↔
  ∃ g, g ∈ groups ∧ app_matches proc g ∧ DomainsAll g = false ∧
    ∃ p, p ∈ gDomains g ∧ pattern_matches (canon_domain p) (canon_domain host).
Proof.
  rewrite (proj2 (tunnel_found _)), found_best.
  assert (D : ∀ i g, dest_host host i g = true ↔ DomainsAll g = false ∧
    ∃ p, p ∈ gDomains g ∧ pattern_matches (canon_domain p) (canon_domain host)).
  { intros i g. unfold dest_host, MatchesDomain. destruct (match_any_total (gDomains g) host) as (b & -> & Hb).
    rewrite andb_true_iff, negb_true_iff, Hb. done. }
  setoid_rewrite D. setoid_rewrite app_selected_spec. split.
  - intros (n & g & Hn & H). exists g. split; [by eapply list_elem_of_lookup_2|done].
  - intros (g & Hg & H). apply list_elem_of_lookup_1 in Hg as [n Hn]. by exists n, g.
Qed.

(** Which hostnames the proxy tunnels: [DecideHost] answers without panic,
    and tunnels iff some group is for the process, is not a catch-all and has a
    pattern matching the host; it reports the first such group in the same order
    as [Decide]. *)
Theorem DecideHost_correct (cfg : Config) (domains : option Tracker) (internal : list (list Z))
    (proc : Process) (host : list Z) :
  ∃ e d, NewWithInternal cfg domains internal = Ok e ∧ DecideHost proc host e = Ok d ∧
    (dTunnel d = true ↔
       ∃ g, g ∈ cGroups cfg ∧ app_matches proc g ∧ DomainsAll g = false ∧
         ∃ p, p ∈ gDomains g ∧ pattern_matches (canon_domain p) (canon_domain host)) ∧
    d = host_decision (best_group proc (dest_host host) (cGroups cfg)).
Proof.
  destruct (NewWithInternal_compiled cfg domains internal) as (e & E & C & E1 & E2 & _). eexists e, _.
  split_and!; [done|by apply DecideHost_scan| |by rewrite E1]. rewrite E1. apply host_tunnels.
Qed.

(** The shortcuts agree with the decisions.  A destination that needs no
    process lookup is tunnelled for every process; an address known for a domain
    of the process is tunnelled; a tunnelled hostname implies TLS discovery, and so
    does suppressing QUIC, which happens exactly for processes that a group with
    domain patterns selects explicitly, never because of a global group. *)
Theorem policy_shortcuts (cfg : Config) (domains : option Tracker) (internal : list (list Z)) (now : Z)
    (proc : Process) (dst : Addr) (host : list Z) :
  ∃ e d h could known tls quic, NewWithInternal cfg domains internal = Ok e ∧
    Decide now proc dst e = Ok d ∧ DecideHost proc host e = Ok h ∧
    CouldTunnelWithoutProcess now dst e = Ok could ∧ IsDomainIPForProcess now proc dst e = Ok known ∧
    NeedsTLSDiscovery proc e = Ok tls ∧ ShouldSuppressQUIC proc e = Ok quic ∧
    (could = true → dTunnel d = true) ∧ (known = true → dTunnel d = true) ∧
    (dTunnel h = true → tls = true) ∧ (quic = true → tls = true) ∧
    (quic = true ↔ ∃ g, g ∈ cGroups cfg ∧ explicit_match proc g ∧ DomainsAll g = false ∧ gDomains g ≠ []).
Proof.
  destruct (NewWithInternal_compiled cfg domains internal) as (e & E & C & E1 & E2 & _).
  destruct (queries_scan now proc dst e C) as (Q1 & Q2 & Q3 & Q4). cbv zeta in *. rewrite E1 in *.
  eexists e, _, _, _, _, _, _.
  split_and!; [done|by apply Decide_scan|by apply DecideHost_scan|done|done|done|done|..];
    rewrite ?(proj1 (tunnel_found _)), ?(proj2 (tunnel_found _)), ?E1, ?orb_true_iff, ?found_best, ?found_scan.
  - intros (n & g & Hn & Hs & Hd). exists n, g. unfold app_selected. by rewrite Hs.
  - intros (n & g & Hn & Hs & Hd). exists n, g. split_and!; [done|done|]. apply dest_ip_spec.
    unfold dest_learned in Hd. apply andb_true_iff in Hd as [_ Hd]. destruct (eDomains e); [|done]. right. right. eauto.
  - intros (n & g & Hn & Hs & Hd). exists n, g. split_and!; [done|done|]. unfold dest_host, dest_named in *.
    apply andb_true_iff in Hd as [-> Hd]. cbn. unfold MatchesDomain in Hd. by destruct (gDomains g).
  - intros [(n & g & Hn & Hs & Hd)|(n & g & Hn & Hs & Hd)]; exists n, g; unfold app_selected; rewrite Hs, ?orb_true_r; done.
  - assert (D : ∀ i g, dest_named i g = true ↔ DomainsAll g = false ∧ gDomains g ≠ []).
    { intros i g. unfold dest_named. rewrite andb_true_iff, negb_true_iff. rewrite Z.ltb_lt. split; intros [H1 H2]; (split; [done|]).
      - intros E0. by rewrite E0 in H2.
      - destruct (gDomains g) as [|x xs]; [done|]. rewrite blen_cons. pose proof (blen_nonneg xs). lia. }
    setoid_rewrite D. setoid_rewrite <- explicit_spec. setoid_rewrite orb_true_iff. split.
    + intros [(n & g & Hn & Hs & Hd)|(n & g & Hn & Hs & Hd)]; exists g; split_and!; try tauto; by eapply list_elem_of_lookup_2.
    + intros (g & [n Hn]%list_elem_of_lookup_1 & [Hs|Hs] & Hd & Hne); [left|right]; by exists n, g.
Qed.
End Reference.
