(* ===== verification/Dns.v ===== *)
(** * DNS responses: [internal/domain/dns.go]

    [readName] follows compression pointers at most 16 deep; [ParseDNSResponse]
    collects names and, when one of them matches, the addresses.  On an error Go
    returns the names read so far: the loops run in the state and error monad of
    the prelude, whose state survives an error.  The callback [match] is a
    parameter. *)

From S2P Require Import Prelude Netip.
Local Open Scope Z_scope.

Record DNSResult : Type := mkDNS { Names : list (list Z); IPs : list Addr; TTL : Z }.
Definition Second : Z := 1000000000.

(** ** [readName] *)

(** The loop of one call, [rec] being the call at the next depth and [out] the
    labels read so far.  The flag [jumped] of the code is set only right before
    leaving the loop, so that its tests always find it false.  Every round but the
    last advances [off]: the length of the message is enough fuel. *)
Fixpoint name_loop (rec : Z → Res (list Z * Z)) (fuel : nat) (msg : list Z) (off : Z) (out : list Z) : Res (list Z * Z) :=
  match fuel with
  | O => OutOfFuel
  | S fuel =>
      if blen msg <=? off then Err "name overflow" else
      l ← idx msg off;
      if l =? 0 then Ok (out, off + 1) else
      if Z.land l 192 =? 192 then
        if blen msg <=? off + 1 then Err "bad pointer" else
        lo ← idx msg (off + 1);
        '(suffix, _) ← rec (Z.lor (Z.shiftl (Z.land l 63) 8) lo);
        let out := if (0 <? blen out) && negb (bool_decide (suffix = [])) then out ++ [46] else out in
        Ok (out ++ suffix, off + 2)
      else
        let off := off + 1 in
        if (63 <? l) || (blen msg <? off + l) then Err "bad label" else
        let out := if 0 <? blen out then out ++ [46] else out in
        label ← slice msg off (off + l);
        name_loop rec fuel msg (off + l) (out ++ label)
  end.

(** [budget] is the number of calls still allowed, 17 minus the depth. *)
Fixpoint readName_left (budget : nat) (msg : list Z) (off : Z) : Res (list Z * Z) :=
  match budget with
  | O => Err "dns compression loop"
  | S budget => name_loop (readName_left budget msg) (S (length msg)) msg off []
  end.
Definition readName (msg : list Z) (off depth : Z) : Res (list Z * Z) := readName_left (Z.to_nat (17 - depth)) msg off.

(** ** [ParseDNSResponse] *)
Record pstate : Type := mkP { p_names : list (list Z); p_matched : bool }.
Record answer : Type := mkAnswer { a_typ : Z; a_ttl : Z; a_rdataOff : Z; a_rdlen : Z }.

Section Parse.
Context (mtch : list Z → bool).

Definition note_match (name : list Z) : SR pstate unit :=
  fun s => (if mtch name then mkP (p_names s) true else s, Ok tt).
Definition add_name (name : list Z) : SR pstate unit :=
  fun s => (mkP (p_names s ++ [name]) (p_matched s), Ok tt).

Fixpoint questions (n : nat) (msg : list Z) (off : Z) : SR pstate Z :=
  match n with
  | O => mret off
  | S n =>
      '(name, off) ← liftR (readName msg off 0);
      if blen msg <? off + 4 then sfail "short question" else
      let off := off + 4 in
      _ ← add_name name;
      _ ← note_match name;
      questions n msg off
  end.

(** The CNAME of an answer, when it can be read. *)
Definition note_cname (msg : list Z) (typ ro : Z) : SR pstate unit := fun s =>
  if typ =? 5 then
    match readName msg ro 0 with
    | Ok (cn, _) => (_ ← add_name cn; note_match cn) s
    | Err _ => (s, Ok tt)
    | Panic => (s, Panic)
    | OutOfFuel => (s, OutOfFuel)
    end
  else (s, Ok tt).

Fixpoint answers_loop (n : nat) (msg : list Z) (off : Z) (answers : list answer) : SR pstate (list answer) :=
  match n with
  | O => mret answers
  | S n =>
      '(name, off) ← liftR (readName msg off 0);
      if blen msg <? off + 10 then sfail "short answer" else
      typ ← liftR (be16 msg off);
      ttl ← liftR (be32 msg (off + 4));
      rd ← liftR (be16 msg (off + 8));
      let ro := off + 10 in
      if blen msg <? ro + rd then sfail "short rdata" else
      let answers := answers ++ [mkAnswer typ ttl ro rd] in
      let off := ro + rd in
      _ ← note_match name;
      _ ← note_cname msg typ ro;
      answers_loop n msg off answers
  end.

Fixpoint collect (msg : list Z) (answers : list answer) (ips : list Addr) (minTTL : Z) : Res (list Addr * Z) :=
  match answers with
  | [] => Ok (ips, minTTL)
  | a :: rest =>
      if (a_typ a =? 1) && (a_rdlen a =? 4) then
        v ← slice msg (a_rdataOff a) (a_rdataOff a + 4);
        collect msg rest (ips ++ [AddrFrom4 v]) (if a_ttl a <? minTTL then a_ttl a else minTTL)
      else if (a_typ a =? 28) && (a_rdlen a =? 16) then
        v ← slice msg (a_rdataOff a) (a_rdataOff a + 16);
        collect msg rest (ips ++ [AddrFrom16 v]) (if a_ttl a <? minTTL then a_ttl a else minTTL)
      else collect msg rest ips minTTL
  end.

Definition read_sections (msg : list Z) (qd an : Z) : SR pstate (list answer) :=
  off ← questions (Z.to_nat qd) msg 12;
  answers_loop (Z.to_nat an) msg off [].

(** The result and the error, as Go returns them. *)
Definition ParseDNSResponse (msg : list Z) : Res (DNSResult * option string) :=
  if blen msg <? 12 then Ok (mkDNS [] [] 0, Some "short dns") else
  flags ← be16 msg 2;
  if Z.land flags 32768 =? 0 then Ok (mkDNS [] [] 0, Some "not response") else
  qd ← be16 msg 4;
  an ← be16 msg 6;
  match read_sections msg qd an (mkP [] false) with
  | (s, Err e) => Ok (mkDNS (p_names s) [] (300 * Second), Some e)
  | (s, Panic) => Panic
  | (s, OutOfFuel) => OutOfFuel
  | (s, Ok answers) =>
      if negb (p_matched s) then Ok (mkDNS (p_names s) [] (300 * Second), None) else
      '(ips, minTTL) ← collect msg answers [] 86400;
      Ok (mkDNS (p_names s) ips (if negb (minTTL =? 86400) then minTTL * Second else 300 * Second), None)
  end.
End Parse.

(** ** What a name is

    [name_at msg j off labels next]: reading at [off] gives [labels] and goes on at
    [next], following [j] compression pointers. *)
Inductive name_at (msg : list Z) : nat → Z → list (list Z) → Z → Prop :=
  | na_end off : 0 <= off < blen msg → gb msg off = 0 → name_at msg 0 off [] (off + 1)
  | na_pointer j off labels n :
      0 <= off → off + 1 < blen msg → 192 <= gb msg off →
      name_at msg j ((gb msg off - 192) * 256 + gb msg (off + 1)) labels n →
      name_at msg (S j) off labels (off + 2)
  | na_label j off labels n :
      0 <= off → 1 <= gb msg off <= 63 → off + 1 + gb msg off <= blen msg →
      name_at msg j (off + 1 + gb msg off) labels n →
      name_at msg j off (bsub msg (off + 1) (off + 1 + gb msg off) :: labels) n.

(** Labels joined by dots. *)
Fixpoint join (labels : list (list Z)) : list Z :=
  match labels with
  | [] => []
  | [l] => l
  | l :: rest => l ++ [46] ++ join rest
  end.

(** ** Lemmas *)

(** A property of bytes, by inspection of all of them. *)
Lemma byte_cases (P : Z → bool) : forallb P (map Z.of_nat (seq 0 256)) = true → ∀ x, 0 <= x < 256 → P x = true.
Proof.
  intros H x Hx. rewrite forallb_forall in H. apply H. apply in_map_iff. exists (Z.to_nat x). split; [lia|].
  apply in_seq. lia.
Qed.
Lemma pointer_bits x : 0 <= x < 256 →
  (Z.land x 192 =? 192) = (192 <=? x) ∧ (192 <= x → Z.land x 63 = x - 192).
Proof.
  intros Hx.
  pose proof (byte_cases (fun x => Bool.eqb (Z.land x 192 =? 192) (192 <=? x) &&
    ((x <? 192) || (Z.land x 63 =? x - 192))) eq_refl x Hx) as H. cbv beta in H.
  apply andb_true_iff in H as [H1 H2]. apply Bool.eqb_prop in H1. split; [done|]. intros. zbool. lia.
Qed.
Lemma pointer_value x y : 192 <= x < 256 → 0 <= y < 256 → Z.lor (Z.shiftl (Z.land x 63) 8) y = (x - 192) * 256 + y.
Proof.
  intros Hx Hy. rewrite (proj2 (pointer_bits x ltac:(lia))) by lia. rewrite Z.shiftl_mul_pow2 by lia.
  change 256 with (2 ^ 8). apply lor_disjoint; [lia|]. simpl. lia.
Qed.

Lemma name_at_bounds msg j off labels n : bytes_ok msg → name_at msg j off labels n →
  off < n <= blen msg ∧ Forall (fun l => l ≠ []) labels.
Proof.
  intros Hb. induction 1 as [off|j off labels n|j off labels n ? ? ? ? [IH1 IH2]].
  - split; [lia|constructor].
  - split; [lia|tauto].
  - split; [lia|]. constructor; [|done]. intros E. apply (f_equal blen) in E. rewrite blen_bsub in E by lia.
    rewrite blen_nil in E. lia.
Qed.

Lemma name_at_unique msg j off labels n : name_at msg j off labels n →
  ∀ j' labels' n', name_at msg j' off labels' n' → j' = j ∧ labels' = labels ∧ n' = n.
Proof.
  induction 1 as [off|j off labels n|j off labels n]; intros j' labels' n' H'; inversion H'; subst; try lia; try done.
  - match goal with IH : ∀ _ _ _, _ → _, H : name_at _ _ _ labels' _ |- _ => destruct (IH _ _ _ H) as (-> & -> & _) end. done.
  - match goal with IH : ∀ _ _ _, _ → _, H : name_at _ j' _ _ n' |- _ => destruct (IH _ _ _ H) as (-> & -> & ->) end. done.
Qed.

(** [out] extended by the labels still to come. *)
Definition extend (out : list Z) (labels : list (list Z)) : list Z :=
  match labels with [] => out | _ => if 0 <? blen out then out ++ [46] ++ join labels else join labels end.

Lemma join_nil labels : Forall (fun l => l ≠ []) labels → join labels = [] → labels = [].
Proof. intros H E. destruct H as [|l [|l' r] Hl H]; [done|done|]. cbn in E. by apply app_nil in E as [? _]. Qed.
Lemma extend_cons out l labels : l ≠ [] →
  extend out (l :: labels) = extend ((if 0 <? blen out then out ++ [46] else out) ++ l) labels.
Proof.
  intros Hl. assert (H0 : 0 < blen ((if 0 <? blen out then out ++ [46] else out) ++ l)).
  { rewrite blen_app. pose proof (blen_nonneg (if 0 <? blen out then out ++ [46] else out)).
    destruct l as [|x l]; [done|]. rewrite blen_cons. pose proof (blen_nonneg l). lia. }
  unfold extend. destruct labels as [|l' r].
  - destruct (Z.ltb_spec 0 (blen out)); [by rewrite <- app_assoc|]. cbn [join].
    rewrite (blen_0_nil out) by (pose proof (blen_nonneg out); lia). done.
  - rewrite (proj2 (Z.ltb_lt 0 _) H0). destruct (Z.ltb_spec 0 (blen out)).
    + rewrite <- !app_assoc. done.
    + rewrite (blen_0_nil out) by (pose proof (blen_nonneg out); lia). cbn [join app]. done.
Qed.

(** The loop reads exactly the names that are there, given that the call at the
    next depth does. *)
Lemma name_loop_spec (rec : Z → Res (list Z * Z)) (k : nat) msg :
  bytes_ok msg →
  (∀ off, 0 <= off → match rec off with
     | Ok (s, n) => ∃ j labels, name_at msg j off labels n ∧ (j < k)%nat ∧ s = join labels
     | Err _ => ∀ j labels n, name_at msg j off labels n → (k <= j)%nat
     | _ => False end) →
  ∀ fuel off out, 0 <= off → (0 < fuel)%nat → (length msg < fuel + Z.to_nat off)%nat →
  match name_loop rec fuel msg off out with
  | Ok (s, n) => ∃ j labels, name_at msg j off labels n ∧ (j <= k)%nat ∧ s = extend out labels
  | Err _ => ∀ j labels n, name_at msg j off labels n → (k < j)%nat
  | _ => False
  end.
Proof.
  intros Hb Hrec. induction fuel as [|fuel IH]; intros off out Hoff Hf0 Hf; cbn [name_loop]; [lia|].
  destruct (Z.leb_spec (blen msg) off) as [Hge|Hlt].
  { intros j labels n H. destruct (name_at_bounds _ _ _ _ _ Hb H). lia. }
  rewrite (idx_ok msg off) by lia. rewrite bind_Ok. pose proof (gb_range msg off Hb) as Hx.
  destruct (pointer_bits (gb msg off) Hx) as [-> _].
  destruct (Z.eqb_spec (gb msg off) 0) as [E0|E0].
  { exists 0%nat, []. split_and!; [by constructor|lia|done]. }
  destruct (Z.leb_spec 192 (gb msg off)) as [Hp|Hp].
  - destruct (Z.leb_spec (blen msg) (off + 1)).
    { intros j labels n H'. inversion H'; subst; lia. }
    rewrite (idx_ok msg (off + 1)) by lia. rewrite bind_Ok. pose proof (gb_range msg (off + 1) Hb) as Hy.
    rewrite pointer_value by lia. specialize (Hrec ((gb msg off - 192) * 256 + gb msg (off + 1)) ltac:(lia)).
    destruct (rec _) as [[s n]|e| |]; try done.
    + destruct Hrec as (j & labels & Hn & Hj & ->). rewrite bind_Ok. cbv beta iota zeta. exists (S j), labels.
      split_and!; [by econstructor|lia|]. apply name_at_bounds in Hn as [_ Hl]; [|done].
      unfold extend. destruct labels as [|l r]; [rewrite andb_false_r; apply app_nil_r|].
      rewrite bool_decide_eq_false_2 by (intros E; by apply join_nil in E). rewrite andb_true_r.
      destruct (Z.ltb_spec 0 (blen out)); [by rewrite <- app_assoc|].
      by rewrite (blen_0_nil out) by (pose proof (blen_nonneg out); lia).
    + intros j labels n H'. inversion H'; subst; try lia.
      match goal with H : name_at _ _ _ labels _ |- _ => apply Hrec in H end. lia.
  - destruct ((63 <? gb msg off) || (blen msg <? off + 1 + gb msg off)) eqn:E.
    { intros j labels n H'. inversion H'; subst; zbool; lia. }
    zbool. rewrite (slice_ok msg (off + 1) (off + 1 + gb msg off)) by lia. rewrite bind_Ok. cbv zeta.
    specialize (IH (off + 1 + gb msg off) ((if 0 <? blen out then out ++ [46] else out) ++
      bsub msg (off + 1) (off + 1 + gb msg off)) ltac:(lia) ltac:(unfold blen in *; lia) ltac:(lia)).
    destruct (name_loop _ _ _ _ _) as [[s n]|e| |]; try done.
    + destruct IH as (j & labels & Hn & Hj & ->). exists j, (bsub msg (off + 1) (off + 1 + gb msg off) :: labels).
      assert (Hna : name_at msg j off (bsub msg (off + 1) (off + 1 + gb msg off) :: labels) n) by (constructor; done || lia).
      split_and!; [done|done|]. apply name_at_bounds in Hna as [_ Hl]; [|done]. inversion Hl; subst.
      symmetry. by apply extend_cons.
    + intros j labels n H'. inversion H'; subst; try lia. by eapply IH.
Qed.

Lemma readName_left_spec budget msg off : bytes_ok msg → 0 <= off →
  match readName_left budget msg off with
  | Ok (s, n) => ∃ j labels, name_at msg j off labels n ∧ (j < budget)%nat ∧ s = join labels
  | Err _ => ∀ j labels n, name_at msg j off labels n → (budget <= j)%nat
  | _ => False
  end.
Proof.
  intros Hb. revert off. induction budget as [|b IH]; intros off Hoff; cbn [readName_left]; [intros; lia|].
  pose proof (name_loop_spec (readName_left b msg) b msg Hb (fun o Ho => IH o Ho) (S (length msg)) off [] Hoff ltac:(lia) ltac:(lia)) as H.
  destruct (name_loop _ _ _ _ _) as [[s n]|e| |]; try done.
  destruct H as (j & labels & Hn & Hj & ->). exists j, labels. split_and!; [done|lia|]. by destruct labels.
Qed.

(** [readName] decodes DNS names with compression, all of them and nothing
    else: it returns exactly when the message has a name at the offset that follows
    at most 16 pointers; it then gives the labels joined by dots and the offset after
    the name, which is inside the message and beyond the start.  It always returns,
    also on pointer loops and truncated messages, and never reads out of bounds. *)
Theorem readName_correct (msg : list Z) (off : Z) :
  bytes_ok msg → 0 <= off →
  returns (readName msg off 0) ∧
  (∀ s n, readName msg off 0 = Ok (s, n) ↔
     ∃ j labels, name_at msg j off labels n ∧ (j <= 16)%nat ∧ s = join labels) ∧
  (∀ s n, readName msg off 0 = Ok (s, n) → off < n <= blen msg).
Proof.
  intros Hb Hoff. pose proof (readName_left_spec (Z.to_nat (17 - 0)) msg off Hb Hoff) as H.
  unfold readName. change (Z.to_nat (17 - 0)) with 17%nat in *. split_and!.
  - by destruct (readName_left 17 msg off) as [[s n]|e| |].
  - intros s n. split.
    + intros E. rewrite E in H. destruct H as (j & labels & Hn & Hj & ->). exists j, labels. split_and!; [done|lia|done].
    + intros (j & labels & Hn & Hj & ->). destruct (readName_left 17 msg off) as [[s' n']|e| |]; try done.
      * destruct H as (j' & labels' & Hn' & _ & ->). by destruct (name_at_unique _ _ _ _ _ Hn _ _ _ Hn') as (_ & -> & ->).
      * apply H in Hn. lia.
  - intros s n E. rewrite E in H. destruct H as (j & labels & Hn & _). by apply name_at_bounds in Hn as [? _].
Qed.

Lemma readName_Ok_bounds msg off : bytes_ok msg → 0 <= off →
  match readName msg off 0 with Ok (_, n) => off < n <= blen msg | Err _ => True | _ => False end.
Proof.
  intros Hb Hoff. pose proof (readName_left_spec (Z.to_nat (17 - 0)) msg off Hb Hoff) as H. unfold readName.
  destruct (readName_left _ _ _) as [[s n]|e| |]; try done. destruct H as (j & labels & Hn & _).
  by apply name_at_bounds in Hn as [? _].
Qed.

(** ** Records *)
Record record : Type := mkRecord { r_owner : list Z; r_data : answer }.

(** [questions_at msg k off names next] and [records_at msg k off rs]: the message
    holds [k] questions, or [k] resource records, from [off] on. *)
Inductive questions_at (msg : list Z) : nat → Z → list (list Z) → Z → Prop :=
  | qa_nil off : questions_at msg 0 off [] off
  | qa_cons k off name n names next :
      readName msg off 0 = Ok (name, n) → n + 4 <= blen msg → questions_at msg k (n + 4) names next →
      questions_at msg (S k) off (name :: names) next.
Inductive records_at (msg : list Z) : nat → Z → list record → Prop :=
  | ra_nil off : records_at msg 0 off []
  | ra_cons k off name n rs :
      readName msg off 0 = Ok (name, n) → n + 10 <= blen msg → n + 10 + gb16 msg (n + 8) <= blen msg →
      records_at msg k (n + 10 + gb16 msg (n + 8)) rs →
      records_at msg (S k) off
        (mkRecord name (mkAnswer (gb16 msg n) (gb32 msg (n + 4)) (n + 10) (gb16 msg (n + 8))) :: rs).

Definition cname_of (msg : list Z) (r : record) : list (list Z) :=
  if a_typ (r_data r) =? 5 then
    match readName msg (a_rdataOff (r_data r)) 0 with Ok (cn, _) => [cn] | _ => [] end
  else [].
Definition addr_of (msg : list Z) (a : answer) : list Addr :=
  if (a_typ a =? 1) && (a_rdlen a =? 4) then [Addr4 (bsub msg (a_rdataOff a) (a_rdataOff a + 4))] else
  if (a_typ a =? 28) && (a_rdlen a =? 16) then [Addr6 (bsub msg (a_rdataOff a) (a_rdataOff a + 16))] else [].
(** The smallest lifetime of an address record, at most a day. *)
Definition min_ttl (msg : list Z) (answers : list answer) : Z :=
  fold_right Z.min 86400 (map a_ttl (List.filter (fun a => negb (bool_decide (addr_of msg a = []))) answers)).

Section Claims.
Context (mtch : list Z → bool).

(** What a well-formed response means. *)
Definition response (msg : list Z) (qs : list (list Z)) (rs : list record) : DNSResult :=
  let cnames := flat_map (cname_of msg) rs in
  let names := qs ++ cnames in
  if existsb mtch (names ++ map r_owner rs) then
    mkDNS names (flat_map (addr_of msg) (map r_data rs))
      (if min_ttl msg (map r_data rs) <? 86400 then min_ttl msg (map r_data rs) * Second else 300 * Second)
  else mkDNS names [] (300 * Second).

Lemma questions_spec k msg off s : bytes_ok msg → 0 <= off →
  match questions mtch k msg off s with
  | (s', Ok next) => off <= next ∧ ∃ names, questions_at msg k off names next ∧
      s' = mkP (p_names s ++ names) (p_matched s || existsb mtch names)
  | (_, Err _) => ∀ names next, ¬ questions_at msg k off names next
  | _ => False
  end.
Proof.
  intros Hb. revert off s. induction k as [|k IH]; intros off s Hoff.
  { cbn. split; [lia|]. exists []. split; [constructor|]. rewrite app_nil_r, orb_false_r. by destruct s. }
  cbn [questions]. unfold mbind at 1, SR_bind at 1, liftR.
  pose proof (readName_Ok_bounds msg off Hb Hoff) as HN. destruct (readName msg off 0) as [[name n]|e| |] eqn:En; try done.
  2:{ intros names next H. inversion H; subst. congruence. }
  destruct (Z.ltb_spec (blen msg) (n + 4)) as [Hs|Hs].
  { intros names next H. inversion H; subst. assert (n0 = n) as -> by congruence. lia. }
  unfold mbind at 1, SR_bind at 1. cbn [add_name]. unfold mbind at 1, SR_bind at 1. cbn [note_match].
  set (s1 := if mtch name then _ else _).
  specialize (IH (n + 4) s1 ltac:(lia)). destruct (questions mtch k msg (n + 4) s1) as [s' [next|e| |]]; try done.
  - destruct IH as (Hle & names & Hq & ->). split; [lia|]. exists (name :: names). split; [by econstructor|].
    unfold s1. cbn [existsb]. destruct (mtch name); cbn; rewrite <- app_assoc, ?orb_true_r; done.
  - intros names next H. inversion H; subst. assert (n0 = n) as -> by congruence. by eapply IH.
Qed.

Lemma note_cname_spec msg name a s : bytes_ok msg → 0 <= a_rdataOff a →
  note_cname mtch msg (a_typ a) (a_rdataOff a) s =
    (mkP (p_names s ++ cname_of msg (mkRecord name a)) (p_matched s || existsb mtch (cname_of msg (mkRecord name a))), Ok tt).
Proof.
  intros Hb Hoff. unfold note_cname, cname_of. cbn [r_data]. destruct (a_typ a =? 5).
  - pose proof (readName_Ok_bounds msg _ Hb Hoff) as HN. destruct (readName msg (a_rdataOff a) 0) as [[cn n]|e| |]; try done.
    + unfold mbind, SR_bind, add_name, note_match. cbn. rewrite orb_false_r.
      destruct (mtch cn); rewrite ?orb_true_r, ?orb_false_r; done.
    + cbn. rewrite app_nil_r, orb_false_r. by destruct s.
  - cbn. rewrite app_nil_r, orb_false_r. by destruct s.
Qed.

(** Names of a record in the order the loop looks at them. *)
Definition looked_at (msg : list Z) (r : record) : list (list Z) := r_owner r :: cname_of msg r.

Lemma answers_loop_spec k msg off acc s : bytes_ok msg → 0 <= off →
  match answers_loop mtch k msg off acc s with
  | (s', Ok answers) => ∃ rs, records_at msg k off rs ∧ answers = acc ++ map r_data rs ∧
      s' = mkP (p_names s ++ flat_map (cname_of msg) rs) (p_matched s || existsb mtch (flat_map (looked_at msg) rs))
  | (_, Err _) => ∀ rs, ¬ records_at msg k off rs
  | _ => False
  end.
Proof.
  intros Hb. revert off acc s. induction k as [|k IH]; intros off acc s Hoff.
  { cbn. exists []. split_and!; [constructor|by rewrite app_nil_r|]. cbn. rewrite app_nil_r, orb_false_r. by destruct s. }
  cbn [answers_loop]. unfold mbind at 1, SR_bind at 1, liftR at 1.
  pose proof (readName_Ok_bounds msg off Hb Hoff) as HN. destruct (readName msg off 0) as [[name n]|e| |] eqn:En; try done.
  2:{ intros rs H. inversion H; subst. congruence. }
  destruct (Z.ltb_spec (blen msg) (n + 10)) as [Hs|Hs].
  { intros rs H. inversion H; subst. assert (n0 = n) as -> by congruence. lia. }
  unfold liftR. go_ops. do 3 (unfold mbind at 1, SR_bind at 1). cbv beta iota zeta.
  destruct (Z.ltb_spec (blen msg) (n + 10 + gb16 msg (n + 8))) as [Hr|Hr].
  { intros rs H. inversion H; subst. assert (n0 = n) as -> by congruence. lia. }
  unfold mbind at 1, SR_bind at 1. cbn [note_match]. set (s1 := if mtch name then _ else _).
  unfold mbind at 1, SR_bind at 1. set (a := mkAnswer (gb16 msg n) (gb32 msg (n + 4)) (n + 10) (gb16 msg (n + 8))).
  pose proof (note_cname_spec msg name a s1 Hb ltac:(cbn; lia)) as EC. cbn [a_typ a_rdataOff a] in EC. rewrite EC. cbv beta iota.
  pose proof (gb16_range msg (n + 8) Hb) as H16.
  set (s2 := mkP _ _). specialize (IH (n + 10 + gb16 msg (n + 8)) (acc ++ [a]) s2 ltac:(lia)).
  destruct (answers_loop mtch k msg _ _ s2) as [s' [answers|e| |]]; try done.
  - destruct IH as (rs & Hra & -> & ->). exists (mkRecord name a :: rs). split_and!; [by apply (ra_cons _ k off name n rs)|by rewrite <- app_assoc|].
    unfold s2, s1. cbn. destruct (mtch name); cbn; rewrite ?existsb_app, ?orb_true_r, <- app_assoc, ?orb_assoc; done.
  - intros rs H. inversion H; subst. assert (n0 = n) as -> by congruence. by eapply IH.
Qed.

Lemma looked_at_split msg rs :
  existsb mtch (flat_map (looked_at msg) rs) = existsb mtch (flat_map (cname_of msg) rs) || existsb mtch (map r_owner rs).
Proof.
  induction rs as [|r rs IH]; [done|]. cbn. rewrite !existsb_app, IH.
  destruct (mtch (r_owner r)), (existsb mtch (cname_of msg r)), (existsb mtch (flat_map (cname_of msg) rs)); done.
Qed.

Definition in_msg (msg : list Z) (a : answer) : Prop := 0 <= a_rdataOff a ∧ a_rdataOff a + a_rdlen a <= blen msg.
Lemma records_in_msg k msg off rs : bytes_ok msg → 0 <= off → records_at msg k off rs → Forall (in_msg msg) (map r_data rs).
Proof.
  intros Hb Hoff H. revert Hoff. induction H as [|k off name n rs En]; intros Hoff; cbn; constructor.
  - pose proof (readName_Ok_bounds msg off Hb Hoff) as HN. rewrite En in HN. unfold in_msg. cbn. lia.
  - pose proof (readName_Ok_bounds msg off Hb Hoff) as HN. rewrite En in HN.
    pose proof (gb16_range msg (n + 8) Hb). match goal with H : _ → Forall _ _ |- _ => apply H end. lia.
Qed.

Lemma min_ttl_le msg answers : min_ttl msg answers <= 86400.
Proof. unfold min_ttl. induction (map a_ttl _) as [|x l IH]; cbn; lia. Qed.

Lemma collect_spec msg answers ips m :
  Forall (in_msg msg) answers → m <= 86400 →
  collect msg answers ips m = Ok (ips ++ flat_map (addr_of msg) answers, Z.min m (min_ttl msg answers)).
Proof.
  intros H. revert ips m. induction H as [|a answers [Ha1 Ha2] H IH]; intros ips m Hm; cbn [collect flat_map].
  { rewrite app_nil_r. change (min_ttl msg []) with 86400. by rewrite Z.min_l. }
  assert (Hmin : min_ttl msg (a :: answers) =
    if bool_decide (addr_of msg a = []) then min_ttl msg answers else Z.min (a_ttl a) (min_ttl msg answers))
    by (unfold min_ttl; cbn [List.filter]; by destruct (bool_decide (addr_of msg a = []))).
  rewrite Hmin. pose proof (eq_refl (addr_of msg a)) as EA. unfold addr_of at 2 in EA. revert EA.
  destruct ((a_typ a =? 1) && (a_rdlen a =? 4)) eqn:E1; [|destruct ((a_typ a =? 28) && (a_rdlen a =? 16)) eqn:E2];
    intros ->; zbool; [| |by apply IH].
  all: go_ops; rewrite IH by (destruct (Z.ltb_spec (a_ttl a) m); lia).
  all: rewrite <- app_assoc, bool_decide_eq_false_2 by done.
  all: destruct (Z.ltb_spec (a_ttl a) m); do 2 f_equal; lia.
Qed.

Ltac same_name :=
  match goal with
  | H : readName ?m ?o ?d = _, H' : readName ?m ?o ?d = _ |- _ => rewrite H in H'; injection H' as -> ->
  end.
Lemma questions_at_unique msg k off names next : questions_at msg k off names next →
  ∀ names' next', questions_at msg k off names' next' → names' = names ∧ next' = next.
Proof.
  induction 1 as [|k off name n names next E Hl Hq IH]; intros names' next' H'; inversion H'; subst; [done|].
  same_name. match goal with H : questions_at _ _ _ _ next' |- _ => destruct (IH _ _ H) as [-> ->] end. done.
Qed.
Lemma records_at_unique msg k off rs : records_at msg k off rs → ∀ rs', records_at msg k off rs' → rs' = rs.
Proof.
  induction 1 as [|k off name n rs E Hl Hl2 Hq IH]; intros rs' H'; inversion H'; subst; [done|].
  same_name. f_equal. by apply IH.
Qed.

Lemma response_flag x : 0 <= x < 65536 → (Z.land x 32768 =? 0) = (x <? 32768).
Proof.
  intros Hx. pose proof (land_pow2 x 15 ltac:(lia)) as E. change (2 ^ 15) with 32768 in E. rewrite E.
  destruct (Z.ltb_spec x 32768).
  - rewrite Z.div_small by lia. done.
  - apply Z.eqb_neq. assert (x `div` 32768 = 1) as -> by (Z.div_mod_to_equations; lia). done.
Qed.

Lemma ParseDNSResponse_spec (msg : list Z) :
  bytes_ok msg →
  (∃ res err, ParseDNSResponse mtch msg = Ok (res, err) ∧ (err ≠ None → IPs res = [])) ∧
  (∀ res, ParseDNSResponse mtch msg = Ok (res, None) ↔
     12 <= blen msg ∧ 32768 <= gb16 msg 2 ∧
     ∃ qs off rs, questions_at msg (Z.to_nat (gb16 msg 4)) 12 qs off ∧
       records_at msg (Z.to_nat (gb16 msg 6)) off rs ∧ res = response msg qs rs).
Proof.
  intros Hb. unfold ParseDNSResponse. destruct (Z.ltb_spec (blen msg) 12) as [Hs|Hs].
  { split; [by eexists _, _|]. intros res. split; [done|]. lia. }
  go_ops. rewrite response_flag by by apply gb16_range.
  destruct (Z.ltb_spec (gb16 msg 2) 32768) as [Hf|Hf].
  { split; [by eexists _, _|]. intros res. split; [done|]. lia. }
  unfold read_sections. unfold mbind at 1 3, SR_bind at 1 2.
  pose proof (questions_spec (Z.to_nat (gb16 msg 4)) msg 12 (mkP [] false) Hb ltac:(lia)) as HQ.
  destruct (questions mtch _ msg 12 _) as [s [off|e| |]]; try done.
  2:{ split; [by eexists _, _|]. intros res. split; [done|]. intros (_ & _ & qs & off & rs & Hq & _). by apply HQ in Hq. }
  destruct HQ as (Hoff & qs & Hq & ->). cbn [p_names p_matched app orb] in *.
  pose proof (answers_loop_spec (Z.to_nat (gb16 msg 6)) msg off [] (mkP qs (existsb mtch qs)) Hb ltac:(lia)) as HA.
  destruct (answers_loop mtch _ msg off [] _) as [s [answers|e| |]]; try done.
  2:{ split; [by eexists _, _|]. intros res. split; [done|].
      intros (_ & _ & qs' & off' & rs & Hq' & Hr & _). destruct (questions_at_unique _ _ _ _ _ Hq _ _ Hq') as [-> ->].
      by apply HA in Hr. }
  destruct HA as (rs & Hr & -> & ->). cbn [p_names p_matched app].
  assert (Huniq : ∀ qs' off' rs', questions_at msg (Z.to_nat (gb16 msg 4)) 12 qs' off' →
    records_at msg (Z.to_nat (gb16 msg 6)) off' rs' → qs' = qs ∧ rs' = rs).
  { intros qs' off' rs' Hq' Hr'. destruct (questions_at_unique _ _ _ _ _ Hq _ _ Hq') as [-> ->].
    by rewrite (records_at_unique _ _ _ _ Hr _ Hr'). }
  assert (Hval : (if negb (existsb mtch qs || existsb mtch (flat_map (looked_at msg) rs))
     then Ok (mkDNS (qs ++ flat_map (cname_of msg) rs) [] (300 * Second), None)
     else '(ips, minTTL) ← collect msg (map r_data rs) [] 86400;
       Ok (mkDNS (qs ++ flat_map (cname_of msg) rs) ips
         (if negb (minTTL =? 86400) then minTTL * Second else 300 * Second), None)) = Ok (response msg qs rs, None : option string)).
  { unfold response. rewrite !existsb_app, looked_at_split, orb_assoc. destruct (_ || _); cbn [negb]; [|done].
    rewrite collect_spec; [|exact (records_in_msg _ _ off _ Hb ltac:(lia) Hr)|lia]. rewrite bind_Ok.
    pose proof (min_ttl_le msg (map r_data rs)). rewrite Z.min_r by lia. cbn [app].
    destruct (Z.eqb_spec (min_ttl msg (map r_data rs)) 86400), (Z.ltb_spec (min_ttl msg (map r_data rs)) 86400); try lia; done. }
  rewrite Hval. split; [by eexists _, _|]. intros res. split.
  - intros [= <-]. split_and!; [lia|lia|]. by exists qs, off, rs.
  - intros (_ & _ & qs' & off' & rs' & Hq' & Hr' & ->). by destruct (Huniq _ _ _ Hq' Hr') as [-> ->].
Qed.
Lemma ParseDNSResponse_total msg : bytes_ok msg → ∃ res err, ParseDNSResponse mtch msg = Ok (res, err) ∧ (err ≠ None → IPs res = []).
Proof. intros Hb. apply (ParseDNSResponse_spec msg Hb). Qed.

(** C37: A DNS response is read as it is written.  Parsing never panics; it
    succeeds exactly on responses whose announced questions and records are all
    there, and then the names are the question names and the readable CNAME
    targets in order, and if one of these or an owner name matches, the addresses
    are those of the A and AAAA records in order, with the smallest of their
    lifetimes when below a day and five minutes otherwise; with no match, or on an
    error, there are no addresses. *)
Theorem ParseDNSResponse_correct (msg : list Z) :
  bytes_ok msg →
  (∃ res err, ParseDNSResponse mtch msg = Ok (res, err) ∧ (err ≠ None → IPs res = [])) ∧
  (∀ res, ParseDNSResponse mtch msg = Ok (res, None) ↔
     12 <= blen msg ∧ 32768 <= gb16 msg 2 ∧
     ∃ qs off rs, questions_at msg (Z.to_nat (gb16 msg 4)) 12 qs off ∧
       records_at msg (Z.to_nat (gb16 msg 6)) off rs ∧ res = response msg qs rs).
Proof. apply ParseDNSResponse_spec. Qed.
End Claims.

(** The bytes of a response: one question and one A record for "a.b", the second
    name compressed. *)
Definition example_msg : list Z :=
  [0; 1; 129; 128; 0; 1; 0; 1; 0; 0; 0; 0;
   1; 97; 1; 98; 0; 0; 1; 0; 1;
   192; 12; 0; 1; 0; 1; 0; 0; 0; 60; 0; 4; 9; 8; 7; 6].
Lemma readName_correct_witness :
  readName example_msg 21 0 = Ok ([97; 46; 98], 23) ∧ 21 < 23 <= blen example_msg.
Proof.
  assert (H : readName example_msg 21 0 = Ok ([97; 46; 98], 23)) by (vm_compute; reflexivity). split; [exact H|].
  exact (proj2 (proj2 (readName_correct example_msg 21 (bytes_okb_ok example_msg eq_refl) ltac:(lia))) _ _ H).
Defined.

Lemma ParseDNSResponse_correct_witness :
  ParseDNSResponse (fun _ => true) example_msg = Ok (mkDNS [[97; 46; 98]] [Addr4 [9; 8; 7; 6]] (60 * Second), None) ∧
  ∃ qs off rs, questions_at example_msg (Z.to_nat (gb16 example_msg 4)) 12 qs off ∧
    records_at example_msg (Z.to_nat (gb16 example_msg 6)) off rs.
Proof.
  assert (H : ParseDNSResponse (fun _ => true) example_msg =
    Ok (mkDNS [[97; 46; 98]] [Addr4 [9; 8; 7; 6]] (60 * Second), None)) by (vm_compute; reflexivity).
  split; [exact H|].
  destruct (proj1 (proj2 (ParseDNSResponse_correct (fun _ => true) example_msg (bytes_okb_ok example_msg eq_refl)) _) H)
    as (_ & _ & qs & off & rs & Hq & Hr & _). exists qs, off, rs. split; [exact Hq|exact Hr].
Defined.
