(* ===== verification/TlsHello.v ===== *)
(** * TLS ClientHello: [internal/tlshello/sni.go]

    [ServerName] collects handshake bytes over TLS records and parses the
    ClientHello they hold.  A result is Go's triple: the name, whether the input
    was complete, and the error.  All indexing and slicing is checked. *)

From S2P Require Import Prelude GoStrings.
Local Open Scope Z_scope.

Definition result : Type := list Z * bool * option string.
Definition ErrNotClientHello : string := "not a TLS ClientHello".
Definition ErrMalformed : string := "malformed TLS ClientHello".
Definition need_more : result := ([], false, None).
Definition malformed : result := ([], true, Some ErrMalformed).
Definition not_hello : result := ([], true, Some ErrNotClientHello).
Definition no_name : result := ([], true, None).

(** [int(hs[1])<<16 | int(hs[2])<<8 | int(hs[3])] *)
Definition be24 (hs : list Z) : Res Z :=
  x ← idx hs 1; y ← idx hs 2; z ← idx hs 3;
  Ok (Z.lor (Z.lor (Z.shiftl x 16) (Z.shiftl y 8)) z).

Section Hello.
Context {U : Unicode}.

(** The loop over the server name list; every round advances [p] by at least 3. *)
Fixpoint name_list (fuel : nat) (x : list Z) (p listEnd : Z) : Res result :=
  match fuel with
  | O => OutOfFuel
  | S fuel =>
      if p + 3 <=? listEnd then
        nameType ← idx x p;
        n ← be16 x (p + 1);
        let p := p + 3 in
        if listEnd <? p + n then Ok malformed else
        if (nameType =? 0) && (0 <? n) then
          s ← slice x p (p + n);
          Ok (ToLower (TrimSuffix s (lit ".")), true, None)
        else name_list fuel x (p + n) listEnd
      else Ok no_name
  end.
Definition server_name (x : list Z) : Res result :=
  if blen x <? 2 then Ok malformed else
  listLen ← be16 x 0;
  if blen x <? 2 + listLen then Ok malformed else
  name_list (S (length x)) x 2 (2 + listLen).

(** The loop over the extensions; every round advances [off] by at least 4. *)
Fixpoint extensions (fuel : nat) (b : list Z) (off end_ : Z) : Res result :=
  match fuel with
  | O => OutOfFuel
  | S fuel =>
      if off + 4 <=? end_ then
        typ ← be16 b off;
        ln ← be16 b (off + 2);
        let off := off + 4 in
        if end_ <? off + ln then Ok malformed else
        if typ =? 0 then x ← slice b off (off + ln); server_name x
        else extensions fuel b (off + ln) end_
      else Ok no_name
  end.

Definition hello_body (b : list Z) : Res result :=
  if blen b <? 34 then Ok malformed else
  let off := 34 in
  if blen b <=? off then Ok malformed else
  sidLen ← idx b off;
  let off := off + 1 in
  if blen b <? off + sidLen + 2 then Ok malformed else
  let off := off + sidLen in
  csLen ← be16 b off;
  let off := off + 2 in
  if (csLen =? 0) || negb (csLen `mod` 2 =? 0) || (blen b <? off + csLen + 1) then Ok malformed else
  let off := off + csLen in
  compLen ← idx b off;
  let off := off + 1 in
  if blen b <? off + compLen then Ok malformed else
  let off := off + compLen in
  if off =? blen b then Ok no_name else
  if blen b <? off + 2 then Ok malformed else
  extLen ← be16 b off;
  let off := off + 2 in
  if blen b <? off + extLen then Ok malformed else
  extensions (S (length b)) b off (off + extLen).

Definition parseClientHello (hs : list Z) : Res result :=
  if blen hs <? 4 then Ok not_hello else
  t ← idx hs 0;
  if negb (t =? 1) then Ok not_hello else
  hlen ← be24 hs;
  if blen hs <? 4 + hlen then Ok need_more else
  b ← slice hs 4 (4 + hlen);
  hello_body b.

(** What one record adds: the handshake bytes so far decide, or reading goes on. *)
Definition try_handshake (hs : list Z) : Res (option result) :=
  if 4 <=? blen hs then
    hlen ← be24 hs;
    if 1048576 <? hlen then Ok (Some malformed) else
    if 4 + hlen <=? blen hs then
      h ← slice hs 0 (4 + hlen);
      r ← parseClientHello h;
      Ok (Some r)
    else Ok None
  else Ok None.

(** The loop over the records; every round advances [off] by at least 5. *)
Fixpoint records (fuel : nat) (data : list Z) (off : Z) (hs : list Z) : Res result :=
  match fuel with
  | O => OutOfFuel
  | S fuel =>
      if blen data - off <? 5 then Ok need_more else
      typ ← idx data off;
      ln ← be16 data (off + 3);
      if (ln <? 0) || (32768 <? ln) then Ok malformed else
      if blen data - off <? 5 + ln then Ok need_more else
      hs ← (if typ =? 22 then chunk ← slice data (off + 5) (off + 5 + ln); Ok (hs ++ chunk) else Ok hs);
      let off := off + (5 + ln) in
      o ← try_handshake hs;
      match o with
      | Some r => Ok r
      | None => if blen data <=? off then Ok need_more else records fuel data off hs
      end
  end.

Definition ServerName (data : list Z) : Res result :=
  if blen data <? 5 then Ok need_more else
  t ← idx data 0;
  if negb (t =? 22) then Ok not_hello else
  records (S (length data)) data 0 [].
End Hello.

(** ** Building a ClientHello *)
Definition enc24 (v : Z) : list Z := [(v `div` 65536) `mod` 256; (v `div` 256) `mod` 256; v `mod` 256].
Definition enc_ext (e : Z * list Z) : list Z := enc16 (fst e) ++ enc16 (blen (snd e)) ++ snd e.
Definition enc_exts (es : list (Z * list Z)) : list Z := flat_map enc_ext es.
(** A server name list with one host name. *)
Definition sni_ext (name : list Z) : Z * list Z :=
  (0, enc16 (blen name + 3) ++ [0] ++ enc16 (blen name) ++ name).

Record hello : Type := mkHello {
  h_fixed : list Z;             (** legacy version and random *)
  h_session : list Z;
  h_suites : list Z;
  h_compression : list Z;
  h_before : list (Z * list Z); (** extensions before the server name *)
  h_name : list Z;
  h_after : list (Z * list Z)
}.
Definition hello_exts (h : hello) : list Z := enc_exts (h_before h ++ [sni_ext (h_name h)] ++ h_after h).
Definition enc_body (h : hello) : list Z :=
  h_fixed h ++ [blen (h_session h)] ++ h_session h ++ enc16 (blen (h_suites h)) ++ h_suites h ++
  [blen (h_compression h)] ++ h_compression h ++ enc16 (blen (hello_exts h)) ++ hello_exts h.
Definition enc_hello (h : hello) : list Z := 1 :: enc24 (blen (enc_body h)) ++ enc_body h.
Definition enc_record (chunk : list Z) : list Z := [22; 3; 1] ++ enc16 (blen chunk) ++ chunk.

(** The fields fit their lengths. *)
Record hello_ok (h : hello) : Prop := {
  ho_fixed : blen (h_fixed h) = 34;
  ho_session : blen (h_session h) < 256;
  ho_suites : 0 < blen (h_suites h) < 65536 ∧ blen (h_suites h) `mod` 2 = 0;
  ho_compression : blen (h_compression h) < 256;
  ho_before : Forall (fun e => 0 < fst e < 65536 ∧ blen (snd e) < 65536) (h_before h);
  ho_name : 0 < blen (h_name h) ∧ blen (h_name h) + 5 < 65536;
  ho_exts : blen (hello_exts h) < 65536;
}.

(** ** Totality *)
Section Lemmas.
Context {U : Unicode}.

Definition complete (r : result) : bool := snd (fst r).

Lemma be24_val hs : 4 <= blen hs → 0 <= gb hs 2 < 256 → 0 <= gb hs 3 < 256 →
  be24 hs = Ok (gb hs 1 * 65536 + gb hs 2 * 256 + gb hs 3).
Proof.
  intros Hl ? ?. unfold be24. go_ops. f_equal.
  rewrite !Z.shiftl_mul_pow2 by lia.
  replace (gb hs 2 * 2 ^ 8) with (0 + gb hs 2 * 2 ^ 8) by lia.
  rewrite (lor_disjoint (0 + gb hs 2 * 2 ^ 8) (gb hs 1) 16) by (simpl; lia).
  replace (gb hs 1 * 2 ^ 16 + (0 + gb hs 2 * 2 ^ 8)) with ((gb hs 1 * 256 + gb hs 2) * 2 ^ 8) by (simpl; lia).
  rewrite lor_disjoint by (simpl; lia). simpl. lia.
Qed.

Lemma be24_ok hs : 4 <= blen hs → bytes_ok hs → be24 hs = Ok (gb hs 1 * 65536 + gb hs 2 * 256 + gb hs 3).
Proof. intros. apply be24_val; [done|by apply gb_range..]. Qed.

Lemma name_list_total fuel x p listEnd :
  bytes_ok x → 0 <= p → listEnd <= blen x → (0 < fuel)%nat → (length x < fuel + Z.to_nat p)%nat →
  ∃ r, name_list fuel x p listEnd = Ok r ∧ complete r = true.
Proof.
  intros Hb. revert p. induction fuel as [|fuel IH]; intros p Hp He Hf0 Hf; [lia|]. cbn [name_list].
  destruct (Z.leb_spec (p + 3) listEnd); [|eauto]. go_ops. cbv zeta. pose proof (gb16_range x (p + 1) Hb).
  destruct (Z.ltb_spec listEnd (p + 3 + gb16 x (p + 1))); [eauto|].
  destruct (_ && _); [go_ops; eauto|]. apply IH; unfold blen in *; lia.
Qed.
Lemma server_name_total x : bytes_ok x → ∃ r, server_name x = Ok r ∧ complete r = true.
Proof.
  intros Hb. unfold server_name. destruct (Z.ltb_spec (blen x) 2); [eauto|]. go_ops.
  destruct (Z.ltb_spec (blen x) (2 + gb16 x 0)); [eauto|]. apply name_list_total; try done; lia.
Qed.
Lemma extensions_total fuel b off end_ :
  bytes_ok b → 0 <= off → end_ <= blen b → (0 < fuel)%nat → (length b < fuel + Z.to_nat off)%nat →
  ∃ r, extensions fuel b off end_ = Ok r ∧ complete r = true.
Proof.
  intros Hb. revert off. induction fuel as [|fuel IH]; intros off Hp He Hf0 Hf; [lia|]. cbn [extensions].
  destruct (Z.leb_spec (off + 4) end_); [|eauto]. go_ops. cbv zeta. pose proof (gb16_range b (off + 2) Hb).
  destruct (Z.ltb_spec end_ (off + 4 + gb16 b (off + 2))); [eauto|].
  destruct (_ =? 0); [go_ops; apply server_name_total; auto with go|]. apply IH; unfold blen in *; lia.
Qed.
Lemma hello_body_total b : bytes_ok b → ∃ r, hello_body b = Ok r ∧ complete r = true.
Proof.
  intros Hb. unfold hello_body. cbv zeta. destruct (Z.ltb_spec (blen b) 34); [eauto|].
  destruct (Z.leb_spec (blen b) 34); [eauto|]. go_ops. pose proof (gb_range b 34 Hb) as R1. set (sid := gb b 34) in *.
  destruct (Z.ltb_spec (blen b) (34 + 1 + sid + 2)); [eauto|]. go_ops.
  pose proof (gb16_range b (34 + 1 + sid) Hb) as R2. set (cs := gb16 b (34 + 1 + sid)) in *.
  destruct (_ || _) eqn:E; [eauto|]. zbool. go_ops. pose proof (gb_range b (34 + 1 + sid + 2 + cs) Hb) as R3.
  set (comp := gb b (34 + 1 + sid + 2 + cs)) in *.
  destruct (Z.ltb_spec (blen b) (34 + 1 + sid + 2 + cs + 1 + comp)); [eauto|].
  destruct (Z.eqb_spec (34 + 1 + sid + 2 + cs + 1 + comp) (blen b)); [eauto|].
  destruct (Z.ltb_spec (blen b) (34 + 1 + sid + 2 + cs + 1 + comp + 2)); [eauto|]. go_ops.
  match goal with |- context [blen b <? ?x] => destruct (Z.ltb_spec (blen b) x) end; [eauto|].
  apply extensions_total; try done; lia.
Qed.

Lemma parse_taken_total hs : bytes_ok hs → 4 <= blen hs →
  blen hs = 4 + (gb hs 1 * 65536 + gb hs 2 * 256 + gb hs 3) →
  ∃ r, parseClientHello hs = Ok r ∧ complete r = true.
Proof.
  intros Hb Hl He. unfold parseClientHello. rewrite (proj2 (Z.ltb_ge _ _)) by lia. go_ops. destruct (negb _); [eauto|].
  rewrite be24_ok, bind_Ok by done. rewrite <- He, Z.ltb_irrefl. go_ops. apply hello_body_total. auto with go.
Qed.

Lemma try_handshake_total hs : bytes_ok hs →
  ∃ o, try_handshake hs = Ok o ∧ ∀ r, o = Some r → complete r = true.
Proof.
  intros Hb. unfold try_handshake. destruct (Z.leb_spec 4 (blen hs)); [|exists None; by split].
  rewrite be24_ok, bind_Ok by done. pose proof (gb_range hs 1 Hb). pose proof (gb_range hs 2 Hb). pose proof (gb_range hs 3 Hb).
  set (hl := gb hs 1 * 65536 + gb hs 2 * 256 + gb hs 3) in *.
  destruct (1048576 <? hl); [eexists; split; [done|]; by intros r [= <-]|].
  destruct (Z.leb_spec (4 + hl) (blen hs)); [|exists None; by split]. go_ops.
  destruct (parse_taken_total (bsub hs 0 (4 + hl))) as (r & -> & Hr).
  - auto with go.
  - rewrite blen_bsub by lia. lia.
  - rewrite blen_bsub by lia. rewrite !gb_bsub by lia. unfold hl. rewrite !Z.add_0_l. lia.
  - rewrite bind_Ok. eexists. split; [done|]. by intros ? [= <-].
Qed.

Lemma records_total fuel data off hs :
  bytes_ok data → bytes_ok hs → 0 <= off → (0 < fuel)%nat → (length data < fuel + Z.to_nat off)%nat →
  ∃ r, records fuel data off hs = Ok r.
Proof.
  intros Hd. revert off hs. induction fuel as [|fuel IH]; intros off hs Hb Ho Hf0 Hf; [lia|]. cbn [records].
  destruct (Z.ltb_spec (blen data - off) 5); [eauto|]. go_ops. pose proof (gb16_range data (off + 3) Hd) as R.
  set (ln := gb16 data (off + 3)) in *. destruct (_ || _); [eauto|].
  destruct (Z.ltb_spec (blen data - off) (5 + ln)); [eauto|].
  assert (Hhs : ∃ hs', (if gb data off =? 22 then chunk ← slice data (off + 5) (off + 5 + ln); Ok (hs ++ chunk) else Ok hs) = Ok hs'
    ∧ bytes_ok hs').
  { destruct (_ =? 22); [|eauto]. go_ops. eexists. split; [done|]. apply bytes_ok_app. split; [done|]. auto with go. }
  destruct Hhs as (hs' & -> & Hhs). rewrite bind_Ok. cbv zeta.
  destruct (try_handshake_total hs' Hhs) as (o & -> & _). rewrite bind_Ok. destruct o; [eauto|].
  destruct (Z.leb_spec (blen data) (off + (5 + ln))); [eauto|]. apply IH; try done; unfold blen in *; lia.
Qed.

(** ** More data does not change a complete result *)
Lemma idx_app a b i : i < blen a → idx (a ++ b) i = idx a i.
Proof.
  intros H. unfold idx. destruct (Z.leb_spec 0 i); [|done]. pose proof (blen_nonneg b).
  rewrite blen_app, !(proj2 (Z.ltb_lt _ _)) by lia. cbn. by rewrite gb_app, (proj2 (Z.ltb_lt _ _)) by lia.
Qed.
Lemma be16_app a b i : i + 1 < blen a → be16 (a ++ b) i = be16 a i.
Proof. intros H. unfold be16. by rewrite !idx_app by lia. Qed.
Lemma slice_app {A} (a b : list A) lo hi : hi <= blen a → slice (a ++ b) lo hi = slice a lo hi.
Proof.
  intros H. unfold slice. pose proof (blen_nonneg b). rewrite blen_app, !(proj2 (Z.leb_le hi _)) by lia.
  destruct (Z.leb_spec 0 lo); [|done]. by rewrite bsub_app_l.
Qed.

Lemma records_stable fuel fuel' data more off hs r :
  (fuel <= fuel')%nat → records fuel data off hs = Ok r → complete r = true → records fuel' (data ++ more) off hs = Ok r.
Proof.
  revert fuel' off hs. induction fuel as [|fuel IH]; intros fuel' off hs Hf H Hc; [done|].
  destruct fuel' as [|fuel']; [lia|]. cbn [records] in H |- *. pose proof (blen_nonneg more). rewrite blen_app.
  destruct (Z.ltb_spec (blen data - off) 5); [by injection H as <-|]. rewrite (proj2 (Z.ltb_ge _ 5)) by lia.
  rewrite idx_app, be16_app by lia. destruct (idx data off) as [typ| | |]; try done. rewrite bind_Ok in H |- *.
  destruct (be16 data (off + 3)) as [ln| | |]; try done. rewrite bind_Ok in H |- *.
  destruct (_ || _); [done|]. destruct (Z.ltb_spec (blen data - off) (5 + ln)); [by injection H as <-|].
  rewrite (proj2 (Z.ltb_ge _ (5 + ln))) by lia. rewrite slice_app by lia.
  destruct (if typ =? 22 then _ else _) as [hs'| | |]; try done. rewrite bind_Ok in H |- *. cbv zeta in H |- *.
  destruct (try_handshake hs') as [[r'|]| | |]; try done. rewrite bind_Ok in H |- *.
  destruct (Z.leb_spec (blen data) (off + (5 + ln))); [by injection H as <-|].
  rewrite (proj2 (Z.leb_gt _ _)) by lia. apply IH; [lia|done|done].
Qed.

Lemma ServerName_spec data : bytes_ok data →
  ∃ r, ServerName data = Ok r ∧ (complete r = true → ∀ more, ServerName (data ++ more) = Ok r).
Proof.
  intros Hb. unfold ServerName. destruct (Z.ltb_spec (blen data) 5); [eexists; by split|]. go_ops.
  destruct (negb (gb data 0 =? 22)) eqn:E.
  - eexists. split; [done|]. intros _ more. rewrite blen_app. pose proof (blen_nonneg more).
    rewrite (proj2 (Z.ltb_ge _ _)), idx_app, idx_ok, bind_Ok by lia. by rewrite E.
  - destruct (records_total (S (length data)) data 0 [] Hb) as [r Hr]; [constructor|lia|lia|lia|].
    exists r. split; [done|]. intros Hc more. rewrite blen_app. pose proof (blen_nonneg more).
    rewrite (proj2 (Z.ltb_ge _ _)), idx_app, idx_ok, bind_Ok by lia. rewrite E.
    eapply records_stable; [|done|done]. rewrite length_app. lia.
Qed.

(** ** Parsing what was built *)
Definition name_result (name : list Z) : result := (ToLower (TrimSuffix name (lit ".")), true, None).

Lemma server_name_built name : 0 < blen name → blen name + 5 < 65536 →
  server_name (snd (sni_ext name)) = Ok (name_result name).
Proof.
  intros H1 H2. unfold sni_ext. cbn [snd]. set (x := enc16 (blen name + 3) ++ [0] ++ enc16 (blen name) ++ name).
  assert (Hl : blen x = blen name + 5) by (unfold x; rewrite !blen_app, !blen_enc16; change (blen [0]) with 1; lia).
  assert (E0 : gb16 x 0 = blen name + 3) by (apply (gb16_at [] (blen name + 3)); lia).
  assert (E2 : gb x 2 = 0) by (apply (gb_at (enc16 (blen name + 3)))).
  assert (E3 : gb16 x 3 = blen name).
  { unfold x. rewrite (app_assoc _ [0]).
    exact (gb16_at (enc16 (blen name + 3) ++ [0]) (blen name) name ltac:(lia)). }
  assert (E5 : bsub x 5 (5 + blen name) = name).
  { unfold x. rewrite (app_assoc _ [0]), (app_assoc _ (enc16 (blen name))).
    pose proof (bsub_at ((enc16 (blen name + 3) ++ [0]) ++ enc16 (blen name)) name []) as E. rewrite app_nil_r in E. exact E. }
  unfold server_name. rewrite (proj2 (Z.ltb_ge _ 2)) by lia. go_ops. rewrite E0, (proj2 (Z.ltb_ge _ _)) by lia.
  cbn [name_list]. rewrite (proj2 (Z.leb_le _ _)) by lia. go_ops. change (2 + 1) with 3. rewrite E2, E3. cbv zeta.
  rewrite (proj2 (Z.ltb_ge _ _)) by lia. rewrite (proj2 (Z.ltb_lt 0 _)) by lia. cbn [Z.eqb andb]. go_ops.
  change (2 + 3) with 5. by rewrite E5.
Qed.

Lemma blen_enc_ext e : blen (enc_ext e) = 4 + blen (snd e).
Proof. unfold enc_ext. rewrite !blen_app, !blen_enc16. lia. Qed.
Lemma enc_exts_app a b : enc_exts (a ++ b) = enc_exts a ++ enc_exts b.
Proof. apply flat_map_app. Qed.
Lemma enc_exts_len es : blen es <= blen (enc_exts es).
Proof.
  induction es as [|e es IH]; [done|]. change (enc_exts (e :: es)) with (enc_ext e ++ enc_exts es).
  rewrite blen_app, blen_cons, blen_enc_ext. pose proof (blen_nonneg (snd e)). lia.
Qed.

(** One extension that is there is read. *)
Lemma extensions_head fuel pre e post end_ :
  0 <= fst e < 65536 → blen (snd e) < 65536 → blen pre + blen (enc_ext e) <= end_ →
  extensions (S fuel) (pre ++ enc_ext e ++ post) (blen pre) end_ =
    if fst e =? 0 then server_name (snd e)
    else extensions fuel (pre ++ enc_ext e ++ post) (blen pre + blen (enc_ext e)) end_.
Proof.
  intros Ht Hl He. rewrite blen_enc_ext in *. pose proof (blen_nonneg (snd e)). pose proof (blen_nonneg pre). pose proof (blen_nonneg post).
  set (b := pre ++ enc_ext e ++ post).
  assert (Hb : blen b = blen pre + (4 + blen (snd e)) + blen post) by (unfold b; rewrite !blen_app, blen_enc_ext; lia).
  assert (E1 : gb16 b (blen pre) = fst e).
  { unfold b, enc_ext. rewrite <- !app_assoc. by apply gb16_at. }
  assert (E2 : gb16 b (blen pre + 2) = blen (snd e)).
  { unfold b, enc_ext. rewrite <- !app_assoc, (app_assoc pre).
    pose proof (gb16_at (pre ++ enc16 (fst e)) (blen (snd e)) (snd e ++ post) ltac:(lia)) as E.
    by rewrite blen_app, blen_enc16 in E. }
  assert (E3 : bsub b (blen pre + 4) (blen pre + 4 + blen (snd e)) = snd e).
  { unfold b, enc_ext. rewrite <- !app_assoc, (app_assoc pre), (app_assoc (pre ++ _)).
    pose proof (bsub_at ((pre ++ enc16 (fst e)) ++ enc16 (blen (snd e))) (snd e) post) as E.
    rewrite !blen_app, !blen_enc16 in E. by replace (blen pre + 2 + 2) with (blen pre + 4) in E by lia. }
  cbn [extensions]. rewrite (proj2 (Z.leb_le _ _)) by lia. go_ops. rewrite E1, E2. cbv zeta.
  rewrite (proj2 (Z.ltb_ge _ _)) by lia. go_ops. rewrite E3. by replace (blen pre + 4 + blen (snd e)) with (blen pre + (4 + blen (snd e))) by lia.
Qed.

Lemma extensions_skip before pre post fuel end_ :
  Forall (fun e => 0 < fst e < 65536 ∧ blen (snd e) < 65536) before →
  blen pre + blen (enc_exts before) <= end_ →
  extensions (length before + fuel) (pre ++ enc_exts before ++ post) (blen pre) end_ =
    extensions fuel (pre ++ enc_exts before ++ post) (blen pre + blen (enc_exts before)) end_.
Proof.
  intros H. revert pre. induction H as [|e es [H1 H2] H IH]; intros pre He.
  { cbn. by rewrite Z.add_0_r. }
  cbn [length Nat.add]. change (enc_exts (e :: es)) with (enc_ext e ++ enc_exts es) in *. rewrite blen_app in He |- *.
  pose proof (blen_nonneg (enc_exts es)). rewrite <- app_assoc, extensions_head by lia.
  rewrite (proj2 (Z.eqb_neq _ _)) by lia. specialize (IH (pre ++ enc_ext e)). rewrite blen_app, <- app_assoc in IH.
  rewrite Z.add_assoc. apply IH. lia.
Qed.

Lemma hello_body_built h : hello_ok h → hello_body (enc_body h) = Ok (name_result (h_name h)).
Proof.
  intros [F1 F2 [F3 F3'] F4 F5 [F6 F6'] F7]. unfold hello_body. cbv zeta.
  pose proof (blen_nonneg (h_session h)) as N1. pose proof (blen_nonneg (h_compression h)) as N2.
  pose proof (blen_nonneg (hello_exts h)) as N3. set (b := enc_body h).
  set (sl := blen (h_session h)) in *. set (cl := blen (h_suites h)) in *. set (ml := blen (h_compression h)) in *.
  set (el := blen (hello_exts h)) in *.
  set (p1 := h_fixed h ++ [sl] ++ h_session h). set (p2 := p1 ++ enc16 cl ++ h_suites h).
  set (p3 := p2 ++ [ml] ++ h_compression h). set (p4 := p3 ++ enc16 el).
  assert (L1 : blen p1 = 35 + sl) by (unfold p1; rewrite !blen_app, F1; change (blen [sl]) with 1; unfold sl; lia).
  assert (L2 : blen p2 = 37 + sl + cl) by (unfold p2; rewrite !blen_app, blen_enc16, L1; unfold cl; lia).
  assert (L3 : blen p3 = 38 + sl + cl + ml) by (unfold p3; rewrite !blen_app, L2; change (blen [ml]) with 1; unfold ml; lia).
  assert (L4 : blen p4 = 40 + sl + cl + ml) by (unfold p4; rewrite blen_app, blen_enc16, L3; lia).
  assert (E4 : b = p4 ++ hello_exts h) by (unfold b, enc_body, p4, p3, p2, p1; by rewrite <- !app_assoc).
  assert (LB : blen b = 40 + sl + cl + ml + el) by (rewrite E4, blen_app, L4; done).
  assert (G1 : gb b 34 = sl) by (unfold b, enc_body; rewrite <- F1; apply gb_at).
  assert (G2 : gb16 b (35 + sl) = cl).
  { rewrite E4. unfold p4, p3, p2. rewrite <- !app_assoc, <- L1. apply gb16_at. lia. }
  assert (G3 : gb b (37 + sl + cl) = ml) by (rewrite E4; unfold p4, p3; rewrite <- !app_assoc, <- L2; apply gb_at).
  assert (G4 : gb16 b (38 + sl + cl + ml) = el).
  { rewrite E4. unfold p4. rewrite <- !app_assoc, <- L3. apply gb16_at. lia. }
  rewrite (proj2 (Z.ltb_ge _ 34)), (proj2 (Z.leb_gt _ 34)) by lia. go_ops. rewrite G1. change (34 + 1) with 35.
  rewrite (proj2 (Z.ltb_ge _ _)) by lia. go_ops. rewrite G2. rewrite (proj2 (Z.eqb_neq cl 0)), F3' by lia.
  rewrite (proj2 (Z.ltb_ge _ _)) by lia. cbn [orb negb Z.eqb]. replace (35 + sl + 2 + cl) with (37 + sl + cl) by lia. go_ops. rewrite G3.
  rewrite (proj2 (Z.ltb_ge _ _)) by lia. replace (37 + sl + cl + 1 + ml) with (38 + sl + cl + ml) by lia.
  rewrite (proj2 (Z.eqb_neq _ _)), (proj2 (Z.ltb_ge _ _)) by lia. go_ops. rewrite G4, (proj2 (Z.ltb_ge _ _)) by lia.
  replace (38 + sl + cl + ml + 2) with (blen p4) by lia.
  assert (Eb : b = p4 ++ enc_exts (h_before h) ++ enc_ext (sni_ext (h_name h)) ++ enc_exts (h_after h)).
  { rewrite E4. unfold hello_exts. rewrite !enc_exts_app. cbn. by rewrite app_nil_r. }
  assert (Lel : el = blen (enc_exts (h_before h)) + blen (enc_ext (sni_ext (h_name h))) + blen (enc_exts (h_after h))).
  { rewrite Eb, !blen_app in LB. lia. }
  pose proof (blen_nonneg (enc_exts (h_after h))). pose proof (blen_nonneg (enc_ext (sni_ext (h_name h)))).
  assert (Hlen : (length (h_before h) <= length b)%nat) by (pose proof (enc_exts_len (h_before h)); unfold blen in *; lia).
  replace (S (length b)) with (length (h_before h) + S (length b - length (h_before h)))%nat by lia.
  rewrite Eb at 2.
  rewrite extensions_skip by (done || lia). rewrite (app_assoc p4).
  pose proof (extensions_head (length b - length (h_before h)) (p4 ++ enc_exts (h_before h)) (sni_ext (h_name h))
    (enc_exts (h_after h)) (blen p4 + el)) as HH. rewrite blen_app in HH. rewrite HH.
  - cbn [fst sni_ext Z.eqb]. by apply server_name_built.
  - cbn. lia.
  - unfold sni_ext. cbn [snd]. rewrite !blen_app, !blen_enc16. change (blen [0]) with 1. lia.
  - lia.
Qed.

Lemma enc_body_len h : hello_ok h → 0 <= blen (enc_body h) <= 200000.
Proof.
  intros [F1 F2 [F3 F3'] F4 F5 F6 F7]. unfold enc_body. rewrite !blen_app, !blen_enc16, F1.
  change (blen [blen (h_session h)]) with 1. change (blen [blen (h_compression h)]) with 1. blen_pos. lia.
Qed.

(** The header of the handshake message, seen through any prefix long enough. *)
Lemma header_read h hs rest : hello_ok h → hs ++ rest = enc_hello h → 4 <= blen hs →
  gb hs 0 = 1 ∧ be24 hs = Ok (blen (enc_body h)).
Proof.
  intros Hok E Hl. pose proof (enc_body_len h Hok) as HB.
  assert (G : ∀ i, 0 <= i < 4 → gb hs i = gb (enc_hello h) i) by (intros i Hi; rewrite <- E, gb_app, (proj2 (Z.ltb_lt _ _)) by lia; done).
  set (v := blen (enc_body h)) in *.
  assert (G1 : gb hs 1 = (v `div` 65536) `mod` 256) by (rewrite G by lia; done).
  assert (G2 : gb hs 2 = (v `div` 256) `mod` 256) by (rewrite G by lia; done).
  assert (G3 : gb hs 3 = v `mod` 256) by (rewrite G by lia; done).
  split; [rewrite G by lia; done|]. rewrite be24_val by (rewrite ?G2, ?G3; try apply Z.mod_pos_bound; lia).
  rewrite G1, G2, G3. f_equal. Z.div_mod_to_equations. lia.
Qed.

Lemma blen_enc_hello h : blen (enc_hello h) = 4 + blen (enc_body h).
Proof. unfold enc_hello. rewrite blen_cons, blen_app. change (blen (enc24 _)) with 3. lia. Qed.

Lemma parse_built h : hello_ok h → parseClientHello (enc_hello h) = Ok (name_result (h_name h)).
Proof.
  intros Hok. pose proof (enc_body_len h Hok). pose proof (blen_enc_hello h) as HL.
  destruct (header_read h (enc_hello h) [] Hok (app_nil_r _) ltac:(lia)) as [G0 G24].
  unfold parseClientHello. rewrite (proj2 (Z.ltb_ge _ 4)) by lia. go_ops. rewrite G0. cbn [Z.eqb negb].
  rewrite G24, bind_Ok, (proj2 (Z.ltb_ge _ _)) by lia. go_ops.
  assert (E : bsub (enc_hello h) 4 (4 + blen (enc_body h)) = enc_body h).
  { pose proof (bsub_at (1 :: enc24 (blen (enc_body h))) (enc_body h) []) as E. rewrite app_nil_r in E. exact E. }
  rewrite E. by apply hello_body_built.
Qed.

Lemma try_partial h hs rest : hello_ok h → hs ++ rest = enc_hello h →
  try_handshake hs = Ok (if bool_decide (rest = []) then Some (name_result (h_name h)) else None).
Proof.
  intros Hok E. pose proof (enc_body_len h Hok). pose proof (blen_enc_hello h) as HL.
  assert (HLen : blen hs + blen rest = 4 + blen (enc_body h)) by (rewrite <- HL, <- E, blen_app; done).
  unfold try_handshake. destruct (Z.leb_spec 4 (blen hs)) as [H4|H4].
  - destruct (header_read h hs rest Hok E H4) as [_ ->]. rewrite bind_Ok, (proj2 (Z.ltb_ge 1048576 _)) by lia.
    destruct (bool_decide (rest = [])) eqn:Er; [apply bool_decide_eq_true in Er as ->|apply bool_decide_eq_false in Er].
    + rewrite blen_nil in HLen. rewrite (proj2 (Z.leb_le _ _)) by lia. go_ops. rewrite app_nil_r in E. subst hs.
      rewrite <- HL. rewrite bsub_full, parse_built by done. done.
    + rewrite (proj2 (Z.leb_gt _ _)); [done|]. destruct rest as [|c r]; [done|]. rewrite blen_cons in HLen.
      pose proof (blen_nonneg r). lia.
  - rewrite bool_decide_eq_false_2; [done|]. intros ->. rewrite blen_nil in HLen. lia.
Qed.

Lemma blen_enc_record c : blen (enc_record c) = 5 + blen c.
Proof. unfold enc_record. rewrite !blen_app, blen_enc16. change (blen [22; 3; 1]) with 3. lia. Qed.

Lemma records_head fuel pre c post hs : blen c <= 32768 →
  records (S fuel) (pre ++ enc_record c ++ post) (blen pre) hs =
    (o ← try_handshake (hs ++ c);
     match o with
     | Some r => Ok r
     | None => if blen post =? 0 then Ok need_more
               else records fuel (pre ++ enc_record c ++ post) (blen pre + blen (enc_record c)) (hs ++ c)
     end).
Proof.
  intros Hc. pose proof (blen_nonneg c). pose proof (blen_nonneg pre). pose proof (blen_nonneg post).
  set (d := pre ++ enc_record c ++ post).
  assert (Hd : blen d = blen pre + (5 + blen c) + blen post) by (unfold d; rewrite !blen_app, blen_enc_record; lia).
  assert (E0 : gb d (blen pre) = 22) by (unfold d, enc_record; rewrite <- !app_assoc; apply gb_at).
  assert (E1 : gb16 d (blen pre + 3) = blen c).
  { unfold d, enc_record. rewrite <- !app_assoc, (app_assoc pre).
    pose proof (gb16_at (pre ++ [22; 3; 1]) (blen c) (c ++ post) ltac:(lia)) as E. by rewrite blen_app in E. }
  assert (E2 : bsub d (blen pre + 5) (blen pre + 5 + blen c) = c).
  { unfold d, enc_record. rewrite <- !app_assoc, (app_assoc pre), (app_assoc (pre ++ _)).
    pose proof (bsub_at ((pre ++ [22; 3; 1]) ++ enc16 (blen c)) c post) as E.
    rewrite !blen_app, blen_enc16 in E. change (blen [22; 3; 1]) with 3 in E.
    by replace (blen pre + 3 + 2) with (blen pre + 5) in E by lia. }
  cbn [records]. rewrite (proj2 (Z.ltb_ge _ 5)) by lia. go_ops. rewrite E0, E1.
  rewrite (proj2 (Z.ltb_ge _ 0)), (proj2 (Z.ltb_ge 32768 _)), (proj2 (Z.ltb_ge _ _)) by lia. cbn [orb Z.eqb Pos.eqb].
  go_ops. rewrite E2, !bind_Ok. cbv zeta. destruct (try_handshake (hs ++ c)) as [[r|]| | |]; try done. rewrite !bind_Ok.
  rewrite blen_enc_record. destruct (Z.eqb_spec (blen post) 0); [by rewrite (proj2 (Z.leb_le _ _)) by lia|].
  by rewrite (proj2 (Z.leb_gt _ _)) by lia.
Qed.

Lemma records_built h chunks pre hs fuel : hello_ok h → Forall (fun c => blen c <= 32768) chunks →
  chunks ≠ [] → hs ++ concat chunks = enc_hello h → (length chunks <= fuel)%nat →
  records fuel (pre ++ flat_map enc_record chunks) (blen pre) hs = Ok (name_result (h_name h)).
Proof.
  intros Hok Hc. revert pre hs fuel. induction Hc as [|c cs H1 H IH]; intros pre hs fuel Hne E Hf; [done|].
  destruct fuel as [|fuel]; [cbn in Hf; lia|]. cbn [flat_map concat] in *.
  rewrite records_head by done. rewrite (try_partial h (hs ++ c) (concat cs)) by (by rewrite <- ?app_assoc). rewrite bind_Ok.
  destruct (bool_decide (concat cs = [])) eqn:Er; [done|]. apply bool_decide_eq_false in Er.
  destruct cs as [|c2 cs]; [done|]. rewrite (proj2 (Z.eqb_neq _ _)).
  - rewrite <- blen_app, (app_assoc pre). apply IH; [done|by rewrite <- app_assoc|cbn in *; lia].
  - cbn [flat_map]. rewrite blen_app, blen_enc_record. pose proof (blen_nonneg c2).
    pose proof (blen_nonneg (flat_map enc_record cs)). lia.
Qed.

Lemma flat_map_records_len chunks : (length chunks <= length (flat_map enc_record chunks))%nat.
Proof.
  induction chunks as [|c cs IH]; [done|]. cbn [flat_map length]. rewrite length_app.
  pose proof (blen_enc_record c). pose proof (blen_nonneg c). unfold blen in *. lia.
Qed.

(** ** Properties *)

(** Reading a ClientHello is safe and incremental: on every input
    [ServerName] returns, without panic, and once it reports a complete result
    (a name, no name, or an error) appending more data does not change it, so the
    stream may be fed as it arrives. *)
Theorem ServerName_incremental (data : list Z) :
  bytes_ok data →
  ∃ name complete err, ServerName data = Ok (name, complete, err) ∧
    (complete = true → ∀ more, ServerName (data ++ more) = Ok (name, complete, err)).
Proof.
  intros Hb. destruct (ServerName_spec data Hb) as ([[name c] err] & E & H). by exists name, c, err.
Qed.

(** C38: The name a client sends is the name that is found: for a ClientHello
    with any session, cipher suites, compression methods and extensions around the
    server name (all within their length fields), cut into TLS records at any
    points, the result is that name in lower case without a final dot, complete and
    without error. *)
Theorem ServerName_roundtrip (h : hello) (chunks : list (list Z)) :
  hello_ok h → chunks ≠ [] → Forall (fun c => blen c <= 32768) chunks → concat chunks = enc_hello h →
  ServerName (flat_map enc_record chunks) = Ok (ToLower (TrimSuffix (h_name h) (lit ".")), true, None).
Proof.
  intros Hok Hne Hc E. pose proof (flat_map_records_len chunks) as Hlen.
  pose proof (records_built h chunks [] [] (S (length (flat_map enc_record chunks))) Hok Hc Hne E ltac:(lia)) as H.
  cbn [app] in H. change (blen []) with 0 in H. unfold ServerName. destruct chunks as [|c cs]; [done|]. cbn [flat_map] in *.
  pose proof (blen_nonneg c). pose proof (blen_nonneg (flat_map enc_record cs)).
  rewrite (proj2 (Z.ltb_ge _ _)) by (rewrite blen_app, blen_enc_record; lia).
  rewrite idx_ok by (rewrite blen_app, blen_enc_record; lia). rewrite bind_Ok. exact H.
Qed.
End Lemmas.

Definition example_hello : hello :=
  mkHello (replicate 34 7) [1; 2] [19; 1] [0] [(10, [0; 29])] (lit "WWW.Example.com.") [(43, [2; 3; 4])].
Lemma ServerName_roundtrip_witness :
  @ServerName ascii_unicode (flat_map enc_record [take 3 (enc_hello example_hello); []; drop 3 (enc_hello example_hello)])
    = Ok (lit "www.example.com", true, None).
Proof.
  rewrite (@ServerName_roundtrip ascii_unicode example_hello
    [take 3 (enc_hello example_hello); []; drop 3 (enc_hello example_hello)]).
  - vm_compute. reflexivity.
  - split; try (vm_compute; reflexivity); try (split; vm_compute; reflexivity).
    + split; [split|]; vm_compute; reflexivity.
    + constructor; [split; [split|]; vm_compute; reflexivity|constructor].
  - discriminate.
  - repeat constructor; vm_compute; discriminate.
  - vm_compute. reflexivity.
Defined.
Lemma ServerName_incremental_witness :
  ∃ name complete err, @ServerName ascii_unicode (enc_record (enc_hello example_hello)) = Ok (name, complete, err) ∧
    (complete = true → ∀ more, @ServerName ascii_unicode (enc_record (enc_hello example_hello) ++ more) = Ok (name, complete, err)).
Proof.
  exact (@ServerName_incremental ascii_unicode (enc_record (enc_hello example_hello))
    (bytes_okb_ok (enc_record (enc_hello example_hello)) eq_refl)).
Defined.
