(* ===== verification/BrowserDisc.v ===== *)
(** * Browser discovery: [internal/browserdisc/discovery.go]

    [FeedTLS] reassembles the first bytes of a TCP flow until the ClientHello can
    be read; [SuppressUnknownQUIC] blocks UDP to an unknown address for a short
    window.  The clock is an argument (nanoseconds); the state behind the pointer
    [d.tls[k]] is written back to the table. *)

From S2P Require Import Prelude Netip Packet GoStrings FlowIndex TlsHello.
Local Open Scope Z_scope.

Inductive TLSResult : Type := TLSNeedMore | TLSClientHello | TLSNotClientHello.
Record tlsState : Type := mkTls {
  t_buf : list Z; t_nextSeq : Z; t_setSeq : bool; t_expires : Z; t_done : bool; t_result : TLSResult; t_name : list Z
}.
Record quicState : Type := mkQuic { q_blockUntil : Z; q_coolUntil : Z }.
Record Discovery : Type := mkDisc { d_tls : gmap Key tlsState; d_quic : gmap Addr quicState }.

Definition New : Discovery := mkDisc ∅ ∅.
Definition Second : Z := 1000000000.
Definition outcome : Type := list Z * TLSResult.

Section Feed.
Context {U : Unicode}.

(** The part of [FeedTLS] that works on the flow's state. *)
Definition fresh_state (now : Z) : tlsState := mkTls [] 0 false (now + 30 * Second) false TLSNeedMore [].
Definition finish (s : tlsState) (r : TLSResult) (name : list Z) : tlsState * outcome :=
  (mkTls (t_buf s) (t_nextSeq s) (t_setSeq s) (t_expires s) true r name, (name, r)).
Definition with_seq (s : tlsState) (buf : list Z) (next : Z) : tlsState :=
  mkTls buf next true (t_expires s) (t_done s) (t_result s) (t_name s).

(** Everything from the size check on, [s] being at the sequence number of [payload]. *)
Definition append_payload (s : tlsState) (payload : list Z) : Res (tlsState * outcome) :=
  if 64 * 1024 <? blen (t_buf s) + blen payload then
    Ok (fst (finish s TLSNotClientHello (t_name s)), ([], TLSNotClientHello)) else
  let s := with_seq s (t_buf s ++ payload) (u32 (t_nextSeq s + u32 (blen payload))) in
  '(name, complete, parseErr) ← ServerName (t_buf s);
  if negb complete then Ok (s, ([], TLSNeedMore)) else
  match parseErr with
  | Some _ => Ok (fst (finish s TLSNotClientHello (t_name s)), ([], TLSNotClientHello))
  | None => Ok (finish s TLSClientHello name)
  end.

Definition feed_state (s : tlsState) (seq : Z) (payload : list Z) : Res (tlsState * outcome) :=
  if t_done s then Ok (s, (t_name s, t_result s)) else
  let s := if negb (t_setSeq s) then with_seq s (t_buf s) seq else s in
  if seq <? t_nextSeq s then
    let over := t_nextSeq s - seq in
    if blen payload <=? over then Ok (s, ([], TLSNeedMore)) else
    payload ← slice payload over (blen payload);
    append_payload s payload
  else
    let s := if negb (seq =? t_nextSeq s) then with_seq s [] seq else s in
    append_payload s payload.

Definition FeedTLS (now : Z) (k : Key) (raw : list Z) (d : Discovery) : Res (Discovery * outcome) :=
  match ParseTCPInfo raw with
  | Panic => Panic
  | OutOfFuel => OutOfFuel
  | Err _ => Ok (d, ([], TLSNeedMore))
  | Ok (_, ti) =>
      if blen (tiPayload ti) =? 0 then Ok (d, ([], TLSNeedMore)) else
      let s := match d_tls d !! k with
               | None => fresh_state now
               | Some s => if t_expires s <? now then fresh_state now else s
               end in
      '(s, out) ← feed_state s (tiSeq ti) (tiPayload ti);
      Ok (mkDisc (<[k := s]> (d_tls d)) (d_quic d), out)
  end.
End Feed.

Definition DeleteFlow (k : Key) (d : Discovery) : Discovery := mkDisc (delete k (d_tls d)) (d_quic d).

Definition SuppressUnknownQUIC (now : Z) (ip : Addr) (d : Discovery) : Discovery * bool :=
  let ip := Unmap ip in
  let first := (mkDisc (d_tls d) (<[ip := mkQuic (now + 4 * Second) (now + 600 * Second)]> (d_quic d)), true) in
  match d_quic d !! ip with
  | None => first
  | Some s => if q_coolUntil s <? now then first else (d, now <? q_blockUntil s)
  end.

Definition Sweep (now : Z) (d : Discovery) : Discovery :=
  mkDisc (sweep_map (fun s => t_expires s <? now) (d_tls d)) (sweep_map (fun s => q_coolUntil s <? now) (d_quic d)).

(** ** A stream fed in order *)
Section Stream.
Context {U : Unicode}.

Definition verdict (r : result) : outcome :=
  let '(name, complete, err) := r in
  if negb complete then ([], TLSNeedMore) else
  match err with Some _ => ([], TLSNotClientHello) | None => (name, TLSClientHello) end.

Section Flow.
Context (S : list Z) (seq0 : Z).
Hypothesis (HS : bytes_ok S) (HL : blen S <= 65536) (H0 : 0 <= seq0) (H32 : seq0 + blen S < 4294967296).

(** The state of a flow of which the first [c] bytes have been seen. *)
Definition flow_inv (c : Z) (s : tlsState) : Prop :=
  0 <= c <= blen S ∧ t_name s = (if t_done s then t_name s else []) ∧
  if t_done s then
    ∃ c0 r, 0 <= c0 <= c ∧ ServerName (take (Z.to_nat c0) S) = Ok r ∧ complete r = true ∧ (t_name s, t_result s) = verdict r
  else
    t_buf s = take (Z.to_nat c) S ∧
    (if t_setSeq s then t_nextSeq s = seq0 + c ∧ ∃ r, ServerName (take (Z.to_nat c) S) = Ok r ∧ complete r = false else c = 0).

Lemma take_ok c : bytes_ok (take c S).
Proof. by apply Forall_take. Qed.

Lemma take_extends c0 c r : 0 <= c0 <= c → ServerName (take (Z.to_nat c0) S) = Ok r → complete r = true →
  ServerName (take (Z.to_nat c) S) = Ok r.
Proof.
  intros Hc E Hr. destruct (ServerName_spec (take (Z.to_nat c0) S) (take_ok _)) as (r' & E' & Hst).
  assert (r' = r) as -> by congruence.
  replace (take (Z.to_nat c) S) with (take (Z.to_nat c0) S ++ bsub S c0 c).
  - by apply Hst.
  - unfold bsub. replace (Z.to_nat c) with (Z.to_nat c0 + Z.to_nat (c - c0))%nat by lia. apply take_take_drop.
Qed.

Lemma incomplete_verdict r : complete r = false → verdict r = ([], TLSNeedMore).
Proof. destruct r as [[n c] e]. unfold complete. cbn. by intros ->. Qed.

(** Appending the bytes from [c] to [c']. *)
Lemma append_payload_inv c c' s :
  0 <= c < c' → c' <= blen S → t_done s = false → t_name s = [] → t_buf s = take (Z.to_nat c) S → t_nextSeq s = seq0 + c →
  ∃ s' r, append_payload s (bsub S c c') = Ok (s', verdict r) ∧ ServerName (take (Z.to_nat c') S) = Ok r ∧
    flow_inv c' s' ∧ t_expires s' = t_expires s.
Proof.
  intros Hc Hc' Hd Hn Hb Hs. unfold append_payload.
  assert (Hlb : blen (t_buf s) = c) by (rewrite Hb; unfold blen in *; rewrite length_take; lia).
  rewrite Hlb, blen_bsub, (proj2 (Z.ltb_ge _ _)) by lia. cbv zeta.
  assert (EB : t_buf s ++ bsub S c c' = take (Z.to_nat c') S).
  { rewrite Hb. unfold bsub. replace (Z.to_nat c') with (Z.to_nat c + Z.to_nat (c' - c))%nat by lia. apply take_take_drop. }
  destruct (ServerName_spec (take (Z.to_nat c') S) (take_ok _)) as ([[name cpl] err] & E & _).
  cbn [t_buf with_seq]. rewrite EB, E, bind_Ok. rewrite Hs, (u32_small (c' - c)), (u32_small (seq0 + c + (c' - c))) by lia.
  replace (seq0 + c + (c' - c)) with (seq0 + c') by lia.
  destruct cpl; [destruct err as [e|]|]; cbn [negb].
  - eexists _, (name, true, Some e). split_and!; [done|done| |done]. unfold flow_inv. cbn. split_and!; [lia|lia|done|].
    exists c', (name, true, Some e). split_and!; [lia|lia|exact E|done|]. cbn. by rewrite Hn.
  - eexists _, (name, true, None). split_and!; [done|done| |done]. unfold flow_inv. cbn. split_and!; [lia|lia|done|].
    exists c', (name, true, None). by split_and!; [lia|lia|exact E|done|].
  - eexists _, (name, false, err). split_and!; [done|done| |done]. unfold flow_inv. cbn. rewrite Hd.
    split_and!; [lia|lia|done|done|done|]. by exists (name, false, err).
Qed.

Lemma feed_state_inv c off len s :
  flow_inv c s → 0 <= off <= c → 0 < len → off + len <= blen S →
  ∃ s' r, feed_state s (seq0 + off) (bsub S off (off + len)) = Ok (s', verdict r) ∧
    ServerName (take (Z.to_nat (Z.max c (off + len))) S) = Ok r ∧ flow_inv (Z.max c (off + len)) s' ∧ t_expires s' = t_expires s.
Proof.
  intros (Hc & Hname & Hi) Hoff Hlen Hend. unfold feed_state. destruct (t_done s) eqn:Ed.
  - destruct Hi as (c0 & r & Hc0 & Er & Hr & Ev). exists s, r. rewrite Ev. split; [done|].
    split; [by apply (take_extends c0); [lia|..]|]. split; [|done]. unfold flow_inv. rewrite Ed. split_and!; [lia|lia|done|].
    exists c0, r. split_and!; try done; lia.
  - destruct Hi as [Hbuf Hseq]. cbv zeta.
    set (s1 := if negb (t_setSeq s) then with_seq s (t_buf s) (seq0 + off) else s).
    assert (H1 : t_nextSeq s1 = seq0 + c ∧ t_done s1 = false ∧ t_name s1 = [] ∧ t_buf s1 = take (Z.to_nat c) S ∧
      t_setSeq s1 = true ∧ t_expires s1 = t_expires s).
    { unfold s1. destruct (t_setSeq s) eqn:Es; cbn; split_and!; try done; [tauto|lia]. }
    destruct H1 as (N1 & D1 & M1 & B1 & S1 & X1).
    destruct (Z.ltb_spec (seq0 + off) (t_nextSeq s1)) as [Hlt|Hge].
    + rewrite blen_bsub by lia. rewrite N1. replace (seq0 + c - (seq0 + off)) with (c - off) by lia.
      replace (off + len - off) with len by lia. destruct (Z.leb_spec len (c - off)) as [Hdup|Hnew].
      * rewrite Z.max_l by lia. destruct (t_setSeq s) eqn:Es; [|lia]. destruct Hseq as (_ & r & Er & Hr). exists s1, r.
        rewrite incomplete_verdict by done. split; [done|]. split; [done|]. split; [|done]. unfold flow_inv.
        rewrite D1, S1. split_and!; try done; try lia. by exists r.
      * rewrite Z.max_r by lia. rewrite slice_ok by (rewrite ?blen_bsub; lia). rewrite bind_Ok.
        assert (EP : bsub (bsub S off (off + len)) (c - off) len = bsub S c (off + len)).
        { apply bytes_eq; [rewrite !blen_bsub by (rewrite ?blen_bsub; lia); lia|].
          intros i Hi. rewrite blen_bsub in Hi by (rewrite ?blen_bsub; lia). rewrite !gb_bsub by lia. f_equal. lia. }
        rewrite EP. destruct (append_payload_inv c (off + len) s1) as (s' & r & E1 & E2 & E3 & E4); try done; try lia.
        exists s', r. split_and!; try done; try apply E3. congruence.
    + assert (off = c) as -> by lia. rewrite N1, Z.eqb_refl. cbn [negb]. rewrite Z.max_r by lia.
      destruct (append_payload_inv c (c + len) s1) as (s' & r & E1 & E2 & E3 & E4); try done; try lia.
      exists s', r. split_and!; try done; try apply E3. congruence.
Qed.

(** Packets of the flow, in an order without gaps: each carries bytes of the
    stream that start no later than the [c] bytes already covered. *)
Inductive packets_from (deadline : Z) : Z → list (Z * list Z) → Z → Prop :=
  | pf_nil c : packets_from deadline c [] c
  | pf_cons c now raw p ti off rest c' :
      ParseTCPInfo raw = Ok (p, ti) → now <= deadline → 0 <= off <= c → 0 < blen (tiPayload ti) →
      off + blen (tiPayload ti) <= blen S → tiSeq ti = seq0 + off →
      tiPayload ti = bsub S off (off + blen (tiPayload ti)) →
      packets_from deadline (Z.max c (off + blen (tiPayload ti))) rest c' →
      packets_from deadline c ((now, raw) :: rest) c'.
End Flow.

(** Feed all packets; the outcome of the last one. *)
Fixpoint feed_all (k : Key) (l : list (Z * list Z)) (d : Discovery) (last : outcome) : Res (Discovery * outcome) :=
  match l with
  | [] => Ok (d, last)
  | (now, raw) :: rest => '(d, out) ← FeedTLS now k raw d; feed_all k rest d out
  end.

Lemma feed_all_inv S seq0 deadline c l c' :
  bytes_ok S → blen S <= 65536 → 0 <= seq0 → seq0 + blen S < 4294967296 →
  packets_from S seq0 deadline c l c' →
  ∀ k d s last r, d_tls d !! k = Some s → flow_inv S seq0 c s → t_expires s = deadline →
    ServerName (take (Z.to_nat c) S) = Ok r → last = verdict r →
  ∃ d' r', feed_all k l d last = Ok (d', verdict r') ∧ ServerName (take (Z.to_nat c') S) = Ok r'.
Proof.
  intros HS HL H0 H32. induction 1 as [c|c now raw p ti off rest c' EP Hnow Hoff Hl Hend Hseq Hpay _ IH];
    intros k d s last r Hk Hinv Hexp Er ->; cbn [feed_all]; [eauto|].
  unfold FeedTLS. rewrite EP, (proj2 (Z.eqb_neq _ 0)) by lia. rewrite Hk, Hexp, (proj2 (Z.ltb_ge _ now)) by lia. cbv zeta.
  destruct (feed_state_inv S seq0 HS HL H0 H32 c off (blen (tiPayload ti)) s Hinv Hoff Hl Hend) as (s' & r' & E1 & E2 & E3 & E4).
  rewrite Hseq, Hpay, E1, !bind_Ok. apply (IH k _ s' _ r'); try done; [apply lookup_insert_eq|congruence].
Qed.

(** ** Properties *)

(** C39: The hello is found in the stream, however it is cut: when the packets
    of a flow for which nothing is kept yet arrive within its 30 seconds without gaps
    (retransmissions and overlaps included), cover at most 64 KiB and the sequence
    numbers do not wrap, every answer, the last one in particular, is the verdict on
    exactly the bytes covered so far: more is needed, no ClientHello, or the server
    name.  Nothing panics.  ([FeedTLS_wraparound] shows what a wrap does.) *)
Theorem FeedTLS_stream (S : list Z) (seq0 t0 : Z) (raw0 : list Z) (rest : list (Z * list Z)) (c : Z) (k : Key) (d : Discovery) :
  bytes_ok S → blen S <= 65536 → 0 <= seq0 → seq0 + blen S < 4294967296 →
  d_tls d !! k = None → packets_from S seq0 (t0 + 30 * Second) 0 ((t0, raw0) :: rest) c →
  ∃ d' r, feed_all k ((t0, raw0) :: rest) d ([], TLSNeedMore) = Ok (d', verdict r) ∧
    ServerName (take (Z.to_nat c) S) = Ok r.
Proof.
  intros HS HL H0 H32 Hk HP. inversion HP as [|? ? ? p ti off ? ? EP Hnow Hoff Hl Hend Hseq Hpay Hrest]; subst.
  cbn [feed_all]. unfold FeedTLS at 1. rewrite EP, (proj2 (Z.eqb_neq _ 0)) by lia. rewrite Hk. cbv zeta.
  assert (Hi : flow_inv S seq0 0 (fresh_state t0)).
  { unfold flow_inv. cbn. split_and!; try done. pose proof (blen_nonneg S). lia. }
  destruct (feed_state_inv S seq0 HS HL H0 H32 0 off (blen (tiPayload ti)) _ Hi Hoff Hl Hend) as (s' & r & E1 & E2 & E3 & E4).
  rewrite Hseq, Hpay, E1, !bind_Ok.
  apply (feed_all_inv S seq0 (t0 + 30 * Second) _ rest c HS HL H0 H32 Hrest k _ s' _ r); try done. apply lookup_insert_eq.
Qed.
End Stream.

(** A TCP packet over IPv4 with a sequence number and payload. *)
Definition tcp_packet (seq : Z) (payload : list Z) : list Z :=
  [69; 0] ++ enc16 (40 + blen payload) ++ [0; 0; 0; 0; 64; 6; 0; 0; 10; 0; 0; 2; 1; 1; 1; 1] ++
  [19; 136; 1; 187] ++ enc32 seq ++ [0; 0; 0; 0; 80; 16; 255; 255; 0; 0; 0; 0] ++ payload.
Definition hello_stream : list Z := enc_record (enc_hello example_hello).
Definition segment (seq0 lo hi : Z) : list Z := tcp_packet (u32 (seq0 + lo)) (bsub hello_stream lo hi).
Definition example_key : Key := mkKey 6 (Addr4 [10; 0; 0; 2]) (Addr4 [1; 1; 1; 1]) 5000 443.

(** Three segments, the second of which is sent twice. *)
Definition retransmitted (seq0 : Z) : list (Z * list Z) :=
  [(0, segment seq0 0 10); (1, segment seq0 10 40); (2, segment seq0 10 40); (3, segment seq0 40 (blen hello_stream))].

Lemma FeedTLS_stream_witness :
  ∃ d' r, @feed_all ascii_unicode example_key (retransmitted 1000) New ([], TLSNeedMore) = Ok (d', verdict r) ∧
    @ServerName ascii_unicode (take (Z.to_nat (blen hello_stream)) hello_stream) = Ok r.
Proof.
  apply (@FeedTLS_stream ascii_unicode hello_stream 1000 0 (segment 1000 0 10)
    [(1, segment 1000 10 40); (2, segment 1000 10 40); (3, segment 1000 40 (blen hello_stream))]
    (blen hello_stream) example_key New).
  - apply bytes_okb_ok. vm_compute. reflexivity.
  - vm_compute. discriminate.
  - lia.
  - vm_compute. reflexivity.
  - reflexivity.
  - eapply (pf_cons _ _ _ _ _ _ _ _ 0); [vm_compute; reflexivity|..]; try (vm_compute; (reflexivity || (split; discriminate) || discriminate)).
    eapply (pf_cons _ _ _ _ _ _ _ _ 10); [vm_compute; reflexivity|..]; try (vm_compute; (reflexivity || (split; discriminate) || discriminate)).
    eapply (pf_cons _ _ _ _ _ _ _ _ 10); [vm_compute; reflexivity|..]; try (vm_compute; (reflexivity || (split; discriminate) || discriminate)).
    eapply (pf_cons _ _ _ _ _ _ _ _ 40); [vm_compute; reflexivity|..]; try (vm_compute; (reflexivity || (split; discriminate) || discriminate)).
    vm_compute. constructor.
Defined.

(** Sequence numbers are compared without regard to wrap-around: the same
    packets, with the same retransmission, give the server name when the initial
    sequence number is 1000, and "no ClientHello" when the sequence space wraps
    between the retransmitted segment and its successor, because the retransmission
    is then taken for a gap and the bytes before it are dropped. *)
Theorem FeedTLS_wraparound :
  (∃ d, @feed_all ascii_unicode example_key (retransmitted 1000) New ([], TLSNeedMore) =
     Ok (d, (lit "www.example.com", TLSClientHello))) ∧
  (∃ d, @feed_all ascii_unicode example_key (retransmitted 4294967276) New ([], TLSNeedMore) =
     Ok (d, ([], TLSNotClientHello))).
Proof. split; eexists; vm_compute; reflexivity. Qed.

(** ** QUIC *)
Inductive qop : Type := QSuppress (now : Z) (ip : Addr) | QSweep (now : Z).
Definition qstep (o : qop) (d : Discovery) : Discovery :=
  match o with QSuppress now ip => fst (SuppressUnknownQUIC now ip d) | QSweep now => Sweep now d end.
Definition qrun (ops : list qop) (d : Discovery) : Discovery := fold_left (fun d o => qstep o d) ops d.
Definition qtime (o : qop) : Z := match o with QSuppress now _ => now | QSweep now => now end.

Lemma qrun_keeps ops d ip s :
  d_quic d !! Unmap ip = Some s → Forall (fun o => qtime o <= q_coolUntil s) ops → d_quic (qrun ops d) !! Unmap ip = Some s.
Proof.
  intros Hd H. revert d Hd. induction H as [|o ops Ho H IH]; intros d Hd; [done|]. cbn. apply IH.
  destruct o as [now ip'|now]; cbn in *.
  - unfold SuppressUnknownQUIC. cbv zeta. destruct (d_quic d !! Unmap ip') as [s'|] eqn:E.
    + destruct (Z.ltb_spec (q_coolUntil s') now); [|done]. cbn. rewrite lookup_insert_ne; [done|]. intros Eu.
      rewrite Eu in E. assert (s' = s) as -> by congruence. lia.
    + cbn. rewrite lookup_insert_ne; [done|]. intros Eu. congruence.
  - rewrite sweep_map_lookup, Hd. cbn. by rewrite (proj2 (Z.ltb_ge _ _)) by lia.
Qed.

(** QUIC to an unknown address is blocked once, briefly: the first packet
    (or the first after the cool-down) is suppressed and opens a window; whatever
    happens for other addresses and however often the table is swept during the ten
    minutes after it, a packet to the address, written as IPv4 or IPv4-mapped, is
    suppressed exactly in the first four seconds. *)
Theorem quic_window (t0 now : Z) (ip ip' : Addr) (ops : list qop) (d : Discovery) :
  (∀ s, d_quic d !! Unmap ip = Some s → q_coolUntil s < t0) → Unmap ip' = Unmap ip →
  Forall (fun o => qtime o <= t0 + 600 * Second) ops → now <= t0 + 600 * Second →
  let '(d1, first) := SuppressUnknownQUIC t0 ip d in
  first = true ∧ snd (SuppressUnknownQUIC now ip' (qrun ops d1)) = (now <? t0 + 4 * Second).
Proof.
  intros Hold Hip Hops Hnow.
  assert (E : SuppressUnknownQUIC t0 ip d =
    (mkDisc (d_tls d) (<[Unmap ip := mkQuic (t0 + 4 * Second) (t0 + 600 * Second)]> (d_quic d)), true)).
  { unfold SuppressUnknownQUIC. cbv zeta. destruct (d_quic d !! Unmap ip) as [s|]; [|done].
    by rewrite (proj2 (Z.ltb_lt _ _) (Hold s eq_refl)). }
  rewrite E. split; [done|].
  pose proof (qrun_keeps ops (mkDisc (d_tls d) (<[Unmap ip := mkQuic (t0 + 4 * Second) (t0 + 600 * Second)]> (d_quic d))) ip
    (mkQuic (t0 + 4 * Second) (t0 + 600 * Second)) (lookup_insert_eq _ _ _) Hops) as HK.
  unfold SuppressUnknownQUIC. cbv zeta. rewrite Hip, HK. cbn [q_coolUntil q_blockUntil].
  by rewrite (proj2 (Z.ltb_ge _ now)) by lia.
Qed.

Lemma quic_window_witness :
  let '(d1, first) := SuppressUnknownQUIC 100 (Addr4 [1; 1; 1; 1]) New in
  first = true ∧
  snd (SuppressUnknownQUIC 5000000000 (Addr6 (mapped_prefix ++ [1; 1; 1; 1]))
    (qrun [QSuppress 200 (Addr4 [8; 8; 8; 8]); QSweep 300] d1)) = false.
Proof.
  exact (quic_window 100 5000000000 (Addr4 [1; 1; 1; 1]) (Addr6 (mapped_prefix ++ [1; 1; 1; 1]))
    [QSuppress 200 (Addr4 [8; 8; 8; 8]); QSweep 300] New
    (fun s H => match H in _ = o return match o with Some _ => _ | None => True end with eq_refl => I end) eq_refl
    ltac:(repeat constructor; cbv; discriminate) ltac:(cbv; discriminate)).
Defined.
