(* ===== verification/LogHub.v ===== *)
(** * The log: [internal/loghub/loghub.go]

    [Hub] passes every record to all sinks; a sink is a function on a world that
    the sinks share ([None] is a nil writer).  [Ring] is the bounded history with
    a delta for the user interface; [r_notify] tells whether a callback is set, and
    the operations that may call it return whether they do. *)

From S2P Require Import Prelude.
Local Open Scope Z_scope.

(** ** Hub *)
Section Hub.
Context {W : Type}.
Definition Writer : Type := W → list Z → W * (Z * option string).
Definition Hub : Type := list Writer.

Fixpoint New (writers : list (option Writer)) : Hub :=
  match writers with
  | [] => []
  | Some w :: rest => w :: New rest
  | None :: rest => New rest
  end.
Definition Add (w : option Writer) (h : Hub) : Hub := match w with Some w => h ++ [w] | None => h end.

(** [errors.Join] of the errors is the list of their texts; no error is [[]]. *)
Fixpoint write_loop (ws : list Writer) (p : list Z) (w : W) (errs : list string) : W * list string :=
  match ws with
  | [] => (w, errs)
  | wr :: rest =>
      let '(w, (n, err)) := wr w p in
      write_loop rest p w
        (match err with
         | Some e => errs ++ [e]
         | None => if negb (n =? blen p) then errs ++ ["short write"] else errs
         end)
  end.
Definition Write (h : Hub) (p : list Z) (w : W) : W * (Z * list string) :=
  if blen h =? 0 then (w, (blen p, [])) else
  let '(w, errs) := write_loop h p w [] in (w, (blen p, errs)).
End Hub.

(** ** Ring *)
Record Drain : Type := mkDrain { Text : list Z; Replace : bool }.
Record Ring : Type := mkRing {
  r_buf : list Z; r_pending : list Z; r_maxBytes : Z; r_notify : bool; r_notified : bool; r_resync : bool
}.

Definition NewRing (maxBytes : Z) : Ring :=
  mkRing [] [] (if maxBytes <? 4096 then 4096 else maxBytes) false false false.

Definition appendHistoryLocked (p : list Z) (r : Ring) : Res Ring :=
  let with_buf buf := mkRing buf (r_pending r) (r_maxBytes r) (r_notify r) (r_notified r) (r_resync r) in
  if r_maxBytes r <=? blen p then
    tail ← slice p (blen p - r_maxBytes r) (blen p);
    Ok (with_buf tail)
  else
    let need := blen (r_buf r) + blen p - r_maxBytes r in
    buf ← (if 0 <? need then
             tail ← slice (r_buf r) need (blen (r_buf r));
             buf ← copy_into (r_buf r) 0 (blen (r_buf r)) tail;
             slice buf 0 (blen buf - need)
           else Ok (r_buf r));
    Ok (with_buf (buf ++ p)).

Definition Seed (p : list Z) (r : Ring) : Res Ring :=
  r ← appendHistoryLocked p r;
  Ok (mkRing (r_buf r) [] (r_maxBytes r) (r_notify r) (r_notified r) true).

Definition SetNotify (fn : bool) (r : Ring) : Ring * bool :=
  let should := fn && (r_resync r || negb (blen (r_pending r) =? 0)) && negb (r_notified r) in
  (mkRing (r_buf r) (r_pending r) (r_maxBytes r) fn (if should then true else r_notified r) (r_resync r), should).

Definition ring_Write (p : list Z) (r : Ring) : Res (Ring * bool * Z) :=
  r ← appendHistoryLocked p r;
  let '(pending, resync) :=
    if negb (r_resync r) then
      if (r_maxBytes r <=? blen p) || (r_maxBytes r <? blen (r_pending r) + blen p) then ([], true)
      else (r_pending r ++ p, false)
    else (r_pending r, r_resync r) in
  let should := r_notify r && negb (r_notified r) in
  Ok (mkRing (r_buf r) pending (r_maxBytes r) (r_notify r) (if should then true else r_notified r) resync, should, blen p).

Definition Snapshot (r : Ring) : list Z := r_buf r.

Definition DrainAndAck (r : Ring) : Ring * Drain :=
  let d := if r_resync r then mkDrain (r_buf r) true else mkDrain (r_pending r) false in
  (mkRing (r_buf r) [] (r_maxBytes r) (r_notify r) false false, d).
Definition SnapshotAndAck (r : Ring) : Ring * list Z := let '(r, d) := DrainAndAck r in (r, Text d).

Definition Clear (r : Ring) : Ring := mkRing [] [] (r_maxBytes r) (r_notify r) false false.

(** ** The ring with its consumer

    The consumer shows [view]; [log] is everything logged since the last clear and
    [posted] whether it has been woken since it last asked. *)
Inductive op : Type :=
  | OpSeed (p : list Z) | OpWrite (p : list Z) | OpSetNotify (fn : bool) | OpDrain | OpClear.
Record sys : Type := mkSys { s_ring : Ring; s_view : list Z; s_log : list Z; s_posted : bool }.

Definition show (d : Drain) (view : list Z) : list Z := if Replace d then Text d else view ++ Text d.
Definition step (o : op) (s : sys) : Res sys :=
  match o with
  | OpSeed p => r ← Seed p (s_ring s); Ok (mkSys r (s_view s) (s_log s ++ p) (s_posted s))
  | OpWrite p =>
      '(r, woken, _) ← ring_Write p (s_ring s);
      Ok (mkSys r (s_view s) (s_log s ++ p) (s_posted s || woken))
  | OpSetNotify fn => let '(r, woken) := SetNotify fn (s_ring s) in Ok (mkSys r (s_view s) (s_log s) (s_posted s || woken))
  | OpDrain => let '(r, d) := DrainAndAck (s_ring s) in Ok (mkSys r (show d (s_view s)) (s_log s) false)
  | OpClear => Ok (mkSys (Clear (s_ring s)) [] [] false)
  end.
Fixpoint run (ops : list op) (s : sys) : Res sys :=
  match ops with
  | [] => Ok s
  | o :: rest => s ← step o s; run rest s
  end.
Definition init (maxBytes : Z) : sys := mkSys (NewRing maxBytes) [] [] false.

(** The last [n] bytes. *)
Definition last_bytes (n : Z) (l : list Z) : list Z := drop (length l - Z.to_nat n) l.

Lemma last_bytes_app n a p : 0 <= n → last_bytes n (last_bytes n a ++ p) = last_bytes n (a ++ p).
Proof.
  intros Hn. unfold last_bytes. rewrite !length_app, length_drop.
  destruct (decide (length a <= Z.to_nat n)%nat) as [H|H].
  - replace (length a - Z.to_nat n)%nat with 0%nat by lia. rewrite drop_0. f_equal. lia.
  - replace (a ++ p) with (take (length a - Z.to_nat n) a ++ drop (length a - Z.to_nat n) a ++ p)
      by (by rewrite app_assoc, take_drop).
    rewrite (drop_app_ge (take _ a)) by (rewrite length_take; lia). f_equal. rewrite length_take. lia.
Qed.
Lemma last_bytes_le n l : blen l <= n → last_bytes n l = l.
Proof. intros H. unfold last_bytes, blen in *. by replace (length l - Z.to_nat n)%nat with 0%nat by lia. Qed.
Lemma last_bytes_len n l : 0 <= n → blen (last_bytes n l) <= n.
Proof. intros H. unfold last_bytes, blen. rewrite length_drop. lia. Qed.

Lemma append_spec p r : 0 < r_maxBytes r → blen (r_buf r) <= r_maxBytes r →
  appendHistoryLocked p r =
    Ok (mkRing (last_bytes (r_maxBytes r) (r_buf r ++ p)) (r_pending r) (r_maxBytes r) (r_notify r) (r_notified r) (r_resync r)).
Proof.
  intros Hm Hb. unfold appendHistoryLocked. cbv zeta. pose proof (blen_nonneg p). pose proof (blen_nonneg (r_buf r)).
  destruct (Z.leb_spec (r_maxBytes r) (blen p)) as [Hp|Hp].
  - go_ops. do 2 f_equal. unfold last_bytes, bsub, blen in *. rewrite length_app.
    rewrite drop_app_ge by lia. rewrite take_ge by (rewrite length_drop; lia). f_equal. lia.
  - destruct (Z.ltb_spec 0 (blen (r_buf r) + blen p - r_maxBytes r)) as [Hn|Hn].
    + set (need := blen (r_buf r) + blen p - r_maxBytes r) in *.
      rewrite slice_ok by lia. rewrite bind_Ok. rewrite copy_into_ok by (rewrite ?blen_bsub by lia; lia). rewrite bind_Ok.
      rewrite blen_bcopy by lia. rewrite slice_ok by (rewrite ?blen_bcopy by lia; lia). rewrite bind_Ok. do 2 f_equal.
      assert (E : bsub (bcopy (r_buf r) 0 (bsub (r_buf r) need (blen (r_buf r)))) 0 (blen (r_buf r) - need) =
        bsub (r_buf r) need (blen (r_buf r))).
      { pose proof (bsub_bcopy_same (r_buf r) 0 (bsub (r_buf r) need (blen (r_buf r))) ltac:(lia)) as B.
        rewrite blen_bsub in B by lia. apply B. lia. }
      rewrite E. unfold last_bytes, bsub, blen in *. rewrite length_app.
      rewrite take_ge by (rewrite length_drop; lia). rewrite drop_app_le by lia. do 2 f_equal. lia.
    + rewrite bind_Ok. rewrite last_bytes_le by (rewrite blen_app; lia). done.
Qed.

Ltac fields := cbn [s_ring s_view s_log s_posted r_buf r_pending r_maxBytes r_notify r_notified r_resync Text Replace].
Definition stale (r : Ring) : Prop := r_resync r = true ∨ r_pending r ≠ [].

Record sys_ok (n : Z) (s : sys) : Prop := {
  so_max : r_maxBytes (s_ring s) = n ∧ 4096 <= n;
  so_buf : r_buf (s_ring s) = last_bytes n (s_log s);
  so_pending : blen (r_pending (s_ring s)) <= n;
  so_resync : r_resync (s_ring s) = true → r_pending (s_ring s) = [];
  so_view : r_resync (s_ring s) = false → last_bytes n (s_view s ++ r_pending (s_ring s)) = last_bytes n (s_log s)
}.

Lemma step_ok n o s : sys_ok n s → ∃ s', step o s = Ok s' ∧ sys_ok n s'.
Proof.
  intros [[Hm Hn] Hb Hp Hr Hv]. set (r := s_ring s) in *.
  assert (Hbl : blen (r_buf r) <= n) by (rewrite Hb; apply last_bytes_len; lia).
  assert (EA : ∀ p, appendHistoryLocked p r =
    Ok (mkRing (last_bytes n (s_log s ++ p)) (r_pending r) n (r_notify r) (r_notified r) (r_resync r))).
  { intros p. rewrite append_spec by lia. rewrite Hm, Hb. by rewrite last_bytes_app by lia. }
  destruct o as [p|p|fn| |]; cbn [step]; fold r.
  - unfold Seed. rewrite EA. eexists. split; [done|]. split; fields; try done; unfold blen; cbn; lia.
  - unfold ring_Write. rewrite EA, bind_Ok. cbn [r_buf r_pending r_maxBytes r_notify r_notified r_resync].
    destruct (r_resync r) eqn:Er; cbn [negb].
    + eexists. split; [done|]. split; fields; done.
    + destruct ((n <=? blen p) || (n <? blen (r_pending r) + blen p)) eqn:Ec.
      * eexists. split; [done|]. split; fields; try done; unfold blen; cbn; lia.
      * zbool. eexists. split; [done|]. split; fields; try done.
        -- rewrite blen_app. lia.
        -- intros _. rewrite app_assoc, <- last_bytes_app by lia. rewrite Hv by done. apply last_bytes_app; lia.
  - unfold SetNotify. eexists. split; [done|]. split; fields; done.
  - unfold DrainAndAck. eexists. split; [done|]. destruct (r_resync r) eqn:Er; (split; fields; try done; try (unfold blen; cbn; lia)); intros _;
      rewrite app_nil_r; unfold show; fields.
    + rewrite Hb. unfold r. pose proof (last_bytes_app n (s_log s) [] ltac:(lia)) as E. by rewrite !app_nil_r in E.
    + by apply Hv.
  - eexists. split; [done|]. split; fields; try done; unfold blen; cbn; lia.
Qed.

Lemma run_ok n ops s : sys_ok n s → ∃ s', run ops s = Ok s' ∧ sys_ok n s'.
Proof.
  revert s. induction ops as [|o ops IH]; intros s H; cbn [run]; [eauto|].
  destruct (step_ok n o s H) as (s1 & -> & H1). rewrite bind_Ok. by apply IH.
Qed.
Lemma init_ok m : sys_ok (if m <? 4096 then 4096 else m) (init m).
Proof. split; cbn; try done; destruct (Z.ltb_spec m 4096); try split; unfold blen; cbn; lia. Qed.

(** ** Properties *)

(** C40: The log window never lies.  After any sequence of seeds, writes,
    callback changes, drains and clears no operation has panicked, the snapshot is
    exactly the last [maxBytes] bytes logged since the last clear, memory stays
    bounded by it, and one more drain (a full replacement or just the delta) makes
    the end of the consumer's text exactly that. *)
Theorem ring_consumer_consistent (maxBytes : Z) (ops : list op) :
  let n := if maxBytes <? 4096 then 4096 else maxBytes in
  ∃ s s', run ops (init maxBytes) = Ok s ∧ run (ops ++ [OpDrain]) (init maxBytes) = Ok s' ∧
    Snapshot (s_ring s) = last_bytes n (s_log s) ∧
    blen (r_buf (s_ring s)) <= n ∧ blen (r_pending (s_ring s)) <= n ∧
    s_log s' = s_log s ∧ last_bytes n (s_view s') = last_bytes n (s_log s).
Proof.
  cbv zeta. set (n := if maxBytes <? 4096 then 4096 else maxBytes).
  assert (R : ∀ ops s0, run (ops ++ [OpDrain]) s0 = s ← run ops s0; step OpDrain s).
  { intros l. induction l as [|o l IH]; intros s0; cbn [run app].
    - rewrite bind_Ok. destruct (step OpDrain s0); done.
    - destruct (step o s0); try done. rewrite !bind_Ok. apply IH. }
  destruct (run_ok n ops _ (init_ok maxBytes)) as (s & E & Hs). rewrite R, E, bind_Ok.
  destruct (step_ok n OpDrain s Hs) as (s' & E' & Hs'). exists s, s'. destruct Hs as [[Hm Hn] Hb Hp Hr Hv].
  assert (Hl : s_log s' = s_log s ∧ r_resync (s_ring s') = false ∧ r_pending (s_ring s') = [])
    by (cbn in E'; by injection E' as <-).
  destruct Hl as (Hl & Hr' & Hp'). destruct Hs' as [_ _ _ _ Hv']. specialize (Hv' Hr').
  rewrite Hp', app_nil_r in Hv'. split_and!; try done; [|congruence]. rewrite Hb. apply last_bytes_len. lia.
Qed.

(** Seeds happen before the callback is set. *)
Fixpoint seeds_first (ops : list op) (set : bool) : Prop :=
  match ops with
  | [] => True
  | OpSeed _ :: rest => set = false ∧ seeds_first rest set
  | OpSetNotify fn :: rest => seeds_first rest fn
  | _ :: rest => seeds_first rest set
  end.

Definition wake_ok (s : sys) : Prop :=
  (r_notified (s_ring s) = true → s_posted s = true) ∧
  (r_notify (s_ring s) = true → stale (s_ring s) → r_notified (s_ring s) = true).

Lemma run_wake ops s n : sys_ok n s → wake_ok s → seeds_first ops (r_notify (s_ring s)) →
  ∃ s', run ops s = Ok s' ∧ wake_ok s'.
Proof.
  revert s. induction ops as [|o ops IH]; intros s H [W1 W2] Hf; cbn [run]; [exists s; split; [done|by split]|].
  destruct (step_ok n o s H) as (s1 & E & H1). rewrite E, bind_Ok. apply IH; [done| |]; clear IH H1.
  - destruct H as [[Hm Hn] Hb Hp Hr Hv]. set (r := s_ring s) in *.
    assert (Hbl : blen (r_buf r) <= n) by (rewrite Hb; apply last_bytes_len; lia).
    destruct o as [p|p|fn| |]; cbn [step] in E; fold r in E.
    + destruct Hf as [Hf _]. unfold Seed in E. rewrite append_spec in E by lia. injection E as <-.
      split; cbn; [done|]. intros. congruence.
    + unfold ring_Write in E. rewrite append_spec in E by lia. rewrite bind_Ok in E. cbv zeta in E.
      destruct (if negb _ then _ else _) as [pending resync]. injection E as <-. unfold wake_ok. cbn.
      destruct (r_notify r), (r_notified r) eqn:En; cbn; rewrite ?orb_true_r, ?orb_false_r; try done; by rewrite W1.
    + unfold SetNotify in E. cbv zeta in E. injection E as <-. unfold wake_ok, stale. cbn.
      destruct fn; cbn; [|by rewrite orb_false_r].
      destruct (r_resync r || negb (blen (r_pending r) =? 0)) eqn:Es; cbn.
      * destruct (r_notified r) eqn:En; cbn; rewrite ?orb_true_r, ?orb_false_r; [by rewrite W1|done].
      * rewrite orb_false_r. apply orb_false_iff in Es as [Es1 Es2]. zbool. apply blen_0_nil in Es2. split; [done|].
        intros _ [?|?]; congruence.
    + injection E as <-. split; cbn; [done|]. intros _ [?|?]; done.
    + injection E as <-. split; cbn; [done|]. intros _ [?|?]; done.
  - destruct o as [p|p|fn| |]; cbn [step seeds_first] in *.
    + destruct Hf as [_ Hf]. unfold Seed in E. destruct H as [[Hm Hn] Hb Hp Hr Hv].
      assert (Hbl : blen (r_buf (s_ring s)) <= n) by (rewrite Hb; apply last_bytes_len; lia).
      rewrite append_spec in E by lia. by injection E as <-.
    + unfold ring_Write in E. destruct H as [[Hm Hn] Hb Hp Hr Hv].
      assert (Hbl : blen (r_buf (s_ring s)) <= n) by (rewrite Hb; apply last_bytes_len; lia).
      rewrite append_spec in E by lia. rewrite bind_Ok in E. cbv zeta in E.
      destruct (if negb _ then _ else _) as [pending resync]. by injection E as <-.
    + by injection E as <-.
    + by injection E as <-.
    + by injection E as <-.
Qed.

(** No update is lost: with the callback set (after the history was
    seeded), whenever the consumer's text is out of date it has been woken since it
    last asked. *)
Theorem ring_no_lost_wakeup (maxBytes : Z) (ops : list op) :
  seeds_first ops false →
  ∃ s, run ops (init maxBytes) = Ok s ∧
    (r_notify (s_ring s) = true → stale (s_ring s) → s_posted s = true).
Proof.
  intros Hf. destruct (run_wake ops (init maxBytes) _ (init_ok maxBytes)) as (s & E & W1 & W2).
  - split; cbn; done.
  - done.
  - exists s. split; [done|]. auto.
Qed.

Lemma ring_no_lost_wakeup_witness :
  ∃ s, run [OpSeed [1]; OpSetNotify true; OpDrain; OpWrite [2; 3]] (init 0) = Ok s ∧
    (r_notify (s_ring s) = true → stale (s_ring s) → s_posted s = true).
Proof.
  apply (ring_no_lost_wakeup 0 [OpSeed [1]; OpSetNotify true; OpDrain; OpWrite [2; 3]]). cbn. auto.
Defined.
