(* ===== verification/Crypto.v ===== *)
(** * Cryptography: [internal/cryptox] (blake2s.go, chacha_core.go, aead.go, aead_other.go)

    BLAKE2s with its HMAC and key derivation, ChaCha20, Poly1305 and the AEADs.
    Fixed-size arrays are lists of that length, read with the total accessor
    [gb]; slices are checked.  [math/big] is [Z].  The class [AEAD] is the Go
    interface with what its clients rely on; [pureAEAD] is the portable
    implementation (on Windows the system's is used instead: Cng.v). *)

From S2P Require Import Prelude Netip.
Local Open Scope Z_scope.

(** ** Words *)
Definition le32_at (b : list Z) (i : Z) : Z :=
  gb b i + gb b (i + 1) * 256 + gb b (i + 2) * 65536 + gb b (i + 3) * 16777216.
Definition le32 (b : list Z) (i : Z) : Res Z :=
  if (0 <=? i) && (i + 4 <=? blen b) then Ok (le32_at b i) else Panic.
Definition put_le32 (v : Z) : list Z :=
  [v `mod` 256; (v `div` 256) `mod` 256; (v `div` 65536) `mod` 256; (v `div` 16777216) `mod` 256].
Definition put_le64 (v : Z) : list Z := put_le32 (v `mod` 4294967296) ++ put_le32 ((v `div` 4294967296) `mod` 4294967296).

Definition ror (x n : Z) : Z := Z.lor (Z.shiftr x n) (u32 (Z.shiftl x (32 - n))).
Definition rol (x n : Z) : Z := Z.lor (u32 (Z.shiftl x n)) (Z.shiftr x (32 - n)).

(** Sixteen words from a 64-byte block. *)
Definition words16 (block : list Z) : list Z := map (fun i => le32_at block (Z.of_nat i * 4)) (seq 0 16).

(** ** BLAKE2s *)
Definition blakeIV : list Z :=
  [0x6A09E667; 0xBB67AE85; 0x3C6EF372; 0xA54FF53A; 0x510E527F; 0x9B05688C; 0x1F83D9AB; 0x5BE0CD19].
Definition sigma : list (list Z) := [
  [0; 1; 2; 3; 4; 5; 6; 7; 8; 9; 10; 11; 12; 13; 14; 15];
  [14; 10; 4; 8; 9; 15; 13; 6; 1; 12; 0; 2; 11; 7; 5; 3];
  [11; 8; 12; 0; 5; 2; 15; 13; 10; 14; 3; 6; 7; 1; 9; 4];
  [7; 9; 3; 1; 13; 12; 11; 14; 2; 6; 5; 10; 4; 0; 15; 8];
  [9; 0; 5; 7; 2; 4; 10; 15; 14; 1; 11; 12; 6; 8; 3; 13];
  [2; 12; 6; 10; 0; 11; 8; 3; 4; 13; 7; 5; 15; 14; 1; 9];
  [12; 5; 1; 15; 14; 13; 4; 10; 0; 7; 6; 3; 9; 2; 8; 11];
  [13; 11; 7; 14; 12; 1; 3; 9; 5; 0; 15; 4; 8; 6; 2; 10];
  [6; 15; 14; 9; 11; 3; 0; 8; 12; 2; 13; 7; 1; 4; 10; 5];
  [10; 2; 8; 4; 7; 6; 1; 5; 15; 11; 9; 14; 3; 12; 13; 0]].

(** The closure [g] of [compress]. *)
Definition mix (a b c d x y : Z) (v : list Z) : list Z :=
  let v := bset v a (u32 (gb v a + gb v b + x)) in
  let v := bset v d (ror (Z.lxor (gb v d) (gb v a)) 16) in
  let v := bset v c (u32 (gb v c + gb v d)) in
  let v := bset v b (ror (Z.lxor (gb v b) (gb v c)) 12) in
  let v := bset v a (u32 (gb v a + gb v b + y)) in
  let v := bset v d (ror (Z.lxor (gb v d) (gb v a)) 8) in
  let v := bset v c (u32 (gb v c + gb v d)) in
  bset v b (ror (Z.lxor (gb v b) (gb v c)) 7).
Definition blake_round (m : list Z) (v : list Z) (s : list Z) : list Z :=
  let w i := gb m (gb s i) in
  let v := mix 0 4 8 12 (w 0) (w 1) v in
  let v := mix 1 5 9 13 (w 2) (w 3) v in
  let v := mix 2 6 10 14 (w 4) (w 5) v in
  let v := mix 3 7 11 15 (w 6) (w 7) v in
  let v := mix 0 5 10 15 (w 8) (w 9) v in
  let v := mix 1 6 11 12 (w 10) (w 11) v in
  let v := mix 2 7 8 13 (w 12) (w 13) v in
  mix 3 4 9 14 (w 14) (w 15) v.
Definition compress (h : list Z) (block : list Z) (t : Z) (last : bool) : list Z :=
  let m := words16 block in
  let v := h ++ blakeIV in
  let v := bset v 12 (Z.lxor (gb v 12) (u32 t)) in
  let v := bset v 13 (Z.lxor (gb v 13) (u32 (Z.shiftr t 32))) in
  let v := if last then bset v 14 (Z.lxor (gb v 14) 0xFFFFFFFF) else v in
  let v := fold_left (blake_round m) sigma v in
  map (fun i => Z.lxor (gb h (Z.of_nat i)) (Z.lxor (gb v (Z.of_nat i)) (gb v (Z.of_nat i + 8)))) (seq 0 8).

(** A 64-byte array that begins with [msg]. *)
Definition block64 (msg : list Z) : list Z := take 64 (msg ++ zeros 64).

(** The loop over full blocks; every round takes 64 bytes. *)
Fixpoint blake_blocks (fuel : nat) (h msg : list Z) (total : Z) : Res (list Z) :=
  match fuel with
  | O => OutOfFuel
  | S fuel =>
      if 64 <? blen msg then
        let total := u64 (total + 64) in
        block ← slice msg 0 64;
        rest ← slice msg 64 (blen msg);
        blake_blocks fuel (compress h block total false) rest total
      else
        let total := u64 (total + blen msg) in
        Ok (compress h (block64 msg) total true)
  end.

Definition Blake2s (data key : list Z) (outLen : Z) : Res (list Z) :=
  if (outLen <? 1) || (32 <? outLen) then Err "blake2s: invalid output size" else
  if 32 <? blen key then Err "blake2s: key too long" else
  let h := bset blakeIV 0
    (Z.lxor (gb blakeIV 0) (Z.lxor (Z.lxor 0x01010000 (u32 (Z.shiftl (blen key) 8))) outLen)) in
  let msg := (if 0 <? blen key then block64 key else []) ++ data in
  h ← (if blen msg =? 0 then Ok (compress h (zeros 64) 0 true) else blake_blocks (S (length msg)) h msg 0);
  slice (flat_map put_le32 h) 0 outLen.

(** [copy(out[:], x)] into a fresh array, the error being ignored. *)
Definition into_array (n : Z) (r : Res (list Z)) : Res (list Z) :=
  match r with
  | Ok x => Ok (take (Z.to_nat n) (x ++ zeros n))
  | Err _ => Ok (zeros n)
  | Panic => Panic
  | OutOfFuel => OutOfFuel
  end.
Definition Blake2s256 (data : list Z) : Res (list Z) := into_array 32 (Blake2s data [] 32).
Definition Blake2s128Keyed (key data : list Z) : Res (list Z) := into_array 16 (Blake2s data key 16).

(** ** HMAC and key derivation *)
Definition xor_pad (key : list Z) (c : Z) : list Z :=
  map (fun i => Z.lxor c (gb key (Z.of_nat i))) (seq 0 (length key)) ++ replicate (64 - length key) c.
Definition HMACBlake2s (key : list Z) (parts : list (list Z)) : Res (list Z) :=
  key ← (if 64 <? blen key then Blake2s256 key else Ok key);
  ih ← Blake2s256 (xor_pad key 0x36 ++ concat parts);
  Blake2s256 (xor_pad key 0x5c ++ ih).
Definition KDF1 (key input : list Z) : Res (list Z) :=
  prk ← HMACBlake2s key [input];
  HMACBlake2s prk [[1]].
Definition KDF2 (key input : list Z) : Res (list Z * list Z) :=
  prk ← HMACBlake2s key [input];
  t0 ← HMACBlake2s prk [[1]];
  t1 ← HMACBlake2s prk [t0; [2]];
  Ok (t0, t1).
Definition KDF3 (key input : list Z) : Res (list Z * list Z * list Z) :=
  prk ← HMACBlake2s key [input];
  t0 ← HMACBlake2s prk [[1]];
  t1 ← HMACBlake2s prk [t0; [2]];
  t2 ← HMACBlake2s prk [t1; [3]];
  Ok (t0, t1, t2).

(** ** ChaCha20 *)
Definition qr (a b c d : Z) (x : list Z) : list Z :=
  let x := bset x a (u32 (gb x a + gb x b)) in
  let x := bset x d (rol (Z.lxor (gb x d) (gb x a)) 16) in
  let x := bset x c (u32 (gb x c + gb x d)) in
  let x := bset x b (rol (Z.lxor (gb x b) (gb x c)) 12) in
  let x := bset x a (u32 (gb x a + gb x b)) in
  let x := bset x d (rol (Z.lxor (gb x d) (gb x a)) 8) in
  let x := bset x c (u32 (gb x c + gb x d)) in
  bset x b (rol (Z.lxor (gb x b) (gb x c)) 7).
Definition double_round (x : list Z) : list Z :=
  let x := qr 0 4 8 12 x in
  let x := qr 1 5 9 13 x in
  let x := qr 2 6 10 14 x in
  let x := qr 3 7 11 15 x in
  let x := qr 0 5 10 15 x in
  let x := qr 1 6 11 12 x in
  let x := qr 2 7 8 13 x in
  qr 3 4 9 14 x.
Definition chacha_const : list Z := [0x61707865; 0x3320646e; 0x79622d32; 0x6b206574].
Definition key_words (key : list Z) : list Z := map (fun i => le32_at key (Z.of_nat i * 4)) (seq 0 8).

Definition chachaBlock (key : list Z) (counter : Z) (nonce : list Z) : Res (list Z) :=
  n0 ← le32 nonce 0;
  n1 ← le32 nonce 4;
  n2 ← le32 nonce 8;
  let s := chacha_const ++ key_words key ++ [counter; n0; n1; n2] in
  let x := Nat.iter 10 double_round s in
  Ok (flat_map (fun i => put_le32 (u32 (gb x (Z.of_nat i) + gb s (Z.of_nat i)))) (seq 0 16)).

Definition hChaCha20 (key nonce16 : list Z) : Res (list Z) :=
  n0 ← le32 nonce16 0;
  n1 ← le32 nonce16 4;
  n2 ← le32 nonce16 8;
  n3 ← le32 nonce16 12;
  let x := Nat.iter 10 double_round (chacha_const ++ key_words key ++ [n0; n1; n2; n3]) in
  Ok (flat_map put_le32 [gb x 0; gb x 1; gb x 2; gb x 3; gb x 12; gb x 13; gb x 14; gb x 15]).

Definition xor_bytes (src key : list Z) : list Z := map (fun i => Z.lxor (gb src (Z.of_nat i)) (gb key (Z.of_nat i))) (seq 0 (length src)).

(** [dst] is as long as [src] in every call; the result is what is written to it. *)
Fixpoint xorStream (fuel : nat) (src key nonce : list Z) (counter : Z) : Res (list Z) :=
  match fuel with
  | O => OutOfFuel
  | S fuel =>
      if 0 <? blen src then
        b ← chachaBlock key counter nonce;
        let counter := u32 (counter + 1) in
        let n := if 64 <? blen src then 64 else blen src in
        now ← slice src 0 n;
        rest ← slice src n (blen src);
        out ← xorStream fuel rest key nonce counter;
        Ok (xor_bytes now b ++ out)
      else Ok []
  end.

(** ** Poly1305 *)
Definition leBig (b : list Z) : Z := be_val (rev b).
(** [acc.Bytes()] reversed: the little-endian digits without leading zeros. *)
Fixpoint le_digits (fuel : nat) (v : Z) : list Z :=
  match fuel with
  | O => []
  | S fuel => if v =? 0 then [] else v `mod` 256 :: le_digits fuel (v `div` 256)
  end.
Definition P1305 : Z := 2 ^ 130 - 5.
Definition clamp (key : list Z) : list Z :=
  let r := bsub key 0 16 in
  let r := bset r 3 (Z.land (gb r 3) 15) in
  let r := bset r 7 (Z.land (gb r 7) 15) in
  let r := bset r 11 (Z.land (gb r 11) 15) in
  let r := bset r 15 (Z.land (gb r 15) 15) in
  let r := bset r 4 (Z.land (gb r 4) 252) in
  let r := bset r 8 (Z.land (gb r 8) 252) in
  bset r 12 (Z.land (gb r 12) 252).
Fixpoint poly_loop (fuel : nat) (msg : list Z) (r acc : Z) : Res Z :=
  match fuel with
  | O => OutOfFuel
  | S fuel =>
      if 0 <? blen msg then
        let n := if blen msg <? 16 then blen msg else 16 in
        block ← slice msg 0 n;
        rest ← slice msg n (blen msg);
        poly_loop fuel rest r (((acc + leBig (block ++ [1])) * r) `mod` P1305)
      else Ok acc
  end.
Definition poly1305Raw (key msg : list Z) : Res (list Z) :=
  let r := leBig (clamp key) in
  let s := leBig (bsub key 16 32) in
  acc ← poly_loop (S (length msg)) msg r 0;
  let acc := Z.land (acc + s) (2 ^ 128 - 1) in
  let be := rev (le_digits 17 acc) in
  Ok (take 16 (rev be ++ zeros 16)).
(** [for len(msg)%16 != 0 { msg = append(msg, 0) }] *)
Definition pad_to16 (msg : list Z) : list Z := msg ++ zeros ((- blen msg) `mod` 16).
Definition poly1305Big (key aad ct : list Z) : Res (list Z) :=
  let msg := pad_to16 (pad_to16 aad ++ ct) in
  poly1305Raw key (msg ++ put_le64 (u64 (blen aad)) ++ put_le64 (u64 (blen ct))).

(** ** AEAD *)
Definition ErrAuth : string := "authentication failed".

Definition Seal (key nonce pt aad : list Z) : Res (list Z) :=
  if negb (blen nonce =? 12) then Err "nonce must be 12 bytes" else
  block ← chachaBlock key 0 nonce;
  polyKey ← slice block 0 32;
  out ← xorStream (S (length pt)) pt key nonce 1;
  tag ← poly1305Big polyKey aad out;
  Ok (out ++ tag).
Definition Open (key nonce ct aad : list Z) : Res (list Z) :=
  if negb (blen nonce =? 12) || (blen ct <? 16) then Err ErrAuth else
  let n := blen ct - 16 in
  block ← chachaBlock key 0 nonce;
  polyKey ← slice block 0 32;
  body ← slice ct 0 n;
  tag ← poly1305Big polyKey aad body;
  got ← slice ct n (blen ct);
  if negb (bool_decide (tag = got)) then Err ErrAuth else
  xorStream (S (length body)) body key nonce 1.

(** ** The test vectors of the repository *)
Definition range (a : Z) (n : nat) : list Z := map (fun i => a + Z.of_nat i) (seq 0 n).
Example blake2s_empty : Blake2s256 [] =
  Ok [0x69;0x21;0x7a;0x30;0x79;0x90;0x80;0x94;0xe1;0x11;0x21;0xd0;0x42;0x35;0x4a;0x7c;
      0x1f;0x55;0xb6;0x48;0x2c;0xa1;0xa5;0x1e;0x1b;0x25;0x0d;0xfd;0x1e;0xd0;0xee;0xf9].
Proof. vm_compute. reflexivity. Qed.
Example blake2s_abc : Blake2s256 [97; 98; 99] =
  Ok [0x50;0x8c;0x5e;0x8c;0x32;0x7c;0x14;0xe2;0xe1;0xa7;0x2b;0xa3;0x4e;0xeb;0x45;0x2f;
      0x37;0x45;0x8b;0x20;0x9e;0xd6;0x3a;0x29;0x4d;0x99;0x9b;0x4c;0x86;0x67;0x59;0x82].
Proof. vm_compute. reflexivity. Qed.

Definition rfc_pt : list Z := [
  0x4c;0x61;0x64;0x69;0x65;0x73;0x20;0x61;0x6e;0x64;0x20;0x47;0x65;0x6e;0x74;0x6c;
  0x65;0x6d;0x65;0x6e;0x20;0x6f;0x66;0x20;0x74;0x68;0x65;0x20;0x63;0x6c;0x61;0x73;
  0x73;0x20;0x6f;0x66;0x20;0x27;0x39;0x39;0x3a;0x20;0x49;0x66;0x20;0x49;0x20;0x63;
  0x6f;0x75;0x6c;0x64;0x20;0x6f;0x66;0x66;0x65;0x72;0x20;0x79;0x6f;0x75;0x20;0x6f;
  0x6e;0x6c;0x79;0x20;0x6f;0x6e;0x65;0x20;0x74;0x69;0x70;0x20;0x66;0x6f;0x72;0x20;
  0x74;0x68;0x65;0x20;0x66;0x75;0x74;0x75;0x72;0x65;0x2c;0x20;0x73;0x75;0x6e;0x73;
  0x63;0x72;0x65;0x65;0x6e;0x20;0x77;0x6f;0x75;0x6c;0x64;0x20;0x62;0x65;0x20;0x69;0x74;0x2e].
Example chacha20poly1305_rfc : Seal (range 0x80 32) [7;0;0;0;0x40;0x41;0x42;0x43;0x44;0x45;0x46;0x47] rfc_pt
    [0x50;0x51;0x52;0x53;0xc0;0xc1;0xc2;0xc3;0xc4;0xc5;0xc6;0xc7] = Ok [
  0xd3;0x1a;0x8d;0x34;0x64;0x8e;0x60;0xdb;0x7b;0x86;0xaf;0xbc;0x53;0xef;0x7e;0xc2;
  0xa4;0xad;0xed;0x51;0x29;0x6e;0x08;0xfe;0xa9;0xe2;0xb5;0xa7;0x36;0xee;0x62;0xd6;
  0x3d;0xbe;0xa4;0x5e;0x8c;0xa9;0x67;0x12;0x82;0xfa;0xfb;0x69;0xda;0x92;0x72;0x8b;
  0x1a;0x71;0xde;0x0a;0x9e;0x06;0x0b;0x29;0x05;0xd6;0xa5;0xb6;0x7e;0xcd;0x3b;0x36;
  0x92;0xdd;0xbd;0x7f;0x2d;0x77;0x8b;0x8c;0x98;0x03;0xae;0xe3;0x28;0x09;0x1b;0x58;
  0xfa;0xb3;0x24;0xe4;0xfa;0xd6;0x75;0x94;0x55;0x85;0x80;0x8b;0x48;0x31;0xd7;0xbc;
  0x3f;0xf4;0xde;0xf0;0x8e;0x4b;0x7a;0x9d;0xe5;0x76;0xd2;0x65;0x86;0xce;0xc6;0x4b;0x61;0x16;
  0x1a;0xe1;0x0b;0x59;0x4f;0x09;0xe2;0x6a;0x7e;0x90;0x2e;0xcb;0xd0;0x60;0x06;0x91].
Proof. vm_compute. reflexivity. Qed.

(** ** Lemmas: ChaCha20 *)
Lemma lxor_byte x y : 0 <= x < 256 → 0 <= y < 256 → 0 <= Z.lxor x y < 256.
Proof.
  intros Hx Hy. assert (H0 : 0 <= Z.lxor x y) by (apply Z.lxor_nonneg; lia). split; [done|].
  destruct (decide (Z.lxor x y = 0)) as [->|Hne]; [lia|]. apply (Z.log2_lt_pow2 _ 8); [lia|].
  pose proof (Z.log2_lxor x y ltac:(lia) ltac:(lia)).
  assert (∀ z, 0 <= z < 256 → Z.log2 z < 8).
  { intros z Hz. destruct (decide (z = 0)) as [->|]; [done|]. apply Z.log2_lt_pow2; simpl; lia. }
  pose proof (H1 x Hx). pose proof (H1 y Hy). lia.
Qed.
Lemma bytes_ok_put_le32 v : bytes_ok (put_le32 v).
Proof. repeat constructor; try (apply Z.mod_pos_bound; lia). all: pose proof (Z.mod_pos_bound v 256); lia. Qed.
Lemma bytes_ok_flat_map {A} (f : A → list Z) l : (∀ x, bytes_ok (f x)) → bytes_ok (flat_map f l).
Proof. intros H. induction l as [|x l IH]; [constructor|]. cbn. apply bytes_ok_app. by split. Qed.
Lemma length_flat_map_le32 {A} (f : A → Z) l : length (flat_map (fun x => put_le32 (f x)) l) = (4 * length l)%nat.
Proof. induction l as [|x l IH]; [done|]. cbn [flat_map]. rewrite length_app, IH. cbn. lia. Qed.

Lemma le32_ok b i : 0 <= i → i + 4 <= blen b → le32 b i = Ok (le32_at b i).
Proof. intros. unfold le32. by rewrite !(proj2 (Z.leb_le _ _)) by lia. Qed.
Lemma blen_put_le32 v : blen (put_le32 v) = 4.
Proof. done. Qed.
Lemma le32_at_put pre v post : 0 <= v < 4294967296 → le32_at (pre ++ put_le32 v ++ post) (blen pre) = v.
Proof.
  intros Hv. pose proof (blen_nonneg pre). unfold le32_at.
  assert (Hg : ∀ i, 0 <= i < 4 → gb (pre ++ put_le32 v ++ post) (blen pre + i) = gb (put_le32 v) i).
  { intros i Hi. rewrite gb_app by lia. rewrite (proj2 (Z.ltb_ge _ _)) by lia.
    replace (blen pre + i - blen pre) with i by lia. rewrite gb_app by lia. rewrite blen_put_le32.
    by rewrite (proj2 (Z.ltb_lt i 4)) by lia. }
  rewrite <- (Z.add_0_r (blen pre)) at 1. rewrite !Hg by lia. pose proof (enc32_val v Hv) as E. revert E. unfold gb, put_le32, enc32.
  simpl. lia.
Qed.
Lemma le32_at_range b i : bytes_ok b → 0 <= le32_at b i < 4294967296.
Proof. intros Hb. unfold le32_at. pose proof (gb_range b i Hb). pose proof (gb_range b (i+1) Hb). pose proof (gb_range b (i+2) Hb). pose proof (gb_range b (i+3) Hb). lia. Qed.
Lemma bsub_mid (pre x post : list Z) lo hi : lo = blen pre → hi = blen pre + blen x → bsub (pre ++ x ++ post) lo hi = x.
Proof. intros -> ->. apply bsub_at. Qed.
Lemma chachaBlock_ok key counter nonce : blen nonce = 12 →
  ∃ b, chachaBlock key counter nonce = Ok b ∧ blen b = 64 ∧ bytes_ok b.
Proof.
  intros Hn. unfold chachaBlock. rewrite !le32_ok, !bind_Ok by lia. eexists. split; [done|]. cbv zeta. split.
  - unfold blen. rewrite length_flat_map_le32, length_seq. done.
  - apply bytes_ok_flat_map. intros. apply bytes_ok_put_le32.
Qed.

Lemma length_xor_bytes src key : length (xor_bytes src key) = length src.
Proof. unfold xor_bytes. by rewrite length_map, length_seq. Qed.
Lemma gb_xor_bytes src key i : 0 <= i < blen src → gb (xor_bytes src key) i = Z.lxor (gb src i) (gb key i).
Proof.
  intros Hi. unfold gb at 1, xor_bytes. unfold blen in Hi.
  rewrite list_lookup_fmap, lookup_seq_lt by lia. cbn. by rewrite Z2Nat.id by lia.
Qed.
Lemma xor_bytes_involutive src key : xor_bytes (xor_bytes src key) key = src.
Proof.
  assert (E : ∀ s, blen (xor_bytes s key) = blen s) by (intros; unfold blen; by rewrite length_xor_bytes).
  apply bytes_eq; [by rewrite !E|]. intros i Hi. rewrite !E in Hi. rewrite !gb_xor_bytes by (rewrite ?E; lia).
  by rewrite Z.lxor_assoc, Z.lxor_nilpotent, Z.lxor_0_r.
Qed.
Lemma bytes_ok_xor_bytes src key : bytes_ok src → bytes_ok key → bytes_ok (xor_bytes src key).
Proof.
  intros Hs Hk. unfold xor_bytes, bytes_ok. apply List.Forall_forall. intros x Hx. apply in_map_iff in Hx as (i & <- & _).
  apply lxor_byte; by apply gb_range.
Qed.

(** The stream cipher returns, keeps lengths and is its own inverse. *)
Lemma xorStream_spec fuel key nonce counter src : blen nonce = 12 → (length src < fuel)%nat →
  ∃ out, xorStream fuel src key nonce counter = Ok out ∧ length out = length src ∧
    (∀ fuel', (length out < fuel')%nat → xorStream fuel' out key nonce counter = Ok src) ∧
    (bytes_ok src → bytes_ok out).
Proof.
  intros Hn. revert counter src. induction fuel as [|fuel IH]; intros counter src Hf; [lia|]. cbn [xorStream].
  destruct (Z.ltb_spec 0 (blen src)) as [Hp|Hp].
  2:{ assert (src = []) as -> by (apply blen_0_nil; pose proof (blen_nonneg src); lia).
      exists []. split_and!; try done. intros [|f] H; [cbn in H; lia|done]. }
  destruct (chachaBlock_ok key counter nonce Hn) as (b & Eb & Hbl & Hbo). rewrite Eb, bind_Ok. cbv zeta.
  set (n := if 64 <? blen src then 64 else blen src).
  assert (Hnr : 0 < n <= blen src) by (unfold n; destruct (Z.ltb_spec 64 (blen src)); lia).
  rewrite !slice_ok, !bind_Ok by lia.
  assert (Hl : length (bsub src n (blen src)) = (length src - Z.to_nat n)%nat)
    by (unfold bsub, blen in *; rewrite length_take, length_drop; lia).
  assert (Hl0 : length (bsub src 0 n) = Z.to_nat n) by (unfold bsub, blen in *; rewrite length_take, length_drop; lia).
  assert (Hsplit : bsub src 0 n ++ bsub src n (blen src) = src)
    by (rewrite bsub_app_split by lia; apply bsub_full).
  destruct (IH (u32 (counter + 1)) (bsub src n (blen src))) as (out & -> & Hlo & Hinv & Hok); [unfold blen in *; lia|].
  rewrite bind_Ok. eexists. split; [done|].
  assert (Hout : length (xor_bytes (bsub src 0 n) b ++ out) = length src)
    by (rewrite length_app, length_xor_bytes, Hl0, Hlo, Hl; unfold blen in *; lia).
  split_and!; [done| |].
  - intros [|fuel'] Hf'; [lia|]. cbn [xorStream].
    assert (Hbs : blen (xor_bytes (bsub src 0 n) b ++ out) = blen src) by (unfold blen; by rewrite Hout).
    rewrite Hbs. rewrite (proj2 (Z.ltb_lt 0 (blen src)) Hp), Eb, bind_Ok. cbv zeta. fold n.
    rewrite !slice_ok, !bind_Ok by (rewrite ?Hbs; lia). rewrite <- Hbs at 1.
    assert (E1 : bsub (xor_bytes (bsub src 0 n) b ++ out) 0 n = xor_bytes (bsub src 0 n) b).
    { unfold bsub at 1. rewrite drop_0. replace (Z.to_nat (n - 0)) with (length (xor_bytes (bsub src 0 n) b))
        by (rewrite length_xor_bytes, Hl0; lia). apply take_app_length. }
    assert (E2 : bsub (xor_bytes (bsub src 0 n) b ++ out) n (blen (xor_bytes (bsub src 0 n) b ++ out)) = out).
    { unfold bsub at 1. replace (Z.to_nat n) with (length (xor_bytes (bsub src 0 n) b)) at 1
        by (rewrite length_xor_bytes, Hl0; lia). rewrite drop_app_length. apply take_ge. rewrite Hbs. unfold blen in *. lia. }
    rewrite E1, E2, Hinv by (rewrite Hout in Hf'; unfold blen in *; lia). rewrite bind_Ok, xor_bytes_involutive, Hsplit. done.
  - intros Hs. apply bytes_ok_app. split; [apply bytes_ok_xor_bytes; auto with go|auto with go].
Qed.

(** ** BLAKE2s returns *)
Lemma length_compress h block t last : length (compress h block t last) = 8%nat.
Proof. unfold compress. cbv zeta. by rewrite length_map, length_seq. Qed.
Lemma blake_blocks_ok fuel h msg total : (length msg < fuel)%nat → ∃ h', blake_blocks fuel h msg total = Ok h' ∧ length h' = 8%nat.
Proof.
  revert h msg total. induction fuel as [|fuel IH]; intros h msg total Hf; [lia|]. cbn [blake_blocks]. cbv zeta.
  destruct (Z.ltb_spec 64 (blen msg)) as [Hl|Hl].
  - rewrite !slice_ok, !bind_Ok by lia. apply IH. unfold bsub, blen in *. rewrite length_take, length_drop. lia.
  - eexists. split; [done|]. apply length_compress.
Qed.
Lemma Blake2s_ok data key outLen : 1 <= outLen <= 32 → blen key <= 32 →
  ∃ x, Blake2s data key outLen = Ok x ∧ blen x = outLen ∧ bytes_ok x.
Proof.
  intros Ho Hk. unfold Blake2s. rewrite (proj2 (Z.ltb_ge outLen 1)), !(proj2 (Z.ltb_ge 32 _)) by lia. cbn [orb]. cbv zeta.
  set (msg := (if 0 <? blen key then block64 key else []) ++ data). set (h0 := bset blakeIV 0 _).
  assert (H : ∃ h, (if blen msg =? 0 then Ok (compress h0 (zeros 64) 0 true) else blake_blocks (S (length msg)) h0 msg 0) = Ok h
    ∧ length h = 8%nat).
  { destruct (blen msg =? 0); [eexists; split; [done|apply length_compress]|apply blake_blocks_ok; lia]. }
  destruct H as (h & -> & Hh). rewrite bind_Ok.
  assert (El : length (flat_map put_le32 h) = (4 * length h)%nat) by exact (length_flat_map_le32 (fun x => x) h).
  assert (Hlen : blen (flat_map put_le32 h) = 32) by (unfold blen; lia).
  rewrite slice_ok by lia. eexists. split; [done|]. split; [rewrite blen_bsub; lia|].
  apply bytes_ok_bsub, bytes_ok_flat_map, bytes_ok_put_le32.
Qed.
Lemma into_array_ok n x : blen x = n → into_array n (Ok x) = Ok x.
Proof.
  intros H. unfold into_array. f_equal. unfold blen in H. replace (Z.to_nat n) with (length x) by lia. apply take_app_length.
Qed.
Lemma Blake2s256_ok data : ∃ x, Blake2s256 data = Ok x ∧ blen x = 32 ∧ bytes_ok x.
Proof.
  destruct (Blake2s_ok data [] 32 ltac:(lia) ltac:(cbn; unfold blen; cbn; lia)) as (x & E & Hl & Hb).
  exists x. unfold Blake2s256. by rewrite E, into_array_ok.
Qed.
Lemma Blake2s128Keyed_ok key data : blen key <= 32 → ∃ x, Blake2s128Keyed key data = Ok x ∧ blen x = 16 ∧ bytes_ok x.
Proof.
  intros Hk. destruct (Blake2s_ok data key 16 ltac:(lia) Hk) as (x & E & Hl & Hb).
  exists x. unfold Blake2s128Keyed. by rewrite E, into_array_ok.
Qed.
Lemma HMAC_ok key parts : ∃ x, HMACBlake2s key parts = Ok x ∧ blen x = 32 ∧ bytes_ok x.
Proof.
  unfold HMACBlake2s. assert (H : ∃ k, (if 64 <? blen key then Blake2s256 key else Ok key) = Ok k)
    by (destruct (64 <? blen key); [destruct (Blake2s256_ok key) as (x & -> & _)|]; eauto).
  destruct H as (k & ->). rewrite bind_Ok. destruct (Blake2s256_ok (xor_pad k 0x36 ++ concat parts)) as (ih & -> & _).
  rewrite bind_Ok. apply Blake2s256_ok.
Qed.
Lemma KDF1_ok key input : ∃ t, KDF1 key input = Ok t ∧ blen t = 32.
Proof.
  unfold KDF1. destruct (HMAC_ok key [input]) as (p & -> & _). rewrite bind_Ok.
  destruct (HMAC_ok p [[1]]) as (t & -> & ? & _). eauto.
Qed.
Lemma KDF2_ok key input : ∃ t0 t1, KDF2 key input = Ok (t0, t1) ∧ blen t0 = 32 ∧ blen t1 = 32.
Proof.
  unfold KDF2. destruct (HMAC_ok key [input]) as (p & -> & _). rewrite bind_Ok.
  destruct (HMAC_ok p [[1]]) as (t0 & -> & ? & _). rewrite bind_Ok.
  destruct (HMAC_ok p [t0; [2]]) as (t1 & -> & ? & _). eauto.
Qed.
Lemma KDF3_ok key input : ∃ t0 t1 t2, KDF3 key input = Ok (t0, t1, t2) ∧ blen t0 = 32 ∧ blen t1 = 32 ∧ blen t2 = 32.
Proof.
  unfold KDF3. destruct (HMAC_ok key [input]) as (p & -> & _). rewrite bind_Ok.
  destruct (HMAC_ok p [[1]]) as (t0 & -> & ? & _). rewrite bind_Ok.
  destruct (HMAC_ok p [t0; [2]]) as (t1 & -> & ? & _). rewrite bind_Ok.
  destruct (HMAC_ok p [t1; [3]]) as (t2 & -> & ? & _). eauto 10.
Qed.

(** ** Poly1305 as a polynomial *)
Fixpoint blocks16 (fuel : nat) (msg : list Z) : list (list Z) :=
  match fuel with
  | O => []
  | S fuel => match msg with [] => [] | _ => take 16 msg :: blocks16 fuel (drop 16 msg) end
  end.
(** [c_1 r^q + c_2 r^(q-1) + ... + c_q r] *)
Fixpoint poly_sum (r : Z) (cs : list Z) : Z :=
  match cs with
  | [] => 0
  | c :: rest => c * r ^ (blen rest + 1) + poly_sum r rest
  end.
Fixpoint le_bytes (n : nat) (v : Z) : list Z :=
  match n with O => [] | S n => v `mod` 256 :: le_bytes n (v `div` 256) end.
Definition r_mask : Z := 0x0ffffffc0ffffffc0ffffffc0fffffff.
(** RFC 8439, section 2.5. *)
Definition rfc_poly1305 (key msg : list Z) : list Z :=
  let r := Z.land (leBig (bsub key 0 16)) r_mask in
  let cs := map (fun b => leBig (b ++ [1])) (blocks16 (length msg) msg) in
  le_bytes 16 ((poly_sum r cs `mod` P1305 + leBig (bsub key 16 32)) `mod` 2 ^ 128).

Lemma blocks16_fuel f m : (length m <= f)%nat → blocks16 f m = blocks16 (length m) m.
Proof.
  remember (length m) as n eqn:En. assert (length m <= n)%nat as Hn by lia. clear En. revert f m Hn.
  induction n as [|n IHn]; intros f m Hn Hf; [destruct m; [by destruct f|cbn in Hn; lia]|].
  destruct f as [|f]; [lia|]. cbn. destruct m as [|x m]; [done|]. f_equal.
  assert (length (drop 16 (x :: m)) <= n)%nat by (rewrite length_drop; cbn in *; lia).
  apply IHn; [done|lia].
Qed.

Lemma blocks16_cons m : m ≠ [] → blocks16 (length m) m = take 16 m :: blocks16 (length (drop 16 m)) (drop 16 m).
Proof.
  destruct m as [|x m]; [done|]. intros _. cbn [length blocks16]. f_equal. apply blocks16_fuel. rewrite length_drop. cbn. lia.
Qed.

Lemma poly_loop_spec fuel msg r acc : (length msg < fuel)%nat → 0 <= acc < P1305 →
  poly_loop fuel msg r acc = Ok ((acc * r ^ blen (blocks16 (length msg) msg) +
      poly_sum r (map (fun b => leBig (b ++ [1])) (blocks16 (length msg) msg))) `mod` P1305).
Proof.
  revert msg acc. induction fuel as [|fuel IH]; intros msg acc Hf Hacc; [lia|]. cbn [poly_loop].
  destruct (Z.ltb_spec 0 (blen msg)) as [Hp|Hp].
  2:{ assert (msg = []) as -> by (apply blen_0_nil; pose proof (blen_nonneg msg); lia).
      cbn [length blocks16 map poly_sum]. change (blen []) with 0. rewrite Z.pow_0_r, Z.mul_1_r, Z.add_0_r, Z.mod_small by lia. done. }
  cbv zeta. set (n := if blen msg <? 16 then blen msg else 16).
  assert (Hn : 0 < n <= blen msg) by (unfold n; destruct (Z.ltb_spec (blen msg) 16); lia).
  rewrite !slice_ok, !bind_Ok by lia.
  assert (E1 : bsub msg 0 n = take 16 msg).
  { unfold bsub. rewrite drop_0. unfold n, blen in *. destruct (Z.ltb_spec (Z.of_nat (length msg)) 16).
    - rewrite !take_ge by lia. done.
    - done. }
  assert (E2 : bsub msg n (blen msg) = drop 16 msg).
  { unfold bsub. rewrite take_ge by (rewrite length_drop; unfold blen; lia). unfold n, blen in *.
    destruct (Z.ltb_spec (Z.of_nat (length msg)) 16); [|done]. rewrite !drop_ge by lia. done. }
  rewrite E1, E2. set (c := leBig (take 16 msg ++ [1])).
  rewrite IH; [|rewrite length_drop; unfold blen in *; lia|by apply Z.mod_pos_bound].
  assert (Hb : blocks16 (length msg) msg = take 16 msg :: blocks16 (length (drop 16 msg)) (drop 16 msg)).
  { apply blocks16_cons. intros ->. by apply Z.lt_irrefl in Hp. }
  rewrite Hb. cbn [map poly_sum]. fold c. rewrite blen_cons.
  set (q := blen (blocks16 (length (drop 16 msg)) (drop 16 msg))).
  assert (Hq : blen (map (fun b => leBig (b ++ [1])) (blocks16 (length (drop 16 msg)) (drop 16 msg))) = q)
    by (unfold q, blen; by rewrite length_map). rewrite Hq.
  pose proof (blen_nonneg (blocks16 (length (drop 16 msg)) (drop 16 msg))) as Hq0. fold q in Hq0.
  rewrite <- Z.add_mod_idemp_l, Z.mul_mod_idemp_l, Z.add_mod_idemp_l by done. do 2 f_equal.
  rewrite (Z.add_comm 1 q), !Z.pow_add_r by lia. rewrite Z.pow_1_r. ring.
Qed.

Lemma le_digits_bytes n fuel v : 0 <= v < 256 ^ Z.of_nat n → (n <= fuel)%nat →
  take n (le_digits fuel v ++ replicate n 0) = le_bytes n v.
Proof.
  revert fuel v. induction n as [|n IH]; intros fuel v Hv Hf; [done|]. destruct fuel as [|fuel]; [lia|].
  assert (Hz : ∀ k, le_bytes k 0 = replicate k 0) by (intros k; induction k as [|k IHk]; [done|]; cbn; by f_equal).
  cbn [le_digits]. destruct (Z.eqb_spec v 0) as [->|Hne].
  - rewrite app_nil_l, take_ge by (rewrite length_replicate; lia). symmetry. apply Hz.
  - cbn [app take le_bytes]. f_equal. rewrite <- (IH fuel (v `div` 256)); [| |lia].
    + rewrite replicate_S_end, app_assoc. apply take_app_le. rewrite length_app, length_replicate. lia.
    + rewrite Nat2Z.inj_succ, Z.pow_succ_r in Hv by lia. split; [apply Z.div_pos; lia|apply Z.div_lt_upper_bound; lia].
Qed.

Lemma leBig_cons x l : leBig (x :: l) = x + 256 * leBig l.
Proof. unfold leBig, be_val. cbn [rev]. rewrite fold_left_app. cbn. lia. Qed.
Lemma testbit_byte x m k : 0 <= x < 256 → 0 <= k → Z.testbit (x + 256 * m) k = if k <? 8 then Z.testbit x k else Z.testbit m (k - 8).
Proof.
  intros Hx Hk. replace (x + 256 * m) with (m * 2 ^ 8 + x) by (simpl; lia). rewrite <- (lor_disjoint x m 8) by (simpl; lia).
  rewrite Z.lor_spec, <- Z.shiftl_mul_pow2, Z.shiftl_spec by lia. destruct (Z.ltb_spec k 8).
  - by rewrite Z.testbit_neg_r by lia.
  - rewrite <- (Z.mod_small x (2 ^ 8)) at 1 by (simpl; lia). rewrite Z.mod_pow2_bits_high by lia. by rewrite orb_false_r.
Qed.
Lemma land_byte_cons x y m n : 0 <= x < 256 → 0 <= y < 256 →
  Z.land (x + 256 * m) (y + 256 * n) = Z.land x y + 256 * Z.land m n.
Proof.
  intros Hx Hy. apply Z.bits_inj'. intros k Hk. rewrite Z.land_spec, !testbit_byte by (try apply land_byte; lia).
  destruct (k <? 8); by rewrite Z.land_spec.
Qed.
Lemma land_255 x : 0 <= x < 256 → Z.land x 255 = x.
Proof. intros. change 255 with (Z.ones 8). rewrite Z.land_ones by lia. apply Z.mod_small. simpl. lia. Qed.

Lemma clamp_mask key : blen key = 32 → bytes_ok key → leBig (clamp key) = Z.land (leBig (bsub key 0 16)) r_mask.
Proof.
  intros Hl Hb. unfold clamp. set (b := bsub key 0 16).
  assert (Hbl : blen b = 16) by (unfold b; rewrite blen_bsub; lia). assert (Hbo : bytes_ok b) by (unfold b; auto with go).
  destruct b as [|b0 [|b1 [|b2 [|b3 [|b4 [|b5 [|b6 [|b7 [|b8 [|b9 [|b10 [|b11 [|b12 [|b13 [|b14 [|b15 [|]]]]]]]]]]]]]]]]];
    try (unfold blen in Hbl; cbn in Hbl; lia).
  unfold bytes_ok in Hbo. rewrite !Forall_cons_iff in Hbo. destruct_and!.
  match goal with |- leBig ?x = _ => change x with
    [b0; b1; b2; Z.land b3 15; Z.land b4 252; b5; b6; Z.land b7 15; Z.land b8 252; b9; b10; Z.land b11 15;
     Z.land b12 252; b13; b14; Z.land b15 15] end.
  rewrite !leBig_cons. change (leBig []) with 0.
  change r_mask with (255 + 256 * (255 + 256 * (255 + 256 * (15 + 256 * (252 + 256 * (255 + 256 * (255 + 256 * (15 + 256 *
    (252 + 256 * (255 + 256 * (255 + 256 * (15 + 256 * (252 + 256 * (255 + 256 * (255 + 256 * (15 + 256 * 0)))))))))))))))).
  rewrite !land_byte_cons by lia. rewrite !land_255 by done. done.
Qed.

Lemma poly1305_total key msg : ∃ tag, poly1305Raw key msg = Ok tag ∧ blen tag = 16 ∧ bytes_ok tag.
Proof.
  unfold poly1305Raw. cbv zeta. rewrite poly_loop_spec by (unfold P1305; lia). rewrite bind_Ok. eexists. split; [done|].
  set (v := Z.land _ _). rewrite rev_involutive. split.
  - unfold blen. rewrite length_take, length_app. unfold zeros. rewrite length_replicate. lia.
  - apply Forall_take, Forall_app. split; [|apply bytes_ok_zeros].
    generalize 17%nat. intros n. generalize v. induction n as [|n IH]; intros w; [constructor|]. cbn.
    destruct (w =? 0); constructor; [apply Z.mod_pos_bound; lia|apply IH].
Qed.

(** Poly1305 is the polynomial of RFC 8439: for every 32-byte key and every
    message the tag is the message's 16-byte blocks, each with a high bit appended,
    as coefficients of a polynomial evaluated at the clamped first half of the key
    modulo 2^130 - 5, plus the second half modulo 2^128, in little-endian bytes. *)
Theorem poly1305_polynomial (key msg : list Z) :
  blen key = 32 → bytes_ok key → poly1305Raw key msg = Ok (rfc_poly1305 key msg).
Proof.
  intros Hl Hb. unfold poly1305Raw, rfc_poly1305. cbv zeta. rewrite clamp_mask by done.
  rewrite poly_loop_spec by (unfold P1305; lia). rewrite bind_Ok, Z.mul_0_l, Z.add_0_l, rev_involutive. f_equal.
  set (x := _ `mod` P1305 + _). rewrite land_ones_mod by lia.
  apply (le_digits_bytes 16 17); [|lia]. apply Z.mod_pos_bound. lia.
Qed.

Lemma poly1305_polynomial_witness :
  poly1305Raw (range 1 32) [9; 8; 7] = Ok (rfc_poly1305 (range 1 32) [9; 8; 7]).
Proof. apply (poly1305_polynomial (range 1 32) [9; 8; 7]); [reflexivity|]. apply bytes_okb_ok. reflexivity. Defined.

(** ** The AEAD *)
Lemma poly1305Big_total key aad ct : ∃ tag, poly1305Big key aad ct = Ok tag ∧ blen tag = 16 ∧ bytes_ok tag.
Proof. apply poly1305_total. Qed.

Lemma Seal_spec key nonce pt aad : blen nonce = 12 →
  ∃ ct, Seal key nonce pt aad = Ok ct ∧ blen ct = blen pt + 16 ∧ (bytes_ok pt → bytes_ok ct) ∧
    Open key nonce ct aad = Ok pt.
Proof.
  intros Hn. unfold Seal. rewrite Hn. cbn [Z.eqb Pos.eqb negb orb].
  destruct (chachaBlock_ok key 0 nonce Hn) as (b & Eb & Hbl & Hbo). rewrite Eb, bind_Ok, slice_ok, bind_Ok by lia.
  destruct (xorStream_spec (S (length pt)) key nonce 1 pt Hn ltac:(lia)) as (out & -> & Hl & Hinv & Hok). rewrite bind_Ok.
  destruct (poly1305Big_total (bsub b 0 32) aad out) as (tag & Et & Htl & Hto). rewrite Et, bind_Ok.
  exists (out ++ tag). assert (Hb : blen (out ++ tag) = blen pt + 16) by (rewrite blen_app, Htl; unfold blen; lia).
  pose proof (blen_nonneg pt). split_and!; [done|done| |].
  - intros Hp. apply bytes_ok_app. auto.
  - unfold Open. rewrite Hn, Hb, (proj2 (Z.ltb_ge _ 16)) by lia. cbn [Z.eqb Pos.eqb negb orb]. cbv zeta.
    rewrite Eb, bind_Ok, (slice_ok b 0 32), bind_Ok by lia. replace (blen pt + 16 - 16) with (blen out) by (unfold blen; lia).
    rewrite !slice_ok by (rewrite ?Hb; unfold blen in *; lia).
    assert (E1 : bsub (out ++ tag) 0 (blen out) = out) by exact (bsub_at [] out tag).
    assert (E2 : bsub (out ++ tag) (blen out) (blen pt + 16) = tag).
    { pose proof (bsub_at out tag []) as E. rewrite app_nil_r in E. replace (blen pt + 16) with (blen out + blen tag) by (unfold blen in *; lia). exact E. }
    rewrite E1, E2, bind_Ok, Et, !bind_Ok, bool_decide_eq_true_2 by done. cbn [negb]. apply Hinv. lia.
Qed.

Lemma Open_spec key nonce ct aad : bytes_ok ct →
  match Open key nonce ct aad with
  | Ok pt => blen nonce = 12 ∧ blen ct = blen pt + 16 ∧ bytes_ok pt ∧ Seal key nonce pt aad = Ok ct
  | Err e => e = ErrAuth
  | _ => False
  end.
Proof.
  intros Hct. unfold Open. destruct (negb (blen nonce =? 12) || (blen ct <? 16)) eqn:E; [done|]. zbool. cbv zeta.
  destruct (chachaBlock_ok key 0 nonce ltac:(done)) as (b & Eb & Hbl & Hbo). rewrite Eb, !bind_Ok, !slice_ok, !bind_Ok by lia.
  set (body := bsub ct 0 (blen ct - 16)).
  destruct (poly1305Big_total (bsub b 0 32) aad body) as (tag & Et & Htl & Hto). rewrite Et, !bind_Ok.
  destruct (bool_decide (tag = bsub ct (blen ct - 16) (blen ct))) eqn:Eq; [apply bool_decide_eq_true in Eq|done]. cbn [negb].
  destruct (xorStream_spec (S (length body)) key nonce 1 body ltac:(done) ltac:(lia)) as (pt & -> & Hl & Hinv & Hok).
  assert (Hbody : blen body = blen ct - 16) by (unfold body; rewrite blen_bsub; lia).
  assert (Hpt : blen pt = blen body) by (unfold blen; lia).
  split_and!; [done|lia|apply Hok; unfold body; auto with go|].
  unfold Seal. rewrite (proj2 (Z.eqb_eq _ _)) by done. cbn [negb]. rewrite Eb, bind_Ok, slice_ok, bind_Ok by lia.
  rewrite Hinv, bind_Ok, Et, bind_Ok by lia. f_equal. rewrite Eq. unfold body. rewrite bsub_app_split by lia. apply bsub_full.
Qed.

(** What the code relies on of an AEAD: the Go interface with the behaviour its
    clients need. *)
Class AEAD := {
  aead_key : Type;
  aead_new : list Z → Res aead_key;
  aead_seal : aead_key → list Z → list Z → list Z → Res (list Z);
  aead_open : aead_key → list Z → list Z → list Z → Res (list Z);
  aead_new_returns : ∀ key, returns (aead_new key);
  aead_open_returns : ∀ k nonce ct aad, bytes_ok ct → returns (aead_open k nonce ct aad);
  aead_open_ok : ∀ k nonce ct aad pt, bytes_ok ct → aead_open k nonce ct aad = Ok pt →
    bytes_ok pt ∧ blen ct = blen pt + 16;
  aead_seal_returns : ∀ k nonce pt aad, returns (aead_seal k nonce pt aad);
  aead_seal_ok : ∀ k nonce pt aad ct, bytes_ok pt → aead_seal k nonce pt aad = Ok ct →
    bytes_ok ct ∧ blen ct = blen pt + 16 ∧ aead_open k nonce ct aad = Ok pt
}.

Definition pureAEAD : AEAD.
Proof.
  refine {| aead_key := list Z; aead_new key := Ok key; aead_seal := Seal; aead_open := Open |}.
  - done.
  - intros k nonce ct aad Hb. pose proof (Open_spec k nonce ct aad Hb) as H. by destruct (Open k nonce ct aad).
  - intros k nonce ct aad pt Hb E. pose proof (Open_spec k nonce ct aad Hb) as H. rewrite E in H. tauto.
  - intros k nonce pt aad. destruct (decide (blen nonce = 12)) as [Hn|Hn].
    + by destruct (Seal_spec k nonce pt aad Hn) as (ct & -> & _).
    + unfold Seal. by rewrite (proj2 (Z.eqb_neq _ _)) by done.
  - intros k nonce pt aad ct Hb E. destruct (decide (blen nonce = 12)) as [Hn|Hn].
    + destruct (Seal_spec k nonce pt aad Hn) as (ct' & E' & Hl & Hok & Ho). assert (ct' = ct) as -> by congruence. auto.
    + unfold Seal in E. by rewrite (proj2 (Z.eqb_neq _ _)) in E by done.
Defined.

(** XChaCha20-Poly1305 over any implementation of the cipher. *)
Section xAEAD.
Context {A : AEAD}.

Definition xSeal (key nonce pt aad : list Z) : Res (list Z) :=
  if negb (blen nonce =? 24) then Err "xchacha: nonce must be 24 bytes" else
  n16 ← slice nonce 0 16;
  sub ← hChaCha20 key n16;
  c ← aead_new sub;
  n8 ← slice nonce 16 (blen nonce);
  aead_seal c (zeros 4 ++ n8) pt aad.
Definition xOpen (key nonce ct aad : list Z) : Res (list Z) :=
  if negb (blen nonce =? 24) then Err "xchacha: nonce must be 24 bytes" else
  n16 ← slice nonce 0 16;
  sub ← hChaCha20 key n16;
  c ← aead_new sub;
  n8 ← slice nonce 16 (blen nonce);
  aead_open c (zeros 4 ++ n8) ct aad.

Lemma xSeal_opens key nonce pt aad ct : bytes_ok pt → xSeal key nonce pt aad = Ok ct →
  bytes_ok ct ∧ blen ct = blen pt + 16 ∧ xOpen key nonce ct aad = Ok pt.
Proof.
  intros Hp. unfold xSeal, xOpen. destruct (negb _); [done|]. intros E.
  apply bind_Ok_inv in E as (n16 & -> & E). rewrite bind_Ok. apply bind_Ok_inv in E as (sub & -> & E). rewrite bind_Ok.
  apply bind_Ok_inv in E as (c & -> & E). rewrite bind_Ok. apply bind_Ok_inv in E as (n8 & -> & E). rewrite bind_Ok.
  by apply aead_seal_ok.
Qed.
Lemma xOpen_returns key nonce ct aad : bytes_ok ct → returns (xOpen key nonce ct aad).
Proof.
  intros Hc. unfold xOpen. destruct (Z.eqb_spec (blen nonce) 24) as [Hn|Hn]; [|done]. cbn [negb].
  rewrite !slice_ok, bind_Ok by lia. unfold hChaCha20.
  rewrite !le32_ok, !bind_Ok by (rewrite ?blen_bsub; lia). cbv zeta.
  apply returns_bind; [apply aead_new_returns|]. intros c _. rewrite bind_Ok. by apply aead_open_returns.
Qed.
End xAEAD.

(** C35: ChaCha20-Poly1305 is an AEAD: sealing with a 12-byte nonce succeeds,
    adds 16 bytes and opens to the plaintext; opening never panics, fails only with
    the authentication error, and succeeds only on what sealing the result under
    the same key, nonce and associated data gives, so that any other ciphertext is
    refused. *)
Theorem ChaCha20Poly1305_correct (key nonce pt ct aad : list Z) :
  bytes_ok ct →
  (blen nonce = 12 → ∃ ct', Seal key nonce pt aad = Ok ct' ∧ blen ct' = blen pt + 16 ∧ Open key nonce ct' aad = Ok pt) ∧
  (∀ pt', Open key nonce ct aad = Ok pt' ↔ blen nonce = 12 ∧ Seal key nonce pt' aad = Ok ct) ∧
  (∀ e, Open key nonce ct aad = Err e → e = ErrAuth) ∧ returns (Open key nonce ct aad).
Proof.
  intros Hct. pose proof (Open_spec key nonce ct aad Hct) as H. split_and!.
  - intros Hn. destruct (Seal_spec key nonce pt aad Hn) as (ct' & E & Hl & _ & Ho). eauto.
  - intros pt'. split.
    + intros E. rewrite E in H. tauto.
    + intros [Hn E]. destruct (Seal_spec key nonce pt' aad Hn) as (ct' & E' & _ & _ & Ho). by assert (ct' = ct) as -> by congruence.
  - intros e E. by rewrite E in H.
  - by destruct (Open key nonce ct aad).
Qed.
Lemma ChaCha20Poly1305_correct_witness :
  ∃ ct', Seal (range 1 32) (range 5 12) [1; 2; 3] [4] = Ok ct' ∧ blen ct' = blen [1; 2; 3] + 16 ∧
    Open (range 1 32) (range 5 12) ct' [4] = Ok [1; 2; 3].
Proof.
  exact (proj1 (ChaCha20Poly1305_correct (range 1 32) (range 5 12) [1; 2; 3] [] [4] ltac:(constructor)) eq_refl).
Defined.
