(* ===== verification/Cng.v ===== *)
(** * The system's cipher ([internal/cryptox/aead_windows.go])

    On Windows [NewChaCha20Poly1305] asks the system (CNG, [bcrypt.dll]) for the
    cipher.  The calls of the library are operations on a state of the system; what
    its documentation says of them is the class [CNGLaws], in terms of the handles
    that are live and of RFC 8439.  The wrapper is then shown to be the portable
    implementation of Crypto.v, for as many of its objects as are in use, with every
    handle it obtains accounted for. *)

From S2P Require Import Prelude Netip GoStrings Fmt Crypto.
Local Open Scope Z_scope.

(** ** RFC 8439 *)
Definition rfc_block (key : list Z) (counter : Z) (nonce : list Z) : list Z :=
  match chachaBlock key counter nonce with Ok b => b | _ => [] end.
(** Section 2.4: byte [i] is masked with byte [i mod 64] of block [first + i / 64]. *)
Definition rfc_stream (key nonce : list Z) (first : Z) (src : list Z) : list Z :=
  map (fun i => Z.lxor (gb src (Z.of_nat i)) (gb (rfc_block key (first + Z.of_nat i `div` 64) nonce) (Z.of_nat i `mod` 64)))
    (seq 0 (length src)).
Definition rfc_chacha20 (key nonce src : list Z) : list Z := rfc_stream key nonce 1 src.
Definition pad16 (x : list Z) : list Z := if blen x `mod` 16 =? 0 then x else x ++ zeros (16 - blen x `mod` 16).
(** Section 2.8: the tag. *)
Definition rfc_tag (key nonce aad ct : list Z) : list Z :=
  rfc_poly1305 (bsub (rfc_block key 0 nonce) 0 32) (pad16 aad ++ pad16 ct ++ le_bytes 8 (blen aad) ++ le_bytes 8 (blen ct)).

Lemma gb_map_seq (f : nat → Z) n i : 0 <= i < Z.of_nat n → gb (map f (seq 0 n)) i = f (Z.to_nat i).
Proof.
  intros Hi. unfold gb. change (map f (seq 0 n)) with (f <$> seq 0 n). rewrite list_lookup_fmap, lookup_seq_lt by lia. done.
Qed.
Lemma blen_map_seq (f : nat → Z) n : blen (map f (seq 0 n)) = Z.of_nat n.
Proof. unfold blen. by rewrite length_map, length_seq. Qed.
Lemma blen_rfc_stream key nonce first src : blen (rfc_stream key nonce first src) = blen src.
Proof. apply blen_map_seq. Qed.
Lemma gb_rfc_stream key nonce first src i : 0 <= i < blen src →
  gb (rfc_stream key nonce first src) i = Z.lxor (gb src i) (gb (rfc_block key (first + i `div` 64) nonce) (i `mod` 64)).
Proof. intros Hi. unfold rfc_stream. rewrite gb_map_seq by exact Hi. by rewrite Z2Nat.id by lia. Qed.

Lemma xorStream_rfc key nonce fuel : ∀ first src, blen nonce = 12 → (length src < fuel)%nat →
  0 <= first → first + (blen src + 63) `div` 64 <= 2 ^ 32 →
  xorStream fuel src key nonce first = Ok (rfc_stream key nonce first src).
Proof.
  induction fuel as [|fuel IH]; intros first src Hn Hf H0 Hb; [lia|]. cbn [xorStream].
  destruct (Z.ltb_spec 0 (blen src)) as [Hp|Hp].
  2: { assert (src = []) as -> by (apply blen_0_nil; pose proof (blen_nonneg src); lia). done. }
  destruct (chachaBlock_ok key first nonce Hn) as (b & Eb & Hbl & _). rewrite Eb, bind_Ok. cbv zeta.
  set (n := if 64 <? blen src then 64 else blen src).
  assert (Hnr : 0 < n <= blen src ∧ n <= 64 ∧ (n = 64 ∨ n = blen src)) by (unfold n; destruct (Z.ltb_spec 64 (blen src)); lia).
  clearbody n. rewrite !slice_ok, !bind_Ok by lia.
  assert (Hr : blen (bsub src n (blen src)) = blen src - n) by (rewrite blen_bsub; lia).
  assert (Erest : xorStream fuel (bsub src n (blen src)) key nonce (u32 (first + 1)) = Ok (rfc_stream key nonce (first + 1) (bsub src n (blen src)))).
  { destruct (decide (n = blen src)) as [E|E].
    - assert (bsub src n (blen src) = []) as -> by (apply blen_0_nil; lia). destruct fuel; [unfold blen in *; lia|done].
    - assert (n = 64) as -> by lia.
      assert (Hd : (blen src + 63) `div` 64 = 1 + (blen (bsub src 64 (blen src)) + 63) `div` 64).
      { rewrite Hr. replace (blen src + 63) with (blen src - 64 + 63 + 1 * 64) by lia. rewrite Z.div_add by lia. lia. }
      assert (Hq : 1 <= (blen (bsub src 64 (blen src)) + 63) `div` 64) by (rewrite Hr; apply Z.div_le_lower_bound; lia).
      rewrite u32_small by lia. apply IH; try lia. unfold blen in *. lia. }
  rewrite Erest, bind_Ok. f_equal.
  assert (Hx : blen (xor_bytes (bsub src 0 n) b) = n) by (unfold blen at 1; rewrite length_xor_bytes; fold (blen (bsub src 0 n)); rewrite blen_bsub; lia).
  apply bytes_eq; [rewrite blen_app, !blen_rfc_stream, Hx, Hr; lia|]. intros i Hi. rewrite blen_app, blen_rfc_stream, Hx, Hr in Hi.
  rewrite gb_app, Hx by lia. rewrite (gb_rfc_stream _ _ first) by lia. destruct (Z.ltb_spec i n) as [Hl|Hl].
  - rewrite gb_xor_bytes, gb_bsub by (rewrite ?blen_bsub; lia). rewrite Z.div_small, Z.mod_small, !Z.add_0_r by lia.
    unfold rfc_block. by rewrite Eb.
  - assert (n = 64) as -> by lia. rewrite (gb_rfc_stream _ _ (first + 1)) by lia. rewrite gb_bsub by lia.
    replace (i `div` 64) with ((i - 64 + 1 * 64) `div` 64) by (f_equal; lia). replace (i `mod` 64) with ((i - 64 + 1 * 64) `mod` 64) by (f_equal; lia).
    rewrite Z.div_add, Z.mod_add by lia.
    replace (64 + (i - 64)) with i by lia. by replace (first + 1 + (i - 64) `div` 64) with (first + ((i - 64) `div` 64 + 1)) by lia.
Qed.

Lemma pad_to16_pad16 x : pad_to16 x = pad16 x.
Proof.
  unfold pad_to16, pad16. pose proof (Z.mod_pos_bound (blen x) 16 ltac:(lia)).
  destruct (Z.eqb_spec (blen x `mod` 16) 0) as [E|E]; [rewrite Z.mod_opp_l_z by lia; apply app_nil_r|]. by rewrite Z.mod_opp_l_nz by lia.
Qed.
Lemma blen_pad16 x : blen (pad16 x) `mod` 16 = 0.
Proof.
  unfold pad16. destruct (Z.eqb_spec (blen x `mod` 16) 0) as [E|E]; [done|].
  pose proof (Z.mod_pos_bound (blen x) 16 ltac:(lia)). rewrite blen_app, blen_zeros, Z.max_r, <- Z.add_mod_idemp_l by lia.
  by replace (blen x `mod` 16 + (16 - blen x `mod` 16)) with 16 by lia.
Qed.
Lemma pad_to16_app x y : blen x `mod` 16 = 0 → pad_to16 (x ++ y) = x ++ pad_to16 y.
Proof.
  intros E. unfold pad_to16. rewrite <- app_assoc, blen_app. do 3 f_equal. apply Z.div_exact in E; [|lia]. rewrite E.
  replace (- (16 * (blen x `div` 16) + blen y)) with (- blen y + (- (blen x `div` 16)) * 16) by lia. apply Z.mod_add. lia.
Qed.
Lemma le_bytes_split a b v : 0 <= v → le_bytes (a + b) v = le_bytes a v ++ le_bytes b (v `div` 256 ^ Z.of_nat a).
Proof.
  revert v. induction a as [|a IH]; intros v Hv; [by rewrite Z.div_1_r|]. cbn [le_bytes Nat.add app]. f_equal.
  rewrite IH by (apply Z.div_pos; lia). rewrite Nat2Z.inj_succ, Z.pow_succ_r, Z.div_div by lia. done.
Qed.
Lemma put_le32_bytes v : 0 <= v → put_le32 (v `mod` 4294967296) = le_bytes 4 v.
Proof.
  intros Hv. unfold put_le32. cbn [le_bytes]. rewrite !Z.div_div by lia. change (256 * 256 * 256) with 16777216. change (256 * 256) with 65536.
  assert (H : ∀ k m, 0 < k → 0 < m → (v `mod` (k * (256 * m)) `div` k) `mod` 256 = (v `div` k) `mod` 256).
  { intros k m Hk Hm. rewrite Z.rem_mul_r by lia. rewrite (Z.mul_comm k), Z.div_add by lia. rewrite Z.div_small by (apply Z.mod_pos_bound; lia).
    rewrite Z.add_0_l, Z.rem_mul_r by lia. rewrite (Z.mul_comm 256), Z.mod_add by lia. apply Z.mod_mod. lia. }
  pose proof (H 1 16777216 ltac:(lia) ltac:(lia)) as H1. rewrite !Z.div_1_r in H1.
  change 4294967296 with (1 * (256 * 16777216)) at 1. rewrite H1.
  change 4294967296 with (256 * (256 * 65536)) at 1. rewrite H by lia.
  change 4294967296 with (65536 * (256 * 256)) at 1. rewrite H by lia.
  change 4294967296 with (16777216 * (256 * 1)) at 1. rewrite H by lia. done.
Qed.
Lemma put_le64_bytes v : 0 <= v < 2 ^ 64 → put_le64 (u64 v) = le_bytes 8 v.
Proof.
  intros Hv. rewrite u64_small by lia. unfold put_le64. rewrite !put_le32_bytes by (try apply Z.div_pos; lia).
  symmetry. apply (le_bytes_split 4 4). lia.
Qed.

Lemma poly1305Big_rfc key nonce aad ct b : chachaBlock key 0 nonce = Ok b → blen b = 64 → bytes_ok b →
  blen aad < 2 ^ 64 → blen ct < 2 ^ 64 → poly1305Big (bsub b 0 32) aad ct = Ok (rfc_tag key nonce aad ct).
Proof.
  intros Eb Hl Hb Ha Hc. unfold poly1305Big. cbv zeta. rewrite poly1305_polynomial by (rewrite ?blen_bsub; auto with go; lia).
  f_equal. unfold rfc_tag, rfc_block. rewrite Eb, (pad_to16_pad16 aad), pad_to16_app, pad_to16_pad16 by apply blen_pad16.
  pose proof (blen_nonneg aad). pose proof (blen_nonneg ct). rewrite !put_le64_bytes by lia. by rewrite <- app_assoc.
Qed.

(** What fits the 32-bit lengths of the library is far within the limits of the RFC. *)
Definition ulong_max : Z := 4294967295.
Lemma Seal_rfc key nonce pt aad : blen nonce = 12 → blen pt <= ulong_max → blen aad <= ulong_max →
  Seal key nonce pt aad = Ok (rfc_chacha20 key nonce pt ++ rfc_tag key nonce aad (rfc_chacha20 key nonce pt)).
Proof.
  unfold ulong_max. intros Hn Hp Ha. unfold Seal. rewrite Hn. cbn [Z.eqb Pos.eqb negb].
  destruct (chachaBlock_ok key 0 nonce Hn) as (b & Eb & Hl & Hb). rewrite Eb, bind_Ok, slice_ok, bind_Ok by lia.
  assert (Hq : (blen pt + 63) `div` 64 <= 67108864) by (apply Z.lt_succ_r, Z.div_lt_upper_bound; lia).
  rewrite xorStream_rfc, bind_Ok by lia. fold (rfc_chacha20 key nonce pt).
  rewrite (poly1305Big_rfc key nonce) by (try done; try lia; unfold rfc_chacha20; rewrite ?blen_rfc_stream; lia). done.
Qed.
Lemma Open_rfc key nonce ct aad : blen nonce = 12 → 16 <= blen ct → blen ct <= ulong_max → blen aad <= ulong_max →
  let body := bsub ct 0 (blen ct - 16) in
  Open key nonce ct aad =
    if bool_decide (rfc_tag key nonce aad body = bsub ct (blen ct - 16) (blen ct)) then Ok (rfc_chacha20 key nonce body) else Err ErrAuth.
Proof.
  intros Hn Hc Hm Ha body. unfold ulong_max in Hm, Ha. unfold Open. rewrite Hn, (proj2 (Z.ltb_ge _ 16)) by lia. cbn [Z.eqb Pos.eqb negb orb]. cbv zeta.
  destruct (chachaBlock_ok key 0 nonce Hn) as (b & Eb & Hl & Hb). rewrite Eb, !bind_Ok, !slice_ok, !bind_Ok by lia. fold body.
  assert (Hbody : blen body = blen ct - 16) by (unfold body; rewrite blen_bsub; lia).
  rewrite (poly1305Big_rfc key nonce) by (try done; lia). rewrite !bind_Ok. destruct (bool_decide _); [|done]. cbn [negb].
  assert (Hq : (blen body + 63) `div` 64 <= 67108864) by (apply Z.lt_succ_r, Z.div_lt_upper_bound; lia).
  rewrite xorStream_rfc by lia. done.
Qed.

(** ** The library *)
(** [BCRYPT_AUTHENTICATED_CIPHER_MODE_INFO]; a pointer is what it points to, [None]
    for the null pointer. *)
Record authInfo := mkInfo {
  CbSize : Z; Version : Z; Nonce : option (list Z); NonceLen : Z; AuthData : option (list Z); AuthDataLen : Z;
  Tag : option (list Z); TagLen : Z; MacContext : option (list Z); MacContextLen : Z; AADLen : Z; DataLen : Z; Flags : Z
}.
(** What a call writes: the output buffer, for encryption the tag, and the count. *)
Record cipherResult := mkCipher { e_status : Z; e_out : list Z; e_tag : list Z; e_n : Z }.
Class CNG := {
  os : Type;
  BCryptOpenAlgorithmProvider : string → os → os * (Z * Z);
  BCryptGetProperty : Z → string → os → os * (Z * Z);
  BCryptGenerateSymmetricKey : Z → option (list Z) → Z → list Z → os → os * (Z * Z);
  BCryptDestroyKey : Z → os → os;
  BCryptCloseAlgorithmProvider : Z → os → os;
  BCryptEncrypt : Z → option (list Z) → Z → authInfo → Z → os → os * cipherResult;
  BCryptDecrypt : Z → option (list Z) → Z → authInfo → Z → os → os * cipherResult
}.

(** ** The wrapper *)
(** The error of a status, if it is one. *)
Definition ntok (r : Z) : option string :=
  if i32 r <? 0 then Some ("CNG NTSTATUS 0x" ++ text (fmt_08x (u32 r)))%string else None.
Definition ptr (b : list Z) : option (list Z) := match b with [] => None | _ => Some b end.
Definition info_size : Z := 88.
Definition cipher_info (nonce aad tag : list Z) : authInfo :=
  mkInfo info_size 1 (ptr nonce) (u32 (blen nonce)) (ptr aad) (u32 (blen aad)) (Some tag) 16 None 0 0 0 0.

Section Wrapper.
Context {C : CNG}.

Record cngAEAD := mkCng { c_alg : Z; c_key : Z; c_obj : list Z }.
Definition NewChaCha20Poly1305 (key : list Z) : SR os cngAEAD := fun st =>
  let '(st, (r, alg)) := BCryptOpenAlgorithmProvider "CHACHA20_POLY1305" st in
  match ntok r with
  | Some e => (st, Err ("BCryptOpenAlgorithmProvider: " ++ e)%string)
  | None =>
      let '(st, (r, objLen)) := BCryptGetProperty alg "ObjectLength" st in
      match ntok r with
      | Some e => (BCryptCloseAlgorithmProvider alg st, Err ("BCryptGetProperty(ObjectLength): " ++ e)%string)
      | None =>
          let obj := zeros objLen in
          let '(st, (r, hkey)) := BCryptGenerateSymmetricKey alg (ptr obj) objLen key st in
          match ntok r with
          | Some e => (BCryptCloseAlgorithmProvider alg st, Err ("BCryptGenerateSymmetricKey: " ++ e)%string)
          | None => (st, Ok (mkCng alg hkey obj))
          end
      end
  end.
Definition cngClose (c : cngAEAD) (st : os) : os * cngAEAD :=
  let (st, c) := if negb (c_key c =? 0) then (BCryptDestroyKey (c_key c) st, mkCng (c_alg c) 0 (c_obj c)) else (st, c) in
  if negb (c_alg c =? 0) then (BCryptCloseAlgorithmProvider (c_alg c) st, mkCng 0 (c_key c) (c_obj c)) else (st, c).
Definition cngSeal (c : cngAEAD) (nonce pt aad : list Z) : SR os (list Z) := fun st =>
  if negb (blen nonce =? 12) then (st, Err "nonce must be 12 bytes") else
  let tag := zeros 16 in
  let out := zeros (blen pt) in
  let (st, res) := BCryptEncrypt (c_key c) (ptr pt) (blen pt) (cipher_info nonce aad tag) (blen out) st in
  match ntok (e_status res) with
  | Some e => (st, Err e)
  | None =>
      if negb (e_n res =? blen out) then (st, Err (text (lit "CNG encrypt size " ++ fmt_d (e_n res) ++ lit " != " ++ fmt_d (blen out)))) else
      (st, Ok (bcopy out 0 (e_out res) ++ bcopy tag 0 (e_tag res)))
  end.
Definition cngOpen (c : cngAEAD) (nonce ct aad : list Z) : SR os (list Z) := fun st =>
  if negb (blen nonce =? 12) || (blen ct <? 16) then (st, Err ErrAuth) else
  let nct := blen ct - 16 in
  match slice ct nct (blen ct) with
  | Ok tag =>
      let out := zeros nct in
      let inPtr := if 0 <? nct then ptr ct else None in
      let (st, res) := BCryptDecrypt (c_key c) inPtr nct (cipher_info nonce aad tag) (blen out) st in
      if i32 (e_status res) <? 0 then (st, Err ErrAuth) else
      if negb (e_n res =? blen out) then (st, Err (text (lit "CNG decrypt size " ++ fmt_d (e_n res) ++ lit " != " ++ fmt_d (blen out)))) else
      (st, Ok (bcopy out 0 (e_out res)))
  | _ => (st, Panic)
  end.

(** XChaCha20-Poly1305 on top, with the object created and closed by each call. *)
Definition with_cipher {A} (sub : list Z) (body : cngAEAD → SR os A) : SR os A := fun st =>
  match NewChaCha20Poly1305 sub st with
  | (st, Ok c) => let (st, r) := body c st in ((cngClose c st).1, r)
  | (st, Err e) => (st, Err e)
  | (st, Panic) => (st, Panic)
  | (st, OutOfFuel) => (st, OutOfFuel)
  end.
Definition cngXSeal (key nonce pt aad : list Z) : SR os (list Z) :=
  if negb (blen nonce =? 24) then sfail "xchacha: nonce must be 24 bytes" else
  n16 ← liftR (slice nonce 0 16);
  sub ← liftR (hChaCha20 key n16);
  with_cipher sub (fun c => n8 ← liftR (slice nonce 16 (blen nonce)); cngSeal c (zeros 4 ++ n8) pt aad).
Definition cngXOpen (key nonce ct aad : list Z) : SR os (list Z) :=
  if negb (blen nonce =? 24) then sfail "xchacha: nonce must be 24 bytes" else
  n16 ← liftR (slice nonce 0 16);
  sub ← liftR (hChaCha20 key n16);
  with_cipher sub (fun c => n8 ← liftR (slice nonce 16 (blen nonce)); cngOpen c (zeros 4 ++ n8) ct aad).
End Wrapper.

(** ** What the library documents *)
Definition deref (p : option (list Z)) (n : Z) : list Z := take (Z.to_nat n) (default [] p).
(** A cipher call whose parameters are valid. *)
Record call_ok (inp : option (list Z)) (n : Z) (ai : authInfo) (cbOut : Z) : Prop := mkCallOk {
  co_size : CbSize ai = info_size; co_version : Version ai = 1;
  co_nonce : NonceLen ai = 12 ∧ blen (deref (Nonce ai) (NonceLen ai)) = 12;
  co_aad : 0 <= AuthDataLen ai <= ulong_max ∧ blen (deref (AuthData ai) (AuthDataLen ai)) = AuthDataLen ai;
  co_tag : TagLen ai = 16 ∧ blen (deref (Tag ai) (TagLen ai)) = 16;
  co_plain : MacContextLen ai = 0 ∧ AADLen ai = 0 ∧ DataLen ai = 0 ∧ Flags ai = 0;
  co_in : 0 <= n <= ulong_max ∧ blen (deref inp n) = n ∧ n <= cbOut
}.
(** The handles: for each provider that is open the algorithm it was opened for, and for
    each key its provider and its bytes.  A handle is not null and not the handle of
    something live.  Only keys of a provider of [chacha_alg] encrypt and decrypt as
    RFC 8439 says; of the keys of other algorithms nothing is said. *)
Definition chacha_alg : string := "CHACHA20_POLY1305".
Class CNGLaws (C : CNG) := {
  provs : os → gmap Z string;
  keys : os → gmap Z (Z * list Z);
  keys_null : ∀ st, keys st !! 0 = None;
  open_law : ∀ name st, let '(st', (r, h)) := BCryptOpenAlgorithmProvider name st in
    keys st' = keys st ∧
    if 0 <=? i32 r then h ≠ 0 ∧ provs st !! h = None ∧ provs st' = <[h := name]> (provs st) else provs st' = provs st;
  property_law : ∀ alg name st, let '(st', (r, v)) := BCryptGetProperty alg name st in
    provs st' = provs st ∧ keys st' = keys st;
  generate_law : ∀ alg obj n secret st, let '(st', (r, h)) := BCryptGenerateSymmetricKey alg obj n secret st in
    provs st' = provs st ∧
    if 0 <=? i32 r then h ≠ 0 ∧ keys st !! h = None ∧ keys st' = <[h := (alg, secret)]> (keys st) else keys st' = keys st;
  destroy_law : ∀ h st, provs (BCryptDestroyKey h st) = provs st ∧ keys (BCryptDestroyKey h st) = delete h (keys st);
  close_law : ∀ h st, provs (BCryptCloseAlgorithmProvider h st) = delete h (provs st) ∧ keys (BCryptCloseAlgorithmProvider h st) = keys st;
  encrypt_keeps : ∀ h inp n ai cbOut st, let st' := (BCryptEncrypt h inp n ai cbOut st).1 in provs st' = provs st ∧ keys st' = keys st;
  decrypt_keeps : ∀ h inp n ai cbOut st, let st' := (BCryptDecrypt h inp n ai cbOut st).1 in provs st' = provs st ∧ keys st' = keys st;
  encrypt_invalid : ∀ h inp n ai cbOut st, keys st !! h = None → i32 (e_status (BCryptEncrypt h inp n ai cbOut st).2) < 0;
  decrypt_invalid : ∀ h inp n ai cbOut st, keys st !! h = None → i32 (e_status (BCryptDecrypt h inp n ai cbOut st).2) < 0;
  encrypt_law : ∀ h alg k inp n ai cbOut st, keys st !! h = Some (alg, k) → provs st !! alg = Some chacha_alg → call_ok inp n ai cbOut →
    let res := (BCryptEncrypt h inp n ai cbOut st).2 in
    let nonce := deref (Nonce ai) 12 in
    let aad := deref (AuthData ai) (AuthDataLen ai) in
    0 <= i32 (e_status res) ∧ e_n res = n ∧ e_out res = rfc_chacha20 k nonce (deref inp n) ∧ e_tag res = rfc_tag k nonce aad (e_out res);
  decrypt_law : ∀ h alg k inp n ai cbOut st, keys st !! h = Some (alg, k) → provs st !! alg = Some chacha_alg → call_ok inp n ai cbOut →
    let res := (BCryptDecrypt h inp n ai cbOut st).2 in
    let nonce := deref (Nonce ai) 12 in
    let aad := deref (AuthData ai) (AuthDataLen ai) in
    if bool_decide (rfc_tag k nonce aad (deref inp n) = deref (Tag ai) 16)
    then 0 <= i32 (e_status res) ∧ e_n res = n ∧ e_out res = rfc_chacha20 k nonce (deref inp n)
    else i32 (e_status res) < 0
}.

(** ** Each operation *)
Section Ops.
Context {C : CNG} {L : CNGLaws C}.

(** The object stands for a cipher with this key; it is closed. *)
Definition holds (st : os) (c : cngAEAD) (k : list Z) : Prop :=
  c_key c ≠ 0 ∧ c_alg c ≠ 0 ∧ keys st !! c_key c = Some (c_alg c, k) ∧ provs st !! c_alg c = Some chacha_alg.
Definition closed (c : cngAEAD) : Prop := c_key c = 0 ∧ c_alg c = 0.

Lemma ntok_spec r : match ntok r with Some _ => (0 <=? i32 r) = false | None => (0 <=? i32 r) = true end.
Proof. unfold ntok. destruct (Z.ltb_spec (i32 r) 0); [apply Z.leb_gt|apply Z.leb_le]; lia. Qed.
Lemma deref_ptr b n : n = blen b → deref (ptr b) n = b.
Proof. intros ->. unfold deref, blen. rewrite Nat2Z.id. destruct b; [done|]. apply take_ge. done. Qed.
Lemma bcopy_all n src : blen src = n → bcopy (zeros n) 0 src = src.
Proof.
  intros H. pose proof (blen_nonneg src). assert (Hz : blen (zeros n) = n) by (rewrite blen_zeros; lia).
  apply bytes_eq; [rewrite blen_bcopy by lia; lia|]. intros i Hi. rewrite blen_bcopy in Hi by lia. rewrite gb_bcopy_in by lia. f_equal. lia.
Qed.

(** Creating: an error leaves the handles as they were, success adds one of each. *)
Lemma New_spec key st :
  match NewChaCha20Poly1305 key st with
  | (st', Ok c) => holds st' c key ∧ provs st !! c_alg c = None ∧ keys st !! c_key c = None ∧
      provs st' = <[c_alg c := chacha_alg]> (provs st) ∧ keys st' = <[c_key c := (c_alg c, key)]> (keys st)
  | (st', Err _) => provs st' = provs st ∧ keys st' = keys st
  | _ => False
  end.
Proof.
  unfold NewChaCha20Poly1305. pose proof (open_law "CHACHA20_POLY1305" st) as Ho.
  destruct (BCryptOpenAlgorithmProvider _ _) as [st1 [r1 alg]]. destruct Ho as [Hk1 Ho]. pose proof (ntok_spec r1) as N1.
  destruct (ntok r1) as [e1|]; rewrite N1 in Ho; [done|]. destruct Ho as (Hn & Hf & Hp1).
  pose proof (property_law alg "ObjectLength" st1) as Hg. destruct (BCryptGetProperty _ _ _) as [st2 [r2 objLen]]. destruct Hg as [Hp2 Hk2].
  assert (Hc : ∀ st3, provs st3 = provs st1 → keys st3 = keys st1 →
    provs (BCryptCloseAlgorithmProvider alg st3) = provs st ∧ keys (BCryptCloseAlgorithmProvider alg st3) = keys st).
  { intros st3 E1 E2. destruct (close_law alg st3) as [-> ->]. split; [|congruence]. rewrite E1, Hp1. by apply delete_insert_id. }
  destruct (ntok r2) as [e2|]; [by apply Hc|]. cbv zeta.
  pose proof (generate_law alg (ptr (zeros objLen)) objLen key st2) as Hg. destruct (BCryptGenerateSymmetricKey _ _ _ _ _) as [st3 [r3 hkey]].
  destruct Hg as [Hp3 Hk3]. pose proof (ntok_spec r3) as N3. destruct (ntok r3) as [e3|]; rewrite N3 in Hk3; [apply Hc; congruence|].
  destruct Hk3 as (Hh & Hfk & Hk3). rewrite Hk2, Hk1 in Hfk, Hk3. cbn. unfold holds. cbn. rewrite Hp3, Hp2, Hp1, Hk3, !lookup_insert_eq.
  by split_and!.
Qed.

Lemma cngClose_spec c st :
  let '(st', c') := cngClose c st in
  closed c' ∧
  provs st' = (if c_alg c =? 0 then provs st else delete (c_alg c) (provs st)) ∧
  keys st' = (if c_key c =? 0 then keys st else delete (c_key c) (keys st)).
Proof.
  unfold cngClose, closed. destruct c as [alg key obj]. cbn. destruct (Z.eqb_spec key 0) as [->|Hk]; cbn.
  - destruct (Z.eqb_spec alg 0) as [->|Ha]; cbn; [done|]. by destruct (close_law alg st) as [-> ->].
  - destruct (destroy_law key st) as [Hp Hd].
    destruct (Z.eqb_spec alg 0) as [->|Ha]; cbn; [done|]. destruct (close_law alg (BCryptDestroyKey key st)) as [-> ->]. by rewrite Hp, Hd.
Qed.
Lemma cngClose_closed c st : closed c → cngClose c st = (st, c).
Proof. intros [E1 E2]. unfold cngClose. rewrite E1. cbn. by rewrite E2. Qed.

Lemma Seal_keeps c nonce pt aad st : let st' := (cngSeal c nonce pt aad st).1 in provs st' = provs st ∧ keys st' = keys st.
Proof.
  unfold cngSeal. destruct (negb _); [done|]. cbv zeta. pose proof (encrypt_keeps (c_key c) (ptr pt) (blen pt) (cipher_info nonce aad (zeros 16)) (blen (zeros (blen pt))) st) as H.
  destruct (BCryptEncrypt _ _ _ _ _ _) as [st' res]. destruct (ntok _); [done|]. by destruct (negb _).
Qed.
Lemma Open_keeps c nonce ct aad st : let st' := (cngOpen c nonce ct aad st).1 in provs st' = provs st ∧ keys st' = keys st.
Proof.
  unfold cngOpen. destruct (_ || _); [done|]. cbv zeta. destruct (slice _ _ _) as [tag| | |]; [|done..].
  pose proof (decrypt_keeps (c_key c) (if 0 <? blen ct - 16 then ptr ct else None) (blen ct - 16) (cipher_info nonce aad tag) (blen (zeros (blen ct - 16))) st) as H.
  destruct (BCryptDecrypt _ _ _ _ _ _) as [st' res]. destruct (_ <? 0); [done|]. by destruct (negb _).
Qed.

Lemma cipher_info_ok inp n nonce aad tag : blen nonce = 12 → blen aad <= ulong_max → blen tag = 16 →
  0 <= n <= ulong_max → blen (deref inp n) = n → call_ok inp n (cipher_info nonce aad tag) n.
Proof.
  unfold ulong_max. intros Hn Ha Ht Hr Hd. pose proof (blen_nonneg aad). unfold cipher_info. rewrite Hn, !u32_small by lia. split; cbn; try done; try lia.
  - by rewrite deref_ptr by lia.
  - rewrite deref_ptr by lia. unfold ulong_max. lia.
  - split; [done|]. unfold deref. cbn. rewrite <- Ht at 2. f_equal. apply take_ge. unfold blen in Ht. lia.
Qed.

(** A live object seals and opens as the portable implementation does. *)
Lemma Seal_live c k nonce pt aad st : holds st c k → blen pt <= ulong_max → blen aad <= ulong_max →
  (cngSeal c nonce pt aad st).2 = Seal k nonce pt aad.
Proof.
  intros (Hk0 & Ha0 & Hk & Ha) Hp Hl. unfold cngSeal. destruct (Z.eqb_spec (blen nonce) 12) as [Hn|Hn]; cbn [negb].
  2: { unfold Seal. by rewrite (proj2 (Z.eqb_neq _ _) Hn). }
  rewrite Seal_rfc by done. cbv zeta. pose proof (blen_nonneg pt) as Hp0. pose proof (blen_nonneg aad) as Hl0.
  assert (Hz : blen (zeros (blen pt)) = blen pt) by (rewrite blen_zeros; lia). rewrite Hz.
  assert (Hc : call_ok (ptr pt) (blen pt) (cipher_info nonce aad (zeros 16)) (blen pt)) by (apply cipher_info_ok; try done; by rewrite deref_ptr).
  pose proof (encrypt_law _ _ _ _ _ _ _ st Hk Ha Hc) as He. cbv zeta in He. cbn [Nonce AuthData AuthDataLen cipher_info] in He.
  destruct (BCryptEncrypt _ _ _ _ _ _) as [st' res]. cbn [snd] in He. destruct He as (Hs & En & Eo & Et).
  pose proof (ntok_spec (e_status res)) as N. destruct (ntok _); [apply Z.leb_gt in N; lia|].
  rewrite En, Z.eqb_refl. cbn [negb snd]. unfold ulong_max in *.
  rewrite !deref_ptr in Eo by lia. rewrite !deref_ptr, Eo in Et by (rewrite ?u32_small; lia). rewrite Eo, Et.
  assert (Ho : blen (rfc_chacha20 k nonce pt) = blen pt) by apply blen_rfc_stream.
  rewrite !bcopy_all; [done| |done]. destruct (chachaBlock_ok k 0 nonce Hn) as (b & Eb & Hbl & Hb).
  destruct (poly1305Big_total (bsub b 0 32) aad (rfc_chacha20 k nonce pt)) as (tag & E & Ht & _).
  rewrite (poly1305Big_rfc k nonce) in E by (try done; lia). congruence.
Qed.
Lemma Open_live c k nonce ct aad st : holds st c k → blen ct <= ulong_max → blen aad <= ulong_max →
  (cngOpen c nonce ct aad st).2 = Open k nonce ct aad.
Proof.
  intros (Hk0 & Ha0 & Hk & Ha) Hp Hl. unfold cngOpen. destruct (negb (blen nonce =? 12) || (blen ct <? 16)) eqn:E; [unfold Open; by rewrite E|].
  apply orb_false_iff in E as [E1 E2]. apply negb_false_iff, Z.eqb_eq in E1. apply Z.ltb_ge in E2.
  rewrite Open_rfc by done. cbv zeta. rewrite slice_ok by lia. pose proof (blen_nonneg aad) as Hl0.
  set (n := blen ct - 16). set (tag := bsub ct n (blen ct)). set (inp := if 0 <? n then ptr ct else None).
  assert (Hz : blen (zeros n) = n) by (rewrite blen_zeros; lia). rewrite Hz.
  assert (Ei : deref inp n = bsub ct 0 n).
  { unfold inp, deref, bsub. rewrite Z.sub_0_r, drop_0. destruct (Z.ltb_spec 0 n); [|by replace (Z.to_nat n) with 0%nat by lia]. by destruct ct. }
  assert (Hc : call_ok inp n (cipher_info nonce aad tag) n).
  { apply cipher_info_ok; try done; try (unfold n, tag; rewrite ?Ei, ?blen_bsub; lia). rewrite Ei, blen_bsub; lia. }
  pose proof (decrypt_law _ _ _ _ _ _ _ st Hk Ha Hc) as He. cbv zeta in He. cbn [Nonce AuthData AuthDataLen Tag cipher_info] in He.
  unfold ulong_max in *. rewrite !deref_ptr, Ei in He by (rewrite ?u32_small; lia).
  assert (Et : deref (Some tag) 16 = tag) by (unfold deref; cbn; apply take_ge; assert (H : blen tag = 16) by (unfold tag, n; rewrite blen_bsub; lia); unfold blen in H; lia).
  rewrite Et in He. destruct (BCryptDecrypt _ _ _ _ _ _) as [st' res]. cbn [snd] in He.
  destruct (bool_decide _).
  - destruct He as (Hs & En & Eo). rewrite (proj2 (Z.ltb_ge _ 0)), En, Z.eqb_refl by lia. cbn [negb snd]. f_equal. rewrite Eo. apply bcopy_all.
    unfold rfc_chacha20. rewrite blen_rfc_stream, blen_bsub; lia.
  - by rewrite (proj2 (Z.ltb_lt _ 0)) by lia.
Qed.
Lemma Seal_closed c nonce pt aad st : closed c → ∃ e, (cngSeal c nonce pt aad st).2 = Err e.
Proof.
  intros [E _]. unfold cngSeal. destruct (negb _); [eauto|]. cbv zeta. rewrite E.
  pose proof (encrypt_invalid 0 (ptr pt) (blen pt) (cipher_info nonce aad (zeros 16)) (blen (zeros (blen pt))) st (keys_null st)) as H.
  destruct (BCryptEncrypt _ _ _ _ _ _) as [st' res]. cbn [snd] in *. pose proof (ntok_spec (e_status res)) as N. destruct (ntok _); [eauto|]. apply Z.leb_le in N. lia.
Qed.
Lemma Open_closed c nonce ct aad st : closed c → (cngOpen c nonce ct aad st).2 = Err ErrAuth.
Proof.
  intros [E _]. unfold cngOpen. destruct (negb (blen nonce =? 12) || (blen ct <? 16)) eqn:Eg; [done|]. apply orb_false_iff in Eg as [_ E2]. apply Z.ltb_ge in E2.
  cbv zeta. rewrite slice_ok, E by lia. 
  pose proof (decrypt_invalid 0 (if 0 <? blen ct - 16 then ptr ct else None) (blen ct - 16) (cipher_info nonce aad (bsub ct (blen ct - 16) (blen ct))) (blen (zeros (blen ct - 16))) st (keys_null st)) as H.
  destruct (BCryptDecrypt _ _ _ _ _ _) as [st' res]. cbn [snd] in *. by rewrite (proj2 (Z.ltb_lt _ 0)) by lia.
Qed.
End Ops.

(** ** Many objects *)
(** What the clients of the package do: create, seal, open and close, in any order, any
    number of times. *)
Inductive command :=
  | CNew (key : list Z)
  | CSeal (i : nat) (nonce pt aad : list Z)
  | COpen (i : nat) (nonce ct aad : list Z)
  | CClose (i : nat).
Definition command_ok (c : command) : Prop :=
  match c with
  | CSeal _ _ x aad | COpen _ _ x aad => blen x <= ulong_max ∧ blen aad <= ulong_max
  | _ => True
  end.
(** What they may expect, of ciphers that are keys ([None]: closed): creating can fail, and
    then nothing has happened; a cipher behaves as the portable one until it is closed. *)
Inductive allowed : command → list (option (list Z)) → Res (list Z) → list (option (list Z)) → Prop :=
  | al_new key l : allowed (CNew key) l (Ok []) (l ++ [Some key])
  | al_failed key l e : allowed (CNew key) l (Err e) l
  | al_seal i nonce pt aad l k : l !! i = Some (Some k) → allowed (CSeal i nonce pt aad) l (Seal k nonce pt aad) l
  | al_open i nonce ct aad l k : l !! i = Some (Some k) → allowed (COpen i nonce ct aad) l (Open k nonce ct aad) l
  | al_seal_closed i nonce pt aad l e : l !! i = Some None → allowed (CSeal i nonce pt aad) l (Err e) l
  | al_open_closed i nonce ct aad l : l !! i = Some None → allowed (COpen i nonce ct aad) l (Err ErrAuth) l
  | al_close i l : is_Some (l !! i) → allowed (CClose i) l (Ok []) (<[i := None]> l)
  | al_nil i nonce x aad l : l !! i = None → allowed (CSeal i nonce x aad) l Panic l
  | al_nil_open i nonce x aad l : l !! i = None → allowed (COpen i nonce x aad) l Panic l
  | al_nil_close i l : l !! i = None → allowed (CClose i) l Panic l.
Inductive allowed_run : list command → list (option (list Z)) → list (Res (list Z)) → list (option (list Z)) → Prop :=
  | ar_nil l : allowed_run [] l [] l
  | ar_cons c cs l r l' rs l'' : allowed c l r l' → allowed_run cs l' rs l'' → allowed_run (c :: cs) l (r :: rs) l''.

Section Machine.
Context {C : CNG}.
Definition run_command (c : command) (st : os) (objs : list cngAEAD) : os * list cngAEAD * Res (list Z) :=
  match c with
  | CNew key =>
      match NewChaCha20Poly1305 key st with
      | (st, Ok a) => (st, objs ++ [a], Ok [])
      | (st, Err e) => (st, objs, Err e)
      | (st, Panic) => (st, objs, Panic)
      | (st, OutOfFuel) => (st, objs, OutOfFuel)
      end
  | CSeal i nonce pt aad => match objs !! i with Some a => let (st, r) := cngSeal a nonce pt aad st in (st, objs, r) | None => (st, objs, Panic) end
  | COpen i nonce ct aad => match objs !! i with Some a => let (st, r) := cngOpen a nonce ct aad st in (st, objs, r) | None => (st, objs, Panic) end
  | CClose i => match objs !! i with Some a => let (st, a) := cngClose a st in (st, <[i := a]> objs, Ok []) | None => (st, objs, Panic) end
  end.
Fixpoint run_commands (cs : list command) (st : os) (objs : list cngAEAD) : os * list cngAEAD * list (Res (list Z)) :=
  match cs with
  | [] => (st, objs, [])
  | c :: cs =>
      let '(st, objs, r) := run_command c st objs in
      let '(st, objs, rs) := run_commands cs st objs in (st, objs, r :: rs)
  end.

Context {L : CNGLaws C}.
(** The live handles are those of before and one of each kind per open object. *)
Record accounted (st0 st : os) (objs : list cngAEAD) (l : list (option (list Z))) : Prop := mkAccounted {
  ac_length : length objs = length l;
  ac_closed : ∀ i a, objs !! i = Some a → l !! i = Some None → closed a;
  ac_open : ∀ i a k, objs !! i = Some a → l !! i = Some (Some k) → holds st a k;
  ac_providers : ∀ h, is_Some (provs st !! h) ↔ is_Some (provs st0 !! h) ∨ ∃ i a, objs !! i = Some a ∧ c_alg a = h ∧ h ≠ 0;
  ac_keys : ∀ h, is_Some (keys st !! h) ↔ is_Some (keys st0 !! h) ∨ ∃ i a, objs !! i = Some a ∧ c_key a = h ∧ h ≠ 0;
  ac_before : ∀ h e, keys st0 !! h = Some e → keys st !! h = Some e;
  ac_before' : ∀ h e, provs st0 !! h = Some e → provs st !! h = Some e;
  ac_new : ∀ i a, objs !! i = Some a → c_alg a ≠ 0 → provs st0 !! c_alg a = None;
  ac_newkey : ∀ i a, objs !! i = Some a → c_key a ≠ 0 → keys st0 !! c_key a = None;
  ac_distinct : ∀ i j a b, objs !! i = Some a → objs !! j = Some b → i ≠ j →
    (c_alg a = c_alg b → c_alg a = 0) ∧ (c_key a = c_key b → c_key a = 0)
}.

Lemma accounted_start st : accounted st st [] [].
Proof. split; try done; naive_solver. Qed.
Lemma accounted_same st0 st st' objs l : provs st' = provs st → keys st' = keys st → accounted st0 st objs l → accounted st0 st' objs l.
Proof. intros Ep Ek [H1 H2 H3 H4 H5 H6 H6' H7 H8 H9]. split; try done; unfold holds in *; by rewrite ?Ep, ?Ek. Qed.
Lemma lookup_snoc {A} (l : list A) x i y : (l ++ [x]) !! i = Some y ↔ l !! i = Some y ∨ i = length l ∧ y = x.
Proof.
  rewrite lookup_app_Some, list_lookup_singleton_Some. split; intros [H|H]; [by left|right|by left|right]; destruct H as (H1 & H2); [destruct H2; split; [lia|done]|].
  subst. split; [lia|]. by rewrite Nat.sub_diag.
Qed.
Lemma accounted_new st0 st objs l key st' a : accounted st0 st objs l → NewChaCha20Poly1305 key st = (st', Ok a) →
  accounted st0 st' (objs ++ [a]) (l ++ [Some key]).
Proof.
  intros [H1 H2 H3 H4 H5 H6 H6' H7 H8 H9] E. pose proof (New_spec key st) as H. rewrite E in H. destruct H as (Hh & Hp & Hk & Ep & Ek).
  pose proof Hh as (Hk0 & Ha0 & _).
  assert (Hold : ∀ i b, objs !! i = Some b → (c_alg b ≠ 0 → is_Some (provs st !! c_alg b)) ∧ (c_key b ≠ 0 → is_Some (keys st !! c_key b))).
  { intros i b Hi. split; intros Hz; [apply H4|apply H5]; right; eauto. }
  split.
  - rewrite !length_app. cbn. lia.
  - intros i b Hb Hl. apply lookup_snoc in Hb as [Hb|[-> ->]]; apply lookup_snoc in Hl as [Hl|[El El']]; try done; [by eapply H2|].
    apply lookup_lt_Some in Hl. lia.
  - intros i b k Hb Hl. apply lookup_snoc in Hb as [Hb|[-> ->]]; apply lookup_snoc in Hl as [Hl|[El El']].
    + destruct (H3 i b k Hb Hl) as (? & ? & Hkb & ?). split_and!; try done; [rewrite Ek, lookup_insert_ne; [done|]; congruence|rewrite Ep, lookup_insert_ne; [done|]; congruence].
    + apply lookup_lt_Some in Hb. lia.
    + apply lookup_lt_Some in Hl. lia.
    + by injection El' as ->.
  - intros h. rewrite Ep. setoid_rewrite lookup_snoc. destruct (decide (h = c_alg a)) as [->|Hne].
    + rewrite lookup_insert_eq. split; [intros _; right; eauto 10|eauto].
    + rewrite lookup_insert_ne, H4 by done. split; [intros [?|(i & b & ? & ? & ?)]; [by left|right; eauto 10]|].
      intros [?|(i & b & [Hb|[-> ->]] & Eb & Hz)]; [by left|right; eauto|congruence].
  - intros h. rewrite Ek. setoid_rewrite lookup_snoc. destruct (decide (h = c_key a)) as [->|Hne].
    + rewrite lookup_insert_eq. split; [intros _; right; eauto 10|eauto].
    + rewrite lookup_insert_ne, H5 by done. split; [intros [?|(i & b & ? & ? & ?)]; [by left|right; eauto 10]|].
      intros [?|(i & b & [Hb|[-> ->]] & Eb & Hz)]; [by left|right; eauto|congruence].
  - intros h e Hb. rewrite Ek, lookup_insert_ne; [by apply H6|]. intros <-. apply H6 in Hb. congruence.
  - intros h e Hb. rewrite Ep, lookup_insert_ne; [by apply H6'|]. intros <-. apply H6' in Hb. congruence.
  - intros i b Hb Hz. apply lookup_snoc in Hb as [Hb|[-> ->]]; [by eapply H7|]. apply eq_None_not_Some. intros Hin.
    assert (is_Some (provs st !! c_alg a)) as [? ?] by (apply H4; by left). congruence.
  - intros i b Hb Hz. apply lookup_snoc in Hb as [Hb|[-> ->]]; [by eapply H8|]. apply eq_None_not_Some. intros Hin.
    assert (is_Some (keys st !! c_key a)) as [? ?] by (apply H5; by left). congruence.
  - intros i j x y Hx Hy Hij. apply lookup_snoc in Hx as [Hx|[-> ->]]; apply lookup_snoc in Hy as [Hy|[-> ->]]; try done; [by eapply H9| |].
    + destruct (Hold i x Hx) as [O1 O2]. split; intros Ee; (destruct (decide (c_alg x = 0 ∧ c_key x = 0)); [tauto|]).
      * destruct (decide (c_alg x = 0)); [done|]. rewrite Ee in O1. destruct O1 as [? ?]; [done|congruence].
      * destruct (decide (c_key x = 0)); [done|]. rewrite Ee in O2. destruct O2 as [? ?]; [done|congruence].
    + destruct (Hold j y Hy) as [O1 O2]. split; intros Ee; exfalso.
      * destruct O1 as [? O1]; congruence.
      * destruct O2 as [? O2]; congruence.
Qed.
Lemma insert_lookup {A} (l : list A) i x j y : (i < length l)%nat → <[i := x]> l !! j = Some y ↔ (j = i ∧ y = x) ∨ (j ≠ i ∧ l !! j = Some y).
Proof.
  intros Hi. destruct (decide (j = i)) as [->|Hj]; [rewrite list_lookup_insert_eq by done|rewrite list_lookup_insert_ne by done]; naive_solver.
Qed.
Lemma accounted_close st0 st objs l i a : accounted st0 st objs l → objs !! i = Some a →
  accounted st0 (cngClose a st).1 (<[i := (cngClose a st).2]> objs) (<[i := None]> l).
Proof.
  intros [H1 H2 H3 H4 H5 H6 H6' H7 H8 H9] Hi. pose proof (cngClose_spec a st) as H. destruct (cngClose a st) as [st' a']. cbn.
  destruct H as ([Hc1 Hc2] & Ep & Ek). pose proof (lookup_lt_Some _ _ _ Hi) as Hlt.
  assert (Hpe : ∀ h e, provs st' !! h = Some e ↔ provs st !! h = Some e ∧ (h = c_alg a → c_alg a = 0))
    by (intros h e; rewrite Ep; destruct (Z.eqb_spec (c_alg a) 0) as [|]; [naive_solver|rewrite lookup_delete_Some; naive_solver]).
  assert (Hp : ∀ h, is_Some (provs st' !! h) ↔ is_Some (provs st !! h) ∧ (h = c_alg a → c_alg a = 0)) by (intros h; unfold is_Some; setoid_rewrite Hpe; naive_solver).
  assert (Hk : ∀ h e, keys st' !! h = Some e ↔ keys st !! h = Some e ∧ (h = c_key a → c_key a = 0))
    by (intros h e; rewrite Ek; destruct (Z.eqb_spec (c_key a) 0) as [|]; [naive_solver|rewrite lookup_delete_Some; naive_solver]).
  assert (Hk' : ∀ h, is_Some (keys st' !! h) ↔ is_Some (keys st !! h) ∧ (h = c_key a → c_key a = 0)) by (intros h; unfold is_Some; setoid_rewrite Hk; naive_solver).
  split.
  - rewrite !length_insert. done.
  - intros j b Hb Hl. apply insert_lookup in Hb as [[-> ->]|[Hj Hb]]; [done| |done]. apply insert_lookup in Hl as [[-> _]|[_ Hl]]; [done|by eapply H2|lia].
  - intros j b k Hb Hl. apply insert_lookup in Hl as [[_ ?]|[Hj Hl]]; [done| |lia]. apply insert_lookup in Hb as [[? _]|[_ Hb]]; [done| |done].
    destruct (H3 j b k Hb Hl) as (? & ? & ? & ?). destruct (H9 i j a b Hi Hb ltac:(done)) as [D1 D2].
    split_and!; try done; [apply Hk|apply Hpe]; split; try done; intros E; [apply D2|apply D1]; done.
  - intros h. rewrite Hp, H4. setoid_rewrite (insert_lookup objs i a' _ _ Hlt). split.
    + intros [[Hh|(j & b & Hb & Eb & Hz)] Hn]; [by left|]. right. exists j, b. split_and!; try done. right. split; [|done].
      intros ->. assert (b = a) as -> by congruence. naive_solver.
    + intros [Hh|(j & b & [[-> ->]|[Hj Hb]] & Eb & Hz)]; [|congruence|].
      * split; [by left|]. intros ->. destruct (decide (c_alg a = 0)); [done|]. rewrite (H7 i a Hi) in Hh by done. by destruct Hh.
      * split; [right; eauto|]. intros E. apply (H9 i j a b Hi Hb ltac:(done)). congruence.
  - intros h. rewrite Hk', H5. setoid_rewrite (insert_lookup objs i a' _ _ Hlt). split.
    + intros [[Hh|(j & b & Hb & Eb & Hz)] Hn]; [by left|]. right. exists j, b. split_and!; try done. right. split; [|done].
      intros ->. assert (b = a) as -> by congruence. naive_solver.
    + intros [Hh|(j & b & [[-> ->]|[Hj Hb]] & Eb & Hz)]; [|congruence|].
      * split; [by left|]. intros ->. destruct (decide (c_key a = 0)); [done|]. rewrite (H8 i a Hi) in Hh by done. by destruct Hh.
      * split; [right; eauto|]. intros E. apply (H9 i j a b Hi Hb ltac:(done)). congruence.
  - intros h e He. apply Hk. split; [by apply H6|]. intros ->. destruct (decide (c_key a = 0)); [done|]. rewrite (H8 i a Hi) in He by done. done.
  - intros h e He. apply Hpe. split; [by apply H6'|]. intros ->. destruct (decide (c_alg a = 0)); [done|]. rewrite (H7 i a Hi) in He by done. done.
  - intros j b Hb Hz. apply insert_lookup in Hb as [[-> ->]|[_ Hb]]; [done|by eapply H7|done].
  - intros j b Hb Hz. apply insert_lookup in Hb as [[-> ->]|[_ Hb]]; [done|by eapply H8|done].
  - intros j k b c Hb Hc Hjk. apply insert_lookup in Hb as [[-> ->]|[_ Hb]]; [done| |done]. apply insert_lookup in Hc as [[-> ->]|[_ Hc]]; [|by eapply H9|done].
    rewrite Hc1, Hc2. done.
Qed.

Lemma run_command_allowed st0 c st objs l : command_ok c → accounted st0 st objs l →
  let '(st', objs', r) := run_command c st objs in ∃ l', allowed c l r l' ∧ accounted st0 st' objs' l'.
Proof.
  intros Hc Ha. pose proof (ac_length _ _ _ _ Ha) as Hl.
  assert (Hnone : ∀ i, objs !! i = None → l !! i = None) by (intros i; rewrite !lookup_ge_None; lia).
  assert (Hsome : ∀ i a, objs !! i = Some a → ∃ o, l !! i = Some o).
  { intros i a Hi. apply lookup_lt_Some in Hi. rewrite Hl in Hi. apply lookup_lt_is_Some in Hi as [o Ho]. eauto. }
  destruct c as [key|i nonce pt aad|i nonce ct aad|i]; cbn [run_command command_ok] in *.
  - pose proof (New_spec key st) as Hn. destruct (NewChaCha20Poly1305 key st) as [st' [a|e| |]] eqn:E; try done.
    + exists (l ++ [Some key]). split; [constructor|by eapply accounted_new].
    + destruct Hn as [Ep Ek]. exists l. split; [constructor|by eapply accounted_same].
  - destruct (objs !! i) as [a|] eqn:Ei; [|exists l; split; [constructor; by apply Hnone|done]]. destruct (Hsome i a Ei) as [[k|] Ho].
    + pose proof (Seal_live a k nonce pt aad st (ac_open _ _ _ _ Ha i a k Ei Ho) (proj1 Hc) (proj2 Hc)) as E. destruct (Seal_keeps a nonce pt aad st) as [Ep Ek].
      destruct (cngSeal a nonce pt aad st) as [st' r]. cbn in *. subst r. exists l. split; [by constructor|by eapply accounted_same].
    + destruct (Seal_closed a nonce pt aad st (ac_closed _ _ _ _ Ha i a Ei Ho)) as [e E]. destruct (Seal_keeps a nonce pt aad st) as [Ep Ek].
      destruct (cngSeal a nonce pt aad st) as [st' r]. cbn in *. subst r. exists l. split; [by constructor|by eapply accounted_same].
  - destruct (objs !! i) as [a|] eqn:Ei; [|exists l; split; [constructor; by apply Hnone|done]]. destruct (Hsome i a Ei) as [[k|] Ho].
    + pose proof (Open_live a k nonce ct aad st (ac_open _ _ _ _ Ha i a k Ei Ho) (proj1 Hc) (proj2 Hc)) as E. destruct (Open_keeps a nonce ct aad st) as [Ep Ek].
      destruct (cngOpen a nonce ct aad st) as [st' r]. cbn in *. subst r. exists l. split; [by constructor|by eapply accounted_same].
    + pose proof (Open_closed a nonce ct aad st (ac_closed _ _ _ _ Ha i a Ei Ho)) as E. destruct (Open_keeps a nonce ct aad st) as [Ep Ek].
      destruct (cngOpen a nonce ct aad st) as [st' r]. cbn in *. subst r. exists l. split; [by constructor|by eapply accounted_same].
  - destruct (objs !! i) as [a|] eqn:Ei; [|exists l; split; [constructor; by apply Hnone|done]]. destruct (Hsome i a Ei) as [o Ho].
    pose proof (accounted_close st0 st objs l i a Ha Ei) as H. destruct (cngClose a st) as [st' a']. cbn in H. exists (<[i := None]> l).
    split; [constructor; eauto|done].
Qed.
Lemma run_commands_allowed st0 cs : ∀ st objs l, Forall command_ok cs → accounted st0 st objs l →
  let '(st', objs', rs) := run_commands cs st objs in ∃ l', allowed_run cs l rs l' ∧ accounted st0 st' objs' l'.
Proof.
  induction cs as [|c cs IH]; intros st objs l Hc Ha; cbn [run_commands]; [exists l; split; [constructor|done]|]. inversion Hc as [|? ? H1 H2]; subst.
  pose proof (run_command_allowed st0 c st objs l H1 Ha) as H. destruct (run_command c st objs) as [[st1 objs1] r]. destruct H as (l1 & Hal & Ha1).
  specialize (IH st1 objs1 l1 H2 Ha1). destruct (run_commands cs st1 objs1) as [[st2 objs2] rs]. destruct IH as (l2 & Hr & Ha2). exists l2. split; [by econstructor|done].
Qed.
(** With every object closed the handles are those of before. *)
Lemma accounted_done st0 st objs l : accounted st0 st objs l → Forall (fun o => o = None) l → provs st = provs st0 ∧ keys st = keys st0.
Proof.
  intros [H1 H2 H3 H4 H5 H6 H6' H7 H8 H9] Hn.
  assert (Hz : ∀ i a, objs !! i = Some a → closed a).
  { intros i a Hi. assert (Ho : is_Some (l !! i)) by (apply lookup_lt_is_Some; rewrite <- H1; by apply lookup_lt_Some in Hi). destruct Ho as [o Ho].
    apply (H2 i a Hi). rewrite List.Forall_forall in Hn. rewrite <- (Hn o); [done|]. apply list_elem_of_In. by eapply list_elem_of_lookup_2. }
  split.
  - apply map_eq. intros h. destruct (provs st0 !! h) as [e|] eqn:E0; [by apply H6'|]. apply eq_None_not_Some. rewrite H4, E0.
    intros [[? ?]|(i & a & Hi & Ea & Hh)]; [done|]. destruct (Hz i a Hi). congruence.
  - apply map_eq. intros h. destruct (keys st0 !! h) as [e|] eqn:E0; [by apply H6|]. apply eq_None_not_Some. rewrite H5, E0.
    intros [[? ?]|(i & a & Hi & Ea & Hh)]; [done|]. destruct (Hz i a Hi). congruence.
Qed.
End Machine.

(** ** The extended nonce *)
Section Extended.
Context {C : CNG} {L : CNGLaws C}.
Lemma with_cipher_spec {A} sub (body : cngAEAD → SR os A) st (R : Res A → Prop) :
  (∀ c st, holds st c sub → let '(st', r) := body c st in provs st' = provs st ∧ keys st' = keys st ∧ R r) →
  let '(st', r) := with_cipher sub body st in
  provs st' = provs st ∧ keys st' = keys st ∧ ((∃ e, r = Err e) ∨ R r).
Proof.
  intros Hb. unfold with_cipher. pose proof (New_spec sub st) as Hn. destruct (NewChaCha20Poly1305 sub st) as [st1 [c|e| |]]; try done; [|naive_solver].
  destruct Hn as (Hh & Hp & Hk & Ep & Ek). pose proof Hh as (Hk0 & Ha0 & _). specialize (Hb c st1 Hh). destruct (body c st1) as [st2 r]. destruct Hb as (Ep2 & Ek2 & Hr).
  pose proof (cngClose_spec c st2) as Hc. destruct (cngClose c st2) as [st3 c']. destruct Hc as (_ & Ep3 & Ek3). cbn.
  rewrite (proj2 (Z.eqb_neq _ _) Ha0) in Ep3. rewrite (proj2 (Z.eqb_neq _ _) Hk0) in Ek3. rewrite Ep3, Ek3, Ep2, Ek2, Ep, Ek, !delete_insert_id by done. split_and!; [done|done|by right].
Qed.
Lemma bind_lift_Ok {S A B} (a : A) (f : A → SR S B) : (liftR (Ok a) ≫= f) = f a.
Proof. reflexivity. Qed.
Lemma hChaCha20_ok key n : blen n = 16 → ∃ sub, hChaCha20 key n = Ok sub.
Proof. intros H. unfold hChaCha20. rewrite !le32_ok, !bind_Ok by lia. eauto. Qed.
(** Each call gives its handles back, whatever happens, and is the portable one unless
    the cipher could not be created. *)
Lemma cngXSeal_spec key nonce pt aad st : blen pt <= ulong_max → blen aad <= ulong_max →
  let '(st', r) := cngXSeal key nonce pt aad st in
  provs st' = provs st ∧ keys st' = keys st ∧ ((∃ e, r = Err e) ∨ r = @xSeal pureAEAD key nonce pt aad).
Proof.
  intros Hp Ha. unfold cngXSeal, xSeal. destruct (Z.eqb_spec (blen nonce) 24) as [Hn|Hn]; cbn [negb]; [|cbn; eauto].
  rewrite !slice_ok, bind_lift_Ok, bind_Ok by lia. destruct (hChaCha20_ok key (bsub nonce 0 16)) as [sub Es]; [rewrite blen_bsub; lia|].
  rewrite Es, bind_lift_Ok, bind_Ok. cbn [aead_new pureAEAD]. rewrite !bind_Ok. apply with_cipher_spec. intros c st1 Hh. rewrite bind_lift_Ok.
  pose proof (Seal_live c sub (zeros 4 ++ bsub nonce 16 (blen nonce)) pt aad st1 Hh Hp Ha) as E. destruct (Seal_keeps c (zeros 4 ++ bsub nonce 16 (blen nonce)) pt aad st1) as [Ep Ek].
  destruct (cngSeal _ _ _ _ _) as [st2 r]. done.
Qed.
Lemma cngXOpen_spec key nonce ct aad st : blen ct <= ulong_max → blen aad <= ulong_max →
  let '(st', r) := cngXOpen key nonce ct aad st in
  provs st' = provs st ∧ keys st' = keys st ∧ ((∃ e, r = Err e) ∨ r = @xOpen pureAEAD key nonce ct aad).
Proof.
  intros Hp Ha. unfold cngXOpen, xOpen. destruct (Z.eqb_spec (blen nonce) 24) as [Hn|Hn]; cbn [negb]; [|cbn; eauto].
  rewrite !slice_ok, bind_lift_Ok, bind_Ok by lia. destruct (hChaCha20_ok key (bsub nonce 0 16)) as [sub Es]; [rewrite blen_bsub; lia|].
  rewrite Es, bind_lift_Ok, bind_Ok. cbn [aead_new pureAEAD]. rewrite !bind_Ok. apply with_cipher_spec. intros c st1 Hh. rewrite bind_lift_Ok.
  pose proof (Open_live c sub (zeros 4 ++ bsub nonce 16 (blen nonce)) ct aad st1 Hh Hp Ha) as E. destruct (Open_keeps c (zeros 4 ++ bsub nonce 16 (blen nonce)) ct aad st1) as [Ep Ek].
  destruct (cngOpen _ _ _ _ _) as [st2 r]. done.
Qed.
End Extended.

(** ** A library that behaves as documented *)
(** Keys of another algorithm are refused (STATUS_NOT_SUPPORTED). *)
Record refState := mkRef { rs_providers : gmap Z string; rs_keys : gmap Z (Z * list Z) }.
Definition ref_live (st : refState) : gmap Z (Z * list Z) := delete 0 (rs_keys st).
Definition ref_chacha (alg : Z) (st : refState) : bool := bool_decide (rs_providers st !! alg = Some chacha_alg).
Definition ref_encrypt (h : Z) (inp : option (list Z)) (n : Z) (ai : authInfo) (cbOut : Z) (st : refState) : refState * cipherResult :=
  (st, match ref_live st !! h with
       | Some (alg, k) =>
           if negb (ref_chacha alg st) then mkCipher 0xC00000BB [] [] 0 else
           let out := rfc_chacha20 k (deref (Nonce ai) 12) (deref inp n) in
           mkCipher 0 out (rfc_tag k (deref (Nonce ai) 12) (deref (AuthData ai) (AuthDataLen ai)) out) n
       | None => mkCipher 0xC0000008 [] [] 0
       end).
Definition ref_decrypt (h : Z) (inp : option (list Z)) (n : Z) (ai : authInfo) (cbOut : Z) (st : refState) : refState * cipherResult :=
  (st, match ref_live st !! h with
       | Some (alg, k) =>
           if negb (ref_chacha alg st) then mkCipher 0xC00000BB [] [] 0 else
           if bool_decide (rfc_tag k (deref (Nonce ai) 12) (deref (AuthData ai) (AuthDataLen ai)) (deref inp n) = deref (Tag ai) 16)
           then mkCipher 0 (rfc_chacha20 k (deref (Nonce ai) 12) (deref inp n)) [] n else mkCipher 0xC000A002 [] [] 0
       | None => mkCipher 0xC0000008 [] [] 0
       end).
Definition refCNG : CNG := {|
  os := refState;
  BCryptOpenAlgorithmProvider name st :=
    let h := fresh ({[0]} ∪ dom (rs_providers st)) in (mkRef (<[h := name]> (rs_providers st)) (rs_keys st), (0, h));
  BCryptGetProperty alg name st := (st, (0, 0));
  BCryptGenerateSymmetricKey alg obj n secret st :=
    let h := fresh ({[0]} ∪ dom (rs_keys st)) in (mkRef (rs_providers st) (<[h := (alg, secret)]> (rs_keys st)), (0, h));
  BCryptDestroyKey h st := mkRef (rs_providers st) (delete h (rs_keys st));
  BCryptCloseAlgorithmProvider h st := mkRef (delete h (rs_providers st)) (rs_keys st);
  BCryptEncrypt := ref_encrypt;
  BCryptDecrypt := ref_decrypt |}.
Lemma ref_encrypt_ok h alg k inp n ai cbOut st : ref_live st !! h = Some (alg, k) → rs_providers st !! alg = Some chacha_alg →
  let res := (ref_encrypt h inp n ai cbOut st).2 in
  let nonce := deref (Nonce ai) 12 in
  let aad := deref (AuthData ai) (AuthDataLen ai) in
  0 <= i32 (e_status res) ∧ e_n res = n ∧ e_out res = rfc_chacha20 k nonce (deref inp n) ∧ e_tag res = rfc_tag k nonce aad (e_out res).
Proof. intros E Hc. unfold ref_encrypt, ref_chacha. rewrite E, bool_decide_eq_true_2 by done. cbv zeta. cbn [negb snd e_status e_n e_out e_tag]. by rewrite i32_id by lia. Qed.
Lemma ref_decrypt_ok h alg k inp n ai cbOut st : ref_live st !! h = Some (alg, k) → rs_providers st !! alg = Some chacha_alg →
  let res := (ref_decrypt h inp n ai cbOut st).2 in
  let nonce := deref (Nonce ai) 12 in
  let aad := deref (AuthData ai) (AuthDataLen ai) in
  if bool_decide (rfc_tag k nonce aad (deref inp n) = deref (Tag ai) 16)
  then 0 <= i32 (e_status res) ∧ e_n res = n ∧ e_out res = rfc_chacha20 k nonce (deref inp n)
  else i32 (e_status res) < 0.
Proof.
  intros E Hc. unfold ref_decrypt, ref_chacha. rewrite E, (bool_decide_eq_true_2 (_ = Some chacha_alg)) by done. cbv zeta. cbn [negb]. destruct (bool_decide _); cbn [snd e_status e_n e_out]; [by rewrite i32_id by lia|reflexivity].
Qed.
Lemma ref_invalid h inp n ai cbOut st : ref_live st !! h = None →
  i32 (e_status (ref_encrypt h inp n ai cbOut st).2) < 0 ∧ i32 (e_status (ref_decrypt h inp n ai cbOut st).2) < 0.
Proof. intros E. unfold ref_encrypt, ref_decrypt. rewrite E. cbn [snd e_status]. done. Qed.
Definition refLaws : CNGLaws refCNG.
Proof.
  refine (Build_CNGLaws refCNG rs_providers ref_live _ _ _ _ _ _ _ _ _ _ _ _).
  - intros st. apply lookup_delete_eq.
  - intros name st. cbn. split; [done|]. pose proof (is_fresh ({[0]} ∪ dom (rs_providers st))) as H. split_and!; [set_solver|apply not_elem_of_dom; set_solver|done].
  - done.
  - intros alg obj n secret st. cbn. split; [done|]. pose proof (is_fresh ({[0]} ∪ dom (rs_keys st))) as H. set (h := fresh _) in *.
    assert (h ≠ 0 ∧ rs_keys st !! h = None) as [Hz Hn] by (split; [set_solver|apply not_elem_of_dom; set_solver]).
    unfold ref_live. cbn. rewrite lookup_delete_ne by done. split_and!; try done. by rewrite delete_insert_ne by done.
  - intros h st. split; [done|]. apply delete_delete.
  - done.
  - done.
  - done.
  - intros h inp n ai cbOut st E. apply (ref_invalid h inp n ai cbOut st E).
  - intros h inp n ai cbOut st E. apply (ref_invalid h inp n ai cbOut st E).
  - intros h alg k inp n ai cbOut st E Hc _. exact (ref_encrypt_ok h alg k inp n ai cbOut st E Hc).
  - intros h alg k inp n ai cbOut st E Hc _. exact (ref_decrypt_ok h alg k inp n ai cbOut st E Hc).
Defined.

(** C29: the system's cipher is the portable one, and no handle is lost: whatever
    sequence of creations, seals, opens and closes the program makes on any number of
    ciphers, each result is the one the portable ChaCha20-Poly1305 gives under the key
    the cipher was created with, a closed cipher only gives errors even when the system
    has given its handles to another, a creation that fails leaves nothing behind, every
    cipher not closed has a live key of a live provider that was opened for
    ChaCha20-Poly1305, and once all are closed the system's live handles are exactly
    those of before.  The library is any that satisfies [CNGLaws]; messages and
    associated data fit its 32-bit lengths. *)
Theorem cng_refines {C : CNG} {L : CNGLaws C} (st0 : os) (cs : list command) :
  Forall command_ok cs →
  let '(st, objs, rs) := run_commands cs st0 [] in
  ∃ l, allowed_run cs [] rs l ∧
    (∀ i k, l !! i = Some (Some k) → ∃ a, objs !! i = Some a ∧ holds st a k) ∧
    (Forall (fun o => o = None) l → provs st = provs st0 ∧ keys st = keys st0).
Proof.
  intros Hc. pose proof (run_commands_allowed st0 cs st0 [] [] Hc (accounted_start st0)) as H.
  destruct (run_commands cs st0 []) as [[st objs] rs]. destruct H as (l & Hr & Ha). exists l. split_and!; [done| |by eapply accounted_done].
  intros i k Hi. assert (Ho : is_Some (objs !! i)) by (apply lookup_lt_is_Some; rewrite (ac_length _ _ _ _ Ha); by apply lookup_lt_Some in Hi).
  destruct Ho as [a Ho]. eauto using ac_open.
Qed.
Definition cng_session : list command :=
  [CNew (range 1 32); CSeal 0 (range 5 12) [1; 2; 3] [4]; CNew (range 7 32); CClose 0; CSeal 0 (range 5 12) [1] []; COpen 1 (range 5 12) (zeros 20) []; CClose 1; CClose 0].
Lemma cng_refines_witness :
  let '(st, objs, rs) := @run_commands refCNG cng_session (mkRef ∅ ∅) [] in
  ∃ l, allowed_run cng_session [] rs l ∧
    (∀ i k, l !! i = Some (Some k) → ∃ a, objs !! i = Some a ∧ @holds refCNG refLaws st a k) ∧
    (Forall (fun o => o = None) l → @provs refCNG refLaws st = @provs refCNG refLaws (mkRef ∅ ∅) ∧
       @keys refCNG refLaws st = @keys refCNG refLaws (mkRef ∅ ∅)).
Proof.
  apply (@cng_refines refCNG refLaws (mkRef ∅ ∅) cng_session).
  unfold cng_session. repeat (apply List.Forall_cons; [first [exact I|split; vm_compute; discriminate]|]). apply List.Forall_nil.
Defined.
