(* ===== verification/Snapshot.v ===== *)
(** * Socket owners from the system tables: [internal/flow/snapshot_windows.go]

    The IP Helper calls fill a byte buffer; everything after them is Go code on that
    buffer and is modelled here: the row layout, the four snapshot loops, the
    replacement of the fallback maps and the on-demand owner query.  What one pair of
    calls answers is an argument ([TableReply]), and so is [resolve], the process of a
    pid.  One clock reading serves a whole snapshot. *)

From S2P Require Import Prelude Netip GoStrings Crypto FlowIndex.
Local Open Scope Z_scope.

Definition afInet : Z := 2.
Definition afInet6 : Z := 23.
Definition mibTCPStateEstablished : Z := 5.
Definition errorInsufficientBuffer : Z := 122.

(** The two calls on one table: status and size of the first, status, size and the
    buffer (allocated with the first size) of the second. *)
Record TableReply := mkTableReply { call1 : Z; size1 : Z; call2 : Z; size2 : Z; filled : list Z }.
Definition reply_ok (a : TableReply) : Prop :=
  0 <= size1 a < 4294967296 ∧ 0 <= size2 a < 4294967296 ∧ blen (filled a) = size1 a ∧ bytes_ok (filled a).

Definition getExtendedTable (a : TableReply) : Res (list Z) :=
  if negb (call1 a =? 0) && negb (call1 a =? errorInsufficientBuffer) then Err "errno" else
  if size1 a <? 4 then Err "invalid table size" else
  if negb (call2 a =? 0) then Err "errno" else
  if size1 a <? size2 a then Err "table grew" else
  slice (filled a) 0 (size2 a).

(** ** Rows *)
Record mibTCPRowOwnerPID := mkTCP { tState : Z; tLocalAddr : Z; tLocalPort : Z; tRemoteAddr : Z; tRemotePort : Z; tOwningPID : Z }.
Record mibTCP6RowOwnerPID := mkTCP6 { t6LocalAddr : list Z; t6LocalScopeID : Z; t6LocalPort : Z;
  t6RemoteAddr : list Z; t6RemoteScopeID : Z; t6RemotePort : Z; t6State : Z; t6OwningPID : Z }.
Record mibUDPRowOwnerPID := mkUDP { uLocalAddr : Z; uLocalPort : Z; uOwningPID : Z }.
Record mibUDP6RowOwnerPID := mkUDP6 { u6LocalAddr : list Z; u6LocalScopeID : Z; u6LocalPort : Z; u6OwningPID : Z }.

(** A row type: its size and how a value is read from memory. *)
Class Row (T : Type) := { row_size : Z; row_read : list Z → Z → T }.
#[export] Instance TCP_Row : Row mibTCPRowOwnerPID := {| row_size := 24; row_read b o :=
  mkTCP (le32_at b o) (le32_at b (o + 4)) (le32_at b (o + 8)) (le32_at b (o + 12)) (le32_at b (o + 16)) (le32_at b (o + 20)) |}.
#[export] Instance TCP6_Row : Row mibTCP6RowOwnerPID := {| row_size := 56; row_read b o :=
  mkTCP6 (bsub b o (o + 16)) (le32_at b (o + 16)) (le32_at b (o + 20))
    (bsub b (o + 24) (o + 40)) (le32_at b (o + 40)) (le32_at b (o + 44)) (le32_at b (o + 48)) (le32_at b (o + 52)) |}.
#[export] Instance UDP_Row : Row mibUDPRowOwnerPID := {| row_size := 12; row_read b o :=
  mkUDP (le32_at b o) (le32_at b (o + 4)) (le32_at b (o + 8)) |}.
#[export] Instance UDP6_Row : Row mibUDP6RowOwnerPID := {| row_size := 28; row_read b o :=
  mkUDP6 (bsub b o (o + 16)) (le32_at b (o + 16)) (le32_at b (o + 20)) (le32_at b (o + 24)) |}.

Fixpoint rows_loop {T} `{Row T} (n : nat) (buf : list Z) (off : Z) : Res (list T) :=
  match n with
  | O => Ok []
  | S n => _ ← idx buf off; rest ← rows_loop n buf (off + row_size); Ok (row_read buf off :: rest)
  end.
Definition rows {T} `{Row T} (buf : list Z) : Res (list T) :=
  if blen buf <? 4 then Err "short table" else
  n ← le32 buf 0;
  if row_size <=? 0 then Err "invalid row size" else
  if blen buf <? 4 + n * row_size then Err "truncated table" else
  rows_loop (Z.to_nat n) buf 4.

(** [*( *[4]byte)(unsafe.Pointer(&v))] is the memory of [v], little endian. *)
Definition addr4 (v : Z) : Addr := Unmap (AddrFrom4 (put_le32 v)).
Definition mibPort (v : Z) : Z := gb16 (put_le32 v) 0.
Definition wildcardAddr (a : Addr) : Addr := if negb (IsValid a) || IsUnspecified a then AddrZero else Unmap a.

Definition read_table {T} `{Row T} (a : TableReply) : Res (list T) := buf ← getExtendedTable a; rows buf.

(** What the loops use of a row, for both address families. *)
Record tcp_view := mkTV { tvState : Z; tvPID : Z; tvLocal : Addr; tvRemote : Addr; tvLocalPort : Z; tvRemotePort : Z }.
Record udp_view := mkUV { uvPID : Z; uvLocal : Addr; uvPort : Z }.
Definition view_tcp4 (r : mibTCPRowOwnerPID) : tcp_view :=
  mkTV (tState r) (tOwningPID r) (addr4 (tLocalAddr r)) (addr4 (tRemoteAddr r)) (mibPort (tLocalPort r)) (mibPort (tRemotePort r)).
Definition view_tcp6 (r : mibTCP6RowOwnerPID) : tcp_view :=
  mkTV (t6State r) (t6OwningPID r) (Unmap (AddrFrom16 (t6LocalAddr r))) (Unmap (AddrFrom16 (t6RemoteAddr r)))
    (mibPort (t6LocalPort r)) (mibPort (t6RemotePort r)).
Definition view_udp4 (r : mibUDPRowOwnerPID) : udp_view := mkUV (uOwningPID r) (addr4 (uLocalAddr r)) (mibPort (uLocalPort r)).
Definition view_udp6 (r : mibUDP6RowOwnerPID) : udp_view :=
  mkUV (u6OwningPID r) (Unmap (AddrFrom16 (u6LocalAddr r))) (mibPort (u6LocalPort r)).

Section Snapshot.
Context {U : Unicode} {F : Platform}.

(** The temporary index of a snapshot and the cache of [owner]. *)
Record snap := mkSnap { sn_index : Index; sn_cache : gmap Z Process }.

Definition with_pid (p : Process) (pid : Z) : Process :=
  if prPID p =? 0 then mkProcess pid (prName p) (prPath p) else p.

Section Owner.
Context (resolve : Z → Process) (now : Z).

Definition owner (pid : Z) : SR snap Process := fun s =>
  match sn_cache s !! pid with
  | Some p => (s, Ok p)
  | None =>
      match NormalizeProcess (resolve pid) with
      | Ok p => let p := with_pid p pid in (mkSnap (sn_index s) (<[pid := p]> (sn_cache s)), Ok p)
      | Err e => (s, Err e)
      | Panic => (s, Panic)
      | OutOfFuel => (s, OutOfFuel)
      end
  end.
Definition update (f : Index → Res Index) : SR snap unit := fun s =>
  match f (sn_index s) with
  | Ok i => (mkSnap i (sn_cache s), Ok tt)
  | Err e => (s, Err e)
  | Panic => (s, Panic)
  | OutOfFuel => (s, OutOfFuel)
  end.

Definition tcp_skipped (v : tcp_view) : bool :=
  negb (tvState v =? mibTCPStateEstablished) || (tvPID v =? 0) ||
  ((tvLocalPort v =? 0) || (tvRemotePort v =? 0) || IsUnspecified (tvRemote v)).
Definition tcp_key (v : tcp_view) : Key := mkKey 6 (tvLocal v) (tvRemote v) (tvLocalPort v) (tvRemotePort v).
(** The loops of [snapshotTCP4] and [snapshotTCP6]; the result counts the rows taken. *)
Fixpoint tcp_loop (rs : list tcp_view) (n : Z) : SR snap Z :=
  match rs with
  | [] => mret n
  | v :: rest =>
      if tcp_skipped v then tcp_loop rest n else
      p ← owner (tvPID v);
      update (AddSnapshotExact now (tcp_key v) p);;
      tcp_loop rest (n + 1)
  end.
Definition udp_skipped (v : udp_view) : bool := (uvPID v =? 0) || (uvPort v =? 0).
Fixpoint udp_loop (rs : list udp_view) (n : Z) : SR snap Z :=
  match rs with
  | [] => mret n
  | v :: rest =>
      if udp_skipped v then udp_loop rest n else
      p ← owner (uvPID v);
      update (AddLocal now 17 (wildcardAddr (uvLocal v)) (uvPort v) p);;
      udp_loop rest (n + 1)
  end.

Definition snapshotTCP4 (a : TableReply) : SR snap Z := rs ← liftR (read_table a); tcp_loop (map view_tcp4 rs) 0.
Definition snapshotTCP6 (a : TableReply) : SR snap Z := rs ← liftR (read_table a); tcp_loop (map view_tcp6 rs) 0.
Definition snapshotUDP4 (a : TableReply) : SR snap Z := rs ← liftR (read_table a); udp_loop (map view_udp4 rs) 0.
Definition snapshotUDP6 (a : TableReply) : SR snap Z := rs ← liftR (read_table a); udp_loop (map view_udp6 rs) 0.

(** [if n, e := tmp.snapshotX(owner); e != nil {errs = append(errs, ...)} else {count += n}] *)
Definition tally (m : SR snap Z) (count : Z) (errs : list string) : SR snap (Z * list string) := fun s =>
  match m s with
  | (s, Ok n) => (s, Ok (count + n, errs))
  | (s, Err e) => (s, Ok (count, errs ++ [e]))
  | (s, Panic) => (s, Panic)
  | (s, OutOfFuel) => (s, OutOfFuel)
  end.

Definition snapshot_all (t4 t6 u4 u6 : TableReply) : SR snap (Z * Z * list string) :=
  '(tcpCount, errs) ← tally (snapshotTCP4 t4) 0 [];
  '(tcpCount, errs) ← tally (snapshotTCP6 t6) tcpCount errs;
  '(udpCount, errs) ← tally (snapshotUDP4 u4) 0 errs;
  '(udpCount, errs) ← tally (snapshotUDP6 u6) udpCount errs;
  mret (tcpCount, udpCount, errs).

Definition SnapshotExisting (t4 t6 u4 u6 : TableReply) (i : Index) : Res (Index * (Z * Z * list string)) :=
  let (s, r) := snapshot_all t4 t6 u4 u6 (mkSnap New ∅) in
  out ← r;
  let tmp := sn_index s in
  Ok (signal (mkIndex (ix_m i) (ix_snapshotExact tmp) (ix_locals tmp) (ix_sockets i) (ix_socketLocal i) (ix_notify i)), out).

(** ** The owner of one socket *)
Fixpoint resolve_tcp_loop (k : Key) (rs : list tcp_view) : option Z :=
  match rs with
  | [] => None
  | v :: rest =>
      if tvPID v =? 0 then resolve_tcp_loop k rest else
      if negb (tvLocalPort v =? kLocalPort k) || negb (tvRemotePort v =? kRemotePort k) then resolve_tcp_loop k rest else
      if negb (IsUnspecified (tvRemote v)) && negb (bool_decide (tvRemote v = Unmap (kRemote k))) then resolve_tcp_loop k rest else
      if negb (IsUnspecified (tvLocal v)) && negb (bool_decide (tvLocal v = Unmap (kLocal k))) then resolve_tcp_loop k rest else
      Some (tvPID v)
  end.
Fixpoint resolve_udp_loop (k : Key) (rs : list udp_view) : option Z :=
  match rs with
  | [] => None
  | v :: rest =>
      if (uvPID v =? 0) || negb (uvPort v =? kLocalPort k) then resolve_udp_loop k rest else
      if negb (IsUnspecified (uvLocal v)) && negb (bool_decide (uvLocal v = Unmap (kLocal k))) then resolve_udp_loop k rest else
      Some (uvPID v)
  end.

(** A failed read gives [(0, false)]; a panic stays one. *)
Definition or_none {T B} (r : Res (list T)) (f : list T → option B) : Res (option B) :=
  match r with Ok rs => Ok (f rs) | Err _ => Ok None | Panic => Panic | OutOfFuel => OutOfFuel end.
Definition resolveTCP4Owner (a : TableReply) (k : Key) : Res (option Z) :=
  or_none (read_table a) (fun rs => resolve_tcp_loop k (map view_tcp4 rs)).
Definition resolveTCP6Owner (a : TableReply) (k : Key) : Res (option Z) :=
  or_none (read_table a) (fun rs => resolve_tcp_loop k (map view_tcp6 rs)).
Definition resolveUDP4Owner (a : TableReply) (k : Key) : Res (option Z) :=
  or_none (read_table a) (fun rs => resolve_udp_loop k (map view_udp4 rs)).
Definition resolveUDP6Owner (a : TableReply) (k : Key) : Res (option Z) :=
  or_none (read_table a) (fun rs => resolve_udp_loop k (map view_udp6 rs)).

(** The table the key's protocol and families select is the one queried; [a] is its answer. *)
Definition ResolveSocketOwner (a : TableReply) (k : Key) : Res (option Process) :=
  pid ← (if kProto k =? 6 then
           if Is4 (kLocal k) && Is4 (kRemote k) then resolveTCP4Owner a k
           else if Is6 (kLocal k) && Is6 (kRemote k) then resolveTCP6Owner a k else Ok None
         else if kProto k =? 17 then
           if Is4 (kLocal k) then resolveUDP4Owner a k
           else if Is6 (kLocal k) then resolveUDP6Owner a k else Ok None
         else Ok None);
  match pid with
  | None => Ok None
  | Some pid =>
      if pid =? 0 then Ok None else
      p ← NormalizeProcess (resolve pid);
      Ok (Some (with_pid p pid))
  end.
End Owner.
End Snapshot.

(** ** The memory of a row, and tables as the system lays them out *)
Class RowEnc (T : Type) `{Row T} := {
  enc_row : T → list Z;
  row_ok : T → Prop;
  row_size_pos : 0 < row_size;
  enc_row_len : ∀ r, row_ok r → blen (enc_row r) = row_size;
  read_enc : ∀ r pre post, row_ok r → row_read (pre ++ enc_row r ++ post) (blen pre) = r
}.
Definition w32 (v : Z) : Prop := 0 <= v < 4294967296.
Definition a16 (v : list Z) : Prop := blen v = 16.

Lemma le32_field pre x post a v c k : x = a ++ put_le32 v ++ c → k = blen a → w32 v →
  le32_at (pre ++ x ++ post) (blen pre + k) = v.
Proof.
  intros -> -> Hv. rewrite <- blen_app.
  replace (pre ++ (a ++ put_le32 v ++ c) ++ post) with ((pre ++ a) ++ put_le32 v ++ c ++ post) by by rewrite <- !app_assoc.
  by apply le32_at_put.
Qed.
Lemma addr_field pre x post a v c k h : x = a ++ v ++ c → k = blen a → h = k + 16 → a16 v →
  bsub (pre ++ x ++ post) (blen pre + k) (blen pre + h) = v.
Proof.
  intros -> -> -> Hv. rewrite Z.add_assoc, <- blen_app, <- Hv.
  replace (pre ++ (a ++ v ++ c) ++ post) with ((pre ++ a) ++ v ++ c ++ post) by by rewrite <- !app_assoc.
  apply bsub_at.
Qed.
(** Reads each field of a row, given the prefixes of the fields. *)
Ltac field a := first
  [ eapply (le32_field _ _ _ a); [rewrite <- ?app_assoc; reflexivity|rewrite ?blen_app, ?blen_put_le32, ?(@blen_nil Z); unfold a16 in *; lia|done]
  | eapply (addr_field _ _ _ a); [rewrite <- ?app_assoc; reflexivity|rewrite ?blen_app, ?blen_put_le32, ?(@blen_nil Z); unfold a16 in *; lia|lia|done] ].

#[export] Program Instance TCP_RowEnc : RowEnc mibTCPRowOwnerPID := {|
  enc_row r := put_le32 (tState r) ++ put_le32 (tLocalAddr r) ++ put_le32 (tLocalPort r) ++ put_le32 (tRemoteAddr r) ++
    put_le32 (tRemotePort r) ++ put_le32 (tOwningPID r);
  row_ok r := w32 (tState r) ∧ w32 (tLocalAddr r) ∧ w32 (tLocalPort r) ∧ w32 (tRemoteAddr r) ∧ w32 (tRemotePort r) ∧ w32 (tOwningPID r)
|}.
Next Obligation. done. Qed.
Next Obligation. done. Qed.
Next Obligation.
  intros [a b c d e f] pre post (Ha & Hb & Hc & Hd & He & Hf). cbn [row_read TCP_Row tState tLocalAddr tLocalPort tRemoteAddr tRemotePort tOwningPID] in *.
  rewrite <- (Z.add_0_r (blen pre)) at 1. f_equal; [field ([] : list Z)|field (put_le32 a)|field (put_le32 a ++ put_le32 b)|
    field (put_le32 a ++ put_le32 b ++ put_le32 c)|field (put_le32 a ++ put_le32 b ++ put_le32 c ++ put_le32 d)|].
  rewrite <- (app_nil_r (put_le32 f)). field (put_le32 a ++ put_le32 b ++ put_le32 c ++ put_le32 d ++ put_le32 e).
Qed.

#[export] Program Instance TCP6_RowEnc : RowEnc mibTCP6RowOwnerPID := {|
  enc_row r := t6LocalAddr r ++ put_le32 (t6LocalScopeID r) ++ put_le32 (t6LocalPort r) ++ t6RemoteAddr r ++
    put_le32 (t6RemoteScopeID r) ++ put_le32 (t6RemotePort r) ++ put_le32 (t6State r) ++ put_le32 (t6OwningPID r);
  row_ok r := a16 (t6LocalAddr r) ∧ w32 (t6LocalScopeID r) ∧ w32 (t6LocalPort r) ∧ a16 (t6RemoteAddr r) ∧
    w32 (t6RemoteScopeID r) ∧ w32 (t6RemotePort r) ∧ w32 (t6State r) ∧ w32 (t6OwningPID r)
|}.
Next Obligation. done. Qed.
Next Obligation. intros [] (H1 & _ & _ & H2 & _). cbn -[put_le32 blen app] in *. unfold a16 in *. rewrite !blen_app, !blen_put_le32, H1, H2. done. Qed.
Next Obligation.
  intros [a b c d e f g h] pre post (Ha & Hb & Hc & Hd & He & Hf & Hg & Hh).
  cbn [row_read TCP6_Row t6LocalAddr t6LocalScopeID t6LocalPort t6RemoteAddr t6RemoteScopeID t6RemotePort t6State t6OwningPID] in *.
  rewrite <- (Z.add_0_r (blen pre)) at 1.
  f_equal; [field ([] : list Z)|field a|field (a ++ put_le32 b)|field (a ++ put_le32 b ++ put_le32 c)|
    field (a ++ put_le32 b ++ put_le32 c ++ d)|field (a ++ put_le32 b ++ put_le32 c ++ d ++ put_le32 e)|
    field (a ++ put_le32 b ++ put_le32 c ++ d ++ put_le32 e ++ put_le32 f)|].
  rewrite <- (app_nil_r (put_le32 h)). field (a ++ put_le32 b ++ put_le32 c ++ d ++ put_le32 e ++ put_le32 f ++ put_le32 g).
Qed.

#[export] Program Instance UDP_RowEnc : RowEnc mibUDPRowOwnerPID := {|
  enc_row r := put_le32 (uLocalAddr r) ++ put_le32 (uLocalPort r) ++ put_le32 (uOwningPID r);
  row_ok r := w32 (uLocalAddr r) ∧ w32 (uLocalPort r) ∧ w32 (uOwningPID r)
|}.
Next Obligation. done. Qed.
Next Obligation. done. Qed.
Next Obligation.
  intros [a b c] pre post (Ha & Hb & Hc). cbn [row_read UDP_Row uLocalAddr uLocalPort uOwningPID] in *.
  rewrite <- (Z.add_0_r (blen pre)) at 1. f_equal; [field ([] : list Z)|field (put_le32 a)|].
  rewrite <- (app_nil_r (put_le32 c)). field (put_le32 a ++ put_le32 b).
Qed.

#[export] Program Instance UDP6_RowEnc : RowEnc mibUDP6RowOwnerPID := {|
  enc_row r := u6LocalAddr r ++ put_le32 (u6LocalScopeID r) ++ put_le32 (u6LocalPort r) ++ put_le32 (u6OwningPID r);
  row_ok r := a16 (u6LocalAddr r) ∧ w32 (u6LocalScopeID r) ∧ w32 (u6LocalPort r) ∧ w32 (u6OwningPID r)
|}.
Next Obligation. done. Qed.
Next Obligation. intros [] (H1 & _). cbn -[put_le32 blen app] in *. unfold a16 in *. rewrite !blen_app, !blen_put_le32, H1. done. Qed.
Next Obligation.
  intros [a b c d] pre post (Ha & Hb & Hc & Hd). cbn [row_read UDP6_Row u6LocalAddr u6LocalScopeID u6LocalPort u6OwningPID] in *.
  rewrite <- (Z.add_0_r (blen pre)) at 1. f_equal; [field ([] : list Z)|field a|field (a ++ put_le32 b)|].
  rewrite <- (app_nil_r (put_le32 d)). field (a ++ put_le32 b ++ put_le32 c).
Qed.

Definition enc_table {T} `{RowEnc T} (rs : list T) : list Z := put_le32 (blen rs) ++ flat_map enc_row rs.

Lemma rows_loop_enc {T} `{RowEnc T} (rs : list T) pre slack : Forall row_ok rs →
  rows_loop (length rs) (pre ++ flat_map enc_row rs ++ slack) (blen pre) = Ok rs.
Proof.
  revert pre. induction rs as [|r rs IH]; intros pre Hok; [done|]. apply List.Forall_cons_iff in Hok as [Hr Hok].
  cbn [length rows_loop flat_map]. rewrite <- app_assoc. pose proof row_size_pos. pose proof (enc_row_len r Hr) as El.
  pose proof (blen_nonneg pre). pose proof (blen_nonneg (flat_map enc_row rs ++ slack)).
  rewrite idx_ok, bind_Ok by (rewrite !blen_app in *; lia). rewrite <- El, <- blen_app.
  replace (pre ++ enc_row r ++ flat_map enc_row rs ++ slack) with ((pre ++ enc_row r) ++ flat_map enc_row rs ++ slack) at 1 by by rewrite <- app_assoc.
  rewrite IH by done. rewrite bind_Ok, read_enc by done. done.
Qed.

Lemma blen_rows {T} `{RowEnc T} (rs : list T) : Forall row_ok rs → blen (flat_map enc_row rs) = blen rs * row_size.
Proof.
  induction rs as [|r rs IH]; intros Hok; [done|]. apply List.Forall_cons_iff in Hok as [Hr Hok].
  cbn [flat_map]. rewrite blen_app, blen_cons, IH, enc_row_len by done. lia.
Qed.

(** A table of rows is read back, whatever follows it in the buffer. *)
Lemma rows_enc {T} `{RowEnc T} (rs : list T) slack : Forall row_ok rs → w32 (blen rs) → rows (enc_table rs ++ slack) = Ok rs.
Proof.
  intros Hok Hn. pose proof row_size_pos as Hs. unfold rows, enc_table.
  pose proof (blen_nonneg slack). pose proof (blen_nonneg rs). pose proof (blen_rows rs Hok) as Hb.
  rewrite !blen_app, blen_put_le32, Hb. zdec. rewrite <- app_assoc.
  rewrite le32_ok, bind_Ok by (rewrite ?blen_app, ?blen_put_le32, ?Hb; nia).
  assert (le32_at (put_le32 (blen rs) ++ flat_map enc_row rs ++ slack) 0 = blen rs) as -> by exact (le32_at_put [] _ _ Hn). zdec.
  replace (Z.to_nat (blen rs)) with (length rs) by (unfold blen; lia). exact (rows_loop_enc rs (put_le32 (blen rs)) slack Hok).
Qed.

Definition answer (buf : list Z) : TableReply := mkTableReply errorInsufficientBuffer (blen buf) 0 (blen buf) buf.
Lemma read_answer {T} `{RowEnc T} (rs : list T) slack : Forall row_ok rs → w32 (blen rs) →
  read_table (answer (enc_table rs ++ slack)) = Ok rs.
Proof.
  intros Hok Hn. unfold read_table, getExtendedTable, answer. cbn [call1 size1 call2 size2 filled].
  pose proof (blen_nonneg slack). pose proof (blen_rows rs Hok). pose proof row_size_pos. pose proof (blen_nonneg rs).
  assert (4 <= blen (enc_table rs ++ slack)) by (unfold enc_table; rewrite !blen_app, blen_put_le32; nia).
  cbn [Z.eqb negb andb]. change (errorInsufficientBuffer =? errorInsufficientBuffer) with true. cbn [negb andb]. rewrite andb_false_r. zdec.
  rewrite slice_ok, bsub_full, bind_Ok by lia. by apply rows_enc.
Qed.

Section Facts.
Context {U : Unicode} {F : Platform} (resolve : Z → Process).

(** [NormalizeProcess] always returns; its result as a function. *)
Definition norm (p : Process) : Process := match NormalizeProcess p with Ok q => q | _ => p end.
Lemma NormalizeProcess_norm p : NormalizeProcess p = Ok (norm p).
Proof. unfold norm. by destruct (NormalizeProcess_returns p) as [q ->]. Qed.
Definition owned (pid : Z) : Process := with_pid (norm (resolve pid)) pid.

(** ** The owner of one socket *)
Definition fits (a b : Addr) : Prop := IsUnspecified a = true ∨ a = b.
Definition tcp_fits (k : Key) (v : tcp_view) : Prop :=
  tvPID v ≠ 0 ∧ tvLocalPort v = kLocalPort k ∧ tvRemotePort v = kRemotePort k ∧
  fits (tvRemote v) (Unmap (kRemote k)) ∧ fits (tvLocal v) (Unmap (kLocal k)).
Definition udp_fits (k : Key) (v : udp_view) : Prop :=
  uvPID v ≠ 0 ∧ uvPort v = kLocalPort k ∧ fits (uvLocal v) (Unmap (kLocal k)).
#[export] Instance tcp_fits_dec k v : Decision (tcp_fits k v).
Proof. unfold tcp_fits, fits. apply _. Defined.
#[export] Instance udp_fits_dec k v : Decision (udp_fits k v).
Proof. unfold udp_fits, fits. apply _. Defined.

Lemma resolve_tcp_loop_spec k rs : resolve_tcp_loop k rs = tvPID <$> head (filter (tcp_fits k) rs).
Proof.
  induction rs as [|v rs IH]; [done|]. cbn [resolve_tcp_loop]. rewrite filter_cons, IH. unfold tcp_fits at 2, fits.
  case_decide as Hv.
  - destruct Hv as (H1 & -> & -> & H4 & H5). zdec.
    destruct H4 as [->| ->], H5 as [->| ->]; repeat case_bool_decide; cbn [negb andb]; rewrite ?andb_false_r; done.
  - destruct (Z.eqb_spec (tvPID v) 0) as [|H1]; [done|].
    destruct (Z.eqb_spec (tvLocalPort v) (kLocalPort k)) as [H2|]; [|done].
    destruct (Z.eqb_spec (tvRemotePort v) (kRemotePort k)) as [H3|]; [|done]. cbn [negb orb].
    destruct (IsUnspecified (tvRemote v)) eqn:E1, (IsUnspecified (tvLocal v)) eqn:E2; cbn [negb andb];
      repeat case_bool_decide; cbn [negb]; try done; exfalso; apply Hv; split_and!; first [done|by left|by right].
Qed.
Lemma resolve_udp_loop_spec k rs : resolve_udp_loop k rs = uvPID <$> head (filter (udp_fits k) rs).
Proof.
  induction rs as [|v rs IH]; [done|]. cbn [resolve_udp_loop]. rewrite filter_cons, IH. unfold udp_fits at 2, fits.
  case_decide as Hv.
  - destruct Hv as (H1 & -> & H4). zdec.
    destruct H4 as [->| ->]; repeat case_bool_decide; cbn [negb andb]; rewrite ?andb_false_r; done.
  - destruct (Z.eqb_spec (uvPID v) 0) as [|H1]; [done|].
    destruct (Z.eqb_spec (uvPort v) (kLocalPort k)) as [H2|]; [|done]. cbn [negb orb].
    destruct (IsUnspecified (uvLocal v)) eqn:E2; cbn [negb andb];
      repeat case_bool_decide; cbn [negb]; try done; exfalso; apply Hv; split_and!; first [done|by left|by right].
Qed.

(** The four tables the system can answer with. *)
Inductive table :=
  | TCP4 (rs : list mibTCPRowOwnerPID) | TCP6 (rs : list mibTCP6RowOwnerPID)
  | UDP4 (rs : list mibUDPRowOwnerPID) | UDP6 (rs : list mibUDP6RowOwnerPID).
Definition table_bytes (t : table) : list Z :=
  match t with TCP4 rs => enc_table rs | TCP6 rs => enc_table rs | UDP4 rs => enc_table rs | UDP6 rs => enc_table rs end.
Definition table_ok (t : table) : Prop :=
  match t with
  | TCP4 rs => Forall row_ok rs ∧ w32 (blen rs) | TCP6 rs => Forall row_ok rs ∧ w32 (blen rs)
  | UDP4 rs => Forall row_ok rs ∧ w32 (blen rs) | UDP6 rs => Forall row_ok rs ∧ w32 (blen rs)
  end.
(** The table that is queried for a key. *)
Definition queried (k : Key) (t : table) : Prop :=
  match t with
  | TCP4 _ => kProto k = 6 ∧ Is4 (kLocal k) = true ∧ Is4 (kRemote k) = true
  | TCP6 _ => kProto k = 6 ∧ Is6 (kLocal k) = true ∧ Is6 (kRemote k) = true
  | UDP4 _ => kProto k = 17 ∧ Is4 (kLocal k) = true
  | UDP6 _ => kProto k = 17 ∧ Is6 (kLocal k) = true
  end.
(** The pids of the rows that fit a key, in the table's order. *)
Definition owners (k : Key) (t : table) : list Z :=
  match t with
  | TCP4 rs => tvPID <$> filter (tcp_fits k) (map view_tcp4 rs)
  | TCP6 rs => tvPID <$> filter (tcp_fits k) (map view_tcp6 rs)
  | UDP4 rs => uvPID <$> filter (udp_fits k) (map view_udp4 rs)
  | UDP6 rs => uvPID <$> filter (udp_fits k) (map view_udp6 rs)
  end.

Lemma head_fmap {A B} (f : A → B) l : f <$> head l = head (f <$> l).
Proof. by destruct l. Qed.
Lemma owner_nonzero k t pid : head (owners k t) = Some pid → pid ≠ 0.
Proof.
  intros H%head_Some_elem_of. destruct t; apply list_elem_of_fmap in H as (v & -> & Hv%list_elem_of_filter);
    destruct Hv as [Hv _]; apply Hv.
Qed.
Lemma Is4_not6 a : Is4 a = true → Is6 a = false.
Proof. by destruct a. Qed.

(** The owner query answers with the process of the first row of the system's
    table that fits the flow (same ports; each address equal or unspecified; a
    non-zero pid), for TCP and UDP over IPv4 and IPv6, whatever bytes follow the
    table in the buffer, and with no process when no row fits.  The process keeps
    the pid of that row when the process query does not know it. *)
Theorem ResolveSocketOwner_correct (t : table) (slack : list Z) (k : Key) :
  table_ok t → queried k t →
  ResolveSocketOwner resolve (answer (table_bytes t ++ slack)) k = Ok (owned <$> head (owners k t)).
Proof.
  intros Ht Hq. pose proof (owner_nonzero k t) as Hz. unfold ResolveSocketOwner, resolveTCP4Owner, resolveTCP6Owner, resolveUDP4Owner, resolveUDP6Owner.
  assert (Hfin : ∀ o, o = head (owners k t) → (o ← Ok o; match o with None => Ok None | Some pid =>
    if pid =? 0 then Ok None else p ← NormalizeProcess (resolve pid); Ok (Some (with_pid p pid)) end) = Ok (owned <$> o)).
  { intros [pid|] E; [|done]. rewrite bind_Ok. specialize (Hz pid (eq_sym E)). zdec. by rewrite NormalizeProcess_norm. }
  assert (H64 : Is6 (kLocal k) = true → Is4 (kLocal k) = false) by by destruct (kLocal k).
  destruct t as [rs|rs|rs|rs]; destruct Ht as [Hok Hn]; cbn [queried table_bytes owners] in *; destruct Hq as (-> & Hq);
    cbn [Z.eqb Pos.eqb].
  - destruct Hq as [-> ->]. cbn [andb]. rewrite read_answer by done. cbn [or_none]. rewrite resolve_tcp_loop_spec, head_fmap. by apply Hfin.
  - destruct Hq as [Hl ->]. rewrite (H64 Hl), Hl. cbn [andb]. rewrite read_answer by done. cbn [or_none]. rewrite resolve_tcp_loop_spec, head_fmap. by apply Hfin.
  - rewrite Hq, read_answer by done. cbn [or_none]. rewrite resolve_udp_loop_spec, head_fmap. by apply Hfin.
  - rewrite (H64 Hq), Hq, read_answer by done. cbn [or_none]. rewrite resolve_udp_loop_spec, head_fmap. by apply Hfin.
Qed.

(** ** A whole snapshot *)
Context (now : Z).
Definition table_rows {T} `{Row T} (a : TableReply) : list T := match read_table a with Ok rs => rs | _ => [] end.
Definition tcp_rows (t4 t6 : TableReply) : list tcp_view := map view_tcp4 (table_rows t4) ++ map view_tcp6 (table_rows t6).
Definition udp_rows (u4 u6 : TableReply) : list udp_view := map view_udp4 (table_rows u4) ++ map view_udp6 (table_rows u6).
Definition udp_key (v : udp_view) : localKey := mkLocalKey 17 (normalizeLocal (uvLocal v)) (uvPort v).
Definition owned_entry (pid : Z) : entry := mkEntry (norm (owned pid)) now.

(** What the loops do to the temporary index. *)
Definition put_tcp (i : Index) (v : tcp_view) : Index :=
  if tcp_skipped v then i else
  signal (mkIndex (ix_m i) (<[tcp_key v := owned_entry (tvPID v)]> (ix_snapshotExact i)) (ix_locals i) (ix_sockets i) (ix_socketLocal i) (ix_notify i)).
Definition put_udp (i : Index) (v : udp_view) : Index :=
  if udp_skipped v then i else
  signal (mkIndex (ix_m i) (ix_snapshotExact i) (<[udp_key v := owned_entry (uvPID v)]> (ix_locals i)) (ix_sockets i) (ix_socketLocal i) (ix_notify i)).
Definition taken {T} (skipped : T → bool) (rs : list T) : Z := blen (filter (fun v => skipped v = false) rs).
Definition cache_ok (s : snap) : Prop := ∀ pid p, sn_cache s !! pid = Some p → p = owned pid.

Lemma owner_run pid s : cache_ok s → ∃ s', owner resolve pid s = (s', Ok (owned pid)) ∧ cache_ok s' ∧ sn_index s' = sn_index s.
Proof.
  intros Hc. unfold owner. destruct (sn_cache s !! pid) as [p|] eqn:E; [exists s; by rewrite (Hc _ _ E)|].
  rewrite NormalizeProcess_norm. eexists. split; [done|]. split; [|done].
  intros pid' p'. cbn. destruct (decide (pid' = pid)) as [->|]; [rewrite lookup_insert_eq; by intros [= <-]|].
  rewrite lookup_insert_ne by done. apply Hc.
Qed.
Lemma Unmap_twice a : Unmap (Unmap a) = Unmap a.
Proof. destruct a as [| |v]; try done. unfold Unmap. destruct (Is4In6 (Addr6 v)) eqn:E; [done|]. by rewrite E. Qed.
Lemma normalizeLocal_wildcard a : Unmap a = a → normalizeLocal (wildcardAddr a) = normalizeLocal a.
Proof.
  intros Ha. unfold wildcardAddr, normalizeLocal. destruct (negb (IsValid a) || IsUnspecified a) eqn:E; [done|].
  by rewrite Ha, E, Ha.
Qed.

Lemma tcp_loop_run rs : ∀ n s, cache_ok s →
  ∃ s', tcp_loop resolve now rs n s = (s', Ok (n + taken tcp_skipped rs)) ∧ cache_ok s' ∧ sn_index s' = fold_left put_tcp rs (sn_index s).
Proof.
  induction rs as [|v rs IH]; intros n s Hc; [exists s; by rewrite Z.add_0_r|].
  cbn [tcp_loop fold_left]. unfold taken, put_tcp at 2. rewrite filter_cons. destruct (tcp_skipped v) eqn:Ev; [rewrite decide_False by done; by apply IH|].
  rewrite decide_True by done. destruct (owner_run (tvPID v) s Hc) as (s1 & E1 & Hc1 & Ei).
  unfold mbind at 1, SR_bind at 1. rewrite E1. unfold mbind, SR_bind, update, AddSnapshotExact. rewrite NormalizeProcess_norm, bind_Ok.
  match goal with |- context [tcp_loop _ _ rs (n + 1) ?st] => destruct (IH (n + 1) st Hc1) as (s2 & E2 & Hc2 & Hi2) end. rewrite E2.
  exists s2. split; [f_equal; f_equal; unfold taken; rewrite blen_cons; lia|]. split; [done|]. rewrite Hi2. cbn [sn_index]. by rewrite Ei.
Qed.
Lemma udp_loop_run rs : Forall (fun v => Unmap (uvLocal v) = uvLocal v) rs → ∀ n s, cache_ok s →
  ∃ s', udp_loop resolve now rs n s = (s', Ok (n + taken udp_skipped rs)) ∧ cache_ok s' ∧ sn_index s' = fold_left put_udp rs (sn_index s).
Proof.
  induction rs as [|v rs IH]; intros Hu n s Hc; [exists s; by rewrite Z.add_0_r|]. apply List.Forall_cons_iff in Hu as [Hv Hu]. specialize (IH Hu).
  cbn [udp_loop fold_left]. unfold taken, put_udp at 2. rewrite filter_cons. destruct (udp_skipped v) eqn:Ev; [rewrite decide_False by done; by apply IH|].
  rewrite decide_True by done. destruct (owner_run (uvPID v) s Hc) as (s1 & E1 & Hc1 & Ei).
  apply orb_false_iff in Ev as [_ Hp].
  unfold mbind at 1, SR_bind at 1. rewrite E1. unfold mbind, SR_bind, update, AddLocal. rewrite Hp, NormalizeProcess_norm, bind_Ok. cbv zeta.
  rewrite normalizeLocal_wildcard by done.
  match goal with |- context [udp_loop _ _ rs (n + 1) ?st] => destruct (IH (n + 1) st Hc1) as (s2 & E2 & Hc2 & Hi2) end. rewrite E2.
  exists s2. split; [f_equal; f_equal; unfold taken; rewrite blen_cons; lia|]. split; [done|]. rewrite Hi2. cbn [sn_index]. by rewrite Ei.
Qed.

Lemma rows_loop_returns {T} `{RowEnc T} n buf off : 0 <= off → off + Z.of_nat n * row_size <= blen buf → ∃ rs : list T, rows_loop n buf off = Ok rs.
Proof.
  pose proof row_size_pos. revert off. induction n as [|n IH]; intros off Ho Hb; [by exists []|]. cbn [rows_loop].
  rewrite idx_ok, bind_Ok by nia. destruct (IH (off + row_size)) as [rs ->]; [lia|nia|]. by eexists.
Qed.
Lemma read_table_returns {T} `{RowEnc T} a : reply_ok a → returns (read_table a : Res (list T)).
Proof.
  intros (H1 & H2 & H3 & H4). unfold read_table, getExtendedTable. destruct (_ && _); [exact I|]. destruct (Z.ltb_spec (size1 a) 4); [exact I|].
  destruct (negb _); [exact I|]. destruct (Z.ltb_spec (size1 a) (size2 a)); [exact I|]. rewrite slice_ok, bind_Ok by lia.
  unfold rows. destruct (Z.ltb_spec (blen (bsub (filled a) 0 (size2 a))) 4); [exact I|]. rewrite le32_ok, bind_Ok by lia.
  destruct (row_size <=? 0); [exact I|].
  pose proof (le32_at_range _ 0 (bytes_ok_bsub _ 0 (size2 a) H4)).
  destruct (Z.ltb_spec (blen (bsub (filled a) 0 (size2 a))) (4 + le32_at (bsub (filled a) 0 (size2 a)) 0 * row_size)); [exact I|].
  edestruct rows_loop_returns as [rs ->]; [| |exact I]; lia.
Qed.

Definition failed {T} `{Row T} (a : TableReply) : list string := match (read_table a : Res (list T)) with Err e => [e] | _ => [] end.
(** One table: its rows go to the temporary index, or its error to the list. *)
Lemma tally_run {T V} `{RowEnc T} (view : T → V) (loop : list V → Z → SR snap Z) (skipped : V → bool) (put : Index → V → Index) (P : V → Prop)
    (a : TableReply) count errs s :
  (∀ rs, Forall P rs → ∀ n s, cache_ok s → ∃ s', loop rs n s = (s', Ok (n + taken skipped rs)) ∧ cache_ok s' ∧ sn_index s' = fold_left put rs (sn_index s)) →
  (∀ r, P (view r)) → reply_ok a → cache_ok s →
  ∃ s', tally (rs ← liftR (read_table a); loop (map view rs) 0) count errs s =
          (s', Ok (count + taken skipped (map view (table_rows a)), errs ++ failed (T := T) a)) ∧
        cache_ok s' ∧ sn_index s' = fold_left put (map view (table_rows a)) (sn_index s).
Proof.
  intros Hl HP Ha Hc. pose proof (read_table_returns (T := T) a Ha) as Hr. unfold tally, mbind, SR_bind, liftR, table_rows, failed.
  destruct (read_table a) as [rs|e| |]; try done.
  - destruct (Hl (map view rs) ltac:(apply Forall_map, Forall_true; intros; apply HP) 0 s Hc) as (s' & E & Hc' & Hi).
    cbv beta iota. rewrite E. exists s'. by rewrite Z.add_0_l, app_nil_r.
  - exists s. cbv beta iota. by rewrite Z.add_0_r.
Qed.

Lemma taken_app {T} (skipped : T → bool) a b : taken skipped (a ++ b) = taken skipped a + taken skipped b.
Proof. unfold taken. by rewrite list.filter_app, blen_app. Qed.

Lemma snapshot_all_run t4 t6 u4 u6 : reply_ok t4 → reply_ok t6 → reply_ok u4 → reply_ok u6 →
  ∃ s, snapshot_all resolve now t4 t6 u4 u6 (mkSnap New ∅) =
    (s, Ok (taken tcp_skipped (tcp_rows t4 t6), taken udp_skipped (udp_rows u4 u6),
            failed (T := mibTCPRowOwnerPID) t4 ++ failed (T := mibTCP6RowOwnerPID) t6 ++ failed (T := mibUDPRowOwnerPID) u4 ++ failed (T := mibUDP6RowOwnerPID) u6)) ∧
    sn_index s = fold_left put_udp (udp_rows u4 u6) (fold_left put_tcp (tcp_rows t4 t6) New).
Proof.
  intros H1 H2 H3 H4. assert (Hc : cache_ok (mkSnap New ∅)) by (intros pid p; cbn; by rewrite lookup_empty).
  pose proof (fun rs (_ : Forall (fun _ => True) rs) => tcp_loop_run rs) as Ht. pose proof udp_loop_run as Hu.
  destruct (tally_run view_tcp4 _ _ _ _ t4 0 [] _ Ht (fun _ => I) H1 Hc) as (s1 & E1 & Hc1 & I1).
  destruct (tally_run view_tcp6 _ _ _ _ t6 (0 + taken tcp_skipped (map view_tcp4 (table_rows t4))) ([] ++ failed (T := mibTCPRowOwnerPID) t4) _ Ht (fun _ => I) H2 Hc1) as (s2 & E2 & Hc2 & I2).
  destruct (tally_run view_udp4 _ _ _ _ u4 0 (([] ++ failed (T := mibTCPRowOwnerPID) t4) ++ failed (T := mibTCP6RowOwnerPID) t6) _ Hu (fun _ => eq_refl) H3 Hc2) as (s3 & E3 & Hc3 & I3).
  destruct (tally_run view_udp6 _ _ _ _ u6 (0 + taken udp_skipped (map view_udp4 (table_rows u4)))
    ((([] ++ failed (T := mibTCPRowOwnerPID) t4) ++ failed (T := mibTCP6RowOwnerPID) t6) ++ failed (T := mibUDPRowOwnerPID) u4)  _ Hu (fun _ => Unmap_twice _) H4 Hc3) as (s4 & E4 & Hc4 & I4).
  exists s4. split.
  - unfold snapshot_all, snapshotTCP4, snapshotTCP6, snapshotUDP4, snapshotUDP6. unfold mbind at 1, SR_bind at 1. rewrite E1. cbv beta iota.
    unfold mbind at 1, SR_bind at 1. rewrite E2. cbv beta iota. unfold mbind at 1, SR_bind at 1. rewrite E3. cbv beta iota.
    unfold mbind at 1, SR_bind at 1. rewrite E4. cbv beta iota. unfold mret, SR_ret, tcp_rows, udp_rows. rewrite !taken_app, <- !app_assoc. done.
  - rewrite I4, I3, I2, I1. unfold tcp_rows, udp_rows. by rewrite !fold_left_app.
Qed.

(** The last row with a given key wins. *)
Lemma fold_lookup {I K V E} `{Countable K} (put : I → V → I) (get : I → gmap K E) (skipped : V → bool) (key : V → K) (val : V → E) :
  (∀ i v, get (put i v) = if skipped v then get i else <[key v := val v]> (get i)) →
  ∀ rs i k, get (fold_left put rs i) !! k =
    match list.last (filter (fun v => skipped v = false ∧ key v = k) rs) with Some v => Some (val v) | None => get i !! k end.
Proof.
  intros Hp rs i k. induction rs as [|v rs IH] using rev_ind; [done|].
  rewrite fold_left_app, list.filter_app, filter_cons, filter_nil. cbn [fold_left]. rewrite Hp.
  destruct (skipped v) eqn:Ev; [rewrite decide_False by (by intros []); by rewrite app_nil_r|].
  destruct (decide (key v = k)) as [<-|Hne].
  - rewrite decide_True by done. by rewrite last_snoc, lookup_insert_eq.
  - rewrite decide_False by (by intros []). by rewrite app_nil_r, lookup_insert_ne.
Qed.
Lemma fold_keep {I V W} (put : I → V → I) (get : I → W) : (∀ i v, get (put i v) = get i) → ∀ rs i, get (fold_left put rs i) = get i.
Proof. intros Hp rs. induction rs as [|v rs IH]; intros i; [done|]. cbn [fold_left]. by rewrite IH, Hp. Qed.

(** A snapshot of the system tables replaces the fallback ownership and nothing
    else: it never panics, whatever the four tables contain; afterwards the exact
    fallback maps a flow to the owner of the last established TCP row with that key
    and the local fallback maps an endpoint to the owner of its last UDP row, with no
    entry left from before; live FLOW and SOCKET ownership is untouched, waiting
    lookups are woken, the counts are the rows taken, and a table that cannot be read
    contributes its error and no row. *)
Theorem SnapshotExisting_replaces (t4 t6 u4 u6 : TableReply) (i : Index) :
  reply_ok t4 → reply_ok t6 → reply_ok u4 → reply_ok u6 →
  ∃ i', SnapshotExisting resolve now t4 t6 u4 u6 i = Ok (i', (taken tcp_skipped (tcp_rows t4 t6), taken udp_skipped (udp_rows u4 u6),
      failed (T := mibTCPRowOwnerPID) t4 ++ failed (T := mibTCP6RowOwnerPID) t6 ++
      failed (T := mibUDPRowOwnerPID) u4 ++ failed (T := mibUDP6RowOwnerPID) u6)) ∧
    (∀ k, ix_snapshotExact i' !! k =
       (fun v => owned_entry (tvPID v)) <$> list.last (filter (fun v => tcp_skipped v = false ∧ tcp_key v = k) (tcp_rows t4 t6))) ∧
    (∀ lk, ix_locals i' !! lk =
       (fun v => owned_entry (uvPID v)) <$> list.last (filter (fun v => udp_skipped v = false ∧ udp_key v = lk) (udp_rows u4 u6))) ∧
    ix_m i' = ix_m i ∧ ix_sockets i' = ix_sockets i ∧ ix_socketLocal i' = ix_socketLocal i ∧ ix_notify i' = true.
Proof.
  intros H1 H2 H3 H4. destruct (snapshot_all_run t4 t6 u4 u6 H1 H2 H3 H4) as (s & E & Ei). unfold SnapshotExisting. rewrite E, bind_Ok.
  eexists. split; [reflexivity|]. cbn [signal ix_snapshotExact ix_locals ix_m ix_sockets ix_socketLocal ix_notify]. rewrite Ei.
  split; [|split; [|done]].
  - intros k. rewrite (fold_keep put_udp ix_snapshotExact) by (intros j v; unfold put_udp; by destruct (udp_skipped v)).
    rewrite (fold_lookup put_tcp ix_snapshotExact tcp_skipped tcp_key (fun v => owned_entry (tvPID v)))
      by (intros j v; unfold put_tcp; by destruct (tcp_skipped v)).
    cbn. rewrite lookup_empty. by destruct (list.last _).
  - intros k. rewrite (fold_lookup put_udp ix_locals udp_skipped udp_key (fun v => owned_entry (uvPID v)))
      by (intros j v; unfold put_udp; by destruct (udp_skipped v)).
    rewrite (fold_keep put_tcp ix_locals) by (intros j v; unfold put_tcp; by destruct (tcp_skipped v)).
    cbn. rewrite lookup_empty. by destruct (list.last _).
Qed.
End Facts.

(** ** A concrete table *)
#[local] Existing Instance ascii_unicode.
#[local] Existing Instance posix.
Definition example_resolve (pid : Z) : Process := if pid =? 42 then mkProcess 42 (lit " game.exe ") [] else Process0.
(** 10.0.0.2:5000 to 1.1.1.1:443, established, owned by 42; and a listener of 7. *)
Definition example_tcp : list mibTCPRowOwnerPID :=
  [mkTCP 2 0 (0x88 * 256 + 0x13) 0 0 7; mkTCP 5 0x0200000A (0x88 * 256 + 0x13) 0x01010101 (0xBB * 256 + 0x01) 42].
Definition example_flow : Key := mkKey 6 (Addr4 [10; 0; 0; 2]) (Addr4 [1; 1; 1; 1]) 5000 443.

Lemma example_tcp_ok : table_ok (TCP4 example_tcp).
Proof. split; [|unfold w32; vm_compute; split; [discriminate|done]]. repeat constructor; unfold w32; cbn; lia. Qed.

Lemma ResolveSocketOwner_correct_witness :
  ResolveSocketOwner example_resolve (answer (table_bytes (TCP4 example_tcp) ++ [0; 0; 0])) example_flow = Ok (Some (mkProcess 42 (lit "game.exe") [])).
Proof.
  rewrite (ResolveSocketOwner_correct example_resolve (TCP4 example_tcp) [0; 0; 0] example_flow example_tcp_ok ltac:(done)).
  vm_compute. reflexivity.
Defined.

Definition no_table : TableReply := mkTableReply 5 0 0 0 [].
Lemma no_table_ok : reply_ok no_table.
Proof. repeat split; try done. constructor. Qed.
Lemma example_reply_ok : reply_ok (answer (table_bytes (TCP4 example_tcp))).
Proof. repeat split; try (vm_compute; congruence). by apply bytes_okb_ok. Qed.

Lemma SnapshotExisting_replaces_witness :
  ∃ i', SnapshotExisting example_resolve 9 (answer (table_bytes (TCP4 example_tcp))) no_table no_table no_table after_old =
          Ok (i', (1, 0, ["errno"; "errno"; "errno"]%string)) ∧
        ix_snapshotExact i' !! example_flow = Some (mkEntry (mkProcess 42 (lit "game.exe") []) 9) ∧ ix_sockets i' = ix_sockets after_old.
Proof.
  destruct (SnapshotExisting_replaces example_resolve 9 (answer (table_bytes (TCP4 example_tcp))) no_table no_table no_table after_old
    example_reply_ok no_table_ok no_table_ok no_table_ok) as (i' & E & Hk & _ & _ & Hs & _).
  exists i'. split; [|split; [|exact Hs]].
  - rewrite E. f_equal.
  - rewrite Hk. vm_compute. reflexivity.
Defined.
