(* ===== verification/Windivert.v ===== *)
(** * The WinDivert binding: [internal/windivert/windivert_windows.go]

    The driver is reached through a DLL: what a call answers is an argument, and the
    checksum helper is a function of the class [Divert] with what its documentation
    says of it.  Everything the Go code does around the calls is modelled: the
    address structure, its two builders, the decoding of FLOW and SOCKET events, the
    checks on receive and send, and the process query.  The 80-byte address is a list
    read with the total accessors, as an array is. *)

From S2P Require Import Prelude Netip GoStrings Packet Crypto FlowIndex Config.
Local Open Scope Z_scope.

Definition LayerNetwork : Z := 0.
Definition LayerFlow : Z := 2.
Definition LayerSocket : Z := 3.
Definition EventFlowEstablished : Z := 1.
Definition EventFlowDeleted : Z := 2.
Definition EventSocketBind : Z := 3.
Definition EventSocketConnect : Z := 4.
Definition EventSocketListen : Z := 5.
Definition EventSocketAccept : Z := 6.
Definition EventSocketClose : Z := 7.

(** ** Addresses *)
Definition Address : Type := list Z.
Record NetworkMeta := mkNetMeta { nmIfIdx : Z; nmSubIfIdx : Z }.

Definition le16_at (b : list Z) (i : Z) : Z := gb b i + gb b (i + 1) * 256.
Definition le64_at (b : list Z) (i : Z) : Z := le32_at b i + le32_at b (i + 4) * 4294967296.

Definition NetworkMeta_of (a : Address) : NetworkMeta := mkNetMeta (le32_at a 16) (le32_at a 20).
Definition NewInboundAddress (meta : NetworkMeta) (ipv6 : bool) : Address :=
  let a := zeros 80 in
  let bits := if ipv6 then Z.lor 0 (Z.shiftl 1 20) else 0 in
  let a := bcopy a 8 (put_le64 bits) in
  let a := bcopy a 16 (put_le32 (nmIfIdx meta)) in
  bcopy a 20 (put_le32 (nmSubIfIdx meta)).
(** The driver's flag for a packet on its way out, bit 17 of the flags. *)
Definition outbound (a : Address) : bool := Z.testbit (le64_at a 8) 17.
Definition addressEvent (a : Address) : Z := u8 (Z.land (Z.shiftr (le64_at a 8) 8) 255).

(** ** Calls on a handle

    What the driver answers: whether the call succeeded and the byte count it set. *)
Record io := mkIo { io_ok : bool; io_n : Z }.

Definition Recv (answer : io) (buf : list Z) (addr : Address) : Res (list Z * Address) :=
  if negb (io_ok answer) then Err "WinDivertRecv failed" else
  if blen buf <? io_n answer then Err "WinDivertRecv length exceeds buffer" else
  raw ← slice buf 0 (io_n answer); Ok (raw, addr).
Definition Send (answer : io) (pkt : list Z) : Res unit :=
  if blen pkt =? 0 then Ok tt else
  if negb (io_ok answer) then Err "WinDivertSend failed" else
  if negb (io_n answer =? blen pkt) then Err "WinDivertSend short write" else Ok tt.

(** A handle of the driver; [h_h] is 0 once it is closed. *)
Record Handle := mkHandle { h_h : Z; h_layer : Z }.
Definition invalidHandle : Z := 2 ^ 64 - 1.
Definition FlagSniff : Z := 1.
Definition FlagRecvOnly : Z := 4.
(** [WinDivertOpen] as a function of the filter, layer, priority and flags; a filter
    with a zero byte never reaches it. *)
Definition open (driver : list Z → Z → Z → Z → Z) (filter : list Z) (layer priority flags : Z) : Res Handle :=
  if existsb (Z.eqb 0) filter then Err "invalid argument" else
  let r := driver filter layer (u16 priority) flags in
  if (r =? 0) || (r =? invalidHandle) then Err "WinDivertOpen" else Ok (mkHandle r layer).
Definition OpenNetwork (driver : list Z → Z → Z → Z → Z) (filter : list Z) (priority flags : Z) : Res Handle :=
  open driver filter LayerNetwork priority flags.
Definition OpenFlow (driver : list Z → Z → Z → Z → Z) (filter : list Z) (priority : Z) : Res Handle :=
  open driver filter LayerFlow priority (Z.lor FlagSniff FlagRecvOnly).
Definition OpenSocket (driver : list Z → Z → Z → Z → Z) (filter : list Z) (priority : Z) : Res Handle :=
  open driver filter LayerSocket priority (Z.lor FlagSniff FlagRecvOnly).

Definition unusable (h : option Handle) : bool :=
  match h with None => true | Some h => (h_h h =? 0) || (h_h h =? invalidHandle) end.
(** The handle afterwards, and the error, which is what the call reports if it failed. *)
Definition Close (answer : option string) (h : option Handle) : option Handle * option string :=
  if unusable h then (h, None) else ((fun h => mkHandle 0 (h_layer h)) <$> h, answer).
Definition SetParam (set : Z → Z → option string) (h : option Handle) (param value : Z) : Res unit :=
  if unusable h then Err "invalid WinDivert handle" else
  match set param value with Some e => Err e | None => Ok tt end.
Definition TuneQueue (set : Z → Z → option string) (h : option Handle) : Res unit :=
  _ ← SetParam set h 0 16384;
  _ ← SetParam set h 2 (Z.shiftl 32 20);
  SetParam set h 1 4000.

(** ** Checksums

    [WinDivertHelperCalcChecksums] recomputes the checksums of a packet in place: the
    IPv4 header's, and TCP's, UDP's or ICMP's. *)
Definition checksum_field (p : Packet) (i : Z) : Prop :=
  (pVersion p = 4 ∧ 10 <= i < 12) ∨
  (pProtocol p = 6 ∧ pL4 p + 16 <= i < pL4 p + 18) ∨
  (pProtocol p = 17 ∧ pL4 p + 6 <= i < pL4 p + 8) ∨
  ((pProtocol p = 1 ∨ pProtocol p = 58) ∧ pL4 p + 2 <= i < pL4 p + 4).
Class Divert := {
  calc_helper : list Z → Res (list Z);
  calc_returns : ∀ b, returns (calc_helper b);
  calc_len : ∀ b b', calc_helper b = Ok b' → blen b' = blen b;
  calc_bytes : ∀ b b', calc_helper b = Ok b' → bytes_ok b → bytes_ok b';
  calc_fields : ∀ b b' p i, calc_helper b = Ok b' → Parse b = Ok p → 0 <= i → ¬ checksum_field p i → gb b' i = gb b i
}.
Definition CalcChecksums `{Divert} (pkt : list Z) : Res (list Z) := if blen pkt =? 0 then Ok pkt else calc_helper pkt.

(** ** Events *)
Record Event := mkEvent { evEvent : Z; evEndpointID : Z; evParentEndpointID : Z; evKey : Key; evProcess : Process }.

Section Events.
Context {U : Unicode} {F : Platform} {D : Decoders}.
(** [WinDivertHelperFormatIPv6Address] (the 64 bytes it writes, or its error), and the
    image path of a process when it can be opened and queried. *)
Context (format6 : list Z → Res (list Z)) (image : Z → option (list Z)).

(** [out[:n]] with [n] the first zero, or the whole array. *)
Fixpoint c_string (out : list Z) : list Z :=
  match out with c :: rest => if c =? 0 then [] else c :: c_string rest | [] => [] end.
Definition formatAddress (raw : list Z) : Res Addr :=
  if blen raw <? 16 then Err "short address" else
  out ← format6 raw;
  match ParseAddr (c_string out) with Some a => Ok a | None => Err "ParseAddr" end.

Definition ProcessInfo (pid : Z) : Res Process :=
  match image pid with
  | None => Ok (mkProcess pid [] [])
  | Some path => name ← Base (replace_byte path slash backslash); NormalizeProcess (mkProcess pid name path)
  end.

Definition decode_event (a : Address) : Res Event :=
  let ev := addressEvent a in
  let endpointID := le64_at a 16 in
  let parentEndpointID := le64_at a 24 in
  let pid := le32_at a 32 in
  local ← formatAddress (bsub a 36 52);
  remote ← formatAddress (bsub a 52 68);
  let lp := le16_at a 68 in
  let rp := le16_at a 70 in
  let proto := gb a 72 in
  p ← ProcessInfo pid;
  Ok (mkEvent ev endpointID parentEndpointID (mkKey proto (Unmap local) (Unmap remote) lp rp) p).
(** [received] is the address that [Recv(nil)] returned, or its error. *)
Definition RecvFlow (layer : Z) (received : Res Address) : Res Event :=
  if negb (layer =? LayerFlow) then Err "RecvFlow called on non-FLOW handle" else a ← received; decode_event a.
Definition RecvSocket (layer : Z) (received : Res Address) : Res Event :=
  if negb (layer =? LayerSocket) then Err "RecvSocket called on non-SOCKET handle" else a ← received; decode_event a.
End Events.

(** ** Facts *)
Lemma CalcChecksums_returns `{Divert} b : returns (CalcChecksums b).
Proof. unfold CalcChecksums. destruct (blen b =? 0); [exact I|apply calc_returns]. Qed.
Lemma CalcChecksums_len `{Divert} b b' : CalcChecksums b = Ok b' → blen b' = blen b.
Proof. unfold CalcChecksums. destruct (blen b =? 0); [by intros [= <-]|apply calc_len]. Qed.
Lemma CalcChecksums_bytes `{Divert} b b' : CalcChecksums b = Ok b' → bytes_ok b → bytes_ok b'.
Proof. unfold CalcChecksums. destruct (blen b =? 0); [by intros [= <-]|apply calc_bytes]. Qed.
Lemma CalcChecksums_fields `{Divert} b b' p i :
  CalcChecksums b = Ok b' → Parse b = Ok p → 0 <= i → ¬ checksum_field p i → gb b' i = gb b i.
Proof. unfold CalcChecksums. destruct (blen b =? 0); [by intros [= <-]|apply calc_fields]. Qed.

(** The parts of an address that [NewInboundAddress] builds. *)
Lemma NewInboundAddress_parts m v6 : NewInboundAddress m v6 =
  zeros 8 ++ put_le64 (if v6 then 1048576 else 0) ++ put_le32 (nmIfIdx m) ++ put_le32 (nmSubIfIdx m) ++ zeros 56.
Proof. by destruct v6. Qed.
Lemma NewInboundAddress_meta m v6 :
  0 <= nmIfIdx m < 4294967296 → 0 <= nmSubIfIdx m < 4294967296 →
  NetworkMeta_of (NewInboundAddress m v6) = m ∧ blen (NewInboundAddress m v6) = 80.
Proof.
  intros H1 H2. rewrite NewInboundAddress_parts. split; [|by destruct v6]. destruct m as [i s]. cbn [nmIfIdx nmSubIfIdx] in *. unfold NetworkMeta_of.
  f_equal.
  - exact (le32_at_put (zeros 8 ++ put_le64 (if v6 then 1048576 else 0)) i (put_le32 s ++ zeros 56) H1).
  - exact (le32_at_put (zeros 8 ++ put_le64 (if v6 then 1048576 else 0) ++ put_le32 i) s (zeros 56) H2).
Qed.
Lemma NewInboundAddress_inbound m v6 : outbound (NewInboundAddress m v6) = false.
Proof. rewrite NewInboundAddress_parts. by destruct v6. Qed.
Lemma ProcessInfo_returns `{Unicode} `{Platform} image pid : returns (ProcessInfo image pid).
Proof.
  unfold ProcessInfo. destruct (image pid) as [path|]; [|exact I]. destruct (Base_returns (replace_byte path slash backslash)) as [b ->].
  rewrite bind_Ok. by destruct (NormalizeProcess_returns (mkProcess pid b path)) as [q ->].
Qed.
