(* ===== verification/Runner.v ===== *)
(** * The engine: [internal/engine/engine_windows.go]

    One [Runner] owns every table of the program; each loop of the engine is a
    goroutine whose turn (one packet, one event, one tick) is an operation on it.
    A turn reads the clock once; it is atomic except that [WaitLookup] lets other
    turns run, whose effect on the index is an argument.  The policy engine shares
    the runner's domain tracker.  The driver's answers to sends are an oracle by the
    number of calls made, and every call is recorded.  Log lines are not modelled.
    The context is not cancelled during a turn. *)

From S2P Require Import Prelude Netip GoStrings Packet Fragment Pieces Reassembly4 Reassembly6 NatMapper FlowIndex Snapshot Routes Config Tracker Policy Dns BrowserDisc Windivert.
Local Open Scope Z_scope.
#[local] Existing Instance ProxyRoute.proxyRouteKey_eq_dec.
#[local] Existing Instance ProxyRoute.proxyRouteKey_countable.

(** The counters of [Status]; the last two are [proxyTunnel] and [proxyDirect]. *)
Inductive stat :=
  | captured | tunneled | bypassed | dropped | procResolved | procMissed | discoveryPackets | domainMatches | sniLearned
  | quicSuppressed | reconnects | wgWriteOK | wgWriteErrors | reverseNATMiss | inboundInjected | inboundErrors | inboundOther
  | oversizeSegmented | oversizeDropped | sendQueueHigh | sendQueueDelayMaxMS | stickyUnknownDirect | preexistingTCPReset
  | fragReassembled | fragRefragmented | fragErrors | fragTimeouts
  | proxyTunnelled | proxyDirected.
#[export] Instance stat_eq_dec : EqDecision stat.
Proof. solve_decision. Defined.

Record queuedPacket := mkQueued { q_raw : list Z; q_queued : Z }.
(** A call of [WinDivertSend] on the network handle, with the driver's answer. *)
Record driver_call := mkCall { c_pkt : list Z; c_addr : Address; c_answer : io }.

Record Runner := mkRunner {
  r_cfg : Config;
  r_flows : Index;
  r_domains : Tracker;
  r_discovery : Discovery;
  r_policy : Engine;
  r_proxyRoutes : ProxyRoute.proxyRouteTable;
  r_routes : FlowRoute.flowRouteTable;
  r_nat : Mapper;
  r_out4 : IPv4;
  r_in4 : IPv4;
  r_out6 : IPv6;
  r_in6 : IPv6;
  r_fragmentID : Z;
  r_aggressive : bool;
  r_urgent : list queuedPacket;
  r_bulk : list queuedPacket;
  r_stat : stat → Z;
  r_calls : list driver_call
}.
Definition set_flows (r : Runner) (x : Index) : Runner :=
  mkRunner (r_cfg r) x (r_domains r) (r_discovery r) (r_policy r) (r_proxyRoutes r) (r_routes r) (r_nat r) (r_out4 r) (r_in4 r) (r_out6 r) (r_in6 r) (r_fragmentID r) (r_aggressive r) (r_urgent r) (r_bulk r) (r_stat r) (r_calls r).
Definition set_domains (r : Runner) (x : Tracker) : Runner :=
  mkRunner (r_cfg r) (r_flows r) x (r_discovery r) (r_policy r) (r_proxyRoutes r) (r_routes r) (r_nat r) (r_out4 r) (r_in4 r) (r_out6 r) (r_in6 r) (r_fragmentID r) (r_aggressive r) (r_urgent r) (r_bulk r) (r_stat r) (r_calls r).
Definition set_discovery (r : Runner) (x : Discovery) : Runner :=
  mkRunner (r_cfg r) (r_flows r) (r_domains r) x (r_policy r) (r_proxyRoutes r) (r_routes r) (r_nat r) (r_out4 r) (r_in4 r) (r_out6 r) (r_in6 r) (r_fragmentID r) (r_aggressive r) (r_urgent r) (r_bulk r) (r_stat r) (r_calls r).
Definition set_proxyRoutes (r : Runner) (x : ProxyRoute.proxyRouteTable) : Runner :=
  mkRunner (r_cfg r) (r_flows r) (r_domains r) (r_discovery r) (r_policy r) x (r_routes r) (r_nat r) (r_out4 r) (r_in4 r) (r_out6 r) (r_in6 r) (r_fragmentID r) (r_aggressive r) (r_urgent r) (r_bulk r) (r_stat r) (r_calls r).
Definition set_routes (r : Runner) (x : FlowRoute.flowRouteTable) : Runner :=
  mkRunner (r_cfg r) (r_flows r) (r_domains r) (r_discovery r) (r_policy r) (r_proxyRoutes r) x (r_nat r) (r_out4 r) (r_in4 r) (r_out6 r) (r_in6 r) (r_fragmentID r) (r_aggressive r) (r_urgent r) (r_bulk r) (r_stat r) (r_calls r).
Definition set_nat (r : Runner) (x : Mapper) : Runner :=
  mkRunner (r_cfg r) (r_flows r) (r_domains r) (r_discovery r) (r_policy r) (r_proxyRoutes r) (r_routes r) x (r_out4 r) (r_in4 r) (r_out6 r) (r_in6 r) (r_fragmentID r) (r_aggressive r) (r_urgent r) (r_bulk r) (r_stat r) (r_calls r).
Definition set_out4 (r : Runner) (x : IPv4) : Runner :=
  mkRunner (r_cfg r) (r_flows r) (r_domains r) (r_discovery r) (r_policy r) (r_proxyRoutes r) (r_routes r) (r_nat r) x (r_in4 r) (r_out6 r) (r_in6 r) (r_fragmentID r) (r_aggressive r) (r_urgent r) (r_bulk r) (r_stat r) (r_calls r).
Definition set_in4 (r : Runner) (x : IPv4) : Runner :=
  mkRunner (r_cfg r) (r_flows r) (r_domains r) (r_discovery r) (r_policy r) (r_proxyRoutes r) (r_routes r) (r_nat r) (r_out4 r) x (r_out6 r) (r_in6 r) (r_fragmentID r) (r_aggressive r) (r_urgent r) (r_bulk r) (r_stat r) (r_calls r).
Definition set_out6 (r : Runner) (x : IPv6) : Runner :=
  mkRunner (r_cfg r) (r_flows r) (r_domains r) (r_discovery r) (r_policy r) (r_proxyRoutes r) (r_routes r) (r_nat r) (r_out4 r) (r_in4 r) x (r_in6 r) (r_fragmentID r) (r_aggressive r) (r_urgent r) (r_bulk r) (r_stat r) (r_calls r).
Definition set_in6 (r : Runner) (x : IPv6) : Runner :=
  mkRunner (r_cfg r) (r_flows r) (r_domains r) (r_discovery r) (r_policy r) (r_proxyRoutes r) (r_routes r) (r_nat r) (r_out4 r) (r_in4 r) (r_out6 r) x (r_fragmentID r) (r_aggressive r) (r_urgent r) (r_bulk r) (r_stat r) (r_calls r).
Definition set_fragmentID (r : Runner) (x : Z) : Runner :=
  mkRunner (r_cfg r) (r_flows r) (r_domains r) (r_discovery r) (r_policy r) (r_proxyRoutes r) (r_routes r) (r_nat r) (r_out4 r) (r_in4 r) (r_out6 r) (r_in6 r) x (r_aggressive r) (r_urgent r) (r_bulk r) (r_stat r) (r_calls r).
Definition set_aggressive (r : Runner) (x : bool) : Runner :=
  mkRunner (r_cfg r) (r_flows r) (r_domains r) (r_discovery r) (r_policy r) (r_proxyRoutes r) (r_routes r) (r_nat r) (r_out4 r) (r_in4 r) (r_out6 r) (r_in6 r) (r_fragmentID r) x (r_urgent r) (r_bulk r) (r_stat r) (r_calls r).
Definition set_urgent (r : Runner) (x : list queuedPacket) : Runner :=
  mkRunner (r_cfg r) (r_flows r) (r_domains r) (r_discovery r) (r_policy r) (r_proxyRoutes r) (r_routes r) (r_nat r) (r_out4 r) (r_in4 r) (r_out6 r) (r_in6 r) (r_fragmentID r) (r_aggressive r) x (r_bulk r) (r_stat r) (r_calls r).
Definition set_bulk (r : Runner) (x : list queuedPacket) : Runner :=
  mkRunner (r_cfg r) (r_flows r) (r_domains r) (r_discovery r) (r_policy r) (r_proxyRoutes r) (r_routes r) (r_nat r) (r_out4 r) (r_in4 r) (r_out6 r) (r_in6 r) (r_fragmentID r) (r_aggressive r) (r_urgent r) x (r_stat r) (r_calls r).
Definition set_stat (r : Runner) (x : stat → Z) : Runner :=
  mkRunner (r_cfg r) (r_flows r) (r_domains r) (r_discovery r) (r_policy r) (r_proxyRoutes r) (r_routes r) (r_nat r) (r_out4 r) (r_in4 r) (r_out6 r) (r_in6 r) (r_fragmentID r) (r_aggressive r) (r_urgent r) (r_bulk r) x (r_calls r).
Definition set_calls (r : Runner) (x : list driver_call) : Runner :=
  mkRunner (r_cfg r) (r_flows r) (r_domains r) (r_discovery r) (r_policy r) (r_proxyRoutes r) (r_routes r) (r_nat r) (r_out4 r) (r_in4 r) (r_out6 r) (r_in6 r) (r_fragmentID r) (r_aggressive r) (r_urgent r) (r_bulk r) (r_stat r) x.

Definition urgent_cap : Z := 4096.
Definition bulk_cap : Z := 8192.
Definition Millisecond : Z := 1000000.
Definition Minute : Z := 60 * Tracker.Second.

(** [r.policy] with the tracker it points to. *)
Definition policy_of (r : Runner) : Engine :=
  mkEngine (eCfg (r_policy r)) (Some (r_domains r)) (eInternal (r_policy r)) (eGlobal (r_policy r)) (eByName (r_policy r)) (eByPath (r_policy r)).

(** ** Combinators *)
Definition add_stat (c : stat) (n : Z) (r : Runner) : Runner :=
  set_stat r (fun c' => if decide (c' = c) then u64 (r_stat r c' + n) else r_stat r c').
Definition add (c : stat) (n : Z) : SR Runner unit := fun r => (add_stat c n r, Ok tt).
Definition incr (c : stat) : SR Runner unit := add c 1.
(** [updateMax]: the compare-and-swap loop ends with the larger value stored. *)
Definition updateMax (c : stat) (v : Z) : SR Runner unit := fun r =>
  (set_stat r (fun c' => if decide (c' = c) then if v <=? r_stat r c' then r_stat r c' else v else r_stat r c'), Ok tt).
Definition modify (f : Runner → Runner) : SR Runner unit := fun r => (f r, Ok tt).
(** An operation of one component, on its part of the runner. *)
Definition zoom {S A} (get : Runner → S) (set : Runner → S → Runner) (m : SR S A) : SR Runner A := fun r =>
  let (s, a) := m (get r) in (set r s, a).
(** [v, err := m()]: the error as a value; a panic stays one. *)
Definition attempt {A} (m : SR Runner A) : SR Runner (A + string) := fun r =>
  match m r with
  | (r, Ok a) => (r, Ok (inl a))
  | (r, Err e) => (r, Ok (inr e))
  | (r, Panic) => (r, Panic)
  | (r, OutOfFuel) => (r, OutOfFuel)
  end.
(** [defer d()] around [m]. *)
Definition deferred {A} (m : SR Runner A) (d : Runner → Runner) : SR Runner A := fun r => let (r, a) := m r in (d r, a).
Definition when (b : bool) (m : SR Runner unit) : SR Runner unit := if b then m else mret tt.
(** A conjunct that is only evaluated when the ones before it hold. *)
Definition and_then (b : bool) (m : Res bool) : Res bool := if b then m else Ok false.

Section Engine.
Context {U : Unicode} {F : Platform} {DV : Divert}.
(** The enumeration orders of Go maps, the driver's answer to the n-th send, and
    [windivert.ProcessInfo]. *)
Context (enum : gmap Z entry → list (Z * entry)) (genum : gset Z → list Z) (answers : nat → io) (processInfo : Z → Process).

Definition Send (pkt : list Z) (addr : Address) : SR Runner unit := fun r =>
  if blen pkt =? 0 then (r, Windivert.Send (mkIo true 0) pkt) else
  let a := answers (length (r_calls r)) in
  (set_calls r (r_calls r ++ [mkCall pkt addr a]), Windivert.Send a pkt).

(** ** Fragments *)
Definition noteFragmentTimeouts (n : Z) (r : Runner) : Runner :=
  if n =? 0 then r else add_stat dropped n (add_stat fragErrors n (add_stat fragTimeouts n r)).
Definition takeOutTimeouts (r : Runner) : Runner :=
  let (t4, n4) := TakeExpired (r_out4 r) in
  let (t6, n6) := TakeExpired (r_out6 r) in
  noteFragmentTimeouts (u64 (n4 + n6)) (set_out6 (set_out4 r t4) t6).
Definition takeInTimeouts (r : Runner) : Runner :=
  let (t4, n4) := TakeExpired (r_in4 r) in
  let (t6, n6) := TakeExpired (r_in6 r) in
  noteFragmentTimeouts (u64 (n4 + n6)) (set_in6 (set_in4 r t4) t6).

Definition reassembleOutbound (now : Z) (raw : list Z) : SR Runner Result :=
  f ← liftR (IsFragment raw);
  if negb f then mret (mkResult raw true false 0) else
  if blen raw =? 0 then sfail "empty fragment" else
  deferred
    (b0 ← liftR (idx raw 0);
     let v := Z.shiftr b0 4 in
     if v =? 4 then zoom r_out4 set_out4 (PushInfo now raw)
     else if v =? 6 then zoom r_out6 set_out6 (PushInfo6 now raw)
     else sfail "fragment is not IPv4/IPv6")
    takeOutTimeouts.
Definition reassembleInbound (now : Z) (raw : list Z) : SR Runner Result :=
  f ← liftR (IsFragment raw);
  if negb f then mret (mkResult raw true false 0) else
  if blen raw =? 0 then sfail "empty fragment" else
  deferred
    (b0 ← liftR (idx raw 0);
     let v := Z.shiftr b0 4 in
     if v =? 4 then zoom r_in4 set_in4 (PushInfo now raw)
     else if v =? 6 then zoom r_in6 set_in6 (PushInfo6 now raw)
     else sfail "fragment is not IPv4/IPv6")
    takeInTimeouts.

(** ** Direct packets *)
Fixpoint send_parts (parts : list (list Z)) (addr : Address) (c : stat) : SR Runner unit :=
  match parts with
  | [] => mret tt
  | part :: rest => _ ← Send part addr; _ ← incr c; send_parts rest addr c
  end.
Definition reinjectDirect (raw : list Z) (addr : Address) (frag : Result) : SR Runner unit :=
  if negb (rFragmented frag) then _ ← Send raw addr; incr bypassed else
  cp ← liftR (CalcChecksums raw);
  let mtu := rFragmentMTU frag in
  if (mtu <=? 0) || (blen cp <=? mtu) then _ ← Send cp addr; incr bypassed else
  '(parts, split) ← zoom r_fragmentID set_fragmentID (FragmentForMTU cp mtu);
  _ ← when (split) (incr fragRefragmented);
  send_parts parts addr bypassed.

(** ** Packets for the tunnel *)
Fixpoint checksum_all (segs : list (list Z)) : Res (list (list Z)) :=
  match segs with
  | [] => Ok []
  | seg :: rest => seg ← CalcChecksums seg; rest ← checksum_all rest; Ok (seg :: rest)
  end.
Definition prepareTunnelPackets (cp : list Z) (p : Packet) : SR Runner (list (list Z) * bool) :=
  r ← sget;
  let mtu := cMTU (r_cfg r) in
  if blen cp <=? mtu then cp ← liftR (CalcChecksums cp); mret ([cp], false) else
  if pProtocol p =? ProtoTCP then
    ('(segments, split) ← liftR (SplitForMTU cp mtu);
     segments ← liftR (checksum_all segments);
     mret (segments, split))
  else
    (cp ← liftR (CalcChecksums cp);
     '(parts, split) ← zoom r_fragmentID set_fragmentID (FragmentForMTU cp mtu);
     _ ← when (split) (incr fragRefragmented);
     mret (parts, split)).

(** [maxMSS] and the clamp that ignores its result. *)
Definition clamp (mtu version : Z) (cp : list Z) : Res (list Z) :=
  let maxMSS := if version =? 6 then mtu - 60 else mtu - 40 in
  if (500 <? maxMSS) && (maxMSS <? 65536) then
    match ClampTCPMSS cp (u16 maxMSS) with
    | Ok (_, cp) => Ok cp
    | Err _ => Ok cp
    | Panic => Panic
    | OutOfFuel => OutOfFuel
    end
  else Ok cp.

Definition resetBrowserTCP (raw : list Z) (addr : Address) (p : Packet) : SR Runner bool :=
  e ← attempt
    (rst ← liftR (BuildTCPResetReply raw);
     rst ← liftR (CalcChecksums rst);
     let m := NetworkMeta_of addr in
     Send rst (NewInboundAddress (mkNetMeta (nmIfIdx m) (nmSubIfIdx m)) (pVersion p =? 6)));
  match e with
  | inl _ => mret true
  | inr _ => _ ← incr dropped; mret false
  end.

(** ** Classification *)
Record route := mkRoute { rt_proc : Process; rt_ok : bool; rt_d : Decision; rt_first : bool; rt_proxyKnown : bool }.

(** What a turn of the capture loop is given: the time, the index at each wake-up of
    [WaitLookup], the answer of the system table. *)
Record capture_env := mkEnv { ce_now : Z; ce_wakeups : list Index; ce_table : TableReply }.

Definition waitLookup (key : Key) (wakeups : list Index) : SR Runner (option Process) := fun r =>
  (set_flows r (default (r_flows r) (list.last wakeups)), Ok (eP <$> WaitLookup enum key (r_flows r) wakeups)).

(** The owner of a new flow. *)
Definition attribute (env : capture_env) (key : Key) (p : Packet) : SR Runner (option Process) :=
  r ← sget;
  let found := eP <$> FlowIndex.Lookup enum key (r_flows r) in
  could ← liftR (CouldTunnelWithoutProcess (ce_now env) (pDst p) (policy_of r));
  match found with
  | Some proc => mret (Some proc)
  | None =>
      if (could : bool) then mret None else
      o ← waitLookup key (ce_wakeups env);
      match o with
      | Some proc => mret (Some proc)
      | None => liftR (ResolveSocketOwner processInfo (ce_table env) key)
      end
  end.

Definition decide_first (env : capture_env) (key : Key) (p : Packet) (o : option Process) : SR Runner route :=
  let ok := match o with Some _ => true | None => false end in
  let proc := default Process0 o in
  _ ← incr (if ok then procResolved else procMissed);
  r ← sget;
  internal ← liftR (and_then ok (IsInternal proc (policy_of r)));
  d ← liftR (if (internal : bool) then Ok Decision0 else Decide (ce_now env) proc (pDst p) (policy_of r));
  _ ← modify (fun r => set_routes r (FlowRoute.Set_ (ce_now env) key (dTunnel d) proc ok (r_routes r)));
  _ ← when (negb ok && negb (dTunnel d)) (incr stickyUnknownDirect);
  mret (mkRoute proc ok d true false).

Definition classify (env : capture_env) (key : Key) (p : Packet) : SR Runner route :=
  let now := ce_now env in
  '(proxyTunnel, proxyKnown) ← zoom r_proxyRoutes set_proxyRoutes (fun t => let (t, a) := ProxyRoute.Lookup now key t in (t, Ok a));
  e ← zoom r_routes set_routes (fun t => let (t, a) := FlowRoute.Lookup now key t in (t, Ok a));
  if (proxyKnown : bool) then
    _ ← modify (fun r => set_routes r (FlowRoute.Set_ now key proxyTunnel Process0 true (r_routes r)));
    mret (mkRoute Process0 false (mkDecision proxyTunnel (lit "hostname-proxy") []) false true)
  else match e with
  | Some e => mret (mkRoute (FlowRoute.frProc e) (FlowRoute.frKnown e) (mkDecision (FlowRoute.frTunnel e) (lit "sticky-flow") []) false false)
  | None => o ← attribute env key p; decide_first env key p o
  end.

(** ** Discovery: [true] when the packet was consumed *)
Definition learn (now : Z) (key : Key) (raw : list Z) (addr : Address) (p : Packet) (rt : route) : SR Runner bool :=
  r ← sget;
  '(disc, (name, res)) ← liftR (FeedTLS now key raw (r_discovery r));
  _ ← modify (fun r => set_discovery r disc);
  match res, name with
  | TLSClientHello, _ :: _ =>
      r ← sget;
      '(domains, groups) ← liftR (AddForName now name (pDst p) (30 * Minute) (r_domains r));
      _ ← modify (fun r => set_domains r domains);
      r ← sget;
      hit ← liftR (and_then (0 <? blen groups) (d ← DecideHost (rt_proc rt) name (policy_of r); Ok (dTunnel d)));
      if (hit : bool) then
        _ ← incr sniLearned;
        done ← resetBrowserTCP raw addr p;
        _ ← when done (incr reconnects);
        _ ← modify (fun r => set_routes r (FlowRoute.Delete key (r_routes r)));
        mret true
      else mret false
  | _, _ => mret false
  end.

Definition discover (now : Z) (key : Key) (raw : list Z) (addr : Address) (p : Packet) (rt : route) : SR Runner bool :=
  r ← sget;
  let pol := policy_of r in
  let proc := rt_proc rt in
  internal ← liftR (and_then (negb (rt_proxyKnown rt) && rt_ok rt) (IsInternal proc pol));
  let external := negb (rt_proxyKnown rt) && rt_ok rt && negb internal in
  needsHostname ← liftR (and_then external (NeedsTLSDiscovery proc pol));
  let tlsDiscover := needsHostname && (pProtocol p =? ProtoTCP) && (pDstPort p =? 443) in
  aggressive ← liftR (and_then (r_aggressive r) (ShouldSuppressQUIC proc pol));
  let quicDiscover := aggressive && external && (pProtocol p =? ProtoUDP) && (pDstPort p =? 443) in
  _ ← when (tlsDiscover || quicDiscover) (incr discoveryPackets);
  known ← liftR (and_then tlsDiscover (IsDomainIPForProcess now proc (pDst p) pol));
  _ ← when known (incr domainMatches);
  suppressed ← (if quicDiscover && negb (dTunnel (rt_d rt)) then
      zoom r_discovery set_discovery (fun d => let (d, b) := SuppressUnknownQUIC now (pDst p) d in (d, Ok b)) else mret false);
  if (suppressed : bool) then _ ← incr quicSuppressed; _ ← incr dropped; mret true else
  if tlsDiscover && negb (dTunnel (rt_d rt)) then learn now key raw addr p rt else mret false.

(** ** The capture loop *)
Definition enqueue (now : Z) (udp : bool) (seg : list Z) : SR Runner unit := fun r =>
  let q := if udp then r_urgent r else r_bulk r in
  let cap := if udp then urgent_cap else bulk_cap in
  if blen q <? cap then
    let q := q ++ [mkQueued seg now] in
    let r := if udp then set_urgent r q else set_bulk r q in
    (_ ← incr tunneled; updateMax sendQueueHigh (blen q)) r
  else incr dropped r.
Fixpoint enqueue_all (now : Z) (udp : bool) (segs : list (list Z)) : SR Runner unit :=
  match segs with
  | [] => mret tt
  | seg :: rest => _ ← enqueue now udp seg; enqueue_all now udp rest
  end.

(** [r.nat] on the copy [cp]: the rewritten bytes and the error, if any. *)
Definition natOutbound (now : Z) (cp : list Z) (meta : Meta) : SR Runner (list Z * (Meta + string)) := fun r =>
  let '(m, raw, res) := PrepareOutbound now (r_nat r) cp meta in
  match res with
  | Ok a => (set_nat r m, Ok (raw, inl a))
  | Err e => (set_nat r m, Ok (raw, inr e))
  | Panic => (set_nat r m, Panic)
  | OutOfFuel => (set_nat r m, OutOfFuel)
  end.
Definition natInbound (now : Z) (cp : list Z) : SR Runner (list Z * (Meta * bool + string)) := fun r =>
  let '(m, raw, res) := RestoreInbound now (r_nat r) cp in
  match res with
  | Ok a => (set_nat r m, Ok (raw, inl a))
  | Err e => (set_nat r m, Ok (raw, inr e))
  | Panic => (set_nat r m, Panic)
  | OutOfFuel => (set_nat r m, OutOfFuel)
  end.

Definition direct (raw : list Z) (addr : Address) (frag : Result) : SR Runner unit :=
  e ← attempt (reinjectDirect raw addr frag);
  match e with
  | inl _ => mret tt
  | inr _ => _ ← incr dropped; when (rFragmented frag) (incr fragErrors)
  end.

(** A selected packet: NAT, clamp, split, queue. *)
Definition tunnel (now : Z) (raw : list Z) (addr : Address) (p : Packet) : SR Runner unit :=
  let m := NetworkMeta_of addr in
  '(cp, e) ← natOutbound now raw (mkMeta (nmIfIdx m) (nmSubIfIdx m));
  match e with
  | inr _ => incr dropped
  | inl _ =>
      r ← sget;
      cp ← liftR (clamp (cMTU (r_cfg r)) (pVersion p) cp);
      e ← attempt (prepareTunnelPackets cp p);
      match e with
      | inr _ => _ ← incr oversizeDropped; incr dropped
      | inl (segments, split) =>
          _ ← when split (incr oversizeSegmented);
          enqueue_all now (pProtocol p =? ProtoUDP) segments
      end
  end.

Definition key_of (p : Packet) : Key := FlowIndex.mkKey (pProtocol p) (Unmap (pSrc p)) (Unmap (pDst p)) (pSrcPort p) (pDstPort p).

(** What happens to a classified packet. *)
Definition forward (now : Z) (raw : list Z) (addr : Address) (frag : Result) (p : Packet) (rt : route) : SR Runner unit :=
  let key := key_of p in
  consumed ← discover now key raw addr p rt;
  if (consumed : bool) then mret tt else
  if negb (dTunnel (rt_d rt)) then direct raw addr frag else
  syn ← liftR (and_then (rt_first rt && (pProtocol p =? ProtoTCP)) (IsTCPSYN raw));
  if rt_first rt && (pProtocol p =? ProtoTCP) && negb syn then
    done ← resetBrowserTCP raw addr p;
    _ ← when done (incr preexistingTCPReset);
    modify (fun r => set_routes r (FlowRoute.Delete key (r_routes r)))
  else tunnel now raw addr p.

(** A packet that does not parse. *)
Definition unparsed (raw : list Z) (addr : Address) (frag : Result) (err : string) : SR Runner unit :=
  if bool_decide (err = ErrFragment) || rFragmented frag then _ ← incr fragErrors; incr dropped else
  e ← attempt (Send raw addr);
  match e with inl _ => incr bypassed | inr _ => incr dropped end.

(** One received packet. *)
Definition capture_step (env : capture_env) (raw : list Z) (addr : Address) : SR Runner unit :=
  let now := ce_now env in
  _ ← incr captured;
  f ← attempt (reassembleOutbound now raw);
  match f with
  | inr _ => _ ← incr fragErrors; incr dropped
  | inl frag =>
      if negb (rReady frag) then mret tt else
      _ ← when (rFragmented frag) (incr fragReassembled);
      let raw := if rFragmented frag then rPacket frag else raw in
      p ← attempt (liftR (Parse raw));
      match p with
      | inr err => unparsed raw addr frag err
      | inl p => rt ← classify env (key_of p) p; forward now raw addr frag p rt
      end
  end.

(** ** The receive loop: one decrypted packet *)
Definition inject (raw : list Z) (frag : Result) (p : Packet) (meta : Meta) : SR Runner unit :=
  let version6 := pVersion p =? 6 in
  r ← sget;
  cp ← liftR (clamp (cMTU (r_cfg r)) (pVersion p) raw);
  e ← attempt (liftR (CalcChecksums cp));
  match e with
  | inr _ => _ ← incr inboundErrors; incr dropped
  | inl cp =>
      parts ← (if rFragmented frag && (0 <? rFragmentMTU frag) && (rFragmentMTU frag <? blen cp)
               then (e ← attempt (zoom r_fragmentID set_fragmentID (FragmentForMTU cp (rFragmentMTU frag)));
                     match e with
                     | inr _ => _ ← incr fragErrors; _ ← incr inboundErrors; _ ← incr dropped; mret None
                     | inl (parts, split) => _ ← when split (incr fragRefragmented); mret (Some parts)
                     end)
               else mret (Some [cp]));
      match parts with
      | None => mret tt
      | Some parts =>
          e ← attempt (send_parts parts (NewInboundAddress (mkNetMeta (IfIdx meta) (SubIfIdx meta)) version6) inboundInjected);
          match e with inl _ => mret tt | inr _ => _ ← incr inboundErrors; incr dropped end
      end
  end.

Definition receive_step (now : Z) (raw : list Z) : SR Runner unit :=
  if blen raw =? 0 then mret tt else
  f ← attempt (reassembleInbound now raw);
  match f with
  | inr _ => _ ← incr fragErrors; _ ← incr inboundErrors; incr dropped
  | inl frag =>
      if negb (rReady frag) then mret tt else
      _ ← when (rFragmented frag) (incr fragReassembled);
      let cp := rPacket frag in
      pre ← attempt (liftR (Parse cp));
      _ ← when (match pre with inl pre => negb (pProtocol pre =? ProtoTCP) && negb (pProtocol pre =? ProtoUDP) | inr _ => false end)
            (incr inboundOther);
      '(cp, e) ← natInbound now cp;
      match e with
      | inr _ => _ ← incr inboundErrors; incr dropped
      | inl (meta, ok) =>
          if negb ok then _ ← incr reverseNATMiss; incr dropped else
          p ← attempt (liftR (Parse cp));
          match p with
          | inr err => _ ← incr inboundErrors; _ ← incr dropped;
                       when (bool_decide (err = ErrFragment) || rFragmented frag) (incr fragErrors)
          | inl p => inject cp frag p meta
          end
      end
  end.

(** ** Ownership events *)
Definition flow_event (now : Z) (ev : Event) : SR Runner unit :=
  let k := evKey ev in
  if evEvent ev =? EventFlowEstablished then
    r ← sget; i ← liftR (FlowIndex.Add now k (evProcess ev) (r_flows r)); modify (fun r => set_flows r i)
  else if evEvent ev =? EventFlowDeleted then
    modify (fun r =>
      let r := set_flows r (FlowIndex.Delete k (r_flows r)) in
      let r := set_routes r (FlowRoute.Delete k (r_routes r)) in
      let r := set_discovery r (DeleteFlow k (r_discovery r)) in
      set_proxyRoutes r (ProxyRoute.DeleteFlow k (r_proxyRoutes r)))
  else mret tt.
Definition socket_event (now : Z) (ev : Event) : SR Runner unit :=
  let k := evKey ev in
  let e := evEvent ev in
  if (e =? EventSocketBind) || (e =? EventSocketConnect) || (e =? EventSocketListen) || (e =? EventSocketAccept) then
    r ← sget;
    i ← liftR (AddSocket now (evEndpointID ev) (kProto k) (kLocal k) (kLocalPort k) (evProcess ev) (r_flows r));
    modify (fun r => set_flows r i)
  else if e =? EventSocketClose then modify (fun r => set_flows r (DeleteSocket (evEndpointID ev) (r_flows r)))
  else mret tt.
Definition snapshot_step (now : Z) (t4 t6 u4 u6 : TableReply) : SR Runner unit :=
  r ← sget; '(i, _) ← liftR (SnapshotExisting processInfo now t4 t6 u4 u6 (r_flows r)); modify (fun r => set_flows r i).

(** ** DNS answers *)
Definition name_matches (t : Tracker) (name : list Z) : bool := match NameMatches name t with Ok b => b | _ => false end.
Fixpoint add_answers (now : Z) (ips : list Addr) (groups : list Z) (ttl : Z) (t : Tracker) : Tracker :=
  match ips with
  | [] => t
  | ip :: rest => add_answers now rest groups ttl (AddGroups now ip groups ttl t)
  end.
Definition dns_step (now : Z) (raw : list Z) : SR Runner unit :=
  e ← attempt (liftR (Parse raw));
  match e with
  | inr _ => mret tt
  | inl p =>
      if negb (pProtocol p =? ProtoUDP) || (blen raw <? pL4 p + 8) then mret tt else
      msg ← liftR (slice raw (pL4 p + 8) (pTotal p));
      r ← sget;
      '(res, err) ← liftR (ParseDNSResponse (name_matches (r_domains r)) msg);
      match err with
      | Some _ => mret tt
      | None =>
          groups ← liftR (GroupsForNames genum (Names res) (r_domains r));
          modify (fun r => set_domains r (add_answers now (IPs res) groups (TTL res) (r_domains r)))
      end
  end.
Definition bootstrap_step (clock : nat → Z) (resolver : list Z → option (list Addr)) : SR Runner unit :=
  modify (fun r => set_domains r (ResolveBootstrapWithResolver clock resolver (5 * Minute) (r_domains r))).

(** ** Maintenance *)
Definition maintenance_step (now : Z) : SR Runner unit := modify (fun r =>
  let r := set_flows r (FlowIndex.Sweep now (30 * Minute) (r_flows r)) in
  let r := set_routes r (FlowRoute.Sweep now (30 * Minute) (r_routes r)) in
  let r := set_nat r (NatMapper.Sweep now (15 * Minute) (r_nat r)) in
  let r := set_domains r (Tracker.Sweep now (r_domains r)) in
  let r := set_discovery r (BrowserDisc.Sweep now (r_discovery r)) in
  let r := set_proxyRoutes r (ProxyRoute.Sweep now (30 * Minute) (r_proxyRoutes r)) in
  let r := set_out4 r (fst (Reassembly4.Sweep now (r_out4 r))) in
  let r := set_in4 r (fst (Reassembly4.Sweep now (r_in4 r))) in
  let r := set_out6 r (fst (Sweep6 now (r_out6 r))) in
  let r := set_in6 r (fst (Sweep6 now (r_in6 r))) in
  takeInTimeouts (takeOutTimeouts r)).

Definition SetAggressiveDiscovery (v : bool) : SR Runner unit := modify (fun r => set_aggressive r v).

(** ** The send loop

    Its program counter: in an urgent burst with [drained] packets sent, at the
    forced bulk packet, or waiting for either class ([pick] is the choice of [select]
    when both are ready).  [send_turn] takes one packet or moves on; [None] means the
    loop is blocked. *)
Inductive send_pc := Burst (drained : Z) | BulkTurn | WaitAny.
Definition urgentBurst : Z := 8.
Definition send_turn (pick : bool) (pc : send_pc) (urgent bulk : list queuedPacket)
    : option (send_pc * list queuedPacket * list queuedPacket * option queuedPacket) :=
  match pc with
  | Burst drained =>
      if drained <? urgentBurst then
        match urgent with
        | p :: urgent => Some (Burst (drained + 1), urgent, bulk, Some p)
        | [] => Some (Burst urgentBurst, urgent, bulk, None)
        end
      else Some (BulkTurn, urgent, bulk, None)
  | BulkTurn =>
      match bulk with
      | p :: bulk => Some (Burst 0, urgent, bulk, Some p)
      | [] => Some (WaitAny, urgent, bulk, None)
      end
  | WaitAny =>
      match urgent, bulk with
      | [], [] => None
      | p :: urgent, [] => Some (Burst 0, urgent, bulk, Some p)
      | [], p :: bulk => Some (Burst 0, urgent, bulk, Some p)
      | p :: urgent', q :: bulk' =>
          if pick then Some (Burst 0, urgent', bulk, Some p) else Some (Burst 0, urgent, bulk', Some q)
      end
  end.
(** [sendOne] with the outcome of [wg.SendPacket]. *)
Definition sendOne (now : Z) (p : queuedPacket) (outcome : Res unit) : SR Runner unit :=
  let delay := now - q_queued p in
  _ ← when (0 <? delay) (updateMax sendQueueDelayMaxMS (u64 (delay `div` Millisecond)));
  e ← attempt (liftR outcome);
  match e with
  | inr _ => _ ← incr wgWriteErrors; incr dropped
  | inl _ => incr wgWriteOK
  end.
(** One iteration of the loop, and the packet it took. *)
Definition send_step (pick : bool) (now : Z) (outcome : queuedPacket → Res unit) (pc : send_pc) : SR Runner (send_pc * option queuedPacket) := fun r =>
  match send_turn pick pc (r_urgent r) (r_bulk r) with
  | None => (r, Ok (pc, None))
  | Some (pc, urgent, bulk, o) =>
      let r := set_bulk (set_urgent r urgent) bulk in
      match o with
      | None => (r, Ok (pc, None))
      | Some p => (_ ← sendOne now p (outcome p); mret (pc, Some p)) r
      end
  end.

(** ** Start

    The keys are decoded, the client and the handles opened ([wgNew], [openNet],
    [openFlow], [openDNS] are what those calls answer), the tables created and the
    ownership snapshot taken; [fid] is the package's fragment counter. *)
Definition Start `{Decoders} (config : option Config) (internal : list (list Z)) (fid : Z)
    (wgNew : list Z → list Z → list Z → Res unit) (openNet openFlow openDNS : Res unit)
    (now : Z) (t4 t6 u4 u6 : TableReply) : Res Runner :=
  match config with
  | None => Err "nil config"
  | Some cfg =>
      priv ← DecodeKey (cPrivateKey cfg);
      pub ← DecodeKey (PublicKey (cPeer cfg));
      psk ← (if bool_decide (PresharedKey (cPeer cfg) = []) then Ok (zeros 32) else DecodeKey (PresharedKey (cPeer cfg)));
      _ ← wgNew priv pub psk;
      _ ← openNet;
      _ ← openFlow;
      _ ← openDNS;
      let tr := Tracker.New (cGroups cfg) in
      let (v4, _) := TunnelIPv4 cfg in
      let (v6, _) := TunnelIPv6 cfg in
      policy ← NewWithInternal cfg (Some tr) internal;
      '(flows, _) ← SnapshotExisting processInfo now t4 t6 u4 u6 FlowIndex.New;
      Ok (mkRunner cfg flows tr BrowserDisc.New policy ProxyRoute.newProxyRouteTable FlowRoute.newFlowRouteTable (NatMapper.New v4 v6)
            NewIPv4 NewIPv4 NewIPv6 NewIPv6 fid false [] [] (fun _ => 0) [])
  end.
End Engine.
