(* ===== verification/RunnerSafe.v ===== *)
(** * The engine is safe: [internal/engine/engine_windows.go]

    A Hoare-style judgement [safe] for the engine's operations, the invariant
    [engine_ok] of the runner, and that every turn of every loop returns and keeps
    it.  The judgement is over [inv K], the invariant with any property [K] of the
    driver calls and the two queues, so that one set of lemmas gives both the
    invariant and what a turn can send or queue. *)

From S2P Require Import Prelude Netip GoStrings Packet Segment Fragment Pieces Reassembly4 Reassembly6 NatMapper FlowIndex Snapshot Routes Config Tracker Policy Dns TlsHello BrowserDisc Windivert Runner.
Local Open Scope Z_scope.

(** ** Packets on their way *)

(** What the splitting code relies on: an IPv4 packet fits its length field. *)
Definition version_of (b : list Z) : Z := Z.shiftr (gb b 0) 4.
Definition pkt_ok (b : list Z) : Prop := bytes_ok b ∧ (version_of b = 4 → blen b <= 65535).
Definition same_shape (b b' : list Z) : Prop := blen b' = blen b ∧ version_of b' = version_of b.

Lemma pkt_ok_shape b b' : pkt_ok b → bytes_ok b' → same_shape b b' → pkt_ok b'.
Proof. intros [_ H] Hb [E1 E2]. split; [done|]. rewrite E1, E2. done. Qed.
Lemma Parse_version b p : bytes_ok b → Parse b = Ok p → version_of b = pVersion p.
Proof.
  intros Hb HP. pose proof (Parse_Ok b p Hb HP) as (Hv & _). unfold Parse in HP. destruct (Z.ltb_spec (blen b) 1); [done|].
  rewrite idx_ok, bind_Ok in HP by lia. cbv zeta in HP. fold (version_of b) in HP. unfold parse4, parse6 in HP.
  assert (Hp : ∀ q, ports b q = Ok p → pVersion p = pVersion q).
  { intros q. unfold ports. destruct (_ && _); [|by intros [= <-]]. 
    intros (sp & _ & (dp & _ & [= <-])%bind_Ok_inv)%bind_Ok_inv. done. }
  destruct (Z.eqb_spec (version_of b) 4) as [E|]; [|destruct (Z.eqb_spec (version_of b) 6) as [E|]; [|done]]; rewrite E.
  - symmetry. 
    repeat match type of HP with
    | (if ?c then _ else _) = _ => destruct c; [done|]
    | (let _ := _ in _) = _ => cbv zeta in HP
    | mbind _ _ = _ => apply bind_Ok_inv in HP as (? & ? & HP)
    end. apply Hp in HP. done.
  - symmetry.
    repeat match type of HP with
    | (if ?c then _ else _) = _ => destruct c; [done|]
    | (let _ := _ in _) = _ => cbv zeta in HP
    | mbind _ _ = _ => apply bind_Ok_inv in HP as (? & ? & HP)
    | (let '(_, _) := ?x in _) = _ => destruct x
    end. apply Hp in HP. done.
Qed.

Lemma same_shape_refl b : same_shape b b.
Proof. done. Qed.
Lemma same_shape_trans a b c : same_shape a b → same_shape b c → same_shape a c.
Proof. intros [E1 E2] [E3 E4]. split; congruence. Qed.
Lemma same_shape_bcopy b off src : 0 < off → off + blen src <= blen b → same_shape b (bcopy b off src).
Proof.
  intros Ho Hl. pose proof (blen_nonneg src). split; [apply blen_bcopy; lia|]. unfold version_of. f_equal. apply gb_bcopy_out; lia.
Qed.

(** The fields a rewrite leaves alone. *)
Definition same_kind (p p' : Packet) : Prop :=
  pVersion p' = pVersion p ∧ pProtocol p' = pProtocol p ∧ pL4 p' = pL4 p ∧ pTotal p' = pTotal p.
Definition rewritten (b : list Z) (p : Packet) (b' : list Z) : Prop :=
  bytes_ok b' ∧ same_shape b b' ∧ ∃ p', Parse b' = Ok p' ∧ same_kind p p'.

Lemma rewritten_trans b p b1 p1 b2 : Parse b1 = Ok p1 → rewritten b p b1 → rewritten b1 p1 b2 → rewritten b p b2.
Proof.
  intros E (B1 & S1 & q1 & E1 & K1) (B2 & S2 & q2 & E2 & K2). assert (q1 = p1) as -> by congruence.
  split; [done|]. split; [by eapply same_shape_trans|]. exists q2. split; [done|]. unfold same_kind in *. intuition congruence.
Qed.

Lemma enc16_u16 v : enc16 (u16 v) = enc16 v.
Proof.
  unfold enc16, u16. f_equal; [|f_equal].
  - change 65536 with (256 * 256). rewrite Z.rem_mul_r by lia. rewrite Z.mul_comm, Z.div_add by lia.
    rewrite (Z.div_small (v `mod` 256)) by (apply Z.mod_pos_bound; lia). rewrite Z.add_0_l. by rewrite Z.mod_mod by lia.
  - change 65536 with (256 * 256). rewrite Z.rem_mul_r, Z.mul_comm, Z.mod_add by lia. by rewrite Z.mod_mod by lia.
Qed.

Lemma RewriteSrc_rewritten b a p b' : bytes_ok b → Addr_ok a → Parse b = Ok p → RewriteSrc b a = Ok b' → rewritten b p b'.
Proof.
  intros Hb Ha HP E. pose proof (RewriteSrc_spec b a p Hb Ha HP) as Hs. pose proof (Parse_Ok b p Hb HP) as (Hv & Ht & _).
  destruct (family_ok (pVersion p) a) eqn:Hf; [|congruence]. destruct Hs as [E' HP']. assert (b' = bcopy b (src_off (pVersion p)) (addr_bytes a)) as -> by congruence.
  unfold family_ok in Hf. unfold src_off in *.
  destruct Hv as [[Ev Hl]|[Ev Hl]]; rewrite Ev in *; cbn [Z.eqb Pos.eqb] in *; destruct a as [|v|v]; try discriminate Hf; destruct Ha as [Hlen Hbv];
    (split; [by apply bytes_ok_bcopy|]; split; [apply same_shape_bcopy; cbn [addr_bytes]; lia|]; by eexists).
Qed.
Lemma RewriteDst_rewritten b a p b' : bytes_ok b → Addr_ok a → Parse b = Ok p → RewriteDst b a = Ok b' → rewritten b p b'.
Proof.
  intros Hb Ha HP E. pose proof (RewriteDst_spec b a p Hb Ha HP) as Hs. pose proof (Parse_Ok b p Hb HP) as (Hv & Ht & _).
  destruct (family_ok (pVersion p) a) eqn:Hf; [|congruence]. destruct Hs as [E' HP']. assert (b' = bcopy b (dst_off (pVersion p)) (addr_bytes a)) as -> by congruence.
  unfold family_ok in Hf. unfold dst_off in *.
  destruct Hv as [[Ev Hl]|[Ev Hl]]; rewrite Ev in *; cbn [Z.eqb Pos.eqb] in *; destruct a as [|v|v]; try discriminate Hf; destruct Ha as [Hlen Hbv];
    (split; [by apply bytes_ok_bcopy|]; split; [apply same_shape_bcopy; cbn [addr_bytes]; lia|]; by eexists).
Qed.
Lemma RewriteSrcPort_rewritten b port p b' : bytes_ok b → Parse b = Ok p → RewriteSrcPort b port = Ok b' → rewritten b p b'.
Proof.
  intros Hb HP E. assert (E' : RewriteSrcPort b (u16 port) = Ok b') by (revert E; unfold RewriteSrcPort, put16; by rewrite enc16_u16).
  pose proof (RewriteSrcPort_spec b (u16 port) p Hb (u16_range port) HP) as Hs. pose proof (Parse_Ok b p Hb HP) as (Hv & Ht & _).
  destruct (transport p); [|congruence]. destruct (Z.leb_spec (pL4 p + 2) (blen b)); [|congruence]. destruct Hs as [E1 HP'].
  assert (b' = bcopy b (pL4 p) (enc16 (u16 port))) as -> by congruence.
  split; [apply bytes_ok_bcopy; auto with go|]. split; [apply same_shape_bcopy; rewrite ?blen_enc16; lia|].
  eexists. split; [exact HP'|]. by destruct (has_ports p).
Qed.
Lemma RewriteDstPort_rewritten b port p b' : bytes_ok b → Parse b = Ok p → RewriteDstPort b port = Ok b' → rewritten b p b'.
Proof.
  intros Hb HP E. assert (E' : RewriteDstPort b (u16 port) = Ok b') by (revert E; unfold RewriteDstPort, put16; by rewrite enc16_u16).
  pose proof (RewriteDstPort_spec b (u16 port) p Hb (u16_range port) HP) as Hs. pose proof (Parse_Ok b p Hb HP) as (Hv & Ht & _).
  destruct (transport p); [|congruence]. destruct (Z.leb_spec (pL4 p + 4) (blen b)); [|congruence]. destruct Hs as [E1 HP'].
  assert (b' = bcopy b (pL4 p + 2) (enc16 (u16 port))) as -> by congruence.
  split; [apply bytes_ok_bcopy; auto with go|]. split; [apply same_shape_bcopy; rewrite ?blen_enc16; lia|].
  eexists. split; [exact HP'|]. by destruct (has_ports p).
Qed.

Lemma translate_out_rewritten m raw p tun meta mp m' raw' meta' :
  bytes_ok raw → Parse raw = Ok p → Addr_ok tun → translate_out raw p tun meta m mp = (m', raw', Ok meta') → rewritten raw p raw'.
Proof.
  intros Hb HP Ha. unfold translate_out. destruct (RewriteSrc raw tun) as [raw1| | |] eqn:E1; try (by intros [= _ _]).
  pose proof (RewriteSrc_rewritten _ _ _ _ Hb Ha HP E1) as R1. pose proof R1 as (B1 & _ & p1 & P1 & _).
  destruct (negb _); [|by intros [= _ <- _]].
  destruct (RewriteSrcPort raw1 _) as [raw2| | |] eqn:E2; try (by intros [= _ _]). intros [= _ <- _].
  eapply rewritten_trans; [exact P1|exact R1|]. by eapply RewriteSrcPort_rewritten.
Qed.
Lemma PrepareOutbound_rewritten now m raw p meta m' raw' meta' :
  tunnels_ok m → bytes_ok raw → Parse raw = Ok p → PrepareOutbound now m raw meta = (m', raw', Ok meta') → rewritten raw p raw'.
Proof.
  intros Htun Hb HP. unfold PrepareOutbound. rewrite HP. destruct (_ && _); [by intros [= _ _]|]. cbv zeta.
  destruct (IsValid (tunnel_for m (pSrc p))) eqn:Hv; [|by intros [= _ _]]. cbn [negb].
  destruct (tunnel_family m raw p Htun (Parse_Ok raw p Hb HP) Hv) as [_ Ha].
  destruct (m_byOut m !! _) as [l|].
  - destruct (m_heap m !! l); [|by intros [= _ _]]. by apply translate_out_rewritten.
  - destruct (m_byReply m !! _); [|by apply translate_out_rewritten].
    destruct (search_port _ _ _ _) as [nx [tp|]]; [by apply translate_out_rewritten|by intros [= _ _]].
Qed.
Lemma RestoreInbound_rewritten now m raw p m' raw' meta :
  nat_wf m → bytes_ok raw → Parse raw = Ok p → RestoreInbound now m raw = (m', raw', Ok (meta, true)) → rewritten raw p raw'.
Proof.
  intros Hw Hb HP. unfold RestoreInbound. rewrite HP. destruct (_ && _); [by intros [= _ _]|]. cbv zeta.
  destruct (m_byReply m !! _) as [l|]; [|by intros [= _ _]]. destruct (m_heap m !! l) as [mp|] eqn:El; [|by intros [= _ _]].
  destruct (nw_heap m Hw _ _ El) as [_ [Ha _ _]].
  destruct (RewriteDst raw _) as [raw1| | |] eqn:E1; try (by intros [= _ _]).
  pose proof (RewriteDst_rewritten _ _ _ _ Hb Ha HP E1) as R1. pose proof R1 as (B1 & _ & p1 & P1 & _).
  destruct (negb _); [|by intros [= _ <- _]].
  destruct (RewriteDstPort raw1 _) as [raw2| | |] eqn:E2; try (by intros [= _ _]). intros [= _ <- _].
  eapply rewritten_trans; [exact P1|exact R1|]. by eapply RewriteDstPort_rewritten.
Qed.

(** The clamp changes neither shape nor the parsed packet, and never fails. *)
Lemma clamp_spec mtu v b p : bytes_ok b → Parse b = Ok p →
  ∃ b', clamp mtu v b = Ok b' ∧ bytes_ok b' ∧ Parse b' = Parse b ∧ same_shape b b'.
Proof.
  intros Hb HP. unfold clamp. cbv zeta. set (mx := if v =? 6 then _ else _). destruct (_ && _); [|by exists b].
  pose proof (ClampTCPMSS_spec b (u16 mx) p Hb (u16_range mx) HP) as Hc. destruct (ClampTCPMSS b (u16 mx)) as [[ch b']| | |]; try done; [|by exists b].
  destruct Hc as (_ & Hl & Hb' & HP' & _). exists b'. split_and!; try done. split; [done|].
  rewrite (Parse_version b p Hb HP). apply Parse_version; [done|]. by rewrite HP'.
Qed.

Section Checks.
Context {DV : Divert}.
(** Neither do the checksums, on a packet that parses. *)
Lemma CalcChecksums_shape b b' p : bytes_ok b → Parse b = Ok p → CalcChecksums b = Ok b' → bytes_ok b' ∧ same_shape b b'.
Proof.
  intros Hb HP E. split; [by eapply CalcChecksums_bytes|]. split; [by apply CalcChecksums_len|].
  unfold version_of. f_equal. apply (CalcChecksums_fields b b' p 0 E HP ltac:(lia)).
  pose proof (Parse_Ok b p Hb HP) as (Hv & _). unfold checksum_field. lia.
Qed.
Lemma checksum_all_spec segs : returns (checksum_all segs) ∧ ∀ out, checksum_all segs = Ok out → map blen out = map blen segs.
Proof.
  induction segs as [|s segs [IH1 IH2]]; [split; [done|by intros ? [= <-]]|]. cbn [checksum_all].
  pose proof (CalcChecksums_returns s) as Hr. destruct (CalcChecksums s) as [s'| | |] eqn:E; try done. rewrite bind_Ok.
  split; [apply returns_bind; [done|by intros]|].
  intros out (rest & E2 & [= <-])%bind_Ok_inv. cbn [map]. by rewrite (CalcChecksums_len _ _ E), (IH2 _ E2).
Qed.
End Checks.

(** ** Sizes *)
Definition fits_mtu (mtu : Z) (l : list (list Z)) : Prop := Forall (fun b => blen b <= mtu) l.
Lemma segs_ok_fit b p hl mtu off segs : segs_ok b p hl mtu off segs → fits_mtu mtu segs.
Proof. revert off. induction segs as [|s segs IH]; intros off H; [constructor|]. destruct H as [(Hl & _) H]. constructor; [lia|by eapply IH]. Qed.
Lemma frags4_ok_fit b ihl id rsv mtu payload off l : frags4_ok b ihl id rsv mtu payload off l → fits_mtu mtu l.
Proof. revert off. induction l as [|s l IH]; intros off H; [constructor|]. destruct H as (_ & Hl & _ & _ & _ & H). constructor; [done|by eapply IH]. Qed.
Lemma frags6_ok_fit b ins prv nx id mtu payload off l : frags6_ok b ins prv nx id mtu payload off l → fits_mtu mtu l.
Proof. revert off. induction l as [|s l IH]; intros off H; [constructor|]. destruct H as (_ & Hl & _ & _ & _ & H). constructor; [done|by eapply IH]. Qed.

Lemma SplitForMTU_fit b mtu : bytes_ok b →
  match SplitForMTU b mtu with Ok (segs, _) => fits_mtu mtu segs | Err _ => True | _ => False end.
Proof.
  intros Hb. pose proof (SplitForMTU_spec b mtu Hb) as H. destruct (SplitForMTU b mtu) as [[segs []]| | |]; try done.
  - destruct H as (p & hl & _ & _ & _ & H & _). by eapply segs_ok_fit.
  - destruct H as [-> Hl]. by repeat constructor.
Qed.
Lemma total_of4_le b : total4 b <= blen b.
Proof. unfold total4. destruct (_ || _) eqn:E; [lia|]. apply orb_false_iff in E as [_ E]. apply Z.ltb_ge in E. lia. Qed.
Definition id_ok (s : Z) : Prop := 0 <= s < 4294967296.
Lemma FragmentForMTU_fit b mtu s : pkt_ok b → id_ok s →
  match snd (FragmentForMTU b mtu s) with Ok (parts, _) => fits_mtu mtu parts | Err _ => True | _ => False end.
Proof.
  intros [Hb H4] Hs. pose proof (total_of4_le b). pose proof (FragmentForMTU_spec b mtu s Hb Hs) as H1. fold (version_of b) in H1.
  specialize (H1 ltac:(intros E; specialize (H4 E); lia)). destruct (snd (FragmentForMTU b mtu s)) as [[parts []]| | |]; try done.
  - destruct H1 as (_ & [(_ & _ & _ & id & _ & _ & H1)|(_ & _ & ins & prv & nx & id & H1)]); [by eapply frags4_ok_fit|].
    destruct H1 as (_ & _ & _ & _ & _ & _ & _ & H1). by eapply frags6_ok_fit.
  - destruct H1 as (Hm & n & -> & Hn). constructor; [|constructor]. unfold bsub, blen. rewrite length_take, length_drop.
    destruct (Z_le_gt_dec n 0); lia.
Qed.

(** ** Judgements *)
Definition keeps {S A} (I : S → Prop) (m : SR S A) : Prop := ∀ s, I s → I (fst (m s)).
Lemma keeps_bind {S A B} (I : S → Prop) (m : SR S A) (f : A → SR S B) : keeps I m → (∀ a, keeps I (f a)) → keeps I (m ≫= f).
Proof.
  intros Hm Hf s Hs. unfold mbind, SR_bind. specialize (Hm s Hs). destruct (m s) as [s' [a| | |]]; try done. by apply Hf.
Qed.
Lemma keeps_liftR {S A} (I : S → Prop) (r : Res A) : keeps I (liftR r).
Proof. by intros s. Qed.
Lemma keeps_ret {S A} (I : S → Prop) (a : A) : keeps I (mret a).
Proof. by intros s. Qed.
Lemma keeps_fail {S A} (I : S → Prop) e : keeps I (sfail e : SR S A).
Proof. by intros s. Qed.
Lemma next_fragmentID_keeps : keeps id_ok next_fragmentID.
Proof. intros s _. apply u32_range. Qed.
Create HintDb keeps.
#[export] Hint Resolve keeps_liftR keeps_ret keeps_fail next_fragmentID_keeps : keeps.
Ltac keeps_tac :=
  repeat match goal with
  | |- keeps _ (mbind _ _) => apply keeps_bind; [|intros ?]
  | |- keeps _ (if ?b then _ else _) => destruct b
  | |- keeps _ (let '(_, _) := ?x in _) => destruct x
  | |- keeps _ (match ?x with _ => _ end) => destruct x
  | |- keeps _ (let _ := _ in _) => cbv zeta
  | |- _ => solve [auto with keeps]
  end.
Lemma FragmentForMTU_keeps b mtu : keeps id_ok (FragmentForMTU b mtu).
Proof. unfold FragmentForMTU, fragmentIPv4, fragmentIPv6. keeps_tac. Qed.

(** [m] runs without a panic, keeps [I], and returns something in [Q] or an error. *)
Definition safe {S A} (I : S → Prop) (m : SR S A) (Q : A → Prop) : Prop :=
  ∀ s, I s → I (fst (m s)) ∧ match snd (m s) with Ok a => Q a | Err _ => True | _ => False end.

Section Rules.
Context {S : Type} (I : S → Prop).
Lemma safe_bind {A B} (m : SR S A) (f : A → SR S B) Q R : safe I m Q → (∀ a, Q a → safe I (f a) R) → safe I (m ≫= f) R.
Proof.
  intros Hm Hf s Hs. unfold mbind, SR_bind. specialize (Hm s Hs). destruct (m s) as [s' [a| | |]]; cbn [fst snd] in *; try tauto.
  apply Hf; tauto.
Qed.
Lemma safe_conseq {A} (m : SR S A) (Q R : A → Prop) : safe I m Q → (∀ a, Q a → R a) → safe I m R.
Proof. intros Hm HR s Hs. destruct (Hm s Hs) as [H1 H2]. split; [done|]. destruct (snd (m s)); auto. Qed.
Lemma safe_ret {A} (a : A) (Q : A → Prop) : Q a → safe I (mret a) Q.
Proof. by intros H s Hs. Qed.
Lemma safe_fail {A} e (Q : A → Prop) : safe I (sfail e) Q.
Proof. by intros s Hs. Qed.
Lemma safe_get : safe I sget I.
Proof. by intros s Hs. Qed.
Lemma safe_lift {A} (r : Res A) (Q : A → Prop) : match r with Ok a => Q a | Err _ => True | _ => False end → safe I (liftR r) Q.
Proof. by intros H s Hs. Qed.
Lemma safe_lift_returns {A} (r : Res A) : returns r → safe I (liftR r) (fun a => r = Ok a).
Proof. intros H. apply safe_lift. by destruct r. Qed.
Lemma safe_if {A} (b : bool) (m n : SR S A) Q : (b = true → safe I m Q) → (b = false → safe I n Q) → safe I (if b then m else n) Q.
Proof. destruct b; auto. Qed.
End Rules.

(** ** What the components return *)
Section Components.
Context {U : Unicode} {F : Platform}.

Lemma IsInternal_returns proc e : ∃ b, IsInternal proc e = Ok b.
Proof.
  unfold IsInternal, Match. induction (eInternal e) as [|x l IH]; cbn [match_loop]; [eauto|]. cbv zeta.
  case_bool_decide; [done|]. destruct (contains_byte _ _); [case_bool_decide; eauto|].
  destruct (Base_returns (replace_byte (ToLower (TrimSpace x)) backslash slash)) as [y ->]. rewrite bind_Ok. case_bool_decide; eauto.
Qed.

(** The buffers of the hostname discovery hold bytes. *)
Definition disc_ok (d : Discovery) : Prop := map_Forall (fun _ s => bytes_ok (t_buf s)) (d_tls d).
Lemma append_payload_ok s payload : bytes_ok (t_buf s) → bytes_ok payload →
  ∃ s' out, append_payload s payload = Ok (s', out) ∧ bytes_ok (t_buf s').
Proof.
  intros Hs Hp. unfold append_payload. destruct (_ <? _); [by eexists _, _|]. cbv zeta. cbn [with_seq t_buf].
  assert (Hb : bytes_ok (t_buf s ++ payload)) by by apply bytes_ok_app.
  destruct (ServerName_spec (t_buf s ++ payload) Hb) as ([[name cpl] err] & -> & _). rewrite bind_Ok.
  destruct cpl; [destruct err|]; by eexists _, _.
Qed.
Lemma feed_state_ok s seq payload : bytes_ok (t_buf s) → bytes_ok payload →
  ∃ s' out, feed_state s seq payload = Ok (s', out) ∧ bytes_ok (t_buf s').
Proof.
  intros Hs Hp. unfold feed_state. destruct (t_done s); [by eexists _, _|]. cbv zeta.
  set (s1 := if negb (t_setSeq s) then _ else s). assert (H1 : bytes_ok (t_buf s1)) by (unfold s1; by destruct (negb _)).
  destruct (Z.ltb_spec seq (t_nextSeq s1)).
  - destruct (Z.leb_spec (blen payload) (t_nextSeq s1 - seq)); [by eexists _, _|].
    rewrite slice_ok, bind_Ok by lia. apply append_payload_ok; [done|auto with go].
  - apply append_payload_ok; [|done]. destruct (negb (seq =? _)); [constructor|done].
Qed.
Lemma ParseTCPInfo_returns b : bytes_ok b → returns (ParseTCPInfo b).
Proof.
  intros Hb. unfold ParseTCPInfo. pose proof (Parse_spec b Hb) as HS. destruct (Parse b) as [p| | |]; try done. rewrite bind_Ok.
  destruct HS as (Hv & Ht & _). destruct (_ || _) eqn:E; [done|]. apply orb_false_iff in E as [_ E]. apply Z.ltb_ge in E.
  pose proof (shiftr_4_range (gb b (pL4 p + 12)) (gb_range b _ Hb)).
  go_ops. cbv zeta. destruct (_ || _) eqn:E2; [done|]. apply orb_false_iff in E2 as [E2 E3].
  apply Z.ltb_ge in E2, E3. go_ops. done.
Qed.
Lemma FeedTLS_ok now k raw d : bytes_ok raw → disc_ok d → ∃ d' out, FeedTLS now k raw d = Ok (d', out) ∧ disc_ok d'.
Proof.
  intros Hb Hd. unfold FeedTLS. pose proof (ParseTCPInfo_returns raw Hb) as Hr. destruct (ParseTCPInfo raw) as [[p ti]| | |] eqn:EP; try done; [|by eexists _, _].
  destruct (_ =? 0); [by eexists _, _|]. cbv zeta. destruct (ParseTCPInfo_inv raw p ti Hb EP) as (_ & _ & _ & _ & _ & Hti).
  set (s := match d_tls d !! k with None => _ | Some s => _ end).
  assert (Hs : bytes_ok (t_buf s)).
  { unfold s. destruct (d_tls d !! k) as [s0|] eqn:Ek; [destruct (_ <? _); [constructor|exact (Hd _ _ Ek)]|constructor]. }
  assert (Hp : bytes_ok (tiPayload ti)) by (rewrite Hti; cbn; auto with go).
  destruct (feed_state_ok s (tiSeq ti) (tiPayload ti) Hs Hp) as (s' & out & -> & Hs'). rewrite bind_Ok. eexists _, _. split; [done|].
  unfold disc_ok. cbn. by apply map_Forall_insert_2.
Qed.
Lemma IsTCPSYN_returns b : bytes_ok b → ∃ x, IsTCPSYN b = Ok x.
Proof.
  intros Hb. unfold IsTCPSYN. pose proof (Parse_spec b Hb) as HS. destruct (Parse b) as [p| | |]; try done; [|eauto].
  destruct HS as (Hv & Ht & _). destruct (_ && _) eqn:E; [|eauto]. apply andb_true_iff in E as [_ E]. apply Z.leb_le in E.
  rewrite idx_ok, bind_Ok by lia. eauto.
Qed.
Lemma BuildTCPResetReply_returns b : bytes_ok b → returns (BuildTCPResetReply b).
Proof.
  intros Hb. pose proof (ParseTCPInfo_returns b Hb) as Hr. destruct (ParseTCPInfo b) as [[p ti]|e| |] eqn:EP; try done.
  - destruct (reset_fields ti) as [[seq ack] flags] eqn:Ef. by rewrite (BuildTCPResetReply_bytes b p ti seq ack flags Hb EP Ef).
  - unfold BuildTCPResetReply. by rewrite EP.
Qed.
Lemma SuppressUnknownQUIC_ok now ip d : disc_ok d → disc_ok (fst (SuppressUnknownQUIC now ip d)).
Proof. intros Hd. unfold SuppressUnknownQUIC. cbv zeta. destruct (d_quic d !! _); [destruct (_ <? _)|]; done. Qed.

(** The tables of a policy do not depend on the tracker it points to. *)
Lemma compiled_domains e t : compiled e → compiled (mkEngine (eCfg e) t (eInternal e) (eGlobal e) (eByName e) (eByPath e)).
Proof. intros [H1 H2 H3]. by split. Qed.
End Components.

(** ** Reassembly hands out proper packets *)
Lemma pkt_ok_prefix b n : pkt_ok b → pkt_ok (bsub b 0 n).
Proof.
  intros [Hb H4]. split; [auto with go|]. intros Hv. pose proof (blen_nonneg b).
  assert (Hl : blen (bsub b 0 n) <= blen b) by (unfold bsub, blen; rewrite length_take, length_drop; lia).
  destruct (decide (0 < n)).
  - assert (version_of b = 4); [|specialize (H4 H0); lia]. rewrite <- Hv. unfold version_of. by rewrite gb_bsub by lia.
  - exfalso. revert Hv. unfold version_of. rewrite gb_oob; [done|]. unfold bsub, blen. rewrite length_take. lia.
Qed.
(** A result: either a fragment's (reassembled or waiting), or the packet itself. *)
Definition from_packet (pkt : list Z) (res : Result) : Prop := rFragmented res = true ∨ ∃ n, rPacket res = bsub pkt 0 n.
Ltac split_run H :=
  repeat first
  [ progress cbv zeta in H
  | match type of H with
    | mbind _ _ = Ok _ => apply bind_Ok_inv in H as (? & ? & H)
    | context [if ?c then _ else _] => destruct c
    | context [match ?x with _ => _ end] => destruct x eqn:?
    end
  | discriminate H ].
Lemma slice_prefix {A} (b : list A) n w : slice b 0 n = Ok w → w = bsub b 0 n.
Proof. unfold slice. destruct (_ && _); [by intros [= <-]|done]. Qed.
Lemma read_fragment_from pkt res : read_fragment pkt = Ok (inl res) → ∃ n, rPacket res = bsub pkt 0 n.
Proof.
  assert (Hw : ∃ n, rPacket (passthrough pkt) = bsub pkt 0 n) by (exists (blen pkt); by rewrite bsub_full).
  unfold read_fragment. intros H. split_run H; injection H as <-; try done.
  match goal with E : slice _ 0 _ = Ok _ |- _ => apply slice_prefix in E as -> end. by eexists.
Qed.
Lemma read_fragment6_from pkt res : read_fragment6 pkt = Ok (inl res) → ∃ n, rPacket res = bsub pkt 0 n.
Proof.
  assert (Hw : ∃ n, rPacket (passthrough pkt) = bsub pkt 0 n) by (exists (blen pkt); by rewrite bsub_full).
  unfold read_fragment6. intros H. split_run H; injection H as <-; try done.
  match goal with E : slice _ 0 _ = Ok _ |- _ => apply slice_prefix in E as -> end. by eexists.
Qed.
Definition fragmented {T} (x : T * Res Result) : Prop := match snd x with Ok res => rFragmented res = true | _ => True end.
Ltac frag_cases :=
  repeat match goal with
  | |- fragmented (if ?c then _ else _) => destruct c
  | |- fragmented (match ?x with _ => _ end) => destruct x
  | |- fragmented (let _ := _ in _) => cbv zeta
  end; try done.
Lemma finish4_frag r k d : fragmented (finish4 r k d).
Proof. unfold finish4. frag_cases. Qed.
Lemma finish6_frag r k d : fragmented (finish6 r k d).
Proof. unfold finish6. frag_cases. Qed.
Lemma push4_frag r now pkt f : fragmented (push_fragment4 r now pkt f).
Proof.
  assert (Ha : ∀ r d, fragmented (add_piece4 r now pkt f d)) by (intros; unfold add_piece4; frag_cases; apply finish4_frag).
  unfold push_fragment4. frag_cases; apply Ha.
Qed.
Lemma push6_frag r now pkt f : fragmented (push_fragment6 r now pkt f).
Proof.
  assert (Ha : ∀ r d, fragmented (add_piece6 r now f d)) by (intros; unfold add_piece6; frag_cases; apply finish6_frag).
  unfold push_fragment6. frag_cases; apply Ha.
Qed.
Lemma PushInfo_from now pkt r r' res : PushInfo now pkt r = (r', Ok res) → from_packet pkt res.
Proof.
  unfold PushInfo. destruct (read_fragment pkt) as [[res'|f]| | |] eqn:E; try (by intros [= _]).
  - intros [= _ <-]. right. by apply read_fragment_from.
  - intros H. left. pose proof (push4_frag r now pkt f) as Hf. by rewrite H in Hf.
Qed.
Lemma PushInfo6_from now pkt r r' res : PushInfo6 now pkt r = (r', Ok res) → from_packet pkt res.
Proof.
  unfold PushInfo6. destruct (read_fragment6 pkt) as [[res'|f]| | |] eqn:E; try (by intros [= _]).
  - intros [= _ <-]. right. by apply read_fragment6_from.
  - intros H. left. pose proof (push6_frag r now pkt f) as Hf. by rewrite H in Hf.
Qed.

Definition good_result (res : Result) : Prop := rReady res = true → pkt_ok (rPacket res).
Lemma PushInfo_safe now pkt : pkt_ok pkt → safe (table_wf datagram_ok) (PushInfo now pkt) good_result.
Proof.
  intros Hp r Hr. destruct (PushInfo_ok r now pkt Hr (proj1 Hp)) as (H1 & _ & H3). split; [done|].
  destruct (PushInfo now pkt r) as [r' [res| | |]] eqn:E; try done. cbn in *. intros Hrd.
  destruct (PushInfo_from _ _ _ _ _ E) as [Hf|[n ->]]; [|by apply pkt_ok_prefix]. destruct (H3 Hrd Hf) as [Hl Hb]. split; [done|lia].
Qed.
Lemma PushInfo6_safe now pkt : pkt_ok pkt → safe (table_wf datagram6_ok) (PushInfo6 now pkt) good_result.
Proof.
  intros Hp r Hr. destruct (PushInfo6_ok r now pkt Hr (proj1 Hp)) as (H1 & _ & H3). split; [done|].
  destruct (PushInfo6 now pkt r) as [r' [res| | |]] eqn:E; try done. cbn in *. intros Hrd.
  destruct (PushInfo6_from _ _ _ _ _ E) as [Hf|[n ->]]; [|by apply pkt_ok_prefix]. destruct (H3 Hrd Hf) as (Hl & Hb & Hv). split; [done|].
  unfold version_of. lia.
Qed.

(** ** The invariant of the runner *)
Definition queue_ok (cap mtu : Z) (q : list queuedPacket) : Prop := blen q <= cap ∧ Forall (fun x => blen (q_raw x) <= mtu) q.

Section Engine.
Context {U : Unicode} {F : Platform} {DV : Divert}.
Context (enum : gmap Z entry → list (Z * entry)) (genum : gset Z → list Z) (answers : nat → io) (processInfo : Z → Process).

Record engine_ok (r : Runner) : Prop := {
  ok_flows : index_wf (r_flows r);
  ok_groups : tr_groups (r_domains r) = cGroups (r_cfg r);
  ok_discovery : disc_ok (r_discovery r);
  ok_policy : compiled (r_policy r);
  ok_cfg : eCfg (r_policy r) = r_cfg r;
  ok_nat : nat_wf (r_nat r);
  ok_tunnels : tunnels_ok (r_nat r);
  ok_out4 : table_wf datagram_ok (r_out4 r);
  ok_in4 : table_wf datagram_ok (r_in4 r);
  ok_out6 : table_wf datagram6_ok (r_out6 r);
  ok_in6 : table_wf datagram6_ok (r_in6 r);
  ok_id : id_ok (r_fragmentID r);
  ok_urgent : queue_ok urgent_cap (cMTU (r_cfg r)) (r_urgent r);
  ok_bulk : queue_ok bulk_cap (cMTU (r_cfg r)) (r_bulk r)
}.
(** The invariant together with a property of the driver calls and the queues. *)
Abbreviation observed := (list driver_call → list queuedPacket → list queuedPacket → Prop).
Definition inv (cfg : Config) (K : observed) (r : Runner) : Prop := engine_ok r ∧ r_cfg r = cfg ∧ K (r_calls r) (r_urgent r) (r_bulk r).

(** Where the turn may send and what it may queue, as far as [K] is concerned. *)
Definition may_send (K : observed) (pkt : list Z) (addr : Address) : Prop := ∀ c u b a, K c u b → K (c ++ [mkCall pkt addr a]) u b.
Definition may_inject (K : observed) : Prop := ∀ pkt m v6, may_send K pkt (NewInboundAddress m v6).
Definition may_queue (K : observed) (mtu : Z) : Prop := ∀ c u b x, K c u b → blen (q_raw x) <= mtu → K c (u ++ [x]) b ∧ K c u (b ++ [x]).

Section Inv.
Context (cfg : Config) (K : observed).
#[local] Abbreviation inv := (inv cfg).
Ltac keep := intros [[] [Hc HK]]; split; [split|split]; cbn; done.
Lemma inv_stat r f : inv K r → inv K (set_stat r f).
Proof. keep. Qed.
Lemma inv_routes r x : inv K r → inv K (set_routes r x).
Proof. keep. Qed.
Lemma inv_proxy r x : inv K r → inv K (set_proxyRoutes r x).
Proof. keep. Qed.
Lemma inv_aggressive r x : inv K r → inv K (set_aggressive r x).
Proof. keep. Qed.
Lemma inv_flows r x : inv K r → index_wf x → inv K (set_flows r x).
Proof. intros H Hx. revert H. keep. Qed.
Lemma inv_domains r x : inv K r → tr_groups x = cGroups cfg → inv K (set_domains r x).
Proof. intros H Hx. revert H. intros [[] [Hc HK]]; split; [split|split]; cbn; try done. congruence. Qed.
Lemma inv_discovery r x : inv K r → disc_ok x → inv K (set_discovery r x).
Proof. intros H Hx. revert H. keep. Qed.
Lemma inv_nat r x : inv K r → nat_wf x → tunnels_ok x → inv K (set_nat r x).
Proof. intros H Hx Hy. revert H. keep. Qed.
Lemma inv_out4 r x : inv K r → table_wf datagram_ok x → inv K (set_out4 r x).
Proof. intros H Hx. revert H. keep. Qed.
Lemma inv_in4 r x : inv K r → table_wf datagram_ok x → inv K (set_in4 r x).
Proof. intros H Hx. revert H. keep. Qed.
Lemma inv_out6 r x : inv K r → table_wf datagram6_ok x → inv K (set_out6 r x).
Proof. intros H Hx. revert H. keep. Qed.
Lemma inv_in6 r x : inv K r → table_wf datagram6_ok x → inv K (set_in6 r x).
Proof. intros H Hx. revert H. keep. Qed.
Lemma inv_id r x : inv K r → id_ok x → inv K (set_fragmentID r x).
Proof. intros H Hx. revert H. keep. Qed.
Lemma inv_calls r x : inv K r → K x (r_urgent r) (r_bulk r) → inv K (set_calls r x).
Proof. intros H Hx. revert H. keep. Qed.

Lemma inv_add_stat r c n : inv K r → inv K (add_stat c n r).
Proof. apply inv_stat. Qed.
Lemma inv_note r n : inv K r → inv K (noteFragmentTimeouts n r).
Proof. intros H. unfold noteFragmentTimeouts. destruct (n =? 0); [done|]. by repeat apply inv_add_stat. Qed.
Lemma TakeExpired_wf {Kt D} `{Countable Kt} `{Datagram D} (P : D → Prop) (t : Table Kt D) : table_wf P t → table_wf P (fst (TakeExpired t)).
Proof. intros []. by split. Qed.
Lemma inv_takeOut r : inv K r → inv K (takeOutTimeouts r).
Proof.
  intros H. unfold takeOutTimeouts. cbn. apply inv_note, inv_out6; [apply inv_out4; [done|]|]; apply (TakeExpired_wf _ _); apply H.
Qed.
Lemma inv_takeIn r : inv K r → inv K (takeInTimeouts r).
Proof.
  intros H. unfold takeInTimeouts. cbn. apply inv_note, inv_in6; [apply inv_in4; [done|]|]; apply (TakeExpired_wf _ _); apply H.
Qed.

(** ** The combinators *)
Abbreviation ok m := (safe (inv K) m (fun _ => True)).
Lemma safe_incr c : ok (incr c).
Proof. intros r Hr. split; [by apply inv_add_stat|done]. Qed.
Lemma safe_updateMax c v : ok (updateMax c v).
Proof. intros r Hr. split; [by apply inv_stat|done]. Qed.
Lemma safe_modify f : (∀ r, inv K r → inv K (f r)) → ok (modify f).
Proof. intros Hf r Hr. split; [by apply Hf|done]. Qed.
Lemma safe_when b m : ok m → ok (when b m).
Proof. intros Hm. unfold when. destruct b; [done|by apply safe_ret]. Qed.
Lemma safe_zoom {S A} (I : S → Prop) get set (m : SR S A) Q :
  safe I m Q → (∀ r, inv K r → I (get r)) → (∀ r s, inv K r → I s → inv K (set r s)) → safe (inv K) (zoom get set m) Q.
Proof.
  intros Hm Hg Hs r Hr. unfold zoom. destruct (Hm (get r) (Hg r Hr)) as [H1 H2]. destruct (m (get r)) as [s a]. split; [by apply Hs|done].
Qed.
Lemma safe_attempt {A} (m : SR Runner A) Q :
  safe (inv K) m Q → safe (inv K) (attempt m) (fun x => match x with inl a => Q a | inr _ => True end).
Proof. intros Hm r Hr. unfold attempt. destruct (Hm r Hr) as [H1 H2]. by destruct (m r) as [r' []]. Qed.
Lemma safe_deferred {A} (m : SR Runner A) d Q : safe (inv K) m Q → (∀ r, inv K r → inv K (d r)) → safe (inv K) (deferred m d) Q.
Proof. intros Hm Hd r Hr. unfold deferred. destruct (Hm r Hr) as [H1 H2]. destruct (m r) as [r' a]. split; [by apply Hd|done]. Qed.

Lemma safe_reassembleOutbound now raw : pkt_ok raw → safe (inv K) (reassembleOutbound now raw) good_result.
Proof.
  intros Hp. unfold reassembleOutbound. destruct (IsFragment_returns raw (proj1 Hp)) as [f Ef].
  eapply safe_bind; [apply (safe_lift _ _ (fun _ => True)); by rewrite Ef|]. intros f' _. apply safe_if; intros _; [apply safe_ret; by intros _|].
  apply safe_if; intros H0; [apply safe_fail|]. apply Z.eqb_neq in H0. pose proof (blen_nonneg raw). apply safe_deferred; [|apply inv_takeOut].
  eapply safe_bind; [apply (safe_lift _ _ (fun _ => True)); by rewrite idx_ok by lia|]. intros b0 _. cbv zeta.
  apply safe_if; intros _; [|apply safe_if; intros _; [|apply safe_fail]].
  - eapply safe_zoom; [by apply PushInfo_safe|intros r Hr; apply Hr|intros; by apply inv_out4].
  - eapply safe_zoom; [by apply PushInfo6_safe|intros r Hr; apply Hr|intros; by apply inv_out6].
Qed.
Lemma safe_reassembleInbound now raw : pkt_ok raw → safe (inv K) (reassembleInbound now raw) good_result.
Proof.
  intros Hp. unfold reassembleInbound. destruct (IsFragment_returns raw (proj1 Hp)) as [f Ef].
  eapply safe_bind; [apply (safe_lift _ _ (fun _ => True)); by rewrite Ef|]. intros f' _. apply safe_if; intros _; [apply safe_ret; by intros _|].
  apply safe_if; intros H0; [apply safe_fail|]. apply Z.eqb_neq in H0. pose proof (blen_nonneg raw). apply safe_deferred; [|apply inv_takeIn].
  eapply safe_bind; [apply (safe_lift _ _ (fun _ => True)); by rewrite idx_ok by lia|]. intros b0 _. cbv zeta.
  apply safe_if; intros _; [|apply safe_if; intros _; [|apply safe_fail]].
  - eapply safe_zoom; [by apply PushInfo_safe|intros r Hr; apply Hr|intros; by apply inv_in4].
  - eapply safe_zoom; [by apply PushInfo6_safe|intros r Hr; apply Hr|intros; by apply inv_in6].
Qed.

Lemma safe_Send pkt addr : may_send K pkt addr → ok (Send answers pkt addr).
Proof.
  intros Hs r Hr. unfold Send. destruct (blen pkt =? 0) eqn:E; cbn [fst snd].
  - split; [done|]. unfold Windivert.Send. by rewrite E.
  - split; [apply inv_calls; [done|]; apply Hs; apply Hr|]. unfold Windivert.Send. rewrite E. destruct (negb (io_ok _)); [done|]. by destruct (negb _).
Qed.
Lemma safe_send_parts parts addr c : (∀ pkt, pkt ∈ parts → may_send K pkt addr) → ok (send_parts answers parts addr c).
Proof.
  induction parts as [|p l IH]; intros Hs; [by apply safe_ret|]. cbn [send_parts].
  eapply safe_bind; [apply safe_Send, Hs; by left|]. intros _ _. eapply safe_bind; [apply safe_incr|]. intros _ _. apply IH. intros pkt Hp. apply Hs. by right.
Qed.
(** The pieces that [FragmentForMTU] cuts, under some identification. *)
Definition fragments (b : list Z) (mtu : Z) (parts : list (list Z)) : Prop :=
  ∃ s split, id_ok s ∧ snd (FragmentForMTU b mtu s) = Ok (parts, split).
Lemma safe_fragment b mtu : pkt_ok b → safe (inv K) (zoom r_fragmentID set_fragmentID (FragmentForMTU b mtu)) (fun x => fits_mtu mtu (fst x) ∧ fragments b mtu (fst x)).
Proof.
  intros Hb. apply (safe_zoom id_ok); [|intros r Hr; apply Hr|intros; by apply inv_id].
  intros s Hs. split; [by apply FragmentForMTU_keeps|]. pose proof (FragmentForMTU_fit b mtu s Hb Hs) as H.
  destruct (snd (FragmentForMTU b mtu s)) as [[parts split]| | |] eqn:E; try done. split; [done|]. exists s, split. split; [done|exact E].
Qed.

(** The packets that go out directly: the packet itself, byte for byte; or, when it was
    reassembled, the datagram with its checksums computed, or a piece of that for the MTU
    of the fragments it came in. *)
Definition direct_part (raw : list Z) (frag : Result) (pkt : list Z) : Prop :=
  if rFragmented frag then
    ∃ cp, CalcChecksums raw = Ok cp ∧ (pkt = cp ∨ ∃ parts, fragments cp (rFragmentMTU frag) parts ∧ pkt ∈ parts)
  else pkt = raw.
Definition may_direct (raw : list Z) (addr : Address) (frag : Result) : Prop :=
  ∀ pkt, direct_part raw frag pkt → may_send K pkt addr.
Lemma safe_reinjectDirect raw addr frag p : pkt_ok raw → Parse raw = Ok p → may_direct raw addr frag → ok (reinjectDirect answers raw addr frag).
Proof.
  intros Hp HP. unfold may_direct, direct_part, reinjectDirect. destruct (rFragmented frag); cbn [negb]; intros Hs.
  2:{ eapply safe_bind; [by apply safe_Send, Hs|]. intros _ _. apply safe_incr. }
  eapply safe_bind; [apply safe_lift_returns, CalcChecksums_returns|]. intros cp Ec. cbv beta in Ec.
  destruct (CalcChecksums_shape raw cp p (proj1 Hp) HP Ec) as [Hb Hsh]. cbv zeta.
  apply safe_if; intros _.
  - eapply safe_bind; [apply safe_Send, Hs; exists cp; split; [done|by left]|]. intros _ _. apply safe_incr.
  - eapply safe_bind; [apply safe_fragment; by apply (pkt_ok_shape raw)|]. intros [parts split] [_ Hf].
    eapply safe_bind; [apply safe_when, safe_incr|]. intros _ _. apply safe_send_parts. intros pkt Hin. apply Hs. exists cp. split; [done|]. right. by exists parts.
Qed.
Lemma safe_direct raw addr frag p : pkt_ok raw → Parse raw = Ok p → may_direct raw addr frag → ok (direct answers raw addr frag).
Proof.
  intros Hp HP Hs. unfold direct. eapply safe_bind; [eapply safe_attempt, safe_reinjectDirect; done|].
  intros [[]|e] _; [by apply safe_ret|]. eapply safe_bind; [apply safe_incr|]. intros _ _. apply safe_when, safe_incr.
Qed.
Lemma safe_reset raw addr p : may_inject K → bytes_ok raw → safe (inv K) (resetBrowserTCP answers raw addr p) (fun _ => True).
Proof.
  intros Hi Hb. unfold resetBrowserTCP. eapply safe_bind.
  { eapply safe_attempt. eapply safe_bind; [by apply safe_lift_returns, BuildTCPResetReply_returns|]. intros rst _.
    eapply safe_bind; [apply safe_lift_returns, CalcChecksums_returns|]. intros rst' _. cbv zeta. apply safe_Send. apply Hi. }
  intros [[]|e] _; [by apply safe_ret|]. eapply safe_bind; [apply safe_incr|]. intros _ _. by apply safe_ret.
Qed.

(** *** The tunnel side *)
Lemma safe_prepare cp p p' : pkt_ok cp → Parse cp = Ok p' →
  safe (inv K) (prepareTunnelPackets cp p) (fun x => fits_mtu (cMTU cfg) (fst x)).
Proof.
  intros Hp HP. unfold prepareTunnelPackets. eapply safe_bind; [apply safe_get|]. intros r (_ & -> & _). cbv zeta.
  apply safe_if; intros Hm.
  - apply Z.leb_le in Hm. eapply safe_bind; [apply safe_lift_returns, CalcChecksums_returns|]. intros cp' Ec. cbv beta in Ec. apply safe_ret.
    constructor; [|constructor]. by rewrite (CalcChecksums_len _ _ Ec).
  - apply safe_if; intros _.
    + eapply safe_bind; [apply (safe_lift _ _ (fun x => fits_mtu (cMTU cfg) (fst x)))|].
      { pose proof (SplitForMTU_fit cp (cMTU cfg) (proj1 Hp)) as H. by destruct (SplitForMTU cp _) as [[]| | |]. }
      intros [segs split] Hf. destruct (checksum_all_spec segs) as [Hr Hl].
      eapply safe_bind; [by apply safe_lift_returns|]. intros segs' Es. cbv beta in Es. apply safe_ret. specialize (Hl _ Es). cbn [fst] in *.
      unfold fits_mtu in *. apply (proj1 (List.Forall_map blen (fun n => n <= cMTU cfg) segs')). rewrite Hl. by apply (proj2 (List.Forall_map blen (fun n => n <= cMTU cfg) segs)).
    + eapply safe_bind; [apply safe_lift_returns, CalcChecksums_returns|]. intros cp' Ec. cbv beta in Ec.
      destruct (CalcChecksums_shape cp cp' p' (proj1 Hp) HP Ec) as [Hb Hsh].
      eapply safe_bind; [apply safe_fragment; by apply (pkt_ok_shape cp)|]. intros [parts split] [Hf _].
      eapply safe_bind; [apply safe_when, safe_incr|]. intros _ _. by apply safe_ret.
Qed.
Lemma queue_ok_snoc cap mtu q x : blen q < cap → blen (q_raw x) <= mtu → queue_ok cap mtu q → queue_ok cap mtu (q ++ [x]).
Proof. intros Hq Hx [H1 H2]. split; [rewrite blen_snoc; lia|]. apply Forall_app. by repeat constructor. Qed.
Lemma safe_enqueue now udp seg : may_queue K (cMTU cfg) → blen seg <= cMTU cfg → ok (enqueue now udp seg).
Proof.
  intros Hq Hs r Hr. unfold enqueue. cbv zeta. destruct (Z.ltb_spec (blen (if udp then r_urgent r else r_bulk r)) (if udp then urgent_cap else bulk_cap)) as [Hl|].
  2:{ by apply safe_incr. }
  assert (Hs' : blen (q_raw (mkQueued seg now)) <= cMTU cfg) by done.
  assert (Hr' : inv K (if udp then set_urgent r (r_urgent r ++ [mkQueued seg now]) else set_bulk r (r_bulk r ++ [mkQueued seg now]))).
  { destruct Hr as (Hok & Hc & HK). destruct (Hq _ _ _ _ HK Hs') as [K1 K2].
    destruct udp; (split; [|split; [done|]]); try done; destruct Hok; split; cbn; try done; apply queue_ok_snoc; try done; by rewrite Hc. }
  assert (Hm : ok (_ ← incr tunneled; updateMax sendQueueHigh (blen ((if udp then r_urgent r else r_bulk r) ++ [mkQueued seg now])))).
  { eapply safe_bind; [apply safe_incr|]. intros _ _. apply safe_updateMax. }
  apply Hm. by destruct udp.
Qed.
Lemma safe_enqueue_all now udp segs : may_queue K (cMTU cfg) → fits_mtu (cMTU cfg) segs → ok (enqueue_all now udp segs).
Proof.
  intros Hq Hs. induction Hs as [|seg segs H1 H2 IH]; [by apply safe_ret|]. cbn [enqueue_all].
  eapply safe_bind; [by apply safe_enqueue|]. by intros _ _.
Qed.
Lemma safe_natOutbound now raw p meta : bytes_ok raw → Parse raw = Ok p →
  safe (inv K) (natOutbound now raw meta) (fun x => match snd x with inl _ => rewritten raw p (fst x) | inr _ => True end).
Proof.
  intros Hb HP r Hr. unfold natOutbound. pose proof (PrepareOutbound_ok now (r_nat r) raw meta (ok_nat r (proj1 Hr)) (ok_tunnels r (proj1 Hr)) Hb) as H.
  destruct (PrepareOutbound now (r_nat r) raw meta) as [[m raw'] res] eqn:E. destruct H as (Hw & (X1 & X2 & _) & Hb' & Hres).
  assert (Hi : inv K (set_nat r m)).
  { apply inv_nat; [done|done|]. destruct (ok_tunnels r (proj1 Hr)) as [T4 T6]. split; by rewrite ?X1, ?X2. }
  destruct res as [meta'|e| |]; try done. split; [done|]. cbn. apply (PrepareOutbound_rewritten now (r_nat r) raw p meta m raw' meta'); [apply Hr|done..].
Qed.
Lemma safe_natInbound now raw : bytes_ok raw →
  safe (inv K) (natInbound now raw) (fun x => match snd x with inl (_, true) => ∃ p, Parse raw = Ok p ∧ rewritten raw p (fst x) | _ => True end).
Proof.
  intros Hb r Hr. unfold natInbound. pose proof (RestoreInbound_ok now (r_nat r) raw (ok_nat r (proj1 Hr)) Hb) as H.
  destruct (RestoreInbound now (r_nat r) raw) as [[m raw'] res] eqn:E. destruct H as (Hw & (X1 & X2 & _) & Hb' & Hres).
  assert (Hi : inv K (set_nat r m)).
  { apply inv_nat; [done|done|]. destruct (ok_tunnels r (proj1 Hr)) as [T4 T6]. split; by rewrite ?X1, ?X2. }
  destruct res as [[meta' []]|e| |]; try done. split; [done|]. cbn. destruct Hres as (k & [(p & l & mp & HP & _)]). exists p. split; [done|]. apply (RestoreInbound_rewritten now (r_nat r) raw p m raw' meta'); [apply Hr|done..].
Qed.
Lemma safe_tunnel now raw addr p : may_queue K (cMTU cfg) → pkt_ok raw → Parse raw = Ok p → ok (tunnel now raw addr p).
Proof.
  intros Hq Hp HP. unfold tunnel. cbv zeta. eapply safe_bind; [by apply safe_natOutbound; [apply Hp|]|].
  intros [cp [meta|e]] Hrw; [|apply safe_incr]. cbn [fst snd] in Hrw. destruct Hrw as (Hb & Hsh & p1 & HP1 & _).
  eapply safe_bind; [apply safe_get|]. intros r (_ & -> & _).
  destruct (clamp_spec (cMTU cfg) (pVersion p) cp p1 Hb HP1) as (cp' & Ec & Hb' & HP' & Hsh').
  eapply safe_bind; [apply (safe_lift _ _ (fun x => x = cp')); by rewrite Ec|]. intros _ ->.
  eapply safe_bind.
  { apply safe_attempt, (safe_prepare cp' p p1); [|congruence]. apply (pkt_ok_shape raw); [done|done|]. by eapply same_shape_trans. }
  intros [[segs split]|e] Hf.
  - eapply safe_bind; [apply safe_when, safe_incr|]. intros _ _. by apply safe_enqueue_all.
  - eapply safe_bind; [apply safe_incr|]. intros _ _. apply safe_incr.
Qed.

(** *** Classification *)
Record env_ok (env : capture_env) : Prop := { eo_wakeups : Forall index_wf (ce_wakeups env); eo_table : reply_ok (ce_table env) }.

Lemma policy_compiled r : inv K r → compiled (policy_of r).
Proof. intros [Hr _]. apply compiled_domains, Hr. Qed.
Lemma and_then_returns b m : (∃ x, m = Ok x) → ∃ x, and_then b m = Ok x.
Proof. intros [x ->]. destruct b; eauto. Qed.
Lemma safe_lift_ex {A} (m : Res A) : (∃ x, m = Ok x) → safe (inv K) (liftR m) (fun a => m = Ok a).
Proof. intros [x E]. apply safe_lift. by rewrite E. Qed.

Lemma safe_waitLookup key wakeups : Forall index_wf wakeups → ok (waitLookup enum key wakeups).
Proof.
  intros Hw r Hr. split; [|done]. cbn. apply inv_flows; [done|]. destruct (list.last wakeups) as [i|] eqn:E; [|apply Hr].
  cbn. apply (Forall_elem _ _ i Hw). by apply last_Some_elem_of.
Qed.
Lemma or_none_returns {T B} `{RowEnc T} (a : TableReply) (f : list T → option B) : reply_ok a → ∃ x, or_none (read_table a) f = Ok x.
Proof. intros Ha. pose proof (read_table_returns (T := T) a Ha) as Hr. unfold or_none. destruct (read_table a); try done; eauto. Qed.
Lemma ResolveSocketOwner_returns a k : reply_ok a → ∃ x, ResolveSocketOwner processInfo a k = Ok x.
Proof.
  intros Ha. unfold ResolveSocketOwner.
  assert (Hf : ∀ m : Res (option Z), (∃ x, m = Ok x) → ∃ x, (pid ← m; match pid with None => Ok None | Some pid =>
    if pid =? 0 then Ok None else p ← NormalizeProcess (processInfo pid); Ok (Some (with_pid p pid)) end) = Ok x).
  { intros m [[pid|] ->]; rewrite bind_Ok; [|eauto]. destruct (pid =? 0); [eauto|]. rewrite NormalizeProcess_norm, bind_Ok. eauto. }
  apply Hf. repeat case_match; eauto; by apply or_none_returns.
Qed.
Lemma safe_attribute env key p : env_ok env → ok (attribute enum processInfo env key p).
Proof.
  intros [Hw Ht]. unfold attribute. eapply safe_bind; [apply safe_get|]. intros r Hr. cbv zeta.
  destruct (queries_scan (ce_now env) Process0 (pDst p) (policy_of r) (policy_compiled r Hr)) as (Eq & _).
  eapply safe_bind; [apply safe_lift_ex; eauto|]. intros could _. destruct (eP <$> _); [by apply safe_ret|].
  apply safe_if; intros _; [by apply safe_ret|]. eapply safe_bind; [by apply safe_waitLookup|]. intros [proc|] _; [by apply safe_ret|].
  eapply safe_conseq; [apply safe_lift_ex; by apply ResolveSocketOwner_returns|done].
Qed.
Lemma safe_decide_first env key p o : ok (decide_first env key p o).
Proof.
  unfold decide_first. cbv zeta. eapply safe_bind; [apply safe_incr|]. intros _ _. eapply safe_bind; [apply safe_get|]. intros r Hr.
  eapply safe_bind; [apply safe_lift_ex, and_then_returns, IsInternal_returns|]. intros internal _.
  eapply safe_bind.
  { apply safe_lift_ex. destruct internal; [eauto|]. rewrite (Decide_scan _ _ _ _ (policy_compiled r Hr)). eauto. }
  intros d _. eapply safe_bind; [apply safe_modify; intros; by apply inv_routes|]. intros _ _.
  eapply safe_bind; [apply safe_when, safe_incr|]. intros _ _. by apply safe_ret.
Qed.
Lemma safe_table {S A} get set (f : S → S * A) :
  (∀ r s, inv K r → inv K (set r s)) → ok (zoom get set (fun t => let (t, a) := f t in (t, Ok a))).
Proof.
  intros Hs. apply (safe_zoom (fun _ => True)); [|done|intros; by apply Hs]. intros s _. by destruct (f s).
Qed.
Lemma safe_classify env key p : env_ok env → ok (classify enum processInfo env key p).
Proof.
  intros He. unfold classify. cbv zeta. eapply safe_bind; [apply safe_table; intros; by apply inv_proxy|]. intros [pt pk] _.
  eapply safe_bind; [apply safe_table; intros; by apply inv_routes|]. intros e _. apply safe_if; intros _.
  - eapply safe_bind; [apply safe_modify; intros; by apply inv_routes|]. intros _ _. by apply safe_ret.
  - destruct e as [e|]; [by apply safe_ret|]. eapply safe_bind; [by apply safe_attribute|]. intros o _. apply safe_decide_first.
Qed.

(** *** Discovery *)
Lemma safe_learn now key raw addr p rt : may_inject K → bytes_ok raw → ok (learn answers now key raw addr p rt).
Proof.
  intros Hi Hb. unfold learn. eapply safe_bind; [apply safe_get|]. intros r Hr.
  destruct (FeedTLS_ok now key raw (r_discovery r) Hb (ok_discovery r (proj1 Hr))) as (d' & out & Ef & Hd).
  eapply safe_bind; [apply (safe_lift _ _ (fun x => disc_ok (fst x))); by rewrite Ef|]. intros [disc [name res]] Hdisc. cbn [fst] in Hdisc.
  eapply safe_bind; [apply safe_modify; intros; by apply inv_discovery|]. intros _ _.
  destruct res; try by apply safe_ret. destruct name as [|c name]; [by apply safe_ret|].
  eapply safe_bind; [apply safe_get|]. intros r1 Hr1. destruct (NameGroups_spec (c :: name) (r_domains r1)) as (gs & Eg & _).
  assert (Hg : tr_groups (r_domains r1) = cGroups cfg) by (destruct Hr1 as ([] & <- & _); done).
  eapply safe_bind.
  { apply (safe_lift _ _ (fun x => tr_groups (fst x) = cGroups cfg)). unfold AddForName. rewrite Eg, bind_Ok. cbn [fst]. by rewrite AddGroups_groups. }
  intros [domains groups] Hdg. cbn [fst] in Hdg. eapply safe_bind; [apply safe_modify; intros; by apply inv_domains|]. intros _ _.
  eapply safe_bind; [apply safe_get|]. intros r2 Hr2.
  eapply safe_bind; [apply safe_lift_ex, and_then_returns; rewrite (DecideHost_scan _ _ _ (policy_compiled r2 Hr2)), bind_Ok; eauto|].
  intros hit _. apply safe_if; intros _; [|by apply safe_ret].
  eapply safe_bind; [apply safe_incr|]. intros _ _. eapply safe_bind; [by apply safe_reset|]. intros done _.
  eapply safe_bind; [apply safe_when, safe_incr|]. intros _ _. eapply safe_bind; [apply safe_modify; intros; by apply inv_routes|]. intros _ _. by apply safe_ret.
Qed.
Lemma safe_discover now key raw addr p rt : may_inject K → bytes_ok raw → ok (discover answers now key raw addr p rt).
Proof.
  intros Hi Hb. unfold discover. eapply safe_bind; [apply safe_get|]. intros r Hr. cbv zeta. pose proof (policy_compiled r Hr) as Hc.
  destruct (queries_scan now (rt_proc rt) (pDst p) (policy_of r) Hc) as (_ & E1 & E2 & E3).
  eapply safe_bind; [apply safe_lift_ex, and_then_returns, IsInternal_returns|]. intros internal _.
  eapply safe_bind; [apply safe_lift_ex, and_then_returns; eauto|]. intros nh _.
  eapply safe_bind; [apply safe_lift_ex, and_then_returns; eauto|]. intros ag _.
  eapply safe_bind; [apply safe_when, safe_incr|]. intros _ _.
  eapply safe_bind; [apply safe_lift_ex, and_then_returns; eauto|]. intros known _.
  eapply safe_bind; [apply safe_when, safe_incr|]. intros _ _.
  eapply (safe_bind _ _ _ (fun _ => True)).
  { apply safe_if; intros _; [|by apply safe_ret]. apply (safe_zoom disc_ok); [|intros r' Hr'; apply Hr'|intros; by apply inv_discovery].
    intros d Hd. pose proof (SuppressUnknownQUIC_ok now (pDst p) d Hd) as Hs. by destruct (SuppressUnknownQUIC now (pDst p) d). }
  intros sup _. apply safe_if; intros _.
  - eapply safe_bind; [apply safe_incr|]. intros _ _. eapply safe_bind; [apply safe_incr|]. intros _ _. by apply safe_ret.
  - apply safe_if; intros _; [by apply safe_learn|by apply safe_ret].
Qed.

(** *** A classified packet, and the whole turn *)
Lemma safe_forward now raw addr frag p rt : pkt_ok raw → Parse raw = Ok p → may_inject K →
  (dTunnel (rt_d rt) = false → may_direct raw addr frag) → (dTunnel (rt_d rt) = true → may_queue K (cMTU cfg)) →
  ok (forward answers now raw addr frag p rt).
Proof.
  intros Hp HP Hi Hd Hq. unfold forward. cbv zeta. eapply safe_bind; [apply safe_discover; [done|apply Hp]|]. intros consumed _.
  apply safe_if; intros _; [by apply safe_ret|]. apply safe_if; intros Ht.
  - apply negb_true_iff in Ht. apply (safe_direct _ _ _ p); auto.
  - apply negb_false_iff in Ht. eapply safe_bind; [apply safe_lift_ex, and_then_returns, IsTCPSYN_returns, Hp|]. intros syn _.
    apply safe_if; intros _; [|apply safe_tunnel; auto].
    eapply safe_bind; [apply safe_reset; [done|apply Hp]|]. intros done _. eapply safe_bind; [apply safe_when, safe_incr|]. intros _ _.
    apply safe_modify. intros. by apply inv_routes.
Qed.
Lemma safe_unparsed raw addr frag err : may_send K raw addr → ok (unparsed answers raw addr frag err).
Proof.
  intros Hs. unfold unparsed. apply safe_if; intros _.
  - eapply safe_bind; [apply safe_incr|]. intros _ _. apply safe_incr.
  - eapply safe_bind; [by apply safe_attempt, safe_Send|]. intros [[]|] _; apply safe_incr.
Qed.
Lemma Parse_total b : bytes_ok b → returns (Parse b).
Proof. intros Hb. pose proof (Parse_spec b Hb) as H. by destruct (Parse b). Qed.
Lemma safe_capture env raw addr : pkt_ok raw → env_ok env → may_inject K → (∀ pkt, may_send K pkt addr) → may_queue K (cMTU cfg) →
  ok (capture_step enum answers processInfo env raw addr).
Proof.
  intros Hp He Hi Hs Hq. unfold capture_step. cbv zeta. eapply safe_bind; [apply safe_incr|]. intros _ _.
  eapply safe_bind; [by apply safe_attempt, safe_reassembleOutbound|]. intros [frag|e] Hf.
  2:{ eapply safe_bind; [apply safe_incr|]. intros _ _. apply safe_incr. }
  apply safe_if; intros Hrd; [by apply safe_ret|]. apply negb_false_iff in Hrd. specialize (Hf Hrd).
  eapply safe_bind; [apply safe_when, safe_incr|]. intros _ _. set (raw' := if rFragmented frag then rPacket frag else raw).
  assert (Hp' : pkt_ok raw') by (unfold raw'; by destruct (rFragmented frag)).
  eapply safe_bind; [apply safe_attempt, safe_lift_returns, Parse_total, Hp'|]. intros [p|err] HP; [|by apply safe_unparsed].
  eapply safe_bind; [by apply safe_classify|]. intros rt _. apply safe_forward; try done. intros _ pkt _. apply Hs.
Qed.

(** *** The receive loop *)
Lemma safe_inject raw frag p meta : may_inject K → pkt_ok raw → Parse raw = Ok p → ok (inject answers raw frag p meta).
Proof.
  intros Hi Hp HP. unfold inject. cbv zeta. eapply safe_bind; [apply safe_get|]. intros r (_ & -> & _).
  destruct (clamp_spec (cMTU cfg) (pVersion p) raw p (proj1 Hp) HP) as (cp & Ec & Hb & HP' & Hsh).
  eapply safe_bind; [apply (safe_lift _ _ (fun x => x = cp)); by rewrite Ec|]. intros _ ->.
  eapply safe_bind; [apply safe_attempt, safe_lift_returns, CalcChecksums_returns|]. intros [cp'|e] Es.
  2:{ eapply safe_bind; [apply safe_incr|]. intros _ _. apply safe_incr. }
  cbv beta in Es. destruct (CalcChecksums_shape cp cp' p Hb ltac:(congruence) Es) as [Hb' Hsh'].
  assert (Hp' : pkt_ok cp') by (apply (pkt_ok_shape raw); [done|done|by eapply same_shape_trans]).
  eapply (safe_bind _ _ _ (fun _ => True)).
  { apply safe_if; intros _; [|by apply safe_ret]. eapply safe_bind; [by apply safe_attempt, safe_fragment|]. intros [[parts split]|e] _.
    - eapply safe_bind; [apply safe_when, safe_incr|]. intros _ _. by apply safe_ret.
    - do 3 (eapply safe_bind; [apply safe_incr|]; intros _ _). by apply safe_ret. }
  intros [parts|] _; [|by apply safe_ret].
  eapply safe_bind; [apply safe_attempt, safe_send_parts; intros pkt _; apply Hi|]. intros [[]|e] _; [by apply safe_ret|].
  eapply safe_bind; [apply safe_incr|]. intros _ _. apply safe_incr.
Qed.
Lemma safe_receive now raw : pkt_ok raw → may_inject K → ok (receive_step answers now raw).
Proof.
  intros Hp Hi. unfold receive_step. apply safe_if; intros _; [by apply safe_ret|].
  eapply safe_bind; [by apply safe_attempt, safe_reassembleInbound|]. intros [frag|e] Hf.
  2:{ do 2 (eapply safe_bind; [apply safe_incr|]; intros _ _). apply safe_incr. }
  apply safe_if; intros Hrd; [by apply safe_ret|]. apply negb_false_iff in Hrd. specialize (Hf Hrd). cbv zeta.
  eapply safe_bind; [apply safe_when, safe_incr|]. intros _ _.
  eapply safe_bind; [apply safe_attempt, safe_lift_returns, Parse_total, Hf|]. intros pre _.
  eapply safe_bind; [apply safe_when, safe_incr|]. intros _ _.
  eapply safe_bind; [apply safe_natInbound, Hf|]. intros [cp [[meta ok]|e]] Hrw.
  2:{ eapply safe_bind; [apply safe_incr|]. intros _ _. apply safe_incr. }
  apply safe_if; intros Hok. { eapply safe_bind; [apply safe_incr|]. intros _ _. apply safe_incr. }
  apply negb_false_iff in Hok as ->. cbn [fst snd] in Hrw.
  destruct Hrw as (p0 & HP0 & Hb & Hsh & p1 & HP1 & _).
  eapply safe_bind; [apply safe_attempt, safe_lift_returns, Parse_total, Hb|]. intros [p|err] HP.
  - cbv beta in HP. apply safe_inject; [done| |done]. by apply (pkt_ok_shape (rPacket frag)).
  - do 2 (eapply safe_bind; [apply safe_incr|]; intros _ _). apply safe_when, safe_incr.
Qed.

(** *** The other loops *)
Lemma safe_flow_event now ev : ok (flow_event now ev).
Proof.
  unfold flow_event. cbv zeta. apply safe_if; intros _; [|apply safe_if; intros _; [|by apply safe_ret]].
  - eapply safe_bind; [apply safe_get|]. intros r Hr.
    eapply safe_bind; [apply (safe_lift _ _ index_wf)|intros i Hi; apply safe_modify; intros; by apply inv_flows].
    destruct (FlowIndex.Add now (evKey ev) (evProcess ev) (r_flows r)) as [i| | |] eqn:E.
    + eapply index_step_wf; [apply Hr|by eapply st_Add].
    + done.
    + revert E. unfold FlowIndex.Add. by rewrite NormalizeProcess_norm.
    + revert E. unfold FlowIndex.Add. by rewrite NormalizeProcess_norm.
  - apply safe_modify. intros r Hr. apply inv_proxy, inv_discovery; [apply inv_routes, inv_flows; [done|]|].
    + eapply index_step_wf; [apply Hr|apply st_Delete].
    + unfold disc_ok, DeleteFlow. cbn. apply map_Forall_delete, Hr.
Qed.
Lemma AddSocket_returns now id pr a q p i : ∃ i', AddSocket now id pr a q p i = Ok i'.
Proof.
  unfold AddSocket, AddLocal. destruct (_ || _); [destruct (q =? 0); [eauto|]|]; rewrite NormalizeProcess_norm, bind_Ok; eauto.
Qed.
Lemma safe_socket_event now ev : ok (socket_event now ev).
Proof.
  unfold socket_event. cbv zeta. apply safe_if; intros _; [|apply safe_if; intros _; [|by apply safe_ret]].
  - eapply safe_bind; [apply safe_get|]. intros r Hr.
    destruct (AddSocket_returns now (evEndpointID ev) (kProto (evKey ev)) (kLocal (evKey ev)) (kLocalPort (evKey ev)) (evProcess ev) (r_flows r)) as [i E].
    eapply safe_bind; [apply (safe_lift _ _ index_wf)|intros j Hj; apply safe_modify; intros; by apply inv_flows].
    rewrite E. eapply index_step_wf; [apply Hr|by eapply st_AddSocket].
  - apply safe_modify. intros r Hr. apply inv_flows; [done|]. eapply index_step_wf; [apply Hr|apply st_DeleteSocket].
Qed.
Lemma safe_snapshot now t4 t6 u4 u6 : reply_ok t4 → reply_ok t6 → reply_ok u4 → reply_ok u6 → ok (snapshot_step processInfo now t4 t6 u4 u6).
Proof.
  intros H1 H2 H3 H4. unfold snapshot_step. eapply safe_bind; [apply safe_get|]. intros r Hr.
  destruct (snapshot_all_run processInfo now t4 t6 u4 u6 H1 H2 H3 H4) as (s & E & _).
  eapply safe_bind; [apply (safe_lift _ _ (fun x => index_wf (fst x)))|intros [i x] Hi; apply safe_modify; intros; by apply inv_flows].
  unfold SnapshotExisting. rewrite E, bind_Ok. cbn [fst]. by apply (index_wf_sockets (r_flows r)); [..|apply Hr].
Qed.
Lemma add_answers_groups now ips groups ttl t : tr_groups (add_answers now ips groups ttl t) = tr_groups t.
Proof. revert t. induction ips as [|ip ips IH]; intros t; [done|]. cbn. by rewrite IH, AddGroups_groups. Qed.
(** A UDP packet whose header reaches beyond the datagram's own length, although the
    buffer holds it: [raw[p.L4+8 : p.Total]] is then out of order. *)
Definition dns_truncated (raw : list Z) : Prop :=
  ∃ p, Parse raw = Ok p ∧ pProtocol p = ProtoUDP ∧ pTotal p < pL4 p + 8 <= blen raw.
Definition dns_ok (raw : list Z) : Prop := ∀ p, Parse raw = Ok p → pProtocol p = ProtoUDP → pL4 p + 8 <= blen raw → pL4 p + 8 <= pTotal p.
Lemma dns_cases raw : dns_ok raw ∨ dns_truncated raw.
Proof.
  destruct (Parse raw) as [p| | |] eqn:E; [|left; intros q; congruence..].
  destruct (decide (pProtocol p = ProtoUDP ∧ pTotal p < pL4 p + 8 <= blen raw)) as [H|H]; [right; by exists p|].
  left. intros q Hq Hu Hl. assert (q = p) as -> by congruence. lia.
Qed.
(** On such a packet the turn dies. *)
Lemma dns_dies now raw r : bytes_ok raw → dns_truncated raw → dns_step genum now raw r = (r, Panic).
Proof.
  intros Hb (p & HP & Hu & Hl). pose proof (Parse_Ok raw p Hb HP) as (Hv & Ht & _). unfold dns_step.
  unfold mbind at 1, SR_bind at 1, attempt, liftR at 1. rewrite HP, Hu, Z.eqb_refl, (proj2 (Z.ltb_ge _ _)) by lia. cbn [negb orb].
  unfold mbind at 1, SR_bind at 1, liftR at 1. unfold slice. by rewrite (proj2 (Z.leb_gt (pL4 p + 8) (pTotal p))), andb_false_r by lia.
Qed.
Lemma safe_dns now raw : bytes_ok raw → dns_ok raw → ok (dns_step genum now raw).
Proof.
  intros Hb Hd. unfold dns_step. eapply safe_bind; [by apply safe_attempt, safe_lift_returns, Parse_total|]. intros [p|e] HP; [|by apply safe_ret].
  cbv beta in HP. pose proof (Parse_Ok raw p Hb HP) as (Hv & Ht & _).
  apply safe_if; intros Hg; [by apply safe_ret|]. apply orb_false_iff in Hg as [Hu Hl]. apply negb_false_iff, Z.eqb_eq in Hu. apply Z.ltb_ge in Hl.
  specialize (Hd p HP Hu Hl). eapply safe_bind; [apply (safe_lift _ _ bytes_ok); rewrite slice_ok by lia; auto with go|]. intros msg Hm.
  eapply safe_bind; [apply safe_get|]. intros r Hr. destruct (ParseDNSResponse_total (name_matches (r_domains r)) msg Hm) as (res & err & E & _).
  eapply safe_bind; [apply safe_lift_ex; eauto|]. intros [res' err'] _. destruct err'; [by apply safe_ret|].
  destruct (groups_for_loop_spec (Names res') ∅ (r_domains r)) as (gs & Eg & _).
  eapply safe_bind; [apply safe_lift_ex; unfold GroupsForNames; rewrite Eg, bind_Ok; eauto|]. intros groups _.
  apply safe_modify. intros r' Hr'. apply inv_domains; [done|]. rewrite add_answers_groups. destruct Hr' as ([] & <- & _). done.
Qed.
Lemma resolve_items_groups clock resolver items ttl nt : tr_groups (snd (resolve_items clock resolver items ttl nt)) = tr_groups (snd nt).
Proof.
  revert nt. induction items as [|it items IH]; intros nt; [done|]. cbn [resolve_items]. rewrite IH. destruct (resolver _); [|done]. apply add_ips_groups.
Qed.
Lemma safe_bootstrap clock resolver : ok (bootstrap_step clock resolver).
Proof.
  apply safe_modify. intros r Hr. apply inv_domains; [done|]. unfold ResolveBootstrapWithResolver. rewrite resolve_items_groups. cbn [snd].
  destruct Hr as ([] & <- & _). done.
Qed.
Lemma safe_aggressive v : ok (SetAggressiveDiscovery v).
Proof. apply safe_modify. intros. by apply inv_aggressive. Qed.
Lemma sweep4_wf now t : table_wf datagram_ok t → table_wf datagram_ok (fst (Reassembly4.Sweep now t)).
Proof. intros Ht. apply (sweepLocked_spec datagram_ok now t Ht). Qed.
Lemma sweep6_wf now t : table_wf datagram6_ok t → table_wf datagram6_ok (fst (Sweep6 now t)).
Proof. intros Ht. apply (sweepLocked_spec datagram6_ok now t Ht). Qed.
Lemma disc_sweep_ok now d : disc_ok d → disc_ok (BrowserDisc.Sweep now d).
Proof.
  intros Hd k s. unfold BrowserDisc.Sweep. cbn [d_tls]. rewrite sweep_map_lookup. destruct (d_tls d !! k) as [s'|] eqn:E; [|done]. cbn.
  destruct (_ <? _); [done|]. intros [= <-]. exact (Hd _ _ E).
Qed.
Lemma safe_maintenance now : ok (maintenance_step now).
Proof.
  apply safe_modify. intros r Hr. apply inv_takeIn, inv_takeOut. cbv zeta. pose proof (proj1 Hr) as [].
  destruct (Sweep_ok now (15 * Minute) (r_nat r) ok_nat0) as (Hn & _ & E4 & E6 & _).
  apply inv_in6; [apply inv_out6; [apply inv_in4; [apply inv_out4; [apply inv_proxy, inv_discovery; [apply inv_domains; [apply inv_nat; [apply inv_routes, inv_flows; [done|]|..]|]|]|]|]|]|];
    try (cbn; by first [apply sweep4_wf | apply sweep6_wf | apply disc_sweep_ok]).
  - eapply index_step_wf; [done|apply st_Sweep].
  - done.
  - unfold tunnels_ok in *. cbn. by rewrite E4, E6.
  - cbn. destruct Hr as (_ & <- & _). done.
Qed.

(** *** The send loop *)
Definition may_take : Prop := ∀ c u b x, (K c (x :: u) b → K c u b) ∧ (K c u (x :: b) → K c u b).
Lemma queue_ok_tail cap mtu x q : queue_ok cap mtu (x :: q) → queue_ok cap mtu q.
Proof. intros [H1 H2]. rewrite blen_cons in H1. split; [lia|]. by apply List.Forall_cons_iff in H2 as [_ H2]. Qed.
Lemma queue_ok_head cap mtu x q : queue_ok cap mtu (x :: q) → blen (q_raw x) <= mtu.
Proof. intros [_ H2]. by apply List.Forall_cons_iff in H2 as [H2 _]. Qed.
Lemma send_turn_spec pick pc u b pc' u' b' o : send_turn pick pc u b = Some (pc', u', b', o) →
  match o with
  | None => u' = u ∧ b' = b
  | Some x => (u = x :: u' ∧ b' = b) ∨ (u' = u ∧ b = x :: b')
  end.
Proof.
  unfold send_turn. destruct pc; repeat case_match; try discriminate; intros Heq; injection Heq as; subst; auto.
Qed.
Lemma safe_send pick now outcome pc : may_take → (∀ x, returns (outcome x)) →
  safe (inv K) (send_step pick now outcome pc) (fun x => match snd x with Some p => blen (q_raw p) <= cMTU cfg | None => True end).
Proof.
  intros Ht Ho r Hr. unfold send_step. destruct (send_turn pick pc (r_urgent r) (r_bulk r)) as [[[[pc' u] b] o]|] eqn:E; [|by split].
  apply send_turn_spec in E. cbv zeta.
  assert (Hr' : inv K (set_bulk (set_urgent r u) b) ∧ match o with Some p => blen (q_raw p) <= cMTU cfg | None => True end).
  { destruct Hr as ([] & Hc & HK). unfold inv. cbn. destruct o as [x|].
    - rewrite Hc in *. destruct E as [[E ->]|[-> E]]; rewrite E in *; (split; [split; [|split; [done|first [exact (proj1 (Ht _ _ _ x) HK)|exact (proj2 (Ht _ _ _ x) HK)]]]|by eapply queue_ok_head]);
        split; cbn; rewrite ?Hc; try done; by eapply queue_ok_tail.
    - destruct E as [-> ->]. split; [split; [|done]|done]. split; cbn; done. }
  destruct Hr' as [Hr' Hx]. destruct o as [x|]; [|by split]. revert Hr'. generalize (set_bulk (set_urgent r u) b) as r'. intros r'. revert r'.
  change (safe (inv K) (_ ← sendOne now x (outcome x); mret (pc', Some x)) (fun y => match snd y with Some p => blen (q_raw p) <= cMTU cfg | None => True end)).
  eapply (safe_bind _ _ _ (fun _ => True)); [|intros _ _; by apply safe_ret]. unfold sendOne. cbv zeta.
  eapply safe_bind; [apply safe_when, safe_updateMax|]. intros _ _. eapply safe_bind; [by apply safe_attempt, safe_lift_returns|].
  intros [|] _; [apply safe_incr|]. eapply safe_bind; [apply safe_incr|]. intros _ _. apply safe_incr.
Qed.
End Inv.
End Engine.
