(* ===== verification/RunnerProps.v ===== *)
(** * Properties of the engine

    The engine as a state machine whose steps are the turns of its loops, and what
    holds of every run: no turn panics but one of the DNS loop on a packet cut short, the
    tables and queues stay within their limits, a selected packet never leaves directly and a direct one never enters the
    tunnel, and a reply comes back to the application that sent the packet. *)

From S2P Require Import Prelude Netip GoStrings Packet Segment Fragment Pieces Reassembly4 Reassembly6 NatMapper FlowIndex Snapshot Routes Config Tracker Policy Dns TlsHello BrowserDisc Windivert Runner RunnerSafe.
Local Open Scope Z_scope.

(** ** Checksums do not change how a packet parses *)
Section Round.
Context {DV : Divert}.
Lemma gb16_agree a b i : gb a i = gb b i → gb a (i + 1) = gb b (i + 1) → gb16 a i = gb16 b i.
Proof. intros H1 H2. unfold gb16. by rewrite H1, H2. Qed.
Lemma CalcChecksums_parse b b' p : bytes_ok b → Parse b = Ok p → CalcChecksums b = Ok b' → Parse b' = Ok p.
Proof.
  intros Hb HP E. pose proof (Parse_Ok b p Hb HP) as (Hv & Hr & Hpr & Heq).
  pose proof (CalcChecksums_bytes _ _ E Hb) as Hb'. pose proof (CalcChecksums_len _ _ E) as Hl.
  assert (Hag : ∀ i, 0 <= i → ¬ checksum_field p i → gb b' i = gb b i) by (intros i Hi Hn; exact (CalcChecksums_fields b b' p i E HP Hi Hn)).
  assert (Hh : ∀ i, 0 <= i < pL4 p → (pVersion p = 4 → i ≠ 10 ∧ i ≠ 11) → gb b' i = gb b i).
  { intros i Hi H1. apply Hag; [lia|]. unfold checksum_field. lia. }
  assert (H4 : ∀ i, pL4 p <= i < pL4 p + 4 → transport p = true → gb b' i = gb b i).
  { intros i Hi Ht. apply Hag; [lia|]. apply orb_true_iff in Ht. rewrite !Z.eqb_eq in Ht. unfold ProtoTCP, ProtoUDP in Ht. unfold checksum_field. lia. }
  assert (Ev : pVersion p = 4 ∨ pVersion p = 6) by (destruct Hv as [[]|[]]; auto).
  assert (Ht : total_of (pVersion p) (pL4 p) b' = total_of (pVersion p) (pL4 p) b).
  { unfold total_of, total6. rewrite Hl. destruct Ev as [Ev|Ev]; rewrite Ev; cbn [Z.eqb Pos.eqb].
    - rewrite (gb16_agree b' b 2) by (apply Hh; lia). done.
    - rewrite (gb16_agree b' b 4) by (apply Hh; lia). done. }
  assert (Es : packet_of (pVersion p) (pProtocol p) (pL4 p) b' = p).
  { rewrite Heq at 4. unfold packet_of. rewrite Ht.
    assert (src_of (pVersion p) b' = src_of (pVersion p) b ∧ dst_of (pVersion p) b' = dst_of (pVersion p) b) as [-> ->].
    { unfold src_of, dst_of. destruct Hv as [[Ev' Hl4]|[Ev' Hl4]]; rewrite Ev'; cbn [Z.eqb Pos.eqb]; split; f_equal; apply bsub_eq; try lia; intros; apply Hh; lia. }
    unfold ports_of. cbn [pProtocol pL4 pTotal]. destruct (_ && _) eqn:Ep; [|done].
    apply andb_true_iff in Ep as [Ep _]. rewrite !(gb16_agree b' b) by (apply H4; [lia|done]). done. }
  rewrite <- Es. apply (Parse_transfer b b' p); try done; [lia| |].
  - rewrite Ht. destruct (Packet_ok_fields b p (Parse_Ok b p Hb HP)) as (_ & _ & <-). lia.
  - intros i Hi Hf. apply Hh; [done|]. intros E4. split; intros ->; revert Hf; unfold hdr_fixed; by rewrite E4.
Qed.
End Round.

Section Engine.
Context {U : Unicode} {F : Platform} {DV : Divert} {DC : Decoders}.
Context (enum : gmap Z entry → list (Z * entry)) (genum : gset Z → list Z) (answers : nat → io) (processInfo : Z → Process).

(** ** The state machine *)
Inductive engine_turn : SR Runner unit → Prop :=
  | turn_capture env raw addr : pkt_ok raw → env_ok env → engine_turn (capture_step enum answers processInfo env raw addr)
  | turn_receive now raw : pkt_ok raw → engine_turn (receive_step answers now raw)
  | turn_send pick now outcome pc : (∀ x, returns (outcome x)) → engine_turn (_ ← send_step pick now outcome pc; mret tt)
  | turn_flow now ev : engine_turn (flow_event now ev)
  | turn_socket now ev : engine_turn (socket_event now ev)
  | turn_snapshot now t4 t6 u4 u6 : reply_ok t4 → reply_ok t6 → reply_ok u4 → reply_ok u6 →
      engine_turn (snapshot_step processInfo now t4 t6 u4 u6)
  | turn_dns now raw : bytes_ok raw → engine_turn (dns_step genum now raw)
  | turn_bootstrap clock resolver : engine_turn (bootstrap_step clock resolver)
  | turn_maintenance now : engine_turn (maintenance_step now)
  | turn_aggressive v : engine_turn (SetAggressiveDiscovery v).
(** A run from the state that [Start] builds; it goes on as long as the turns return. *)
Inductive engine_run (r0 : Runner) : Runner → Prop :=
  | run_start : engine_run r0 r0
  | run_turn r m : engine_run r0 r → engine_turn m → returns (snd (m r)) → engine_run r0 (fst (m r)).

Definition anything : list driver_call → list queuedPacket → list queuedPacket → Prop := fun _ _ _ => True.
(** The one turn that can die: a DNS turn on a packet that is cut short. *)
Definition dies (m : SR Runner unit) : Prop := ∃ now raw, m = dns_step genum now raw ∧ dns_truncated raw.
Lemma turn_safe cfg m : engine_turn m → safe (inv cfg anything) m (fun _ => True) ∨ dies m ∧ ∀ r, m r = (r, Panic).
Proof.
  intros H. destruct H.
  - left. by apply safe_capture.
  - left. by apply safe_receive.
  - left. eapply safe_bind; [by apply safe_send|]. intros _ _. by apply safe_ret.
  - left. apply safe_flow_event.
  - left. apply safe_socket_event.
  - left. by apply safe_snapshot.
  - destruct (dns_cases raw) as [Hd|Hd]; [left; by apply safe_dns|right]. split; [by exists now, raw|]. intros r. by apply dns_dies.
  - left. apply safe_bootstrap.
  - left. apply safe_maintenance.
  - left. apply safe_aggressive.
Qed.

Definition addresses_ok (cfg : Config) : Prop := Forall (fun p => Addr_ok (pfx_addr p)) (cAddresses cfg).
Lemma tunnel_addresses cfg : addresses_ok cfg → tunnels_ok (NatMapper.New (fst (TunnelIPv4 cfg)) (fst (TunnelIPv6 cfg))).
Proof.
  intros Ha. unfold tunnels_ok, TunnelIPv4, TunnelIPv6. cbn [m_v4 m_v6 NatMapper.New]. split.
  - destruct (List.find _ _) as [p|] eqn:E; [|by left]. apply find_some in E as [Hin Hp]. right. split; [done|].
    apply (Forall_elem _ _ p Ha). by apply list_elem_of_In.
  - destruct (List.find _ _) as [p|] eqn:E; [|by left]. apply find_some in E as [Hin Hp]. right. split; [done|].
    apply (Forall_elem _ _ p Ha). by apply list_elem_of_In.
Qed.
Lemma Start_ok cfg internal fid wgNew n1 n2 n3 now t4 t6 u4 u6 r :
  addresses_ok cfg → id_ok fid → reply_ok t4 → reply_ok t6 → reply_ok u4 → reply_ok u6 →
  Start processInfo (Some cfg) internal fid wgNew n1 n2 n3 now t4 t6 u4 u6 = Ok r → engine_ok r ∧ r_cfg r = cfg.
Proof.
  intros Ha Hf H1 H2 H3 H4 E. unfold Start in E.
  apply bind_Ok_inv in E as (priv & _ & E). apply bind_Ok_inv in E as (pub & _ & E). apply bind_Ok_inv in E as (psk & _ & E).
  do 4 apply bind_Ok_inv in E as (? & _ & E). cbv zeta in E. pose proof (tunnel_addresses cfg Ha) as Ht.
  destruct (TunnelIPv4 cfg) as [v4 b4], (TunnelIPv6 cfg) as [v6 b6].
  destruct (NewWithInternal_compiled cfg (Some (Tracker.New (cGroups cfg))) internal) as (e & Ee & Hc & Hcfg & _). rewrite Ee, bind_Ok in E.
  destruct (snapshot_all_run processInfo now t4 t6 u4 u6 H1 H2 H3 H4) as (s & Es & _). unfold SnapshotExisting in E. rewrite Es, !bind_Ok in E.
  injection E as <-. split; [|done]. split; cbn; try done.
  - by apply (index_wf_sockets FlowIndex.New); [..|apply index_New_wf].
Qed.
Lemma engine_run_ok r0 r : engine_ok r0 → engine_run r0 r → engine_ok r ∧ r_cfg r = r_cfg r0.
Proof.
  intros H0 H. induction H as [|r m _ [IH1 IH2] Hm Hret]; [done|].
  destruct (turn_safe (r_cfg r0) m Hm) as [Hs|[_ Hd]]; [|by rewrite Hd in Hret].
  destruct (Hs r (conj IH1 (conj IH2 I))) as [(H1 & H2 & _) _]. done.
Qed.


(** ** Classification

    The decision for a flow as a function of the tables: the hostname proxy's choice,
    else the route the flow already has, else the policy for its owner. *)
Definition owner_of (env : capture_env) (p : Packet) (r : Runner) : option Process :=
  match FlowIndex.Lookup enum (key_of p) (r_flows r) with
  | Some e => Some (eP e)
  | None =>
      match CouldTunnelWithoutProcess (ce_now env) (pDst p) (policy_of r) with
      | Ok false =>
          match WaitLookup enum (key_of p) (r_flows r) (ce_wakeups env) with
          | Some e => Some (eP e)
          | None => match ResolveSocketOwner processInfo (ce_table env) (key_of p) with Ok o => o | _ => None end
          end
      | _ => None
      end
  end.
Definition policy_choice (now : Z) (o : option Process) (dst : Addr) (r : Runner) : bool :=
  match o, IsInternal (default Process0 o) (policy_of r) with
  | Some _, Ok true => false
  | _, _ => match Decide now (default Process0 o) dst (policy_of r) with Ok d => dTunnel d | _ => false end
  end.
Definition chosen (env : capture_env) (p : Packet) (r : Runner) : bool :=
  match r_proxyRoutes r !! ProxyRoute.proxyKeyFromFlow (key_of p) with
  | Some e => ProxyRoute.peTunnel e
  | None =>
      match r_routes r !! key_of p with
      | Some e => FlowRoute.frTunnel e
      | None => policy_choice (ce_now env) (owner_of env p r) (pDst p) r
      end
  end.

(** The flow has an entry in one of the tables. *)
Definition known (p : Packet) (r : Runner) : Prop :=
  is_Some (r_proxyRoutes r !! ProxyRoute.proxyKeyFromFlow (key_of p)) ∨ is_Some (r_routes r !! key_of p).

(** The part of the runner that classification leaves alone. *)
Definition rest (r : Runner) := (r_nat r, r_urgent r, r_bulk r, r_calls r, r_cfg r).

Lemma attribute_run env p r : engine_ok r → env_ok env →
  ∃ r', attribute enum processInfo env (key_of p) p r = (r', Ok (owner_of env p r)) ∧
    r_routes r' = r_routes r ∧ r_proxyRoutes r' = r_proxyRoutes r ∧ policy_of r' = policy_of r ∧ rest r' = rest r.
Proof.
  intros Hr [Hw Ht]. unfold attribute, owner_of. unfold mbind at 1, SR_bind at 1, sget. cbv beta iota zeta.
  destruct (queries_scan (ce_now env) Process0 (pDst p) (policy_of r) (compiled_domains _ _ (ok_policy r Hr))) as (Eq & _).
  unfold mbind at 1, SR_bind at 1, liftR. rewrite Eq. cbv beta iota.
  destruct (FlowIndex.Lookup enum (key_of p) (r_flows r)) as [e|]; [by exists r|]. cbn [fmap option_fmap option_map].
  destruct (found _); [by exists r|].
  unfold mbind, SR_bind, waitLookup. cbv beta iota. destruct (WaitLookup _ _ _ _) as [e|]; [by eexists|].
  cbn [fmap option_fmap option_map]. destruct (ResolveSocketOwner_returns processInfo (ce_table env) (key_of p) Ht) as [o Eo]. unfold liftR. rewrite Eo. by eexists.
Qed.
Lemma decide_first_run env p o r : engine_ok r → r_routes r !! key_of p = None →
  ∃ r' rt, decide_first env (key_of p) p o r = (r', Ok rt) ∧ dTunnel (rt_d rt) = policy_choice (ce_now env) o (pDst p) r ∧
    r_proxyRoutes r' = r_proxyRoutes r ∧ rest r' = rest r ∧
    r_routes r' !! key_of p = Some (FlowRoute.mkFlowRoute (dTunnel (rt_d rt)) (default Process0 o) (bool_decide (is_Some o)) (ce_now env)).
Proof.
  intros Hr Hn. unfold decide_first, policy_choice. cbv zeta. unfold mbind at 1, SR_bind at 1, incr, add. cbv beta iota.
  unfold mbind at 1, SR_bind at 1, sget. cbv beta iota. set (c := if match o with Some _ => true | None => false end then _ else _).
  change (policy_of (add_stat c 1 r)) with (policy_of r).
  destruct (IsInternal_returns (default Process0 o) (policy_of r)) as [internal Ei].
  pose proof (Decide_scan (ce_now env) (default Process0 o) (pDst p) (policy_of r) (compiled_domains _ _ (ok_policy r Hr))) as Ed. rewrite Ei, Ed.
  set (d := ip_decision _) in *.
  assert (Hs : ∀ dd : Decision, ∃ r' rt, (_ ← modify (fun r => set_routes r (FlowRoute.Set_ (ce_now env) (key_of p) (dTunnel dd) (default Process0 o)
        match o with Some _ => true | None => false end (r_routes r)));
      _ ← when (negb match o with Some _ => true | None => false end && negb (dTunnel dd)) (incr stickyUnknownDirect);
      mret (mkRoute (default Process0 o) match o with Some _ => true | None => false end dd true false)) (add_stat c 1 r) = (r', Ok rt) ∧
    rt_d rt = dd ∧ r_proxyRoutes r' = r_proxyRoutes r ∧ rest r' = rest r ∧
    r_routes r' !! key_of p = Some (FlowRoute.mkFlowRoute (dTunnel dd) (default Process0 o) (bool_decide (is_Some o)) (ce_now env))).
  { intros dd. unfold mbind, SR_bind, modify, when. cbv beta iota. cbn [r_routes add_stat set_stat set_routes]. unfold FlowRoute.Set_. rewrite Hn.
    destruct (_ && _); eexists _, _; (split; [reflexivity|]); cbn; rewrite lookup_insert_eq; by destruct o. }
  unfold mbind at 1, SR_bind at 1, liftR. destruct o as [proc|]; cbv delta [and_then]; cbv beta iota; [rewrite Ei|]; cbv beta iota.
  - unfold mbind at 1, SR_bind at 1. destruct internal; cbv beta iota.
    + destruct (Hs Decision0) as (r' & rt & E & Hd & H1 & H2 & H3). exists r', rt. by rewrite Hd.
    + destruct (Hs d) as (r' & rt & E & Hd & H1 & H2 & H3). exists r', rt. by rewrite Hd.
  - unfold mbind at 1, SR_bind at 1. cbv beta iota. destruct (Hs d) as (r' & rt & E & Hd & H1 & H2 & H3). exists r', rt. by rewrite Hd.
Qed.

Lemma classify_run env p r : engine_ok r → env_ok env →
  ∃ r' rt, classify enum processInfo env (key_of p) p r = (r', Ok rt) ∧ dTunnel (rt_d rt) = chosen env p r ∧ rest r' = rest r ∧
    (rt_first rt = true → ¬ known p r) ∧
    match r_proxyRoutes r' !! ProxyRoute.proxyKeyFromFlow (key_of p) with
    | Some e => ProxyRoute.peTunnel e = chosen env p r
    | None => ∃ e, r_routes r' !! key_of p = Some e ∧ FlowRoute.frTunnel e = chosen env p r
    end.
Proof.
  intros Hr He. unfold classify, chosen. cbv zeta. unfold mbind at 1, SR_bind at 1, zoom, ProxyRoute.Lookup. cbv beta zeta.
  destruct (r_proxyRoutes r !! ProxyRoute.proxyKeyFromFlow (key_of p)) as [pe|] eqn:Ep; cbv beta iota.
  - unfold mbind at 1, SR_bind at 1, FlowRoute.Lookup. cbv beta.
    destruct (r_routes _ !! key_of p) as [e|]; cbv beta iota; unfold mbind, SR_bind, modify; cbv beta iota; eexists _, _;
      (split; [reflexivity|]; split; [reflexivity|]; split; [reflexivity|]; split; [done|]; cbn; by rewrite lookup_insert_eq).
  - unfold mbind at 1, SR_bind at 1, FlowRoute.Lookup. cbv beta. cbn [r_routes set_proxyRoutes].
    destruct (r_routes r !! key_of p) as [e|] eqn:Er; cbv beta iota.
    + eexists _, _. split; [reflexivity|]. split; [reflexivity|]. split; [reflexivity|]. split; [done|]. cbn. rewrite Ep, lookup_insert_eq. by eexists.
    + replace (set_routes (set_proxyRoutes r (r_proxyRoutes r)) (r_routes r)) with r by by destruct r.
      destruct (attribute_run env p r Hr He) as (r1 & E1 & R1 & P1 & Q1 & T1). unfold mbind, SR_bind. rewrite E1. cbv beta iota.
      assert (Hr1 : engine_ok r1).
      { destruct (safe_attribute enum processInfo (r_cfg r) anything env (key_of p) p He r (conj Hr (conj eq_refl I))) as [(H1 & _) _]. by rewrite E1 in H1. }
      destruct (decide_first_run env p (owner_of env p r) r1 Hr1 ltac:(by rewrite R1)) as (r2 & rt & E2 & Hd & P2 & T2 & R2).
      exists r2, rt. split; [exact E2|]. assert (Hpc : policy_choice (ce_now env) (owner_of env p r) (pDst p) r1 = policy_choice (ce_now env) (owner_of env p r) (pDst p) r)
        by (unfold policy_choice; by rewrite Q1).
      rewrite Hpc in Hd. split; [done|]. split; [congruence|]. split; [intros _ [[? H]|[? H]]; congruence|]. rewrite P2, P1, Ep, R2. eexists. split; [done|]. done.
Qed.

(** ** What leaves, and where *)
(** What the rest of a turn sees of the runner: reassembly does not change it. *)
Definition view (r : Runner) := (r_proxyRoutes r, r_routes r, r_flows r, policy_of r, rest r).
Lemma chosen_view env p r r' : view r' = view r → chosen env p r' = chosen env p r.
Proof.
  unfold view. intros E. injection E as E1 E2 E3 E4 E5. unfold chosen, owner_of, policy_choice. rewrite E1, E2, E3.
  assert (policy_of r' = policy_of r) as -> by (unfold policy_of; congruence). done.
Qed.
Lemma takeOut_view r : view (takeOutTimeouts r) = view r.
Proof.
  unfold takeOutTimeouts. destruct (TakeExpired (r_out4 r)) as [t4 n4], (TakeExpired (r_out6 r)) as [t6 n6]. unfold noteFragmentTimeouts. by destruct (_ =? 0).
Qed.
Lemma reassemble_view now raw r : view (fst (reassembleOutbound now raw r)) = view r.
Proof.
  unfold reassembleOutbound, mbind, SR_bind, liftR. destruct (IsFragment raw) as [f| | |]; try done. destruct (negb f); [done|]. destruct (blen raw =? 0); [done|].
  unfold deferred. destruct (idx raw 0) as [b0| | |]; try exact (takeOut_view r). unfold zoom. destruct (_ =? 4); [|destruct (_ =? 6)].
  - destruct (PushInfo now raw (r_out4 r)) as [t a]. exact (takeOut_view (set_out4 r t)).
  - destruct (PushInfo6 now raw (r_out6 r)) as [t a]. exact (takeOut_view (set_out6 r t)).
  - exact (takeOut_view r).
Qed.
Lemma reassemble_stat now raw r c n : snd (reassembleOutbound now raw (add_stat c n r)) = snd (reassembleOutbound now raw r).
Proof.
  unfold reassembleOutbound, mbind, SR_bind, liftR. destruct (IsFragment raw) as [f| | |]; try done. destruct (negb f); [done|]. destruct (blen raw =? 0); [done|].
  unfold deferred. destruct (idx raw 0) as [b0| | |]; try done. unfold zoom. destruct (_ =? 4); [|destruct (_ =? 6)]; cbn [r_out4 r_out6 add_stat set_stat].
  - by destruct (PushInfo now raw (r_out4 r)).
  - by destruct (PushInfo6 now raw (r_out6 r)).
  - done.
Qed.
Lemma view_rest r r' : view r' = view r → r_nat r' = r_nat r ∧ r_urgent r' = r_urgent r ∧ r_bulk r' = r_bulk r ∧ r_calls r' = r_calls r ∧ r_cfg r' = r_cfg r.
Proof. intros E. apply (f_equal snd) in E. cbn in E. unfold rest in E. by injection E as ?????. Qed.
(** The datagram that a captured packet completes, if any: the packet itself, or what the
    fragments seen so far make together with it. *)
Definition datagram (now : Z) (raw : list Z) (r : Runner) : option (list Z * Result) :=
  match snd (reassembleOutbound now raw r) with
  | Ok frag => if rReady frag then Some (if rFragmented frag then rPacket frag else raw, frag) else None
  | _ => None
  end.
Lemma datagram_whole now raw r : IsFragment raw = Ok false → datagram now raw r = Some (raw, mkResult raw true false 0).
Proof. intros E. unfold datagram, reassembleOutbound, mbind, SR_bind, liftR. by rewrite E. Qed.
Lemma run_bind {A B} (m : SR Runner A) (f : A → SR Runner B) r r' a : m r = (r', Ok a) → (a ← m; f a) r = f a r'.
Proof. intros E. unfold mbind, SR_bind. by rewrite E. Qed.
Lemma attempt_Ok {A} (m : SR Runner A) r r' a : m r = (r', Ok a) → attempt m r = (r', Ok (inl a)).
Proof. intros E. unfold attempt. by rewrite E. Qed.
Lemma attempt_Err {A} (m : SR Runner A) r r' e : m r = (r', Err e) → attempt m r = (r', Ok (inr e)).
Proof. intros E. unfold attempt. by rewrite E. Qed.
(** What a turn of the capture loop comes down to. *)
Lemma capture_cases env raw addr r : engine_ok r → pkt_ok raw →
  ∃ r1, view r1 = view r ∧ engine_ok r1 ∧
  match datagram (ce_now env) raw r with
  | None => capture_step enum answers processInfo env raw addr r = (r1, Ok tt)
  | Some (whole, frag) => pkt_ok whole ∧ (rFragmented frag = false → whole = raw) ∧
      match Parse whole with
      | Ok p => capture_step enum answers processInfo env raw addr r =
                (rt ← classify enum processInfo env (key_of p) p; forward answers (ce_now env) whole addr frag p rt) r1
      | Err e => capture_step enum answers processInfo env raw addr r = unparsed answers whole addr frag e r1
      | _ => False
      end
  end.
Proof.
  intros Hr Hp. set (r0 := add_stat captured 1 r). assert (Hr0 : inv (r_cfg r) anything r0) by (apply inv_add_stat; by split).
  destruct (safe_reassembleOutbound (r_cfg r) anything (ce_now env) raw Hp r0 Hr0) as [Hr1 Hg].
  pose proof (reassemble_view (ce_now env) raw r0) as Hv. change (view r0) with (view r) in Hv.
  unfold datagram. rewrite <- (reassemble_stat (ce_now env) raw r captured 1). fold r0.
  assert (E : capture_step enum answers processInfo env raw addr r =
    (f ← attempt (reassembleOutbound (ce_now env) raw); match f with
     | inr _ => _ ← incr fragErrors; incr dropped
     | inl frag =>
         if negb (rReady frag) then mret tt else
         _ ← when (rFragmented frag) (incr fragReassembled);
         let raw := if rFragmented frag then rPacket frag else raw in
         p ← attempt (liftR (Parse raw));
         match p with inr err => unparsed answers raw addr frag err | inl p => rt ← classify enum processInfo env (key_of p) p; forward answers (ce_now env) raw addr frag p rt end
     end) r0) by done.
  set (rhs := mbind _ _) in E. destruct (reassembleOutbound (ce_now env) raw r0) as [r1 [frag|e| |]] eqn:Er; cbn [fst snd] in *; try done.
  2:{ exists (add_stat dropped 1 (add_stat fragErrors 1 r1)). split; [done|]. split.
      - by destruct (inv_add_stat (r_cfg r) anything _ dropped 1 (inv_add_stat _ _ _ fragErrors 1 Hr1)).
      - rewrite E. unfold rhs. by rewrite (run_bind _ _ _ _ _ (attempt_Err _ _ _ _ Er)). }
  unfold rhs in E. rewrite (run_bind _ _ _ _ _ (attempt_Ok _ _ _ _ Er)) in E.
  destruct (rReady frag) eqn:Erd; cbn [negb] in E; [|exists r1; by destruct Hr1].
  set (r2 := if rFragmented frag then add_stat fragReassembled 1 r1 else r1).
  assert (Hr2 : view r2 = view r ∧ engine_ok r2)
    by (unfold r2; destruct (rFragmented frag); [split; [done|by destruct (inv_add_stat (r_cfg r) anything _ fragReassembled 1 Hr1)]|by destruct Hr1]).
  exists r2. split; [apply Hr2|]. split; [apply Hr2|]. set (whole := if rFragmented frag then rPacket frag else raw) in *.
  assert (Hw : pkt_ok whole) by (unfold whole; destruct (rFragmented frag); [by apply Hg|done]). split; [done|]. split; [unfold whole; by intros ->|].
  assert (Ew : when (rFragmented frag) (incr fragReassembled) r1 = (r2, Ok tt)) by (unfold r2; by destruct (rFragmented frag)).
  rewrite (run_bind _ _ _ _ _ Ew) in E. cbv zeta in E. rewrite E.
  pose proof (Parse_total whole (proj1 Hw)) as Ht. by destruct (Parse whole).
Qed.

Definition inbound (c : driver_call) : Prop := outbound (c_addr c) = false.
(** The calls a turn adds, all of them satisfying [P], with the queues untouched or not. *)
Definition adds (P : driver_call → Prop) (c0 c : list driver_call) : Prop := ∃ calls, c = c0 ++ calls ∧ Forall P calls.
Lemma adds_nil P c : adds P c c.
Proof. exists []. by rewrite app_nil_r. Qed.
Lemma adds_snoc P c0 c x : adds P c0 c → P x → adds P c0 (c ++ [x]).
Proof. intros (calls & -> & Hc) Hx. exists (calls ++ [x]). rewrite app_assoc. split; [done|]. apply Forall_app. split; [done|]. by constructor. Qed.

(** C2: No leak in either direction, for every captured packet, fragments included.  A
    fragment that does not complete a datagram, or that is refused, is not passed on at
    all.  When the datagram is complete (for an unfragmented packet: at once, and it is
    that packet) and its flow is routed through the tunnel, nothing is given to the
    network: whatever the turn does (queue it, split it, drop it, reset the connection),
    every packet it hands to the driver is addressed inbound, to the local stack.  When
    the flow is direct, nothing reaches the tunnel queues, and what the turn sends
    outwards, with the address the packet was captured with, is the unfragmented packet
    byte for byte, or the reassembled datagram with its checksums computed, whole or cut
    for the MTU its fragments had.  A packet that cannot be parsed, and so belongs to no
    flow, goes out byte for byte, or nowhere if it was reassembled. *)
Theorem capture_no_leak (env : capture_env) (raw : list Z) (addr : Address) (r : Runner) :
  engine_ok r → env_ok env → pkt_ok raw →
  let r' := fst (capture_step enum answers processInfo env raw addr r) in
  let queues_kept := r_urgent r' = r_urgent r ∧ r_bulk r' = r_bulk r in
  (IsFragment raw = Ok false → datagram (ce_now env) raw r = Some (raw, mkResult raw true false 0)) ∧
  match datagram (ce_now env) raw r with
  | None => r_calls r' = r_calls r ∧ queues_kept
  | Some (whole, frag) =>
      match Parse whole with
      | Ok p =>
          if chosen env p r then adds inbound (r_calls r) (r_calls r')
          else adds (fun c => inbound c ∨ c_addr c = addr ∧ direct_part whole frag (c_pkt c)) (r_calls r) (r_calls r') ∧ queues_kept
      | _ => adds (fun c => rFragmented frag = false ∧ c_addr c = addr ∧ c_pkt c = raw) (r_calls r) (r_calls r') ∧ queues_kept
      end
  end.
Proof.
  intros Hr He Hp. cbv zeta. split; [apply datagram_whole|].
  destruct (capture_cases env raw addr r Hr Hp) as (r1 & Hv & Hr1 & H). destruct (view_rest _ _ Hv) as (_ & Eu & Eb & Ec & Eg).
  destruct (datagram (ce_now env) raw r) as [[whole frag]|]; [|by rewrite H].
  destruct H as (Hw & Hraw & H). destruct (Parse whole) as [p|e| |] eqn:HP; try done; rewrite H; clear H.
  2:{ assert (Hdrop : adds (fun c => rFragmented frag = false ∧ c_addr c = addr ∧ c_pkt c = raw) (r_calls r) (r_calls r1) ∧ r_urgent r1 = r_urgent r ∧ r_bulk r1 = r_bulk r)
        by (rewrite Ec; split; [apply adds_nil|done]).
      unfold unparsed. destruct (rFragmented frag) eqn:Ef; [rewrite orb_true_r; exact Hdrop|]. rewrite orb_false_r.
      destruct (bool_decide _); [exact Hdrop|]. rewrite (Hraw eq_refl).
      set (K := fun c u b => adds (fun c => false = false ∧ c_addr c = addr ∧ c_pkt c = raw) (r_calls r) c ∧ u = r_urgent r ∧ b = r_bulk r).
      assert (HK : inv (r_cfg r) K r1) by (split; [done|]; split; [done|]; unfold K; rewrite Ec; split; [apply adds_nil|done]).
      assert (Hs : safe (inv (r_cfg r) K) (e ← attempt (Send answers raw addr); match e with inl _ => incr bypassed | inr _ => incr dropped end) (fun _ => True)).
      { eapply safe_bind; [apply safe_attempt, safe_Send|intros [|] _; apply safe_incr]. intros c u b a [H1 H2]. split; [by apply adds_snoc|done]. }
      destruct (Hs r1 HK) as [(_ & _ & Hk) _]. exact Hk. }
  destruct (classify_run env p r1 Hr1 He) as (r2 & rt & E & Hd & _). rewrite (chosen_view env p r r1 Hv) in Hd.
  assert (Hrun : ∀ K : list driver_call → list queuedPacket → list queuedPacket → Prop, K (r_calls r) (r_urgent r) (r_bulk r) →
    may_inject K → (dTunnel (rt_d rt) = false → may_direct K whole addr frag) → (dTunnel (rt_d rt) = true → may_queue K (cMTU (r_cfg r))) →
    inv (r_cfg r) K (fst ((rt ← classify enum processInfo env (key_of p) p; forward answers (ce_now env) whole addr frag p rt) r1))).
  { intros K HK Hi H1 H2. assert (Hk1 : inv (r_cfg r) K r1) by (split; [done|]; split; [done|]; by rewrite Ec, Eu, Eb).
    destruct (safe_classify enum processInfo (r_cfg r) K env (key_of p) p He r1 Hk1) as [Hk _].
    unfold mbind, SR_bind. rewrite E in *. cbn [fst] in Hk. by apply (safe_forward answers (r_cfg r) K (ce_now env) whole addr frag p rt Hw HP Hi H1 H2). }
  rewrite <- Hd. destruct (dTunnel (rt_d rt)).
  - destruct (Hrun (fun c _ _ => adds inbound (r_calls r) c)) as (_ & _ & HK); [apply adds_nil| |done|by intros _ c u b x HK _|done].
    intros pkt m v6 c u b a HK. apply adds_snoc; [done|]. apply NewInboundAddress_inbound.
  - destruct (Hrun (fun c u b => adds (fun c => inbound c ∨ c_addr c = addr ∧ direct_part whole frag (c_pkt c)) (r_calls r) c ∧ u = r_urgent r ∧ b = r_bulk r))
      as (_ & _ & HK); [split; [apply adds_nil|done]| | |done|done].
    + intros pkt m v6 c u b a [HK Hq]. split; [|done]. apply adds_snoc; [done|]. left. apply NewInboundAddress_inbound.
    + intros _ pkt Hpk c u b a [HK Hq]. split; [|done]. apply adds_snoc; [done|]. by right.
Qed.

(** ** There and back *)
Lemma when_rest b c r : ∃ r', when b (incr c) r = (r', Ok tt) ∧ rest r' = rest r ∧ r_fragmentID r' = r_fragmentID r.
Proof. destruct b; by eexists. Qed.
(** Discovery never consumes a packet that is going into the tunnel. *)
Lemma discover_tunnel now key raw addr p rt r : engine_ok r → dTunnel (rt_d rt) = true →
  ∃ r', discover answers now key raw addr p rt r = (r', Ok false) ∧ rest r' = rest r ∧ r_fragmentID r' = r_fragmentID r.
Proof.
  intros Hr Ht. unfold discover. rewrite Ht. cbn [negb]. unfold mbind at 1, SR_bind at 1, sget. cbv beta iota zeta.
  destruct (queries_scan now (rt_proc rt) (pDst p) (policy_of r) (compiled_domains _ _ (ok_policy r Hr))) as (_ & E1 & E2 & E3).
  destruct (and_then_returns (negb (rt_proxyKnown rt) && rt_ok rt) _ (IsInternal_returns (rt_proc rt) (policy_of r))) as [internal Ei].
  unfold mbind at 1, SR_bind at 1, liftR at 1. rewrite Ei. cbv beta iota.
  destruct (and_then_returns (negb (rt_proxyKnown rt) && rt_ok rt && negb internal) _ (ex_intro _ _ E1)) as [nh En].
  unfold mbind at 1, SR_bind at 1, liftR at 1. rewrite En. cbv beta iota.
  destruct (and_then_returns (r_aggressive r) _ (ex_intro _ _ E2)) as [ag Ea].
  unfold mbind at 1, SR_bind at 1, liftR at 1. rewrite Ea. cbv beta iota.
  set (tls := nh && _ && _). set (quic := ag && _ && _ && _).
  destruct (when_rest (tls || quic) discoveryPackets r) as (r1 & W1 & R1 & F1). unfold mbind at 1, SR_bind at 1. rewrite W1. cbv beta iota.
  destruct (and_then_returns tls _ (ex_intro _ _ E3)) as [kn Ek].
  unfold mbind at 1, SR_bind at 1, liftR at 1. rewrite Ek. cbv beta iota.
  destruct (when_rest kn domainMatches r1) as (r2 & W2 & R2 & F2). unfold mbind at 1, SR_bind at 1. rewrite W2. cbv beta iota.
  rewrite !andb_false_r. unfold mbind, SR_bind, mret, SR_ret. cbv beta iota. exists r2. split; [done|]. split; congruence.
Qed.

(** A reply to a translation in force is delivered. *)
Lemma RestoreInbound_bound now m p q tp meta reply :
  nat_wf m → bytes_ok reply → Parse reply = Ok q → has_ports q = true → bound m (out_key p) tp meta →
  in_key q = mkReply (pProtocol p) (pDst p) (tunnel_for m (pSrc p)) (pDstPort p) tp →
  ∃ m' reply', RestoreInbound now m reply = (m', reply', Ok (meta, true)) ∧ bytes_ok reply' ∧
    Parse reply' = Ok (with_ports (with_dst q (pSrc p)) (pSrcPort q) (pSrcPort p)).
Proof.
  intros Hw Hb HQ Hp (l & mp & Hk & Hl & Htp & Hm) Hkey. pose proof (RestoreInbound_ok now m reply Hw Hb) as HR.
  destruct (nw_out m Hw _ _ Hk) as (mp' & Hl' & _ & _ & Hr). assert (mp' = mp) as -> by congruence.
  assert (Er : reply_of m (out_key p) (mpTunnelPort mp) = in_key q) by (rewrite Hkey, Htp; done). rewrite Er in Hr.
  destruct (RestoreInbound now m reply) as [[m' reply'] res] eqn:EQ. destruct HR as (_ & _ & Hb' & HR).
  destruct res as [[meta' []]|e| |]; try done.
  - destruct HR as (k & [(q' & l3 & mp3 & D1 & D2 & D3 & D4 & D5 & D6)]). assert (q' = q) as -> by congruence.
    destruct (nw_out m Hw _ _ D2) as (x & Hx & _ & _ & Hr3). assert (x = mp3) as -> by congruence. rewrite <- D4 in Hr3.
    assert (l3 = l) as -> by congruence. assert (mp3 = mp) as -> by congruence.
    assert (k = out_key p) as -> by (apply (nat_wf_separate m k (out_key p) l l mp mp); try done; congruence).
    exists m', reply'. rewrite D5, Hm. split; [done|]. split; [done|]. by apply D6.
  - destruct HR as (_ & _ & HR). assert (Ht : transport q = true) by (unfold has_ports in Hp; by destruct (transport q)).
    rewrite (HR q HQ Ht) in Hr. done.
  - rewrite HQ in HR. congruence.
Qed.

(** The checksum helper succeeds (it fails only when the DLL cannot be called). *)
Definition helper_works : Prop := ∀ b, ∃ b', CalcChecksums b = Ok b'.
Definition meta_of (addr : Address) : Meta := mkMeta (nmIfIdx (NetworkMeta_of addr)) (nmSubIfIdx (NetworkMeta_of addr)).
(** The packet entered the queue of its class. *)
Definition queued (p : Packet) (q : list Z) (now : Z) (r r' : Runner) : Prop :=
  if pProtocol p =? ProtoUDP then r_urgent r' = r_urgent r ++ [mkQueued q now] ∧ r_bulk r' = r_bulk r
  else r_urgent r' = r_urgent r ∧ r_bulk r' = r_bulk r ++ [mkQueued q now].
Definition room (p : Packet) (r : Runner) : Prop :=
  if pProtocol p =? ProtoUDP then blen (r_urgent r) < urgent_cap else blen (r_bulk r) < bulk_cap.

Lemma enqueue_run now p seg r : room p r →
  ∃ r', enqueue now (pProtocol p =? ProtoUDP) seg r = (r', Ok tt) ∧ queued p seg now r r' ∧ r_nat r' = r_nat r ∧ r_calls r' = r_calls r.
Proof.
  unfold room, enqueue, queued. cbv zeta. destruct (pProtocol p =? ProtoUDP); intros Hr; rewrite (proj2 (Z.ltb_lt _ _) Hr); by eexists.
Qed.
Lemma tunnel_run now raw addr p r : helper_works → engine_ok r → bytes_ok raw → Parse raw = Ok p → has_ports p = true →
  ¬ out_refused (r_nat r) raw → blen raw <= cMTU (r_cfg r) → room p r →
  ∃ r' q tp, tunnel now raw addr p r = (r', Ok tt) ∧ queued p q now r r' ∧ r_calls r' = r_calls r ∧
    Parse q = Ok (with_ports (with_src p (tunnel_for (r_nat r) (pSrc p))) tp (pDstPort p)) ∧
    bound (r_nat r') (out_key p) tp (meta_of addr).
Proof.
  intros Hh Hr Hb HP Hpo Href Hmtu Hroom. unfold tunnel. cbv zeta. fold (meta_of addr).
  pose proof (PrepareOutbound_ok now (r_nat r) raw (meta_of addr) (ok_nat r Hr) (ok_tunnels r Hr) Hb) as H.
  unfold mbind at 1, SR_bind at 1, natOutbound.
  destruct (PrepareOutbound now (r_nat r) raw (meta_of addr)) as [[m cp] res] eqn:E. destruct H as (_ & _ & Hb1 & H).
  destruct res as [meta'|e| |]; try done. destruct H as [-> (p' & tp & [S1 S2 S3 S4 S5])]. assert (p' = p) as -> by congruence. specialize (S5 Hpo).
  destruct (PrepareOutbound_rewritten now (r_nat r) raw p _ m cp _ (ok_tunnels r Hr) Hb HP E) as (_ & [Hl1 _] & _).
  cbv beta iota. unfold mbind at 1, SR_bind at 1, sget. cbv beta iota. cbn [r_cfg set_nat].
  destruct (clamp_spec (cMTU (r_cfg r)) (pVersion p) cp _ Hb1 S5) as (cp2 & E2 & Hb2 & HP2 & [Hl2 _]).
  unfold mbind at 1, SR_bind at 1, liftR at 1. rewrite E2. cbv beta iota. destruct (Hh cp2) as [q Eq].
  unfold mbind at 1, SR_bind at 1, attempt, prepareTunnelPackets. unfold mbind at 1, SR_bind at 1, sget. cbv beta iota zeta. cbn [r_cfg set_nat].
  rewrite (proj2 (Z.leb_le (blen cp2) (cMTU (r_cfg r)))) by lia. unfold mbind at 1, SR_bind at 1, liftR. rewrite Eq. unfold mret at 1, SR_ret at 1. cbv beta iota.
  unfold mbind at 1, SR_bind at 1, when, mret at 1, SR_ret at 1. cbv beta iota. cbn [enqueue_all].
  destruct (enqueue_run now p q (set_nat r m) Hroom) as (r' & E3 & Hq & Hn & Hc). unfold mbind, SR_bind. rewrite E3.
  exists r', q, tp. split; [done|]. split; [exact Hq|]. split; [exact Hc|]. split; [|by rewrite Hn].
  apply (CalcChecksums_parse cp2 q); [done|congruence|done].
Qed.

(** The driver calls a turn adds. *)
Lemma receive_run now r p tp meta reply q :
  helper_works → engine_ok r → pkt_ok reply → IsFragment reply = Ok false → Parse reply = Ok q → has_ports q = true →
  bound (r_nat r) (out_key p) tp meta →
  in_key q = mkReply (pProtocol p) (pDst p) (tunnel_for (r_nat r) (pSrc p)) (pDstPort p) tp →
  ∃ pkt, r_calls (fst (receive_step answers now reply r)) =
           r_calls r ++ [mkCall pkt (NewInboundAddress (mkNetMeta (IfIdx meta) (SubIfIdx meta)) (pVersion q =? 6)) (answers (length (r_calls r)))] ∧
         Parse pkt = Ok (with_ports (with_dst q (pSrc p)) (pSrcPort q) (pSrcPort p)).
Proof.
  intros Hh Hr [Hb _] Ef HQ Hp Hbd Hkey. pose proof (Parse_Ok reply q Hb HQ) as (Hv & Ht & _).
  destruct (RestoreInbound_bound now (r_nat r) p q tp meta reply (ok_nat r Hr) Hb HQ Hp Hbd Hkey) as (m & cp & E & Hb1 & HP1).
  set (p1 := with_ports _ _ _) in HP1. pose proof (Parse_Ok cp p1 Hb1 HP1) as (Hv1 & Ht1 & _).
  unfold receive_step. rewrite (proj2 (Z.eqb_neq (blen reply) 0)) by lia.
  unfold mbind at 1, SR_bind at 1, attempt at 1, reassembleInbound. unfold mbind at 1, SR_bind at 1, liftR at 1. rewrite Ef. cbn [negb]. unfold mret at 1, SR_ret at 1. cbv beta iota.
  cbn [rReady negb rFragmented rPacket when]. unfold mbind at 1, SR_bind at 1, mret at 1, SR_ret at 1. cbv beta iota zeta.
  unfold mbind at 1, SR_bind at 1, attempt at 1, liftR at 1. rewrite HQ. cbv beta iota.
  set (b := negb _ && negb _). destruct (when_rest b inboundOther r) as (r1 & W1 & R1 & _). unfold rest in R1. injection R1 as Rn Ru Rb Rc Rg.
  unfold mbind at 1, SR_bind at 1. rewrite W1. cbv beta iota. unfold mbind at 1, SR_bind at 1, natInbound at 1. rewrite Rn, E. cbv beta iota. cbn [negb].
  unfold mbind at 1, SR_bind at 1, attempt at 1, liftR at 1. rewrite HP1. cbv beta iota.
  unfold inject. cbv zeta. cbn [rFragmented andb]. unfold mbind at 1, SR_bind at 1, sget at 1. cbv beta iota. cbn [r_cfg set_nat].
  destruct (clamp_spec (cMTU (r_cfg r1)) (pVersion p1) cp p1 Hb1 HP1) as (cp2 & E2 & Hb2 & HP2 & [Hl2 _]).
  unfold mbind at 1, SR_bind at 1, liftR at 1. rewrite E2. cbv beta iota. destruct (Hh cp2) as [pkt Ep].
  assert (HPp : Parse pkt = Ok p1) by (apply (CalcChecksums_parse cp2 pkt); [done|congruence|done]).
  pose proof (CalcChecksums_len _ _ Ep) as Hlp.
  unfold mbind at 1, SR_bind at 1, attempt at 1, liftR at 1. rewrite Ep. cbv beta iota.
  unfold mbind at 1, SR_bind at 1, mret at 1, SR_ret at 1. cbv beta iota. cbn [send_parts].
  exists pkt. split; [|done]. unfold mbind at 1, SR_bind at 1, attempt, mbind at 1, SR_bind at 1, Send.
  rewrite (proj2 (Z.eqb_neq (blen pkt) 0)) by lia. cbn [r_calls set_nat set_calls]. rewrite Rc.
  replace (pVersion p1) with (pVersion q) by done.
  unfold Windivert.Send. rewrite (proj2 (Z.eqb_neq (blen pkt) 0)) by lia.
  destruct (negb (io_ok _)); [reflexivity|]. destruct (negb (io_n _ =? _)); [reflexivity|]. unfold mbind, SR_bind, incr, add, mret, SR_ret. reflexivity.
Qed.

(** The packet opens a connection or belongs to none. *)
Definition opens (raw : list Z) (p : Packet) : Prop := pProtocol p = ProtoUDP ∨ IsTCPSYN raw = Ok true.
Lemma forward_tunnel now raw addr frag p rt r : helper_works → engine_ok r → bytes_ok raw → Parse raw = Ok p → has_ports p = true → rt_first rt = false ∨ opens raw p →
  dTunnel (rt_d rt) = true → ¬ out_refused (r_nat r) raw → blen raw <= cMTU (r_cfg r) → room p r →
  ∃ r' q tp, forward answers now raw addr frag p rt r = (r', Ok tt) ∧ queued p q now r r' ∧ r_calls r' = r_calls r ∧
    Parse q = Ok (with_ports (with_src p (tunnel_for (r_nat r) (pSrc p))) tp (pDstPort p)) ∧
    bound (r_nat r') (out_key p) tp (meta_of addr).
Proof.
  intros Hh Hr Hb HP Hpo Hop Ht Href Hmtu Hroom. unfold forward. cbv zeta.
  destruct (discover_tunnel now (key_of p) raw addr p rt r Hr Ht) as (r1 & E1 & R1 & F1). unfold rest in R1. injection R1 as Rn Ru Rb Rc Rg.
  assert (Hr1 : engine_ok r1).
  { assert (Hi : may_inject anything) by done.
    destruct (safe_discover answers (r_cfg r) anything now (key_of p) raw addr p rt Hi Hb r (conj Hr (conj eq_refl I))) as [(H1 & _) _]. by rewrite E1 in H1. }
  unfold mbind at 1, SR_bind at 1. rewrite E1, Ht. cbv beta iota. cbn [negb].
  assert (Hsyn : ∃ b, and_then (rt_first rt && (pProtocol p =? ProtoTCP)) (IsTCPSYN raw) = Ok b ∧ rt_first rt && (pProtocol p =? ProtoTCP) && negb b = false).
  { destruct Hop as [Hf|[Hu|Hs]].
    - rewrite Hf. by eexists.
    - exists false. rewrite Hu. cbn. by rewrite andb_false_r.
    - rewrite Hs. destruct (rt_first rt && _); by eexists. }
  destruct Hsyn as (syn & Es & Hn). unfold mbind at 1, SR_bind at 1, liftR. rewrite Es. cbv beta iota. rewrite Hn.
  assert (Hroom1 : room p r1) by (unfold room; by rewrite Ru, Rb).
  destruct (tunnel_run now raw addr p r1 Hh Hr1 Hb HP Hpo) as (r' & q & tp & E & Hq & Hc & HPq & Hbd); try done; [by rewrite Rn|by rewrite Rg|].
  exists r', q, tp. rewrite Rn in HPq. split; [done|]. split; [|split; [congruence|done]].
  unfold queued in *. by rewrite Ru, Rb in Hq.
Qed.

(** C1: There and back, through the whole engine.  When a captured packet completes a
    datagram (it is unfragmented, or the last fragment) of a flow that goes through the
    tunnel, it has ports, fits the MTU and is one the translator accepts (a tunnel
    address of its family, a free port), the checksum helper works and the queue has
    room, then it is queued for WireGuard, in the queue of its class and nowhere else,
    with the tunnel address and some tunnel port as its source and everything else that
    [Parse] reads as it was; nothing is given to the network.  This holds of every UDP datagram, and of a TCP segment if it opens the
    connection or belongs to a flow that is already known (any other segment is answered
    with a reset).  And as long as that translation is in force, an unfragmented reply
    that arrives from the tunnel for that address and port is handed to the local stack,
    as an inbound packet on the interface of the translation, addressed to the
    application's own address and port.  (What becomes of datagrams longer than the MTU
    is the subject of the theorems on segmentation and fragmentation.) *)
Theorem engine_roundtrip (env : capture_env) (raw whole : list Z) (frag : Result) (addr : Address) (p : Packet) (r : Runner) :
  helper_works → engine_ok r → env_ok env → pkt_ok raw → datagram (ce_now env) raw r = Some (whole, frag) → Parse whole = Ok p → has_ports p = true →
  known p r ∨ opens whole p →
  chosen env p r = true → ¬ out_refused (r_nat r) whole → blen whole <= cMTU (r_cfg r) → room p r →
  ∃ r' q tp, capture_step enum answers processInfo env raw addr r = (r', Ok tt) ∧
    queued p q (ce_now env) r r' ∧ r_calls r' = r_calls r ∧
    Parse q = Ok (with_ports (with_src p (tunnel_for (r_nat r) (pSrc p))) tp (pDstPort p)) ∧
    bound (r_nat r') (out_key p) tp (meta_of addr) ∧
    ∀ now r2 meta reply pr, engine_ok r2 → bound (r_nat r2) (out_key p) tp meta → tunnel_for (r_nat r2) (pSrc p) = tunnel_for (r_nat r) (pSrc p) →
      pkt_ok reply → IsFragment reply = Ok false → Parse reply = Ok pr → has_ports pr = true →
      in_key pr = mkReply (pProtocol p) (pDst p) (tunnel_for (r_nat r) (pSrc p)) (pDstPort p) tp →
      ∃ pkt, r_calls (fst (receive_step answers now reply r2)) =
          r_calls r2 ++ [mkCall pkt (NewInboundAddress (mkNetMeta (IfIdx meta) (SubIfIdx meta)) (pVersion pr =? 6)) (answers (length (r_calls r2)))] ∧
        Parse pkt = Ok (with_ports (with_dst pr (pSrc p)) (pSrcPort pr) (pSrcPort p)).
Proof.
  intros Hh Hr He Hp Ed HP Hpo Hop Hch Href Hmtu Hroom.
  destruct (capture_cases env raw addr r Hr Hp) as (r0 & Hv & Hr0 & H). rewrite Ed in H. destruct H as (Hw & _ & H). rewrite HP in H. rewrite H. clear H.
  destruct (classify_run env p _ Hr0 He) as (r1 & rt & E1 & Hd & R1 & Hf & _). rewrite (chosen_view env p r r0 Hv), Hch in Hd.
  destruct (view_rest _ _ Hv) as (V3 & V4 & V5 & V6 & V7). pose proof (f_equal (fun v => fst (fst (fst (fst v)))) Hv : r_proxyRoutes r0 = r_proxyRoutes r) as V1.
  pose proof (f_equal (fun v => snd (fst (fst (fst v)))) Hv : r_routes r0 = r_routes r) as V2. unfold rest in R1. injection R1 as Rn Ru Rb Rc Rg.
  assert (Hop' : rt_first rt = false ∨ opens whole p).
  { destruct Hop as [Hk|Ho]; [left|by right]. apply Bool.not_true_is_false. intros Eft. apply (Hf Eft). unfold known in *. by rewrite V1, V2. }
  assert (Hr1 : engine_ok r1).
  { destruct (safe_classify enum processInfo (r_cfg r0) anything env (key_of p) p He _ (conj Hr0 (conj eq_refl I))) as [(H1 & _) _]. by rewrite E1 in H1. }
  unfold mbind, SR_bind. rewrite E1.
  assert (Hroom1 : room p r1) by (unfold room; by rewrite Ru, Rb, V4, V5).
  destruct (forward_tunnel (ce_now env) whole addr frag p rt r1 Hh Hr1 (proj1 Hw) HP Hpo Hop' Hd) as (r' & q & tp & E & Hq & Hc & HPq & Hbd);
    [by rewrite Rn, V3|by rewrite Rg, V7|done|].
  exists r', q, tp. rewrite Rn, V3 in HPq. split; [done|]. split; [unfold queued in *; by rewrite Ru, Rb, V4, V5 in Hq|]. split; [congruence|]. split; [done|]. split; [done|].
  intros now r2 meta reply pr Hr2 Hb2 Ht2 Hpr Efr HPr Hppr Hkey. apply (receive_run now r2 p tp meta reply pr); try done. by rewrite Ht2.
Qed.
End Engine.

(** ** A concrete engine

    One rule, which selects every program for the network 1.1.1.0/24; the tunnel
    address is 10.66.66.20.  The checksum helper of the witnesses leaves the packet
    as it is, and the base64 decoder answers 32 zero bytes. *)
#[local] Existing Instance ascii_unicode.
#[local] Existing Instance posix.
#[local, program] Instance id_divert : Divert := {| calc_helper b := Ok b |}.
Next Obligation. done. Qed.
Next Obligation. by intros b b' [= <-]. Qed.
Next Obligation. by intros b b' [= <-]. Qed.
Next Obligation. by intros b b' p i [= <-]. Qed.
#[local] Instance zero_decoders : Decoders :=
  {| ParseAddr _ := None; ParsePrefix _ := None; Masked p := p; Unquote _ := None; Base64 _ := Some (zeros 32) |}.

Definition example_cfg : Config :=
  mkConfig (lit "k") [mkPrefix tun4 32] [] (mkPeer (lit "k") [] [] 0)
    [mkGroup (lit "g") [star] [lit "a.b"] [mkPrefix (Addr4 [1; 1; 1; 0]) 24]] [] 1380 60 false [].
Definition example_owner (pid : Z) : Process := Process0.
Definition example_start : Res Runner :=
  Start example_owner (Some example_cfg) [] 7 (fun _ _ _ => Ok tt) (Ok tt) (Ok tt) (Ok tt) 1 no_table no_table no_table no_table.
Definition example_runner : Runner := ltac:(let v := eval vm_compute in example_start in match v with Ok ?r => exact r end).
Lemma example_started : example_start = Ok example_runner.
Proof. vm_compute. reflexivity. Qed.
Lemma example_addresses : addresses_ok example_cfg.
Proof. constructor; [|constructor]. destruct tun4_ok as [H|[_ H]]; [discriminate|exact H]. Qed.
Lemma example_runner_ok : engine_ok example_runner.
Proof.
  apply (Start_ok example_owner example_cfg [] 7 (fun _ _ _ => Ok tt) (Ok tt) (Ok tt) (Ok tt) 1 no_table no_table no_table no_table example_runner
    example_addresses); try apply no_table_ok; [done|apply example_started].
Qed.
Definition example_env : capture_env := mkEnv 5 [] no_table.
Lemma example_env_ok : env_ok example_env.
Proof. split; [constructor|apply no_table_ok]. Qed.
Definition example_addr : Address := NewInboundAddress (mkNetMeta 3 1) false.
Definition udp_packet : Packet := mkPacket 4 17 (Addr4 [10; 0; 0; 2]) (Addr4 [1; 1; 1; 1]) 5000 53 20 32.
Definition udp_reply_packet : Packet := mkPacket 4 17 (Addr4 [1; 1; 1; 1]) (Addr4 [10; 66; 66; 20]) 53 5000 20 32.
Definition accept (n : nat) : io := mkIo true 32.
Lemma udp_pkt_ok : pkt_ok udp_sample.
Proof. split; [apply udp_sample_ok|]. intros _. by vm_compute. Qed.
Lemma udp_reply_pkt_ok : pkt_ok udp_reply.
Proof. split; [by apply bytes_okb_ok|]. intros _. by vm_compute. Qed.
#[local] Abbreviation example_capture := (capture_step map_to_list accept example_owner example_env udp_sample example_addr).

Lemma example_captured : returns (snd (example_capture example_runner)).
Proof. vm_compute. exact I. Qed.


Lemma capture_no_leak_witness :
  adds inbound [] (r_calls (fst (example_capture example_runner))).
Proof.
  destruct (capture_no_leak map_to_list accept example_owner example_env udp_sample example_addr example_runner
    example_runner_ok example_env_ok udp_pkt_ok) as [Ed H].
  rewrite (Ed eq_refl) in H. exact H.
Defined.

Lemma engine_roundtrip_witness :
  ∃ pkt, r_calls (fst (receive_step accept 6 udp_reply (fst (example_capture example_runner)))) =
      [mkCall pkt (NewInboundAddress (mkNetMeta 3 1) false) (mkIo true 32)] ∧
    Parse pkt = Ok (mkPacket 4 17 (Addr4 [1; 1; 1; 1]) (Addr4 [10; 0; 0; 2]) 53 5000 20 32).
Proof.
  assert (Hh : helper_works) by (intros b; unfold CalcChecksums; destruct (blen b =? 0); eexists; reflexivity).
  assert (Hr2 : engine_ok (fst (example_capture example_runner))).
  { apply (engine_run_ok map_to_list elements accept example_owner example_runner); [exact example_runner_ok|].
    exact (run_turn _ _ _ _ example_runner example_runner example_capture (run_start _ _ _ _ _)
       (turn_capture _ _ _ _ example_env udp_sample example_addr udp_pkt_ok example_env_ok) example_captured). }
  destruct (engine_roundtrip map_to_list accept example_owner example_env udp_sample udp_sample (mkResult udp_sample true false 0) example_addr udp_packet
    example_runner Hh example_runner_ok example_env_ok udp_pkt_ok (datagram_whole 5 udp_sample example_runner eq_refl) eq_refl eq_refl (or_intror (or_introl eq_refl))) as (r' & q & tp & E & Hq & Hc & HP & Hb & Hback).
  - vm_compute. reflexivity.
  - intros [H|[H|[H|[_ H]]]]; [discriminate..|]. apply (H 5000 (or_introl eq_refl)). vm_compute. reflexivity.
  - vm_compute. discriminate.
  - vm_compute. reflexivity.
  - rewrite E in *. cbn [fst] in *.
    assert (tp = 5000) as ->.
    { assert (Hq' : r_urgent (fst (example_capture example_runner)) = [mkQueued
        [69; 0; 0; 32; 0; 7; 0; 0; 64; 17; 0; 0; 10; 66; 66; 20; 1; 1; 1; 1; 19; 136; 0; 53; 0; 12; 0; 0; 97; 98; 99; 100] 5])
        by (vm_compute; reflexivity).
      rewrite E in Hq'. cbn [fst] in Hq'. destruct Hq as [Hq _]. change (r_urgent example_runner) with (@nil queuedPacket) in Hq. rewrite Hq' in Hq.
      injection Hq as <-. vm_compute in HP. congruence. }
    assert (Ht : m_v4 (r_nat (fst (example_capture example_runner))) = tun4) by (vm_compute; reflexivity). rewrite E in Ht. cbn [fst] in Ht.
    destruct (Hback 6 r' (meta_of example_addr) udp_reply udp_reply_packet Hr2 Hb) as (pkt & H1 & H2);
      [exact Ht|exact udp_reply_pkt_ok|reflexivity..|].
    rewrite Hc in H1. exists pkt. split; [exact H1|exact H2].
Defined.
