(* ===== verification/RunnerSticky.v ===== *)
(** * A flow keeps its route

    What the turns of the engine do to the two tables that decide where a flow goes:
    the entry of a flow, once made, is never changed by a turn, and the turns that take
    it away are listed.  The correctness of classification is stated over whole runs. *)

From S2P Require Import Prelude Netip GoStrings Packet Segment Fragment Pieces Reassembly4 Reassembly6 NatMapper FlowIndex Snapshot Routes Config Tracker Policy Dns TlsHello BrowserDisc Windivert Runner RunnerSafe RunnerProps.
Local Open Scope Z_scope.
#[local] Existing Instance ProxyRoute.proxyRouteKey_eq_dec.
#[local] Existing Instance ProxyRoute.proxyRouteKey_countable.

(** ** What is recorded for a flow *)
Definition flow_choice (k : Key) (r : Runner) : option bool :=
  match r_proxyRoutes r !! ProxyRoute.proxyKeyFromFlow k with
  | Some e => Some (ProxyRoute.peTunnel e)
  | None => FlowRoute.frTunnel <$> r_routes r !! k
  end.
Definition leads (k : Key) (b : bool) (r : Runner) : Prop := flow_choice k r = Some b.
(** The entry is the one it was, or gone. *)
Definition leads_or_gone (k : Key) (b : bool) (r : Runner) : Prop := leads k b r ∨ flow_choice k r = None.
Definition tables (r : Runner) := (r_proxyRoutes r, r_routes r).
Definition on_tables (I : Runner → Prop) : Prop := ∀ r r', tables r' = tables r → I r → I r'.

Lemma flow_choice_tables k r r' : tables r' = tables r → flow_choice k r' = flow_choice k r.
Proof. unfold tables, flow_choice. by intros [= -> ->]. Qed.
Lemma leads_tables k b : on_tables (leads k b).
Proof. intros r r' E H. unfold leads. by rewrite (flow_choice_tables k r r' E). Qed.
Lemma gone_tables k b : on_tables (leads_or_gone k b).
Proof. intros r r' E H. unfold leads_or_gone, leads. by rewrite (flow_choice_tables k r r' E). Qed.
Lemma leads_entry k b r : leads k b r →
  match r_proxyRoutes r !! ProxyRoute.proxyKeyFromFlow k with
  | Some e => ProxyRoute.peTunnel e = b
  | None => ∃ e, r_routes r !! k = Some e ∧ FlowRoute.frTunnel e = b
  end.
Proof.
  unfold leads, flow_choice. destruct (r_proxyRoutes r !! _) as [e|]; [by intros [= ->]|].
  destruct (r_routes r !! k) as [e|]; [|done]. intros [= <-]. by exists e.
Qed.
Lemma chosen_leads {U : Unicode} {F : Platform} enum processInfo env p r b : leads (key_of p) b r → chosen enum processInfo env p r = b.
Proof. intros H. apply leads_entry in H. unfold chosen. destruct (r_proxyRoutes r !! _) as [e|]; [done|]. by destruct H as (e & -> & H). Qed.

(** ** Turns that do not touch the tables *)
Section Frame.
Context (I : Runner → Prop) (HI : on_tables I).
Lemma frame_at {A} (m : SR Runner A) : (∀ r, tables (fst (m r)) = tables r) → keeps I m.
Proof. intros H r Hr. exact (HI r _ (H r) Hr). Qed.
Lemma keeps_get : keeps I sget.
Proof. by intros r. Qed.
Lemma keeps_modify f : (∀ r, tables (f r) = tables r) → keeps I (modify f).
Proof. intros H. by apply frame_at. Qed.
Lemma keeps_zoom {S A} (get : Runner → S) set (m : SR S A) : (∀ r s, tables (set r s) = tables r) → keeps I (zoom get set m).
Proof. intros H. apply frame_at. intros r. unfold zoom. destruct (m (get r)). apply H. Qed.
Lemma keeps_attempt {A} (m : SR Runner A) : keeps I m → keeps I (attempt m).
Proof. intros H r Hr. specialize (H r Hr). unfold attempt. by destruct (m r) as [r' []]. Qed.
Lemma keeps_deferred {A} (m : SR Runner A) d : keeps I m → (∀ r, tables (d r) = tables r) → keeps I (deferred m d).
Proof. intros H Hd r Hr. specialize (H r Hr). unfold deferred. destruct (m r) as [r' a]. exact (HI _ _ (Hd r') H). Qed.
Lemma keeps_incr c : keeps I (incr c).
Proof. by apply frame_at. Qed.
Lemma keeps_updateMax c v : keeps I (updateMax c v).
Proof. by apply frame_at. Qed.
Lemma keeps_when b m : keeps I m → keeps I (when b m).
Proof. intros H. destruct b; [done|apply keeps_ret]. Qed.
Lemma takeOut_tables r : tables (takeOutTimeouts r) = tables r.
Proof. unfold takeOutTimeouts. destruct (TakeExpired _), (TakeExpired _). unfold noteFragmentTimeouts. by destruct (_ =? 0). Qed.
Lemma takeIn_tables r : tables (takeInTimeouts r) = tables r.
Proof. unfold takeInTimeouts. destruct (TakeExpired _), (TakeExpired _). unfold noteFragmentTimeouts. by destruct (_ =? 0). Qed.
Hint Resolve keeps_get keeps_incr keeps_updateMax : keeps.
Ltac frame :=
  repeat match goal with
  | |- keeps _ (mbind _ _) => apply keeps_bind; [|intros ?]
  | |- keeps _ (attempt _) => apply keeps_attempt
  | |- keeps _ (when _ _) => apply keeps_when
  | |- keeps _ (modify _) => apply keeps_modify; [by intros ?]
  | |- keeps _ (zoom _ _ _) => apply keeps_zoom; [by intros ? ?]
  | |- keeps _ (if ?b then _ else _) => destruct b
  | |- keeps _ (let '(_, _) := ?x in _) => destruct x
  | |- keeps _ (match ?x with _ => _ end) => destruct x
  | |- keeps _ (let _ := _ in _) => cbv zeta
  | |- _ => solve [auto with keeps]
  end.

Context {U : Unicode} {F : Platform} {DV : Divert}.
Context (enum : gmap Z entry → list (Z * entry)) (genum : gset Z → list Z) (answers : nat → io) (processInfo : Z → Process).
Lemma keeps_Send pkt addr : keeps I (Send answers pkt addr).
Proof. apply frame_at. intros r. unfold Send. by destruct (_ =? 0). Qed.
Hint Resolve keeps_Send : keeps.
Lemma keeps_send_parts parts addr c : keeps I (send_parts answers parts addr c).
Proof. induction parts as [|x parts IH]; cbn [send_parts]; frame. Qed.
Hint Resolve keeps_send_parts : keeps.
Lemma keeps_direct raw addr frag : keeps I (direct answers raw addr frag).
Proof. unfold direct, reinjectDirect. frame. Qed.
Lemma keeps_reset raw addr p : keeps I (resetBrowserTCP answers raw addr p).
Proof. unfold resetBrowserTCP. frame. Qed.
Hint Resolve keeps_direct keeps_reset : keeps.
Lemma keeps_enqueue now udp seg : keeps I (enqueue now udp seg).
Proof. apply frame_at. intros r. unfold enqueue. cbv zeta. destruct (_ <? _); [|done]. by destruct udp. Qed.
Lemma keeps_enqueue_all now udp segs : keeps I (enqueue_all now udp segs).
Proof. induction segs as [|x segs IH]; cbn [enqueue_all]; [apply keeps_ret|]. apply keeps_bind; [apply keeps_enqueue|done]. Qed.
Lemma keeps_natOutbound now cp meta : keeps I (natOutbound now cp meta).
Proof. apply frame_at. intros r. unfold natOutbound. by destruct (PrepareOutbound _ _ _ _) as [[? ?] []]. Qed.
Lemma keeps_natInbound now cp : keeps I (natInbound now cp).
Proof. apply frame_at. intros r. unfold natInbound. by destruct (RestoreInbound _ _ _) as [[? ?] []]. Qed.
Hint Resolve keeps_enqueue_all keeps_natOutbound keeps_natInbound : keeps.
Lemma keeps_tunnel now raw addr p : keeps I (tunnel now raw addr p).
Proof. unfold tunnel, prepareTunnelPackets. frame. Qed.
Hint Resolve keeps_tunnel : keeps.
Lemma keeps_reassembleInbound now raw : keeps I (reassembleInbound now raw).
Proof. unfold reassembleInbound. frame. apply keeps_deferred; [frame|apply takeIn_tables]. Qed.
Hint Resolve keeps_reassembleInbound : keeps.
Lemma keeps_receive now raw : keeps I (receive_step answers now raw).
Proof. unfold receive_step, inject. frame. Qed.
Lemma keeps_send pick now outcome pc : keeps I (send_step pick now outcome pc).
Proof.
  intros r Hr. unfold send_step. destruct (send_turn _ _ _ _) as [[[[pc' u] b] [q|]]|]; [| |done].
  - assert (Hk : keeps I (_ ← sendOne now q (outcome q); mret (pc', Some q))) by (unfold sendOne; frame). apply Hk. by apply (HI r).
  - by apply (HI r).
Qed.
Lemma keeps_socket now ev : keeps I (socket_event now ev).
Proof. unfold socket_event. frame. Qed.
Lemma keeps_snapshot now t4 t6 u4 u6 : keeps I (snapshot_step processInfo now t4 t6 u4 u6).
Proof. unfold snapshot_step. frame. Qed.
Lemma keeps_dns now raw : keeps I (dns_step genum now raw).
Proof. unfold dns_step. frame. Qed.
Lemma keeps_bootstrap clock resolver : keeps I (bootstrap_step clock resolver).
Proof. unfold bootstrap_step. frame. Qed.
Lemma keeps_aggressive v : keeps I (SetAggressiveDiscovery v).
Proof. unfold SetAggressiveDiscovery. frame. Qed.
Lemma keeps_waitLookup key ws : keeps I (waitLookup enum key ws).
Proof. by apply frame_at. Qed.
Hint Resolve keeps_waitLookup : keeps.
Lemma keeps_attribute env key p : keeps I (attribute enum processInfo env key p).
Proof. unfold attribute. frame. Qed.
(** Only the two resets delete a route. *)
Definition may_delete (key : Key) : Prop := ∀ r, I r → I (set_routes r (FlowRoute.Delete key (r_routes r))).
Lemma keeps_learn now key raw addr p rt : may_delete key → keeps I (learn answers now key raw addr p rt).
Proof. intros Hd. unfold learn. frame. Qed.
(** A packet of a direct flow that discovery may cut off, and one of a tunnelled flow
    that opens nothing: the connection is reset. *)
Definition resets (raw : list Z) (p : Packet) (rt : route) : Prop :=
  pProtocol p = ProtoTCP ∧ if dTunnel (rt_d rt) then rt_first rt = true ∧ IsTCPSYN raw ≠ Ok true else pDstPort p = 443.
Lemma resets_cases raw p rt : resets raw p rt ∨ ¬ resets raw p rt.
Proof.
  unfold resets. destruct (decide (pProtocol p = ProtoTCP)) as [E|E]; [|right; by intros [? _]]. destruct (dTunnel (rt_d rt)).
  - destruct (rt_first rt); [|right; by intros (_ & ? & _)]. destruct (IsTCPSYN raw) as [[]| | |]; [|by left..]. right. by intros (_ & _ & ?).
  - destruct (decide (pDstPort p = 443)); [by left|right; by intros [_ ?]].
Qed.
Lemma keeps_discover now key raw addr p rt : may_delete key ∨ ¬ resets raw p rt → keeps I (discover answers now key raw addr p rt).
Proof.
  intros Hd. unfold discover. do 8 (apply keeps_bind; [frame|intros ?]). destruct (_ : bool); [frame|].
  match goal with |- keeps _ (if ?b then _ else _) => destruct b eqn:E; [|frame] end.
  apply keeps_learn. destruct Hd as [Hd|Hd]; [done|]. destruct Hd.
  apply andb_true_iff in E as [E Ed]. apply andb_true_iff in E as [E Ep]. apply andb_true_iff in E as [_ Et].
  apply negb_true_iff in Ed. apply Z.eqb_eq in Ep, Et. unfold resets. by rewrite Ed.
Qed.
Lemma keeps_forward now raw addr frag p rt : may_delete (key_of p) ∨ ¬ resets raw p rt → keeps I (forward answers now raw addr frag p rt).
Proof.
  intros Hd. unfold forward. cbv zeta. apply keeps_bind; [by apply keeps_discover|]. intros consumed. destruct (consumed : bool); [frame|].
  destruct (dTunnel (rt_d rt)) eqn:Ed; cbn [negb]; [|frame]. intros r Hr. unfold mbind at 1, SR_bind at 1, liftR.
  destruct (and_then _ _) as [syn| | |] eqn:Es; try done.
  match goal with |- context [if ?b then _ else _] => destruct b eqn:E end; [|by apply keeps_tunnel].
  assert (Hm : may_delete (key_of p)).
  { destruct Hd as [Hd|Hd]; [done|]. destruct Hd. apply andb_true_iff in E as [E En]. apply andb_true_iff in E as [Ef Et].
    apply negb_true_iff in En. subst syn. rewrite Ef, Et in Es. cbn in Es. unfold resets. rewrite Ed. apply Z.eqb_eq in Et. split_and!; [done|done|congruence]. }
  revert r Hr. change (keeps I (done ← resetBrowserTCP answers raw addr p; _ ← when done (incr preexistingTCPReset);
    modify (fun r => set_routes r (FlowRoute.Delete (key_of p) (r_routes r))))). frame.
Qed.
End Frame.

(** ** The entry of a flow under the operations of the tables *)
Section Entries.
Context (k : Key) (b : bool).
Lemma leads_proxy_Lookup now key r : leads k b r → leads k b (set_proxyRoutes r (fst (ProxyRoute.Lookup now key (r_proxyRoutes r)))).
Proof.
  unfold leads, flow_choice, ProxyRoute.Lookup. cbn [r_proxyRoutes r_routes set_proxyRoutes]. destruct (r_proxyRoutes r !! ProxyRoute.proxyKeyFromFlow key) as [e|] eqn:E; [|done].
  cbn [fst]. destruct (decide (ProxyRoute.proxyKeyFromFlow key = ProxyRoute.proxyKeyFromFlow k)) as [Ek|Hne]; [|by rewrite lookup_insert_ne].
  rewrite Ek in *. by rewrite lookup_insert_eq, E.
Qed.
Lemma leads_Lookup now key r : leads k b r → leads k b (set_routes r (fst (FlowRoute.Lookup now key (r_routes r)))).
Proof.
  unfold leads, flow_choice, FlowRoute.Lookup. cbn [r_proxyRoutes r_routes set_routes]. destruct (r_proxyRoutes r !! _); [done|].
  destruct (r_routes r !! key) as [e|] eqn:E; [|done]. cbn [fst].
  destruct (decide (key = k)) as [->|Hne]; [by rewrite lookup_insert_eq, E|by rewrite lookup_insert_ne].
Qed.
Lemma leads_Set now key t proc kn r : leads k b r → leads k b (set_routes r (FlowRoute.Set_ now key t proc kn (r_routes r))).
Proof.
  unfold leads, flow_choice, FlowRoute.Set_. cbn [r_proxyRoutes r_routes set_routes]. destruct (r_proxyRoutes r !! _); [done|].
  destruct (r_routes r !! key) as [e|] eqn:E; [done|]. destruct (decide (key = k)) as [->|Hne]; [by rewrite E|by rewrite lookup_insert_ne].
Qed.
Lemma leads_Delete key : key ≠ k → may_delete (leads k b) key.
Proof. intros Hne r. unfold leads, flow_choice, FlowRoute.Delete. cbn [r_proxyRoutes r_routes set_routes]. by rewrite lookup_delete_ne. Qed.
Lemma gone_Delete key : may_delete (leads_or_gone k b) key.
Proof.
  intros r. unfold leads_or_gone, leads, flow_choice, FlowRoute.Delete. cbn [r_proxyRoutes r_routes set_routes].
  destruct (r_proxyRoutes r !! _); [done|]. destruct (decide (key = k)) as [->|Hne]; [rewrite lookup_delete_eq; by right|by rewrite lookup_delete_ne].
Qed.

Context {U : Unicode} {F : Platform} {DV : Divert}.
Context (enum : gmap Z entry → list (Z * entry)) (processInfo : Z → Process).
(** Classification records, and never revises. *)
Lemma leads_classify env key p : keeps (leads k b) (classify enum processInfo env key p).
Proof.
  unfold classify. cbv zeta. pose proof (leads_tables k b) as HT. apply keeps_bind.
  { intros r Hr. unfold zoom. pose proof (leads_proxy_Lookup (ce_now env) key r Hr) as H. by destruct (ProxyRoute.Lookup _ _ _). }
  intros [pt pk]. apply keeps_bind.
  { intros r Hr. unfold zoom. pose proof (leads_Lookup (ce_now env) key r Hr) as H. by destruct (FlowRoute.Lookup _ _ _). }
  assert (Hset : ∀ t proc kn, keeps (leads k b) (modify (fun r => set_routes r (FlowRoute.Set_ (ce_now env) key t proc kn (r_routes r)))))
    by (intros t proc kn r Hr; by apply leads_Set).
  intros e. destruct (pk : bool); [apply keeps_bind; [apply Hset|intros; apply keeps_ret]|]. destruct e; [apply keeps_ret|].
  apply keeps_bind; [by apply keeps_attribute|]. intros o. unfold decide_first. cbv zeta.
  apply keeps_bind; [by apply keeps_incr|intros _]. apply keeps_bind; [by apply keeps_get|intros ?].
  do 2 (apply keeps_bind; [apply keeps_liftR|intros ?]). apply keeps_bind; [apply Hset|intros _].
  apply keeps_bind; [by apply keeps_when, keeps_incr|intros; apply keeps_ret].
Qed.
End Entries.

(** ** Runs *)
Section Sticky.
Context {U : Unicode} {F : Platform} {DV : Divert} {DC : Decoders}.
Context (enum : gmap Z entry → list (Z * entry)) (genum : gset Z → list Z) (answers : nat → io) (processInfo : Z → Process).
#[local] Abbreviation capture := (capture_step enum answers processInfo).

(** The entry that decides for the flow was last used before [t]. *)
Definition older (t : Z) (k : Key) (r : Runner) : Prop :=
  match r_proxyRoutes r !! ProxyRoute.proxyKeyFromFlow k with
  | Some e => ProxyRoute.peSeen e < t
  | None => ∃ e, r_routes r !! k = Some e ∧ FlowRoute.frSeen e < t
  end.
(** The three ways the entry of a flow is taken away.  The driver reports the end of the
    flow (or of one with the same local port and remote endpoint, which share the entry
    of the hostname proxy); *)
Definition ends (k : Key) (ev : Event) : Prop :=
  evEvent ev = EventFlowDeleted ∧ ProxyRoute.proxyKeyFromFlow (evKey ev) = ProxyRoute.proxyKeyFromFlow k.
(** the sweep finds that it was not used for thirty minutes ([older]); a packet of the
    flow, which went out directly to port 443, made discovery reset the connection and
    delete its route. *)
Definition cut_off (k : Key) (env : capture_env) (raw : list Z) (addr : Address) (r : Runner) : Prop :=
  leads k false r ∧ flow_choice k (fst (capture env raw addr r)) = None ∧
  ∃ whole frag p, datagram (ce_now env) raw r = Some (whole, frag) ∧ Parse whole = Ok p ∧
    key_of p = k ∧ pProtocol p = ProtoTCP ∧ pDstPort p = 443.

(** The turns of the engine, less those three, and the hostname proxy registering and
    unregistering other connections meanwhile. *)
Inductive other_turn : SR Runner unit → Prop :=
  | other_receive now raw : pkt_ok raw → other_turn (receive_step answers now raw)
  | other_send pick now outcome pc : (∀ x, returns (outcome x)) → other_turn (_ ← send_step pick now outcome pc; mret tt)
  | other_socket now ev : other_turn (socket_event now ev)
  | other_snapshot now t4 t6 u4 u6 : reply_ok t4 → reply_ok t6 → reply_ok u4 → reply_ok u6 → other_turn (snapshot_step processInfo now t4 t6 u4 u6)
  | other_dns now raw : bytes_ok raw → other_turn (dns_step genum now raw)
  | other_bootstrap clock resolver : other_turn (bootstrap_step clock resolver)
  | other_aggressive v : other_turn (SetAggressiveDiscovery v).
Inductive sticky_step (k : Key) (r : Runner) : Runner → Prop :=
  | sticky_capture env raw addr : pkt_ok raw → env_ok env → ¬ cut_off k env raw addr r → sticky_step k r (fst (capture env raw addr r))
  | sticky_flow now ev : ¬ ends k ev → sticky_step k r (fst (flow_event now ev r))
  | sticky_maintenance now : ¬ older (now - 30 * Minute) k r → sticky_step k r (fst (maintenance_step now r))
  | sticky_other m : other_turn m → returns (snd (m r)) → sticky_step k r (fst (m r))
  | sticky_proxy t : t !! ProxyRoute.proxyKeyFromFlow k = r_proxyRoutes r !! ProxyRoute.proxyKeyFromFlow k → sticky_step k r (set_proxyRoutes r t).
Definition sticky_run (k : Key) : Runner → Runner → Prop := rtc (sticky_step k).

(** The rest of the turn, once the packet is classified. *)
Lemma capture_choice env raw addr whole frag p r : engine_ok r → env_ok env → pkt_ok raw →
  datagram (ce_now env) raw r = Some (whole, frag) → Parse whole = Ok p →
  let r' := fst (capture env raw addr r) in
  leads (key_of p) (chosen enum processInfo env p r) r' ∨
  flow_choice (key_of p) r' = None ∧ pProtocol p = ProtoTCP ∧
    (if chosen enum processInfo env p r then ¬ known p r ∧ IsTCPSYN whole ≠ Ok true else pDstPort p = 443).
Proof.
  intros Hr He Hp Ed HP. destruct (capture_cases enum answers processInfo env raw addr r Hr Hp) as (r0 & Hv & Hr0 & H). rewrite Ed, HP in H.
  destruct H as (_ & _ & ->). cbv zeta.
  destruct (classify_run enum processInfo env p r0 Hr0 He) as (r1 & rt & E & Hd & _ & Hf & Hs). rewrite (chosen_view enum processInfo env p r r0 Hv) in *.
  rewrite (run_bind _ _ _ _ _ E).
  assert (Hl : leads (key_of p) (chosen enum processInfo env p r) r1).
  { unfold leads, flow_choice. destruct (r_proxyRoutes r1 !! _) as [e|]; [by rewrite Hs|]. destruct Hs as (e & -> & He'). cbn. by rewrite He'. }
  destruct (keeps_forward _ (gone_tables _ _) answers (ce_now env) whole addr frag p rt (or_introl (gone_Delete _ _ _)) r1 (or_introl Hl)) as [H|H]; [by left|].
  destruct (resets_cases whole p rt) as [[Ht Hres]|Hn].
  - right. split; [done|]. split; [done|]. rewrite <- Hd. destruct (dTunnel (rt_d rt)); [|done]. destruct Hres as [Hft Hsyn]. split; [|done].
    specialize (Hf Hft). unfold known in *. assert (Et : tables r0 = tables r) by exact (f_equal (fun v => fst (fst (fst v))) Hv).
    unfold tables in Et. by injection Et as <- <-.
  - left. exact (keeps_forward _ (leads_tables _ _) answers (ce_now env) whole addr frag p rt (or_intror Hn) r1 Hl).
Qed.
Lemma known_leads p r b : leads (key_of p) b r → known p r.
Proof. intros H. apply leads_entry in H. unfold known. destruct (r_proxyRoutes r !! _) as [e|]; [by left|]. right. destruct H as (e & -> & _). by eexists. Qed.
Lemma capture_leads env raw addr k b r : engine_ok r → env_ok env → pkt_ok raw → leads k b r → ¬ cut_off k env raw addr r →
  leads k b (fst (capture env raw addr r)).
Proof.
  intros Hr He Hp Hl Hn. pose proof (leads_tables k b) as HT.
  destruct (capture_cases enum answers processInfo env raw addr r Hr Hp) as (r0 & Hv & Hr0 & H).
  assert (Hl0 : leads k b r0) by exact (HT r r0 (f_equal (fun v => fst (fst (fst v))) Hv) Hl).
  destruct (datagram (ce_now env) raw r) as [[whole frag]|] eqn:Ed; [|by rewrite H]. destruct H as (_ & _ & H).
  destruct (Parse whole) as [p|e| |] eqn:HP; try done.
  - destruct (decide (key_of p = k)) as [<-|Hne].
    + destruct (capture_choice env raw addr whole frag p r Hr He Hp Ed HP) as [Hc|(Hg & Ht & Hc)]; rewrite (chosen_leads enum processInfo env p r b Hl) in Hc; [done|].
      destruct b; [by destruct Hc as [Hk _]; destruct (Hk (known_leads p r true Hl))|]. destruct Hn. split; [done|]. split; [done|]. by exists whole, frag, p.
    + rewrite H. apply (keeps_bind (leads k b)); [apply leads_classify|intros rt; by apply keeps_forward; [|left; apply leads_Delete]|done].
  - rewrite H. assert (Hk : keeps (leads k b) (unparsed answers whole addr frag e)); [|by apply Hk]. unfold unparsed.
    destruct (_ || _); [apply keeps_bind; [by apply keeps_incr|intros _; by apply keeps_incr]|].
    apply keeps_bind; [apply keeps_attempt; by apply keeps_Send|]. intros [|]; by apply keeps_incr.
Qed.
Lemma flow_event_leads now ev k b r : leads k b r → ¬ ends k ev → leads k b (fst (flow_event now ev r)).
Proof.
  intros Hl Hn. unfold flow_event. cbv zeta. destruct (_ =? EventFlowEstablished).
  - assert (Hk : keeps (leads k b) (r ← sget; i ← liftR (FlowIndex.Add now (evKey ev) (evProcess ev) (r_flows r)); modify (fun r => set_flows r i))); [|by apply Hk].
    apply keeps_bind; [by intros ?|intros ?]. apply keeps_bind; [apply keeps_liftR|intros i]. apply keeps_modify; [apply leads_tables|done].
  - destruct (Z.eqb_spec (evEvent ev) EventFlowDeleted) as [Ee|]; [|done].
    assert (Hp : ProxyRoute.proxyKeyFromFlow (evKey ev) ≠ ProxyRoute.proxyKeyFromFlow k) by (intros E; by apply Hn).
    assert (Hk : evKey ev ≠ k) by congruence. revert Hl. unfold leads, flow_choice. cbn. unfold ProxyRoute.DeleteFlow, FlowRoute.Delete.
    by rewrite !lookup_delete_ne.
Qed.
Lemma maintenance_leads now k b r : leads k b r → ¬ older (now - 30 * Minute) k r → leads k b (fst (maintenance_step now r)).
Proof.
  intros Hl Hn. set (r2 := set_routes (set_proxyRoutes r (ProxyRoute.Sweep now (30 * Minute) (r_proxyRoutes r))) (FlowRoute.Sweep now (30 * Minute) (r_routes r))).
  assert (Et : tables (fst (maintenance_step now r)) = tables r2) by (unfold maintenance_step, modify; cbn [fst]; by rewrite takeIn_tables, takeOut_tables).
  apply (leads_tables k b r2 _ Et). clear Et. revert Hl Hn. unfold leads, flow_choice, older, r2, ProxyRoute.Sweep, FlowRoute.Sweep. cbn [r_proxyRoutes r_routes set_routes set_proxyRoutes].
  rewrite !sweep_map_lookup. destruct (r_proxyRoutes r !! _) as [e|]; cbn.
  - intros Hl Hn. by rewrite (proj2 (Z.ltb_ge _ _)) by lia.
  - destruct (r_routes r !! k) as [e|]; [|done]. cbn. intros Hl Hn. rewrite (proj2 (Z.ltb_ge _ _)); [done|]. apply Z.nlt_ge. intros H. apply Hn. by exists e.
Qed.
Lemma other_engine m : other_turn m → engine_turn enum genum answers processInfo m.
Proof. intros []; by constructor. Qed.
Lemma other_leads k b m : other_turn m → keeps (leads k b) m.
Proof.
  pose proof (leads_tables k b) as HT. intros [].
  - by apply keeps_receive.
  - apply keeps_bind; [by apply keeps_send|intros; apply keeps_ret].
  - by apply keeps_socket.
  - by apply keeps_snapshot.
  - by apply keeps_dns.
  - by apply keeps_bootstrap.
  - by apply keeps_aggressive.
Qed.
Lemma turn_ok r m : engine_ok r → engine_turn enum genum answers processInfo m → returns (snd (m r)) → engine_ok (fst (m r)).
Proof.
  intros Hr Hm Hret. destruct (turn_safe enum genum answers processInfo (r_cfg r) m Hm) as [Hs|[_ Hd]]; [|by rewrite Hd in Hret].
  by destruct (Hs r (conj Hr (conj eq_refl I))) as [(H1 & _) _].
Qed.
Lemma capture_ok env raw addr r : engine_ok r → env_ok env → pkt_ok raw → engine_ok (fst (capture env raw addr r)).
Proof.
  intros Hr He Hp. assert (Hs : safe (inv (r_cfg r) anything) (capture env raw addr) (fun _ => True)) by by apply safe_capture.
  by destruct (Hs r (conj Hr (conj eq_refl I))) as [(H1 & _) _].
Qed.
Lemma step_leads k b r r' : engine_ok r → leads k b r → sticky_step k r r' → engine_ok r' ∧ leads k b r'.
Proof.
  intros Hr Hl [env raw addr Hp He Hn|now ev Hn|now Hn|m Hm Hret|t Ht].
  - split; [by apply capture_ok|by apply capture_leads].
  - split; [|by apply flow_event_leads]. by apply (proj1 (safe_flow_event (r_cfg r) anything now ev r (conj Hr (conj eq_refl I)))).
  - split; [|by apply maintenance_leads]. by apply (proj1 (safe_maintenance (r_cfg r) anything now r (conj Hr (conj eq_refl I)))).
  - split; [|by apply other_leads]. apply turn_ok; [done|by apply other_engine|done].
  - split; [by destruct Hr|]. revert Hl. unfold leads, flow_choice. cbn [r_proxyRoutes r_routes set_proxyRoutes]. by rewrite Ht.
Qed.
Lemma sticky_leads k b r0 r : engine_ok r0 → leads k b r0 → sticky_run k r0 r → engine_ok r ∧ leads k b r.
Proof. intros H0 Hl H. induction H as [|r0 r1 r Hs _ IH]; [done|]. destruct (step_leads k b r0 r1 H0 Hl Hs). by apply IH. Qed.

(** C7: A captured packet is classified by the first table that knows its flow: the
    choice of the hostname proxy, else the route the flow already has, else the policy
    for the owner found (internal processes stay direct; a flow nobody owns is judged as
    one without process).  The decision is recorded, and it stays: when the turn is over
    the flow has an entry with it, unless the turn reset the connection (a TCP segment
    that opens nothing, of a flow that was not known and is selected; or one to port 443
    of a direct flow, in which discovery found a selected name); and from any state in
    which a flow has an entry, in every run of the engine's loops that does not remove
    that entry, every packet of the flow is decided as the entry says, whatever happens
    to other flows, the owner lookups, the policy and the learned addresses.  Entries are
    removed by the end of the flow, after thirty minutes without use, and by such a
    reset of a direct connection to port 443. *)
Theorem classify_correct (env : capture_env) (p : Packet) (r : Runner) :
  engine_ok r → env_ok env →
  (∃ r' rt, classify enum processInfo env (key_of p) p r = (r', Ok rt) ∧
    dTunnel (rt_d rt) = chosen enum processInfo env p r ∧ leads (key_of p) (chosen enum processInfo env p r) r') ∧
  (∀ raw addr whole frag, pkt_ok raw → datagram (ce_now env) raw r = Some (whole, frag) → Parse whole = Ok p →
    let r' := fst (capture env raw addr r) in
    (leads (key_of p) (chosen enum processInfo env p r) r' ∧
     ∀ r2 env' p', sticky_run (key_of p) r' r2 → key_of p' = key_of p → chosen enum processInfo env' p' r2 = chosen enum processInfo env p r) ∨
    flow_choice (key_of p) r' = None ∧ pProtocol p = ProtoTCP ∧
      (if chosen enum processInfo env p r then ¬ known p r ∧ IsTCPSYN whole ≠ Ok true else pDstPort p = 443)) ∧
  (∀ k b r', leads k b r → sticky_run k r r' →
    leads k b r' ∧ ∀ env' p', key_of p' = k → chosen enum processInfo env' p' r' = b).
Proof.
  intros Hr He. split; [|split].
  - destruct (classify_run enum processInfo env p r Hr He) as (r' & rt & E & Hd & _ & _ & Hs). exists r', rt. split; [done|]. split; [done|].
    unfold leads, flow_choice. destruct (r_proxyRoutes r' !! _) as [e|]; [by rewrite Hs|]. destruct Hs as (e & -> & He'). cbn. by rewrite He'.
  - intros raw addr whole frag Hp Ed HP r'. destruct (capture_choice env raw addr whole frag p r Hr He Hp Ed HP) as [Hl|H]; [left|by right].
    split; [done|]. intros r2 env' p' Hrun Hk. apply chosen_leads. rewrite Hk. apply (sticky_leads (key_of p) _ r'); [|done..].
    by apply capture_ok.
  - intros k b r' Hl Hrun. destruct (sticky_leads k b r r' Hr Hl Hrun) as [_ Hl']. split; [done|]. intros env' p' <-. by apply chosen_leads.
Qed.
End Sticky.

(** The sample flow: its first packet is tunnelled; then another flow's packet, a sweep
    within the half hour and a change of the proxy's table leave it tunnelled. *)
#[local] Existing Instance ascii_unicode.
#[local] Existing Instance posix.
#[local] Existing Instance id_divert.
#[local] Existing Instance zero_decoders.
#[local] Abbreviation sample_capture := (capture_step map_to_list accept example_owner example_env udp_sample example_addr).
#[local] Abbreviation sample_after := (fst (sample_capture example_runner)).
#[local] Abbreviation other_capture := (capture_step map_to_list accept example_owner example_env udp_sample2 example_addr).
#[local] Abbreviation sample_later := (fst (maintenance_step 100 (fst (other_capture sample_after)))).
Lemma udp_sample2_pkt_ok : pkt_ok udp_sample2.
Proof. split; [by apply bytes_okb_ok|]. intros _. by vm_compute. Qed.

Lemma classify_correct_witness :
  flow_choice (key_of udp_packet) example_runner = None ∧ leads (key_of udp_packet) true sample_after ∧
  ∀ env', chosen map_to_list example_owner env' udp_packet sample_later = true.
Proof.
  split; [vm_compute; reflexivity|].
  assert (Hc : chosen map_to_list example_owner example_env udp_packet example_runner = true) by (vm_compute; reflexivity).
  destruct (classify_correct map_to_list elements accept example_owner example_env udp_packet example_runner example_runner_ok example_env_ok) as (_ & H & _).
  rewrite Hc in H. destruct (H udp_sample example_addr udp_sample (mkResult udp_sample true false 0) udp_pkt_ok
    (datagram_whole 5 udp_sample example_runner eq_refl) eq_refl) as [[Hl Hs]|[Hn _]]; [|vm_compute in Hn; discriminate].
  split; [exact Hl|]. intros env'. refine (Hs _ env' udp_packet _ eq_refl).
  refine (rtc_l _ _ _ _ (sticky_capture map_to_list elements accept example_owner (key_of udp_packet) _ example_env udp_sample2 example_addr
    udp_sample2_pkt_ok example_env_ok _) (rtc_once _ _ (sticky_maintenance map_to_list elements accept example_owner (key_of udp_packet) _ 100 _))).
  - intros [Hf _]. vm_compute in Hf. discriminate.
  - assert (E1 : r_proxyRoutes (fst (other_capture sample_after)) !! ProxyRoute.proxyKeyFromFlow (key_of udp_packet) = None) by (vm_compute; reflexivity).
    assert (E2 : FlowRoute.frSeen <$> r_routes (fst (other_capture sample_after)) !! key_of udp_packet = Some 5) by (vm_compute; reflexivity).
    unfold older. rewrite E1. intros (e & He & Hlt). rewrite He in E2. injection E2 as E2. rewrite E2 in Hlt. vm_compute in Hlt. discriminate.
Defined.
