(* ===== verification/SendLoop.v ===== *)
(** * The send loop is fair: [sendLoop] of [internal/engine/engine_windows.go]

    The loop and the capture loop that feeds it, interleaved: an event is a packet
    that enters one of the two queues, a packet that the loop takes out, or a turn in
    which the loop only moves on. *)

From S2P Require Import Prelude Runner.
Local Open Scope Z_scope.

Record loop := mkLoop { l_pc : send_pc; l_urgent : list queuedPacket; l_bulk : list queuedPacket }.
(** [udp] tells the class. *)
Inductive loop_event := Arrived (udp : bool) (x : queuedPacket) | Sent (udp : bool) (x : queuedPacket) | Moved.

Definition taken_event (u u' : list queuedPacket) (o : option queuedPacket) : loop_event :=
  match o with None => Moved | Some x => Sent (length u' <? length u)%nat x end.
Inductive loop_step : loop → loop_event → loop → Prop :=
  | step_urgent pc u b x : loop_step (mkLoop pc u b) (Arrived true x) (mkLoop pc (u ++ [x]) b)
  | step_bulk pc u b x : loop_step (mkLoop pc u b) (Arrived false x) (mkLoop pc u (b ++ [x]))
  | step_turn pick pc u b pc' u' b' o : send_turn pick pc u b = Some (pc', u', b', o) →
      loop_step (mkLoop pc u b) (taken_event u u' o) (mkLoop pc' u' b').
Inductive loop_run : loop → list loop_event → loop → Prop :=
  | run_nil l : loop_run l [] l
  | run_cons l e l1 tr l2 : loop_step l e l1 → loop_run l1 tr l2 → loop_run l (e :: tr) l2.

Definition queue (udp : bool) (l : loop) : list queuedPacket := if udp then l_urgent l else l_bulk l.
Definition sent (udp : bool) (tr : list loop_event) : list queuedPacket :=
  omap (fun e => match e with Sent c x => if eqb c udp then Some x else None | _ => None end) tr.
Definition arrived (udp : bool) (tr : list loop_event) : list queuedPacket :=
  omap (fun e => match e with Arrived c x => if eqb c udp then Some x else None | _ => None end) tr.
Definition is_turn (e : loop_event) : bool := match e with Arrived _ _ => false | _ => true end.
Definition turns (tr : list loop_event) : nat := length (List.filter is_turn tr).

Definition pc_ok (pc : send_pc) : Prop := match pc with Burst d => 0 <= d <= 8 | _ => True end.
(** What a turn does, by cases. *)
Lemma turn_cases pick pc u b pc' u' b' o : pc_ok pc → send_turn pick pc u b = Some (pc', u', b', o) →
  pc_ok pc' ∧
  match o with
  | None => u' = u ∧ b' = b ∧
      match pc with
      | Burst d => (d < 8 ∧ u = [] ∧ pc' = Burst 8) ∨ (d = 8 ∧ pc' = BulkTurn)
      | BulkTurn => b = [] ∧ pc' = WaitAny
      | WaitAny => False
      end
  | Some x =>
      (u = x :: u' ∧ b' = b ∧ match pc with Burst d => d < 8 ∧ pc' = Burst (d + 1) | BulkTurn => False | WaitAny => pc' = Burst 0 end) ∨
      (u' = u ∧ b = x :: b' ∧ pc' = Burst 0 ∧ match pc with Burst _ => False | _ => True end)
  end.
Proof.
  intros Hp. unfold send_turn, urgentBurst. destruct pc as [d| |]; cbn [pc_ok] in Hp.
  - destruct (Z.ltb_spec d 8); [destruct u as [|x u]|]; intros E; injection E as <- <- <- <-; cbn [pc_ok]; (split; [lia|]); try done.
    + split_and!; auto.
    + left. split_and!; auto.
    + split_and!; auto. right. split; [lia|done].
  - destruct b as [|x b]; intros E; injection E as <- <- <- <-; (split; [done|]); [done|]. right. done.
  - destruct u as [|x u], b as [|y b]; try done; [..|destruct pick]; intros E; injection E as <- <- <- <-; cbn [pc_ok]; (split; [lia|]); auto.
Qed.
Lemma step_pc_ok l e l1 : loop_step l e l1 → pc_ok (l_pc l) → pc_ok (l_pc l1).
Proof. intros [] Hp; [done|done|]. by eapply turn_cases. Qed.

(** One event moves at most one packet, at the head or the tail of its queue. *)
Lemma step_queues l e l1 udp : loop_step l e l1 → pc_ok (l_pc l) → sent udp [e] ++ queue udp l1 = queue udp l ++ arrived udp [e].
Proof.
  intros [pc u b x|pc u b x|pick pc u b pc' u' b' o E] Hp; [by destruct udp; cbn; rewrite ?app_nil_r..|].
  destruct (turn_cases _ _ _ _ _ _ _ _ Hp E) as [_ H]. destruct o as [x|]; cbn [taken_event].
  - destruct H as [(-> & -> & _)|(-> & -> & _)]; cbn [length].
    + rewrite (proj2 (Nat.ltb_lt _ _)) by lia. by destruct udp; cbn; rewrite ?app_nil_r.
    + rewrite (proj2 (Nat.ltb_ge _ _)) by lia. by destruct udp; cbn; rewrite ?app_nil_r.
  - destruct H as (-> & -> & _). by destruct udp; cbn; rewrite app_nil_r.
Qed.
Lemma sent_cons udp e tr : sent udp (e :: tr) = sent udp [e] ++ sent udp tr.
Proof. unfold sent. destruct e as [c x|c x|]; cbn; [done| |done]. by destruct (eqb c udp). Qed.
Lemma arrived_cons udp e tr : arrived udp (e :: tr) = arrived udp [e] ++ arrived udp tr.
Proof. unfold arrived. destruct e as [c x|c x|]; cbn; [|done..]. by destruct (eqb c udp). Qed.
Lemma run_fifo l tr l' udp : loop_run l tr l' → pc_ok (l_pc l) → sent udp tr ++ queue udp l' = queue udp l ++ arrived udp tr.
Proof.
  induction 1 as [l|l e l1 tr l2 Hs Hr IH]; intros Hp; [by rewrite app_nil_r|].
  rewrite sent_cons, arrived_cons, <- app_assoc, (IH (step_pc_ok _ _ _ Hs Hp)), !app_assoc. f_equal. by apply step_queues.
Qed.

(** How many urgent packets can still go before the next bulk packet. *)
Definition credit (pc : send_pc) : Z := match pc with Burst d => 8 - d | BulkTurn => 0 | WaitAny => 9 end.
Lemma run_credit l tr l' : loop_run l tr l' → pc_ok (l_pc l) → (length (sent false tr) < length (l_bulk l))%nat →
  blen (sent true tr) <= credit (l_pc l) + 8 * blen (sent false tr).
Proof.
  induction 1 as [l|l e l1 tr l2 Hs Hr IH]; intros Hp Hn.
  { change (0 <= credit (l_pc l) + 8 * 0). destruct (l_pc l); cbn in *; lia. }
  specialize (IH (step_pc_ok _ _ _ Hs Hp)). rewrite sent_cons in Hn. rewrite (sent_cons true), (sent_cons false), !blen_app. rewrite length_app in Hn.
  destruct Hs as [pc u b x|pc u b x|pick pc u b pc' u' b' o E].
  - change (sent true [Arrived true x]) with (@nil queuedPacket). change (sent false [Arrived true x]) with (@nil queuedPacket) in *.
    cbn [l_pc l_bulk length Nat.add] in *. rewrite !blen_nil. specialize (IH Hn). lia.
  - change (sent true [Arrived false x]) with (@nil queuedPacket). change (sent false [Arrived false x]) with (@nil queuedPacket) in *.
    cbn [l_pc l_bulk length Nat.add] in *. rewrite !blen_nil. rewrite length_app in IH. specialize (IH ltac:(lia)). lia.
  - cbn [l_pc l_bulk] in *. destruct (turn_cases _ _ _ _ _ _ _ _ Hp E) as [Hp' H]. destruct o as [x|]; cbn [taken_event] in *.
    + destruct H as [(-> & -> & H)|(-> & -> & -> & _)].
      * rewrite (proj2 (Nat.ltb_lt _ _)) in * by (cbn; lia). cbn [sent omap list_omap eqb app length] in *. specialize (IH ltac:(cbn in Hn; lia)).
        change (blen [x]) with 1. change (blen (@nil queuedPacket)) with 0. destruct pc; [destruct H as [H ->]| |rewrite H in *]; cbn [credit] in *; try done; lia.
      * rewrite (proj2 (Nat.ltb_ge _ _)) in * by (cbn; lia). cbn in Hn, IH. specialize (IH ltac:(lia)). cbn. unfold blen in *. cbn [length].
        destruct pc as [d| |]; cbn [credit pc_ok] in *; lia.
    + cbn in Hn. destruct H as (-> & -> & H). specialize (IH ltac:(lia)). change (blen (sent true [Moved])) with 0. change (blen (sent false [Moved])) with 0.
      destruct pc as [d| |]; [destruct H as [(H1 & _ & ->)|[-> ->]]|destruct H as [-> ->]; cbn in Hn; lia|done]; cbn [credit] in *; lia.
Qed.

(** Turns that only move on. *)
Definition rank (pc : send_pc) : nat := match pc with Burst d => if d <? 8 then 3 else 2 | BulkTurn => 1 | WaitAny => 0 end.
Lemma run_rank l tr l' : loop_run l tr l' → pc_ok (l_pc l) → sent true tr = [] → sent false tr = [] → (turns tr <= rank (l_pc l))%nat.
Proof.
  induction 1 as [l|l e l1 tr l2 Hs Hr IH]; intros Hp Hu Hb; [cbn; lia|].
  rewrite sent_cons in Hu, Hb. apply app_eq_nil in Hu as [Hu1 Hu2], Hb as [Hb1 Hb2]. specialize (IH (step_pc_ok _ _ _ Hs Hp) Hu2 Hb2).
  destruct Hs as [pc u b x|pc u b x|pick pc u b pc' u' b' o E]; [done|done|].
  destruct (turn_cases _ _ _ _ _ _ _ _ Hp E) as [_ H]. destruct o as [x|].
  - exfalso. unfold taken_event in *. destruct (length u' <? length u)%nat; done.
  - destruct H as (_ & _ & H). cbn [taken_event] in *. change (turns (Moved :: tr)) with (S (turns tr)). cbn [l_pc] in *.
    destruct pc as [d| |]; [destruct H as [(H1 & _ & ->)|[-> ->]]|destruct H as [_ ->]|done]; cbn [rank] in *; zdec; cbn in *; lia.
Qed.

(** C24: The send loop is first-in first-out in each class, and fair.  In every
    interleaving of the loop with the capture loop: each class leaves its queue in the
    order it entered, with no packet lost or sent twice; a bulk packet with [n] bulk
    packets before it is sent before [10 + 8 n] urgent ones are, however many urgent
    packets keep arriving; the loop blocks only when both queues are empty; and it
    never makes more than three turns in a row without sending. *)
Theorem send_loop_fair (l l' : loop) (tr : list loop_event) :
  pc_ok (l_pc l) → loop_run l tr l' →
  (∀ udp, sent udp tr ++ queue udp l' = queue udp l ++ arrived udp tr) ∧
  (∀ pre x post, l_bulk l = pre ++ x :: post → 9 + 8 * blen pre < blen (sent true tr) → ∃ k, sent false tr = pre ++ x :: k) ∧
  (∀ pick, send_turn pick (l_pc l') (l_urgent l') (l_bulk l') = None → l_urgent l' = [] ∧ l_bulk l' = []) ∧
  (sent true tr = [] → sent false tr = [] → (turns tr <= 3)%nat).
Proof.
  intros Hp Hr. split; [by intros udp; apply run_fifo|]. split; [|split].
  - intros pre x post Hb Hlt. pose proof (run_credit l tr l' Hr Hp) as Hc. pose proof (run_fifo l tr l' false Hr Hp) as Hf. cbn [queue] in Hf. rewrite Hb in Hf, Hc.
    destruct (decide (length (sent false tr) <= length pre)%nat) as [Hle|Hgt].
    + rewrite length_app in Hc. cbn [length] in Hc. specialize (Hc ltac:(lia)). assert (credit (l_pc l) <= 9) by (destruct (l_pc l); cbn in *; lia).
      unfold blen in *. lia.
    + exists (drop (S (length pre)) (sent false tr)).
      assert (Ht : take (S (length pre)) (sent false tr) = pre ++ [x]).
      { replace (take (S (length pre)) (sent false tr)) with (take (S (length pre)) (sent false tr ++ l_bulk l')) by (apply take_app_le; lia).
        rewrite Hf. rewrite <- !app_assoc. cbn [app]. rewrite (cons_middle x pre), app_assoc. apply take_app_length'. rewrite length_app. cbn. lia. }
      rewrite <- (take_drop (S (length pre)) (sent false tr)) at 1. rewrite Ht, <- app_assoc. done.
  - intros pick. unfold send_turn. destruct (l_pc l'); repeat case_match; done.
  - intros H1 H2. pose proof (run_rank l tr l' Hr Hp H1 H2). assert (rank (l_pc l) <= 3)%nat; [|lia]. destruct (l_pc l); cbn; [destruct (_ <? _); lia|lia|lia].
Qed.

Definition some_urgent : queuedPacket := mkQueued [1] 0.
Definition some_bulk : queuedPacket := mkQueued [2] 0.
Lemma send_loop_fair_witness :
  sent false [Sent true some_urgent; Arrived true some_urgent; Sent true some_urgent; Moved; Moved; Sent false some_bulk] = [some_bulk] ∧
  ∃ l', loop_run (mkLoop (Burst 0) [some_urgent] [some_bulk])
          [Sent true some_urgent; Arrived true some_urgent; Sent true some_urgent; Moved; Moved; Sent false some_bulk] l' ∧
        l_urgent l' = [] ∧ l_bulk l' = [].
Proof.
  split; [reflexivity|].
  assert (Hr : loop_run (mkLoop (Burst 0) [some_urgent] [some_bulk])
    [Sent true some_urgent; Arrived true some_urgent; Sent true some_urgent; Moved; Moved; Sent false some_bulk] (mkLoop (Burst 0) [] [])).
  { eapply run_cons; [exact (step_turn true (Burst 0) [some_urgent] [some_bulk] (Burst 1) [] [some_bulk] (Some some_urgent) eq_refl)|].
    eapply run_cons; [apply step_urgent|].
    eapply run_cons; [exact (step_turn true (Burst 1) [some_urgent] [some_bulk] (Burst 2) [] [some_bulk] (Some some_urgent) eq_refl)|].
    eapply run_cons; [exact (step_turn true (Burst 2) [] [some_bulk] (Burst 8) [] [some_bulk] None eq_refl)|].
    eapply run_cons; [exact (step_turn true (Burst 8) [] [some_bulk] BulkTurn [] [some_bulk] None eq_refl)|].
    eapply run_cons; [exact (step_turn true BulkTurn [] [some_bulk] (Burst 0) [] [] (Some some_bulk) eq_refl)|]. apply run_nil. }
  exists (mkLoop (Burst 0) [] []). split; [exact Hr|].
  destruct (send_loop_fair (mkLoop (Burst 0) [some_urgent] [some_bulk]) (mkLoop (Burst 0) [] []) _ ltac:(split; discriminate) Hr) as (Hf & _).
  pose proof (Hf true) as H1. pose proof (Hf false) as H2. split; reflexivity.
Defined.
