(* ===== verification/DnsRoute.v ===== *)
(** * From a DNS answer to a tunnelled flow

    The sniffed answer, the domain tracker and the policy together: what [dnsLoop]
    learns makes the next flow to that address take the tunnel. *)

From S2P Require Import Prelude Netip GoStrings Packet FlowIndex Snapshot Config Tracker Policy Dns Runner RunnerSafe RunnerProps.
Local Open Scope Z_scope.

Section Dns.
Context {U : Unicode} {F : Platform} (genum : gset Z → list Z).

Lemma scan_found sel dest i groups j g : groups !! j = Some g → sel g = true → dest (i + Z.of_nat j) g = true →
  scan_groups sel dest i groups ≠ None.
Proof.
  revert i j. induction groups as [|h groups IH]; intros i j Hj Hs Hd; [done|]. cbn [scan_groups].
  destruct (sel h && dest i h) eqn:E; [done|]. destruct j as [|j]; cbn in Hj.
  - injection Hj as ->. rewrite Z.add_0_r in Hd. by rewrite Hs, Hd in E.
  - apply (IH (i + 1) j); [done|done|]. by replace (i + 1 + Z.of_nat j) with (i + Z.of_nat (S j)) by lia.
Qed.
Lemma best_found proc dest groups j g : groups !! j = Some g → app_selected proc g = true → dest (Z.of_nat j) g = true →
  best_group proc dest groups ≠ None.
Proof.
  intros Hj Ha Hd. unfold best_group, orElse3, app_selected in *. apply orb_true_iff in Ha as [Ha|Ha]; [apply orb_true_iff in Ha as [Ha|Ha]|].
  - pose proof (scan_found sel_global dest 0 groups j g Hj Ha Hd). by destruct (scan_groups sel_global _ _ _).
  - pose proof (scan_found (sel_name proc) dest 0 groups j g Hj Ha Hd). destruct (scan_groups sel_global _ _ _); [done|]. by destruct (scan_groups (sel_name proc) _ _ _).
  - pose proof (scan_found (sel_path proc) dest 0 groups j g Hj Ha Hd). destruct (scan_groups sel_global _ _ _); [done|]. by destruct (scan_groups (sel_name proc) _ _ _).
Qed.
Lemma add_answers_live now now' ips groups ttl t ip j :
  ip ∈ ips → IsValid ip = true → j ∈ groups → 0 <= j < blen (tr_groups t) → now' < now + clampTTL ttl →
  ContainsGroup now' ip j (add_answers now ips groups ttl t) = true.
Proof.
  intros Hip Hv Hj Hr Hn.
  assert (Hkeep : ∀ ips t, ContainsGroup now' ip j t = true → ContainsGroup now' ip j (add_answers now ips groups ttl t) = true).
  { intros l. induction l as [|a l IH]; intros t' Ht; [done|]. cbn. apply IH, ContainsGroup_add. by left. }
  revert t Hr. induction ips as [|a ips IH]; intros t Hr; [by apply not_elem_of_nil in Hip|]. cbn [add_answers].
  apply elem_of_cons in Hip as [<-|Hip]; [|apply IH; [done|by rewrite AddGroups_groups]].
  apply Hkeep, ContainsGroup_add. by right.
Qed.
Lemma addr_of_valid msg a ip : ip ∈ addr_of msg a → IsValid ip = true.
Proof. unfold addr_of. destruct (_ && _); [|destruct (_ && _)]; rewrite ?list_elem_of_singleton; [by intros ->..|]. by intros H%not_elem_of_nil. Qed.

(** The payload that [dnsLoop] parses. *)
Definition dns_message (raw : list Z) (p : Packet) : list Z := bsub raw (pL4 p + 8) (pTotal p).

(** C23: What the DNS sniffer learns, the policy uses.  Given a captured answer in which a
    question or an alias is a name of some rule's domains, after the turn every
    address of the answer is routed through the tunnel for every process the rule
    selects, until the answer's lifetime (as clamped) has passed. *)
Theorem dns_answer_tunnels (now now' : Z) (raw : list Z) (p : Packet) (r : Runner) (qs : list (list Z)) (off : Z) (rs : list record)
    (name : list Z) (ip : Addr) (j : nat) (g : Group) (proc : Process) (msg : list Z) :
  msg = dns_message raw p → engine_ok r → (∀ s, genum s ≡ₚ elements s) → bytes_ok raw → Parse raw = Ok p → pProtocol p = ProtoUDP → pL4 p + 8 <= pTotal p →
  12 <= blen msg → 32768 <= gb16 msg 2 →
  questions_at msg (Z.to_nat (gb16 msg 4)) 12 qs off → records_at msg (Z.to_nat (gb16 msg 6)) off rs →
  name ∈ qs ++ flat_map (cname_of msg) rs → ip ∈ flat_map (addr_of msg) (map r_data rs) →
  canon_domain name ≠ [] → cGroups (r_cfg r) !! j = Some g → named g (canon_domain name) → app_selected proc g = true →
  now' < now + clampTTL (TTL (response (name_matches (r_domains r)) msg qs rs)) →
  ∃ r' d, dns_step genum now raw r = (r', Ok tt) ∧ Decide now' proc ip (policy_of r') = Ok d ∧ dTunnel d = true.
Proof.
  intros Emsg Hr Henum Hb HP Hu Ht H12 Hresp Hqs Hrs Hname Hip Hcn Hg Hnm Happ Hnow.
  pose proof (Parse_Ok raw p Hb HP) as (Hv & Hlen & _).
  assert (Hbm : bytes_ok msg) by (rewrite Emsg; by apply bytes_ok_bsub).
  set (res := response (name_matches (r_domains r)) msg qs rs) in *.
  assert (Ep : ParseDNSResponse (name_matches (r_domains r)) msg = Ok (res, None)).
  { apply (ParseDNSResponse_spec (name_matches (r_domains r)) msg Hbm). split; [done|]. split; [done|]. by exists qs, off, rs. }
  destruct (NameGroups_spec name (r_domains r)) as (out & En & _ & Hout).
  assert (Hj : Z.of_nat j ∈ out).
  { apply Hout. split; [done|]. exists g. rewrite Nat2Z.id. split; [lia|]. split; [|done]. by rewrite (ok_groups r Hr). }
  assert (Hm : name_matches (r_domains r) name = true).
  { unfold name_matches, NameMatches. rewrite En, bind_Ok. destruct out; [by apply not_elem_of_nil in Hj|done]. }
  assert (Hres : Names res = qs ++ flat_map (cname_of msg) rs ∧ IPs res = flat_map (addr_of msg) (map r_data rs)).
  { unfold res, response. cbv zeta. rewrite (proj2 (existsb_exists _ _)); [done|]. exists name. split; [|done].
    apply in_app_iff. left. by apply list_elem_of_In. }
  destruct Hres as [Hnames Hips].
  destruct (groups_for_loop_spec (Names res) ∅ (r_domains r)) as (gs & Eg & Hgs).
  assert (Hjg : Z.of_nat j ∈ genum gs).
  { rewrite Henum, elem_of_elements, Hgs. right. exists name, out. rewrite Hnames. done. }
  set (t' := add_answers now (IPs res) (genum gs) (TTL res) (r_domains r)).
  assert (Hc : ContainsGroup now' ip (Z.of_nat j) t' = true).
  { apply add_answers_live; try done; [by rewrite Hips| |].
    - apply list_elem_of_In, in_flat_map in Hip as (a & _ & Ha). apply (addr_of_valid msg a). by apply list_elem_of_In.
    - rewrite (ok_groups r Hr). apply lookup_lt_Some in Hg. unfold blen. lia. }
  exists (set_domains r t'). eexists. split; [|split].
  - unfold dns_step, attempt, liftR. unfold mbind at 1, SR_bind at 1. rewrite HP. cbv beta iota. rewrite Hu.
    replace (negb (ProtoUDP =? ProtoUDP)) with false by done. cbn [orb]. rewrite (proj2 (Z.ltb_ge _ _)) by lia.
    unfold mbind at 1, SR_bind at 1. rewrite slice_ok by lia. fold (dns_message raw p). rewrite <- Emsg. cbv beta iota. unfold mbind at 1, SR_bind at 1, sget. cbv beta iota.
    unfold mbind at 1, SR_bind at 1. rewrite Ep. cbv beta iota. unfold mbind, SR_bind, GroupsForNames. rewrite Eg, bind_Ok. reflexivity.
  - apply Decide_scan. apply compiled_domains. apply Hr.
  - cbn [r_policy policy_of set_domains eCfg]. rewrite (ok_cfg r Hr).
    assert (Hbest : best_group proc (dest_ip now' (Unmap ip) (policy_of (set_domains r t'))) (cGroups (r_cfg r)) ≠ None).
    { apply (best_found _ _ _ j g Hg Happ). unfold dest_ip, groupDestinationMatches. destruct (DomainsAll g); [done|]. destruct (existsb _ _); [done|].
      cbn [policy_of eDomains set_domains r_domains]. rewrite ContainsGroup_entry in *. unfold entry_of in *. by rewrite Unmap_twice. }
    destruct (best_group proc _ _) as [g'|]; [done|]. by destruct Hbest.
Qed.
End Dns.

(** ** A concrete answer: [example_msg] from 8.8.8.8:53, for a rule on a.b *)
#[local] Existing Instance ascii_unicode.
#[local] Existing Instance posix.
Definition dns_packet : list Z :=
  [0x45; 0; 0; 65; 0; 9; 0; 0; 64; 17; 0; 0; 8; 8; 8; 8; 10; 0; 0; 2; 0; 53; 0x13; 0x88; 0; 45; 0; 0] ++ example_msg.
Definition dns_parsed : Packet := mkPacket 4 17 (Addr4 [8; 8; 8; 8]) (Addr4 [10; 0; 0; 2]) 53 5000 20 65.
Definition some_program : Process := mkProcess 9 (lit "game.exe") [].

Definition example_record : record := mkRecord [97; 46; 98] (mkAnswer 1 60 33 4).

Lemma dns_answer_tunnels_witness :
  ∃ r' d, dns_step elements 0 dns_packet example_runner = (r', Ok tt) ∧
    Decide (30 * Second) some_program (Addr4 [9; 8; 7; 6]) (policy_of r') = Ok d ∧ dTunnel d = true.
Proof.
  eapply (dns_answer_tunnels elements 0 (30 * Second) dns_packet dns_parsed example_runner [[97; 46; 98]] 21 [example_record] [97; 46; 98]
    (Addr4 [9; 8; 7; 6]) 0 (mkGroup (lit "g") [star] [lit "a.b"] [mkPrefix (Addr4 [1; 1; 1; 0]) 24]) some_program example_msg).
  - reflexivity.
  - exact example_runner_ok.
  - reflexivity.
  - apply bytes_okb_ok. reflexivity.
  - reflexivity.
  - reflexivity.
  - vm_compute. discriminate.
  - vm_compute. discriminate.
  - vm_compute. discriminate.
  - apply (qa_cons _ 0 12 [97; 46; 98] 17 [] 21); [vm_compute; reflexivity|vm_compute; discriminate|apply qa_nil].
  - change (records_at example_msg 1 21 [example_record]). apply (ra_cons example_msg 0 21 [97; 46; 98] 23 []); [vm_compute; reflexivity|vm_compute; discriminate..|apply ra_nil].
  - by left.
  - by left.
  - vm_compute. discriminate.
  - reflexivity.
  - split; [vm_compute; reflexivity|]. exists (lit "a.b"). split; [by left|]. vm_compute. reflexivity.
  - vm_compute. reflexivity.
  - vm_compute. reflexivity.
Defined.
