(* ===== verification/HostPort.v ===== *)
(** * Host and port in one string: what the code uses of [net] and [strconv]

    [net.SplitHostPort], [net.JoinHostPort], [strings.Trim] with a set of bytes and
    [strconv.ParseUint(s, 10, 16)], as the standard library writes them, and what
    [SplitHostPort] accepts. *)

From S2P Require Import Prelude Netip GoStrings Config.
Local Open Scope Z_scope.

Definition colon : Z := 58.
Definition lbracket : Z := 91.
Definition rbracket : Z := 93.

(** [strings.IndexByte] and [LastIndexByte]; -1 when there is none. *)
Fixpoint index_byte (s : list Z) (c : Z) : Z :=
  match s with
  | [] => -1
  | x :: rest => if x =? c then 0 else let i := index_byte rest c in if i <? 0 then -1 else i + 1
  end.
Definition last_index_byte (s : list Z) (c : Z) : Z :=
  let i := index_byte (rev s) c in if i <? 0 then -1 else blen s - 1 - i.

Fixpoint drop_cutset (s cutset : list Z) : list Z :=
  match s with
  | c :: rest => if contains_byte cutset c then drop_cutset rest cutset else s
  | [] => []
  end.
Definition Trim (s cutset : list Z) : list Z := rev (drop_cutset (rev (drop_cutset s cutset)) cutset).

Definition ParseUint16 (s : list Z) : option Z :=
  match s with
  | [] => None
  | _ => match digits s 0 with Some n => if n <=? 65535 then Some n else None | None => None end
  end.

Definition JoinHostPort (host port : list Z) : list Z :=
  if 0 <=? index_byte host colon then [lbracket] ++ host ++ [rbracket; colon] ++ port else host ++ [colon] ++ port.

(** The tail of [SplitHostPort]: no further bracket may follow. *)
Definition split_rest (hostport host : list Z) (i j k : Z) : Res (list Z * list Z) :=
  s ← slice hostport j (blen hostport);
  if 0 <=? index_byte s lbracket then Err "unexpected '[' in address" else
  s ← slice hostport k (blen hostport);
  if 0 <=? index_byte s rbracket then Err "unexpected ']' in address" else
  port ← slice hostport (i + 1) (blen hostport);
  Ok (host, port).
Definition SplitHostPort (hostport : list Z) : Res (list Z * list Z) :=
  let i := last_index_byte hostport colon in
  if i <? 0 then Err "missing port in address" else
  c0 ← idx hostport 0;
  if c0 =? lbracket then
    let en := index_byte hostport rbracket in
    if en <? 0 then Err "missing ']' in address" else
    if en + 1 =? blen hostport then Err "missing port in address" else
    if en + 1 =? i then
      host ← slice hostport 1 en;
      split_rest hostport host i 1 (en + 1)
    else
      c ← idx hostport (en + 1);
      if c =? colon then Err "too many colons in address" else Err "missing port in address"
  else
    host ← slice hostport 0 i;
    if 0 <=? index_byte host colon then Err "too many colons in address" else
    split_rest hostport host i 0 0.

(** ** Facts *)
Lemma index_byte_none s c : index_byte s c < 0 ↔ c ∉ s.
Proof.
  induction s as [|x s IH]; cbn [index_byte]; [split; [intros _; apply not_elem_of_nil|lia]|].
  rewrite not_elem_of_cons. destruct (Z.eqb_spec x c) as [->|Hn]; [split; [lia|by intros []]|].
  destruct (Z.ltb_spec (index_byte s c) 0); split; try lia; [intros _; split; [congruence|by apply IH]|]. intros [_ Hs%IH]. lia.
Qed.
Lemma index_byte_at a c b : c ∉ a → index_byte (a ++ c :: b) c = blen a.
Proof.
  induction a as [|x a IH]; cbn [index_byte app]; intros Ha; [by rewrite Z.eqb_refl|].
  apply not_elem_of_cons in Ha as [Hx Ha]. destruct (Z.eqb_spec x c); [congruence|]. rewrite (IH Ha), blen_cons. pose proof (blen_nonneg a). zdec. lia.
Qed.
Lemma index_byte_split s c : 0 <= index_byte s c → ∃ a b, s = a ++ c :: b ∧ c ∉ a ∧ index_byte s c = blen a.
Proof.
  intros H. assert (Hin : c ∈ s) by (destruct (decide (c ∈ s)) as [|Hn%index_byte_none]; [done|lia]).
  apply list_elem_of_split_l in Hin as (a & b & -> & Ha). exists a, b. auto using index_byte_at.
Qed.
Lemma elem_of_rev (s : list Z) c : c ∈ rev s ↔ c ∈ s.
Proof. rewrite !list_elem_of_In. symmetry. apply in_rev. Qed.
Lemma blen_rev (s : list Z) : blen (rev s) = blen s.
Proof. unfold blen. by rewrite length_rev. Qed.
Lemma last_index_at a c b : c ∉ b → last_index_byte (a ++ c :: b) c = blen a.
Proof.
  intros Hb. unfold last_index_byte. rewrite rev_app_distr. cbn [rev]. rewrite <- app_assoc. cbn [app].
  rewrite index_byte_at by (by rewrite elem_of_rev). rewrite blen_rev, blen_app, blen_cons. pose proof (blen_nonneg b). zdec. lia.
Qed.
Lemma last_index_none s c : c ∉ s → last_index_byte s c = -1.
Proof. intros Hs. unfold last_index_byte. rewrite <- elem_of_rev in Hs. apply index_byte_none in Hs. by rewrite (proj2 (Z.ltb_lt _ _)). Qed.
Lemma last_index_split s c : 0 <= last_index_byte s c → ∃ a b, s = a ++ c :: b ∧ c ∉ b ∧ last_index_byte s c = blen a.
Proof.
  intros H. assert (Hin : c ∈ s) by (destruct (decide (c ∈ s)) as [|Hn]; [done|]; rewrite (last_index_none s c Hn) in H; lia).
  apply list_elem_of_split_r in Hin as (a & b & -> & Hb). exists a, b. auto using last_index_at.
Qed.

(** No byte of the set occurs. *)
Definition free_of (cs s : list Z) : Prop := ∀ c, c ∈ cs → c ∉ s.
Definition plain_port (p : list Z) : Prop := free_of [colon; lbracket; rbracket] p.
Lemma free_of_app cs a b : free_of cs (a ++ b) ↔ free_of cs a ∧ free_of cs b.
Proof.
  unfold free_of. split.
  - intros H. split; intros c Hc Hin; apply (H c Hc), elem_of_app; auto.
  - intros [H1 H2] c Hc [Hin|Hin]%elem_of_app; [by apply (H1 c)|by apply (H2 c)].
Qed.
Lemma free_of_cons cs x s : free_of cs (x :: s) ↔ x ∉ cs ∧ free_of cs s.
Proof.
  unfold free_of. split.
  - intros H. split; [intros Hx; by apply (H x Hx), elem_of_cons; left|]. intros c Hc Hin. apply (H c Hc), elem_of_cons. by right.
  - intros [H1 H2] c Hc [->|Hin]%elem_of_cons; [done|by apply (H2 c)].
Qed.
Lemma index_byte_neg s c : c ∉ s → (0 <=? index_byte s c) = false.
Proof. intros H%index_byte_none. apply Z.leb_gt. lia. Qed.
Lemma index_byte_nonneg s c : c ∈ s → (0 <=? index_byte s c) = true.
Proof. intros H. apply Z.leb_le. destruct (Z.lt_ge_cases (index_byte s c) 0) as [Hn%index_byte_none|]; [done|lia]. Qed.
Lemma slice_tail (b pre s : list Z) : b = pre ++ s → slice b (blen pre) (blen b) = Ok s.
Proof.
  intros ->.  pose proof (blen_nonneg pre). pose proof (blen_nonneg s). rewrite slice_ok by (rewrite ?blen_app; lia). rewrite blen_app. f_equal.
  rewrite <- (app_nil_r s) at 1. apply bsub_at.
Qed.
Lemma slice_head (s post : list Z) : slice (s ++ post) 0 (blen s) = Ok s.
Proof. pose proof (blen_nonneg post). pose proof (blen_nonneg s). rewrite slice_ok by (rewrite ?blen_app; lia). f_equal. exact (bsub_at [] s post). Qed.

Lemma split_rest_eq s h x p u v u' v' :
  s = x ++ colon :: p → s = u ++ v → s = u' ++ v' →
  match split_rest s h (blen x) (blen u) (blen u') with
  | Ok r => r = (h, p) ∧ lbracket ∉ v ∧ rbracket ∉ v'
  | Err _ => lbracket ∈ v ∨ rbracket ∈ v'
  | _ => False
  end.
Proof.
  intros E1 E2 E3. unfold split_rest. rewrite (slice_tail s u v E2), bind_Ok.
  destruct (decide (lbracket ∈ v)) as [Hv|Hv]; [rewrite index_byte_nonneg by done; by left|]. rewrite index_byte_neg by done.
  rewrite (slice_tail s u' v' E3), bind_Ok.
  destruct (decide (rbracket ∈ v')) as [Hv'|Hv']; [rewrite index_byte_nonneg by done; by right|]. rewrite index_byte_neg by done.
  replace (blen x + 1) with (blen (x ++ [colon])) by (rewrite blen_app; done).
  rewrite (slice_tail s (x ++ [colon]) p) by (by rewrite E1, <- app_assoc). by rewrite bind_Ok.
Qed.

Definition host_and_port (s h p : list Z) : Prop :=
  plain_port p ∧ (free_of [colon; lbracket; rbracket] h ∧ s = h ++ colon :: p ∨ free_of [lbracket; rbracket] h ∧ s = [lbracket] ++ h ++ rbracket :: colon :: p).
Lemma free2 s : free_of [lbracket; rbracket] s ↔ lbracket ∉ s ∧ rbracket ∉ s.
Proof.
  split; [intros H; split; apply H; [by left|right; by left]|].
  intros [H1 H2] c [->|[->|[]%not_elem_of_nil]%elem_of_cons]%elem_of_cons; done.
Qed.
Lemma free3 s : free_of [colon; lbracket; rbracket] s ↔ colon ∉ s ∧ lbracket ∉ s ∧ rbracket ∉ s.
Proof.
  rewrite <- free2. split.
  - intros H. split; [apply H; by left|]. intros c Hc. apply H. by right.
  - intros [H1 H2] c [->|Hc]%elem_of_cons; [done|by apply H2].
Qed.
Lemma idx_head (c : Z) s : idx (c :: s) 0 = Ok c.
Proof. apply (idx_ok (c :: s)). rewrite blen_cons. pose proof (blen_nonneg s). lia. Qed.

(** What [SplitHostPort] is given is what it takes apart. *)
Lemma SplitHostPort_takes s h p : host_and_port s h p → SplitHostPort s = Ok (h, p).
Proof.
  intros [Hp H]. apply free3 in Hp as (Hp1 & Hp2 & Hp3). unfold SplitHostPort. cbv zeta. destruct H as [[Hh E]|[Hh E]].
  - apply free3 in Hh as (Hh1 & Hh2 & Hh3). pose proof (last_index_at h colon p Hp1) as El. rewrite <- E in El. rewrite El.
    pose proof (blen_nonneg h). rewrite (proj2 (Z.ltb_ge (blen h) 0)) by lia.
    assert (Hi : ∃ c, idx s 0 = Ok c ∧ c ≠ lbracket).
    { rewrite E. destruct h as [|c h]; [by exists colon; split; [apply idx_head|]|]. exists c. cbn [app]. rewrite idx_head. split; [done|]. intros ->. apply Hh2. by left. }
    destruct Hi as (c & -> & Hc). rewrite bind_Ok, (proj2 (Z.eqb_neq _ _) Hc).
    assert (Esl : slice s 0 (blen h) = Ok h) by (rewrite E; apply slice_head). rewrite Esl, bind_Ok, index_byte_neg by done.
    pose proof (split_rest_eq s h h p [] s [] s E eq_refl eq_refl) as Hs. change (blen []) with 0 in Hs.
    destruct (split_rest s h (blen h) 0 0) as [r|e| |]; [destruct Hs as [-> _]; done| |done..].
    exfalso. rewrite E, !elem_of_app, !elem_of_cons in Hs. unfold colon, lbracket, rbracket in *. naive_solver lia.
  - apply free2 in Hh as (Hh2 & Hh3).
    assert (Ei : s = ([lbracket] ++ h ++ [rbracket]) ++ colon :: p) by (rewrite E, <- !app_assoc; done).
    pose proof (last_index_at ([lbracket] ++ h ++ [rbracket]) colon p Hp1) as El. rewrite <- Ei in El. rewrite El.
    assert (Er : index_byte s rbracket = blen ([lbracket] ++ h)).
    { rewrite E, app_assoc. apply index_byte_at. rewrite elem_of_app, elem_of_cons. intros [[|[]%not_elem_of_nil]|]; done. }
    pose proof (blen_nonneg h). pose proof (blen_nonneg p). rewrite Er.
    assert (L1 : blen ([lbracket] ++ h) = blen h + 1) by (rewrite blen_app; change (blen [lbracket]) with 1; lia).
    assert (L2 : blen ([lbracket] ++ h ++ [rbracket]) = blen h + 2) by (rewrite !blen_app; change (blen [lbracket]) with 1; change (blen [rbracket]) with 1; lia).
    assert (L3 : blen s = blen h + 3 + blen p) by (rewrite Ei, blen_app, blen_cons, L2; lia).
    rewrite L1, L2 in *. rewrite (proj2 (Z.ltb_ge (blen h + 2) 0)) by lia. assert (E0 : idx s 0 = Ok lbracket) by (rewrite E; apply idx_head). rewrite E0, bind_Ok, Z.eqb_refl.
    rewrite (proj2 (Z.ltb_ge (blen h + 1) 0)), (proj2 (Z.eqb_neq (blen h + 1 + 1) (blen s))), (proj2 (Z.eqb_eq (blen h + 1 + 1) (blen h + 2))) by lia.
    rewrite slice_ok by lia.
    assert (Eh : bsub s 1 (blen h + 1) = h) by (rewrite E, Z.add_comm; exact (bsub_at [lbracket] h (rbracket :: colon :: p))). rewrite Eh, bind_Ok.
    pose proof (split_rest_eq s h ([lbracket] ++ h ++ [rbracket]) p [lbracket] (h ++ rbracket :: colon :: p) ([lbracket] ++ h ++ [rbracket]) (colon :: p) Ei E Ei) as Hs.
    rewrite L2 in Hs. change (blen [lbracket]) with 1 in Hs. replace (blen h + 1 + 1) with (blen h + 2) by lia.
    destruct (split_rest s h (blen h + 2) 1 (blen h + 2)) as [r|e| |]; [destruct Hs as [-> _]; done| |done..].
    exfalso. rewrite !elem_of_app, !elem_of_cons in Hs. unfold colon, lbracket, rbracket in *. naive_solver lia.
Qed.

Lemma SplitHostPort_gives s :
  match SplitHostPort s with Ok (h, p) => host_and_port s h p | Err _ => True | _ => False end.
Proof.
  unfold SplitHostPort. cbv zeta. destruct (Z.ltb_spec (last_index_byte s colon) 0) as [|Hi]; [done|].
  apply last_index_split in Hi as (x & p & E & Hp & ->). pose proof (blen_nonneg x). pose proof (blen_nonneg p).
  assert (L : blen s = blen x + 1 + blen p) by (rewrite E, blen_app, blen_cons; lia).
  rewrite (idx_ok s 0), bind_Ok by lia. destruct (Z.eqb_spec (gb s 0) lbracket) as [E0|E0].
  - destruct (Z.ltb_spec (index_byte s rbracket) 0) as [|Hr]; [done|]. apply index_byte_split in Hr as (a & b & Ea & Hna & ->).
    pose proof (blen_nonneg a). assert (La : blen s = blen a + 1 + blen b) by (rewrite Ea, blen_app, blen_cons; lia).
    destruct (Z.eqb_spec (blen a + 1) (blen s)) as [|Hl]; [done|]. pose proof (blen_nonneg b).
    destruct (Z.eqb_spec (blen a + 1) (blen x)) as [Hx|Hx].
    2: { rewrite idx_ok, bind_Ok by lia. by destruct (_ =? _). }
    assert (Ex : x = a ++ [rbracket]).
    { assert (Es : (a ++ [rbracket]) ++ b = x ++ colon :: p) by (rewrite <- app_assoc, <- E; done).
      apply app_inj_1 in Es as [<- _]; [done|]. unfold blen in *. rewrite length_app. cbn. lia. }
    subst x. destruct a as [|c a]. { exfalso. rewrite E in E0. cbn in E0. discriminate. }
    assert (c = lbracket) as -> by (rewrite E in E0; cbn in E0; done). change (lbracket :: a) with ([lbracket] ++ a) in *.
    assert (Eb : s = [lbracket] ++ a ++ rbracket :: colon :: p) by (rewrite E, <- !app_assoc; done).
    assert (L1 : blen ([lbracket] ++ a) = 1 + blen a) by (rewrite blen_app; done). pose proof (blen_nonneg a).
    rewrite slice_ok by lia. rewrite bind_Ok, L1, Eb. rewrite (bsub_at [lbracket] a). rewrite <- Eb.
    pose proof (split_rest_eq s a (([lbracket] ++ a) ++ [rbracket]) p [lbracket] (a ++ rbracket :: colon :: p) (([lbracket] ++ a) ++ [rbracket]) (colon :: p) E Eb E) as Hs.
    rewrite <- Hx, L1 in Hs. change (blen [lbracket]) with 1 in Hs. rewrite <- Hx, L1.
    destruct (split_rest _ _ _ _ _) as [r|e| |]; [|done..]. destruct Hs as (-> & Hv & Hv'). split.
    + apply free3. split; [done|]. rewrite elem_of_app, !elem_of_cons in Hv. rewrite elem_of_cons in Hv'. split; [tauto|tauto].
    + right. split; [|done]. apply free2. rewrite elem_of_app in Hv. apply not_elem_of_app in Hna as [_ Hna]. split; [tauto|done].
  - rewrite slice_ok by lia. rewrite bind_Ok. assert (Ex : bsub s 0 (blen x) = x) by (rewrite E; exact (bsub_at [] x (colon :: p))). rewrite Ex.
    destruct (decide (colon ∈ x)) as [Hx|Hx]; [by rewrite index_byte_nonneg by done|]. rewrite index_byte_neg by done.
    pose proof (split_rest_eq s x x p [] s [] s E eq_refl eq_refl) as Hs. change (blen []) with 0 in Hs.
    destruct (split_rest _ _ _ _ _) as [r|e| |]; [|done..]. destruct Hs as (-> & Hv & Hv').
    rewrite E, elem_of_app, elem_of_cons in Hv, Hv'. split; [apply free3; tauto|]. left. split; [apply free3; tauto|done].
Qed.
Lemma SplitHostPort_returns s : returns (SplitHostPort s).
Proof. pose proof (SplitHostPort_gives s). by destruct (SplitHostPort s). Qed.

(** Taking a joined address apart gives the parts. *)
Lemma SplitHostPort_join h p : free_of [lbracket; rbracket] h → plain_port p → SplitHostPort (JoinHostPort h p) = Ok (h, p).
Proof.
  intros Hh Hp. apply SplitHostPort_takes. split; [done|]. unfold JoinHostPort. destruct (decide (colon ∈ h)) as [Hc|Hc].
  - rewrite index_byte_nonneg by done. right. done.
  - rewrite index_byte_neg by done. left. split; [|done]. apply free3. apply free2 in Hh. tauto.
Qed.

(** ** [netip.ParseAddrPort] *)
Section AddrPort.
Context {D : Decoders}.
(** The address, the port and whether the address was bracketed. *)
Definition splitAddrPort (s : list Z) : Res (list Z * list Z * bool) :=
  let i := last_index_byte s colon in
  if i =? -1 then Err "not an ip:port" else
  ip ← slice s 0 i;
  port ← slice s (i + 1) (blen s);
  if blen ip =? 0 then Err "no IP" else
  if blen port =? 0 then Err "no port" else
  c ← idx ip 0;
  if c =? lbracket then
    if blen ip <? 2 then Err "missing ]" else
    e ← idx ip (blen ip - 1);
    if negb (e =? rbracket) then Err "missing ]" else
    ip ← slice ip 1 (blen ip - 1);
    Ok (ip, port, true)
  else Ok (ip, port, false).
Definition ParseAddrPort (s : list Z) : Res (Addr * Z) :=
  '(ip, port, v6) ← splitAddrPort s;
  match ParseUint16 port with
  | None => Err "invalid port"
  | Some p =>
      match ParseAddr ip with
      | None => Err "ParseAddr"
      | Some a =>
          if v6 && Is4 a then Err "square brackets can only be used with IPv6 addresses" else
          if negb v6 && Is6 a then Err "IPv6 addresses must be surrounded by square brackets" else
          Ok (a, p)
      end
  end.
Lemma ParseAddrPort_returns s : returns (ParseAddrPort s).
Proof.
  unfold ParseAddrPort. apply returns_bind.
  - unfold splitAddrPort. cbv zeta. destruct (Z.eqb_spec (last_index_byte s colon) (-1)) as [|Hn]; [exact I|].
    assert (Hi : 0 <= last_index_byte s colon).
    { destruct (decide (colon ∈ s)) as [Hc|Hc%last_index_none]; [|congruence]. apply list_elem_of_split_r in Hc as (a & b & -> & Hb).
      rewrite last_index_at by done. apply blen_nonneg. }
    apply last_index_split in Hi as (a & b & E & Hb & ->). pose proof (blen_nonneg a). pose proof (blen_nonneg b).
    assert (blen s = blen a + 1 + blen b) by (rewrite E, blen_app, blen_cons; lia).
    rewrite !slice_ok, !bind_Ok by lia. set (ip := bsub s 0 (blen a)). pose proof (blen_nonneg ip).
    destruct (Z.eqb_spec (blen ip) 0); [exact I|]. destruct (blen (bsub s (blen a + 1) (blen s)) =? 0); [exact I|]. rewrite (idx_ok ip 0), bind_Ok by lia.
    destruct (gb ip 0 =? lbracket); [|exact I]. destruct (Z.ltb_spec (blen ip) 2); [exact I|]. rewrite idx_ok, bind_Ok by lia.
    destruct (negb _); [exact I|]. rewrite slice_ok by lia. exact I.
  - intros [[ip port] v6] _. destruct (ParseUint16 port); [|exact I]. destruct (ParseAddr ip) as [a|]; [|exact I]. by destruct (v6 && Is4 a), (negb v6 && Is6 a).
Qed.
End AddrPort.
