(* ===== verification/ProxyDial.v ===== *)
(** * Sockets of the hostname proxy: [internal/engine/proxydial.go] and [proxy_windows.go]

    Before a proxy socket connects, the dialer's control callback registers its route
    in the table that the capture loop consults first.  What the operating system and
    the dialer do is an argument: the port that was reserved, the addresses the
    callback is given, the packets the new socket sends and how the dial ends
    ([attempt]).  Other users of the table run between those events ([Elsewhere]).  Each
    packet is noted with the table as the capture loop finds it at that moment
    ([sighting]); the code itself does not look at these notes.  Of an error only what the code asks of it is
    kept: the system call it names and whether it is a DNS error. *)

From S2P Require Import Prelude Netip GoStrings HostPort Packet FlowIndex Snapshot Routes Config Tracker Policy Windivert Runner.
Local Open Scope Z_scope.
#[local] Existing Instance ProxyRoute.proxyRouteKey_eq_dec.
#[local] Existing Instance ProxyRoute.proxyRouteKey_countable.
Import ProxyRoute.

Record go_error := mkGoError { ge_text : string; ge_syscall : option (list Z); ge_dns : bool }.
(** [strings.EqualFold] with a word whose letters fold only within ASCII. *)
Definition equal_fold (a b : list Z) : bool := bool_decide (map lower_byte a = map lower_byte b).
Definition isBindError (e : go_error) : bool :=
  match ge_syscall e with Some s => equal_fold s (lit "bind") | None => false end.
Definition isDNSLookupError (e : go_error) : bool := ge_dns e.

(** What the system answers when a port is asked for: the port or the error of the
    listen, and the error of the close. *)
Record reservation := mkReservation { rv_listen : Z + go_error; rv_close : option go_error }.
Definition reserveSourcePort (a : reservation) : Z + go_error :=
  match rv_listen a with
  | inr e => inr e
  | inl p => match rv_close a with Some e => inr e | None => inl p end
  end.

Record registeredConn := mkConn { rc_packet : bool; rc_keys : list proxyRouteKey }.
Fixpoint delete_keys (keys : list proxyRouteKey) (t : proxyRouteTable) : proxyRouteTable :=
  match keys with [] => t | k :: rest => delete_keys rest (DeleteKey k t) end.
(** [Close]: the routes are removed, then the socket is closed. *)
Definition Close (c : registeredConn) (t : proxyRouteTable) : proxyRouteTable := delete_keys (rc_keys c) t.

Inductive table_op :=
  | OpSet (now : Z) (k : proxyRouteKey) (tunnel : bool)
  | OpLookup (now : Z) (k : Key)
  | OpDeleteFlow (k : Key)
  | OpDeleteKey (k : proxyRouteKey)
  | OpSweep (now age : Z).
Definition apply_op (op : table_op) (t : proxyRouteTable) : proxyRouteTable :=
  match op with
  | OpSet now k tunnel => Set_ now k tunnel t
  | OpLookup now k => fst (Lookup now k t)
  | OpDeleteFlow k => DeleteFlow k t
  | OpDeleteKey k => DeleteKey k t
  | OpSweep now age => Sweep now age t
  end.
(** What happens during a dial: the callback is called for an address, the socket sends
    a packet to it (the first one when it connects), somebody else uses the table. *)
Inductive dial_event := Control (now : Z) (dialAddress : list Z) | Sends (dialAddress : list Z) | Elsewhere (op : table_op).
(** A packet of the socket on [sg_port], and the routes in force when it is captured. *)
Record sighting := mkSighting { sg_proto : Z; sg_port : Z; sg_addr : list Z; sg_table : proxyRouteTable }.
(** One attempt: the reserved port, what happens during [DialContext], and its
    outcome (whether the connection is a packet connection, or the error). *)
Record attempt := mkAttempt { at_port : reservation; at_events : list dial_event; at_result : bool + go_error }.

Section Dial.
Context {D : Decoders}.

Definition control (proto localPort : Z) (tunnel : bool) (now : Z) (dialAddress : list Z) : SR proxyRouteTable proxyRouteKey :=
  '(host, portText) ← liftR (SplitHostPort dialAddress);
  match ParseAddr (Trim host (lit "[]")) with
  | None => sfail "dial address not resolved to IP"
  | Some ip =>
      match ParseUint16 portText with
      | None => sfail "bad remote port"
      | Some port =>
          if port =? 0 then sfail "bad remote port" else
          let k := mkProxyKey proto (u16 localPort) (Unmap ip) port in
          fun t => (Set_ now k tunnel t, Ok k)
      end
  end.
(** The events of one attempt; [registered] collects the keys, [seen] the packets. *)
Fixpoint dial_events (proto localPort : Z) (tunnel : bool) (evs : list dial_event) (registered : list proxyRouteKey) (seen : list sighting)
    : SR proxyRouteTable (list proxyRouteKey * list sighting) :=
  match evs with
  | [] => mret (registered, seen)
  | Elsewhere op :: rest => fun t => dial_events proto localPort tunnel rest registered seen (apply_op op t)
  | Sends a :: rest => fun t => dial_events proto localPort tunnel rest registered (seen ++ [mkSighting proto localPort a t]) t
  | Control now a :: rest => fun t =>
      match control proto localPort tunnel now a t with
      | (t, Ok k) => dial_events proto localPort tunnel rest (registered ++ [k]) seen t
      | (t, Err _) => dial_events proto localPort tunnel rest registered seen t
      | (t, Panic) => (t, Panic)
      | (t, OutOfFuel) => (t, OutOfFuel)
      end
  end.
Fixpoint dial_loop (remaining : nat) (proto : Z) (tunnel : bool) (env : nat → attempt) (i : nat) (lastErr : go_error) (seen : list sighting)
    : SR proxyRouteTable ((registeredConn + go_error) * list sighting) :=
  match remaining with
  | O => mret (inr lastErr, seen)
  | S remaining =>
      let a := env i in
      match reserveSourcePort (at_port a) with
      | inr e => mret (inr (mkGoError "reserve proxy source port" (ge_syscall e) (ge_dns e)), seen)
      | inl localPort =>
          '(keys, seen) ← dial_events proto localPort tunnel (at_events a) [] seen;
          match at_result a with
          | inl packet => mret (inl (mkConn packet keys), seen)
          | inr e => fun t =>
              let t := delete_keys keys t in
              if isBindError e then dial_loop remaining proto tunnel env (S i) e seen t else (t, Ok (inr e, seen))
          end
      end
  end.
Definition no_error : go_error := mkGoError "" None false.
Definition dialProxyRegistered (network : list Z) (tunnel : bool) (env : nat → attempt)
    : SR proxyRouteTable ((registeredConn + go_error) * list sighting) :=
  if HasPrefix network (lit "udp") then dial_loop 4 17 tunnel env 0 no_error [] else
  if negb (HasPrefix network (lit "tcp")) then mret (inr (mkGoError "unsupported proxy network" None false), []) else
  dial_loop 4 6 tunnel env 0 no_error [].

(** ** The resolver that goes through the tunnel

    [n] is its counter, [addrString] is [netip.Addr.String]. *)
Definition resolver_target (addrString : Addr → list Z) (servers : list Addr) (n : Z) (network : list Z) : Res (Z * list Z * list Z) :=
  let n := u64 (n + 1) in
  let i := u64 (n - 1) `mod` blen servers in
  match servers !! Z.to_nat i with
  | None => Panic
  | Some server =>
      let isTCP := HasPrefix network (lit "tcp") in
      let network := if Is4 server then if isTCP then lit "tcp4" else lit "udp4" else if isTCP then lit "tcp6" else lit "udp6" in
      Ok (n, network, JoinHostPort (addrString server) (lit "53"))
  end.
Definition resolver_dial (addrString : Addr → list Z) (servers : list Addr) (n : Z) (network : list Z) (env : list Z → nat → attempt)
    : SR proxyRouteTable (Z * ((registeredConn + go_error) * list sighting)) :=
  '(n, network, a) ← liftR (resolver_target addrString servers n network);
  c ← dialProxyRegistered network true (env a);
  mret (n, c).

(** ** The engine's side *)
Definition tunnel_network (cfg : Config) (network : list Z) : list Z :=
  let has4 := snd (TunnelIPv4 cfg) in
  let has6 := snd (TunnelIPv6 cfg) in
  if Bool.eqb has4 has6 then network else
  if has4 then
    let network := if bool_decide (network = lit "tcp") then lit "tcp4" else network in
    if bool_decide (network = lit "udp") then lit "udp4" else network
  else
    let network := if bool_decide (network = lit "tcp") then lit "tcp6" else network in
    if bool_decide (network = lit "udp") then lit "udp6" else network.
(** The two dials see different worlds: [env] is told which resolver is used ([true]
    for the one through the tunnel) and on which network. *)
Definition DialProxy (network : list Z) (tunnel : bool) (env : bool → list Z → nat → attempt)
    : SR Runner ((registeredConn + go_error) * list sighting) :=
  r ← sget;
  let resolver := tunnel && (0 <? blen (cDNSServers (r_cfg r))) in
  let network := if tunnel then tunnel_network (r_cfg r) network else network in
  '(c, seen) ← zoom r_proxyRoutes set_proxyRoutes (dialProxyRegistered network tunnel (env resolver network));
  match c with
  | inl c => mret (inl c, seen)
  | inr e =>
      if negb tunnel || negb resolver || negb (isDNSLookupError e) then mret (inr e, seen) else
      '(c, again) ← zoom r_proxyRoutes set_proxyRoutes (dialProxyRegistered network tunnel (env false network));
      mret (c, seen ++ again)
  end.
End Dial.

Section Authorize.
Context {U : Unicode} {F : Platform} {D : Decoders}.
Context (enum : gmap Z entry → list (Z * entry)) (processInfo : Z → Process).

(** The decision without a known process. *)
Definition authorize_unknown (host why : list Z) : SR Runner (bool * list Z) :=
  r ← sget;
  d ← liftR (DecideHost Process0 host (policy_of r));
  if dTunnel d then _ ← incr proxyTunnelled; mret (true, dReason d ++ lit "/global")
  else _ ← incr proxyDirected; mret (false, why).
Definition proxy_owner (env : capture_env) (key : Key) : SR Runner (option Process) :=
  r ← sget;
  match eP <$> FlowIndex.Lookup enum key (r_flows r) with
  | Some proc => mret (Some proc)
  | None =>
      o ← waitLookup enum key (ce_wakeups env);
      match o with
      | Some proc => mret (Some proc)
      | None => liftR (ResolveSocketOwner processInfo (ce_table env) key)
      end
  end.
Definition AuthorizeProxyClient (env : capture_env) (clientAddr proxyAddr host : list Z) : SR Runner (bool * list Z) :=
  client ← Runner.attempt (liftR (ParseAddrPort clientAddr));
  proxy ← Runner.attempt (liftR (ParseAddrPort proxyAddr));
  match client, proxy with
  | inl (ca, cp), inl (pa, pp) =>
      o ← proxy_owner env (FlowIndex.mkKey 6 (Unmap ca) (Unmap pa) cp pp);
      match o with
      | None => authorize_unknown host (lit "client-process-unresolved")
      | Some proc =>
          r ← sget;
          d ← liftR (DecideHost proc host (policy_of r));
          if dTunnel d then _ ← incr proxyTunnelled; mret (true, prName proc ++ lit "/" ++ dGroup d)
          else _ ← incr proxyDirected; mret (false, prName proc ++ lit "/no-matching-group")
      end
  | _, _ => authorize_unknown host (lit "client-address-unresolved")
  end.
End Authorize.
