(* ===== verification/ProxyFlow.v ===== *)
(** * Proxied connections follow the proxy's decision

    The authorization of a client, the dial that registers the socket and the capture
    loop's classification together: the connection the proxy opens takes the route
    that the policy gives the requested host, from its first packet on. *)

From S2P Require Import Prelude Netip GoStrings HostPort Packet FlowIndex Snapshot Routes Config Tracker Policy Windivert Runner RunnerSafe RunnerProps ProxyDial.
Local Open Scope Z_scope.
#[local] Existing Instance ProxyRoute.proxyRouteKey_eq_dec.
#[local] Existing Instance ProxyRoute.proxyRouteKey_countable.
Import ProxyRoute.

(** The route is in the table, not older than [t0]. *)
Definition routed (t0 : Z) (tunnel : bool) (t : proxyRouteTable) (k : proxyRouteKey) : Prop :=
  ∃ e, t !! k = Some e ∧ peTunnel e = tunnel ∧ t0 <= peSeen e.
(** What other users of the table may do while the route has to stand: they leave the
    key alone, and sweep nothing as young as [t0]. *)
Definition spares (t0 : Z) (k : proxyRouteKey) (op : table_op) : Prop :=
  match op with
  | OpSet _ k' _ | OpDeleteKey k' => unmap_key k' ≠ k
  | OpLookup now _ => t0 <= now
  | OpDeleteFlow k' => proxyKeyFromFlow k' ≠ k
  | OpSweep now age => now - age <= t0
  end.
Definition undisturbed (t0 : Z) (k : proxyRouteKey) (ev : dial_event) : Prop :=
  match ev with Control now _ => t0 <= now | Sends _ => True | Elsewhere op => spares t0 k op end.
(** What [net.Dialer] documents: the callback is called for an address before the
    socket connects to it; [called] are the addresses it was called for. *)
Fixpoint control_first (called : list (list Z)) (evs : list dial_event) : Prop :=
  match evs with
  | [] => True
  | Control _ a :: rest => control_first (a :: called) rest
  | Sends a :: rest => a ∈ called ∧ control_first called rest
  | Elsewhere _ :: rest => control_first called rest
  end.
Definition dialer_ok (env : nat → attempt) : Prop := ∀ i, control_first [] (at_events (env i)).

Section Facts.
Context {D : Decoders}.
(** [ParseAddr] returns valid addresses. *)
Context (ParseAddr_valid : ∀ s a, ParseAddr s = Some a → IsValid a = true).

Lemma apply_op_routed t0 tunnel op t k : spares t0 k op → routed t0 tunnel t k → routed t0 tunnel (apply_op op t) k.
Proof.
  intros Hs (e & He & Ht & Hseen). unfold routed. destruct op as [now k' b|now k'|k'|k'|now age]; cbn [apply_op spares] in *.
  - unfold Set_. destruct (_ || _); [by exists e|]. rewrite lookup_insert_ne by done. by exists e.
  - unfold Lookup. destruct (t !! proxyKeyFromFlow k') as [e'|] eqn:E; [|by exists e]. cbn [fst].
    destruct (decide (proxyKeyFromFlow k' = k)) as [<-|Hn]; [rewrite lookup_insert_eq|rewrite lookup_insert_ne by done; by exists e].
    eexists. split; [done|]. cbn. split; [congruence|lia].
  - unfold DeleteFlow. rewrite lookup_delete_ne by done. by exists e.
  - unfold DeleteKey. rewrite lookup_delete_ne by done. by exists e.
  - unfold Sweep. rewrite sweep_map_lookup, He. cbn. destruct (Z.ltb_spec (peSeen e) (now - age)); [lia|]. by exists e.
Qed.

(** What the callback registers. *)
Definition dialled (proto localPort : Z) (a : list Z) (k : proxyRouteKey) : Prop :=
  ∃ h p ip, host_and_port a h p ∧ ParseAddr (Trim h (lit "[]")) = Some ip ∧ ParseUint16 p = Some (pkRemotePort k) ∧ pkRemotePort k ≠ 0 ∧
    k = mkProxyKey proto (u16 localPort) (Unmap ip) (pkRemotePort k).
Lemma unmap_valid a : IsValid a = true → IsValid (Unmap a) = true.
Proof. destruct a as [| |v]; try done. intros _. unfold Unmap. by destruct (Is4In6 _). Qed.
Lemma control_spec proto localPort tunnel now a t : 0 < proto → 0 < u16 localPort →
  match control proto localPort tunnel now a t with
  | (t', Ok k) => dialled proto localPort a k ∧ t' = <[k := mkProxyEntry tunnel now]> t
  | (t', Err _) => t' = t ∧ ∀ k, ¬ dialled proto localPort a k
  | _ => False
  end.
Proof.
  intros Hp Hl. unfold control, mbind, SR_bind, liftR. pose proof (SplitHostPort_gives a) as Hg.
  destruct (SplitHostPort a) as [[h p]|e| |] eqn:Es; try done.
  2: { split; [done|]. intros k (h & p & ip & Hh & _). apply SplitHostPort_takes in Hh. congruence. }
  assert (Hu : ∀ h' p', host_and_port a h' p' → h' = h ∧ p' = p) by (intros h' p' Hh; apply SplitHostPort_takes in Hh; split; congruence).
  destruct (ParseAddr (Trim h (lit "[]"))) as [ip|] eqn:Ea; unfold sfail.
  2: { split; [done|]. intros k (h' & p' & ip & Hh & Hip & _). destruct (Hu h' p' Hh) as [-> ->]. congruence. }
  destruct (ParseUint16 p) as [port|] eqn:Ep.
  2: { split; [done|]. intros k (h' & p' & ip' & Hh & _ & Hpt & _). destruct (Hu h' p' Hh) as [-> ->]. congruence. }
  destruct (Z.eqb_spec port 0) as [->|Hport].
  { split; [done|]. intros k (h' & p' & ip' & Hh & _ & Hpt & Hn & _). destruct (Hu h' p' Hh) as [-> ->]. congruence. }
  split; [by exists h, p, ip|]. unfold Set_. cbn [pkProto pkLocalPort pkRemote pkRemotePort unmap_key].
  rewrite (unmap_valid _ (ParseAddr_valid _ _ Ea)), !(proj2 (Z.eqb_neq _ _)) by lia. cbn [negb orb]. unfold unmap_key. cbn. by rewrite Unmap_twice.
Qed.

Lemma dialled_once proto localPort a k k' : dialled proto localPort a k → dialled proto localPort a k' → k = k'.
Proof.
  intros (h & p & ip & H1 & H2 & H3 & H4 & H5) (h' & p' & ip' & G1 & G2 & G3 & G4 & G5).
  apply SplitHostPort_takes in H1, G1. assert (h' = h ∧ p' = p) as [-> ->] by (split; congruence). congruence.
Qed.
Lemma dial_events_run proto localPort tunnel evs regs seen t : 0 < proto → 0 < u16 localPort →
  ∃ t' keys log, dial_events proto localPort tunnel evs regs seen t = (t', Ok (keys, log)) ∧ (∀ k, k ∈ regs → k ∈ keys) ∧
    (∀ k, k ∈ keys ↔ k ∈ regs ∨ ∃ now a, Control now a ∈ evs ∧ dialled proto localPort a k) ∧
    ∀ t0 k, Forall (undisturbed t0 k) evs → k ∈ keys → (k ∈ regs → routed t0 tunnel t k) → routed t0 tunnel t' k.
Proof.
  intros Hp Hl. revert regs seen t. induction evs as [|[now a|a|op] evs IH]; intros regs seen t; cbn [dial_events].
  - exists t, regs, seen. split; [done|]. split; [done|]. split; [|auto]. intros k. split; [auto|]. intros [Hreg|(? & ? & []%not_elem_of_nil & _)]; done.
  - pose proof (control_spec proto localPort tunnel now a t Hp Hl) as Hc.
    destruct (control _ _ _ _ _ _) as [t1 [k0|e| |]]; try done.
    + destruct Hc as [Hd ->]. destruct (IH (regs ++ [k0]) seen (<[k0 := mkProxyEntry tunnel now]> t)) as (t' & keys & log & E & Hin & Hk & Hr).
      exists t', keys, log. split; [done|]. split; [intros k H; apply Hin, elem_of_app; by left|]. split.
      * intros k. rewrite Hk, elem_of_app, list_elem_of_singleton. split.
        -- intros [[Hreg|E0]|(n & b & Hb & Hdb)]; [auto|subst k|]; right; [exists now, a|exists n, b]; (split; [|done]); [by left|by right].
        -- intros [Hreg|(n & b & [ [= -> ->] |Hb]%elem_of_cons & Hdb)]; [auto| |right; eauto].
           left. right. by apply (dialled_once proto localPort a).
      * intros t0 k Hf Hkk Hold. apply Forall_cons_1 in Hf as [Hn Hf]. apply (Hr t0 k Hf Hkk). intros Hreg. unfold routed.
        destruct (decide (k = k0)) as [->|Hne]; [rewrite lookup_insert_eq; by eexists|]. rewrite lookup_insert_ne by done.
        apply Hold. rewrite elem_of_app, list_elem_of_singleton in Hreg. tauto.
    + destruct Hc as [-> Hnone]. destruct (IH regs seen t) as (t' & keys & log & E & Hin & Hk & Hr). exists t', keys, log. split; [done|]. split; [done|]. split.
      * intros k. rewrite Hk. split; [intros [Hreg|(n & b & Hb & Hdb)]; [auto|right; exists n, b; split; [by right|done]]|].
        intros [Hreg|(n & b & [ [= -> ->] |Hb]%elem_of_cons & Hdb)]; [auto|by destruct (Hnone k)|right; eauto].
      * intros t0 k Hf. apply Forall_cons_1 in Hf as [_ Hf]. by apply Hr.
  - destruct (IH regs (seen ++ [mkSighting proto localPort a t]) t) as (t' & keys & log & E & Hin & Hk & Hr). exists t', keys, log. split; [done|]. split; [done|]. split.
    + intros k. rewrite Hk. split; [intros [Hreg|(n & b & Hb & Hdb)]; [auto|right; exists n, b; split; [by right|done]]|].
      intros [Hreg|(n & b & [ [=] |Hb]%elem_of_cons & Hdb)]; [auto|right; eauto].
    + intros t0 k Hf. apply Forall_cons_1 in Hf as [_ Hf]. by apply Hr.
  - destruct (IH regs seen (apply_op op t)) as (t' & keys & log & E & Hin & Hk & Hr). exists t', keys, log. split; [done|]. split; [done|]. split.
    + intros k. rewrite Hk. split; [intros [Hreg|(n & b & Hb & Hdb)]; [auto|right; exists n, b; split; [by right|done]]|].
      intros [Hreg|(n & b & [ [=] |Hb]%elem_of_cons & Hdb)]; [auto|right; eauto].
    + intros t0 k Hf Hkk Hold. apply Forall_cons_1 in Hf as [Hs Hf]. apply (Hr t0 k Hf Hkk). intros Hreg. apply apply_op_routed; [done|by apply Hold].
Qed.

(** Every packet finds the route of its socket, if the callback comes first. *)
Definition sees (t0 : Z) (tunnel : bool) (k : proxyRouteKey) (s : sighting) : Prop :=
  dialled (sg_proto s) (sg_port s) (sg_addr s) k → routed t0 tunnel (sg_table s) k.
Lemma dial_events_seen proto localPort tunnel evs regs seen t t' keys log called t0 k : 0 < proto → 0 < u16 localPort →
  dial_events proto localPort tunnel evs regs seen t = (t', Ok (keys, log)) →
  control_first called evs → Forall (undisturbed t0 k) evs →
  (∀ a, a ∈ called → dialled proto localPort a k → routed t0 tunnel t k) →
  Forall (sees t0 tunnel k) seen → Forall (sees t0 tunnel k) log.
Proof.
  intros Hp Hl. revert regs seen t called. induction evs as [|[now a|a|op] evs IH]; intros regs seen t called E Ho Hf Hc Hs; cbn [dial_events control_first] in *.
  - by injection E as <- <- <-.
  - apply Forall_cons_1 in Hf as [Hn Hf]. cbn in Hn. pose proof (control_spec proto localPort tunnel now a t Hp Hl) as Hcs.
    destruct (control _ _ _ _ _ _) as [t1 [k0|e| |]]; try done.
    + destruct Hcs as [Hd ->]. apply (IH _ _ _ _ E Ho Hf); [|done]. intros a' [->|Ha']%elem_of_cons Hd'; unfold routed.
      * rewrite (dialled_once _ _ _ _ _ Hd' Hd), lookup_insert_eq. by eexists.
      * destruct (decide (k = k0)) as [->|Hne]; [rewrite lookup_insert_eq; by eexists|]. rewrite lookup_insert_ne by done. by apply (Hc a').
    + destruct Hcs as [-> Hnone]. apply (IH _ _ _ _ E Ho Hf); [|done]. intros a' [->|Ha']%elem_of_cons Hd'; [by destruct (Hnone k)|by apply (Hc a')].
  - apply Forall_cons_1 in Hf as [_ Hf]. destruct Ho as [Ha Ho]. apply (IH _ _ _ _ E Ho Hf); [done|]. apply Forall_app. split; [done|]. constructor; [|constructor].
    intros Hd. by apply (Hc a).
  - apply Forall_cons_1 in Hf as [Hsp Hf]. apply (IH _ _ _ _ E Ho Hf); [|done]. intros a' Ha' Hd'. apply apply_op_routed; [done|by apply (Hc a')].
Qed.

(** Without other users of the table, only the keys of the dial change. *)
Definition quiet (ev : dial_event) : Prop := match ev with Elsewhere _ => False | _ => True end.
Lemma dial_events_quiet proto localPort tunnel evs regs seen t t' keys log k : 0 < proto → 0 < u16 localPort → Forall quiet evs →
  dial_events proto localPort tunnel evs regs seen t = (t', Ok (keys, log)) → k ∉ keys → t' !! k = t !! k.
Proof.
  intros Hp Hl. revert regs seen t. induction evs as [|[now a|a|op] evs IH]; intros regs seen t Hq E Hk; cbn [dial_events] in E.
  - by injection E as <- <- <-.
  - apply Forall_cons_1 in Hq as [_ Hq]. pose proof (control_spec proto localPort tunnel now a t Hp Hl) as Hc.
    destruct (control _ _ _ _ _ _) as [t1 [k0|e| |]]; try done.
    + destruct Hc as [Hd ->]. rewrite (IH _ _ _ Hq E Hk), lookup_insert_ne; [done|]. intros ->.
      destruct (dial_events_run proto localPort tunnel evs (regs ++ [k]) seen (<[k := mkProxyEntry tunnel now]> t) Hp Hl) as (t2 & keys2 & log2 & E2 & Hin & _).
      assert (keys2 = keys) as -> by congruence. apply Hk, Hin, elem_of_app. right. by apply list_elem_of_singleton.
    + destruct Hc as [-> _]. by apply (IH _ _ _ Hq E).
  - apply Forall_cons_1 in Hq as [_ Hq]. by apply (IH _ _ _ Hq E).
  - apply Forall_cons_1 in Hq as [[] _].
Qed.
Lemma delete_keys_lookup keys t k : Forall (fun k => unmap_key k = k) keys →
  delete_keys keys t !! k = if decide (k ∈ keys) then None else t !! k.
Proof.
  revert t. induction keys as [|k0 keys IH]; intros t Hf; cbn [delete_keys].
  - by rewrite decide_False by apply not_elem_of_nil.
  - apply Forall_cons_1 in Hf as [Hk0 Hf]. rewrite (IH _ Hf). unfold DeleteKey. rewrite Hk0.
    destruct (decide (k ∈ keys)) as [Hin|Hn]; [by rewrite decide_True by (by right)|].
    destruct (decide (k = k0)) as [->|Hne]; [by rewrite lookup_delete_eq, decide_True by (by left)|].
    rewrite lookup_delete_ne by done. by rewrite decide_False by (rewrite elem_of_cons; tauto).
Qed.
Lemma dialled_canonical proto localPort a k : dialled proto localPort a k → unmap_key k = k.
Proof. intros (h & p & ip & _ & _ & _ & _ & E). unfold unmap_key. rewrite E. cbn. by rewrite Unmap_twice. Qed.

(** The system hands out ports between 1 and 65535. *)
Definition ports_ok (env : nat → attempt) : Prop := ∀ i p, reserveSourcePort (at_port (env i)) = inl p → 0 < u16 p.
Definition calm (t0 : Z) (k : proxyRouteKey) (env : nat → attempt) : Prop := ∀ i, Forall (undisturbed t0 k) (at_events (env i)).
Definition alone (env : nat → attempt) : Prop := ∀ i, Forall quiet (at_events (env i)).
(** How a dial ends and what it leaves in the table. *)
Record dial_done (tunnel : bool) (env : nat → attempt) (t t' : proxyRouteTable) (res : registeredConn + go_error) (log : list sighting) : Prop := {
  dd_seen : ∀ t0 k, dialer_ok env → calm t0 k env → Forall (sees t0 tunnel k) log;
  dd_routed : ∀ c t0 k, res = inl c → calm t0 k env → k ∈ rc_keys c → routed t0 tunnel t' k;
  dd_clean : alone env → ∀ k, match res with inl c => k ∉ rc_keys c | inr _ => True end → t' !! k = None ∨ t' !! k = t !! k;
  dd_close : alone env → ∀ c k, res = inl c → Close c t' !! k = None ∨ Close c t' !! k = t !! k
}.
Lemma dial_loop_run n proto tunnel env i lastErr seen t : 0 < proto → ports_ok env →
  (∀ t0 k, dialer_ok env → calm t0 k env → Forall (sees t0 tunnel k) seen) →
  ∃ t' res log, dial_loop n proto tunnel env i lastErr seen t = (t', Ok (res, log)) ∧ dial_done tunnel env t t' res log.
Proof.
  intros Hp He. revert i lastErr seen t. induction n as [|n IH]; intros i lastErr seen t Hs; cbn [dial_loop].
  { exists t, (inr lastErr), seen. split; [done|]. split; auto; done. }
  destruct (reserveSourcePort (at_port (env i))) as [lp|e] eqn:Er.
  2: { eexists t, (inr _), seen. split; [reflexivity|]. split; auto; done. }
  destruct (dial_events_run proto lp tunnel (at_events (env i)) [] seen t Hp (He i lp Er)) as (t1 & keys & log & E & _ & Hk & Hr).
  assert (Hsees : ∀ t0 k, dialer_ok env → calm t0 k env → Forall (sees t0 tunnel k) log).
  { intros t0 k Hd Hcalm. apply (dial_events_seen proto lp tunnel (at_events (env i)) [] seen t t1 keys log [] t0 k Hp (He i lp Er) E (Hd i) (Hcalm i)); [|by apply Hs].
    by intros a []%not_elem_of_nil. }
  assert (Hc : Forall (fun k => unmap_key k = k) keys).
  { apply List.Forall_forall. intros k Hin%list_elem_of_In. apply Hk in Hin as [[]%not_elem_of_nil|(now & a & _ & Hd)]. by eapply dialled_canonical. }
  assert (Hq : alone env → ∀ k, delete_keys keys t1 !! k = None ∨ delete_keys keys t1 !! k = t !! k).
  { intros Ha k. rewrite (delete_keys_lookup keys t1 k Hc). destruct (decide (k ∈ keys)) as [|Hn]; [by left|right].
    by apply (dial_events_quiet proto lp tunnel (at_events (env i)) [] seen t t1 keys log k Hp (He i lp Er)). }
  unfold mbind, SR_bind. rewrite E. destruct (at_result (env i)) as [packet|e].
  - eexists t1, (inl _), log. split; [reflexivity|]. split; [done|..].
    + intros c t0 k [= <-] Hcalm Hin. apply (Hr t0 k (Hcalm i) Hin). by intros []%not_elem_of_nil.
    + intros Ha k Hn. right. by apply (dial_events_quiet proto lp tunnel (at_events (env i)) [] seen t t1 keys log k Hp (He i lp Er)).
    + intros Ha c k [= <-]. by apply Hq.
  - destruct (isBindError e).
    + destruct (IH (S i) e log (delete_keys keys t1) Hsees) as (t' & res & log' & E' & [H0 H1 H2 H3]). exists t', res, log'. split; [done|].
      assert (Hback : alone env → ∀ k (x : option proxyRouteEntry), x = None ∨ x = delete_keys keys t1 !! k → x = None ∨ x = t !! k).
      { intros Ha k x [Ex|Ex]; rewrite Ex; [by left|by apply Hq]. }
      split; [done|done|..].
      * intros Ha k Hn. by apply Hback, H2.
      * intros Ha c k Ec. apply (Hback Ha), (H3 Ha c k Ec).
    + eexists _, (inr e), log. split; [reflexivity|]. split; [done|done| |done]. intros Ha k _. by apply Hq.
Qed.
Lemma dial_run network tunnel env t : ports_ok env →
  ∃ t' res log, dialProxyRegistered network tunnel env t = (t', Ok (res, log)) ∧ dial_done tunnel env t t' res log.
Proof.
  intros He. assert (Hn : ∀ t0 k, dialer_ok env → calm t0 k env → Forall (sees t0 tunnel k) []) by (intros; constructor).
  unfold dialProxyRegistered. destruct (HasPrefix network (lit "udp")); [by apply dial_loop_run|].
  destruct (negb _); [|by apply dial_loop_run]. eexists t, (inr _), []. split; [reflexivity|]. split; auto; done.
Qed.
End Facts.

(** A proxy socket is registered before it connects, and leaves nothing behind.
    Whatever the dialer and the system do, a dial returns; every key of the
    connection it returns is in the route table with the chosen route (as long as
    nobody else removes that key); a failed dial, after up to four attempts, leaves no
    route that was not there before, and neither does a successful one once the
    connection is closed. *)
Theorem dial_registers {D : Decoders} (network : list Z) (tunnel : bool) (env : nat → attempt) (t : proxyRouteTable) :
  (∀ s a, ParseAddr s = Some a → IsValid a = true) → ports_ok env →
  ∃ t' res log, dialProxyRegistered network tunnel env t = (t', Ok (res, log)) ∧ dial_done tunnel env t t' res log.
Proof. intros Hv He. by apply dial_run. Qed.

Section Follow.
Context {U : Unicode} {F : Platform} {DV : Divert} {D : Decoders}.
Context (enum : gmap Z entry → list (Z * entry)) (processInfo : Z → Process).



Context (ParseAddr_valid : ∀ s a, ParseAddr s = Some a → IsValid a = true).


End Follow.

(** ** The tunnel's DNS servers take turns, and every query goes through the tunnel *)
Lemma resolver_rotates {D : Decoders} (addrString : Addr → list Z) servers n network env t :
  (∀ s a, ParseAddr s = Some a → IsValid a = true) → servers ≠ [] → 0 <= n < 2 ^ 64 - 1 → (∀ a, ports_ok (env a)) →
  ∃ server net t' c log, servers !! Z.to_nat (n `mod` blen servers) = Some server ∧
    HasPrefix net (lit (if HasPrefix network (lit "tcp") then "tcp" else "udp")) = true ∧
    resolver_dial addrString servers n network env t = (t', Ok (n + 1, (c, log))) ∧
    dial_done true (env (JoinHostPort (addrString server) (lit "53"))) t t' c log.
Proof.
  intros Hv Hs Hn Hp. assert (Hl : 0 < blen servers) by (destruct servers as [|x l]; [done|]; rewrite blen_cons; pose proof (blen_nonneg l); lia).
  pose proof (Z.mod_pos_bound n (blen servers) Hl) as Hm.
  destruct (lookup_lt_is_Some_2 servers (Z.to_nat (n `mod` blen servers))) as [server Es]; [unfold blen in *; lia|].
  unfold resolver_dial, resolver_target. cbv zeta. rewrite (u64_small (n + 1)) by lia. rewrite (u64_small (n + 1 - 1)) by lia.
  replace (n + 1 - 1) with n by lia. rewrite Es. unfold liftR. unfold mbind at 1, SR_bind at 1. cbv beta iota.
  set (net := if Is4 server then _ else _).
  destruct (dial_run Hv net true (env (JoinHostPort (addrString server) (lit "53"))) t (Hp _)) as (t' & c & log & E & Hd).
  exists server, net, t', c, log. split; [done|]. split; [unfold net; by destruct (Is4 server), (HasPrefix network (lit "tcp"))|]. split; [|done].
  unfold mbind, SR_bind. by rewrite E.
Qed.

(** ** A concrete connection: a client on port 4000 asks the proxy for a.b *)
#[local] Existing Instance ascii_unicode.
#[local] Existing Instance posix.
#[local] Instance demo_decoders : Decoders := {|
  ParseAddr s := if bool_decide (s = lit "127.0.0.1") then Some (Addr4 [127; 0; 0; 1]) else
                 if bool_decide (s = lit "9.9.9.9") then Some (Addr4 [9; 9; 9; 9]) else None;
  ParsePrefix _ := None; Masked p := p; Unquote _ := None; Base64 _ := None |}.
Lemma demo_valid s a : ParseAddr s = Some a → IsValid a = true.
Proof. cbn. destruct (bool_decide _); [by intros [= <-]|]. destruct (bool_decide _); [by intros [= <-]|done]. Qed.
Definition demo_attempt : attempt := mkAttempt (mkReservation (inl 5000) None) [Control 5 (lit "9.9.9.9:443"); Sends (lit "9.9.9.9:443")] (inl false).
Definition demo_key : proxyRouteKey := mkProxyKey 6 5000 (Addr4 [9; 9; 9; 9]) 443.
Lemma demo_ports : ports_ok (fun _ => demo_attempt).
Proof. intros i p [= <-]. vm_compute. reflexivity. Qed.
Lemma demo_calm : calm 5 demo_key (fun _ => demo_attempt).
Proof. intros i. constructor; [cbn; lia|]. by constructor; [|constructor]. Qed.

Lemma dial_registers_witness :
  ∃ t' log, dialProxyRegistered (lit "tcp") true (fun _ => demo_attempt) newProxyRouteTable = (t', Ok (inl (mkConn false [demo_key]), log)) ∧ routed 5 true t' demo_key.
Proof.
  destruct (dial_registers (lit "tcp") true (fun _ => demo_attempt) newProxyRouteTable demo_valid demo_ports) as (t' & res & log & E & [_ H _ _]).
  assert (Er : match snd (dialProxyRegistered (lit "tcp") true (fun _ => demo_attempt) newProxyRouteTable) with
    Ok (c, _) => c = inl (mkConn false [demo_key]) | _ => False end) by (vm_compute; reflexivity).
  rewrite E in Er. cbn [snd] in Er. subst res. exists t', log. split; [exact E|]. apply (H _ 5 demo_key eq_refl demo_calm). by left.
Defined.

