(* ===== verification/BrowserProxy.v ===== *)
(** * The hostname proxy: [internal/browserproxy/proxy.go]

    A local HTTP proxy that browsers reach through a PAC file: it accepts only the
    configured domains, asks the engine for the route of each host and dials with that
    route.  A request handler is a function from the server's state and the outcomes
    of what it calls (dial, hijack, write, round trip) to the state and the effects in
    order.  [net/http] itself is the caller. *)

From S2P Require Import Prelude Netip GoStrings Config HostPort.
Local Open Scope Z_scope.

(** ** Strings *)
Definition quote : Z := 39.
Definition backslash_ : Z := 92.
(** [strings.ReplaceAll(s, c, by)] for a one-byte [c]. *)
Definition replace_with (c : Z) (by_ s : list Z) : list Z := flat_map (fun x => if x =? c then by_ else [x]) s.
Definition jsQuote (s : list Z) : list Z :=
  let s := replace_with backslash_ [backslash_; backslash_] s in
  let s := replace_with quote [backslash_; quote] s in
  [quote] ++ s ++ [quote].
(** [strings.Join] *)
Fixpoint Join (xs : list (list Z)) (sep : list Z) : list Z :=
  match xs with
  | [] => []
  | [x] => x
  | x :: rest => x ++ sep ++ Join rest sep
  end.
Definition count_byte (s : list Z) (c : Z) : Z := blen (List.filter (Z.eqb c) s).

Section Proxy.
Context {U : Unicode}.

Fixpoint normalize_loop (xs : list (list Z)) (seen out : list (list Z)) : list (list Z) :=
  match xs with
  | [] => out
  | x :: rest =>
      let x := ToLower (TrimSuffix (TrimSpace x) (lit ".")) in
      if bool_decide (x = []) || bool_decide (x = star) then normalize_loop rest seen out else
      if bool_decide (x ∈ seen) then normalize_loop rest seen out else
      normalize_loop rest (x :: seen) (out ++ [x])
  end.
Definition normalize (xs : list (list Z)) : list (list Z) := normalize_loop xs [] [].

(** ** The PAC file *)
Definition condition (p : list Z) : Res (list Z) :=
  if HasPrefix p (lit "*.") then
    base ← slice p 2 (blen p);
    Ok (lit "dnsDomainIs(h, " ++ jsQuote (lit "." ++ base) ++ lit ")")
  else Ok (lit "h === " ++ jsQuote p).
Fixpoint conditions (ps : list (list Z)) : Res (list (list Z)) :=
  match ps with
  | [] => Ok []
  | p :: rest => c ← condition p; cs ← conditions rest; Ok (c :: cs)
  end.
Definition PAC (patterns : list (list Z)) (addr : list Z) : Res (list Z) :=
  cond ← conditions patterns;
  let expr := match cond with [] => lit "false" | _ => Join cond (lit " || ") end in
  Ok (lit "function FindProxyForURL(url, host) { var h=(host||'').toLowerCase(); if (" ++ expr ++ lit ") return 'PROXY " ++ addr
      ++ lit "'; return 'DIRECT'; }" ++ [10]).

Definition matchesHost (patterns : list (list Z)) (host : list Z) : Res bool := match_any patterns host.

Definition splitTarget (authority defaultPort : list Z) : Res (list Z * list Z) :=
  let authority := TrimSpace authority in
  if bool_decide (authority = []) then Err "empty target" else
  '(h, p) ← (match SplitHostPort authority with
             | Err e => if contains_byte authority colon && (1 <? count_byte authority colon) then Err e else Ok (authority, defaultPort)
             | r => r
             end);
  let p := if bool_decide (p = []) then defaultPort else p in
  match Atoi p with
  | None => Err "bad port"
  | Some _ => Ok (Trim h (lit "[]"), JoinHostPort (Trim h (lit "[]")) p)
  end.

(** ** The server *)
Record limitedLogState := mkLimited { ll_last : option Z; ll_suppressed : Z }.
Record Server := mkServer { sv_addr : list Z; sv_patterns : list (list Z); sv_logging : bool; sv_logState : gmap (list Z) limitedLogState }.
(** [Start], given the address the listener got. *)
Definition Start (listen : Res (list Z)) (patterns : list (list Z)) (logging : bool) : Res Server :=
  addr ← listen; Ok (mkServer addr (normalize patterns) logging ∅).
Definition PACURL (s : Server) : list Z := lit "http://" ++ sv_addr s ++ lit "/proxy.pac".

(** [Close] through its [sync.Once]; [shutdown] is the error of [http.Server.Shutdown].
    The state: whether it has run, and whether the listener is open. *)
Definition ServerClose (shutdown : option string) (st : bool * bool) : (bool * bool) * option string :=
  let '(closed, listening) := st in
  if closed : bool then (st, None) else ((true, false), shutdown).
Lemma ServerClose_once e1 e2 st : let st' := fst (ServerClose e1 (false, st)) in st' = (true, false) ∧ ServerClose e2 st' = (st', None).
Proof. done. Qed.

(** [logLimited]: [Some n] when a line is written, reporting [n] suppressed ones. *)
Definition logLimited (key : list Z) (interval now : Z) (s : Server) : Server * option Z :=
  if negb (sv_logging s) then (s, None) else
  let st := default (mkLimited None 0) (sv_logState s !! key) in
  let put st := mkServer (sv_addr s) (sv_patterns s) (sv_logging s) (<[key := st]> (sv_logState s)) in
  let soon := match ll_last st with Some last => now - last <? interval | None => false end in
  if soon then (put (mkLimited (ll_last st) (u64 (ll_suppressed st + 1))), None)
  else (put (mkLimited (Some now) 0), Some (ll_suppressed st)).

(** What a handler does to the outside. *)
Inductive effect :=
  | Status (code : Z)                                   (** a reply of the proxy's own *)
  | ServePAC (text : list Z)
  | Dial (network target : list Z) (tunnel : bool)
  | Hijacked                                            (** the client's connection is the handler's now *)
  | CloseUpstream
  | CloseClient
  | Established                                         (** the CONNECT reply is written *)
  | Bridge                                              (** client and upstream are handed to [bridge] *)
  | RoundTrip (scheme host : list Z) (tunnel : bool)
  | Forwarded (code : Z)
  | CloseBody                                           (** of the upstream's response *)
  | CloseIdle.                                          (** the transport's idle connections *)
Record request := mkRequest { rq_method : list Z; rq_path : list Z; rq_scheme : list Z; rq_urlHost : list Z; rq_host : list Z; rq_remote : list Z }.
(** The outcomes of the calls a handler makes, and the clock. *)
Record outcomes := mkOutcomes { oc_now : Z; oc_dial : option (list Z) (* the error *); oc_hijacker : bool; oc_hijack : bool; oc_write : bool;
  oc_response : Z + list Z }.

Section Handlers.
(** [authorize]; [None] when it is nil. *)
Context (authorize : option (list Z → list Z → list Z → bool * list Z)).
Definition route (s : Server) (clientAddr host : list Z) : bool * list Z :=
  match authorize with None => (true, lit "default") | Some f => f clientAddr (sv_addr s) host end.
Definition Second : Z := 1000000000.

Definition bar : list Z := lit "|".
Definition handleConnect (o : outcomes) (r : request) (s : Server) : Res (Server * list effect) :=
  match splitTarget (rq_host r) (lit "443") with
  | Panic => Panic
  | OutOfFuel => OutOfFuel
  | Err _ => Ok (s, [Status 403])
  | Ok (host, target) =>
      m ← matchesHost (sv_patterns s) host;
      if negb (m : bool) then Ok (s, [Status 403]) else
      let (tunnel, reason) := route s (rq_remote r) host in
      let d := Dial (lit "tcp") target tunnel in
      match oc_dial o with
      | Some err =>
          let (s, _) := logLimited (lit "connect-error|" ++ target ++ bar ++ reason ++ bar ++ err) (5 * Second) (oc_now o) s in
          Ok (s, [d; Status 502])
      | None =>
          let (s, _) := logLimited (lit "connect-ok|" ++ host ++ bar ++ reason) (30 * Second) (oc_now o) s in
          if negb (oc_hijacker o) then Ok (s, [d; CloseUpstream; Status 500]) else
          if negb (oc_hijack o) then Ok (s, [d; CloseUpstream]) else
          if negb (oc_write o) then Ok (s, [d; Hijacked; CloseClient; CloseUpstream]) else
          Ok (s, [d; Hijacked; Established; Bridge])
      end
  end.

(** [url.URL.Hostname] *)
Definition validOptionalPort (port : list Z) : bool :=
  match port with
  | [] => true
  | c :: rest => (c =? colon) && forallb (fun b => (48 <=? b) && (b <=? 57)) rest
  end.
Definition Hostname (urlHost : list Z) : Res (list Z) :=
  let i := last_index_byte urlHost colon in
  host ← (if i =? -1 then Ok urlHost else
          tail ← slice urlHost i (blen urlHost);
          if validOptionalPort tail then slice urlHost 0 i else Ok urlHost);
  if HasPrefix host [lbracket] && HasSuffix host [rbracket] then slice host 1 (blen host - 1) else Ok host.

Definition handleHTTP (o : outcomes) (r : request) (s : Server) : Res (Server * list effect) :=
  host ← Hostname (rq_urlHost r);
  let host := if bool_decide (host = []) then default [] (split_byte (rq_host r) colon !! 0%nat) else host in
  m ← matchesHost (sv_patterns s) host;
  if negb (m : bool) then Ok (s, [Status 403]) else
  let (tunnel, reason) := route s (rq_remote r) host in
  let scheme := if bool_decide (rq_scheme r = []) then lit "http" else rq_scheme r in
  let uhost := if bool_decide (rq_urlHost r = []) then rq_host r else rq_urlHost r in
  let t := RoundTrip scheme uhost tunnel in
  match oc_response o with
  | inr err =>
      let (s, _) := logLimited (lit "http-error|" ++ host ++ bar ++ reason ++ bar ++ err) (5 * Second) (oc_now o) s in
      Ok (s, [t; Status 502; CloseIdle])
  | inl code => Ok (s, [t; Forwarded code; CloseBody; CloseIdle])
  end.

Definition ServeHTTP (o : outcomes) (r : request) (s : Server) : Res (Server * list effect) :=
  if bool_decide (rq_method r = lit "GET") && (bool_decide (rq_path r = lit "/proxy.pac") || bool_decide (rq_path r = lit "/wpad.dat")) then
    pac ← PAC (sv_patterns s) (sv_addr s); Ok (s, [ServePAC pac])
  else if bool_decide (rq_method r = lit "CONNECT") then handleConnect o r s
  else handleHTTP o r s.
End Handlers.

(** [bridge]: the results of the two copies in the order they arrive ([None]: no
    error; [Some e]: an error, and whether it is [net.ErrClosed]); the keys of the log
    lines that are due. *)
Record copied := mkCopied { cp_dir : list Z; cp_err : option (list Z * bool) }.
Definition bridge (host : list Z) (r1 r2 : copied) : list effect * list (list Z) :=
  let first := match cp_err r1 with Some _ => [CloseClient; CloseUpstream] | None => [] end in
  let line r := match cp_err r with
                | Some (e, closed) => if closed then [] else [lit "bridge|" ++ host ++ bar ++ cp_dir r ++ bar ++ e]
                | None => []
                end in
  (first ++ [CloseClient; CloseUpstream], line r1 ++ line r2).
End Proxy.
