(* ===== verification/PacFile.v ===== *)
(** * What a browser does with the PAC file

    An interpreter for the JavaScript that [PAC] writes, from the text: string
    literals, [===], [||], the two builtins it calls ([toLowerCase] on ASCII and
    [dnsDomainIs], which asks whether the host ends in the domain) and the two
    returns.  The theorem says that the browser then asks the proxy exactly for the
    hosts that the proxy accepts. *)

From S2P Require Import Prelude Netip GoStrings Config HostPort BrowserProxy.
Local Open Scope Z_scope.

Definition expect (l s : list Z) : option (list Z) := if HasPrefix s l then Some (drop (length l) s) else None.
(** The characters of a literal up to the closing quote. *)
Fixpoint js_chars (s : list Z) : option (list Z * list Z) :=
  match s with
  | [] => None
  | c :: rest =>
      if c =? quote then Some ([], rest) else
      if c =? backslash_ then
        match rest with
        | e :: rest => if (e =? quote) || (e =? backslash_) then '(v, t) ← js_chars rest; Some (e :: v, t) else None
        | [] => None
        end
      else if (c =? 10) || (c =? 13) then None
      else '(v, t) ← js_chars rest; Some (c :: v, t)
  end.
Definition js_string (s : list Z) : option (list Z * list Z) := s ← expect [quote] s; js_chars s.
Definition dnsDomainIs (h d : list Z) : bool := HasSuffix h d.
Definition js_atom (h s : list Z) : option (bool * list Z) :=
  match expect (lit "dnsDomainIs(h, ") s with
  | Some s => '(v, s) ← js_string s; s ← expect (lit ")") s; Some (dnsDomainIs h v, s)
  | None => s ← expect (lit "h === ") s; '(v, s) ← js_string s; Some (bool_decide (h = v), s)
  end.
Fixpoint js_or (fuel : nat) (h s : list Z) : option (bool * list Z) :=
  match fuel with
  | O => None
  | S fuel =>
      '(b, s) ← js_atom h s;
      match expect (lit " || ") s with
      | Some s => '(b', s) ← js_or fuel h s; Some (b || b', s)
      | None => Some (b, s)
      end
  end.
Definition js_expr (h s : list Z) : option (bool * list Z) :=
  match expect (lit "false") s with Some s => Some (false, s) | None => js_or (S (length s)) h s end.
(** [FindProxyForURL(url, host)] of the file with this text. *)
Definition pac_eval (text host : list Z) : option (list Z) :=
  s ← expect (lit "function FindProxyForURL(url, host) { var h=(host||'').toLowerCase(); if (") text;
  '(b, s) ← js_expr (map lower_byte host) s;
  s ← expect (lit ") return ") s;
  '(yes, s) ← js_string s;
  s ← expect (lit "; return ") s;
  '(no, s) ← js_string s;
  s ← expect (lit "; }" ++ [10]) s;
  if bool_decide (s = []) then Some (if (b : bool) then yes else no) else None.

(** ** Facts *)
Lemma expect_app l s : expect l (l ++ s) = Some s.
Proof.
  unfold expect. rewrite (proj2 (HasPrefix_spec (l ++ s) l)) by (by exists s). by rewrite drop_app_length.
Qed.
Definition one_line (s : list Z) : Prop := 10 ∉ s ∧ 13 ∉ s.
Lemma replace_app c b x y : replace_with c b (x ++ y) = replace_with c b x ++ replace_with c b y.
Proof. unfold replace_with. by rewrite flat_map_app. Qed.
(** A quoted string is read back, whatever follows. *)
Lemma js_chars_quoted s t : one_line s →
  js_chars (replace_with quote [backslash_; quote] (replace_with backslash_ [backslash_; backslash_] s) ++ [quote] ++ t) = Some (s, t).
Proof.
  induction s as [|c s IH]; intros [H1 H2]; [done|]. apply not_elem_of_cons in H1 as [N1 H1], H2 as [N2 H2].
  change (c :: s) with ([c] ++ s). rewrite !replace_app, <- app_assoc.
  assert (Hc : replace_with quote [backslash_; quote] (replace_with backslash_ [backslash_; backslash_] [c]) =
    if c =? backslash_ then [backslash_; backslash_] else if c =? quote then [backslash_; quote] else [c]).
  { cbn. destruct (Z.eqb_spec c backslash_) as [->|]; [done|]. cbn. by destruct (Z.eqb_spec c quote). }
  rewrite Hc. specialize (IH (conj H1 H2)). set (u := _ ++ [quote] ++ t) in *. clearbody u.
  destruct (Z.eqb_spec c backslash_) as [->|Hb]; [|destruct (Z.eqb_spec c quote) as [->|Hq]]; cbn [app js_chars].
  - by rewrite IH.
  - by rewrite IH.
  - rewrite (proj2 (Z.eqb_neq c quote) Hq), (proj2 (Z.eqb_neq c backslash_) Hb).
    rewrite (proj2 (Z.eqb_neq c 10)), (proj2 (Z.eqb_neq c 13)) by congruence. cbn [orb]. by rewrite IH.
Qed.
Lemma js_string_quoted s t : one_line s → js_string (jsQuote s ++ t) = Some (s, t).
Proof.
  intros Hs. unfold js_string, jsQuote. cbv zeta. rewrite <- !app_assoc. rewrite expect_app. cbn [mbind option_bind]. by apply js_chars_quoted.
Qed.

Definition cond_text (p : list Z) : list Z :=
  if HasPrefix p (lit "*.") then lit "dnsDomainIs(h, " ++ jsQuote (lit "." ++ drop 2 p) ++ lit ")" else lit "h === " ++ jsQuote p.
Definition cond_holds (h p : list Z) : bool :=
  if HasPrefix p (lit "*.") then HasSuffix h (lit "." ++ drop 2 p) else bool_decide (h = p).
Lemma condition_text p : condition p = Ok (cond_text p).
Proof.
  unfold condition, cond_text. destruct (HasPrefix p (lit "*.")) eqn:E; [|done]. apply HasPrefix_spec in E as [base ->].
  pose proof (blen_nonneg base). assert (L : blen (lit "*." ++ base) = 2 + blen base) by (rewrite blen_app; done).
  rewrite slice_ok, bind_Ok by lia. do 4 f_equal. rewrite L. change (drop 2 (lit "*." ++ base)) with base.
  pose proof (bsub_at (lit "*.") base []) as Hb. rewrite app_nil_r in Hb. change (blen (lit "*.")) with 2 in Hb. by rewrite Hb.
Qed.
Lemma conditions_text ps : conditions ps = Ok (map cond_text ps).
Proof. induction ps as [|p ps IH]; [done|]. cbn [conditions map]. by rewrite condition_text, bind_Ok, IH, bind_Ok. Qed.

Lemma drop_one_line n s : one_line s → one_line (drop n s).
Proof. intros [H1 H2]. split; intros Hin; [apply H1|apply H2]; rewrite <- (take_drop n s), elem_of_app; by right. Qed.
Lemma expect_none l s c c' : head l = Some c → head s = Some c' → c ≠ c' → expect l s = None.
Proof.
  intros Hl Hs Hn. unfold expect. destruct (HasPrefix s l) eqn:E; [|done]. apply HasPrefix_spec in E as [r ->].
  destruct l; [done|]. cbn in *. congruence.
Qed.
Lemma cond_head p t : head (cond_text p ++ t) = Some 100 ∨ head (cond_text p ++ t) = Some 104.
Proof. unfold cond_text. destruct (HasPrefix p (lit "*.")); [by left|by right]. Qed.
Lemma js_atom_text h p t : one_line p → js_atom h (cond_text p ++ t) = Some (cond_holds h p, t).
Proof.
  intros Hp. unfold js_atom, cond_text, cond_holds. destruct (HasPrefix p (lit "*.")).
  - rewrite <- !app_assoc, expect_app. rewrite js_string_quoted.
    + cbn [mbind option_bind]. by rewrite expect_app.
    + pose proof (drop_one_line 2 p Hp) as [H1 H2]. split; rewrite elem_of_app; intros [Hd|Hd]; try done; by apply list_elem_of_singleton in Hd.
  - rewrite <- app_assoc. rewrite (expect_none _ _ 100 104) by done. rewrite expect_app. cbn [mbind option_bind]. by rewrite js_string_quoted.
Qed.
Lemma Join_cons x y ys sep : Join (x :: y :: ys) sep = x ++ sep ++ Join (y :: ys) sep.
Proof. done. Qed.
Lemma js_or_text ps p h t fuel : Forall one_line (p :: ps) → (length ps < fuel)%nat → expect (lit " || ") t = None →
  js_or fuel h (Join (map cond_text (p :: ps)) (lit " || ") ++ t) = Some (existsb (cond_holds h) (p :: ps), t).
Proof.
  revert p fuel. induction ps as [|q ps IH]; intros p fuel Hf Hl Ht; (destruct fuel as [|fuel]; [cbn in Hl; lia|]); apply Forall_cons_1 in Hf as [Hp Hf]; cbn [js_or].
  - cbn [map Join existsb]. rewrite js_atom_text by done. cbn [mbind option_bind]. rewrite Ht. by rewrite orb_false_r.
  - cbn [map]. rewrite Join_cons, <- !app_assoc. rewrite js_atom_text by done. cbn [mbind option_bind]. rewrite expect_app.
    change (cond_text q :: map cond_text ps) with (map cond_text (q :: ps)). rewrite (IH q fuel Hf) by (try done; cbn in Hl; lia). done.
Qed.
Lemma Join_length ps : (length ps <= length (Join (map cond_text ps) (lit " || ")))%nat.
Proof.
  induction ps as [|p [|q ps] IH]; [done| |].
  - cbn [map Join length]. pose proof (cond_head p []) as Hh. rewrite app_nil_r in Hh. destruct (cond_text p); [naive_solver|cbn; lia].
  - cbn [map] in *. rewrite Join_cons, !length_app. change (length (lit " || ")) with 4%nat. cbn [length] in *. lia.
Qed.

(** Names as they occur in the rules and in URLs: printable ASCII without capitals,
    not ending in a dot. *)
Definition name_char (c : Z) : Prop := 33 <= c <= 126 ∧ ¬ (65 <= c <= 90).
Definition visible (c : Z) : Prop := 33 <= c <= 126.
(** A host name as a browser passes it, in any case; without the final dot. *)
Definition dns_host (s : list Z) : Prop := Forall visible s ∧ HasSuffix s (lit ".") = false.
Definition plain_name (s : list Z) : Prop := Forall name_char s ∧ HasSuffix s (lit ".") = false.
(** An address that can stand between quotes. *)
Definition literal_char (c : Z) : Prop := c ≠ quote ∧ c ≠ backslash_ ∧ c ≠ 10 ∧ c ≠ 13.
Lemma js_chars_literal s t : Forall literal_char s → js_chars (s ++ [quote] ++ t) = Some (s, t).
Proof.
  induction 1 as [|c s (H1 & H2 & H3 & H4) _ IH]; [done|]. cbn [app js_chars].
  rewrite !(proj2 (Z.eqb_neq c _)) by done. cbn [orb]. cbn [app] in IH. by rewrite IH.
Qed.
Lemma plain_one_line s : Forall name_char s → one_line s.
Proof. intros H. rewrite List.Forall_forall in H. split; intros Hin%list_elem_of_In; destruct (H _ Hin); lia. Qed.

Lemma lower_char c : name_char c → lower_byte c = c.
Proof. intros [_ H]. unfold lower_byte. destruct (Z.leb_spec 65 c), (Z.leb_spec c 90); cbn; lia. Qed.
Section Names.
Context {U : Unicode}.
Lemma drop_spaces_visible s : Forall visible s → drop_spaces s = s.
Proof.
  intros [|c l Hc _]; [done|]. unfold visible in Hc. cbn [drop_spaces]. assert (is_space c = false) as ->.
  { unfold is_space. apply orb_false_iff. split; [apply andb_false_iff; right; apply Z.leb_gt; lia|apply Z.eqb_neq; lia]. }
  by rewrite andb_false_r.
Qed.
Lemma ascii_visible s : Forall visible s → isASCII s = true.
Proof. intros Hf. apply forallb_forall. intros c Hc. rewrite List.Forall_forall in Hf. destruct (Hf c Hc). apply Z.ltb_lt. lia. Qed.
Lemma TrimSpace_visible s : Forall visible s → TrimSpace s = s.
Proof.
  intros Hf. unfold TrimSpace, trim_with. rewrite (drop_spaces_visible s Hf). assert (Hr : Forall visible (rev s)) by (by apply Forall_rev).
  rewrite (drop_spaces_visible _ Hr), rev_involutive.
  assert (Hh : ∀ l, Forall visible l → non_ascii_head l = false) by (intros l [|c l' Hc _]; [done|]; unfold visible in Hc; cbn; apply Z.leb_gt; lia).
  by rewrite (Hh s Hf), (Hh _ Hr).
Qed.
(** A host name, and the same with its final dot. *)
Lemma host_canon s : dns_host s → canon_domain s = map lower_byte s ∧ canon_domain (s ++ lit ".") = map lower_byte s.
Proof.
  intros [Hf Hs]. assert (Hf' : Forall visible (s ++ lit ".")) by (apply Forall_app; split; [done|]; by repeat constructor).
  unfold canon_domain. rewrite (TrimSpace_visible _ Hf), (TrimSpace_visible _ Hf'). unfold TrimSuffix. rewrite Hs.
  rewrite (proj2 (HasSuffix_spec (s ++ lit ".") (lit "."))) by (by exists s).
  rewrite length_app, Nat.add_sub, take_app_length. by destruct (ToLower_ascii s (ascii_visible s Hf)) as [-> _].
Qed.
Lemma lower_plain s : Forall name_char s → map lower_byte s = s.
Proof. induction 1 as [|c l Hc _ IH]; [done|]. cbn [map]. rewrite IH. f_equal. by apply lower_char. Qed.

Lemma plain_dns s : plain_name s → dns_host s.
Proof. intros [H1 H2]. split; [|done]. eapply List.Forall_impl; [|exact H1]. by intros c [? _]. Qed.
Lemma plain_canon s : plain_name s → canon_domain s = s.
Proof. intros Hs. rewrite (proj1 (host_canon s (plain_dns s Hs))). apply lower_plain, Hs. Qed.

Lemma normalize_loop_spec xs seen out : (∀ x, x ∈ seen ↔ x ∈ out) →
  ∀ x, x ∈ normalize_loop xs seen out ↔ x ∈ out ∨ x ≠ [] ∧ x ≠ star ∧ ∃ p, p ∈ xs ∧ canon_domain p = x.
Proof.
  revert seen out. induction xs as [|y xs IH]; intros seen out Hso x; cbn [normalize_loop].
  { split; [auto|]. intros [H|(_ & _ & p & []%not_elem_of_nil & _)]; done. }
  fold (canon_domain y). set (z := canon_domain y).
  assert (Hstep : (∃ p, p ∈ y :: xs ∧ canon_domain p = x) ↔ x = z ∨ ∃ p, p ∈ xs ∧ canon_domain p = x).
  { split.
    - intros (p & [E0|Hp]%elem_of_cons & E); [left; subst; done|right; eauto].
    - intros [E|(p & Hp & E)]; [exists y; split; [by left|done]|exists p; split; [by right|done]]. }
  rewrite Hstep. destruct (bool_decide (z = [])) eqn:E1; [apply bool_decide_eq_true in E1|apply bool_decide_eq_false in E1]; cbn [orb].
  { rewrite IH by done. split; [intros [H|(H1 & H2 & H3)]; auto|intros [H|(H1 & H2 & [H3|H3])]; [auto|congruence|auto]]. }
  destruct (bool_decide (z = star)) eqn:E2; [apply bool_decide_eq_true in E2|apply bool_decide_eq_false in E2].
  { rewrite IH by done. split; [intros [H|(H1 & H2 & H3)]; auto|intros [H|(H1 & H2 & [H3|H3])]; [auto|congruence|auto]]. }
  destruct (bool_decide (z ∈ seen)) eqn:E3; [apply bool_decide_eq_true in E3|apply bool_decide_eq_false in E3].
  - rewrite IH by done. apply Hso in E3. split; [intros [H|(H1 & H2 & H3)]; auto|intros [H|(H1 & H2 & [H3|H3])]; [auto|subst; auto|auto]].
  - rewrite IH. { rewrite elem_of_app, list_elem_of_singleton. split; [intros [[H|H]|(H1 & H2 & H3)]; [auto|subst; auto|auto]|intros [H|(H1 & H2 & [H3|H3])]; auto]. }
    intros w. rewrite elem_of_cons, elem_of_app, list_elem_of_singleton, Hso. tauto.
Qed.
Lemma normalize_spec xs x : x ∈ normalize xs ↔ x ≠ [] ∧ x ≠ star ∧ ∃ p, p ∈ xs ∧ canon_domain p = x.
Proof. unfold normalize. rewrite normalize_loop_spec by done. split; [intros [[]%not_elem_of_nil|H]; done|by right]. Qed.

Lemma cond_holds_spec h p : p ≠ star → cond_holds h p = true ↔ pattern_matches p h.
Proof.
  intros Hn. unfold cond_holds, pattern_matches. rewrite (bool_decide_eq_false_2 (p = star)) by done.
  destruct (HasPrefix p (lit "*.")); [|apply bool_decide_eq_true]. apply HasSuffix_spec.
Qed.

(** No pattern ends in a dot, so none holds of a name that does. *)
Lemma cond_holds_dot h p : HasSuffix p (lit ".") = false → p ≠ [] → cond_holds (h ++ lit ".") p = true → HasPrefix p (lit "*.") = true ∧ drop 2 p = [].
Proof.
  intros Hd Hne. unfold cond_holds. destruct (HasPrefix p (lit "*.")) eqn:E.
  - rewrite HasSuffix_spec. intros [x Hx]. split; [done|]. apply HasPrefix_spec in E as [q ->]. change (drop 2 (lit "*." ++ q)) with q in *.
    destruct q as [|c q _] using rev_ind; [done|]. rewrite !app_assoc in Hx. apply app_inj_tail in Hx as [_ <-].
    exfalso. rewrite (proj2 (HasSuffix_spec _ _)) in Hd; [done|]. exists (lit "*." ++ q). by rewrite <- app_assoc.
  - rewrite bool_decide_eq_true. intros <-. assert (HasSuffix (h ++ lit ".") (lit ".") = true) by (apply HasSuffix_spec; by exists h). congruence.
Qed.

(** The text evaluates to the disjunction of the patterns. *)
Lemma pac_text ps addr host : Forall one_line ps → Forall literal_char addr →
  ∃ text, PAC ps addr = Ok text ∧ pac_eval text host = Some (if existsb (cond_holds (map lower_byte host)) ps then lit "PROXY " ++ addr else lit "DIRECT").
Proof.
  intros Hp Ha. unfold PAC. rewrite conditions_text, bind_Ok. eexists. split; [reflexivity|]. unfold pac_eval. rewrite expect_app. cbn [mbind option_bind].
  set (h := map lower_byte host). set (tail := lit ") return 'PROXY " ++ _).
  assert (He : js_expr h ((match map cond_text ps with [] => lit "false" | _ => Join (map cond_text ps) (lit " || ") end) ++ tail) = Some (existsb (cond_holds h) ps, tail)).
  { destruct ps as [|p ps]; [done|]. change (map cond_text (p :: ps)) with (cond_text p :: map cond_text ps) at 1. cbv iota.
    assert (Hh : ∃ c, head (Join (map cond_text (p :: ps)) (lit " || ") ++ tail) = Some c ∧ 102 ≠ c).
    { destruct ps as [|q ps]; [cbn [map Join]|cbn [map]; rewrite Join_cons, <- app_assoc]; [destruct (cond_head p tail) as [E|E]|destruct (cond_head p ((lit " || " ++ Join (cond_text q :: map cond_text ps) (lit " || ")) ++ tail)) as [E|E]];
        rewrite E; by eexists. }
    destruct Hh as (c & Hc & Hne). unfold js_expr. rewrite (expect_none _ _ 102 c) by done.
    apply js_or_text; [done| |done]. rewrite length_app. pose proof (Join_length (p :: ps)) as Hl. cbn [length] in Hl. lia. }
  rewrite He. cbn [mbind option_bind].
  assert (Et : tail = lit ") return " ++ [quote] ++ (lit "PROXY " ++ addr) ++ [quote] ++ lit "; return " ++ [quote] ++ lit "DIRECT" ++ [quote] ++ (lit "; }" ++ [10]) ++ [])
    by (unfold tail; rewrite <- !app_assoc; done).
  rewrite Et, expect_app. cbn [mbind option_bind]. unfold js_string. rewrite expect_app. cbn [mbind option_bind].
  rewrite js_chars_literal. 2: { apply Forall_app. split; [|done]. repeat constructor; done. }
  cbn [mbind option_bind]. rewrite expect_app. cbn [mbind option_bind]. rewrite expect_app. cbn [mbind option_bind]. rewrite js_chars_literal by (repeat constructor; done).
  cbn [mbind option_bind]. rewrite expect_app. done.
Qed.
End Names.

(** C19: The browser and the proxy agree on which hosts are proxied.  For a server started
    with patterns whose normal forms are visible ASCII characters without a final dot,
    the PAC file it serves, run by a browser on a host name of visible ASCII characters
    in any case and without a final dot, answers with the proxy exactly for the hosts
    that the proxy accepts, and with a direct connection otherwise; those are the hosts
    that one of the given patterns, the catch-all excepted, matches.  With a final dot
    the proxy accepts the same hosts, but the PAC file sends all of them directly.
    Quoting is faithful: the text is read back as it was meant, quotes and backslashes
    included. *)
Theorem PAC_correct {U : Unicode} (patterns : list (list Z)) (addr host : list Z) (logging : bool) :
  Forall plain_name (normalize patterns) → Forall literal_char addr → dns_host host →
  ∃ s text b, Start (Ok addr) patterns logging = Ok s ∧ PAC (sv_patterns s) (sv_addr s) = Ok text ∧ matchesHost (sv_patterns s) host = Ok b ∧
    pac_eval text host = Some (if b then lit "PROXY " ++ addr else lit "DIRECT") ∧
    (b = true ↔ ∃ p, p ∈ patterns ∧ canon_domain p ≠ [] ∧ canon_domain p ≠ star ∧ pattern_matches (canon_domain p) (map lower_byte host)) ∧
    matchesHost (sv_patterns s) (host ++ lit ".") = Ok b ∧ pac_eval text (host ++ lit ".") = Some (lit "DIRECT").
Proof.
  intros Hp Ha Hh. set (ps := normalize patterns) in *. destruct (host_canon host Hh) as [Ec1 Ec2]. set (h := map lower_byte host) in *.
  assert (Hin : ∀ p, p ∈ ps → plain_name p ∧ p ≠ star ∧ p ≠ []) by (intros p Hin; split; [exact (Forall_elem _ _ p Hp Hin)|by apply normalize_spec in Hin as (? & ? & _)]).
  assert (Ho : Forall one_line ps) by (apply List.Forall_forall; intros p Hi%list_elem_of_In; apply plain_one_line, (Hin p Hi)).
  destruct (pac_text ps addr host Ho Ha) as (text & Et & Ev). destruct (pac_text ps addr (host ++ lit ".") Ho Ha) as (text' & Et' & Ev').
  assert (text' = text) as -> by congruence.
  destruct (match_any_total ps host) as (b & Eb & Hb). destruct (match_any_total ps (host ++ lit ".")) as (b' & Eb' & Hb'').
  exists (mkServer addr ps logging ∅), text, b. split; [done|]. split; [done|]. split; [done|].
  rewrite Ec1 in Hb. rewrite Ec2, <- Hb in Hb''.
  assert (Hb' : b = true ↔ ∃ p, p ∈ ps ∧ pattern_matches p h).
  { rewrite Hb. split; intros (p & Hi & Hm); exists p; (split; [done|]); [rewrite (plain_canon p) in Hm|rewrite (plain_canon p)]; try done; by apply Hin. }
  split; [|split; [|split]].
  - rewrite Ev. fold h. f_equal. assert (existsb (cond_holds h) ps = b) as ->; [|done].
    apply Bool.eq_true_iff_eq. rewrite Hb', existsb_exists. split; intros (p & Hi & Hm); exists p; rewrite ?list_elem_of_In in *; (split; [done|]);
      apply list_elem_of_In in Hi; by apply cond_holds_spec; [apply Hin|].
  - rewrite Hb'. split.
    + intros (x & Hi & Hm). apply normalize_spec in Hi as (H1 & H2 & p & Hpp & E). exists p. by rewrite E.
    + intros (p & Hpp & H1 & H2 & Hm). exists (canon_domain p). split; [|done]. apply normalize_spec. eauto.
  - unfold matchesHost. cbn [sv_patterns]. rewrite Eb'. f_equal. by apply Bool.eq_true_iff_eq.
  - rewrite Ev'. f_equal. assert (existsb (cond_holds (map lower_byte (host ++ lit "."))) ps = false) as ->; [|done].
    rewrite map_app. apply Bool.not_true_iff_false. intros (p & Hi%list_elem_of_In & Hm)%existsb_exists. destruct (Hin p Hi) as ([_ Hd] & _ & Hne).
    destruct (cond_holds_dot _ p Hd Hne Hm) as [E1 E2]. apply HasPrefix_spec in E1 as [q ->]. change (q = []) in E2. subst q. done.
Qed.
#[local] Existing Instance ascii_unicode.
Definition name_charb (c : Z) : bool := (33 <=? c) && (c <=? 126) && negb ((65 <=? c) && (c <=? 90)).
Lemma plain_check s : forallb name_charb s && negb (HasSuffix s (lit ".")) = true → plain_name s.
Proof.
  intros [H1 H2%negb_true_iff]%andb_true_iff. split; [|done]. rewrite forallb_forall in H1. apply List.Forall_forall. intros c Hc.
  specialize (H1 c Hc). unfold name_charb in H1. apply andb_true_iff in H1 as [[H3%Z.leb_le H4%Z.leb_le]%andb_true_iff H5%negb_true_iff].
  split; [lia|]. intros [H6%Z.leb_le H7%Z.leb_le]. by rewrite H6, H7 in H5.
Qed.
Definition demo_patterns : list (list Z) := [lit "*.Example.com."; lit "a.b"; lit "*"; lit "a.b"].
Lemma demo_plain : Forall plain_name (normalize demo_patterns).
Proof. vm_compute normalize. constructor; [by apply plain_check|]. constructor; [by apply plain_check|constructor]. Qed.
Lemma PAC_correct_witness :
  ∃ text, PAC (normalize demo_patterns) (lit "127.0.0.1:8080") = Ok text ∧
    pac_eval text (lit "WWW.example.com") = Some (lit "PROXY 127.0.0.1:8080") ∧ matchesHost (normalize demo_patterns) (lit "WWW.example.com") = Ok true.
Proof.
  destruct (PAC_correct demo_patterns (lit "127.0.0.1:8080") (lit "WWW.example.com") false demo_plain) as (s & text & b & Es & Et & Em & Ev & _).
  - repeat constructor; discriminate.
  - split; [repeat constructor; discriminate|reflexivity].
  - injection Es as <-. cbn [sv_patterns sv_addr] in *. assert (Hb : matchesHost (normalize demo_patterns) (lit "WWW.example.com") = Ok true) by (vm_compute; reflexivity).
    rewrite Em in Hb. injection Hb as ->. exists text. split; [exact Et|]. split; [exact Ev|exact Em].
Defined.
