(* ===== verification/ProxyServe.v ===== *)
(** * The hostname proxy serves only the configured domains

    What the handlers may do to the outside, and that the log limiter loses nothing. *)

From S2P Require Import Prelude Netip GoStrings Config HostPort BrowserProxy PacFile.
Local Open Scope Z_scope.

Section Serve.
Context {U : Unicode}.

Lemma digits_plain s acc n : digits s acc = Some n → Forall (fun c => 48 <= c <= 57) s.
Proof.
  revert acc. induction s as [|c s IH]; intros acc H; [constructor|]. cbn [digits] in H. unfold digit in H.
  destruct (Z.leb_spec 48 c), (Z.leb_spec c 57); cbn in H; try done. constructor; [lia|by eapply IH].
Qed.
(** A string that [Atoi] accepts has a sign at most before its digits. *)
Lemma Atoi_plain p n : Atoi p = Some n → plain_port p.
Proof.
  unfold Atoi. intros H. assert (Hd : Forall (fun c => 43 <= c <= 57) p).
  { assert (Hw : ∀ l m, digits l 0 = Some m → Forall (fun c => 43 <= c <= 57) l)
      by (intros l m Hl; eapply List.Forall_impl; [|exact (digits_plain l 0 m Hl)]; cbn; lia).
    assert (Hg : ∀ (neg : bool) ds, match ds with [] => None | _ => match digits ds 0 with Some n => let n := if neg then - n else n in
       if (- 9223372036854775808 <=? n) && (n <=? 9223372036854775807) then Some n else None | None => None end end = Some n → Forall (fun c => 43 <= c <= 57) ds).
    { intros neg ds Hds. destruct ds as [|c ds]; [done|]. destruct (digits (c :: ds) 0) as [m|] eqn:Em; [|done]. by eapply Hw. }
    destruct p as [|c p]; [done|]. destruct (decide (c = 43)) as [->|H1]; [constructor; [lia|by eapply (Hg false)]|].
    destruct (decide (c = 45)) as [->|H2]; [constructor; [lia|by eapply (Hg true)]|].
    apply (Hg false (c :: p)). revert H. destruct c as [|c|c]; try done. do 7 (destruct c as [c|c|]; try done). }
  apply free3. rewrite List.Forall_forall in Hd. unfold colon, lbracket, rbracket.
  split_and!; intros Hin%list_elem_of_In; apply Hd in Hin; lia.
Qed.
Lemma Trim_free s : free_of [lbracket; rbracket] s → Trim s (lit "[]") = s.
Proof.
  intros H. assert (Hd : ∀ l, free_of [lbracket; rbracket] l → drop_cutset l (lit "[]") = l).
  { intros [|c l] Hl; [done|]. apply free_of_cons in Hl as [Hc _]. cbn [drop_cutset].
    assert (contains_byte (lit "[]") c = false) as ->; [|done]. unfold contains_byte. cbn. apply free2 in H. rewrite !not_elem_of_cons in Hc. unfold lbracket, rbracket in Hc.
    rewrite !(proj2 (Z.eqb_neq c _)) by tauto. done. }
  unfold Trim. rewrite (Hd s H). rewrite Hd; [apply rev_involutive|]. intros c Hc. rewrite elem_of_rev. by apply H.
Qed.
(** A target names its host: it is what the address is taken apart into. *)
Lemma splitTarget_target authority port : (∃ n, Atoi port = Some n) →
  match splitTarget authority port with
  | Ok (host, target) => ∃ p, target = JoinHostPort host p ∧ plain_port p ∧ (free_of [lbracket; rbracket] host → SplitHostPort target = Ok (host, p))
  | Err _ => True
  | _ => False
  end.
Proof.
  intros [n Hn]. unfold splitTarget. cbv zeta. destruct (bool_decide _); [done|]. set (a := TrimSpace authority).
  pose proof (SplitHostPort_returns a) as Hr.
  assert (Hcase : match (match SplitHostPort a with Err e => if contains_byte a colon && (1 <? count_byte a colon) then Err e else Ok (a, port) | r => r end) with
    | Ok _ => True | Err _ => True | _ => False end) by (destruct (SplitHostPort a); try done; by destruct (_ && _)).
  destruct (match SplitHostPort a with Err e => _ | r => r end) as [[h p]|e| |]; try done. rewrite bind_Ok.
  set (q := if bool_decide (p = []) then port else p). destruct (Atoi q) as [m|] eqn:Eq; [|done].
  exists q. pose proof (Atoi_plain q m Eq) as Hq. split; [done|]. split; [done|]. intros Hf. by apply SplitHostPort_join.
Qed.
(** An authority with a host and a port is taken as it is. *)
Lemma splitTarget_plain a h p port n : TrimSpace a = a → host_and_port a h p → Atoi p = Some n → splitTarget a port = Ok (h, JoinHostPort h p).
Proof.
  intros Ht Ha Hn. unfold splitTarget. cbv zeta. rewrite Ht, (SplitHostPort_takes a h p Ha), bind_Ok.
  assert (a ≠ []) by (intros ->; destruct Ha as [_ [[_ E]|[_ E]]]; [by destruct h|done]).
  assert (p ≠ []) by (intros ->; done). rewrite !bool_decide_eq_false_2, Hn by done. f_equal.
  rewrite (Trim_free h); [done|]. destruct Ha as [_ [[Hf _]|[Hf _]]]; [|done]. apply free2. apply free3 in Hf. tauto.
Qed.

Lemma logLimited_patterns k i n s : sv_patterns (fst (logLimited k i n s)) = sv_patterns s ∧ sv_addr (fst (logLimited k i n s)) = sv_addr s.
Proof. unfold logLimited. destruct (negb _); [done|]. by destruct (match ll_last _ with Some _ => _ | None => _ end). Qed.

Section Effects.
Context (authorize : option (list Z → list Z → list Z → bool * list Z)).

(** The route of a host, for the client of the request. *)
Definition chosen_route (s : Server) (r : request) (host : list Z) : bool := fst (route authorize s (rq_remote r) host).
(** What a handler may do: it dials and forwards only for hosts that match, on the
    route they are given. *)
Definition allowed (s : Server) (r : request) (e : effect) : Prop :=
  match e with
  | Dial network target tunnel => ∃ host p, network = lit "tcp" ∧ target = JoinHostPort host p ∧ plain_port p ∧
      matchesHost (sv_patterns s) host = Ok true ∧ tunnel = chosen_route s r host
  | RoundTrip scheme uhost tunnel => ∃ host, host ≠ [] ∧ matchesHost (sv_patterns s) host = Ok true ∧ tunnel = chosen_route s r host ∧
      (Hostname uhost = Ok host ∨ uhost = rq_host r ∧ split_byte uhost colon !! 0%nat = Some host)
  | _ => True
  end.
(** Every connection is accounted for: an upstream connection that was opened is closed or
    handed to the relay, once; so is a client connection that was taken over, and only
    such a one; a response has its body closed once, and a transport its idle
    connections.  [o] tells whether the dial and the round trip succeed. *)
Definition is_dial (e : effect) : bool := match e with Dial _ _ _ => true | _ => false end.
Definition is_trip (e : effect) : bool := match e with RoundTrip _ _ _ => true | _ => false end.
Definition is_hijack (e : effect) : bool := match e with Hijacked => true | _ => false end.
Definition is_end (e : effect) : bool := match e with CloseUpstream | Bridge => true | _ => false end.
Definition is_client_end (e : effect) : bool := match e with CloseClient | Bridge => true | _ => false end.
Definition is_body_end (e : effect) : bool := match e with CloseBody => true | _ => false end.
Definition is_idle_end (e : effect) : bool := match e with CloseIdle => true | _ => false end.
Definition how_many (f : effect → bool) (es : list effect) : Z := blen (List.filter f es).
Definition accounted (o : outcomes) (es : list effect) : Prop :=
  how_many is_end es = (match oc_dial o with None => how_many is_dial es | Some _ => 0 end) ∧
  how_many is_client_end es = how_many is_hijack es ∧
  how_many is_body_end es = (match oc_response o with inl _ => how_many is_trip es | inr _ => 0 end) ∧
  how_many is_idle_end es = how_many is_trip es ∧
  how_many is_dial es <= 1 ∧ how_many is_trip es <= 1 ∧ how_many is_hijack es <= 1.
(** The relay ends by closing both connections, however the two copies end. *)
Definition relay_closes (host : list Z) (r1 r2 : copied) : Prop :=
  ∃ pre, (bridge host r1 r2).1 = pre ++ [CloseClient; CloseUpstream].

Lemma connect_allowed o r s : ∃ s' es, handleConnect authorize o r s = Ok (s', es) ∧ Forall (allowed s r) es ∧ accounted o es ∧ sv_patterns s' = sv_patterns s.
Proof.
  unfold handleConnect, accounted. pose proof (splitTarget_target (rq_host r) (lit "443") (ex_intro _ 443 eq_refl)) as Ht.
  destruct (splitTarget (rq_host r) (lit "443")) as [[host target]|e| |]; try done.
  2: { eexists _, _. split; [reflexivity|]. split; [by repeat constructor|]. by destruct (oc_dial o), (oc_response o). }
  destruct Ht as (p & -> & Hp & _). destruct (match_any_total (sv_patterns s) host) as (b & Eb & _). unfold matchesHost at 1. rewrite Eb, bind_Ok.
  destruct b; cbn [negb].
  2: { eexists _, _. split; [reflexivity|]. split; [by repeat constructor|]. by destruct (oc_dial o), (oc_response o). }
  destruct (route authorize s (rq_remote r) host) as [tunnel reason] eqn:Er.
  assert (Hd : allowed s r (Dial (lit "tcp") (JoinHostPort host p) tunnel)) by (exists host, p; unfold chosen_route; rewrite Er; done).
  destruct (oc_dial o) as [err|] eqn:Eo.
  - match goal with |- context [logLimited ?k ?i ?n s] => pose proof (logLimited_patterns k i n s) as [Hl _]; destruct (logLimited k i n s) as [s1 x] end.
    eexists _, _. split; [reflexivity|]. split; [by repeat constructor|]. by destruct (oc_response o).
  - match goal with |- context [logLimited ?k ?i ?n s] => pose proof (logLimited_patterns k i n s) as [Hl _]; destruct (logLimited k i n s) as [s1 x] end.
    destruct (negb (oc_hijacker o)); [|destruct (negb (oc_hijack o)); [|destruct (negb (oc_write o))]];
      eexists _, _; (split; [reflexivity|]); (split; [by repeat constructor|]); by destruct (oc_response o).
Qed.
Lemma Hostname_returns u : ∃ h, Hostname u = Ok h.
Proof.
  unfold Hostname. cbv zeta.
  assert (Hh : ∃ h, (if last_index_byte u colon =? -1 then Ok u else tail ← slice u (last_index_byte u colon) (blen u);
      if validOptionalPort tail then slice u 0 (last_index_byte u colon) else Ok u) = Ok h).
  { destruct (Z.eqb_spec (last_index_byte u colon) (-1)) as [|Hn]; [by eexists|].
    destruct (decide (colon ∈ u)) as [Hc|Hc%last_index_none]; [|done]. apply list_elem_of_split_r in Hc as (a & b & -> & Hb). rewrite last_index_at by done.
    pose proof (blen_nonneg a). pose proof (blen_nonneg (colon :: b)). rewrite (slice_ok _ (blen a)), bind_Ok by (rewrite ?blen_app; lia).
    destruct (validOptionalPort _); [|by eexists]. rewrite slice_ok by (rewrite ?blen_app; lia). by eexists. }
  destruct Hh as [h ->]. rewrite bind_Ok. destruct (HasPrefix h [lbracket]) eqn:E1; [|by eexists]. destruct (HasSuffix h [rbracket]) eqn:E2; [|by eexists]. cbn [andb].
  apply HasPrefix_spec in E1 as [x ->]. apply HasSuffix_spec in E2 as [y E2]. 
  assert (2 <= blen ([lbracket] ++ x)); [|rewrite slice_ok by lia; by eexists].
  rewrite blen_app. change (blen [lbracket]) with 1. destruct x as [|c x]; [|rewrite blen_cons; pose proof (blen_nonneg x); lia].
  exfalso. destruct y as [|c y]; [done|]. apply (f_equal length) in E2. rewrite !length_app in E2. cbn in E2. lia.
Qed.
Lemma http_allowed o r s : Forall (fun p => canon_domain p ≠ []) (sv_patterns s) → (rq_urlHost r ≠ [] → rq_host r = rq_urlHost r) →
  ∃ s' es, handleHTTP authorize o r s = Ok (s', es) ∧ Forall (allowed s r) es ∧ accounted o es ∧ sv_patterns s' = sv_patterns s.
Proof.
  intros Hps Hlaw. unfold handleHTTP, accounted. destruct (Hostname_returns (rq_urlHost r)) as [h Eh]. rewrite Eh, bind_Ok.
  set (host := if bool_decide (h = []) then _ else h). destruct (match_any_total (sv_patterns s) host) as (b & Eb & Hb). unfold matchesHost at 1. rewrite Eb, bind_Ok.
  destruct b; cbn [negb].
  2: { eexists _, _. split; [reflexivity|]. split; [by repeat constructor|]. by destruct (oc_dial o), (oc_response o). }
  assert (Hne : host ≠ []).
  { intros E0. destruct (proj1 Hb eq_refl) as (p & Hp & Hm). rewrite E0 in Hm. pose proof (Forall_elem _ _ p Hps Hp) as Hn. cbv beta in Hn.
    change (canon_domain []) with (@nil Z) in Hm. unfold pattern_matches in Hm. destruct (bool_decide (canon_domain p = star)); [done|]. destruct (HasPrefix (canon_domain p) _); [|congruence].
    destruct Hm as [x Hx]. by destruct x. }
  destruct (route authorize s (rq_remote r) host) as [tunnel reason] eqn:Er.
  set (uhost := if bool_decide (rq_urlHost r = []) then _ else _). set (scheme := if bool_decide (rq_scheme r = []) then _ else _).
  assert (Ha : allowed s r (RoundTrip scheme uhost tunnel)).
  { exists host. split; [done|]. split; [done|]. unfold chosen_route. rewrite Er. split; [done|]. unfold host, uhost in *.
    destruct (decide (h = [])) as [->|Hh].
    - right. rewrite bool_decide_eq_true_2 in * by done. destruct (decide (rq_urlHost r = [])) as [Eu|Eu].
      + rewrite bool_decide_eq_true_2 by done. split; [done|]. by destruct (split_byte (rq_host r) colon !! 0%nat).
      + rewrite bool_decide_eq_false_2 by done. rewrite (Hlaw Eu) in *. split; [done|]. by destruct (split_byte (rq_urlHost r) colon !! 0%nat).
    - left. rewrite (bool_decide_eq_false_2 (h = [])) in * by done. destruct (decide (rq_urlHost r = [])) as [Eu|Eu]; [|by rewrite bool_decide_eq_false_2].
      exfalso. rewrite Eu in Eh. vm_compute in Eh. congruence. }
  destruct (oc_response o) as [code|err].
  - eexists _, _. split; [reflexivity|]. split; [by repeat constructor|]. by destruct (oc_dial o), (oc_response o).
  - match goal with |- context [logLimited ?k ?i ?n s] => pose proof (logLimited_patterns k i n s) as [Hl _]; destruct (logLimited k i n s) as [s1 x] end.
    eexists _, _. split; [reflexivity|]. split; [by repeat constructor|]. by destruct (oc_dial o), (oc_response o).
Qed.

(** C20: The hostname proxy works only for the configured domains.  Whatever the request
    and however the calls it makes end, a handler answers without panic; every
    connection it opens and every request it forwards is for a host that a configured
    pattern matches, on the route the authorization gives that host for that client;
    anything else is refused; and an upstream connection that was opened is closed or
    handed to the relay, exactly once, as is a client connection that was taken over;
    the body of a response and the idle connections of the transport are closed; and the
    relay ends by closing both of its connections, however the copies end.  The patterns
    are in normal form, as [Start] leaves them, and the host of a request for an absolute
    URL is that of the URL, as net/http makes it. *)
Theorem proxy_serves_configured (o : outcomes) (r : request) (s : Server) :
  Forall (fun p => canon_domain p ≠ []) (sv_patterns s) → (rq_urlHost r ≠ [] → rq_host r = rq_urlHost r) →
  ∃ s' es, ServeHTTP authorize o r s = Ok (s', es) ∧ Forall (allowed s r) es ∧ accounted o es ∧ sv_patterns s' = sv_patterns s ∧
    (Bridge ∈ es → ∀ host r1 r2, relay_closes host r1 r2).
Proof.
  intros Hp Hl. assert (Hrel : ∀ host r1 r2, relay_closes host r1 r2) by (intros host r1 r2; by eexists).
  assert (H : ∃ s' es, ServeHTTP authorize o r s = Ok (s', es) ∧ Forall (allowed s r) es ∧ accounted o es ∧ sv_patterns s' = sv_patterns s);
    [|destruct H as (s' & es & H1 & H2 & H3 & H4); by exists s', es].
  unfold ServeHTTP. destruct (_ && _); [|destruct (bool_decide _); [apply connect_allowed|by apply http_allowed]].
  unfold PAC. rewrite conditions_text, !bind_Ok. eexists _, _. split; [reflexivity|]. split; [by repeat constructor|]. unfold accounted. by destruct (oc_dial o), (oc_response o).
Qed.
End Effects.

(** ** The log limiter *)
Definition log_call : Type := list Z * Z * Z.
Fixpoint log_run (l : list log_call) (s : Server) : list (log_call * option Z) :=
  match l with
  | [] => []
  | (k, i, n) :: rest => let (s, o) := logLimited k i n s in ((k, i, n), o) :: log_run rest s
  end.
Definition about (k : list Z) (x : log_call * option Z) : bool := bool_decide (fst (fst (fst x)) = k).
Definition written (x : log_call * option Z) : bool := match snd x with Some _ => true | None => false end.
Definition silent (k : list Z) (l : list (log_call * option Z)) : Prop := Forall (fun x => about k x = true → written x = false) l.
Definition calls_of (k : list Z) (l : list (log_call * option Z)) : Z := blen (List.filter (about k) l).

Lemma logLimited_other k k' i n s : k ≠ k' → sv_logState (fst (logLimited k i n s)) !! k' = sv_logState s !! k'.
Proof. intros Hn. unfold logLimited. destruct (negb _); [done|]. destruct (match ll_last _ with Some _ => _ | None => _ end); cbn; by rewrite lookup_insert_ne. Qed.
Lemma logLimited_logging k i n s : sv_logging (fst (logLimited k i n s)) = sv_logging s.
Proof. unfold logLimited. destruct (negb _) eqn:E; [done|]. by destruct (match ll_last _ with Some _ => _ | None => _ end). Qed.
(** Since the last line for [k], written at [n1], [c] calls have been suppressed. *)
Lemma log_run_next k n1 c l s mid i n d post : sv_logging s = true → sv_logState s !! k = Some (mkLimited (Some n1) c) → 0 <= c → c + blen l < 2 ^ 64 →
  log_run l s = mid ++ ((k, i, n), Some d) :: post → silent k mid → i <= n - n1 ∧ d = c + calls_of k mid.
Proof.
  intros Hlog. revert c s mid Hlog. induction l as [|[[k' i'] n'] l IH]; intros c s mid Hlog Hs Hc Hlen E Hsil; [by destruct mid|].
  cbn [log_run] in E. pose proof (logLimited_logging k' i' n' s) as Hlg. pose proof (logLimited_other k' k i' n' s) as Hoth.
  destruct (logLimited k' i' n' s) as [s1 o] eqn:El. cbn [fst] in Hlg, Hoth. rewrite blen_cons in Hlen. pose proof (blen_nonneg l).
  destruct mid as [|x mid]; cbn [app] in E.
  - injection E as -> -> -> -> E. unfold logLimited in El. rewrite Hlog, Hs in El. cbn [negb default ll_last ll_suppressed id] in El.
    destruct (Z.ltb_spec (n - n1) i); [congruence|]. injection El as _ <-. change (calls_of k []) with 0. lia.
  - injection E as E0 E. subst x. apply Forall_cons_1 in Hsil as [Hx Hsil]. unfold about, written in Hx. cbn [fst snd] in Hx.
    assert (Hcount : calls_of k ((k', i', n', o) :: mid) = (if decide (k' = k) then 1 else 0) + calls_of k mid).
    { unfold calls_of. cbn [List.filter]. unfold about at 1. cbn [fst]. destruct (decide (k' = k)) as [->|Hne]; [rewrite bool_decide_eq_true_2 by done; rewrite blen_cons; lia|].
      rewrite bool_decide_eq_false_2 by done. lia. }
    rewrite Hcount. destruct (decide (k' = k)) as [->|Hne].
    + rewrite bool_decide_eq_true_2 in Hx by done. specialize (Hx eq_refl). unfold logLimited in El. rewrite Hlog, Hs in El. cbn [negb default ll_last ll_suppressed id] in El.
      destruct (Z.ltb_spec (n' - n1) i'); injection El as Es Eo; [|by rewrite <- Eo in Hx]. rewrite u64_small in Es by lia.
      destruct (IH (c + 1) s1 mid) as [H1 H2]; [congruence|rewrite <- Es; cbn; by rewrite lookup_insert_eq|lia|lia|done|done|]. lia.
    + destruct (IH c s1 mid) as [H1 H2]; [congruence|by rewrite Hoth|lia|lia|done|done|]. lia.
Qed.
Lemma log_run_split l s pre x post : sv_logging s = true → log_run l s = pre ++ x :: post →
  ∃ l' s', sv_logging s' = true ∧ blen l' <= blen l ∧ post = log_run l' (fst (logLimited (fst (fst (fst x))) (snd (fst (fst x))) (snd (fst x)) s')) ∧
    snd (logLimited (fst (fst (fst x))) (snd (fst (fst x))) (snd (fst x)) s') = snd x ∧
    (∀ k, silent k pre → calls_of k pre = 0 → sv_logState s' !! k = sv_logState s !! k).
Proof.
  revert pre s. induction l as [|[[k' i'] n'] l IH]; intros pre s Hlog E; [by destruct pre|]. cbn [log_run] in E.
  pose proof (logLimited_logging k' i' n' s) as Hlg. destruct (logLimited k' i' n' s) as [s1 o] eqn:El. cbn [fst] in Hlg. rewrite blen_cons.
  destruct pre as [|y pre]; cbn [app] in E; injection E as E0 E.
  - subst x. cbn [fst snd]. exists l, s. rewrite El. split_and!; try done. lia.
  - destruct (IH pre s1) as (l' & s' & H1 & H2 & H3 & H4 & H5); [congruence|done|]. exists l', s'. split_and!; try done; [lia|].
    intros k Hs Hc. subst y. apply Forall_cons_1 in Hs as [_ Hs]. unfold calls_of in Hc. cbn [List.filter] in Hc. unfold about at 1 in Hc. cbn [fst] in Hc.
    pose proof (blen_nonneg (List.filter (about k) pre)) as Hnn. destruct (decide (k' = k)) as [->|Hne].
    { rewrite bool_decide_eq_true_2, blen_cons in Hc by done. lia. }
    rewrite bool_decide_eq_false_2 in Hc by done. rewrite (H5 k Hs Hc). pose proof (logLimited_other k' k i' n' s Hne) as Ho. by rewrite El in Ho.
Qed.

(** The log limiter loses no message.  In any sequence of calls, of whatever keys,
    intervals and times: the first call with a key writes its line; two consecutive
    lines with the same key are at least the later call's interval apart; and the later
    line reports exactly the number of calls with that key in between, all of which
    were suppressed. *)
Theorem log_limiter_exact (l : list log_call) (s : Server) (k : list Z) :
  sv_logging s = true → sv_logState s !! k = None → blen l < 2 ^ 63 →
  (∀ pre i n o post, log_run l s = pre ++ ((k, i, n), o) :: post → calls_of k pre = 0 → o = Some 0) ∧
  (∀ pre i1 n1 d1 mid i2 n2 d2 post, log_run l s = pre ++ ((k, i1, n1), Some d1) :: mid ++ ((k, i2, n2), Some d2) :: post → silent k mid →
     i2 <= n2 - n1 ∧ d2 = calls_of k mid).
Proof.
  intros Hlog Hk Hl. split.
  - intros pre i n o post E Hc. destruct (log_run_split l s pre _ post Hlog E) as (l' & s' & Hlog' & _ & _ & Ho & Hst). cbn [fst snd] in *.
    assert (Hsil : silent k pre).
    { apply List.Forall_forall. intros x Hx Ha. exfalso. unfold calls_of in Hc. assert (In x (List.filter (about k) pre)) as Hin by (by apply filter_In).
      destruct (List.filter (about k) pre) as [|y ys]; [done|]. rewrite blen_cons in Hc. pose proof (blen_nonneg ys). lia. }
    specialize (Hst k Hsil Hc). unfold logLimited in Ho. rewrite Hlog', Hst, Hk in Ho. by cbn in Ho.
  - intros pre i1 n1 d1 mid i2 n2 d2 post E Hsil.
    destruct (log_run_split l s pre _ _ Hlog E) as (l' & s' & Hlog' & Hl' & Hrun & Ho & _). cbn [fst snd] in *.
    assert (Hs1 : sv_logState (fst (logLimited k i1 n1 s')) !! k = Some (mkLimited (Some n1) 0)).
    { unfold logLimited in *. rewrite Hlog' in *. cbn [negb] in *. destruct (match ll_last _ with Some _ => _ | None => _ end); [done|]. cbn. by rewrite lookup_insert_eq. }
    destruct (log_run_next k n1 0 l' (fst (logLimited k i1 n1 s')) mid i2 n2 d2 post) as [H1 H2]; try done; try lia.
    by rewrite logLimited_logging.
Qed.
End Serve.

(** ** Concrete requests *)
#[local] Existing Instance ascii_unicode.
Definition demo_server : Server := mkServer (lit "127.0.0.1:8080") (normalize demo_patterns) true ∅.
Definition demo_authorize (client proxy host : list Z) : bool * list Z := (bool_decide (host = lit "a.b"), lit "why").
Definition demo_connect : request := mkRequest (lit "CONNECT") [] [] (lit "a.b:443") (lit "a.b:443") (lit "127.0.0.1:4000").
Definition demo_outcomes : outcomes := mkOutcomes 7 None true true true (inl 200).
Lemma demo_server_ok : Forall (fun p => canon_domain p ≠ []) (sv_patterns demo_server).
Proof. vm_compute sv_patterns. repeat constructor; vm_compute; discriminate. Qed.
Lemma proxy_serves_configured_witness :
  ∃ s' es, ServeHTTP (Some demo_authorize) demo_outcomes demo_connect demo_server = Ok (s', es) ∧
    es = [Dial (lit "tcp") (lit "a.b:443") true; Hijacked; Established; Bridge] ∧ Forall (allowed (Some demo_authorize) demo_server demo_connect) es.
Proof.
  destruct (proxy_serves_configured (Some demo_authorize) demo_outcomes demo_connect demo_server demo_server_ok (fun _ => eq_refl)) as (s' & es & E & Ha & _).
  assert (Ee : match ServeHTTP (Some demo_authorize) demo_outcomes demo_connect demo_server with Ok (_, es) => es = [Dial (lit "tcp") (lit "a.b:443") true; Hijacked; Established; Bridge] | _ => False end)
    by (vm_compute; reflexivity).
  rewrite E in Ee. exists s', es. split; [exact E|]. split; [exact Ee|exact Ha].
Defined.

Definition demo_calls : list log_call := [(lit "x", 5, 10); (lit "x", 5, 12); (lit "y", 5, 13); (lit "x", 5, 14); (lit "x", 5, 15)].
Lemma log_limiter_exact_witness :
  log_run demo_calls demo_server = [((lit "x", 5, 10), Some 0); ((lit "x", 5, 12), None); ((lit "y", 5, 13), Some 0); ((lit "x", 5, 14), None); ((lit "x", 5, 15), Some 2)] ∧
  5 <= 15 - 10 ∧ 2 = calls_of (lit "x") [((lit "x", 5, 12), None); ((lit "y", 5, 13), Some 0); ((lit "x", 5, 14), None)].
Proof.
  assert (E : log_run demo_calls demo_server = [((lit "x", 5, 10), Some 0); ((lit "x", 5, 12), None); ((lit "y", 5, 13), Some 0); ((lit "x", 5, 14), None); ((lit "x", 5, 15), Some 2)])
    by (vm_compute; reflexivity).
  split; [exact E|].
  apply (proj2 (log_limiter_exact demo_calls demo_server (lit "x") eq_refl eq_refl ltac:(vm_compute; reflexivity)) [] 5 10 0
    [((lit "x", 5, 12), None); ((lit "y", 5, 13), Some 0); ((lit "x", 5, 14), None)] 5 15 2 [] E).
  repeat constructor; discriminate.
Defined.
