(* ===== verification/WinUtil.v ===== *)
(** * Windows settings: [internal/winutil/]

    The session's PAC entry in the user's proxy settings ([proxy_windows.go]) and the
    choice of the physical interface and the driver files ([winutil_windows.go]).
    PowerShell is reached as a process: the scripts the code builds are kept as text,
    and the two that change the settings are interpreted from that text (a string in
    single quotes in which two quotes stand for one); whether the process succeeds,
    [url.Parse] and the network probe are arguments. *)

From S2P Require Import Prelude Netip GoStrings Config HostPort BrowserProxy PacFile ProxyServe.
Local Open Scope Z_scope.

(** ** The settings and PowerShell *)
Record registry := mkRegistry { rg_auto : option (list Z); rg_enable : Z; rg_server : list Z }.
Definition set_auto (r : registry) (v : option (list Z)) : registry := mkRegistry v (rg_enable r) (rg_server r).

Definition psQuote (s : list Z) : list Z := replace_with quote [quote; quote] s.
Definition settings_path : list Z := lit "$p='HKCU:\Software\Microsoft\Windows\CurrentVersion\Internet Settings'; ".
Definition set_script (quoted : list Z) : list Z :=
  settings_path ++ lit "Set-ItemProperty -Path $p -Name AutoConfigURL -Value '" ++ quoted ++ lit "' -Type String".
Definition remove_script : list Z := settings_path ++ lit "Remove-ItemProperty -Path $p -Name AutoConfigURL -ErrorAction SilentlyContinue".

(** A string in single quotes, from the byte after the opening one.  PowerShell also
    takes the typographic quotes U+2018..U+201B as quotes: a string that holds the first
    byte of their encoding is left uninterpreted. *)
Definition typographic : Z := 226.
Fixpoint ps_string (s : list Z) : option (list Z * list Z) :=
  match s with
  | [] => None
  | c :: rest =>
      if c =? typographic then None else
      if c =? quote then
        match rest with
        | c' :: rest' => if c' =? quote then '(v, t) ← ps_string rest'; Some (quote :: v, t) else Some ([], rest)
        | [] => Some ([], rest)
        end
      else '(v, t) ← ps_string rest; Some (c :: v, t)
  end.
(** What a script does to the settings; [None] for any other script. *)
Definition ps_exec (script : list Z) (r : registry) : option registry :=
  s ← expect settings_path script;
  match expect (lit "Set-ItemProperty -Path $p -Name AutoConfigURL -Value '") s with
  | Some s => '(v, s) ← ps_string s; if bool_decide (s = lit " -Type String") then Some (set_auto r (Some v)) else None
  | None => if bool_decide (script = remove_script) then Some (set_auto r None) else None
  end.

(** ** proxy_windows.go *)
Record proxySnapshot := mkSnapshot { ps_has : bool; ps_auto : list Z; ps_enable : Z; ps_server : list Z }.
Definition snapshot_of (r : registry) : proxySnapshot :=
  mkSnapshot (match rg_auto r with Some _ => true | None => false end) (default [] (rg_auto r)) (rg_enable r) (rg_server r).
Record ProxySession := mkSession { sn_snap : proxySnapshot; sn_installed : bool }.
Record URL := mkURL { u_scheme : list Z; u_host : list Z; u_path : list Z }.

Section Proxy.
Context {U : Unicode}.
Context (url_parse : list Z → option URL) (reachable : list Z → bool).

Definition isSplitWirePAC (raw : list Z) : Res bool :=
  match url_parse (TrimSpace raw) with
  | None => Ok false
  | Some u =>
      h ← Hostname (u_host u);
      Ok (bool_decide (u_scheme u = lit "http") && bool_decide (ToLower h = lit "127.0.0.1") && bool_decide (u_path u = lit "/proxy.pac"))
  end.
Definition pacAlive (raw : list Z) : bool :=
  match url_parse (TrimSpace raw) with
  | None => false
  | Some u => if bool_decide (u_host u = []) then false else reachable (u_host u)
  end.

(** A run of PowerShell that may fail, in which case it changes nothing. *)
Definition powershell (ok : bool) (script : list Z) (r : registry) : registry * Res unit :=
  if ok then match ps_exec script r with Some r => (r, Ok tt) | None => (r, Err "powershell") end else (r, Err "powershell").

(** [readProxySnapshot] gives the settings as they are, or an error. *)
Definition readProxySnapshot (ok : bool) (r : registry) : Res proxySnapshot :=
  if ok then Ok (snapshot_of r) else Err "read Windows proxy settings".

Definition reclaim (snap : proxySnapshot) : Res proxySnapshot :=
  if bool_decide (TrimSpace (ps_auto snap) = []) then Ok snap else
  ours ← isSplitWirePAC (ps_auto snap);
  if negb (ours : bool) then Err "existing Windows proxy/PAC configuration detected" else
  if pacAlive (ps_auto snap) then Err "existing Windows proxy/PAC configuration detected" else
  Ok (mkSnapshot false [] (ps_enable snap) (ps_server snap)).
Definition InstallSessionPAC (ok1 ok2 : bool) (pacURL : list Z) : SR registry ProxySession := fun r =>
  let pacURL := TrimSpace pacURL in
  if bool_decide (pacURL = []) then (r, Err "empty PAC URL") else
  match (snap ← readProxySnapshot ok1 r; reclaim snap) with
  | Ok snap =>
      if negb (ps_enable snap =? 0) then (r, Err "existing Windows proxy/PAC configuration detected") else
      let (r, e) := powershell ok2 (set_script (psQuote pacURL)) r in
      match e with
      | Ok _ => (r, Ok (mkSession snap true))
      | Err e => (r, Err e)
      | Panic => (r, Panic)
      | OutOfFuel => (r, OutOfFuel)
      end
  | Err e => (r, Err e)
  | Panic => (r, Panic)
  | OutOfFuel => (r, OutOfFuel)
  end.
(** [Restore] of a session ([None]: a nil pointer); the session and the error. *)
Definition Restore (ok : bool) (s : option ProxySession) (r : registry) : registry * (option ProxySession * option string) :=
  match s with
  | None => (r, (None, None))
  | Some s =>
      if negb (sn_installed s) then (r, (Some s, None)) else
      let script := if ps_has (sn_snap s) then set_script (psQuote (ps_auto (sn_snap s))) else remove_script in
      let (r, e) := powershell ok script r in
      (r, (Some (mkSession (sn_snap s) false), match e with Ok _ => None | _ => Some "restore Windows proxy settings"%string end))
  end.
End Proxy.

(** ** winutil_windows.go *)
Definition ParseUint32 (s : list Z) : option Z :=
  match s with
  | [] => None
  | _ => match digits s 0 with Some n => if n <=? 4294967295 then Some n else None | None => None end
  end.
Definition script_up : list Z := lit "$x=Get-NetIPConfiguration | Where-Object { $_.NetAdapter.Status -eq 'Up' -and $_.IPv4DefaultGateway -ne $null -and $_.NetAdapter.HardwareInterface } | Sort-Object { $_.NetIPv4Interface.InterfaceMetric } | Select-Object -First 1; if($null -eq $x){exit 2}; $x.InterfaceIndex".
Definition script_route : list Z := lit "$r=Get-NetRoute -AddressFamily IPv4 -DestinationPrefix '0.0.0.0/0' -ErrorAction SilentlyContinue | Where-Object { $_.NextHop -ne '0.0.0.0' } | Sort-Object RouteMetric | Select-Object -First 1; if($null -eq $r){exit 2}; $r.InterfaceIndex".
Record Interface := mkInterface { if_index : Z; if_name : list Z }.

Section Select.
Context {U : Unicode}.
(** [net.InterfaceByIndex] and the output of PowerShell on a script. *)
Context (byIndex : Z → option (list Z)) (output : list Z → Res (list Z)).

Definition interfaceByIndex (index : Z) : Res Interface :=
  if index =? 0 then Err "interface index is zero" else
  match byIndex index with None => Err "InterfaceByIndex" | Some name => Ok (mkInterface index name) end.
Definition alias_script (escaped : list Z) : list Z :=
  lit "$a=Get-NetAdapter -InterfaceAlias '" ++ escaped ++ lit "' -ErrorAction Stop; $a.IfIndex".
Definition parsed_index (out : list Z) : Res Interface :=
  match ParseUint32 (TrimSpace out) with None => Err "parse interface index" | Some n => interfaceByIndex n end.
Definition SelectPhysicalInterface (spec : list Z) : Res Interface :=
  let spec := TrimSpace spec in
  if negb (bool_decide (spec = [])) then
    match ParseUint32 spec with
    | Some n => interfaceByIndex n
    | None => out ← output (alias_script (psQuote spec)); parsed_index out
    end
  else
    out ← (match output script_up with Err _ => output script_route | r => r end);
    parsed_index out.
End Select.

(** ** EnsureAssets *)
Notation files := (gmap (list Z) (list Z)).
Inductive download :=
  | DoError (e : string)
  | Response (status : Z) (body : Res (list Z)).
Record zipFile := mkZip { zf_name : list Z; zf_open : Res (list Z * option string) }.

(** [io.LimitReader] *)
Definition limit_reader (n : Z) (s : list Z) : list Z := take (Z.to_nat n) s.

Section Assets.
Context {U : Unicode}.
(** What [filepath.Clean] gives for the directory, its separator included, the network,
    [archive/zip], and the outcomes of [os.OpenFile] and [os.Rename]. *)
Context (clean_prefix : list Z → list Z) (fetch : list Z → download) (zip_reader : list Z → Res (list zipFile)).
Context (create : list Z → Res unit) (rename : list Z → list Z → Res unit).

(** [filepath.Join] of a directory and a plain file name. *)
Definition path_join (dir name : list Z) : list Z := clean_prefix dir ++ name.
Definition regular (fs : files) (p : list Z) : bool :=
  match fs !! p with Some (_ :: _) => true | _ => false end.
Definition asset_urls : list (list Z) :=
  [lit "https://www.reqrypt.org/download/WinDivert-2.2.2-A.zip";
   lit "https://github.com/basil00/WinDivert/releases/download/v2.2.2/WinDivert-2.2.2-A.zip"].
(** The download loop: the data and the last error (the data counts only without one). *)
Fixpoint fetch_loop (urls : list (list Z)) (data : list Z) (last : option string) : list Z * option string :=
  match urls with
  | [] => (data, last)
  | u :: urls =>
      match fetch u with
      | DoError e => fetch_loop urls data (Some e)
      | Response status body =>
          if (status <? 200) || (300 <=? status) then fetch_loop urls data (Some "HTTP"%string) else
          match body with
          | Ok b =>
              let data := limit_reader (Z.shiftl 16 20) b in
              if bool_decide (data = []) then fetch_loop urls data (Some "empty WinDivert download"%string) else (data, None)
          | _ => fetch_loop urls [] (Some "read"%string)
          end
      end
  end.
Definition tmp_suffix : list Z := lit ".tmp".
(** The copy of one entry to [dst], through a temporary file. *)
Definition extract (f : zipFile) (dst : list Z) : SR files unit := fun fs =>
  match zf_open f with
  | Ok (content, cut) =>
      let tmp := dst ++ tmp_suffix in
      let '(fs, e) := match create tmp with
                      | Ok _ => (<[tmp := limit_reader (Z.shiftl 32 20) content]> fs, cut)
                      | _ => (fs, Some "create"%string)
                      end in
      match e with
      | Some e => (delete tmp fs, Err e)
      | None =>
          match rename tmp dst with
          | Ok _ => (match fs !! tmp with Some c => <[dst := c]> (delete tmp fs) | None => fs end, Ok tt)
          | _ => (delete tmp fs, Err "rename")
          end
      end
  | _ => (fs, Err "open")
  end.
Inductive destination := SkipEntry | KeepDLL | KeepSYS | WriteTo (dst : list Z) (isDLL isSYS : bool).
Definition slash_name (name : list Z) : list Z := ToLower (replace_with 92 [47] name).
Definition is_dll (n : list Z) : bool := HasSuffix n (lit "/x64/windivert.dll") || bool_decide (n = lit "x64/windivert.dll").
Definition is_sys (n : list Z) : bool := HasSuffix n (lit "/x64/windivert64.sys") || bool_decide (n = lit "x64/windivert64.sys").
Definition is_license (n : list Z) : bool := HasSuffix n (lit "/license") || HasSuffix n (lit "/license.txt").
Definition destination_of (dir : list Z) (fs : files) (f : zipFile) : destination :=
  let n := slash_name (zf_name f) in
  let dll := path_join dir (lit "WinDivert.dll") in
  let sys := path_join dir (lit "WinDivert64.sys") in
  if is_dll n then
    if regular fs dll then KeepDLL else WriteTo dll true false
  else if is_sys n then
    if regular fs sys then KeepSYS else WriteTo sys false true
  else if is_license n then
    WriteTo (path_join dir (lit "WinDivert-LICENSE.txt")) false false
  else SkipEntry.
Fixpoint unpack (dir : list Z) (entries : list zipFile) (foundDLL foundSYS : bool) : SR files (bool * bool) := fun fs =>
  match entries with
  | [] => (fs, Ok (foundDLL, foundSYS))
  | f :: entries =>
      match destination_of dir fs f with
      | SkipEntry => unpack dir entries foundDLL foundSYS fs
      | KeepDLL => unpack dir entries true foundSYS fs
      | KeepSYS => unpack dir entries foundDLL true fs
      | WriteTo dst isDLL isSYS =>
          (extract f dst ≫= fun _ => unpack dir entries (foundDLL || isDLL) (foundSYS || isSYS)) fs
      end
  end.
Definition EnsureAssets (dir : list Z) : SR files unit := fun fs =>
  if regular fs (path_join dir (lit "WinDivert.dll")) && regular fs (path_join dir (lit "WinDivert64.sys")) then (fs, Ok tt) else
  let (data, last) := fetch_loop asset_urls [] None in
  match last with
  | Some e => (fs, Err e)
  | None =>
      match zip_reader data with
      | Ok entries =>
          ('(foundDLL, foundSYS) ← unpack dir entries false false;
           if negb foundDLL || negb foundSYS then sfail "official WinDivert archive did not contain x64/WinDivert.dll and x64/WinDivert64.sys"
           else mret tt) fs
      | _ => (fs, Err "WinDivert zip")
      end
  end.
End Assets.

(** ** The scripts do what the code means *)
Definition plain_text (s : list Z) : Prop := typographic ∉ s.

Lemma ps_string_quoted s t : plain_text s → head t ≠ Some quote → ps_string (psQuote s ++ [quote] ++ t) = Some (s, t).
Proof.
  intros Hs Ht. unfold psQuote. induction s as [|c s IH]; cbn [app replace_with flat_map].
  - cbn. destruct t as [|c t]; [done|]. destruct (Z.eqb_spec c quote) as [->|]; [by cbn in Ht|done].
  - apply not_elem_of_cons in Hs as [Hc Hs]. specialize (IH Hs). unfold replace_with in *. cbn [app] in IH.
    destruct (Z.eqb_spec c quote) as [->|Hq]; cbn [app ps_string].
    + change (quote =? typographic) with false. rewrite Z.eqb_refl. cbn iota. by rewrite IH.
    + rewrite (proj2 (Z.eqb_neq c typographic)) by congruence. rewrite (proj2 (Z.eqb_neq c quote) Hq). by rewrite IH.
Qed.

Lemma ps_exec_set s r : plain_text s → ps_exec (set_script (psQuote s)) r = Some (set_auto r (Some s)).
Proof.
  intros Hs. unfold ps_exec, set_script. rewrite expect_app. cbn [mbind option_bind]. rewrite expect_app.
  change (lit "' -Type String") with ([quote] ++ lit " -Type String"). rewrite ps_string_quoted by done.
  cbn [mbind option_bind]. by rewrite bool_decide_eq_true_2.
Qed.
Lemma ps_exec_remove r : ps_exec remove_script r = Some (set_auto r None).
Proof.
  unfold ps_exec. assert (E : expect settings_path remove_script = Some _) by apply expect_app. rewrite E.
  cbn [mbind option_bind]. by rewrite bool_decide_eq_true_2.
Qed.

(** ** The session's entry *)
Section ProxyProps.
Context {U : Unicode}.
Context (url_parse : list Z → option URL) (reachable : list Z → bool).

(** What the user had set, not counting an entry left by a SplitWire that was
    interrupted: its URL is SplitWire's and nothing answers there. *)
Definition stale (v : list Z) : Prop := isSplitWirePAC url_parse v = Ok true ∧ pacAlive url_parse reachable v = false.
Inductive user_setting : option (list Z) → option (list Z) → Prop :=
  | us_none : user_setting None None
  | us_blank v : TrimSpace v = [] → user_setting (Some v) (Some v)
  | us_stale v : TrimSpace v ≠ [] → stale v → user_setting (Some v) None.
Definition plain_registry (r : registry) : Prop := from_option plain_text True (rg_auto r).

Lemma isSplitWirePAC_returns v : ∃ b, isSplitWirePAC url_parse v = Ok b.
Proof.
  unfold isSplitWirePAC. destruct (url_parse (TrimSpace v)) as [u|]; [|by exists false].
  destruct (Hostname_returns (u_host u)) as [h ->]. rewrite bind_Ok. by eexists.
Qed.

Definition snapshot_with (v : option (list Z)) (r : registry) : proxySnapshot :=
  mkSnapshot (match v with Some _ => true | None => false end) (default [] v) (rg_enable r) (rg_server r).
(** [reclaim] accepts exactly the settings SplitWire may replace. *)
Lemma reclaim_spec r :
  (∃ v, user_setting (rg_auto r) v ∧ reclaim url_parse reachable (snapshot_of r) =
     Ok (snapshot_with v r)) ∨
  (∃ e, reclaim url_parse reachable (snapshot_of r) = Err e) ∧ ¬ ∃ v, user_setting (rg_auto r) v.
Proof.
  unfold reclaim, snapshot_of. destruct r as [[v|] en sv]; cbn [ps_auto rg_auto ps_enable ps_server rg_enable rg_server default].
  2: { left. exists None. split; [constructor|done]. }
  change (id v) with v.
  destruct (bool_decide_reflect (TrimSpace v = [])) as [Hb|Hb].
  { left. exists (Some v). split; [by apply us_blank|done]. }
  destruct (isSplitWirePAC_returns v) as [b Eb]. rewrite Eb, bind_Ok.
  destruct b; cbn [negb].
  - destruct (pacAlive url_parse reachable v) eqn:Ea.
    + right. split; [by eexists|]. intros [w Hw]. inversion Hw as [|? H|? ? [_ H]]; subst; congruence.
    + left. exists None. split; [by apply us_stale|done].
  - right. split; [by eexists|]. intros [w Hw]. inversion Hw as [|? H|? ? [H _]]; subst; congruence.
Qed.

Lemma user_plain o v : user_setting o v → from_option plain_text True o → from_option plain_text True v.
Proof. by inversion 1; subst. Qed.

(** [Restore] of a session puts back what its snapshot says, once. *)
Lemma Restore_spec v r0 r ok : from_option plain_text True v →
  let s := mkSession (snapshot_with v r0) true in
  Restore ok (Some s) r =
    (if ok then set_auto r v else r, (Some (mkSession (sn_snap s) false), if ok then None else Some "restore Windows proxy settings"%string)).
Proof.
  intros Hv s. unfold Restore, s. cbn [sn_installed sn_snap ps_has negb ps_auto snapshot_with].
  destruct ok; unfold powershell; [|done].
  destruct v as [v|]; cbn iota; [change (default [] (Some v)) with v; rewrite ps_exec_set by done|rewrite ps_exec_remove]; done.
Qed.

(** When the entry may be installed. *)
Definition permitted (ok1 ok2 : bool) (url : list Z) (r : registry) : Prop :=
  TrimSpace url ≠ [] ∧ ok1 = true ∧ ok2 = true ∧ rg_enable r = 0 ∧ ∃ v, user_setting (rg_auto r) v.

Lemma InstallSessionPAC_spec ok1 ok2 url r : plain_text (TrimSpace url) →
  (permitted ok1 ok2 url r ∧ ∃ v, user_setting (rg_auto r) v ∧
     InstallSessionPAC url_parse reachable ok1 ok2 url r = (set_auto r (Some (TrimSpace url)), Ok (mkSession (snapshot_with v r) true))) ∨
  (¬ permitted ok1 ok2 url r ∧ ∃ e, InstallSessionPAC url_parse reachable ok1 ok2 url r = (r, Err e)).
Proof.
  intros Hp. unfold InstallSessionPAC, permitted. cbv zeta.
  destruct (bool_decide_reflect (TrimSpace url = [])) as [Hb|Hb]; [right; split; [by intros [? _]|by eexists]|].
  unfold readProxySnapshot. destruct ok1; [|right; split; [by intros (_ & ? & _)|by eexists]].
  rewrite bind_Ok. destruct (reclaim_spec r) as [(v & Hv & ->)|[[e ->] Hn]].
  2: { right. split; [by intros (_ & _ & _ & _ & ?)|by eexists]. }
  cbn [ps_enable snapshot_with]. destruct (Z.eqb_spec (rg_enable r) 0) as [He|He]; cbn [negb].
  2: { right. split; [by intros (_ & _ & _ & ? & _)|by eexists]. }
  unfold powershell. destruct ok2; [|right; split; [by intros (_ & _ & ? & _)|by eexists]].
  rewrite ps_exec_set by done. left. split; [by eauto 10|]. exists v. by split.
Qed.

(** C21: the browser's PAC entry is installed exactly when the user has no proxy of his
    own: no fixed proxy and no PAC script, an entry left behind by an interrupted
    SplitWire not counting.  Then it is the only setting that changes, and it becomes
    the given URL, whatever characters that has; otherwise nothing changes and an error
    is returned.  [Restore] puts back what the user had (a stale entry of SplitWire is
    removed) without touching the other settings, and does so once: a second call does
    nothing. *)
Theorem pac_session_restores ok1 ok2 url r :
  plain_text (TrimSpace url) → plain_registry r →
  match InstallSessionPAC url_parse reachable ok1 ok2 url r with
  | (r1, Ok s) =>
      permitted ok1 ok2 url r ∧ r1 = set_auto r (Some (TrimSpace url)) ∧
      ∃ v s', user_setting (rg_auto r) v ∧
        (∀ r2, Restore true (Some s) r2 = (set_auto r2 v, (Some s', None))) ∧
        (∀ r2, ∃ e, Restore false (Some s) r2 = (r2, (Some s', Some e))) ∧
        (∀ ok r2, Restore ok (Some s') r2 = (r2, (Some s', None)))
  | (r1, Err _) => ¬ permitted ok1 ok2 url r ∧ r1 = r
  | _ => False
  end.
Proof.
  intros Hp Hr. destruct (InstallSessionPAC_spec ok1 ok2 url r Hp) as [[Hok (v & Hv & ->)]|[Hn [e ->]]]; [|done].
  split_and!; [done..|]. pose proof (user_plain _ _ Hv Hr) as Hpv.
  exists v, (mkSession (snapshot_with v r) false). split_and!; [done|..].
  - intros r2. by rewrite (Restore_spec v r r2 true Hpv).
  - intros r2. rewrite (Restore_spec v r r2 false Hpv). by eexists.
  - done.
Qed.
End ProxyProps.

(** A URL with a quote in it over an entry that an interrupted SplitWire left. *)
Definition demo_url : list Z := lit "http://127.0.0.1:8080/it's.pac".
Definition old_pac : list Z := lit "http://127.0.0.1:9/proxy.pac".
Definition demo_parse (s : list Z) : option URL :=
  if bool_decide (s = old_pac) then Some (mkURL (lit "http") (lit "127.0.0.1:9") (lit "/proxy.pac")) else None.
Definition demo_registry : registry := mkRegistry (Some old_pac) 0 [].

Lemma plain_text_check s : forallb (fun c => negb (c =? typographic)) s = true → plain_text s.
Proof.
  intros H Hin. rewrite forallb_forall in H. apply list_elem_of_In, H in Hin. by rewrite Z.eqb_refl in Hin.
Qed.
Lemma pac_session_restores_witness :
  match @InstallSessionPAC ascii_unicode demo_parse (fun _ => false) true true demo_url demo_registry with
  | (r1, Ok s) => r1 = mkRegistry (Some demo_url) 0 [] ∧ (Restore true (Some s) r1).1 = mkRegistry None 0 []
  | _ => False
  end.
Proof.
  pose proof (@pac_session_restores ascii_unicode demo_parse (fun _ => false) true true demo_url demo_registry) as H.
  assert (H1 : plain_text (@TrimSpace ascii_unicode demo_url)) by (apply plain_text_check; vm_compute; reflexivity).
  assert (H2 : plain_registry demo_registry) by (apply plain_text_check; vm_compute; reflexivity).
  specialize (H H1 H2).
  assert (E : ∃ r1 s, @InstallSessionPAC ascii_unicode demo_parse (fun _ => false) true true demo_url demo_registry = (r1, Ok s))
    by (do 2 eexists; vm_compute; reflexivity).
  destruct E as (r1 & s & E). rewrite E in H |- *. destruct H as (_ & -> & v & s' & Hv & Hrest & _).
  split; [vm_compute; reflexivity|]. rewrite Hrest.
  inversion Hv as [|? Hb|]; subst; [vm_compute in Hb; discriminate Hb|vm_compute; reflexivity].
Defined.

(** ** The driver files *)
Section AssetProps.
Context {U : Unicode}.
Context (clean_prefix : list Z → list Z) (fetch : list Z → download) (zip_reader : list Z → Res (list zipFile)).
Context (create : list Z → Res unit) (rename : list Z → list Z → Res unit).
Context (dir : list Z).
#[local] Notation at_ name := (path_join clean_prefix dir (lit name)).
#[local] Notation unpack := (unpack clean_prefix create rename dir).

#[local] Notation limited content := (limit_reader (Z.shiftl 32 20) content).
Definition asset_paths : list (list Z) := [at_ "WinDivert.dll"; at_ "WinDivert64.sys"; at_ "WinDivert-LICENSE.txt"].

Lemma names_differ x y : lit x ≠ lit y → at_ x ≠ at_ y.
Proof. intros H E. by apply app_inv_head in E. Qed.
Lemma tmp_differs x y : lit x ≠ lit y ++ tmp_suffix → at_ x ≠ at_ y ++ tmp_suffix.
Proof. intros H E. unfold path_join in E. rewrite <- app_assoc in E. by apply app_inv_head in E. Qed.
Lemma asset_distinct p q : p ∈ asset_paths → q ∈ asset_paths → p ≠ q ++ tmp_suffix.
Proof.
  unfold asset_paths. rewrite !elem_of_cons, !elem_of_nil.
  intros [->|[->|[->|[]]]] [->|[->|[->|[]]]]; apply tmp_differs; vm_compute; discriminate.
Qed.

(** One entry changes its file, and only when the whole of it was written. *)
Lemma extract_spec f dst fs : dst ≠ dst ++ tmp_suffix → let (fs', r) := extract create rename f dst fs in
  (∀ p, p ≠ dst → p ≠ dst ++ tmp_suffix → fs' !! p = fs !! p) ∧
  (fs' !! (dst ++ tmp_suffix) = None ∨ fs' = fs) ∧
  ((∃ content, r = Ok tt ∧ zf_open f = Ok (content, None) ∧ fs' !! dst = Some (limited content)) ∨
   (∃ e, r = Err e) ∧ fs' !! dst = fs !! dst).
Proof.
  intros Hd. unfold extract. destruct (zf_open f) as [[content cut]| | |]; [|split_and!; naive_solver..].
  cbv zeta. destruct (create _) as [[]| | |].
  2-4: split_and!; [intros p ? ?; by rewrite lookup_delete_ne by done|left; apply lookup_delete_eq|right; split; [by eexists|by rewrite lookup_delete_ne by done]].
  destruct cut as [e|].
  { split_and!; [intros p ? ?; by rewrite lookup_delete_ne, lookup_insert_ne by done|left; apply lookup_delete_eq|].
    right. split; [by eexists|]. by rewrite lookup_delete_ne, lookup_insert_ne by done. }
  destruct (rename _ _) as [[]| | |].
  2-4: split_and!; [intros p ? ?; by rewrite lookup_delete_ne, lookup_insert_ne by done|left; apply lookup_delete_eq|];
    right; (split; [by eexists|]); by rewrite lookup_delete_ne, lookup_insert_ne by done.
  rewrite lookup_insert_eq. split_and!.
  - intros p ? ?. by rewrite lookup_insert_ne, lookup_delete_ne, lookup_insert_ne by done.
  - left. rewrite lookup_insert_ne by done. apply lookup_delete_eq.
  - left. exists content. split_and!; [done..|]. apply lookup_insert_eq.
Qed.

(** An entry of the archive that is meant for a path. *)
Definition entry_for (p : list Z) (f : zipFile) : Prop := ∃ a b, destination_of clean_prefix dir ∅ f = WriteTo p a b.
Definition from_archive (es : list zipFile) (p : list Z) (fs : files) : Prop :=
  ∃ f content, f ∈ es ∧ entry_for p f ∧ zf_open f = Ok (content, None) ∧ fs !! p = Some (limited content).
Definition driver_paths : list (list Z) := [at_ "WinDivert.dll"; at_ "WinDivert64.sys"].

Lemma destination_spec fs f :
  match destination_of clean_prefix dir fs f with
  | SkipEntry => True
  | KeepDLL => regular fs (at_ "WinDivert.dll") = true
  | KeepSYS => regular fs (at_ "WinDivert64.sys") = true
  | WriteTo dst a b =>
      entry_for dst f ∧ dst ∈ asset_paths ∧ (dst ∈ driver_paths → regular fs dst = false) ∧
      (a = true → dst = at_ "WinDivert.dll") ∧ (b = true → dst = at_ "WinDivert64.sys")
  end.
Proof.
  unfold destination_of, entry_for. cbv zeta.
  destruct (is_dll _) eqn:E1; [|destruct (is_sys _) eqn:E2; [|destruct (is_license _) eqn:E3; [|done]]].
  - destruct (regular fs _) eqn:Er; [done|]. unfold destination_of. cbv zeta. rewrite E1. unfold regular at 1. rewrite lookup_empty.
    split_and!; [by do 2 eexists|unfold asset_paths; set_solver|done..].
  - destruct (regular fs _) eqn:Er; [done|]. unfold destination_of. cbv zeta. rewrite E1, E2. unfold regular at 1. rewrite lookup_empty.
    split_and!; [by do 2 eexists|unfold asset_paths; set_solver|done..].
  - unfold destination_of. cbv zeta. rewrite E1, E2, E3. split_and!; [by do 2 eexists|unfold asset_paths; set_solver| |done..].
    unfold driver_paths. rewrite !elem_of_cons, elem_of_nil.
    intros [E|[E|[]]]; by apply names_differ in E; [|vm_compute; discriminate].
Qed.

(** What holds between entries: only the three files and their temporary names change,
    no temporary file is left, a driver file that was there stays, and a file that was
    found is either that one or an entry of the archive. *)
Record unpacking (es : list zipFile) (fs0 fs : files) (d s : bool) : Prop := {
  up_else p : p ∉ asset_paths → (∀ q, q ∈ asset_paths → p ≠ q ++ tmp_suffix) → fs !! p = fs0 !! p;
  up_tmp q : q ∈ asset_paths → fs !! (q ++ tmp_suffix) = None ∨ fs !! (q ++ tmp_suffix) = fs0 !! (q ++ tmp_suffix);
  up_origin p : p ∈ driver_paths → fs !! p = fs0 !! p ∨ regular fs0 p = false ∧ from_archive es p fs;
  up_dll : d = true → regular fs0 (at_ "WinDivert.dll") = true ∨ from_archive es (at_ "WinDivert.dll") fs;
  up_sys : s = true → regular fs0 (at_ "WinDivert64.sys") = true ∨ from_archive es (at_ "WinDivert64.sys") fs }.

Lemma unpacking_kept es fs0 fs d s p : p ∈ driver_paths → unpacking es fs0 fs d s → regular fs p = true →
  regular fs0 p = true ∨ from_archive es p fs.
Proof. intros Hp H Hr. destruct (up_origin _ _ _ _ _ H p Hp) as [E|[_ ?]]; [left|by right]. unfold regular in *. by rewrite <- E. Qed.

Lemma from_archive_ne es p fs fs' : fs' !! p = fs !! p → from_archive es p fs → from_archive es p fs'.
Proof. intros E (f & c & ? & ? & ? & ?). exists f, c. by rewrite E. Qed.
Lemma driver_asset p : p ∈ driver_paths → p ∈ asset_paths.
Proof. unfold driver_paths, asset_paths. set_solver. Qed.

(** An entry that is not written, or is cut off, changes no file; one that is written
    becomes its file. *)
Lemma extract_unpacking es fs0 fs d s f dst : f ∈ es → entry_for dst f → dst ∈ asset_paths →
  (dst ∈ driver_paths → regular fs dst = false) → unpacking es fs0 fs d s →
  let (fs', r) := extract create rename f dst fs in
  (r = Ok tt ∧ from_archive es dst fs' ∨ ∃ e, r = Err e) ∧ unpacking es fs0 fs' d s.
Proof.
  intros Hf He Hd Hreg Hu. pose proof (extract_spec f dst fs (asset_distinct _ _ Hd Hd)) as H.
  destruct (extract create rename f dst fs) as [fs' r]. destruct H as (Helse & Htmp & Hdst).
  assert (Hown : r = Ok tt ∧ from_archive es dst fs' ∨ (∃ e, r = Err e) ∧ fs' !! dst = fs !! dst).
  { destruct Hdst as [(c & -> & Ho & E)|?]; [left|by right]. split; [done|]. by exists f, c. }
  assert (Hfile : ∀ p, p ∈ asset_paths → fs' !! p = fs !! p ∨ p = dst ∧ from_archive es p fs').
  { intros p Hp. destruct (decide (p = dst)) as [->|Hne]; [destruct Hown as [[_ ?]|[_ ?]]; [by right|by left]|].
    left. apply Helse; [done|by apply asset_distinct]. }
  assert (Hkeep : ∀ p, p ∈ driver_paths → regular fs0 p = true ∨ from_archive es p fs → regular fs0 p = true ∨ from_archive es p fs').
  { intros p Hp [?|Ha]; [by left|]. right. destruct (Hfile p (driver_asset p Hp)) as [E|[_ ?]]; [|done]. by apply (from_archive_ne es p fs). }
  split; [destruct Hown as [?|[? _]]; [by left|by right]|]. destruct Hu as [H1 H2 H3 H4 H5]. split.
  - intros p Hp Ht. rewrite Helse; [by apply H1| |by apply Ht]. intros ->. by apply Hp.
  - intros q Hq. destruct Htmp as [E| ->]; [|by apply H2]. destruct (decide (q ++ tmp_suffix = dst ++ tmp_suffix)) as [->|Hne]; [by left|].
    rewrite Helse; [by apply H2| |done]. intros E'. by apply (asset_distinct dst q).
  - intros p Hp. specialize (H3 p Hp). destruct (Hfile p (driver_asset p Hp)) as [E|[-> ?]].
    + rewrite E. destruct H3 as [?|[? ?]]; [by left|right]. split; [done|]. by apply (from_archive_ne es p fs).
    + right. split; [|done]. destruct H3 as [E|[? _]]; [|done]. unfold regular in *. rewrite <- E. by apply Hreg.
  - intros Ed. apply Hkeep; [unfold driver_paths; set_solver|by apply H4].
  - intros Es. apply Hkeep; [unfold driver_paths; set_solver|by apply H5].
Qed.

Lemma unpack_spec es fs0 entries : ∀ fs d s, (∀ f, f ∈ entries → f ∈ es) → unpacking es fs0 fs d s →
  let (fs', r) := unpack entries d s fs in
  ∃ d' s', unpacking es fs0 fs' d' s' ∧ (r = Ok (d', s') ∨ ∃ e, r = Err e).
Proof.
  induction entries as [|f entries IH]; intros fs d s Hin Hu; cbn [WinUtil.unpack].
  { exists d, s. split; [done|by left]. }
  assert (Hin' : ∀ g, g ∈ entries → g ∈ es) by (intros g Hg; apply Hin; by right).
  pose proof (destination_spec fs f) as Hd.
  destruct (destination_of clean_prefix dir fs f) as [| | |dst a b]; [by apply IH|..].
  - apply IH; [done|]. destruct Hu as [H1 H2 H3 H4 H5]. split; try done. intros _.
    apply (unpacking_kept es fs0 fs d s); [unfold driver_paths; set_solver|done..].
  - apply IH; [done|]. destruct Hu as [H1 H2 H3 H4 H5]. split; try done. intros _.
    apply (unpacking_kept es fs0 fs d s); [unfold driver_paths; set_solver|done..].
  - destruct Hd as (He & Ha & Hr & Hdll & Hsys).
    pose proof (extract_unpacking es fs0 fs d s f dst (Hin f (list_elem_of_here _ _)) He Ha Hr Hu) as Hx.
    unfold mbind, SR_bind. destruct (extract create rename f dst fs) as [fs' r]. destruct Hx as [[[-> Hfrom]|[e ->]] Hu'].
    + apply IH; [done|]. destruct Hu' as [H1 H2 H3 H4 H5]. split; try done; intros E; apply orb_true_iff in E as [E|E].
      * by apply H4.
      * right. by rewrite <- (Hdll E).
      * by apply H5.
      * right. by rewrite <- (Hsys E).
    + exists d, s. split; [done|]. right. by exists e.
Qed.

(** A download that the loop accepts. *)
Definition downloaded (data : list Z) : Prop :=
  ∃ u status body, u ∈ asset_urls ∧ fetch u = Response status (Ok body) ∧ 200 <= status < 300 ∧
    data = limit_reader (Z.shiftl 16 20) body ∧ data ≠ [].
Lemma fetch_loop_spec urls data last data' : (∀ u, u ∈ urls → u ∈ asset_urls) → (urls = [] → last ≠ None) →
  fetch_loop fetch urls data last = (data', None) → downloaded data'.
Proof.
  revert data last. induction urls as [|u urls IH]; intros data last Hin Hl E; cbn [fetch_loop] in E.
  { injection E as _ E. by destruct (Hl eq_refl). }
  assert (Hin' : ∀ v, v ∈ urls → v ∈ asset_urls) by (intros v Hv; apply Hin; by right).
  assert (IH' : ∀ e data, fetch_loop fetch urls data (Some e) = (data', None) → downloaded data') by (intros e d; by apply IH).
  destruct (fetch u) as [e|status body] eqn:Ef; [exact (IH' _ _ E)|].
  destruct ((status <? 200) || (300 <=? status)) eqn:Es; [exact (IH' _ _ E)|]. apply orb_false_iff in Es as [Es1 Es2].
  destruct body as [b| | |]; [|exact (IH' _ _ E)..].
  destruct (bool_decide_reflect (limit_reader (Z.shiftl 16 20) b = [])) as [|Hne]; [exact (IH' _ _ E)|].
  injection E as <-. exists u, status, b. split_and!; try done; [apply Hin; by left|apply Z.ltb_ge in Es1; lia|apply Z.leb_gt in Es2; lia].
Qed.

Lemma EnsureAssets_returns fs : returns (EnsureAssets clean_prefix fetch zip_reader create rename dir fs).2.
Proof.
  unfold EnsureAssets. destruct (_ && _); [done|]. destruct (fetch_loop _ _ _ _) as [data [e|]]; [done|].
  destruct (zip_reader data) as [es| | |]; [|done..].
  assert (H0 : unpacking es fs fs false false) by (split; [done|by right|by left|done|done]).
  pose proof (unpack_spec es fs es fs false false (fun _ H => H) H0) as Hu. unfold mbind, SR_bind.
  destruct (unpack es false false fs) as [fs' r]. destruct Hu as (d & s & _ & [->|[e ->]]); [by destruct d, s|done].
Qed.

(** [EnsureAssets] touches nothing but the two driver files, the licence and their
    temporary names, leaves no temporary file behind, and never replaces a driver file
    that is there (it may be loaded).  When it returns without an error both driver
    files were there, or the archive it unpacked came with a 2xx answer from one of the
    two addresses and each missing file is an entry of it, whole up to the size limit. *)
Theorem EnsureAssets_safe fs :
  let (fs', r) := EnsureAssets clean_prefix fetch zip_reader create rename dir fs in
  (∀ p, p ∉ asset_paths → (∀ q, q ∈ asset_paths → p ≠ q ++ tmp_suffix) → fs' !! p = fs !! p) ∧
  (∀ q, q ∈ asset_paths → fs' !! (q ++ tmp_suffix) = None ∨ fs' !! (q ++ tmp_suffix) = fs !! (q ++ tmp_suffix)) ∧
  (∀ p, p ∈ driver_paths → regular fs p = true → fs' !! p = fs !! p) ∧
  (r = Ok tt ∨ ∃ e, r = Err e) ∧
  (r = Ok tt →
     (fs' = fs ∧ ∀ p, p ∈ driver_paths → regular fs p = true) ∨
     ∃ data es, downloaded data ∧ zip_reader data = Ok es ∧
       ∀ p, p ∈ driver_paths → regular fs p = true ∨ from_archive es p fs').
Proof.
  unfold EnsureAssets. destruct (regular fs _ && regular fs _) eqn:Er.
  { apply andb_true_iff in Er as [Er1 Er2]. split_and!; try done; [by right|by left|]. intros _. left. split; [done|].
    intros p. unfold driver_paths. rewrite !elem_of_cons, elem_of_nil. by intros [->|[->|[]]]. }
  destruct (fetch_loop fetch asset_urls [] None) as [data last] eqn:Ef. destruct last as [e|]; [split_and!; [done|by right|done|right; by eexists|done]|].
  apply fetch_loop_spec in Ef; [|done|discriminate]. destruct (zip_reader data) as [es| | |] eqn:Ez; [|split_and!; [done|by right|done|right; by eexists|done]..].
  assert (H0 : unpacking es fs fs false false) by (split; [done|by right|by left|done|done]).
  pose proof (unpack_spec es fs es fs false false (fun _ H => H) H0) as Hu.
  unfold mbind, SR_bind. destruct (unpack es false false fs) as [fs' r]. destruct Hu as (d & s & Hu & Hr).
  assert (Hkeep : ∀ p, p ∈ driver_paths → regular fs p = true → fs' !! p = fs !! p).
  { intros p Hp Hreg. destruct (up_origin _ _ _ _ _ Hu p Hp) as [?|[? _]]; [done|congruence]. }
  pose proof (up_else _ _ _ _ _ Hu). pose proof (up_tmp _ _ _ _ _ Hu).
  destruct Hr as [->|[e ->]]; [|by split_and!; eauto].
  destruct d, s; cbn; split_and!; try done; eauto. intros _. right. exists data, es. split_and!; [done..|].
  intros p. unfold driver_paths. rewrite !elem_of_cons, elem_of_nil.
  intros [->|[->|[]]]; [by apply (up_dll _ _ _ _ _ Hu)|by apply (up_sys _ _ _ _ _ Hu)].
Qed.
End AssetProps.

(** ** The physical interface *)
Lemma interface_found {U : Unicode} byIndex output spec i :
  SelectPhysicalInterface byIndex output spec = Ok i → if_index i ≠ 0 ∧ byIndex (if_index i) = Some (if_name i).
Proof.
  assert (H : ∀ n, interfaceByIndex byIndex n = Ok i → if_index i ≠ 0 ∧ byIndex (if_index i) = Some (if_name i)).
  { intros n. unfold interfaceByIndex. destruct (Z.eqb_spec n 0); [done|]. destruct (byIndex n) eqn:E; [|done]. by intros [= <-]. }
  assert (Hp : ∀ out, parsed_index byIndex out = Ok i → if_index i ≠ 0 ∧ byIndex (if_index i) = Some (if_name i)).
  { intros out. unfold parsed_index. destruct (ParseUint32 _); [apply H|done]. }
  unfold SelectPhysicalInterface. cbv zeta. destruct (negb _).
  - destruct (ParseUint32 _); [apply H|]. destruct (output _); [apply Hp|done..].
  - destruct (output script_up) as [o|e| |]; [apply Hp| |done..]. destruct (output script_route); [apply Hp|done..].
Qed.
