(* ===== verification/Session.v ===== *)
(** * A session: [internal/app/session.go]

    [Start] loads the configuration, makes sure of the driver, starts the engine, the
    hostname proxy and the PAC entry that points at it; [Close] takes them down.  The
    machine they work on is a [World]: its files, the user's proxy settings, the handles
    the engine holds, the listening proxy and the session's context, with the history of
    its states.  The outcomes of system calls are fields of [env].  The engine's part
    ([engine.Start], [Runner.Close]) keeps the handles and their deferred clean-up; what
    it computes is [Runner.Start]. *)

From S2P Require Import Prelude Netip GoStrings Config FlowIndex Snapshot Policy Runner HostPort BrowserProxy WinUtil.
Local Open Scope Z_scope.

(** ** The machine *)
Inductive resource := WGClient | NetHandle | FlowHandle | DNSHandle | SocketHandle.
#[export] Instance resource_eq_dec : EqDecision resource.
Proof. solve_decision. Defined.
Record core := mkCore {
  k_files : files;
  k_reg : registry;
  k_open : list resource;
  k_proxy : option (list Z);       (** the address a proxy of ours listens on *)
  k_ctx : bool                     (** the session's context is live *)
}.
Record World := mkWorld { w_now : core; w_past : list core }.
Definition upd (f : core → core) (w : World) : World := mkWorld (f (w_now w)) (w_past w ++ [f (w_now w)]).
Definition set_files (x : files) (k : core) : core := mkCore x (k_reg k) (k_open k) (k_proxy k) (k_ctx k).
Definition set_reg (x : registry) (k : core) : core := mkCore (k_files k) x (k_open k) (k_proxy k) (k_ctx k).
Definition set_open (x : list resource) (k : core) : core := mkCore (k_files k) (k_reg k) x (k_proxy k) (k_ctx k).
Definition set_proxy (x : option (list Z)) (k : core) : core := mkCore (k_files k) (k_reg k) (k_open k) x (k_ctx k).
Definition set_ctx (x : bool) (k : core) : core := mkCore (k_files k) (k_reg k) (k_open k) (k_proxy k) x.
Definition acquire (r : resource) (k : core) : core := set_open (r :: k_open k) k.
Definition release (r : resource) (k : core) : core := set_open (filter (fun x => x ≠ r) (k_open k)) k.

Definition act (f : core → core) : SR World unit := fun w => (upd f w, Ok tt).
Definition act_if (b : bool) (f : core → core) : SR World unit := if b then act f else mret tt.
(** A computation on the files. *)
Definition on_files {A} (m : SR files A) : SR World A := fun w =>
  let (fs, a) := m (k_files (w_now w)) in (upd (set_files fs) w, a).
(** [defer] that runs when the function fails. *)
Definition on_failure {A} (m : SR World A) (undo : core → core) : SR World A := fun w =>
  let (w, a) := m w in match a with Ok _ => (w, a) | _ => (upd undo w, a) end.

(** ** engine.Start and Runner.Close *)
Record engine_env := mkEngineEnv {
  en_wg : list Z → list Z → list Z → Res unit;
  en_net : Res unit; en_flow : Res unit; en_dns : Res unit; en_socket : Res unit;
  en_now : Z; en_t4 : TableReply; en_t6 : TableReply; en_u4 : TableReply; en_u6 : TableReply; en_fragment : Z
}.
Definition with_resource {A} (r : resource) (open : Res unit) (m : SR World A) : SR World A :=
  _ ← liftR open; _ ← act (acquire r); on_failure m (release r).
(** The socket layer is optional. *)
Definition with_optional {A} (r : resource) (open : Res unit) (m : SR World A) : SR World A :=
  match open with Ok _ => with_resource r open m | _ => m end.

Section Session.
Context {U : Unicode} {F : Platform} {D : Decoders}.
Context (processInfo : Z → Process).

Definition decode_keys (cfg : Config) : Res (list Z * list Z * list Z) :=
  priv ← DecodeKey (cPrivateKey cfg);
  pub ← DecodeKey (PublicKey (cPeer cfg));
  psk ← (if bool_decide (PresharedKey (cPeer cfg) = []) then Ok (zeros 32) else DecodeKey (PresharedKey (cPeer cfg)));
  Ok (priv, pub, psk).
Definition engine_Start (cfg : Config) (internal : list (list Z)) (e : engine_env) : SR World Runner :=
  '(priv, pub, psk) ← liftR (decode_keys cfg);
  with_resource WGClient (en_wg e priv pub psk)
    (with_resource NetHandle (en_net e)
      (with_resource FlowHandle (en_flow e)
        (with_resource DNSHandle (en_dns e)
          (with_optional SocketHandle (en_socket e)
            (liftR (Runner.Start processInfo (Some cfg) internal (en_fragment e) (en_wg e) (en_net e) (en_flow e) (en_dns e)
                      (en_now e) (en_t4 e) (en_t6 e) (en_u4 e) (en_u6 e))))))).
Definition Runner_Close : World → World := fun w =>
  upd (release WGClient) (upd (release SocketHandle) (upd (release DNSHandle) (upd (release FlowHandle) (upd (release NetHandle) w)))).

(** ** Paths and files *)
(** [filepath.Dir] and [filepath.Abs]. *)
Context (clean_prefix Dir : list Z → list Z) (Abs : list Z → option (list Z)).
Definition abs (p : list Z) : list Z := if bool_decide (p = []) then [] else default p (Abs p).
Definition is_file (fs : files) (p : list Z) : bool := match fs !! p with Some _ => true | None => false end.
Definition default_conf : list Z := lit "splitwire.default.conf".
Fixpoint first_file (fs : files) (candidates : list (list Z)) : option (list Z) :=
  match candidates with [] => None | p :: rest => if is_file fs p then Some p else first_file fs rest end.
Definition FindDefaultConfig (dir : list Z) (fs : files) : list Z :=
  let candidates := [path_join clean_prefix dir default_conf; path_join clean_prefix (Dir dir) default_conf] in
  default (path_join clean_prefix dir default_conf) (first_file fs candidates).

Definition ReadFile (fs : files) (p : list Z) : Res (list Z) := match fs !! p with Some b => Ok b | None => Err "ReadFile" end.
Definition set_rules_path (c : Config) (p : list Z) : Config :=
  mkConfig (cPrivateKey c) (cAddresses c) (cDNSServers c) (cPeer c) (cGroups c) (cPhysicalInterface c)
    (cMTU c) (cDNSRefreshSeconds c) (cUsedDefaultRules c) p.
(** [config.Load] *)
Definition Load (path defaultRulesPath : list Z) (fs : files) : Res Config :=
  wgData ← ReadFile fs path;
  let cfg := Defaults in
  cfg ← (if negb (hasSplitSections wgData) then
           if bool_decide (TrimSpace defaultRulesPath = []) then Err "no default config path was provided" else
           defaultData ← ReadFile fs defaultRulesPath;
           cfg ← parseInto defaultData cfg false;
           Ok (set_rules_path (set_defaults_used cfg) defaultRulesPath)
         else Ok cfg);
  cfg ← parseInto wgData cfg true;
  Validate cfg.

Definition last_config : list Z := lit "last-config.txt".
Definition LoadLastConfig (dir : list Z) (fs : files) : list Z :=
  match ReadFile fs (path_join clean_prefix dir last_config) with
  | Ok b =>
      let p := TrimSpace b in
      if bool_decide (p = []) then [] else if is_file fs p then p else []
  | _ => []
  end.
(** [write] is what [os.WriteFile] answers; a failed write leaves the file. *)
Definition SaveLastConfig (write : Res unit) (dir path : list Z) : SR files unit := fun fs =>
  let path := abs (TrimSpace path) in
  if bool_decide (path = []) then (fs, Err "empty config path") else
  match write with
  | Ok _ => (<[path_join clean_prefix dir last_config := path ++ [10]]> fs, Ok tt)
  | _ => (fs, write)
  end.

Definition cloneGroups (gs : list Group) : list Group :=
  map (fun g => mkGroup (gName g) ([] ++ gApps g) ([] ++ gDomains g) ([] ++ gNetworks g)) gs.
Record Info := mkInfo {
  in_configPath : list Z; in_ruleSource : list Z; in_usedDefault : bool; in_endpoint : list Z;
  in_interface : list Z; in_mode : list Z; in_groups : list Group; in_mtu : Z
}.
Definition info_of (configPath interface mode : list Z) (cfg : Config) : Info :=
  mkInfo configPath (if cUsedDefaultRules cfg then cDefaultRulesPath cfg else configPath) (cUsedDefaultRules cfg)
    (Endpoint (cPeer cfg)) interface mode (cloneGroups (cGroups cfg)) (cMTU cfg).
Definition Inspect (configPath appDir : list Z) (fs : files) : Res Info :=
  let configPath := abs (TrimSpace configPath) in
  if bool_decide (configPath = []) then Err "WireGuard config path is empty" else
  cfg ← Load configPath (FindDefaultConfig appDir fs) fs;
  Ok (info_of configPath [] [] cfg).

(** ** Start and Close *)
Record Options := mkOptions { op_config : list Z; op_appDir : list Z; op_internal : list (list Z); op_logging : bool }.
(** What the calls of [Start] and [Close] answer.  [ev_err1] and [ev_err2] are the two
    readings of [parent.Err()]; when the parent is cancelled the proxy's own goroutine
    closes it, before the PAC entry is made ([ev_early]) or after it ([ev_late]). *)
Record env := mkEnv {
  ev_fetch : list Z → download; ev_zip : list Z → Res (list zipFile); ev_create : list Z → Res unit; ev_rename : list Z → list Z → Res unit;
  ev_err1 : option string; ev_err2 : option string; ev_early : bool; ev_late : bool;
  ev_byIndex : Z → option (list Z); ev_output : list Z → Res (list Z); ev_engine : engine_env;
  ev_listen : list Z + string (* the address, or the error *); ev_parse : list Z → option URL; ev_reachable : list Z → bool; ev_read : bool; ev_set : bool;
  ev_restore : bool; ev_shutdown : option string; ev_write : Res unit
}.
Record Session := mkSession' {
  s_info : Info; s_runner : Runner; s_proxy : option Server; s_proxySess : option ProxySession; s_closed : bool
}.

(** [Close]; the session afterwards and the joined error. *)
Definition Close (restore : bool) (shutdown : option string) (s : Session) (w : World) : World * (Session * option string) :=
  if s_closed s then (w, (s, None)) else
  let '(w, ps, e1) :=
    match s_proxySess s with
    | None => (w, None, None)
    | Some _ => let '(reg, (ps, e)) := Restore restore (s_proxySess s) (k_reg (w_now w)) in (upd (set_reg reg) w, ps, e)
    end in
  let '(w, e2) := match s_proxy s with None => (w, None) | Some _ => (upd (set_proxy None) w, shutdown) end in
  let w := upd (set_ctx false) (Runner_Close w) in
  (w, (mkSession' (s_info s) (s_runner s) (s_proxy s) ps true, match e1 with Some e => Some e | None => e2 end)).

(** The hostname proxy and its PAC entry, or the fallback to discovery. *)
Definition fallback (r : Runner) (e : string) : SR World (Runner * option Server * option ProxySession * list Z) :=
  mret ((Runner.SetAggressiveDiscovery true r).1, None, None, lit "DNS/SNI fallback: " ++ lit e).
Definition install_pac (e : env) (bp : Server) (r : Runner) : SR World (Runner * option Server * option ProxySession * list Z) := fun w =>
  match InstallSessionPAC (ev_parse e) (ev_reachable e) (ev_read e) (ev_set e) (PACURL bp) (k_reg (w_now w)) with
  | (reg, Ok ps) =>
      (_ ← act (set_reg reg);
       _ ← act_if (ev_late e) (set_proxy None);
       mret (r, Some bp, Some ps, lit "PAC proxy " ++ sv_addr bp)) w
  | (reg, Err err) => (_ ← act (set_proxy None); fallback r err) w
  | (reg, Panic) => (w, Panic)
  | (reg, OutOfFuel) => (w, OutOfFuel)
  end.
Definition hostname_mode (e : env) (logging : bool) (cfg : Config) (r : Runner)
    : SR World (Runner * option Server * option ProxySession * list Z) :=
  let patterns := ProxyDomainPatterns cfg in
  if bool_decide (patterns = []) then mret (r, None, None, lit "not needed") else
  match BrowserProxy.Start (match ev_listen e with inl a => Ok a | inr err => Err err end) patterns logging with
  | Ok bp =>
      _ ← act (set_proxy (Some (sv_addr bp)));
      _ ← act_if (ev_early e) (set_proxy None);
      install_pac e bp r
  | Err err => fallback r err
  | Panic => liftR Panic
  | OutOfFuel => liftR OutOfFuel
  end.

Definition parent_err (e : option string) : SR World unit := match e with Some e => sfail e | None => mret tt end.
(** [%d] of a 32-bit number: ten digits are enough. *)
Fixpoint print_digits (fuel : nat) (n : Z) (acc : list Z) : list Z :=
  match fuel with
  | O => acc
  | S fuel => let acc := (48 + n mod 10) :: acc in if n / 10 =? 0 then acc else print_digits fuel (n / 10) acc
  end.
Definition print_dec (n : Z) : list Z := print_digits 10 n [].
Definition interface_text (i : Interface) : list Z := if_name i ++ lit " (" ++ print_dec (if_index i) ++ lit ")".
(** The end of [Start]: a cancelled parent closes the session again, otherwise its
    configuration is remembered (an error in that is ignored). *)
Definition settle (e : env) (appDir : list Z) (s : Session) : SR World Session := fun w =>
  match ev_err2 e with
  | Some err => let (w, _) := Close (ev_restore e) (ev_shutdown e) s w in (w, Err err)
  | None => let (w, _) := on_files (SaveLastConfig (ev_write e) appDir (in_configPath (s_info s))) w in (w, Ok s)
  end.
(** [Start] up to the running engine, and the whole of it. *)
Definition bring_up (e : env) (o : Options) : SR World (Config * Interface * Runner) :=
  if bool_decide (TrimSpace (op_appDir o) = []) then sfail "application directory is empty" else
  let configPath := abs (TrimSpace (op_config o)) in
  if bool_decide (configPath = []) then sfail "WireGuard config path is empty" else
  cfg ← on_files (fun fs => (fs, Load configPath (FindDefaultConfig (op_appDir o) fs) fs));
  _ ← on_files (EnsureAssets clean_prefix (ev_fetch e) (ev_zip e) (ev_create e) (ev_rename e) (op_appDir o));
  _ ← parent_err (ev_err1 e);
  iface ← liftR (SelectPhysicalInterface (ev_byIndex e) (ev_output e) (cPhysicalInterface cfg));
  _ ← act (set_ctx true);
  r ← on_failure (engine_Start cfg (op_internal o) (ev_engine e)) (set_ctx false);
  mret (cfg, iface, r).
Definition Start (e : env) (o : Options) : SR World Session :=
  '(cfg, iface, r) ← bring_up e o;
  '(r, px, ps, mode) ← hostname_mode e (op_logging o) cfg r;
  settle e (op_appDir o) (mkSession' (info_of (abs (TrimSpace (op_config o))) (interface_text iface) mode cfg) r px ps false).
(** [Info] of a session ([None]: a nil pointer). *)
Definition Info_of (s : option Session) : Info :=
  match s with
  | None => mkInfo [] [] false [] [] [] [] 0
  | Some s =>
      let i := s_info s in
      mkInfo (in_configPath i) (in_ruleSource i) (in_usedDefault i) (in_endpoint i) (in_interface i) (in_mode i) (cloneGroups (in_groups i)) (in_mtu i)
  end.
End Session.
