(* ===== verification/SessionProps.v ===== *)
(** * What a session leaves behind

    Properties of [Start] and [Close] (Session.v): the handles of the engine, the proxy,
    the PAC entry and the context are taken and given back together; the browser is
    never sent to a proxy that is gone; the remembered configuration is read back. *)

From S2P Require Import Prelude Netip GoStrings Config FlowIndex Snapshot Policy Runner HostPort BrowserProxy WinUtil Session.
Local Open Scope Z_scope.

(** ** How the world changes *)
(** Between two worlds a part of the state stays as it is, in every state on the way. *)
Definition keeps {X} (π : core → X) (w w' : World) : Prop :=
  π (w_now w') = π (w_now w) ∧ ∃ l, w_past w' = w_past w ++ l ∧ Forall (fun k => π k = π (w_now w)) l.
Lemma keeps_refl {X} (π : core → X) w : keeps π w w.
Proof. split; [done|]. exists []. by rewrite app_nil_r. Qed.
Lemma keeps_trans {X} (π : core → X) w1 w2 w3 : keeps π w1 w2 → keeps π w2 w3 → keeps π w1 w3.
Proof.
  intros [E1 (l1 & H1 & F1)] [E2 (l2 & H2 & F2)]. split; [congruence|]. exists (l1 ++ l2).
  split; [by rewrite H2, H1, app_assoc|]. apply Forall_app_2; [done|]. by rewrite E1 in F2.
Qed.
Lemma keeps_upd {X} (π : core → X) f w : π (f (w_now w)) = π (w_now w) → keeps π w (upd f w).
Proof. intros H. split; [done|]. eexists. split; [done|]. by constructor. Qed.
Lemma keeps_weaken {X Y} (g : X → Y) (π : core → X) w w' : keeps π w w' → keeps (fun k => g (π k)) w w'.
Proof.
  intros [E (l & H & F)]. split; [by f_equal|]. exists l. split; [done|]. eapply List.Forall_impl; [|exact F]. intros k Hk. by f_equal.
Qed.
Definition but_open (k : core) := (k_files k, k_reg k, k_proxy k, k_ctx k).
Definition settings (k : core) := (k_reg k, k_proxy k).

(** ** The engine's handles *)
(** A computation that takes the handles from [base] to [l], or fails and leaves them. *)
Definition opens {A} (base l : list resource) (m : SR World A) : Prop := ∀ w, k_open (w_now w) = base →
  let (w', a) := m w in
  keeps but_open w w' ∧ match a with Ok _ => k_open (w_now w') = l | Err _ => k_open (w_now w') = base | _ => False end.

Lemma with_resource_opens {A} r o base l (m : SR World A) : r ∉ base → returns o → opens (r :: base) l m → opens base l (with_resource r o m).
Proof.
  intros Hr Ho Hm w Hw. unfold with_resource, liftR, act, on_failure, mbind, SR_bind. destruct o as [[]|e| |]; [|split; [apply keeps_refl|done]|done..].
  specialize (Hm (upd (acquire r) w)). cbn [w_now upd] in Hm. unfold acquire in Hm at 1. cbn [k_open set_open] in Hm. rewrite Hw in Hm. specialize (Hm eq_refl).
  destruct (m (upd (acquire r) w)) as [w' a]. destruct Hm as [Hk Ha].
  assert (H1 : keeps but_open w w') by (apply (keeps_trans _ w (upd (acquire r) w)); [by apply keeps_upd|exact Hk]).
  destruct a as [x|e| |]; [by split|split|done..]; [eapply keeps_trans; [exact H1|by apply keeps_upd]|].
  cbn [w_now upd release set_open k_open]. rewrite Ha, filter_cons_False by (intros H; by apply H).
  clear -Hr. induction base as [|x base IH]; [done|]. apply not_elem_of_cons in Hr as [Hx Hr]. rewrite filter_cons_True by done. by rewrite IH.
Qed.
Lemma liftR_opens {A} base (a : Res A) : returns a → opens base base (liftR a).
Proof. intros Ha w Hw. split; [apply keeps_refl|]. by destruct a. Qed.

Definition handles (e : engine_env) : list resource :=
  (if en_socket e is Ok _ then [SocketHandle] else []) ++ [DNSHandle; FlowHandle; NetHandle; WGClient].
Record engine_returns (e : engine_env) : Prop := {
  er_wg a b c : returns (en_wg e a b c);
  er_net : returns (en_net e); er_flow : returns (en_flow e); er_dns : returns (en_dns e);
  er_replies : Forall reply_ok [en_t4 e; en_t6 e; en_u4 e; en_u6 e] }.

Section EngineProps.
Context {U : Unicode} {F : Platform} {D : Decoders}.
Context (processInfo : Z → Process).

Lemma DecodeKey_returns s : returns (DecodeKey s).
Proof. unfold DecodeKey. repeat case_match; done. Qed.
Lemma decode_keys_returns cfg : returns (decode_keys cfg).
Proof.
  unfold decode_keys. repeat (apply returns_bind; [try case_match; auto using DecodeKey_returns, returns_Ok|intros ? _]); done.
Qed.
Lemma Runner_Start_returns cfg internal e : engine_returns e →
  returns (Runner.Start processInfo (Some cfg) internal (en_fragment e) (en_wg e) (en_net e) (en_flow e) (en_dns e)
             (en_now e) (en_t4 e) (en_t6 e) (en_u4 e) (en_u6 e)).
Proof.
  intros [Hw Hn Hf Hd Hr]. unfold Runner.Start.
  do 3 (apply returns_bind; [try case_match; auto using DecodeKey_returns, returns_Ok|intros ? _]).
  do 4 (apply returns_bind; [auto|intros ? _]). cbv zeta.
  destruct (TunnelIPv4 cfg) as [v4 ?], (TunnelIPv6 cfg) as [v6 ?].
  destruct (Policy.NewWithInternal_compiled cfg (Some (Tracker.New (cGroups cfg))) internal) as (p & -> & _). rewrite bind_Ok.
  apply Forall_cons_1 in Hr as [H1 Hr]. apply Forall_cons_1 in Hr as [H2 Hr]. apply Forall_cons_1 in Hr as [H3 Hr]. apply Forall_cons_1 in Hr as [H4 _].
  destruct (SnapshotExisting_replaces processInfo (en_now e) _ _ _ _ FlowIndex.New H1 H2 H3 H4) as (i & -> & _). by rewrite bind_Ok.
Qed.

(** A failing [engine.Start] gives back every handle it took; a successful one holds
    them all, and neither touches anything else. *)
Lemma engine_Start_opens cfg internal e : engine_returns e → opens [] (handles e) (engine_Start processInfo cfg internal e).
Proof.
  intros He w Hw. unfold engine_Start. unfold mbind, SR_bind, liftR at 1.
  pose proof (decode_keys_returns cfg) as Hk. destruct (decode_keys cfg) as [[[priv pub] psk]| | |]; [|by split; [apply keeps_refl|]|done..].
  pose proof (Runner_Start_returns cfg internal e He) as Hs. destruct He as [Hwg Hn Hf Hd _].
  revert w Hw. change (opens [] (handles e) (with_resource WGClient (en_wg e priv pub psk)
    (with_resource NetHandle (en_net e) (with_resource FlowHandle (en_flow e) (with_resource DNSHandle (en_dns e)
      (with_optional SocketHandle (en_socket e) (liftR (Runner.Start processInfo (Some cfg) internal (en_fragment e) (en_wg e) (en_net e) (en_flow e) (en_dns e)
                      (en_now e) (en_t4 e) (en_t6 e) (en_u4 e) (en_u6 e))))))))).
  do 4 (apply with_resource_opens; [set_solver|auto|]). unfold with_optional, handles.
  destruct (en_socket e) as [[]| | |]; try by apply liftR_opens. apply with_resource_opens; [set_solver|done|]. by apply liftR_opens.
Qed.
(** What it computes is the runner. *)
Lemma with_resource_result {A} r o (m : SR World A) w w' a : with_resource r o m w = (w', Ok a) → ∃ w1 w2, m w1 = (w2, Ok a).
Proof.
  unfold with_resource, liftR, act, on_failure, mbind, SR_bind. destruct o; try discriminate.
  destruct (m _) as [w2 [x| | |]] eqn:E; try discriminate. intros [= _ ->]. by do 2 eexists.
Qed.
Lemma engine_Start_runner cfg internal e w w' r : engine_Start processInfo cfg internal e w = (w', Ok r) →
  Runner.Start processInfo (Some cfg) internal (en_fragment e) (en_wg e) (en_net e) (en_flow e) (en_dns e)
    (en_now e) (en_t4 e) (en_t6 e) (en_u4 e) (en_u6 e) = Ok r.
Proof.
  unfold engine_Start. unfold mbind, SR_bind, liftR at 1. destruct (decode_keys cfg) as [[[priv pub] psk]| | |]; try discriminate.
  intros H. do 4 (apply with_resource_result in H as (? & ? & H)). unfold with_optional in H.
  destruct (en_socket e); [apply with_resource_result in H as (? & ? & H)|..]; by injection H.
Qed.
End EngineProps.

(** ** The proxy and its PAC entry *)
Section SessionProps.
Context {U : Unicode} {F : Platform} {D : Decoders}.
Context (processInfo : Z → Process) (clean_prefix Dir : list Z → list Z) (Abs : list Z → option (list Z)).

Definition pac_url (addr : list Z) : list Z := lit "http://" ++ addr ++ lit "/proxy.pac".
Lemma pac_url_trimmed addr : TrimSpace (pac_url addr) = pac_url addr.
Proof.
  unfold TrimSpace, trim_with. change (drop_spaces (pac_url addr)) with (pac_url addr).
  change (non_ascii_head (pac_url addr)) with false. cbv zeta iota.
  assert (E : rev (pac_url addr) = rev (lit "/proxy.pac") ++ rev (lit "http://" ++ addr)) by (unfold pac_url; by rewrite app_assoc, rev_app_distr).
  rewrite E. set (x := rev (lit "http://" ++ addr)). change (drop_spaces (rev (lit "/proxy.pac") ++ x)) with (rev (lit "/proxy.pac") ++ x).
  change (non_ascii_head (rev (lit "/proxy.pac") ++ x)) with false. cbv iota. unfold x. rewrite <- E. apply rev_involutive.
Qed.
Lemma pac_url_plain addr : plain_text addr → plain_text (pac_url addr).
Proof.
  intros H. unfold plain_text, pac_url. rewrite !elem_of_app. intros [Hi|[Hi|Hi]]; [|done|]; revert Hi; by apply plain_text_check.
Qed.
Lemma user_setting_url url_parse reachable o addr : user_setting url_parse reachable o (Some (pac_url addr)) → False.
Proof. inversion 1 as [|? Hb|]; subst. by rewrite pac_url_trimmed in Hb. Qed.

(** States in which the browser is sent to our proxy only while it listens. *)
Definition pac_live (addr : list Z) (k : core) : Prop := rg_auto (k_reg k) = Some (pac_url addr) → k_proxy k = Some addr.
Definition through (P : core → Prop) (w w' : World) : Prop := ∃ l, w_past w' = w_past w ++ l ∧ Forall P l.
Lemma through_refl P w : through P w w.
Proof. exists []. by rewrite app_nil_r. Qed.
Lemma through_trans P w1 w2 w3 : through P w1 w2 → through P w2 w3 → through P w1 w3.
Proof. intros (l1 & H1 & F1) (l2 & H2 & F2). exists (l1 ++ l2). split; [by rewrite H2, H1, app_assoc|by apply Forall_app_2]. Qed.
Lemma through_upd P f w : P (f (w_now w)) → through P w (upd f w).
Proof. intros H. eexists. split; [done|]. by constructor. Qed.
Lemma keeps_live addr w w' : keeps settings w w' → pac_live addr (w_now w) → pac_live addr (w_now w') ∧ through (pac_live addr) w w'.
Proof.
  assert (H : ∀ k k', settings k' = settings k → pac_live addr k → pac_live addr k').
  { intros k k' [= E1 E2]. unfold pac_live. by rewrite E1, E2. }
  intros [E (l & Hl & Fl)] Hp. split; [by apply (H (w_now w))|]. exists l. split; [done|]. eapply List.Forall_impl; [|exact Fl]. intros k Hk. by apply (H (w_now w)).
Qed.

(** What [Start] has after the hostname phase: nothing of it, or the proxy and the
    entry that points at it. *)
Inductive hostname_state (e : env) (w w' : World) (r : Runner) : option Server → option ProxySession → Runner → Prop :=
  | hs_none r' : settings (w_now w') = settings (w_now w) → (r' = r ∨ r_aggressive r' = true) → hostname_state e w w' r None None r'
  | hs_pac bp v : ev_listen e = inl (sv_addr bp) → user_setting (ev_parse e) (ev_reachable e) (rg_auto (k_reg (w_now w))) v →
      k_reg (w_now w') = set_auto (k_reg (w_now w)) (Some (pac_url (sv_addr bp))) →
      k_proxy (w_now w') = (if ev_early e || ev_late e then None else Some (sv_addr bp)) →
      hostname_state e w w' r (Some bp) (Some (mkSession (snapshot_with v (k_reg (w_now w))) true)) r.
Definition plain_addr (e : env) : Prop := match ev_listen e with inl a => plain_text a | inr _ => True end.
Definition others (k : core) := (k_files k, k_open k, k_ctx k).

Lemma install_pac_spec e bp r w0 w : ev_listen e = inl (sv_addr bp) → plain_addr e →
  k_reg (w_now w) = k_reg (w_now w0) → k_proxy (w_now w0) = None → k_proxy (w_now w) = (if ev_early e then None else Some (sv_addr bp)) →
  let (w', a) := install_pac e bp r w in
  ∃ r' px ps mode, a = Ok (r', px, ps, mode) ∧ keeps others w w' ∧ hostname_state e w0 w' r px ps r' ∧
    (ps = None → r_aggressive r' = true) ∧
    (ev_early e = false → ev_late e = false → pac_live (sv_addr bp) (w_now w0) → through (pac_live (sv_addr bp)) w w').
Proof.
  intros Hl Hp Hreg H0 Hw. unfold plain_addr in Hp. rewrite Hl in Hp. unfold install_pac. change (PACURL bp) with (pac_url (sv_addr bp)).
  destruct (InstallSessionPAC_spec (ev_parse e) (ev_reachable e) (ev_read e) (ev_set e) (pac_url (sv_addr bp)) (k_reg (w_now w)))
    as [[_ (v & Hv & ->)]|[_ [err ->]]]; [rewrite pac_url_trimmed; by apply pac_url_plain| |]; cbv beta iota;
    unfold act, act_if, fallback, mret, SR_ret, mbind, SR_bind; rewrite ?pac_url_trimmed.
  - rewrite Hreg in Hv. destruct (ev_late e) eqn:Elate; do 4 eexists; (split; [done|]); (split; [|split; [|split; [done|]]]).
    + eapply keeps_trans; by apply keeps_upd.
    + rewrite Hreg. apply hs_pac; [done..|]. cbn. by rewrite Elate, orb_true_r.
    + done.
    + by apply keeps_upd.
    + rewrite Hreg. apply hs_pac; [done..|]. cbn. by rewrite Elate, orb_false_r.
    + intros Ee _ _. apply through_upd. intros _. cbn. by rewrite Hw, Ee.
  - do 4 eexists. split; [done|]. split; [by apply keeps_upd|]. split; [|split].
    + apply hs_none; [unfold settings; cbn; congruence|by right].
    + done.
    + intros _ _ Hlive. apply through_upd. unfold pac_live in *. cbn. rewrite Hreg, <- H0. done.
Qed.


Lemma hostname_mode_spec e logging cfg r w : plain_addr e → k_proxy (w_now w) = None →
  let (w', a) := hostname_mode e logging cfg r w in
  ∃ r' px ps mode, a = Ok (r', px, ps, mode) ∧ keeps others w w' ∧ hostname_state e w w' r px ps r' ∧
    (ps = None → bool_decide (ProxyDomainPatterns cfg = []) = false → r_aggressive r' = true) ∧
    ∀ addr, ev_listen e = inl addr → ev_early e = false → ev_late e = false → pac_live addr (w_now w) → through (pac_live addr) w w'.
Proof.
  intros Hp Hw. unfold hostname_mode. cbv zeta. destruct (bool_decide (ProxyDomainPatterns cfg = [])).
  { do 4 eexists. split; [done|]. split; [apply keeps_refl|]. split; [apply hs_none; [done|by left]|]. split; [done|]. intros. apply through_refl. }
  unfold BrowserProxy.Start. destruct (ev_listen e) as [addr|err] eqn:El.
  2: { do 4 eexists. split; [done|]. split; [apply keeps_refl|]. split; [apply hs_none; [done|by right]|]. split; [done|]. discriminate. }
  rewrite bind_Ok. set (bp := mkServer _ _ _ _). cbn [sv_addr bp].
  unfold act at 1, act_if, mbind, SR_bind. set (w1 := upd (set_proxy (Some addr)) w).
  set (w2 := if ev_early e then upd (set_proxy None) w1 else w1).
  assert (E2 : (if ev_early e then act (set_proxy None) else mret tt) w1 = (w2, Ok tt)) by (unfold w2; by destruct (ev_early e)).
  rewrite E2.
  pose proof (install_pac_spec e bp r w w2 El Hp) as H.
  assert (K1 : keeps others w w1) by by apply keeps_upd.
  assert (K2 : keeps others w1 w2) by (unfold w2; destruct (ev_early e); [by apply keeps_upd|apply keeps_refl]).
  destruct (install_pac e bp r w2) as [w' a].
  destruct H as (r' & px & ps & mode & -> & Hk & Hs & Hag & Ht); [unfold w2; by destruct (ev_early e)|done|unfold w2; by destruct (ev_early e)|].
  exists r', px, ps, mode. split; [done|]. split; [eapply keeps_trans; [exact K1|eapply keeps_trans; [exact K2|exact Hk]]|]. split; [done|]. split.
  - intros Eps _. by apply Hag.
  - intros a [= <-] Ee Elt Hl. apply (through_trans _ w w1); [by apply through_upd|]. unfold w2 in Ht. rewrite Ee in Ht. by apply Ht.
Qed.

(** ** Start, up to the running engine *)
Lemma ReadFile_returns fs p : returns (ReadFile fs p).
Proof. unfold ReadFile. by destruct (fs !! p). Qed.
Lemma parseInto_returns data c b : returns (parseInto data c b).
Proof. pose proof (parseInto_spec data c b). by destruct (parseInto data c b). Qed.
Lemma Load_returns path def fs : returns (Load path def fs).
Proof.
  unfold Load. apply returns_bind; [apply ReadFile_returns|intros wg _]. cbv zeta. apply returns_bind.
  { case_match; [|done]. case_match; [done|]. apply returns_bind; [apply ReadFile_returns|intros ? _].
    apply returns_bind; [apply parseInto_returns|done]. }
  intros c _. apply returns_bind; [apply parseInto_returns|intros c' _]. pose proof (Validate_spec c'). by destruct (Validate c').
Qed.

Record env_ok (e : env) : Prop := {
  eo_engine : engine_returns (ev_engine e);
  eo_output s : returns (ev_output e s);
  eo_addr : plain_addr e }.
Lemma SelectPhysicalInterface_returns byIndex output spec : (∀ s, returns (output s)) → returns (SelectPhysicalInterface byIndex output spec).
Proof.
  intros Ho. assert (H : ∀ n, returns (interfaceByIndex byIndex n)) by (intros n; unfold interfaceByIndex; repeat case_match; done).
  assert (Hp : ∀ out, returns (parsed_index byIndex out)) by (intros out; unfold parsed_index; case_match; [apply H|done]).
  unfold SelectPhysicalInterface. cbv zeta. case_match.
  - case_match; [apply H|]. apply returns_bind; [apply Ho|intros; apply Hp].
  - apply returns_bind; [|intros; apply Hp]. pose proof (Ho script_up). case_match; [done|apply Ho|done..].
Qed.

(** A phase that changes only files. *)
Lemma on_files_spec {A} (m : SR files A) w : let (w', a) := on_files m w in
  a = (m (k_files (w_now w))).2 ∧ keeps settings w w' ∧ k_open (w_now w') = k_open (w_now w) ∧ k_ctx (w_now w') = k_ctx (w_now w).
Proof. unfold on_files. destruct (m _) as [fs a]. split_and!; try done. by apply keeps_upd. Qed.

Lemma bring_up_spec e o w : env_ok e → k_open (w_now w) = [] → k_ctx (w_now w) = false →
  let (w', a) := bring_up processInfo clean_prefix Dir Abs e o w in
  keeps settings w w' ∧
  match a with
  | Ok (cfg, iface, r) => k_open (w_now w') = handles (ev_engine e) ∧ k_ctx (w_now w') = true ∧
      Load (abs Abs (TrimSpace (op_config o))) (FindDefaultConfig clean_prefix Dir (op_appDir o) (k_files (w_now w))) (k_files (w_now w)) = Ok cfg ∧
      ∃ en, en = ev_engine e ∧ Runner.Start processInfo (Some cfg) (op_internal o) (en_fragment en) (en_wg en) (en_net en) (en_flow en) (en_dns en)
        (en_now en) (en_t4 en) (en_t6 en) (en_u4 en) (en_u6 en) = Ok r
  | Err _ => k_open (w_now w') = [] ∧ k_ctx (w_now w') = false
  | _ => False
  end.
Proof.
  intros He Hw Hc. unfold bring_up. destruct (bool_decide (TrimSpace (op_appDir o) = [])); [by split; [apply keeps_refl|]|]. cbv zeta.
  destruct (bool_decide (abs Abs _ = [])); [by split; [apply keeps_refl|]|].
  unfold mbind, SR_bind.
  match goal with |- context [on_files ?m w] => pose proof (on_files_spec m w) as H1; destruct (on_files m w) as [w1 a1] end.
  destruct H1 as (E1 & K1 & O1 & C1). cbn [snd] in E1.
  pose proof (Load_returns (abs Abs (TrimSpace (op_config o))) (FindDefaultConfig clean_prefix Dir (op_appDir o) (k_files (w_now w))) (k_files (w_now w))) as R1.
  rewrite <- E1 in R1. destruct a1 as [cfg|err| |]; [|split; [done|]; split; congruence|done..].
  match goal with |- context [on_files ?m w1] => pose proof (on_files_spec m w1) as H2; destruct (on_files m w1) as [w2 a2] end.
  destruct H2 as (E2 & K2 & O2 & C2).
  pose proof (EnsureAssets_returns clean_prefix (ev_fetch e) (ev_zip e) (ev_create e) (ev_rename e) (op_appDir o) (k_files (w_now w1))) as R2.
  rewrite <- E2 in R2. pose proof (keeps_trans _ _ _ _ K1 K2) as K.
  destruct a2 as [[]|err| |]; [|split; [done|]; split; congruence|done..].
  unfold parent_err, mret, SR_ret, sfail. destruct (ev_err1 e); [split; [done|]; split; congruence|].
  unfold liftR. pose proof (SelectPhysicalInterface_returns (ev_byIndex e) (ev_output e) (cPhysicalInterface cfg) (eo_output _ He)) as R3.
  destruct (SelectPhysicalInterface _ _ _) as [iface|err| |]; [|split; [done|]; split; congruence|done..].
  unfold act. set (w3 := upd (set_ctx true) w2).
  assert (K3 : keeps settings w w3) by (apply (keeps_trans _ _ w2); [done|by apply keeps_upd]).
  unfold on_failure. pose proof (engine_Start_opens processInfo cfg (op_internal o) (ev_engine e) (eo_engine _ He) w3) as H4.
  destruct (engine_Start processInfo cfg (op_internal o) (ev_engine e) w3) as [w4 a4] eqn:E4.
  destruct H4 as [K4 O4]; [cbn; congruence|].
  assert (K5 : keeps settings w w4) by (apply (keeps_trans _ _ w3); [done|]; apply (keeps_weaken (fun x => (x.1.1.2, x.1.2))) in K4; exact K4).
  assert (C4 : k_ctx (w_now w4) = true) by (destruct K4 as [[= _ _ _ ->] _]; done).
  destruct a4 as [r|err| |]; [|split; [apply (keeps_trans _ _ w4); [done|by apply keeps_upd]|done]|done..].
  split; [done|]. split_and!; [done|done|done|]. exists (ev_engine e). split; [done|]. by eapply engine_Start_runner.
Qed.

(** ** Close *)
Definition idle (k : core) : Prop := k_open k = [] ∧ k_proxy k = None ∧ k_ctx k = false.
(** The user's settings are what they were, a stale entry of SplitWire apart. *)
Definition restored (e : env) (r r' : registry) : Prop :=
  r' = r ∨ ∃ v, user_setting (ev_parse e) (ev_reachable e) (rg_auto r) v ∧ r' = set_auto r v.
(** The PAC entry is still there: nothing else of the settings has changed. *)
Definition left_behind (e : env) (r r' : registry) : Prop :=
  ∃ addr, ev_listen e = inl addr ∧ r' = set_auto r (Some (pac_url addr)).

Lemma Runner_Close_spec en w : k_open (w_now w) = handles en →
  k_open (w_now (Runner_Close w)) = [] ∧ keeps but_open w (Runner_Close w).
Proof.
  intros H. split.
  - cbn. rewrite H. unfold handles. by destruct (en_socket en).
  - unfold Runner_Close. do 4 (eapply keeps_trans; [|by apply keeps_upd]). by apply keeps_upd.
Qed.
Lemma but_open_settings w w' : keeps but_open w w' → keeps settings w w'.
Proof. apply (keeps_weaken (fun x => (x.1.1.2, x.1.2))). Qed.

Definition held (e : env) (w0 w : World) (s : Session) : Prop :=
  ∃ r, hostname_state e w0 w r (s_proxy s) (s_proxySess s) (s_runner s).

(** The two actions before the engine stops, and what they leave; [ok] tells whether the
    settings can be written. *)
Lemma Close_spec e en w0 w s ok sd : held e w0 w s → s_closed s = false → k_open (w_now w) = handles en →
  plain_registry (k_reg (w_now w0)) → k_proxy (w_now w0) = None →
  let '(w', (s', err)) := Close ok sd s w in
  idle (w_now w') ∧ s_closed s' = true ∧
  (if ok || bool_decide (s_proxySess s = None) then
     restored e (k_reg (w_now w0)) (k_reg (w_now w')) ∧
     ∀ addr, ev_listen e = inl addr → rg_auto (k_reg (w_now w0)) ≠ Some (pac_url addr) → ev_early e = false → ev_late e = false →
       through (pac_live addr) w w'
   else left_behind e (k_reg (w_now w0)) (k_reg (w_now w')) ∧ is_Some err).
Proof.
  intros [r Hs] Hc Ho Hpl Hp0. unfold Close. rewrite Hc. inversion Hs as [r' Eset Hr|bp v El Hv Ereg Epx]; subst; cbv zeta.
  - destruct (Runner_Close_spec en w Ho) as [O K]. apply but_open_settings in K. rewrite orb_true_r.
    injection Eset as Er Ex.  split_and!; [split_and!; [done|change (k_proxy (w_now w) = None); congruence|done]|done|left; exact Er|].
    intros addr El Hne _ _. apply (through_trans _ w (Runner_Close w)); [|apply through_upd].
    + apply keeps_live; [done|]. unfold pac_live. rewrite Er. done.
    + change (pac_live addr (w_now w)). unfold pac_live. by rewrite Er.
  - pose proof (user_plain _ _ _ _ Hv Hpl) as Hpv. rewrite (Restore_spec v (k_reg (w_now w0)) (k_reg (w_now w)) ok Hpv).
    destruct ok; cbn [orb].
    2: { destruct (Runner_Close_spec en (upd (set_proxy None) (upd (set_reg (k_reg (w_now w))) w))) as [O _]; [done|].
         split; [split_and!; [exact O|done|done]|]. split; [done|]. split; [|by eexists]. exists (sv_addr bp). split; [done|]. exact Ereg. }
    set (w1 := upd (set_reg (set_auto (k_reg (w_now w)) v)) w). set (w2 := upd (set_proxy None) w1).
    destruct (Runner_Close_spec en w2) as [O K]; [done|]. apply but_open_settings in K.
    split_and!; try done.
    + right. exists v. split; [done|]. change (set_auto (k_reg (w_now w)) v = set_auto (k_reg (w_now w0)) v). by rewrite Ereg.
    + intros addr El2 Hne _ _. assert (Hv' : v ≠ Some (pac_url addr)) by (intros ->; by apply user_setting_url in Hv).
      assert (Hd : ∀ k, rg_auto (k_reg k) = v → pac_live addr k) by (intros k E E'; congruence).
      apply (through_trans _ w w1); [by apply through_upd, Hd|]. apply (through_trans _ w1 w2); [by apply through_upd, Hd|].
      apply (through_trans _ w2 (Runner_Close w2)); [|by apply through_upd, Hd].
      apply keeps_live; [done|by apply Hd].
Qed.
Lemma Close_again ok sd s w : s_closed s = true → Close ok sd s w = (w, (s, None)).
Proof. unfold Close. by intros ->. Qed.

(** ** The whole of Start *)
Lemma hostname_later e w0 w w' r px ps r' : settings (w_now w') = settings (w_now w) → hostname_state e w0 w r px ps r' → hostname_state e w0 w' r px ps r'.
Proof. intros [= E1 E2] H. inversion H; subst; constructor; try done; try congruence. unfold settings in *. congruence. Qed.

Record started (e : env) (o : Options) (w w' : World) (s : Session) : Prop := {
  st_held : held e w w' s;
  st_open : k_open (w_now w') = handles (ev_engine e) ∧ k_ctx (w_now w') = true;
  st_open' : s_closed s = false;
  st_cfg : ∃ cfg, Load (abs Abs (TrimSpace (op_config o))) (FindDefaultConfig clean_prefix Dir (op_appDir o) (k_files (w_now w))) (k_files (w_now w)) = Ok cfg ∧
    in_groups (s_info s) = cGroups cfg ∧ in_configPath (s_info s) = abs Abs (TrimSpace (op_config o)) ∧
    (s_proxySess s = None → ProxyDomainPatterns cfg = [] ∨ r_aggressive (s_runner s) = true) }.

Lemma cloneGroups_same gs : cloneGroups gs = gs.
Proof. induction gs as [|[] gs IH]; [done|]. exact (f_equal (cons _) IH). Qed.

Lemma held_settings e w0 w w' s : settings (w_now w') = settings (w_now w) → held e w0 w s → held e w0 w' s.
Proof. intros E [r H]. exists r. by eapply hostname_later. Qed.

Lemma hostname_base e w0 w1 w r px ps r' : settings (w_now w0) = settings (w_now w1) → hostname_state e w1 w r px ps r' → hostname_state e w0 w r px ps r'.
Proof.
  intros E H. injection E as E1 E2. inversion H; subst.
  - apply hs_none; [|done]. unfold settings in *. congruence.
  - rewrite <- E1. apply hs_pac; [done| |congruence|done]. by rewrite E1.
Qed.

(** Where a failed start leaves the settings. *)
Definition start_failed (e : env) (w w' : World) : Prop :=
  restored e (k_reg (w_now w)) (k_reg (w_now w')) ∨ ev_restore e = false ∧ ev_err2 e ≠ None ∧ left_behind e (k_reg (w_now w)) (k_reg (w_now w')).
Lemma Start_spec e o w : env_ok e → idle (w_now w) → plain_registry (k_reg (w_now w)) →
  let (w', a) := Start processInfo clean_prefix Dir Abs e o w in
  match a with
  | Ok s => ev_err2 e = None ∧ started e o w w' s
  | Err _ => idle (w_now w') ∧ start_failed e w w'
  | _ => False
  end ∧
  ∀ addr, ev_listen e = inl addr → rg_auto (k_reg (w_now w)) ≠ Some (pac_url addr) → ev_early e = false → ev_late e = false →
    through (pac_live addr) w w' ∨ ev_restore e = false ∧ ev_err2 e ≠ None ∧ left_behind e (k_reg (w_now w)) (k_reg (w_now w')).
Proof.
  intros He (Ho & Hp & Hc) Hpl. unfold Start. unfold mbind, SR_bind.
  pose proof (bring_up_spec e o w He Ho Hc) as H1. destruct (bring_up processInfo clean_prefix Dir Abs e o w) as [w1 a1].
  destruct H1 as [K1 H1].
  assert (Hlive : ∀ addr, rg_auto (k_reg (w_now w)) ≠ Some (pac_url addr) → pac_live addr (w_now w1) ∧ through (pac_live addr) w w1).
  { intros addr Hne. apply keeps_live; [done|]. intros E. by destruct Hne. }
  pose proof (proj1 K1) as E1. injection E1 as E1r E1p.
  destruct a1 as [[[cfg iface] r]|err| |]; [| |done..].
  2: { split; [|by intros ? _ ? _ _; left; apply Hlive]. destruct H1 as [O1 C1]. split; [split_and!; congruence|by left; left]. }
  destruct H1 as (O1 & C1 & Hload & _).
  pose proof (hostname_mode_spec e (op_logging o) cfg r w1 (eo_addr _ He) ltac:(congruence)) as H2.
  destruct (hostname_mode e (op_logging o) cfg r w1) as [w2 a2]. destruct H2 as (r' & px & ps & mode & -> & K2 & Hs & Hag & Ht).
  assert (Hs' : hostname_state e w w2 r px ps r') by (eapply hostname_base; [symmetry; apply (proj1 K1)|exact Hs]).
  pose proof (proj1 K2) as E2. injection E2 as _ E2o E2c.
  assert (Ht2 : ∀ addr, ev_listen e = inl addr → rg_auto (k_reg (w_now w)) ≠ Some (pac_url addr) → ev_early e = false → ev_late e = false → through (pac_live addr) w w2).
  { intros addr El Hne Ee Elt. destruct (Hlive addr Hne). eapply through_trans; [done|]. by apply Ht. }
  set (s := mkSession' _ r' px ps false). unfold settle. destruct (ev_err2 e) as [err|] eqn:Eerr.
  - pose proof (Close_spec e (ev_engine e) w w2 s (ev_restore e) (ev_shutdown e) (ex_intro _ r Hs') eq_refl ltac:(congruence) Hpl Hp) as H3.
    destruct (Close (ev_restore e) (ev_shutdown e) s w2) as [w3 [s3 err3]]. destruct H3 as (Hi & _ & H3). unfold start_failed.
    destruct (ev_restore e || _) eqn:Eok.
    + destruct H3 as [Hr Ht3]. split; [by split; [|left]|]. intros addr El Hne Ee Elt. left. eapply through_trans; [by apply Ht2|by apply Ht3].
    + apply orb_false_iff in Eok as [Eok _]. destruct H3 as [H3 _].
      assert (Hb : ev_restore e = false ∧ ev_err2 e ≠ None ∧ left_behind e (k_reg (w_now w)) (k_reg (w_now w3))) by (split_and!; [done|congruence|done]).
      split; [split; [done|right; exact Hb]|]. intros. right. by rewrite <- Eerr.
  - pose proof (on_files_spec (SaveLastConfig clean_prefix Abs (ev_write e) (op_appDir o) (in_configPath (s_info s))) w2) as H3.
    destruct (on_files _ w2) as [w3 a3]. destruct H3 as (_ & K3 & O3 & C3). split.
    + split; [done|]. split; [apply (held_settings _ _ w2); [apply (proj1 K3)|by exists r]|split; congruence|done|].
      exists cfg. split_and!; [done|cbn; by rewrite cloneGroups_same|done|]. intros Eps.
      destruct (bool_decide_reflect (ProxyDomainPatterns cfg = [])) as [|Hne]; [by left|]. right. by apply Hag.
    + intros addr El Hne Ee Elt. left. eapply through_trans; [by apply Ht2|]. apply (keeps_live addr) in K3; [by apply K3|].
      pose proof (Ht2 addr El Hne Ee Elt) as _. inversion Hs' as [? Es|bp v El' Hv Er Epx]; subst.
      * injection Es as Es1 _. intros E. rewrite Es1 in E. done.
      * rewrite Ee, Elt in Epx. intros _. rewrite El in El'. injection El' as ->. exact Epx.
Qed.

(** C13: a session is all or nothing.  From a machine on which nothing of SplitWire runs,
    [Start] returns a session that holds every handle of the engine with its context
    live, runs the rules of the configuration file, and has either the proxy with the PAC
    entry that points at it (and listening, unless the caller was cancelled meanwhile) or
    no proxy at all, with the user's settings untouched and, if hostname rules need it,
    discovery turned up; or it returns an error, and then every handle, the proxy and the
    context are gone again.  The user's settings are then back too, except in one case:
    the caller was cancelled after the entry was made and the settings could not be
    written, so that the entry is left behind.  [Close] of the session ends in the same
    place, whether the settings can be written or not: everything is released; the
    settings are back, or, if they could not be written and the entry was made, the entry
    is left behind and an error returned.  A second [Close] does nothing.  Nothing on the
    way panics.  The calls of the system answer, with an error or not, and neither the
    user's PAC entry nor the proxy's address has a typographic quote, which PowerShell
    takes for a quote. *)
Theorem session_all_or_nothing e o w : env_ok e → idle (w_now w) → plain_registry (k_reg (w_now w)) →
  match Start processInfo clean_prefix Dir Abs e o w with
  | (w', Ok s) =>
      k_open (w_now w') = handles (ev_engine e) ∧ k_ctx (w_now w') = true ∧
      (∃ cfg, Load (abs Abs (TrimSpace (op_config o))) (FindDefaultConfig clean_prefix Dir (op_appDir o) (k_files (w_now w))) (k_files (w_now w)) = Ok cfg ∧
        in_groups (s_info s) = cGroups cfg ∧ (s_proxySess s = None → ProxyDomainPatterns cfg = [] ∨ r_aggressive (s_runner s) = true)) ∧
      ((s_proxy s = None ∧ s_proxySess s = None ∧ settings (w_now w') = settings (w_now w)) ∨
       (∃ bp ps, s_proxy s = Some bp ∧ s_proxySess s = Some ps ∧ rg_auto (k_reg (w_now w')) = Some (PACURL bp) ∧
        k_proxy (w_now w') = (if ev_early e || ev_late e then None else Some (sv_addr bp)))) ∧
      ∀ ok sd, let '(w2, (s2, err)) := Close ok sd s w' in
        idle (w_now w2) ∧
        (if ok || bool_decide (s_proxySess s = None) then restored e (k_reg (w_now w)) (k_reg (w_now w2))
         else left_behind e (k_reg (w_now w)) (k_reg (w_now w2)) ∧ is_Some err) ∧
        ∀ ok' sd' w3, Close ok' sd' s2 w3 = (w3, (s2, None))
  | (w', Err _) => idle (w_now w') ∧ start_failed e w w'
  | _ => False
  end.
Proof.
  intros He Hi Hpl. pose proof (Start_spec e o w He Hi Hpl) as H.
  destruct (Start processInfo clean_prefix Dir Abs e o w) as [w' [s|err| |]]; destruct H as [H _]; [|done..].
  destruct H as [_ [Hheld [Hopen Hctx] Hcl (cfg & Hload & Hg & _ & Hag)]]. split_and!; [done|done|by exists cfg| |].
  - destruct Hheld as [r Hs]. inversion Hs as [? Eset Ha|bp v El Hv Er Epx]; subst; [left|right].
    + done.
    + do 2 eexists. split_and!; [done|done|by rewrite Er|done].
  - intros ok sd. pose proof (Close_spec e (ev_engine e) w w' s ok sd Hheld Hcl Hopen Hpl (proj1 (proj2 Hi))) as H.
    destruct (Close ok sd s w') as [w2 [s2 err]]. destruct H as (Hi2 & Hc2 & H). split_and!; [done|by destruct (ok || _); [destruct H|]|].
    intros. by apply Close_again.
Qed.

(** C14: when the browser can be sent to a proxy that is not there.  In every state of the
    machine from the beginning of [Start] to the end of [Close] in which the PAC entry
    is ours, our proxy listens: it is up before the entry is made, and the entry is
    gone before the proxy goes.  This holds as long as the caller's context is not
    cancelled on the way (the proxy then closes itself) and the settings can be written
    when the session ends, by [Close] or in a start that fails; when they cannot, the
    proxy is closed all the same, and the entry still points at it at the end.  The user's
    own entry is not that of our proxy before; the rest is as for the theorem above. *)
Theorem pac_never_dangles e o w addr : env_ok e → idle (w_now w) → plain_registry (k_reg (w_now w)) →
  ev_listen e = inl addr → rg_auto (k_reg (w_now w)) ≠ Some (pac_url addr) → ev_early e = false → ev_late e = false →
  let dangles (w : World) := rg_auto (k_reg (w_now w)) = Some (pac_url addr) ∧ k_proxy (w_now w) = None in
  match Start processInfo clean_prefix Dir Abs e o w with
  | (w', Ok s) => through (pac_live addr) w w' ∧
      ∀ ok sd, let w2 := (Close ok sd s w').1 in
        if ok || bool_decide (s_proxySess s = None) then through (pac_live addr) w w2 else dangles w2
  | (w', _) => through (pac_live addr) w w' ∨ (ev_restore e = false ∧ dangles w')
  end.
Proof.
  intros He Hi Hpl El Hne Hea Hla dangles. pose proof (Start_spec e o w He Hi Hpl) as H.
  assert (Hd : ∀ k, idle (w_now k) → left_behind e (k_reg (w_now w)) (k_reg (w_now k)) → dangles k).
  { intros k (_ & Hp & _) (a & Ea & Er). rewrite El in Ea. injection Ea as <-. split; [by rewrite Er|done]. }
  destruct (Start processInfo clean_prefix Dir Abs e o w) as [w' [s|err| |]]; destruct H as [H Ht]; [| |done..].
  2: { destruct (Ht addr El Hne Hea Hla) as [Hl|(Hr & _ & Hb)]; [by left|right]. destruct H as [Hid _]. eauto. }
  destruct H as [He2 [Hheld [Hopen Hctx] Hcl _]].
  assert (Hs : through (pac_live addr) w w') by (by destruct (Ht addr El Hne Hea Hla) as [Hl|(_ & ? & _)]).
  split; [done|]. intros ok sd.
  pose proof (Close_spec e (ev_engine e) w w' s ok sd Hheld Hcl Hopen Hpl (proj1 (proj2 Hi))) as H.
  destruct (Close ok sd s w') as [w2 [s2 err]]. destruct H as (Hid & _ & H). cbn [fst]. destruct (ok || _).
  - eapply through_trans; [exact Hs|by apply H].
  - apply Hd; [done|apply H].
Qed.

(** ** The remembered configuration *)
Lemma drop_spaces_length s : (length (drop_spaces s) <= length s)%nat.
Proof. induction s as [|c s IH]; cbn; [done|]. destruct (_ && _); cbn; lia. Qed.
Lemma ascii_head s : isASCII s = true → non_ascii_head s = false.
Proof. destruct s as [|c s]; [done|]. cbn. intros H. apply andb_true_iff in H as [H _]. apply Z.leb_gt. by apply Z.ltb_lt. Qed.
Lemma drop_ascii s : isASCII s = true → isASCII (drop_spaces s) = true.
Proof. induction s as [|c s IH]; [done|]. intros H. cbn [drop_spaces]. destruct (_ && _); [|done]. apply IH. cbn in H. by apply andb_true_iff in H as [_ H]. Qed.
Lemma rev_ascii s : isASCII s = true → isASCII (rev s) = true.
Proof. unfold isASCII. rewrite !forallb_forall. intros H x Hx. apply H. by apply in_rev. Qed.
Lemma drop_app s t : s ≠ [] → drop_spaces s = s → drop_spaces (s ++ t) = s ++ t.
Proof.
  destruct s as [|c s]; [done|]. intros _. cbn [drop_spaces app]. destruct (_ && _); [|done].
  intros E. pose proof (drop_spaces_length s) as Hl. rewrite E in Hl. cbn in Hl. lia.
Qed.
Lemma TrimSpace_newline p : isASCII p = true → TrimSpace p = p → TrimSpace (p ++ [10]) = p.
Proof.
  intros Ha E. destruct (decide (p = [])) as [->|Hne]; [done|]. unfold TrimSpace, trim_with in *. cbv zeta in *.
  rewrite (ascii_head _ (drop_ascii _ Ha)) in E.
  rewrite (ascii_head _ (drop_ascii _ (rev_ascii _ (drop_ascii _ Ha)))) in E.
  pose proof (drop_spaces_length p) as H1. pose proof (drop_spaces_length (rev (drop_spaces p))) as H2.
  assert (Hp : drop_spaces p = p).
  { destruct p as [|c p]; [done|]. cbn [drop_spaces] in *. destruct (_ && _); [|done].
    apply (f_equal length) in E. rewrite length_rev in E. rewrite length_rev in H2. pose proof (drop_spaces_length p). cbn in E. lia. }
  rewrite Hp in E. apply (f_equal (@rev Z)) in E. rewrite rev_involutive in E.
  rewrite (drop_app p [10] Hne Hp).
  assert (Hh : non_ascii_head (p ++ [10]) = false) by (pose proof (ascii_head p Ha); by destruct p). rewrite Hh.
  rewrite rev_app_distr. change (drop_spaces (rev [10] ++ rev p)) with (drop_spaces (rev p)). rewrite E.
  rewrite (ascii_head _ (rev_ascii _ Ha)). apply rev_involutive.
Qed.

(** A configuration that is saved is the one loaded at the next start, as long as its
    file is there. *)
Lemma last_config_roundtrip dir path fs fs' p : p = abs Abs (TrimSpace path) →
  SaveLastConfig clean_prefix Abs (Ok tt) dir path fs = (fs', Ok tt) → isASCII p = true → TrimSpace p = p → is_file fs p = true →
  LoadLastConfig clean_prefix dir fs' = p.
Proof.
  intros Ep H Ha Ht Hf. unfold SaveLastConfig in H. rewrite <- Ep in H. cbv zeta in H.
  destruct (bool_decide_reflect (p = [])) as [|Hne]; [done|]. injection H as <-.
  unfold LoadLastConfig, ReadFile. rewrite lookup_insert_eq. rewrite (TrimSpace_newline p Ha Ht), bool_decide_eq_false_2 by done.
  assert (E : is_file (<[path_join clean_prefix dir last_config := p ++ [10]]> fs) p = true).
  { unfold is_file in *. destruct (decide (path_join clean_prefix dir last_config = p)) as [->|Hd]; [by rewrite lookup_insert_eq|].
    by rewrite lookup_insert_ne by done. }
  by rewrite E.
Qed.
End SessionProps.

(** ** A run

    A configuration with one rule, which needs the hostname proxy; the decoders answer
    fixed values. *)
#[local] Existing Instance ascii_unicode.
#[local] Existing Instance posix.
#[local] Instance fixed_decoders : Decoders :=
  {| ParseAddr _ := None; ParsePrefix _ := Some (mkPrefix (Addr4 [10; 66; 66; 20]) 32); Masked p := p; Unquote _ := Some (lit "g");
     Base64 _ := Some (zeros 32) |}.
Definition nl : list Z := [10].
Definition demo_conf : list Z :=
  lit "[Interface]" ++ nl ++ lit "PrivateKey=k" ++ nl ++ lit "Address=10.66.66.20/32" ++ nl ++
  lit "[Peer]" ++ nl ++ lit "PublicKey=k" ++ nl ++ lit "Endpoint=h:1" ++ nl ++
  lit "[Group 'g']" ++ nl ++ lit "Apps=*" ++ nl ++ lit "Domains=a.b" ++ nl.
Definition demo_prefix (d : list Z) : list Z := d ++ lit "/".
Definition demo_files : files :=
  <[lit "/c" := demo_conf]> (<[lit "/d/WinDivert.dll" := [1]]> (<[lit "/d/WinDivert64.sys" := [1]]> ∅)).
Definition demo_world : World := mkWorld (mkCore demo_files (mkRegistry None 0 []) [] None false) [].
Definition demo_engine : engine_env :=
  mkEngineEnv (fun _ _ _ => Ok tt) (Ok tt) (Ok tt) (Ok tt) (Err "socket") 1 no_table no_table no_table no_table 7.
Definition demo_addr : list Z := lit "127.0.0.1:8080".
Definition demo_env (err2 : option string) (late : bool) : env :=
  mkEnv (fun _ => DoError "net") (fun _ => Err "zip") (fun _ => Ok tt) (fun _ _ => Ok tt) None err2 false late
    (fun _ => Some (lit "eth")) (fun _ => Ok (lit "3")) demo_engine (inl demo_addr) (fun _ => None) (fun _ => false) true true true None (Ok tt).
Definition demo_options : Options := mkOptions (lit "/c") (lit "/d") [] true.
Definition demo_start (err2 : option string) (late : bool) : World * Res Session :=
  Start (fun _ => Process0) demo_prefix (fun d => d) (fun p => Some p) (demo_env err2 late) demo_options demo_world.

Lemma demo_env_ok err2 late : env_ok (demo_env err2 late).
Proof.
  split; [split; try done; repeat constructor; apply no_table_ok|done|]. apply plain_text_check. vm_compute. reflexivity.
Qed.
Lemma demo_idle : idle (w_now demo_world).
Proof. by split_and!. Qed.
Lemma demo_starts : ∃ w' s, demo_start None false = (w', Ok s).
Proof.
  assert (E : is_Ok (demo_start None false).2 = true) by (vm_compute; reflexivity).
  destruct (demo_start None false) as [w' a]. destruct a as [s|e| |]; [by exists w', s|by cbn in E..].
Qed.
Lemma session_all_or_nothing_witness :
  match demo_start None false with
  | (w', Ok s) => k_open (w_now w') = [DNSHandle; FlowHandle; NetHandle; WGClient] ∧ idle (w_now (Close true None s w').1) ∧ idle (w_now (Close false None s w').1) ∧
      rg_auto (k_reg (w_now (Close false None s w').1)) = Some (pac_url demo_addr)
  | _ => False
  end.
Proof.
  pose proof (session_all_or_nothing (fun _ => Process0) demo_prefix (fun d => d) (fun p => Some p) (demo_env None false) demo_options demo_world
    (demo_env_ok _ _) demo_idle I) as H.
  change (Start _ _ _ _ _ _ _) with (demo_start None false) in H.
  assert (Hp : match demo_start None false with (_, Ok s) => bool_decide (s_proxySess s = None) | _ => true end = false) by (vm_compute; reflexivity). destruct demo_starts as (w' & s & E). rewrite E in H, Hp |- *.
  destruct H as (Ho & _ & _ & _ & Hc). split; [exact Ho|]. pose proof (Hc true None) as H1. pose proof (Hc false None) as H2.
  destruct (Close true None s w') as [w2 [s2 err]]. split; [exact (proj1 H1)|]. rewrite Hp in H2.
  destruct (Close false None s w') as [w3 [s3 err3]]. destruct H2 as (Hi & [(a & Ea & Er) _] & _). split; [exact Hi|].
  injection Ea as <-. cbn [fst]. rewrite Er. reflexivity.
Defined.

Definition is_pac (k : core) : bool := bool_decide (rg_auto (k_reg k) = Some (pac_url demo_addr)).
Lemma pac_never_dangles_witness :
  match demo_start None false with
  | (w', Ok s) => through (pac_live demo_addr) demo_world (Close true None s w').1 ∧
      k_proxy (w_now (Close false None s w').1) = None ∧ existsb is_pac (w_past (Close true None s w').1) = true
  | _ => False
  end.
Proof.
  pose proof (pac_never_dangles (fun _ => Process0) demo_prefix (fun d => d) (fun p => Some p) (demo_env None false) demo_options demo_world demo_addr
    (demo_env_ok _ _) demo_idle I eq_refl) as H.
  specialize (H ltac:(discriminate) eq_refl eq_refl).
  change (Start _ _ _ _ _ _ _) with (demo_start None false) in H.
  assert (Hp : (match demo_start None false with (w', Ok s) => existsb is_pac (w_past (Close true None s w').1) | _ => false end) = true) by (vm_compute; reflexivity).
  assert (Hb : match demo_start None false with (_, Ok s) => bool_decide (s_proxySess s = None) | _ => true end = false) by (vm_compute; reflexivity).
  destruct demo_starts as (w' & s & E). rewrite E in H, Hp, Hb |- *. destruct H as [_ H]. split; [exact (H true None)|]. split; [|exact Hp].
  pose proof (H false None) as H2. rewrite Hb in H2. exact (proj2 H2).
Defined.

(** When the caller is cancelled just before [Start] returns, the proxy's own goroutine
    may close it first, and for a while the entry points at nothing. *)
Lemma cancelled_start_dangles : ¬ through (pac_live demo_addr) demo_world (demo_start (Some "context canceled"%string) true).1.
Proof.
  intros (l & El & Hl). change (w_past demo_world ++ l) with l in El. subst l.
  assert (E : existsb (fun k => is_pac k && bool_decide (k_proxy k = None)) (w_past (demo_start (Some "context canceled"%string) true).1) = true)
    by (vm_compute; reflexivity).
  apply existsb_exists in E as (k & Hk & Ek). apply andb_true_iff in Ek as [E1 E2].
  apply bool_decide_eq_true in E1. apply bool_decide_eq_true in E2.
  rewrite List.Forall_forall in Hl. specialize (Hl k Hk E1). rewrite E2 in Hl. discriminate Hl.
Qed.
