(* ===== verification/Shutdown.v ===== *)
(** * Stopping the engine: the loops of [engine/engine_windows.go] and [Runner.Close]

    What a turn of a loop does is in Runner.v; here are the loops around the turns:
    where each can wait, what wakes it and when it returns, together with [Close], which
    cancels the context, closes the handles, waits for every loop and then closes the
    WireGuard client.  A step is one move of one goroutine. *)

From S2P Require Import Prelude Session.
Local Open Scope Z_scope.

Inductive loop := captureLoop | flowLoop | socketLoop | dnsLoop | wgReceiveLoop | sendLoop | bootstrapLoop | maintenanceLoop
  | socketSnapshotLoop | diagnosticLoop.
#[export] Instance loop_eq_dec : EqDecision loop.
Proof. solve_decision. Defined.
(** The loops [Start] runs; [socketLoop] only with the socket handle. *)
Definition all_loops : list loop :=
  [captureLoop; flowLoop; socketLoop; dnsLoop; wgReceiveLoop; sendLoop; bootstrapLoop; maintenanceLoop; socketSnapshotLoop; diagnosticLoop].
(** The handle a loop receives from; the others wait in a [select]. *)
Definition handle_of (l : loop) : option resource :=
  match l with
  | captureLoop => Some NetHandle
  | flowLoop => Some FlowHandle
  | socketLoop => Some SocketHandle
  | dnsLoop => Some DNSHandle
  | _ => None
  end.
(** Where a loop is: receiving or selecting, after an error of the handle, in the pause
    that follows one, in a turn, or back. *)
Inductive position := AtWait | AtError | Asleep | InTurn | Exited.
#[export] Instance position_eq_dec : EqDecision position.
Proof. solve_decision. Defined.
(** [Close]: its actions that are left, the wait for the loops among them. *)
Inductive action := Cancel | CloseHandle (r : resource) | Wait | CloseClient.
Definition Close_actions : list action :=
  [Cancel; CloseHandle NetHandle; CloseHandle FlowHandle; CloseHandle DNSHandle; CloseHandle SocketHandle; Wait; CloseClient].
Record engine := mkEngine { e_pos : loop → position; e_open : list resource; e_live : bool (* the context *); e_close : list action }.
Definition set_pos (l : loop) (p : position) (e : engine) : engine :=
  mkEngine (fun l' => if decide (l' = l) then p else e_pos e l') (e_open e) (e_live e) (e_close e).

(** The moves of a loop; [input] marks the choice of an input at a wait. *)
Inductive loop_move (e : engine) (l : loop) : bool → position → position → Prop :=
  | lm_recv h : handle_of l = Some h → h ∈ e_open e → loop_move e l true AtWait InTurn
  | lm_error h : handle_of l = Some h → loop_move e l (bool_decide (h ∈ e_open e)) AtWait AtError
  | lm_return : e_live e = false → loop_move e l false AtError Exited
  | lm_pause : e_live e = true → loop_move e l true AtError Asleep
  | lm_again : loop_move e l false Asleep AtWait
  | lm_input : handle_of l = None → loop_move e l true AtWait InTurn
  | lm_done : handle_of l = None → e_live e = false → loop_move e l false AtWait Exited
  | lm_turn : loop_move e l false InTurn AtWait
  | lm_queue : l = captureLoop → e_live e = false → loop_move e l false InTurn Exited.
Definition close_move (e : engine) : option engine :=
  match e_close e with
  | [] => None
  | Cancel :: rest => Some (mkEngine (e_pos e) (e_open e) false rest)
  | CloseHandle r :: rest => Some (mkEngine (e_pos e) (filter (fun x => x ≠ r) (e_open e)) (e_live e) rest)
  | Wait :: rest => if forallb (fun l => bool_decide (e_pos e l = Exited)) all_loops then Some (mkEngine (e_pos e) (e_open e) (e_live e) rest) else None
  | CloseClient :: rest => Some (mkEngine (e_pos e) (filter (fun x => x ≠ WGClient) (e_open e)) (e_live e) rest)
  end.
(** One step; [true] when a loop took an input. *)
Inductive step (e : engine) : bool → engine → Prop :=
  | st_loop l b p : loop_move e l b (e_pos e l) p → step e b (set_pos l p e)
  | st_close e' : close_move e = Some e' → step e false e'.
(** [Start] leaves the engine running with the handles of [Session.handles]; without
    the socket handle its loop is not run. *)
Definition running (socket : bool) : engine :=
  mkEngine (fun l => if negb socket && bool_decide (l = socketLoop) then Exited else AtWait)
    ((if socket then [SocketHandle] else []) ++ [DNSHandle; FlowHandle; NetHandle; WGClient]) true [].
Definition begin_close (e : engine) : engine := mkEngine (e_pos e) (e_open e) (e_live e) Close_actions.
(** Runs: the engine works, [Close] is called at some time, once. *)
Inductive reaches (socket : bool) : engine → Prop :=
  | rc_start : reaches socket (running socket)
  | rc_step e b e' : reaches socket e → step e b e' → reaches socket e'
  | rc_close e : reaches socket e → e_live e = true → e_close e = [] → reaches socket (begin_close e).

(** ** Properties *)
(** How far [Close] is: the context is dead from the first action on, a handle closed
    once its action is done, and the loops are back before the client is closed. *)
Record after_actions (n : nat) (e : engine) : Prop := {
  aa_n : (1 <= n <= 7)%nat;
  aa_rest : e_close e = drop n Close_actions;
  aa_live : e_live e = false;
  aa_handles : ∀ r, CloseHandle r ∈ take n Close_actions → r ∉ e_open e;
  aa_loops : (6 <= n)%nat → ∀ l, e_pos e l = Exited;
  aa_client : WGClient ∈ e_open e ↔ (n < 7)%nat }.
Definition stage (e : engine) : Prop :=
  (∀ r, r ∈ e_open e → r ∈ [SocketHandle; DNSHandle; FlowHandle; NetHandle; WGClient]) ∧
  (e_live e = true ∧ (e_close e = [] ∨ e_close e = Close_actions) ∧ WGClient ∈ e_open e ∨ ∃ n, after_actions n e).

Lemma Exited_final e l b p : loop_move e l b Exited p → False.
Proof. inversion 1. Qed.
Lemma all_exited e : forallb (fun l => bool_decide (e_pos e l = Exited)) all_loops = true → ∀ l, e_pos e l = Exited.
Proof. intros H l. rewrite forallb_forall in H. apply (bool_decide_eq_true_1 _). apply H. destruct l; cbn; tauto. Qed.
Lemma elem_without (x y : resource) (l : list resource) : x ∈ filter (fun z => z ≠ y) l ↔ x ≠ y ∧ x ∈ l.
Proof. exact (list_elem_of_filter (fun z => z ≠ y) l x). Qed.

Lemma close_stage e e' : stage e → close_move e = Some e' → stage e'.
Proof.
  intros [Hsub [(Hl & [E|E] & Hc)|[n [Hn E Hl Hh Hp Hc]]]] Hm; unfold close_move in Hm; rewrite E in Hm; [done|..].
  - cbn in Hm. injection Hm as <-. split; [done|]. right. exists 1%nat. split; cbn; try done; try lia; [|split; [lia|done]].
    intros r [?|[]%elem_of_nil]%elem_of_cons. done.
  - destruct n as [|[|[|[|[|[|[|[|n]]]]]]]]; try lia; cbn [drop Close_actions] in Hm; try done.
    6: { injection Hm as <-. split; [intros r [_ ?]%elem_without; by apply Hsub|]. right. exists 7%nat. split; cbn [e_open e_pos e_close e_live]; try done; try lia.
         - intros r Hr [_ Ho]%elem_without. revert Hr Ho. cbn in *. rewrite !elem_of_cons in *. intros Hr. apply Hh. rewrite !elem_of_cons. intuition congruence.
         - intros _. apply Hp. lia.
         - rewrite elem_without. split; [by intros [? _]|lia]. }
    5: { destruct (forallb _ _) eqn:Ef; [|done]. injection Hm as <-. split; [done|]. right. exists 6%nat. split; cbn [e_open e_pos e_close e_live]; try done; try lia.
         - intros r Hr. apply Hh. revert Hr. cbn. rewrite !elem_of_cons. intuition congruence.
         - intros _. by apply all_exited.
         - rewrite Hc. lia. }
    all: injection Hm as <-; (split; [intros r [_ ?]%elem_without; by apply Hsub|]); right.
    1: exists 2%nat. 2: exists 3%nat. 3: exists 4%nat. 4: exists 5%nat.
    all: split; cbn [e_open e_pos e_close e_live]; try done; try lia; [|rewrite elem_without, Hc; split; [lia|split; [done|lia]]].
    all: intros r Hr [Hne Ho]%elem_without; revert Ho; apply Hh; revert Hr; cbn; rewrite !elem_of_cons; intuition congruence.
Qed.
Lemma stage_step e b e' : stage e → step e b e' → stage e'.
Proof.
  intros Hs [l b' p Hm|e2 Hc]; [|by eapply close_stage].
  destruct Hs as [Hsub [H|[n [Hn E Hl Hh Hp Hc]]]]; (split; [done|]); [by left|right]. exists n. split; try done.
  intros H6 l'. cbn. rewrite (Hp H6 l) in Hm. by apply Exited_final in Hm.
Qed.
Lemma reaches_stage socket e : reaches socket e → stage e.
Proof.
  induction 1 as [|e b e' _ IH Hs|e _ IH Hl Hc].
  - split; [destruct socket; cbn; set_solver|]. left. split; [done|]. split; [by left|]. destruct socket; cbn; set_solver.
  - by eapply stage_step.
  - destruct IH as [Hsub [(_ & _ & H)|[n Hn]]]; [|by rewrite (aa_live _ _ Hn) in Hl]. split; [done|]. left. split; [done|]. split; [by right|done].
Qed.

(** What is left: the loops' distances from their returns and the actions of [Close]. *)
Definition rank (p : position) : nat := match p with InTurn | Asleep => 3 | AtWait => 2 | AtError => 1 | Exited => 0 end.
Definition left_to_do (e : engine) : nat := sum_list_with (fun l => rank (e_pos e l)) all_loops + length (e_close e).

Lemma sum_update (f g : loop → nat) ls l : NoDup ls → l ∈ ls → (∀ l', l' ≠ l → g l' = f l') →
  (sum_list_with g ls + f l = sum_list_with f ls + g l)%nat.
Proof.
  induction ls as [|x ls IH]; intros Hd Hin Hsame; [by apply elem_of_nil in Hin|]. inversion Hd as [|? ? Hx Hd']; subst. clear Hd. rename Hd' into Hd. cbn.
  destruct (decide (x = l)) as [->|Hne].
  - assert (E : sum_list_with g ls = sum_list_with f ls); [|lia].
    clear IH Hd Hin. induction ls as [|y ls IH]; [done|]. cbn. apply not_elem_of_cons in Hx as [? ?]. rewrite IH by done. rewrite Hsame by congruence. done.
  - rewrite (Hsame x Hne). apply elem_of_cons in Hin as [?|Hin]; [congruence|]. specialize (IH Hd Hin Hsame). lia.
Qed.
Lemma loop_listed l : l ∈ all_loops.
Proof. destruct l; cbn; set_solver. Qed.
Lemma loops_distinct : NoDup all_loops.
Proof. apply (bool_decide_eq_true_1 (NoDup all_loops)). vm_compute. reflexivity. Qed.

Lemma set_pos_work l p e : (left_to_do (set_pos l p e) + rank (e_pos e l) = left_to_do e + rank p)%nat.
Proof.
  unfold left_to_do. cbn [e_close set_pos].
  pose proof (sum_update (fun l => rank (e_pos e l)) (fun l' => rank (e_pos (set_pos l p e) l')) all_loops l loops_distinct (loop_listed l)) as H.
  cbn [set_pos e_pos] in *. rewrite decide_True in H by done. cbn beta in H. unfold set_pos. cbn [e_pos e_close]. lapply H; [lia|]. intros l' Hne. by rewrite decide_False.
Qed.
Lemma move_rank e l b p q : loop_move e l b p q → if b then (rank q <= S (rank p))%nat ∨ e_live e = true else (rank q < rank p)%nat.
Proof. inversion 1; subst; cbn; try lia. - destruct (bool_decide _); lia. - by right. Qed.

Lemma forallb_fails {A} (f : A → bool) l : forallb f l = false → ∃ x, x ∈ l ∧ f x = false.
Proof.
  induction l as [|x l IH]; [done|]. cbn. destruct (f x) eqn:E; [|intros _; exists x; split; [by left|done]].
  intros H. destruct (IH H) as (y & Hy & Ey). exists y. split; [by right|done].
Qed.
Lemma progress n e : after_actions n e → e_close e ≠ [] → ∃ e', step e false e'.
Proof.
  intros [Hn E Hl Hh Hp Hc] Hne.
  destruct n as [|[|[|[|[|[|[|[|n]]]]]]]]; try lia; cbn [drop Close_actions] in E; try (by destruct Hne);
    try (eexists; apply st_close; unfold close_move; rewrite E; done).
  destruct (forallb (fun l => bool_decide (e_pos e l = Exited)) all_loops) eqn:Ef.
  { eexists. apply st_close. unfold close_move. by rewrite E, Ef. }
  assert (Hex : ∃ l, e_pos e l ≠ Exited).
  { apply forallb_fails in Ef as (l & _ & Hf). exists l. by apply bool_decide_eq_false in Hf. }
  destruct Hex as [l Hl']. destruct (e_pos e l) eqn:Ep; [| | | |done].
  - destruct (handle_of l) as [h|] eqn:Eh.
    + assert (Hcl : h ∉ e_open e). { apply Hh. destruct l; cbn in Eh; try done; injection Eh as <-; cbn; set_solver. }
      pose proof (lm_error e l h Eh) as Hm. rewrite bool_decide_eq_false_2 in Hm by done. rewrite <- Ep in Hm. eexists. by apply (st_loop e l).
    + pose proof (lm_done e l Eh Hl) as Hm. rewrite <- Ep in Hm. eexists. by apply (st_loop e l).
  - pose proof (lm_return e l Hl) as Hm. rewrite <- Ep in Hm. eexists. by apply (st_loop e l).
  - pose proof (lm_again e l) as Hm. rewrite <- Ep in Hm. eexists. by apply (st_loop e l).
  - pose proof (lm_turn e l) as Hm. rewrite <- Ep in Hm. eexists. by apply (st_loop e l).
Qed.

(** C18: stopping the engine always comes to an end, in the right order.  Once [Close] has
    cancelled the context, wherever the ten loops and [Close] are: something can always
    move without waiting for new input, each such move brings the end nearer, and a loop
    that takes one more input adds at most one move, so that [Close] is never stuck; the
    WireGuard client is closed only when every loop has returned; and when [Close]
    returns, every loop is back and no handle is open. *)
Theorem close_returns socket e : reaches socket e → e_live e = false →
  (e_close e ≠ [] → ∃ e', step e false e') ∧
  (∀ b e', step e b e' → if b then (left_to_do e' <= S (left_to_do e))%nat else (left_to_do e' < left_to_do e)%nat) ∧
  (WGClient ∉ e_open e → ∀ l, e_pos e l = Exited) ∧
  (e_close e = [] → e_open e = [] ∧ ∀ l, e_pos e l = Exited).
Proof.
  intros Hr Hl. destruct (reaches_stage socket e Hr) as [Hsub [(H & _)|[n Ha]]]; [congruence|]. split_and!.
  - by apply (progress n).
  - intros b e' [l b' p Hm|e2 Hc].
    + pose proof (set_pos_work l p e) as Hw. apply move_rank in Hm. destruct b'; [destruct Hm as [Hm|?]; [lia|congruence]|lia].
    + unfold close_move in Hc. unfold left_to_do. destruct (e_close e) as [|[| | |] rest]; [done|..]; repeat case_match; simplify_eq; cbn; lia.
  - intros Hc. apply (aa_loops _ _ Ha). destruct (decide (n < 7)%nat) as [Hlt|]; [|lia]. by apply (aa_client _ _ Ha) in Hlt.
  - destruct Ha as [Hn E _ Hh Hp Hc]. intros Ee. rewrite Ee in E.
    assert (n = 7%nat) as ->. { destruct n as [|[|[|[|[|[|[|n]]]]]]]; try discriminate E; lia. }
    split; [|apply Hp; lia]. destruct (e_open e) as [|r open] eqn:Eo; [done|]. exfalso.
    specialize (Hsub r (list_elem_of_here _ _)). assert (Hc' : WGClient ∉ r :: open) by (rewrite Hc; lia).
    assert (Hr' : r ≠ WGClient) by (intros ->; apply Hc'; by left). apply (Hh r); [|by left].
    cbn. rewrite !elem_of_cons in *. rewrite elem_of_nil in Hsub. intuition congruence.
Qed.

(** A run: [Close] is called while everything waits, and has cancelled the context. *)
Definition cancelled : engine := mkEngine (e_pos (running false)) (e_open (running false)) false (drop 1 Close_actions).
Lemma cancelled_reached : reaches false cancelled.
Proof.
  apply (rc_step false (begin_close (running false)) false); [apply rc_close; [apply rc_start|done..]|]. by apply st_close.
Qed.
Lemma close_returns_witness : (∃ e', step cancelled false e') ∧ left_to_do cancelled = 24%nat.
Proof.
  split; [|reflexivity]. destruct (close_returns false cancelled cancelled_reached eq_refl) as [H _]. apply H. discriminate.
Defined.
