(* ===== verification/Gui.v ===== *)
(** * The window: the controller of [cmd/splitwire/main_windows.go]

    The window's thread handles one message at a time; starting and stopping run on
    goroutines that answer through a channel of one place and a posted message.  The
    handlers are functions on the whole system: the fields of [gui] that decide what
    happens, the goroutines with their positions, the message queue, the sessions that
    are alive (started and not closed: [y_live]) and, kept apart from that, the contexts
    that are cancelled; the loops and the proxy of a session end with its context.  What a call of [app.Start] can do is
    what Session.v and SessionProps.v say: it looks at its context a last time and then
    returns a live session, or it returns an error and leaves nothing.  The texts of the
    controls are in GuiView.v; whether the buttons are enabled is part of the state here. *)

From S2P Require Import Prelude GoStrings Config Session.
Local Open Scope Z_scope.

(** ** The state *)
Record failure := mkFailure { fl_text : string; fl_cancelled : bool (* errors.Is(err, context.Canceled) *) }.
Record startResult := mkResult { sr_s : option nat; sr_err : option failure; sr_cancel : nat }.
Record gui := mkGui {
  g_session : option nat; g_sessionCancel : option nat; g_startCancel : option nat;
  g_starting : bool; g_stopping : bool; g_closing : bool; g_lastError : string;
  g_startResults : option startResult; g_stopResults : option (option string);
  g_startBtn : bool;      (** with the browse button and the path, which share it *)
  g_stopBtn : bool
}.
(** The goroutine of [beginStart]: in [app.Start] before and after its last look at the
    context, back from it, past the look at the root context, and past the channel. *)
Inductive starter :=
  | Running (ctx : nat)
  | Checked (ctx : nat)
  | Returned (r : startResult)
  | Sending (r : startResult)
  | Posting.
(** The goroutine of [beginStop]. *)
Inductive stopper :=
  | Closing (s : nat) (cancel : option nat)
  | Answering (err : option string)
  | Telling.
Inductive message := StartDone | StopDone.
Record system := mkSystem {
  y_gui : gui; y_starters : list starter; y_stoppers : list stopper; y_queue : list message;
  y_live : list nat; y_cancelled : list nat; y_root : bool (* the root context is live *); y_window : bool; y_next : nat
}.
Definition set_gui (g : gui) (y : system) : system :=
  mkSystem g (y_starters y) (y_stoppers y) (y_queue y) (y_live y) (y_cancelled y) (y_root y) (y_window y) (y_next y).
Definition set_starters (l : list starter) (y : system) : system :=
  mkSystem (y_gui y) l (y_stoppers y) (y_queue y) (y_live y) (y_cancelled y) (y_root y) (y_window y) (y_next y).
Definition set_stoppers (l : list stopper) (y : system) : system :=
  mkSystem (y_gui y) (y_starters y) l (y_queue y) (y_live y) (y_cancelled y) (y_root y) (y_window y) (y_next y).
Definition set_queue (l : list message) (y : system) : system :=
  mkSystem (y_gui y) (y_starters y) (y_stoppers y) l (y_live y) (y_cancelled y) (y_root y) (y_window y) (y_next y).
Definition set_live (l : list nat) (y : system) : system :=
  mkSystem (y_gui y) (y_starters y) (y_stoppers y) (y_queue y) l (y_cancelled y) (y_root y) (y_window y) (y_next y).
Definition cancel (c : nat) (y : system) : system :=
  mkSystem (y_gui y) (y_starters y) (y_stoppers y) (y_queue y) (y_live y) (c :: y_cancelled y) (y_root y) (y_window y) (y_next y).
Definition cancel_opt (c : option nat) (y : system) : system := match c with Some c => cancel c y | None => y end.
Definition fresh (y : system) : system :=
  mkSystem (y_gui y) (y_starters y) (y_stoppers y) (y_queue y) (y_live y) (y_cancelled y) (y_root y) (y_window y) (S (y_next y)).
Definition leave (y : system) : system :=
  mkSystem (y_gui y) (y_starters y) (y_stoppers y) (y_queue y) (y_live y) (y_cancelled y) false false (y_next y).
Definition is_cancelled (c : nat) (y : system) : bool := negb (y_root y) || bool_decide (c ∈ y_cancelled y).
(** [Session.Close]: once, and it waits for a close that is under way. *)
Definition close_session (s : nat) (y : system) : system := set_live (filter (fun x => x ≠ s) (y_live y)) y.
(** [postMessage]: nothing once the window is gone. *)
Definition post (m : message) (y : system) : system := if y_window y then set_queue (y_queue y ++ [m]) y else y.

(** ** The handlers *)
Definition is_some {A} (o : option A) : bool := match o with Some _ => true | None => false end.
(** [beginStart], given the text of the path, the answer of the file dialog and
    [app.Inspect]. *)
Definition beginStart (text : list Z) (dialog : option (list Z)) (inspect : list Z → Res Info) (y : system) : system :=
  let g := y_gui y in
  if g_starting g || g_stopping g || is_some (g_session g) then y else
  match (if bool_decide (text = []) then dialog else Some text) with
  | None => y
  | Some path =>
      match inspect path with
      | Ok _ =>
          let ctx := y_next y in
          fresh (set_starters (y_starters y ++ [Running ctx])
            (set_gui (mkGui (g_session g) (g_sessionCancel g) (Some ctx) true (g_stopping g) (g_closing g) "" (g_startResults g) (g_stopResults g) false true) y))
      | Err e =>
          set_gui (mkGui (g_session g) (g_sessionCancel g) (g_startCancel g) (g_starting g) (g_stopping g) (g_closing g) e
                     (g_startResults g) (g_stopResults g) (g_startBtn g) (g_stopBtn g)) y
      | _ => y
      end
  end.
Definition finishStart (y : system) : system :=
  let g := y_gui y in
  match g_startResults g with
  | None => y
  | Some r =>
      match sr_err r with
      | Some e =>
          set_gui (mkGui (g_session g) (g_sessionCancel g) None false false (g_closing g) (if fl_cancelled e then "" else fl_text e)
                     None (g_stopResults g) true false) y
      | None =>
          set_gui (mkGui (sr_s r) (Some (sr_cancel r)) None false false (g_closing g) "" None (g_stopResults g) (g_startBtn g) true) y
      end
  end.
Definition beginStop (y : system) : system :=
  let g := y_gui y in
  if g_starting g then
    set_gui (mkGui (g_session g) (g_sessionCancel g) (g_startCancel g) (g_starting g) true (g_closing g) (g_lastError g)
               (g_startResults g) (g_stopResults g) (g_startBtn g) (g_stopBtn g)) (cancel_opt (g_startCancel g) y)
  else match g_session g with
  | None => y
  | Some s =>
      if g_stopping g then y else
      set_stoppers (y_stoppers y ++ [Closing s (g_sessionCancel g)])
        (set_gui (mkGui (g_session g) (g_sessionCancel g) (g_startCancel g) (g_starting g) true (g_closing g) (g_lastError g)
                    (g_startResults g) (g_stopResults g) (g_startBtn g) false) y)
  end.
Definition finishStop (y : system) : system :=
  let g := y_gui y in
  let stopped err := set_gui (mkGui None None (g_startCancel g) (g_starting g) false (g_closing g) (default ""%string err)
                                (g_startResults g) None true false) y in
  match g_stopResults g with
  | Some err => stopped err
  | None => if g_starting g then y else stopped None
  end.
Definition closeWindow (y : system) : system :=
  let g := y_gui y in
  if g_closing g then y else
  let y := set_gui (mkGui (g_session g) (g_sessionCancel g) (g_startCancel g) (g_starting g) (g_stopping g) true (g_lastError g)
                      (g_startResults g) (g_stopResults g) (g_startBtn g) (g_stopBtn g)) y in
  let y := cancel_opt (g_startCancel g) y in
  let y := match g_session g with Some s => cancel_opt (g_sessionCancel g) (close_session s y) | None => y end in
  leave y.

(** ** The goroutines *)
(** One step of a starter; [None] when it cannot move.  [outcome] is the error of
    [app.Start], if it fails. *)
Definition starter_step (outcome : option failure) (g : starter) (y : system) : option (list starter * system) :=
  match g with
  | Running ctx =>
      match outcome with
      | Some e => Some ([Returned (mkResult None (Some e) ctx)], cancel ctx y)
      | None => if is_cancelled ctx y then None else Some ([Checked ctx], y)
      end
  | Checked ctx => let s := y_next y in Some ([Returned (mkResult (Some s) None ctx)], fresh (set_live (s :: y_live y) y))
  | Returned r =>
      match sr_s r with
      | Some s =>
          if y_root y then Some ([Sending r], y) else
          Some ([Sending (mkResult None (match sr_err r with None => Some (mkFailure "context canceled" true) | e => e end) (sr_cancel r))],
                cancel (sr_cancel r) (close_session s y))
      | None => Some ([Sending r], y)
      end
  | Sending r =>
      let g := y_gui y in
      if is_some (g_startResults g) then None else
      Some ([Posting], set_gui (mkGui (g_session g) (g_sessionCancel g) (g_startCancel g) (g_starting g) (g_stopping g) (g_closing g) (g_lastError g)
                                  (Some r) (g_stopResults g) (g_startBtn g) (g_stopBtn g)) y)
  | Posting => Some ([], post StartDone y)
  end.
(** One step of a stopper; [err] is what [Session.Close] returns. *)
Definition stopper_step (err : option string) (g : stopper) (y : system) : option (list stopper * system) :=
  match g with
  | Closing s c => Some ([Answering err], cancel_opt c (close_session s y))
  | Answering e =>
      let g := y_gui y in
      if is_some (g_stopResults g) then None else
      Some ([Telling], set_gui (mkGui (g_session g) (g_sessionCancel g) (g_startCancel g) (g_starting g) (g_stopping g) (g_closing g) (g_lastError g)
                                  (g_startResults g) (Some e) (g_startBtn g) (g_stopBtn g)) y)
  | Telling => Some ([], post StopDone y)
  end.
Definition handle (m : message) (y : system) : system := match m with StartDone => finishStart y | StopDone => finishStop y end.

(** What happens without the user, and what the user does. *)
Inductive internal : system → system → Prop :=
  | in_start y l1 g l2 outcome gs y' : y_starters y = l1 ++ g :: l2 → starter_step outcome g y = Some (gs, y') →
      internal y (set_starters (l1 ++ gs ++ l2) y')
  | in_stop y l1 g l2 err gs y' : y_stoppers y = l1 ++ g :: l2 → stopper_step err g y = Some (gs, y') →
      internal y (set_stoppers (l1 ++ gs ++ l2) y')
  | in_message y m q : y_window y = true → y_queue y = m :: q → internal y (handle m (set_queue q y)).
Inductive user : system → system → Prop :=
  | us_start y text dialog inspect : y_window y = true → user y (beginStart text dialog inspect y)
  | us_stop y : y_window y = true → user y (beginStop y)
  | us_close y : y_window y = true → user y (closeWindow y).
Definition initial : system :=
  mkSystem (mkGui None None None false false false "" None None true false) [] [] [] [] [] true true 0.
Inductive reachable : system → Prop :=
  | re_init : reachable initial
  | re_internal y y' : reachable y → internal y y' → reachable y'
  | re_user y y' : reachable y → user y y' → reachable y'.

(** ** The invariant *)
#[export] Instance message_eq_dec : EqDecision message.
Proof. solve_decision. Defined.
Fixpoint count_msg (m : message) (q : list message) : nat :=
  match q with [] => 0 | x :: q => (if decide (x = m) then 1 else 0) + count_msg m q end.
Lemma count_app m q x : count_msg m (q ++ [x]) = (count_msg m q + if decide (x = m) then 1 else 0)%nat.
Proof. induction q as [|z q IH]; cbn [count_msg app]; [destruct (decide _); done|]. rewrite IH. lia. Qed.

Definition result_ok (r : startResult) : Prop := is_some (sr_s r) = negb (is_some (sr_err r)).
Definition starter_ok (g : starter) : Prop := match g with Returned r | Sending r => result_ok r | _ => True end.
(** Where a start is: nowhere, on its goroutine, in the channel with the message still
    to be posted, or in the channel and announced. *)
Inductive start_phase : list starter → option startResult → bool → (bool → nat → Prop) → Prop :=
  | sp_idle : start_phase [] None false (fun w n => w = true → n = 0%nat)
  | sp_work g : g ≠ Posting → starter_ok g → start_phase [g] None true (fun w n => w = true → n = 0%nat)
  | sp_sent r : result_ok r → start_phase [Posting] (Some r) true (fun w n => w = true → n = 0%nat)
  | sp_posted r : result_ok r → start_phase [] (Some r) true (fun w n => w = true → n = 1%nat).
Inductive stop_phase : option nat → list stopper → option (option string) → bool → (bool → nat → Prop) → bool → Prop :=
  | pp_idle o : stop_phase o [] None false (fun w n => w = true → n = 0%nat) true
  | pp_closing s c : stop_phase (Some s) [Closing s c] None true (fun w n => w = true → n = 0%nat) true
  | pp_answering s e : stop_phase (Some s) [Answering e] None true (fun w n => w = true → n = 0%nat) false
  | pp_sent s e : stop_phase (Some s) [Telling] (Some e) true (fun w n => w = true → n = 0%nat) false
  | pp_posted s e : stop_phase (Some s) [] (Some e) true (fun w n => w = true → n = 1%nat) false.
Definition opt_list {A} (o : option A) : list A := match o with Some x => [x] | None => [] end.
Definition starter_session (g : starter) : option nat := match g with Returned r | Sending r => sr_s r | _ => None end.
Definition live_of (y : system) (still : bool) : list nat :=
  omap starter_session (y_starters y) ++ opt_list (g_startResults (y_gui y) ≫= sr_s) ++
  (if y_window y && still then opt_list (g_session (y_gui y)) else []).
Record inv (y : system) : Prop := mkInv {
  iv_start : ∃ P, start_phase (y_starters y) (g_startResults (y_gui y)) (g_starting (y_gui y)) P ∧ P (y_window y) (count_msg StartDone (y_queue y));
  iv_stop : ∃ Q still, stop_phase (g_session (y_gui y)) (y_stoppers y) (g_stopResults (y_gui y)) (g_stopping (y_gui y) && negb (g_starting (y_gui y))) Q still ∧
    Q (y_window y) (count_msg StopDone (y_queue y)) ∧ y_live y = live_of y still;
  iv_one : g_starting (y_gui y) = true → g_session (y_gui y) = None;
  iv_closing : g_closing (y_gui y) = negb (y_window y) ∧ y_root y = y_window y;
  iv_start_btn : g_startBtn (y_gui y) = negb (g_starting (y_gui y)) && negb (is_some (g_session (y_gui y)));
  iv_stop_btn : g_stopBtn (y_gui y) = g_starting (y_gui y) || is_some (g_session (y_gui y)) && negb (g_stopping (y_gui y)) }.

Lemma inv_initial : inv initial.
Proof. split; try done; [exists (fun w n => w = true → n = 0%nat); split; [constructor|done]|]. exists (fun w n => w = true → n = 0%nat), true. split_and!; [constructor|done|done]. Qed.

Lemma singleton_split {A} (x : A) l1 y l2 : [x] = l1 ++ y :: l2 → l1 = [] ∧ y = x ∧ l2 = [].
Proof. destruct l1 as [|z l1]; cbn; [by intros [= -> <-]|]. intros [= -> E]. by destruct l1. Qed.
Lemma live_singleton (s : nat) : filter (fun x => x ≠ s) [s] = [].
Proof. by rewrite filter_cons_False by (intros H; by apply H). Qed.

(** With the fields of the state in sight. *)
Ltac open_state y := destruct y as [[se sc stc sta stp cl le sres pres b1 b2] st sp q li ca ro wi nx].
Lemma inv_intro y P Q still :
  start_phase (y_starters y) (g_startResults (y_gui y)) (g_starting (y_gui y)) P → P (y_window y) (count_msg StartDone (y_queue y)) →
  stop_phase (g_session (y_gui y)) (y_stoppers y) (g_stopResults (y_gui y)) (g_stopping (y_gui y) && negb (g_starting (y_gui y))) Q still →
  Q (y_window y) (count_msg StopDone (y_queue y)) → y_live y = live_of y still →
  (g_starting (y_gui y) = true → g_session (y_gui y) = None) → g_closing (y_gui y) = negb (y_window y) → y_root y = y_window y →
  g_startBtn (y_gui y) = negb (g_starting (y_gui y)) && negb (is_some (g_session (y_gui y))) →
  g_stopBtn (y_gui y) = g_starting (y_gui y) || is_some (g_session (y_gui y)) && negb (g_stopping (y_gui y)) → inv y.
Proof. intros. split; eauto 10. Qed.

Lemma starting_live se still w : (se : option nat) = None → (if w && still then opt_list se else []) = [].
Proof. intros ->. by destruct (w && still). Qed.

Lemma step_starter y l1 g l2 outcome gs y' : inv y → y_starters y = l1 ++ g :: l2 → starter_step outcome g y = Some (gs, y') →
  inv (set_starters (l1 ++ gs ++ l2) y').
Proof.
  intros [(P & Hs & HP) (Q & still & Hq & HQ & Hl) H1 [Hc Hr] Hb1 Hb2] E Hstep. rewrite E in Hs.
  assert (Est : g_starting (y_gui y) = true) by (inversion Hs; subst; try done; by destruct l1).
  specialize (H1 Est). pose proof (starting_live _ still (y_window y) H1) as Hz. unfold live_of in Hl. rewrite Hz in Hl. 
  assert (Hg : l1 = [] ∧ l2 = [] ∧ (P = fun w n => w = true → n = 0%nat) ∧ starter_ok g ∧
    ((g ≠ Posting ∧ g_startResults (y_gui y) = None) ∨ (g = Posting ∧ ∃ r, g_startResults (y_gui y) = Some r ∧ result_ok r))).
  { inversion Hs as [| g' Hg Hgo Eg Er | r Hro Eg Er |]; try (by destruct l1); apply singleton_split in Eg as (-> & -> & ->);
      (split_and!; [done|done|done|done|]); [by left|right; eauto]. }
  destruct Hg as (-> & -> & -> & Hok & Hg). rewrite E in Hl. cbn [app] in *. rewrite app_nil_r in *.
  open_state y. cbn in *. subst se sta.
  destruct Hg as [[Hg ->]|[-> (r & -> & Hr')]]; cbn in Hl, Hstep.
  - destruct g as [ctx|ctx|r|r|]; cbn in *; try done.
    + destruct outcome as [e|].
      * injection Hstep as <- <-. eapply inv_intro; cbn; eauto; [by apply sp_work|done|].
        unfold live_of. cbn. by rewrite Hz.
      * destruct (is_cancelled _ _); [done|]. injection Hstep as <- <-. eapply inv_intro; cbn; eauto; [by apply sp_work|done|].
        unfold live_of. cbn. by rewrite Hz.
    + injection Hstep as <- <-. eapply inv_intro; cbn; eauto; [by apply sp_work|done|]. unfold live_of. cbn. rewrite Hz, Hl. done.
    + destruct (sr_s r) as [s|] eqn:Ers; [destruct ro|]; injection Hstep as <- <-; (eapply inv_intro; cbn; eauto; [apply sp_work; [done|]; cbn; unfold result_ok in *; cbn in *; rewrite ?Ers in *; try done; by destruct (sr_err r)|done|]);
        unfold live_of; cbn; rewrite ?Ers, ?Hz; cbn; rewrite Hl; cbn; rewrite ?app_nil_r; try done; exact (live_singleton s).
    + injection Hstep as <- <-. eapply inv_intro; cbn; eauto; [by apply sp_sent|done|]. unfold live_of. cbn. rewrite Hz, Hl. cbn. by destruct (sr_s r).
  - injection Hstep as <- <-. unfold post. cbn. destruct wi.
    + eapply inv_intro; [exact (sp_posted r Hr')| |exact Hq|..]; cbn; try done.
      * intros _. rewrite count_app, HP by done. done.
      * by rewrite count_app, Nat.add_0_r.
      * unfold live_of. cbn in *. by rewrite Hz, app_nil_r.
    + eapply inv_intro; [exact (sp_posted r Hr')| |exact Hq|..]; try done. unfold live_of. cbn. by rewrite app_nil_r.
Qed.

Lemma step_stopper y l1 g l2 err gs y' : inv y → y_stoppers y = l1 ++ g :: l2 → stopper_step err g y = Some (gs, y') →
  inv (set_stoppers (l1 ++ gs ++ l2) y').
Proof.
  intros [(P & Hs & HP) (Q & still & Hq & HQ & Hl) H1 [Hc Hr] Hb1 Hb2] E Hstep. rewrite E in Hq.
  assert (Hst : g_stopping (y_gui y) && negb (g_starting (y_gui y)) = true) by (inversion Hq; subst; try done; by destruct l1).
  pose proof Hst as Hst'. apply andb_true_iff in Hst' as [Hstp Hsta]. apply negb_true_iff in Hsta. rewrite Hst in Hq. rewrite Hsta in Hs.
  assert (Hi : y_starters y = [] ∧ g_startResults (y_gui y) = None) by (by inversion Hs).
  destruct Hi as [Ei Er]. unfold live_of in Hl. rewrite Ei, Er in *. cbn [omap list_omap app mbind option_bind opt_list] in Hl.
  open_state y. cbn in *. subst st sres stp sta.
  inversion Hq as [|s c Es Eg Ep|s e Es Eg Ep|s e Es Eg Ep|]; subst; try (by destruct l1); apply singleton_split in Eg as (-> & -> & ->);
    cbn in Hstep; injection Hstep as <- <-; cbn [app].
  - assert (Hl' : filter (fun x => x ≠ s) (if wi && true then [s] else []) = []) by (destruct wi; [apply live_singleton|done]).
    destruct c; (eapply inv_intro; [exact Hs|exact HP|exact (pp_answering s err)|..]); cbn; try done; unfold live_of; cbn; rewrite andb_false_r; exact Hl'.
  - by eapply inv_intro; [exact Hs|exact HP|exact (pp_sent s e)|..].
  - unfold post. cbn. destruct wi; [|by eapply inv_intro; [exact Hs|exact HP|exact (pp_posted s e)|..]].
    eapply inv_intro; [exact Hs| |exact (pp_posted s e)|..]; cbn; try done.
    + by rewrite count_app, Nat.add_0_r.
    + intros _. rewrite count_app, HQ by done. done.
Qed.

Lemma step_message y m q' : inv y → y_window y = true → y_queue y = m :: q' → inv (handle m (set_queue q' y)).
Proof.
  intros [(P & Hs & HP) (Q & still & Hq & HQ & Hl) H1 [Hc Hr] Hb1 Hb2] Ew Eq. rewrite Eq in HP, HQ. open_state y. cbn in *. subst wi q.
  destruct m; cbn [count_msg] in HP, HQ.
  - rewrite decide_True in HP by done. rewrite decide_False in HQ by done.
    assert (Hr' : st = [] ∧ ∃ r, sres = Some r ∧ result_ok r ∧ sta = true ∧ count_msg StartDone q' = 0%nat).
    { inversion Hs; subst; cbn in HP; specialize (HP eq_refl); try discriminate. split; [done|]. eexists. split_and!; try done. lia. }
    destruct Hr' as (-> & r & -> & Hro & -> & Hn). specialize (H1 eq_refl). subst se. rewrite andb_false_r in Hq.
    assert (Hp : sp = [] ∧ pres = None ∧ Q = fun w n => w = true → n = 0%nat) by (by inversion Hq). destruct Hp as (-> & -> & ->).
    unfold handle, finishStart. cbn. unfold live_of in Hl. cbn in Hl. unfold result_ok in Hro.
    destruct (sr_err r) as [e|] eqn:Eerr; cbn in Hro.
    + destruct (sr_s r); [done|]. eapply inv_intro; [exact sp_idle|intros _; exact Hn|exact (pp_idle None)|exact HQ|..]; try done.
      cbn. rewrite Hl. unfold live_of. cbn. by destruct ro, still.
    + destruct (sr_s r) as [s|] eqn:Ers; [|done]. eapply inv_intro; [exact sp_idle|intros _; exact Hn|exact (pp_idle (Some s))|exact HQ|..]; try done.
      cbn. rewrite Hl. unfold live_of. cbn. by destruct ro, still.
  - rewrite decide_False in HP by done. rewrite decide_True in HQ by done.
    assert (Hr' : ∃ s e, sp = [] ∧ se = Some s ∧ pres = Some e ∧ stp && negb sta = true ∧ still = false ∧ count_msg StopDone q' = 0%nat).
    { inversion Hq; subst; cbn in HQ; specialize (HQ eq_refl); try discriminate. do 2 eexists. split_and!; try done. lia. }
    destruct Hr' as (s & e & -> & -> & -> & Hst & -> & Hn). apply andb_true_iff in Hst as [-> Hsta]. apply negb_true_iff in Hsta. subst sta.
    unfold handle, finishStop. cbn. eapply inv_intro; [exact Hs|exact HP|exact (pp_idle None)|intros _; exact Hn|..]; try done.
    cbn. rewrite Hl. unfold live_of. cbn. by destruct ro.
Qed.

Lemma step_user y y' : inv y → user y y' → inv y'.
Proof.
  intros Hi Hu. destruct Hi as [(P & Hs & HP) (Q & still & Hq & HQ & Hl) H1 [Hc Hr] Hb1 Hb2].
  destruct Hu as [y text dialog inspect Hw|y Hw|y Hw]; open_state y; cbn in *; subst wi ro cl.
  - unfold beginStart. cbn. destruct (sta || stp || is_some se) eqn:Eg; [by eapply inv_intro|].
    apply orb_false_iff in Eg as [Eg Ese]. apply orb_false_iff in Eg as [-> ->]. destruct se; [done|].
    assert (Hn : st = [] ∧ sres = None ∧ P = fun w n => w = true → n = 0%nat) by (by inversion Hs). destruct Hn as (-> & -> & ->).
    destruct (if bool_decide (text = []) then dialog else Some text) as [path|]; [|by eapply inv_intro].
    destruct (inspect path) as [i|e| |]; [|by eapply inv_intro..].
    eapply inv_intro; [by apply (sp_work (Running nx))|exact HP|exact Hq|exact HQ|..]; try done.
  - unfold beginStop. cbn. destruct sta.
    + specialize (H1 eq_refl). subst se. rewrite andb_false_r in Hq.
      destruct stc; eapply inv_intro; cbn; rewrite ?andb_false_r; eauto.
    + destruct se as [s|]; [|by eapply inv_intro]. destruct stp; [by eapply inv_intro|].
      assert (Hn : sp = [] ∧ pres = None ∧ still = true ∧ Q = fun w n => w = true → n = 0%nat) by (by inversion Hq). destruct Hn as (-> & -> & -> & ->).
      eapply inv_intro; [exact Hs|exact HP|exact (pp_closing s sc)|exact HQ|..]; done.
  - unfold closeWindow. cbn.
    assert (Hd : ∃ P', start_phase st sres sta P' ∧ ∀ n, P' false n) by (inversion Hs; subst; eexists; (split; [by constructor|done])).
    assert (Hd2 : ∃ Q' still', stop_phase se sp pres (stp && negb sta) Q' still' ∧ ∀ n, Q' false n) by (inversion Hq; subst; do 2 eexists; (split; [by constructor|done])).
    destruct Hd as (P' & Hs' & HP'), Hd2 as (Q' & still' & Hq' & HQ').
    assert (Hlive : (match se with Some s => filter (fun x => x ≠ s) li | None => li end) = omap starter_session st ++ opt_list (sres ≫= sr_s) ++ []).
    { rewrite Hl. unfold live_of. cbn. destruct se as [s|]; [|by destruct still].
      destruct sta; [by specialize (H1 eq_refl)|]. assert (Hn : st = [] ∧ sres = None) by (by inversion Hs). destruct Hn as [-> ->]. cbn.
      destruct still; [apply live_singleton|done]. }
    destruct se as [s|], stc, sc; (eapply inv_intro; [exact Hs'|apply HP'|exact Hq'|apply HQ'|exact Hlive|..]); done.
Qed.

Lemma reachable_inv y : reachable y → inv y.
Proof.
  induction 1 as [|y y' _ IH Hi|y y' _ IH Hu]; [apply inv_initial| |by eapply step_user].
  destruct Hi; [by eapply step_starter|by eapply step_stopper|by apply step_message].
Qed.

(** ** The context of the session

    A session runs as long as its context does.  What is said of it here holds unless
    Stop is pressed while a start is under way. *)
Definition stop_in_start (y : system) : Prop := g_starting (y_gui y) = true ∧ g_stopping (y_gui y) = true.
Definition starter_ctx (g : starter) : option nat :=
  match g with Running c | Checked c => Some c | Returned r | Sending r => Some (sr_cancel r) | Posting => None end.
Definition stopper_ctx (g : stopper) : option nat := match g with Closing _ c => c | _ => None end.
Definition known_ctxs (y : system) : list nat :=
  omap starter_ctx (y_starters y) ++ omap stopper_ctx (y_stoppers y) ++ opt_list (sr_cancel <$> g_startResults (y_gui y)) ++
  opt_list (g_sessionCancel (y_gui y)) ++ y_cancelled y.
(** The context that a start under way will give its session. *)
Definition result_ctx (r : startResult) : option nat := if is_some (sr_s r) then Some (sr_cancel r) else None.
Definition coming_ctx (g : starter) : option nat :=
  match g with Running c | Checked c => Some c | Returned r | Sending r => result_ctx r | Posting => None end.
Record contexts (y : system) : Prop := mkContexts {
  cx_known : Forall (fun c => (c < y_next y)%nat) (known_ctxs y);
  cx_coming : Forall (fun c => c ∉ y_cancelled y) (omap coming_ctx (y_starters y) ++ opt_list (g_startResults (y_gui y) ≫= result_ctx));
  cx_session : ∀ s, g_session (y_gui y) = Some s → g_stopping (y_gui y) = false → ∃ c, g_sessionCancel (y_gui y) = Some c ∧ c ∉ y_cancelled y }.
(** As long as the window is there. *)
Definition ctx_ok (y : system) : Prop := y_window y = true → contexts y.
Ltac ctx_split := repeat match goal with
  | H : context [Forall _ (_ ++ _)] |- _ => rewrite List.Forall_app in H
  | H : context [Forall _ (_ :: _)] |- _ => rewrite List.Forall_cons_iff in H
  | |- context [Forall _ (_ ++ _)] => rewrite List.Forall_app
  | |- context [Forall _ (_ :: _)] => rewrite List.Forall_cons_iff
  end.

Lemma ctx_initial : ctx_ok initial.
Proof. intros _. by split; try constructor. Qed.
Lemma below_S l n : Forall (fun c => (c < n)%nat) l → Forall (fun c => (c < S n)%nat) l.
Proof. intros H. eapply List.Forall_impl; [|exact H]. cbn. lia. Qed.
Lemma post_window m y : y_window (post m y) = y_window y.
Proof. unfold post. by destruct (y_window y) eqn:E. Qed.
Lemma starter_window outcome g y gs y' : starter_step outcome g y = Some (gs, y') → y_window y' = y_window y.
Proof.
  destruct g as [c|c|r|r|]; cbn; intros E; [destruct outcome; [|destruct (is_cancelled _ _); [done|]]| |destruct (sr_s r); [destruct (y_root y)|]|destruct (is_some _); [done|]|];
    injection E as <- <-; try done. apply post_window.
Qed.
Lemma stopper_window err g y gs y' : stopper_step err g y = Some (gs, y') → y_window y' = y_window y.
Proof. destruct g as [s c|e|]; cbn; intros E; [|destruct (is_some _); [done|]|]; injection E as <- <-; try done; [by destruct c|apply post_window]. Qed.
Lemma ctx_starter y l1 g l2 outcome gs y' : inv y → ctx_ok y → y_starters y = l1 ++ g :: l2 → starter_step outcome g y = Some (gs, y') →
  ctx_ok (set_starters (l1 ++ gs ++ l2) y').
Proof.
  intros [(P & Hs & HP) _ H1 [_ Hroot] _ _] Hx E Hstep Hw. rewrite E in Hs.
  assert (Est : g_starting (y_gui y) = true) by (inversion Hs; subst; try done; by destruct l1). specialize (H1 Est).
  assert (Hg : l1 = [] ∧ l2 = [] ∧ (g = Posting ∨ g_startResults (y_gui y) = None)).
  { inversion Hs as [|g' Hg Hgo Eg Er|r Hro Eg Er|]; try (by destruct l1); apply singleton_split in Eg as (-> & -> & ->); auto. }
  destruct Hg as (-> & -> & Hg). cbn [app] in *. rewrite app_nil_r in *.
  assert (Hw' : y_window y = true) by (rewrite <- (starter_window _ _ _ _ _ Hstep); exact Hw).
  specialize (Hx Hw'). destruct Hx as [Hk Hc Hse]. open_state y. unfold known_ctxs in *. cbn in *. subst se st sta wi ro.
  destruct g as [c|c|r|r|]; cbn in *.
  - destruct Hg as [Hg| ->]; [done|]. destruct outcome as [e|]; [|unfold is_cancelled in Hstep; cbn in Hstep; case_bool_decide; [done|]]; injection Hstep as <- <-.
    + split; cbn; [ctx_split; tauto|by constructor|done].
    + by split.
  - destruct Hg as [Hg| ->]; [done|]. injection Hstep as <- <-. split; cbn; [by apply below_S|done|done].
  - destruct Hg as [Hg| ->]; [done|]. destruct (sr_s r) eqn:Er; injection Hstep as <- <-; by split.
  - destruct Hg as [Hg| ->]; [done|]. injection Hstep as <- <-. split; cbn in *; [ctx_split; tauto|by destruct (result_ctx r)|done].
  - injection Hstep as <- <-. by split.
Qed.
Lemma ctx_stopper y l1 g l2 err gs y' : inv y → ctx_ok y → y_stoppers y = l1 ++ g :: l2 → stopper_step err g y = Some (gs, y') →
  ctx_ok (set_stoppers (l1 ++ gs ++ l2) y').
Proof.
  intros [(P & Hs & HP) (Q & still & Hq & _) _ _ _ _] Hx E Hstep Hw. rewrite E in Hq.
  assert (Hst : g_stopping (y_gui y) && negb (g_starting (y_gui y)) = true) by (inversion Hq; subst; try done; by destruct l1).
  assert (Hl : l1 = [] ∧ l2 = []) by (inversion Hq as [o Ho|s c Es Eg|s e Es Eg|s e Es Eg|s e Es Eg]; try (by destruct l1); by apply singleton_split in Eg as (-> & _ & ->)).
  destruct Hl as [-> ->]. apply andb_true_iff in Hst as [Hstp Hsta]. apply negb_true_iff in Hsta. rewrite Hsta in Hs.
  assert (Hi : y_starters y = [] ∧ g_startResults (y_gui y) = None) by (by inversion Hs). destruct Hi as [Ei Er].
  assert (Hw' : y_window y = true) by (rewrite <- (stopper_window _ _ _ _ _ Hstep); exact Hw).
  specialize (Hx Hw'). destruct Hx as [Hk Hc Hse]. open_state y. unfold known_ctxs in *. cbn in *. subst st sres stp sta sp wi.
  destruct g as [s c|e|]; cbn in *.
  - injection Hstep as <- <-. destruct c; (split; cbn in *; [ctx_split; tauto|constructor|done]).
  - destruct (is_some pres); [done|]. injection Hstep as <- <-. by split.
  - injection Hstep as <- <-. by split.
Qed.
Lemma ctx_message y m q' : inv y → ctx_ok y → y_window y = true → y_queue y = m :: q' → ctx_ok (handle m (set_queue q' y)).
Proof.
  intros Hi Hx Hw Eq _. specialize (Hx Hw). destruct Hx as [Hk Hc Hse].
  destruct Hi as [(P & Hs & HP) _ H1 _ _ _]. open_state y. unfold known_ctxs in *. cbn in *. subst wi q. destruct m; cbn.
  - unfold finishStart. cbn. destruct sres as [r|] eqn:Er; [|by split].
    assert (Hr : sta = true ∧ st = [] ∨ sta = true ∧ st = [Posting]) by (inversion Hs; auto).
    assert (Hst : omap starter_ctx st = [] ∧ omap coming_ctx st = []) by (by destruct Hr as [[_ ->]|[_ ->]]). destruct Hst as [Es1 Es2].
    assert (se = None) as -> by (apply H1; by destruct Hr as [[? _]|[? _]]). rewrite Es1, Es2 in *.
    destruct (sr_err r) as [e|] eqn:Ee; split; unfold known_ctxs; cbn; rewrite ?Es1, ?Es2; cbn in *.
    + ctx_split. tauto.
    + constructor.
    + done.
    + ctx_split. tauto.
    + constructor.
    + intros s Es _. exists (sr_cancel r). split; [done|]. unfold result_ctx in Hc. rewrite Es in Hc. cbn in Hc. ctx_split. tauto.
  - unfold finishStop. cbn.
    assert (Hn : contexts (mkSystem (mkGui None None stc sta false cl le sres None true false) st sp q' li ca ro true nx)).
    { split; unfold known_ctxs; cbn; [ctx_split; tauto|done|done]. }
    destruct pres as [e|]; [by destruct Hn; split|]. destruct sta; [by split|by destruct Hn; split].
Qed.
Lemma ctx_user y y' : inv y → ctx_ok y → user y y' → ¬ stop_in_start y' → ctx_ok y'.
Proof.
  intros Hi Hx Hu Hn Hw'. destruct Hu as [y text dialog inspect Hw|y Hw|y Hw]; specialize (Hx Hw).
  - destruct Hi as [(P & Hs & HP) _ H1 _ _ _]. destruct Hx as [Hk Hc Hse]. open_state y. unfold known_ctxs in *. cbn in *. unfold beginStart. cbn.
    destruct (sta || stp || is_some se) eqn:Eg; [by split|]. apply orb_false_iff in Eg as [Eg Ese]. apply orb_false_iff in Eg as [-> ->]. destruct se; [done|].
    assert (Hidle : st = [] ∧ sres = None) by (by inversion Hs). destruct Hidle as [-> ->].
    destruct (if bool_decide (text = []) then dialog else Some text) as [path|]; [|by split].
    destruct (inspect path) as [i|e| |]; [|by split..]. cbn in *. split; unfold known_ctxs; cbn; [|constructor; [|constructor]|done].
    + constructor; [lia|]. by apply below_S.
    + intros Hin. ctx_split. destruct Hk as (_ & _ & Hk). apply (Forall_elem _ _ nx) in Hk; [cbn in Hk; lia|done].
  - destruct Hx as [Hk Hc Hse]. open_state y. unfold known_ctxs, beginStop in *. cbn in *. destruct sta; [by destruct Hn; destruct stc|].
    destruct se as [s|]; [|by split]. destruct stp; [by split|]. split; unfold known_ctxs; cbn; [|done|done].
    rewrite omap_app. destruct sc; cbn in *; ctx_split; cbn; ctx_split; intuition auto.
  - exfalso. destruct Hi as [_ _ _ [Hcl _] _ _]. unfold closeWindow in Hw'. rewrite Hcl, Hw in Hw'. cbn [negb] in Hw'.
    by destruct (g_session (y_gui y)), (g_startCancel (y_gui y)), (g_sessionCancel (y_gui y)).
Qed.
Lemma ctx_internal y y' : inv y → ctx_ok y → internal y y' → ctx_ok y'.
Proof. intros Hi Hx Hs. destruct Hs; [by eapply ctx_starter|by eapply ctx_stopper|by apply ctx_message]. Qed.

(** ** What the window promises *)
(** C15: there is never more than one session.  In every interleaving of the user, the
    messages and the goroutines at most one session is alive; while one is, or one is
    being started or stopped, pressing Start does nothing; a session that is shown and
    not being stopped is alive; and the buttons say what can be done: Start is enabled
    exactly when it would be obeyed, Stop exactly when there is something to stop. *)
Theorem gui_one_session y : reachable y →
  (length (y_live y) <= 1)%nat ∧
  (y_live y ≠ [] → y_window y = true → ∀ text dialog inspect, beginStart text dialog inspect y = y) ∧
  (∀ s, y_window y = true → g_session (y_gui y) = Some s → g_stopping (y_gui y) = false → y_live y = [s]) ∧
  g_startBtn (y_gui y) = negb (g_starting (y_gui y)) && negb (is_some (g_session (y_gui y))) ∧
  g_stopBtn (y_gui y) = g_starting (y_gui y) || is_some (g_session (y_gui y)) && negb (g_stopping (y_gui y)).
Proof.
  intros H. destruct (reachable_inv y H) as [(P & Hs & HP) (Q & still & Hq & HQ & Hl) H1 _ Hb1 Hb2]. open_state y. unfold live_of in Hl. cbn in *.
  split_and!; try done.
  - rewrite Hl. destruct sta; [rewrite (H1 eq_refl)|]; inversion Hs as [|g|r|r]; subst; cbn.
    + destruct (starter_session g); cbn; destruct (wi && still); cbn; lia.
    + destruct (sr_s r); cbn; destruct (wi && still); cbn; lia.
    + destruct (sr_s r); cbn; destruct (wi && still); cbn; lia.
    + destruct (wi && still), se; cbn; lia.
  - intros Hne ->. intros. unfold beginStart. cbn. destruct sta; [done|]. destruct se as [s|]; [by rewrite orb_true_r|].
    destruct Hne. rewrite Hl. inversion Hs; subst. cbn. by destruct still.
  - intros s -> -> ->. destruct sta; [by specialize (H1 eq_refl)|]. cbn in Hq. inversion Hq; subst. inversion Hs; subst. done.
Qed.

(** How much is left to do without the user. *)
Definition starter_work (g : starter) : nat :=
  match g with Running _ => 6 | Checked _ => 5 | Returned _ => 4 | Sending _ => 3 | Posting => 2 end.
Definition stopper_work (g : stopper) : nat := match g with Closing _ _ => 4 | Answering _ => 3 | Telling => 2 end.
Definition work (y : system) : nat :=
  sum_list_with starter_work (y_starters y) + sum_list_with stopper_work (y_stoppers y) + length (y_queue y).

Lemma post_work m y : (length (y_queue (post m y)) <= S (length (y_queue y)))%nat ∧ y_starters (post m y) = y_starters y ∧ y_stoppers (post m y) = y_stoppers y.
Proof. unfold post. destruct (y_window y); cbn; [rewrite length_app; cbn; split_and!; [lia|done|done]|split_and!; [lia|done|done]]. Qed.
Lemma cancel_opt_same c y : y_queue (cancel_opt c y) = y_queue y ∧ y_starters (cancel_opt c y) = y_starters y ∧ y_stoppers (cancel_opt c y) = y_stoppers y.
Proof. by destruct c. Qed.
Lemma handle_same m y : y_queue (handle m y) = y_queue y ∧ y_starters (handle m y) = y_starters y ∧ y_stoppers (handle m y) = y_stoppers y.
Proof. destruct m; unfold handle, finishStart, finishStop; repeat case_match; done. Qed.

Lemma starter_step_work outcome g y gs y' : starter_step outcome g y = Some (gs, y') →
  (sum_list_with starter_work gs + length (y_queue y') < starter_work g + length (y_queue y))%nat ∧ y_stoppers y' = y_stoppers y.
Proof.
  destruct g as [c|c|r|r|]; cbn; intros H.
  5: { injection H as <- <-. destruct (post_work StartDone y) as (? & ? & ?). cbn. split; [lia|done]. }
  all: repeat case_match; simplify_eq/=; split; try done; lia.
Qed.
Lemma stopper_step_work err g y gs y' : stopper_step err g y = Some (gs, y') →
  (sum_list_with stopper_work gs + length (y_queue y') < stopper_work g + length (y_queue y))%nat ∧ y_starters y' = y_starters y.
Proof.
  destruct g as [s c|e|]; cbn; intros H.
  3: { injection H as <- <-. destruct (post_work StopDone y) as (? & ? & ?). cbn. split; [lia|done]. }
  - injection H as <- <-. destruct (cancel_opt_same c (close_session s y)) as (-> & -> & _). cbn. split; [lia|done].
  - case_match; [done|]. injection H as <- <-. cbn. split; [lia|done].
Qed.
Lemma internal_work y y' : internal y y' → (work y' < work y)%nat.
Proof.
  unfold work. intros [y0 l1 g l2 o gs y1 E H|y0 l1 g l2 o gs y1 E H|y0 m q Hw E]; cbn.
  - apply starter_step_work in H as [H ->]. rewrite E, !sum_list_with_app. cbn. lia.
  - apply stopper_step_work in H as [H ->]. rewrite E, !sum_list_with_app. cbn. lia.
  - destruct (handle_same m (set_queue q y0)) as (-> & -> & ->). rewrite E. cbn. lia.
Qed.

(** C16: the window never gets stuck.  Left alone, it settles: every step that needs no
    user brings it nearer, so that no run of them goes on for ever, and where none is
    left the window neither starts nor stops, nothing runs in the background, exactly
    the session it shows is alive, and exactly one of the two buttons is enabled. *)
Theorem gui_settles y : reachable y → y_window y = true →
  (∀ y', internal y y' → (work y' < work y)%nat) ∧
  ((∀ y', ¬ internal y y') →
    g_starting (y_gui y) = false ∧ g_stopping (y_gui y) = false ∧ y_starters y = [] ∧ y_stoppers y = [] ∧
    y_live y = opt_list (g_session (y_gui y)) ∧ g_startBtn (y_gui y) = negb (is_some (g_session (y_gui y))) ∧
    g_stopBtn (y_gui y) = is_some (g_session (y_gui y))).
Proof.
  intros H Hw. split; [intros y'; apply internal_work|]. intros Hstuck.
  destruct (reachable_inv y H) as [(P & Hs & HP) (Q & still & Hq & HQ & Hl) H1 _ Hb1 Hb2].
  assert (Eq : y_queue y = []) by (destruct (y_queue y) eqn:E; [done|]; exfalso; by eapply Hstuck, in_message).
  assert (Hnos : ∀ outcome g gs y', y_starters y = [g] → starter_step outcome g y = Some (gs, y') → False).
  { intros o g gs y' E Hg. eapply Hstuck. by apply (in_start y [] g [] o gs y'). }
  assert (Hnop : ∀ err g gs y', y_stoppers y = [g] → stopper_step err g y = Some (gs, y') → False).
  { intros o g gs y' E Hg. eapply Hstuck. by apply (in_stop y [] g [] o gs y'). }
  rewrite Eq in HP, HQ. open_state y. unfold live_of in Hl. cbn in *. subst wi q.
  inversion Hs as [|g Hg Hgo|r Hro|r Hro]; subst.
  - cbn in *. rewrite andb_true_r in Hq. inversion Hq as [|s c|s e|s e|s e]; subst; cbn in *; try (by specialize (HQ eq_refl)); try by exfalso; eapply (Hnop None).
    split_and!; try done; by rewrite ?andb_true_r.
  - exfalso. destruct g as [c|c|r|r|]; try done.
    + by eapply (Hnos (Some (mkFailure "" true))).
    + by eapply (Hnos None).
    + cbn in Hgo. destruct (sr_s r) eqn:E, ro; eapply (Hnos None); [done|cbn; by rewrite E|done|cbn; by rewrite E|done|cbn; by rewrite E|done|cbn; by rewrite E].
    + by eapply (Hnos None).
  - exfalso. by eapply (Hnos None).
  - by specialize (HP eq_refl).
Qed.

(** ** Runs *)
Definition advance (outcome : option failure) (y : system) : system :=
  match y_starters y with
  | g :: l => match starter_step outcome g y with Some (gs, y') => set_starters (gs ++ l) y' | None => y end
  | [] => y
  end.
Definition deliver (y : system) : system :=
  match y_queue y with m :: q => if y_window y then handle m (set_queue q y) else y | [] => y end.
Lemma advance_reachable o y : reachable y → reachable (advance o y).
Proof.
  intros H. unfold advance. destruct (y_starters y) as [|g l] eqn:E; [done|]. destruct (starter_step o g y) as [[gs y']|] eqn:Eg; [|done].
  eapply re_internal; [exact H|]. by apply (in_start y [] g l o gs y').
Qed.
Lemma deliver_reachable y : reachable y → reachable (deliver y).
Proof.
  intros H. unfold deliver. destruct (y_queue y) as [|m q] eqn:E; [done|]. destruct (y_window y) eqn:Ew; [|done].
  eapply re_internal; [exact H|]. by apply in_message.
Qed.
Definition no_info : Info := mkInfo [] [] false [] [] [] [] 0.
Definition press_start (y : system) : system := if y_window y then beginStart (lit "c") None (fun _ => Ok no_info) y else y.
Definition press_stop (y : system) : system := if y_window y then beginStop y else y.
Definition press_close (y : system) : system := if y_window y then closeWindow y else y.
Lemma press_reachable y : reachable y → reachable (press_start y) ∧ reachable (press_stop y) ∧ reachable (press_close y).
Proof.
  intros H. unfold press_start, press_stop, press_close. destruct (y_window y) eqn:E; [|done].
  split_and!; (eapply re_user; [exact H|]); by constructor.
Qed.
Definition connected : system :=
  deliver (advance None (advance None (advance None (advance None (advance None (press_start initial)))))).
Lemma connected_reachable : reachable connected.
Proof. unfold connected. apply deliver_reachable. do 5 apply advance_reachable. apply (press_reachable initial re_init). Qed.

Lemma gui_one_session_witness : g_session (y_gui connected) = Some 1%nat ∧ (length (y_live connected) <= 1)%nat ∧ y_live connected = [1%nat].
Proof.
  destruct (gui_one_session connected connected_reachable) as (H1 & _ & H3 & _).
  split; [reflexivity|]. split; [exact H1|]. apply (H3 1%nat); reflexivity.
Defined.
Lemma quiet_stuck y y' : y_starters y = [] → y_stoppers y = [] → y_queue y = [] → ¬ internal y y'.
Proof.
  intros E1 E2 E3 H. destruct H as [y l1 g l2 o gs y' E|y l1 g l2 o gs y' E|y m q _ E];
    [rewrite E1 in E; by destruct l1|rewrite E2 in E; by destruct l1|congruence].
Qed.
Lemma gui_settles_witness : g_starting (y_gui connected) = false ∧ y_live connected = [1%nat] ∧ g_stopBtn (y_gui connected) = true.
Proof.
  destruct (gui_settles connected connected_reachable eq_refl) as [_ H].
  destruct (H (fun y' => quiet_stuck connected y' eq_refl eq_refl eq_refl)) as (H1 & _ & _ & _ & H5 & _ & H7).
  split; [exact H1|]. split; [exact H5|exact H7].
Defined.

(** Stop pressed in the last moment of a start: the request is forgotten, and the window
    shows as connected a session whose context is cancelled. *)
Definition stop_too_late : system :=
  deliver (advance None (advance None (advance None (advance None (press_stop (advance None (press_start initial))))))).
Lemma stop_is_lost : reachable stop_too_late ∧ (∀ y', ¬ internal stop_too_late y') ∧
  ∃ s c, g_session (y_gui stop_too_late) = Some s ∧ g_stopping (y_gui stop_too_late) = false ∧
    g_sessionCancel (y_gui stop_too_late) = Some c ∧ is_cancelled c stop_too_late = true.
Proof.
  split; [|split].
  - unfold stop_too_late. apply deliver_reachable. do 4 apply advance_reachable.
    apply press_reachable, advance_reachable. apply (press_reachable initial re_init).
  - intros y'. by apply quiet_stuck.
  - exists 1%nat, 0%nat. repeat split; vm_compute; reflexivity.
Qed.
(** The window closed between the goroutine's look at the root context and the message:
    nobody closes the session. *)
Definition close_too_late : system :=
  advance None (advance None (press_close (advance None (advance None (advance None (press_start initial)))))).
Lemma close_leaks : reachable close_too_late ∧ (∀ y', ¬ internal close_too_late y') ∧ y_window close_too_late = false ∧ y_live close_too_late = [1%nat].
Proof.
  split; [|split].
  - unfold close_too_late. do 2 apply advance_reachable. apply press_reachable. do 3 apply advance_reachable. apply (press_reachable initial re_init).
  - intros y'. by apply quiet_stuck.
  - split; vm_compute; reflexivity.
Qed.
