(* ===== verification/GuiText.v ===== *)
(** * The window: its files and texts ([cmd/splitwire/main_windows.go])

    The end-of-line conversion for the log control and its refresh from the ring, the
    tail of the old log that is read at startup, the rotation of the log file, and the
    configuration named on the command line. *)

From S2P Require Import Prelude GoStrings HostPort BrowserProxy LogHub WinUtil.
Local Open Scope Z_scope.

Definition cr : Z := 13.
Definition lf : Z := 10.
(** [strings.ReplaceAll(s, "\r\n", "\n")] *)
Fixpoint replace_crlf (s : list Z) : list Z :=
  match s with
  | [] => []
  | c :: rest =>
      if c =? cr then
        match rest with
        | d :: rest' => if d =? lf then lf :: replace_crlf rest' else cr :: replace_crlf rest
        | [] => [cr]
        end
      else c :: replace_crlf rest
  end.
Definition normalizeEditNewlines (s : list Z) : list Z :=
  replace_with lf [cr; lf] (replace_with cr [lf] (replace_crlf s)).
(** The text of the log control after a refresh. *)
Definition refreshLogRing (r : Ring) (edit : list Z) : Ring * list Z :=
  let (r, d) := DrainAndAck r in
  let text := normalizeEditNewlines (Text d) in
  (r, if Replace d then text else if bool_decide (text = []) then edit else edit ++ text).

(** [tailFile], for a file that can be read ([None]: it cannot). *)
Definition tailFile (file : option (list Z)) (limit : Z) : Res (list Z) :=
  match file with
  | None => Ok []
  | Some content =>
      let start := if blen content - limit <? 0 then 0 else blen content - limit in
      let b := limit_reader limit (drop (Z.to_nat start) content) in
      if 0 <? start then
        let i := index_byte b lf in
        if (0 <=? i) && (i + 1 <? blen b) then slice b (i + 1) (blen b) else Ok b
      else Ok b
  end.
(** [openLog]: the rotation; [renamed] is whether [os.Rename] succeeds. *)
Definition rotate_limit : Z := 5 * 1024 * 1024.
Definition openLog (renamed : bool) (path : list Z) (fs : files) : files :=
  let old := path ++ lit ".1" in
  let fs := match fs !! path with
            | Some c => if rotate_limit <? blen c then
                          let fs := delete old fs in if renamed then <[old := c]> (delete path fs) else fs
                        else fs
            | None => fs
            end in
  match fs !! path with Some _ => fs | None => <[path := []]> fs end.

Section Args.
Context {U : Unicode} (Abs : list Z → option (list Z)).
Definition arg_abs (p : list Z) : list Z :=
  let p := Trim (TrimSpace p) [34] in default p (Abs p).
(** [configArg], on the arguments after the program's name. *)
Fixpoint configArg (args : list (list Z)) : list Z :=
  match args with
  | [] => []
  | a :: rest =>
      if bool_decide (a = lit "--config") || bool_decide (a = lit "-c") then
        match rest with v :: _ => arg_abs v | [] => configArg rest end
      else if negb (HasPrefix a (lit "-")) then arg_abs a else configArg rest
  end.
End Args.

(** ** End-of-line conversion *)
(** The lines of a text, whatever ends them. *)
Fixpoint text_lines (s : list Z) (skip : bool) : list (list Z) :=
  match s with
  | [] => [[]]
  | c :: rest =>
      if (c =? lf) && skip then text_lines rest false else
      if (c =? lf) || (c =? cr) then [] :: text_lines rest (c =? cr) else
      match text_lines rest false with l :: ls => (c :: l) :: ls | [] => [[c]] end
  end.
Lemma text_lines_cons s b : ∃ l ls, text_lines s b = l :: ls.
Proof. revert b. induction s as [|c s IH]; intros b; cbn; [eauto|]. destruct ((c =? lf) && b); [apply IH|]. destruct (_ || _); [eauto|]. destruct (IH false) as (l & ls & ->). eauto. Qed.
Definition ends (s : list Z) : list Z := replace_with lf [cr; lf] (replace_with cr [lf] s).
Lemma ends_cons c s : ends (c :: s) = (if (c =? lf) || (c =? cr) then [cr; lf] else [c]) ++ ends s.
Proof.
  unfold ends, replace_with. cbn [flat_map]. destruct (Z.eqb_spec c cr) as [->|Hc]; cbn; [done|].
  destruct (Z.eqb_spec c lf) as [->|Hl]; cbn; [done|]. done.
Qed.
Lemma Join_first c l ls : Join ((c :: l) :: ls) [cr; lf] = c :: Join (l :: ls) [cr; lf].
Proof. by destruct ls. Qed.
Lemma normalize_run n : ∀ s, (length s <= n)%nat → ends (replace_crlf s) = Join (text_lines s false) [cr; lf].
Proof.
  induction n as [|n IH]; intros s Hn; [destruct s; [done|cbn in Hn; lia]|].
  destruct s as [|c s]; [done|]. cbn in Hn. cbn [replace_crlf text_lines]. rewrite andb_false_r.
  assert (Hnl : ∀ ls l, Join ([] :: l :: ls) [cr; lf] = [cr; lf] ++ Join (l :: ls) [cr; lf]) by done.
  destruct (Z.eqb_spec c cr) as [->|Hc].
  - rewrite orb_true_r. destruct s as [|d s]; [done|]. destruct (Z.eqb_spec d lf) as [->|Hd].
    + rewrite ends_cons. cbn [text_lines]. rewrite Z.eqb_refl. cbn [andb orb]. rewrite IH by (cbn in Hn; lia).
      destruct (text_lines_cons s false) as (l & ls & ->). by rewrite Hnl.
    + rewrite ends_cons, Z.eqb_refl, orb_true_r. rewrite IH by (cbn in *; lia).
      assert (E : text_lines (d :: s) true = text_lines (d :: s) false) by (cbn; by rewrite (proj2 (Z.eqb_neq d lf) Hd)). rewrite E.
      destruct (text_lines_cons (d :: s) false) as (l & ls & ->). by rewrite Hnl.
  - rewrite ends_cons, (proj2 (Z.eqb_neq c cr) Hc), !orb_false_r. rewrite IH by lia.
    destruct (text_lines_cons s false) as (l & ls & E). rewrite E. destruct (Z.eqb_spec c lf) as [->|Hl]; [by rewrite Hnl|].
    symmetry. apply Join_first.
Qed.
(** The control gets the same lines, each ended by CR LF. *)
Lemma normalize_lines s : normalizeEditNewlines s = Join (text_lines s false) [cr; lf].
Proof. by apply (normalize_run (length s)). Qed.

Lemma normalize_app s t : cr ∉ s → cr ∉ t → normalizeEditNewlines (s ++ t) = normalizeEditNewlines s ++ normalizeEditNewlines t.
Proof.
  assert (H : ∀ s, cr ∉ s → replace_crlf s = s).
  { induction s0 as [|c s0 IH]; [done|]. intros [Hc Hs]%not_elem_of_cons. cbn. rewrite (proj2 (Z.eqb_neq c cr)) by congruence. by rewrite IH. }
  intros Hs Ht. unfold normalizeEditNewlines. rewrite !H by (rewrite ?elem_of_app; tauto). unfold replace_with. by rewrite !flat_map_app.
Qed.
(** A refresh keeps the control at the conversion of what the ring's consumer has seen. *)
Lemma refreshLogRing_view r edit view : cr ∉ view → cr ∉ Text (snd (DrainAndAck r)) → edit = normalizeEditNewlines view →
  snd (refreshLogRing r edit) = normalizeEditNewlines (show (snd (DrainAndAck r)) view).
Proof.
  intros Hv Ht ->. unfold refreshLogRing, show. destruct (DrainAndAck r) as [r' d]. cbn in *. destruct (Replace d); [done|].
  rewrite normalize_app by done. destruct (bool_decide_reflect (normalizeEditNewlines (Text d) = [])) as [->|]; [by rewrite app_nil_r|done].
Qed.

(** ** The log files *)
(** What is shown of the old log is the end of it, at most [limit] bytes, and starts at
    the beginning of a line if anything was cut off before one. *)
Lemma tailFile_spec content limit : 0 <= limit → ∃ a b, tailFile (Some content) limit = Ok b ∧ content = a ++ b ∧ blen b <= limit ∧
  (a ≠ [] → (∃ a', a = a' ++ [lf]) ∨ lf ∉ b ∨ ∃ b', b = b' ++ [lf] ∧ lf ∉ b').
Proof.
  intros Hl. unfold tailFile. set (start := if blen content - limit <? 0 then 0 else blen content - limit).
  assert (Hst : 0 <= start <= blen content ∧ blen content - start <= limit) by (unfold start; destruct (Z.ltb_spec (blen content - limit) 0); unfold blen in *; lia).
  set (d := drop (Z.to_nat start) content).
  assert (Hd : blen d = blen content - start) by (unfold d, blen in *; rewrite length_drop; lia).
  assert (El : limit_reader limit d = d) by (unfold limit_reader; apply take_ge; unfold blen in *; lia). rewrite El.
  assert (Ed : content = take (Z.to_nat start) content ++ d) by (symmetry; apply take_drop).
  destruct (Z.ltb_spec 0 start) as [Hs|Hs].
  2: { exists [], d. split_and!; [done|unfold d; by replace (Z.to_nat start) with 0%nat by lia|lia|done]. }
  cbv zeta. destruct (Z.leb_spec 0 (index_byte d lf)) as [Hi|Hi]; cbn [andb].
  2: { exists (take (Z.to_nat start) content), d. split_and!; [done|done|lia|]. intros _. right. left. apply index_byte_none. lia. }
  destruct (index_byte_split d lf Hi) as (x & z & Ex & Hx & Ei).
  destruct (Z.ltb_spec (index_byte d lf + 1) (blen d)) as [Hlt|Hge].
  - exists (take (Z.to_nat start) content ++ x ++ [lf]), z. split_and!.
    + rewrite Ei, Ex. replace (x ++ lf :: z) with ((x ++ [lf]) ++ z) by (by rewrite <- app_assoc).
      replace (blen x + 1) with (blen (x ++ [lf])) by (unfold blen; rewrite length_app; cbn; lia). by apply slice_tail.
    + rewrite Ed at 1. rewrite Ex, <- !app_assoc. done.
    + rewrite Ex in Hd. unfold blen in *. rewrite length_app in Hd. cbn in Hd. lia.
    + intros _. left. eexists. by rewrite app_assoc.
  - exists (take (Z.to_nat start) content), d. split_and!; [done|done|lia|]. intros _. right. right. exists x.
    assert (z = []) as ->. { rewrite Ei, Ex in Hge. unfold blen in Hge. rewrite length_app in Hge. cbn in Hge. destruct z; [done|cbn in Hge; lia]. }
    split; [done|done].
Qed.

(** After [openLog] the log is there; one that had grown past the limit is under its old
    name, whole, and the new one empty, unless the renaming failed; no other file
    changes. *)
Lemma openLog_spec renamed path fs :
  let fs' := openLog renamed path fs in
  is_Some (fs' !! path) ∧ (∀ p, p ≠ path → p ≠ path ++ lit ".1" → fs' !! p = fs !! p) ∧
  (∀ c, fs !! path = Some c → rotate_limit < blen c → renamed = true → fs' !! path = Some [] ∧ fs' !! (path ++ lit ".1") = Some c) ∧
  (∀ c, fs !! path = Some c → blen c <= rotate_limit → fs' = fs).
Proof.
  unfold openLog. cbv zeta.
  assert (Hne : path ≠ path ++ lit ".1") by (intros E; apply (f_equal length) in E; rewrite length_app in E; cbn in E; lia).
  destruct (fs !! path) as [c|] eqn:Ef; [destruct (Z.ltb_spec rotate_limit (blen c)) as [Hc|Hc]; [destruct renamed|]|].
  - rewrite lookup_insert_ne, lookup_delete_eq by done. split_and!.
    + rewrite lookup_insert_eq. eauto.
    + intros p Hp Hp'. by rewrite !lookup_insert_ne, !lookup_delete_ne by done.
    + intros c' [= <-] _ _. rewrite lookup_insert_eq. by rewrite lookup_insert_ne, lookup_insert_eq by done.
    + intros c' [= <-]. lia.
  - rewrite lookup_delete_ne, Ef by done. split_and!; [rewrite lookup_delete_ne, Ef by done; eauto|intros; by rewrite lookup_delete_ne by done|done|].
    intros c' [= <-]. lia.
  - rewrite Ef. split_and!; [rewrite Ef; eauto|done|intros c' [= <-]; lia|done].
  - rewrite Ef. split_and!; [rewrite lookup_insert_eq; eauto|intros; by rewrite lookup_insert_ne by done|done|done].
Qed.
