(* ===== verification/GuiLayout.v ===== *)
(** * The window: where the controls are ([layout] of [cmd/splitwire/main_windows.go])

    [sizeFromLParam] and [layout] with the arithmetic of 32-bit integers; a call of
    [moveWindow] is a rectangle. *)

From S2P Require Import Prelude.
Local Open Scope Z_scope.

Definition sizeFromLParam (v : Z) : Z * Z := (Z.land v 0xffff, Z.land (Z.shiftr v 16) 0xffff).

Record rect := mkRect { rx : Z; ry : Z; rw : Z; rh : Z }.
Record controls := mkControls {
  configLabel : rect; configEdit : rect; browseBtn : rect; rulesBtn : rect; startBtn : rect; stopBtn : rect;
  connectionBox : rect; stateText : rect; networkText : rect; handshakeText : rect; proxyText : rect; trafficText : rect; packetsText : rect;
  groupsBox : rect; groupsEdit : rect; logBox : rect; logEdit : rect; openLogBtn : rect; clearLogBtn : rect
}.
Definition layout (w h : Z) : controls :=
  let w := if w <? 760 then 760 else w in
  let h := if h <? 500 then 500 else h in
  let m := 12 in
  let gap := 8 in
  let rowH := 26 in
  let y := m in
  let buttonsW := 96 * 4 + gap * 3 in
  let editX := m + 58 in
  let editW := i32 (w - editX - m - buttonsW - gap) in
  let editW := if editW <? 180 then 180 else editW in
  let x0 := i32 (editX + editW + gap) in
  let x1 := i32 (x0 + (96 + gap)) in
  let x2 := i32 (x1 + (96 + gap)) in
  let x3 := i32 (x2 + (96 + gap)) in
  let y1 := 48 in
  let connH := 126 in
  let leftX := m + 14 in
  let rightX := i32 (Z.quot w 2 + 4) in
  let colW := i32 (Z.quot w 2 - 30) in
  let contentY := y1 + connH + gap in
  let contentH := i32 (h - contentY - m) in
  let leftW := Z.quot (i32 (w * 36)) 100 in
  let leftW := if leftW <? 300 then 300 else leftW in
  let leftW := if 390 <? leftW then 390 else leftW in
  let rightW := i32 (w - 3 * m - leftW) in
  let logX := 2 * m + leftW in
  let btnY := i32 (contentY + contentH - 38) in
  mkControls (mkRect m (y + 5) 52 20) (mkRect editX y editW rowH) (mkRect x0 y 96 rowH) (mkRect x1 y 96 rowH) (mkRect x2 y 96 rowH) (mkRect x3 y 96 rowH)
    (mkRect m y1 (i32 (w - 2 * m)) connH)
    (mkRect leftX (y1 + 24) colW 20) (mkRect leftX (y1 + 50) colW 20) (mkRect leftX (y1 + 76) colW 20)
    (mkRect rightX (y1 + 24) colW 20) (mkRect rightX (y1 + 50) colW 20) (mkRect rightX (y1 + 76) colW 20)
    (mkRect m contentY leftW contentH) (mkRect (m + 10) (contentY + 22) (leftW - 20) (i32 (contentH - 32)))
    (mkRect logX contentY rightW contentH) (mkRect (logX + 10) (contentY + 22) (i32 (rightW - 20)) (i32 (contentH - 68)))
    (mkRect (logX + 10) btnY 110 rowH) (mkRect (logX + 128) btnY 120 rowH).

(** ** Properties *)
Lemma sizeFromLParam_bounds v : 0 <= (sizeFromLParam v).1 < 65536 ∧ 0 <= (sizeFromLParam v).2 < 65536.
Proof. unfold sizeFromLParam. cbn [fst snd]. change 0xffff with (Z.ones 16). rewrite !Z.land_ones by lia. split; apply Z.mod_pos_bound; lia. Qed.

(** [a] lies in [b]; [a] and [b] have no point in common. *)
Definition inside (a b : rect) : Prop := rx b <= rx a ∧ rx a + rw a <= rx b + rw b ∧ ry b <= ry a ∧ ry a + rh a <= ry b + rh b.
Definition apart (a b : rect) : Prop := rx a + rw a <= rx b ∨ rx b + rw b <= rx a ∨ ry a + rh a <= ry b ∨ ry b + rh b <= ry a.
Fixpoint all_apart (l : list rect) : Prop :=
  match l with [] => True | a :: l => Forall (apart a) l ∧ all_apart l end.
Definition visible (a : rect) : Prop := 0 < rw a ∧ 0 < rh a.

Definition top_row (c : controls) : list rect := [configLabel c; configEdit c; browseBtn c; rulesBtn c; startBtn c; stopBtn c].
Definition boxes (c : controls) : list rect := top_row c ++ [connectionBox c; groupsBox c; logBox c].
Definition texts (c : controls) : list rect := [stateText c; networkText c; handshakeText c; proxyText c; trafficText c; packetsText c].
Definition log_parts (c : controls) : list rect := [logEdit c; openLogBtn c; clearLogBtn c].

Ltac layout_forall := repeat match goal with |- Forall _ _ => constructor | |- _ ∧ _ => split | |- True => exact I end.

(** The controls never overlap.  For every window size a message can carry the
    arithmetic stays in range, every control has a positive size, the rows and boxes lie
    in the (at least 760 by 500) client area and apart from each other, and so do the
    status texts in the upper box, the rules in the left box and the log with its two
    buttons in the right one. *)
Theorem layout_correct v : let (w, h) := sizeFromLParam v in
  let c := layout w h in
  let area := mkRect 0 0 (Z.max 760 w) (Z.max 500 h) in
  Forall visible (boxes c ++ texts c ++ log_parts c ++ [groupsEdit c]) ∧
  Forall (fun r => inside r area) (boxes c) ∧ all_apart (boxes c) ∧
  Forall (fun r => inside r (connectionBox c)) (texts c) ∧ all_apart (texts c) ∧
  Forall (fun r => inside r (logBox c)) (log_parts c) ∧ all_apart (log_parts c) ∧
  inside (groupsEdit c) (groupsBox c).
Proof.
  pose proof (sizeFromLParam_bounds v) as H. destruct (sizeFromLParam v) as [w h]. cbn [fst snd] in H. destruct H as [Hw Hh].
  cbv zeta. unfold layout. cbv zeta.
  set (w' := if w <? 760 then 760 else w). set (h' := if h <? 500 then 500 else h).
  assert (Ew : w' = Z.max 760 w) by (unfold w'; destruct (Z.ltb_spec w 760); lia).
  assert (Eh : h' = Z.max 500 h) by (unfold h'; destruct (Z.ltb_spec h 500); lia).
  rewrite <- Ew, <- Eh. assert (Bw : 760 <= w' < 65536) by lia. assert (Bh : 500 <= h' < 65536) by lia. clearbody w' h'. clear Ew Eh Hw Hh w h.
  rewrite (i32_id (w' * 36)) by lia. rewrite !Z.quot_div_nonneg by lia.
  set (L := if 390 <? _ then 390 else _).
  assert (BL : 300 <= L <= 390) by (unfold L; destruct (Z.ltb_spec (w' * 36 / 100) 300); [cbn; lia|destruct (Z.ltb_spec 390 (w' * 36 / 100)); lia]). clearbody L.
  set (half := w' / 2). assert (Bhalf : 2 * half <= w' < 2 * half + 2) by (unfold half; Z.div_mod_to_equations; lia). clearbody half.
  rewrite (i32_id (w' - _ - _ - _ - _)) by lia. destruct (Z.ltb_spec (w' - (12 + 58) - 12 - (96 * 4 + 8 * 3) - 8) 180) as [|_]; [lia|].
  repeat (rewrite i32_id by lia).
  unfold boxes, top_row, texts, log_parts, visible, inside, all_apart, apart. cbn -[Z.add Z.sub Z.mul].
  layout_forall; cbn; lia.
Qed.
