(* ===== verification/Replay.v ===== *)
(** * The replay window: [replay] of [internal/wireguard/client.go]

    A bitmap of 2048 counters in 32 words of 64 bits, indexed by the counter
    modulo 2048.  Counters are 64-bit and wrap explicitly.  Word indexes are below
    32 by construction. *)

From S2P Require Import Prelude.
Local Open Scope Z_scope.

Record replay : Type := mkReplay { rp_max : Z; rp_init : bool; rp_seen : list Z }.
Definition replay0 : replay := mkReplay 0 false (replicate 32 0).
Definition win : Z := 2048.

(** [seen[i/64] |= 1 << (i % 64)], [seen[i/64] &^= 1 << (i % 64)] and the test. *)
Definition set_bit (seen : list Z) (i : Z) : list Z :=
  bset seen (i `div` 64) (Z.lor (gb seen (i `div` 64)) (Z.shiftl 1 (i `mod` 64))).
Definition clear_bit (seen : list Z) (i : Z) : list Z :=
  bset seen (i `div` 64) (Z.ldiff (gb seen (i `div` 64)) (Z.shiftl 1 (i `mod` 64))).
Definition get_bit (seen : list Z) (i : Z) : bool :=
  negb (Z.land (gb seen (i `div` 64)) (Z.shiftl 1 (i `mod` 64)) =? 0).

(** [for x := r.max + 1; x <= n; x++], at most 2047 rounds. *)
Fixpoint clear_loop (fuel : nat) (x n : Z) (seen : list Z) : Res (list Z) :=
  match fuel with
  | O => OutOfFuel
  | S fuel => if x <=? n then clear_loop fuel (u64 (x + 1)) n (clear_bit seen (x `mod` win)) else Ok seen
  end.

Definition Accept (n : Z) (r : replay) : Res (replay * bool) :=
  if negb (rp_init r) then
    let i := n `mod` win in
    Ok (mkReplay n true (bset (rp_seen r) (i `div` 64) (Z.lor (gb (rp_seen r) (i `div` 64)) (Z.shiftl 1 (n `mod` 64)))), true)
  else
  if u64 (n + win) <=? rp_max r then Ok (r, false) else
  '(seen, max) ← (if rp_max r <? n then
                    let delta := n - rp_max r in
                    seen ← (if win <=? delta then Ok (replicate 32 0)
                            else clear_loop 2048 (u64 (rp_max r + 1)) n (rp_seen r));
                    Ok (seen, n)
                  else Ok (rp_seen r, rp_max r));
  let i := n `mod` win in
  if get_bit seen i then Ok (mkReplay max true seen, false)
  else Ok (mkReplay max true (set_bit seen i), true).

(** ** Bits *)
Lemma get_bit_test seen i : 0 <= i → get_bit seen i = Z.testbit (gb seen (i `div` 64)) (i `mod` 64).
Proof.
  intros Hi. unfold get_bit. set (w := gb seen (i `div` 64)). set (k := i `mod` 64).
  assert (Hk : 0 <= k < 64) by (apply Z.mod_pos_bound; lia). rewrite Z.shiftl_1_l, land_pow2 by lia.
  rewrite Z.testbit_eqb by lia. pose proof (Z.pow_pos_nonneg 2 k ltac:(lia) ltac:(lia)) as Hp.
  destruct (Z.mod_pos_bound (w `div` 2 ^ k) 2 ltac:(lia)) as [H1 H2].
  destruct (decide ((w `div` 2 ^ k) `mod` 2 = 0)) as [->|Hne]; [done|].
  assert ((w `div` 2 ^ k) `mod` 2 = 1) as -> by lia. rewrite Z.mul_1_l, (proj2 (Z.eqb_neq _ _)) by lia. done.
Qed.

Lemma word_index i : 0 <= i < 2048 → 0 <= i `div` 64 < 32.
Proof. intros. split; [apply Z.div_pos; lia|apply Z.div_lt_upper_bound; lia]. Qed.
Lemma same_bit i j : 0 <= i → 0 <= j → i `div` 64 = j `div` 64 → i `mod` 64 = j `mod` 64 → i = j.
Proof. intros. rewrite (Z.div_mod i 64), (Z.div_mod j 64) by lia. congruence. Qed.

Lemma get_set_bit seen i j : blen seen = 32 → 0 <= i < 2048 → 0 <= j < 2048 →
  get_bit (set_bit seen i) j = bool_decide (j = i) || get_bit seen j.
Proof.
  intros Hl Hi Hj. rewrite !get_bit_test by lia. unfold set_bit.
  pose proof (word_index i Hi). pose proof (word_index j Hj). rewrite gb_bset by lia.
  destruct (Z.eqb_spec (j `div` 64) (i `div` 64)) as [E|E].
  - rewrite E, Z.lor_spec, Z.shiftl_1_l, Z.pow2_bits_eqb by (apply Z.mod_pos_bound; lia). rewrite orb_comm. f_equal.
    destruct (Z.eqb_spec (i `mod` 64) (j `mod` 64)) as [Em|Em].
    + rewrite bool_decide_eq_true_2; [done|]. by apply same_bit; [lia|lia|..].
    + rewrite bool_decide_eq_false_2; [done|]. congruence.
  - rewrite bool_decide_eq_false_2; [done|]. congruence.
Qed.
Lemma get_clear_bit seen i j : blen seen = 32 → 0 <= i < 2048 → 0 <= j < 2048 →
  get_bit (clear_bit seen i) j = negb (bool_decide (j = i)) && get_bit seen j.
Proof.
  intros Hl Hi Hj. rewrite !get_bit_test by lia. unfold clear_bit.
  pose proof (word_index i Hi). pose proof (word_index j Hj). rewrite gb_bset by lia.
  destruct (Z.eqb_spec (j `div` 64) (i `div` 64)) as [E|E].
  - rewrite E, Z.ldiff_spec, Z.shiftl_1_l, Z.pow2_bits_eqb by (apply Z.mod_pos_bound; lia). rewrite andb_comm. f_equal. f_equal.
    destruct (Z.eqb_spec (i `mod` 64) (j `mod` 64)) as [Em|Em].
    + rewrite bool_decide_eq_true_2; [done|]. by apply same_bit; [lia|lia|..].
    + rewrite bool_decide_eq_false_2; [done|]. congruence.
  - rewrite bool_decide_eq_false_2; [done|]. congruence.
Qed.
Lemma get_bit_zero i : 0 <= i → get_bit (replicate 32 0) i = false.
Proof.
  intros. rewrite get_bit_test by lia. assert (gb (replicate 32 0) (i `div` 64) = 0) as ->.
  { unfold gb. destruct (_ !! _) eqn:E; [|done]. by apply lookup_replicate in E as [-> _]. }
  apply Z.bits_0.
Qed.

(** Clearing a range of fewer than 2048 counters clears exactly their bits. *)
Lemma clear_loop_spec fuel x n seen : blen seen = 32 → 0 <= x → n < 18446744073709551616 - 1 → x <= n + 1 → n - x < Z.of_nat fuel - 1 →
  ∃ seen', clear_loop fuel x n seen = Ok seen' ∧ blen seen' = 32 ∧
    ∀ j, 0 <= j < 2048 → get_bit seen' j = true ↔ get_bit seen j = true ∧ ∀ y, x <= y <= n → y `mod` win ≠ j.
Proof.
  revert x seen. induction fuel as [|fuel IH]; intros x seen Hl Hx Hn Hxn Hf; [lia|]. cbn [clear_loop].
  destruct (Z.leb_spec x n) as [Hle|Hgt].
  2:{ exists seen. split_and!; try done. intros j Hj. split; [|tauto]. intros H. split; [done|]. lia. }
  rewrite u64_small by lia. assert (Hi : 0 <= x `mod` win < 2048) by (apply Z.mod_pos_bound; lia).
  destruct (IH (x + 1) (clear_bit seen (x `mod` win))) as (seen' & E & Hl' & Hb); try lia.
  { unfold clear_bit. by rewrite blen_bset. }
  exists seen'. split_and!; try done. intros j Hj. rewrite Hb, get_clear_bit by done.
  rewrite andb_true_iff, negb_true_iff, bool_decide_eq_false. split.
  - intros [[Hne Hs] Hy]. split; [done|]. intros y Hyr. destruct (decide (y = x)) as [->|]; [congruence|]. apply Hy. lia.
  - intros [Hs Hy]. split_and!; [|done|]; intros; [intros ->; by apply (Hy x); [lia|]|]. apply Hy. lia.
Qed.

(** ** The window *)

(** [S] is the list of counters accepted so far. *)
Record window (r : replay) (S : list Z) : Prop := {
  w_len : blen (rp_seen r) = 32;
  w_new : rp_init r = false → S = [] ∧ rp_seen r = replicate 32 0;
  w_max : rp_init r = true → rp_max r ∈ S ∧ 0 <= rp_max r < 18446744073709551616 ∧ ∀ m, m ∈ S → m <= rp_max r;
  w_bits : rp_init r = true → ∀ x, 0 <= x → rp_max r - 2048 < x <= rp_max r → get_bit (rp_seen r) (x `mod` win) = true ↔ x ∈ S
}.

Lemma window0 : window replay0 [].
Proof. split; done. Qed.

(** Two counters of one window with the same index are the same. *)
Lemma window_index x y a : a - 2048 < x <= a → a - 2048 < y <= a → x `mod` win = y `mod` win → x = y.
Proof. unfold win. intros. Z.div_mod_to_equations. lia. Qed.
Lemma mod_win x : 0 <= x `mod` win < 2048.
Proof. apply Z.mod_pos_bound. unfold win. lia. Qed.

(** Moving the window forward: the bits of the new window are those of the old
    one; the new counters have none. *)
Lemma advance r S n : window r S → rp_init r = true → rp_max r < n →
  n < 18446744073709551616 - 2048 ∨ rp_max r + 2048 <= n →
  ∃ seen, (if win <=? n - rp_max r then Ok (replicate 32 0) else clear_loop 2048 (u64 (rp_max r + 1)) n (rp_seen r)) = Ok seen ∧
    blen seen = 32 ∧ ∀ x, 0 <= x → n - 2048 < x <= n → get_bit seen (x `mod` win) = true ↔ x ∈ S.
Proof.
  intros [Hl _ Hm Hb] Hi Hn Hf. destruct (Hm Hi) as (Hin & Hr & Hmax). specialize (Hb Hi). unfold win at 1.
  destruct (Z.leb_spec 2048 (n - rp_max r)) as [Hfar|Hnear].
  - exists (replicate 32 0). split_and!; try done. intros x Hx Hxr. rewrite get_bit_zero by apply mod_win.
    split; [done|]. intros Hs. apply Hmax in Hs. lia.
  - rewrite u64_small by lia.
    destruct (clear_loop_spec 2048 (rp_max r + 1) n (rp_seen r) Hl) as (seen & E & Hl' & Hc); try lia.
    exists seen. split_and!; try done. intros x Hx Hxr. rewrite Hc by apply mod_win.
    destruct (decide (x <= rp_max r)) as [Hle|Hgt].
    + rewrite Hb by lia. split; [tauto|]. intros Hs. split; [done|]. intros y Hy E'.
      assert (y = x) by (eapply (window_index y x n); [lia|lia|done]). lia.
    + split; [|intros Hs; apply Hmax in Hs; lia]. intros [_ Hy]. by destruct (Hy x); [lia|].
Qed.

Lemma Accept_window r S n : window r S → 0 <= n < 18446744073709551616 →
  ∃ r' b, Accept n r = Ok (r', b) ∧ window r' (if b then n :: S else S) ∧
    (b = true → n ∉ S) ∧ (n < 18446744073709551616 - 2048 → b = true ↔ n ∉ S ∧ ∀ m, m ∈ S → m < n + 2048).
Proof.
  intros HW Hn. pose proof HW as [Hl H0 Hm Hb]. unfold Accept. destruct (rp_init r) eqn:Ei; cbn [negb].
  2:{ destruct (H0 eq_refl) as [-> Hz]. cbv zeta.
      assert (E64 : n `mod` 64 = (n `mod` win) `mod` 64) by (unfold win; Z.div_mod_to_equations; lia).
      rewrite E64. change (bset _ _ _) with (set_bit (rp_seen r) (n `mod` win)).
      eexists _, true. split; [done|]. split; [|split; [intros _; apply not_elem_of_nil|intros _; split; [intros _|done]]].
      - split; cbn [rp_init rp_max rp_seen]; try done.
        + unfold set_bit. by rewrite blen_bset.
        + intros _. split; [constructor|]. split; [lia|]. intros m Hm'. apply list_elem_of_singleton in Hm'. lia.
        + intros _ x Hx Hxr. rewrite get_set_bit, Hz, get_bit_zero, orb_false_r, bool_decide_eq_true, list_elem_of_singleton
            by (try apply mod_win; rewrite ?Hz; done). split; [|by intros ->].
          intros E. by apply (window_index x n n); [lia|lia|].
      - split; [apply not_elem_of_nil|]. intros m Hm'. by apply not_elem_of_nil in Hm'. }
  destruct (Hm eq_refl) as (Hin & Hr & Hmax). specialize (Hb eq_refl). unfold win at 1.
  destruct (Z.leb_spec (u64 (n + 2048)) (rp_max r)) as [Hold|Hok].
  { exists r, false. split; [done|]. split; [done|]. split; [done|]. intros Hn'. split; [done|]. rewrite u64_small in Hold by lia. intros [_ H]. apply H in Hin. lia. }
  assert (Hn' : n < 18446744073709551616 - 2048 ∨ rp_max r + 2048 <= n).
  { destruct (decide (n < 18446744073709551616 - 2048)) as [|Hw]; [by left|right]. unfold u64 in Hok.
    assert ((n + 2048) `mod` 18446744073709551616 = n + 2048 - 18446744073709551616) by (symmetry; apply (Z.mod_unique _ _ 1); lia). lia. }
  assert (Hnear : rp_max r - 2048 < n) by (destruct Hn'; [rewrite u64_small in Hok by lia; lia|lia]).
  assert (Hstep : ∃ seen mx, (if rp_max r <? n then
        seen ← (if win <=? n - rp_max r then Ok (replicate 32 0) else clear_loop 2048 (u64 (rp_max r + 1)) n (rp_seen r)); Ok (seen, n)
      else Ok (rp_seen r, rp_max r)) = Ok (seen, mx) ∧ mx = Z.max (rp_max r) n ∧ blen seen = 32 ∧
      ∀ x, 0 <= x → mx - 2048 < x <= mx → get_bit seen (x `mod` win) = true ↔ x ∈ S).
  { destruct (Z.ltb_spec (rp_max r) n).
    - destruct (advance r S n HW Ei ltac:(lia) Hn') as (seen & E & Hl' & Hbits). rewrite E, bind_Ok.
      exists seen, n. split_and!; try done. lia.
    - exists (rp_seen r), (rp_max r). split_and!; try done. lia. }
  cbv zeta. destruct Hstep as (seen & mx & -> & Hmx & Hl' & Hbits). rewrite bind_Ok. cbv beta iota zeta.
  assert (Hbn := Hbits n ltac:(lia) ltac:(lia)). destruct (get_bit seen (n `mod` win)) eqn:Eg.
  - assert (Hs : n ∈ S) by by apply Hbn. assert (mx = rp_max r) as -> by (apply Hmax in Hs; lia).
    eexists _, false. split; [done|]. split; [|split; [done|intros _; split; [done|intros [Hns _]; by destruct Hns]]]. split; cbn; try done.
  - assert (Hs : n ∉ S) by (intros H; by apply Hbn in H). eexists _, true. split; [done|]. split.
    + split; cbn [rp_init rp_max rp_seen]; try done.
      * unfold set_bit. by rewrite blen_bset.
      * intros _. split; [|split; [lia|]].
        -- rewrite elem_of_cons. destruct (decide (mx = n)); [by left|]. right. by replace mx with (rp_max r) by lia.
        -- intros m Hm'. apply elem_of_cons in Hm' as [->|Hm']; [lia|]. apply Hmax in Hm'. lia.
      * intros _ x Hx Hxr. rewrite get_set_bit by (try apply mod_win; done).
        rewrite orb_true_iff, bool_decide_eq_true, elem_of_cons, Hbits by lia. split; [|intros [->|?]; [by left|by right]].
        intros [E|?]; [|by right]. left. by apply (window_index x n mx); [lia|lia|].
    + split; [done|]. intros _. split; [|done]. intros _. split; [done|]. intros m Hm'. apply Hmax in Hm'. lia.
Qed.

(** The replay filter run on a sequence of counters: the answers. *)
Fixpoint accept_all (ns : list Z) (r : replay) : Res (replay * list bool) :=
  match ns with
  | [] => Ok (r, [])
  | n :: rest => '(r, b) ← Accept n r; '(r, bs) ← accept_all rest r; Ok (r, b :: bs)
  end.
(** The specification: a counter is accepted iff it was not accepted before and
    no counter 2048 or more above it was. *)
Fixpoint spec_all (ns : list Z) (S : list Z) : list bool :=
  match ns with
  | [] => []
  | n :: rest =>
      let b := negb (bool_decide (n ∈ S)) && forallb (fun m => m <? n + 2048) S in
      b :: spec_all rest (if b then n :: S else S)
  end.

Lemma accept_all_spec ns r S : window r S → Forall (fun n => 0 <= n < 18446744073709551616 - 2048) ns →
  ∃ r', accept_all ns r = Ok (r', spec_all ns S).
Proof.
  intros HW H. revert r S HW. induction H as [|n ns Hn H IH]; intros r S HW; cbn [accept_all spec_all]; [eauto|].
  destruct (Accept_window r S n HW ltac:(lia)) as (r1 & b & -> & HW1 & _ & Hb). specialize (Hb ltac:(lia)). rewrite bind_Ok. cbv beta iota zeta.
  assert (Eb : negb (bool_decide (n ∈ S)) && forallb (fun m => m <? n + 2048) S = b).
  { apply eq_true_iff_eq. rewrite Hb, andb_true_iff, negb_true_iff, bool_decide_eq_false, forallb_forall.
    setoid_rewrite Z.ltb_lt. setoid_rewrite list_elem_of_In. done. }
  rewrite Eb. destruct (IH r1 _ HW1) as (r2 & ->). rewrite bind_Ok. eauto.
Qed.

(** The counters that passed. *)
Definition passed (ns : list Z) (bs : list bool) : list Z := map fst (List.filter snd (combine ns bs)).
Lemma accept_all_once ns r S : window r S → Forall (fun n => 0 <= n < 18446744073709551616) ns →
  ∃ r' bs, accept_all ns r = Ok (r', bs) ∧ NoDup (passed ns bs) ∧ ∀ m, m ∈ passed ns bs → m ∉ S.
Proof.
  intros HW H. revert r S HW. induction H as [|n ns Hn H IH]; intros r S HW; cbn [accept_all].
  { exists r, []. split_and!; [done|constructor|]. intros m Hm. by apply not_elem_of_nil in Hm. }
  destruct (Accept_window r S n HW Hn) as (r1 & b & -> & HW1 & Hb & _). rewrite bind_Ok. cbv beta iota.
  destruct (IH r1 _ HW1) as (r2 & bs & -> & Hnd & Hout). rewrite bind_Ok. exists r2, (b :: bs). split; [done|].
  unfold passed. cbn [combine List.filter snd]. destruct b; cbn [map fst]; [|done]. fold (passed ns bs). split.
  - apply list.NoDup_cons. split; [|done]. intros Hin. apply Hout in Hin. by destruct Hin; left.
  - intros m Hm. apply elem_of_cons in Hm as [->|Hm]; [by apply Hb|]. apply Hout in Hm. intros Hs. by destruct Hm; right.
Qed.

(** C34: The replay window is exact.  On every sequence of 64-bit counters the filter
    answers (the clearing loop ends) and lets no counter pass twice.  Below 2^64 - 2048,
    where the sums do not wrap, it answers as if it remembered every accepted
    counter: a counter passes iff it has not passed before and is less than 2048
    behind the largest. *)
Theorem replay_window_exact (ns : list Z) :
  Forall (fun n => 0 <= n < 18446744073709551616) ns →
  (∃ r bs, accept_all ns replay0 = Ok (r, bs) ∧ NoDup (passed ns bs)) ∧
  (Forall (fun n => n < 18446744073709551616 - 2048) ns → ∃ r, accept_all ns replay0 = Ok (r, spec_all ns [])).
Proof.
  intros H. split.
  - destruct (accept_all_once ns replay0 [] window0 H) as (r & bs & E & Hn & _). eauto.
  - intros H'. apply accept_all_spec; [apply window0|]. apply List.Forall_forall. intros n Hn.
    pose proof (proj1 (List.Forall_forall _ _) H n Hn). pose proof (proj1 (List.Forall_forall _ _) H' n Hn). cbn in *. lia.
Qed.

Lemma replay_window_exact_witness :
  ∃ r, accept_all [5; 3; 5; 3000; 953; 952; 951; 2999] replay0 =
    Ok (r, [true; true; false; true; true; false; false; true]).
Proof.
  destruct (replay_window_exact [5; 3; 5; 3000; 953; 952; 951; 2999]) as (_ & H).
  - repeat constructor; try lia; vm_compute; reflexivity.
  - destruct H as (r & E); [repeat constructor|]. exists r. rewrite E. vm_compute. reflexivity.
Defined.
