(* ===== verification/Handshake.v ===== *)
(** * The WireGuard handshake: [internal/wireguard/client.go]

    The initiator's side of Noise IKpsk2: [makeInitiation], [consumeResponse] and
    [consumeCookie].  X25519 is the standard library's and is a class with the
    commutativity of the key agreement; the AEAD is the class of [Crypto].  Random
    bytes and clock readings are arguments.  The responder of the protocol is written
    out as a specification, and the theorem says that the client and any responder
    that follows it agree on keys. *)

From S2P Require Import Prelude Netip GoStrings Crypto Replay.
Local Open Scope Z_scope.

(** [crypto/ecdh] for X25519: a public key per private key and the agreement, which
    fails on a point of low order. *)
Class X25519 := {
  x_pub : list Z → list Z;
  x_dh : list Z → list Z → Res (list Z);
  x_pub_len : ∀ k, blen (x_pub k) = 32;
  x_pub_bytes : ∀ k, bytes_ok (x_pub k);
  x_dh_returns : ∀ a b, returns (x_dh a b);
  x_dh_comm : ∀ a b, blen a = 32 → blen b = 32 → x_dh a (x_pub b) = x_dh b (x_pub a)
}.

(** [curve.NewPrivateKey] and [curve.NewPublicKey] check the size only. *)
Definition NewPrivateKey (raw : list Z) : Res (list Z) :=
  if blen raw =? 32 then Ok raw else Err "crypto/ecdh: invalid private key size".
Definition NewPublicKey (raw : list Z) : Res (list Z) :=
  if blen raw =? 32 then Ok raw else Err "crypto/ecdh: invalid public key".

Definition msgInit : Z := 1.
Definition msgResp : Z := 2.
Definition msgCookie : Z := 3.
Definition msgTransport : Z := 4.
Definition initSize : Z := 148.
Definition respSize : Z := 92.
Definition cookieSize : Z := 64.
Definition zeroNonce : list Z := zeros 12.
Definition second : Z := 1000000000.
Definition minute : Z := 60 * second.

Definition mixHash (h data : list Z) : Res (list Z) := Blake2s256 (h ++ data).

(** [time.Time] is the number of nanoseconds since 1970. *)
Definition enc64 (v : Z) : list Z := enc32 (v `div` 4294967296) ++ enc32 v.
Definition tai64n (now : Z) : list Z :=
  let sec := u64 (0x400000000000000a + u64 (now `div` second)) in
  let nano := Z.ldiff (u32 (now `mod` second)) (0x1000000 - 1) in
  enc64 sec ++ enc32 nano.

(** The key material [New] puts in the client. *)
Record keys := mkKeys { k_priv : list Z; k_pub : list Z; k_peerPub : list Z; k_psk : list Z;
  k_mac1Key : list Z; k_cookieKey : list Z }.

(** The cookie and when it came; [None] is the zero time. *)
Record cookie_state := mkCookie { ck_cookie : list Z; ck_at : option Z }.
Definition no_cookie : cookie_state := mkCookie (zeros 16) None.

Record initState := mkInit { i_sender : Z; i_epriv : list Z; i_chain : list Z; i_hash : list Z; i_mac1 : list Z }.

(** What one call of [makeInitiation] takes from outside: the two reads of random
    bytes and the two readings of the clock. *)
Record init_env := mkEnv { e_eraw : Res (list Z); e_idx : Res (list Z); e_ts : Z; e_now : Z }.

Section Handshake.
Context {A : AEAD} {X : X25519}.

(** A session as [consumeResponse] makes it.  [retiredAt] is [None] while zero;
    [closed] records [send.Close] and [recv.Close]. *)
Record session := mkSession { localIndex : Z; remoteIndex : Z; send : aead_key; recv : aead_key;
  sendCounter : Z; sreplay : replay; created : Z; retiredAt : option Z; closed : bool }.

Definition new_keys (PrivateKey PeerPublicKey PresharedKey : list Z) : Res keys :=
  priv ← NewPrivateKey PrivateKey;
  let pub := x_pub priv in
  mac1Key ← Blake2s256 (lit "mac1----" ++ PeerPublicKey);
  cookieKey ← Blake2s256 (lit "cookie--" ++ PeerPublicKey);
  Ok (mkKeys priv pub PeerPublicKey PresharedKey mac1Key cookieKey).

Definition makeInitiation (c : keys) (ck : cookie_state) (env : init_env) : Res (initState * list Z) :=
  eraw ← e_eraw env;
  epriv ← NewPrivateKey eraw;
  let epub := x_pub epriv in
  chain ← Blake2s256 (lit "Noise_IKpsk2_25519_ChaChaPoly_BLAKE2s");
  hash ← mixHash chain (lit "WireGuard v1 zx2c4 Jason@zx2c4.com");
  hash ← mixHash hash (k_peerPub c);
  chain ← KDF1 chain epub;
  hash ← mixHash hash epub;
  peerKey ← NewPublicKey (k_peerPub c);
  es ← x_dh epriv peerKey;
  '(chain, key) ← KDF2 chain es;
  aead ← aead_new key;
  encStatic ← aead_seal aead zeroNonce (k_pub c) hash;
  hash ← mixHash hash encStatic;
  ss ← x_dh (k_priv c) peerKey;
  '(chain, key) ← KDF2 chain ss;
  aead ← aead_new key;
  let ts := tai64n (e_ts env) in
  encTS ← aead_seal aead zeroNonce ts hash;
  hash ← mixHash hash encTS;
  idxb ← e_idx env;
  sender ← le32 idxb 0;
  let sender := if sender =? 0 then 1 else sender in
  let msg := zeros initSize in
  msg ← copy_into msg 0 4 (put_le32 msgInit);
  msg ← copy_into msg 4 8 (put_le32 sender);
  msg ← copy_into msg 8 40 epub;
  msg ← copy_into msg 40 88 encStatic;
  msg ← copy_into msg 88 116 encTS;
  head ← slice msg 0 116;
  mac1 ← Blake2s128Keyed (k_mac1Key c) head;
  msg ← copy_into msg 116 132 mac1;
  msg ← (if match ck_at ck with Some at_ => e_now env - at_ <? 2 * minute | None => false end then
           head ← slice msg 0 132;
           mac2 ← Blake2s128Keyed (ck_cookie ck) head;
           copy_into msg 132 148 mac2
         else Ok msg);
  Ok (mkInit sender epriv chain hash mac1, msg).

Definition consumeResponse (c : keys) (st : initState) (msg : list Z) (now : Z) : Res session :=
  k ← Blake2s256 (lit "mac1----" ++ k_pub c);
  head ← slice msg 0 60;
  want ← Blake2s128Keyed k head;
  got ← slice msg 60 76;
  if negb (bool_decide (want = got)) then Err "bad response MAC1" else
  ri ← slice msg 4 8;
  remoteIndex ← le32 ri 0;
  rep ← slice msg 12 44;
  chain ← KDF1 (i_chain st) rep;
  hash ← mixHash (i_hash st) rep;
  repPub ← NewPublicKey rep;
  ee ← x_dh (i_epriv st) repPub;
  chain ← KDF1 chain ee;
  se ← x_dh (k_priv c) repPub;
  chain ← KDF1 chain se;
  '(chain, tau, key) ← KDF3 chain (k_psk c);
  hash ← mixHash hash tau;
  aead ← aead_new key;
  ct ← slice msg 44 60;
  match aead_open aead zeroNonce ct hash with
  | Ok [] =>
      '(sendKey, recvKey) ← KDF2 chain [];
      send ← aead_new sendKey;
      recv ← aead_new recvKey;
      Ok (mkSession (i_sender st) remoteIndex send recv 0 replay0 now None false)
  | Ok _ | Err _ => Err "bad response authenticator"
  | Panic => Panic
  | OutOfFuel => OutOfFuel
  end.

Definition consumeCookie (c : keys) (st : initState) (msg : list Z) (now : Z) : Res cookie_state :=
  nonce ← slice msg 8 32;
  ct ← slice msg 32 64;
  match xOpen (k_cookieKey c) nonce ct (i_mac1 st) with
  | Ok plain => if blen plain =? 16 then Ok (mkCookie plain (Some now)) else Err "bad cookie reply"
  | Err _ => Err "bad cookie reply"
  | Panic => Panic
  | OutOfFuel => OutOfFuel
  end.

(** ** The responder of the protocol *)
Record rstate := mkR { r_sender : Z; r_epub : list Z; r_static : list Z; r_ts : list Z; r_chain : list Z; r_hash : list Z }.

(** A responder with private key [priv] reads an initiation. *)
Definition responder_consume (priv msg : list Z) : Res rstate :=
  if negb (blen msg =? 148) || negb (le32_at msg 0 =? 1) then Err "not an initiation" else
  k ← Blake2s256 (lit "mac1----" ++ x_pub priv);
  want ← Blake2s128Keyed k (bsub msg 0 116);
  if negb (bool_decide (want = bsub msg 116 132)) then Err "bad MAC1" else
  let epub := bsub msg 8 40 in
  chain ← Blake2s256 (lit "Noise_IKpsk2_25519_ChaChaPoly_BLAKE2s");
  hash ← mixHash chain (lit "WireGuard v1 zx2c4 Jason@zx2c4.com");
  hash ← mixHash hash (x_pub priv);
  chain ← KDF1 chain epub;
  hash ← mixHash hash epub;
  es ← x_dh priv epub;
  '(chain, key) ← KDF2 chain es;
  aead ← aead_new key;
  static ← aead_open aead zeroNonce (bsub msg 40 88) hash;
  hash ← mixHash hash (bsub msg 40 88);
  ss ← x_dh priv static;
  '(chain, key) ← KDF2 chain ss;
  aead ← aead_new key;
  ts ← aead_open aead zeroNonce (bsub msg 88 116) hash;
  hash ← mixHash hash (bsub msg 88 116);
  Ok (mkR (le32_at msg 4) epub static ts chain hash).

(** It answers with a fresh key [epriv] and its own index; the result is the message
    and the keys it receives and sends with. *)
Definition responder_reply (psk : list Z) (rs : rstate) (epriv : list Z) (index : Z) : Res (list Z * aead_key * aead_key) :=
  let epub := x_pub epriv in
  chain ← KDF1 (r_chain rs) epub;
  hash ← mixHash (r_hash rs) epub;
  ee ← x_dh epriv (r_epub rs);
  chain ← KDF1 chain ee;
  se ← x_dh epriv (r_static rs);
  chain ← KDF1 chain se;
  '(chain, tau, key) ← KDF3 chain psk;
  hash ← mixHash hash tau;
  aead ← aead_new key;
  empty ← aead_seal aead zeroNonce [] hash;
  let head := put_le32 2 ++ put_le32 index ++ put_le32 (r_sender rs) ++ epub ++ empty in
  k ← Blake2s256 (lit "mac1----" ++ r_static rs);
  mac1 ← Blake2s128Keyed k head;
  '(k1, k2) ← KDF2 chain [];
  rx ← aead_new k1;
  tx ← aead_new k2;
  Ok (head ++ mac1 ++ zeros 16, rx, tx).

(** ** Layout of the messages *)
Lemma copy_append pre k lo hi src : lo = blen pre → hi = lo + blen src → blen src <= k →
  copy_into (pre ++ zeros k) lo hi src = Ok ((pre ++ src) ++ zeros (k - blen src)).
Proof.
  intros -> -> Hk. pose proof (blen_nonneg pre). pose proof (blen_nonneg src). pose proof (blen_zeros k).
  rewrite copy_into_ok by (rewrite ?blen_app; lia). f_equal. unfold bcopy, blen. rewrite Nat2Z.id, take_app_length.
  rewrite <- app_assoc. f_equal. rewrite take_ge by (rewrite length_app; unfold blen, zeros in *; rewrite length_replicate in *; lia).
  f_equal. rewrite drop_app_ge by lia. unfold zeros. rewrite drop_replicate. f_equal. unfold blen in *. lia.
Qed.
Lemma slice_pre pre (post : list Z) n : n = blen pre → slice (pre ++ post) 0 n = Ok pre.
Proof.
  intros ->. pose proof (blen_nonneg pre). pose proof (blen_nonneg post).
  rewrite slice_ok by (rewrite ?blen_app; lia). f_equal. exact (bsub_at [] pre post).
Qed.
Lemma tai64n_ok now : blen (tai64n now) = 12 ∧ bytes_ok (tai64n now).
Proof.
  unfold tai64n, enc64. split; [done|]. rewrite !bytes_ok_app. split_and!; apply bytes_ok_enc32.
Qed.
(** The tail of [makeInitiation]: the message from its parts. *)
Definition mac2_of (ck : cookie_state) (now : Z) (head : list Z) : Res (list Z) :=
  if match ck_at ck with Some at_ => now - at_ <? 2 * minute | None => false end
  then Blake2s128Keyed (ck_cookie ck) head else Ok (zeros 16).

Lemma makeInitiation_inv c ck env st msg : blen (k_pub c) = 32 → bytes_ok (k_pub c) → blen (k_mac1Key c) <= 32 → blen (ck_cookie ck) = 16 →
  makeInitiation c ck env = Ok (st, msg) →
  ∃ eraw idxb c0 h0 h1 c1 h2 es c2 key1 a1 encStatic h3 ss c3 key2 a2 encTS h4 mac1 mac2,
    e_eraw env = Ok eraw ∧ blen eraw = 32 ∧ blen (k_peerPub c) = 32 ∧ e_idx env = Ok idxb ∧
    Blake2s256 (lit "Noise_IKpsk2_25519_ChaChaPoly_BLAKE2s") = Ok c0 ∧
    mixHash c0 (lit "WireGuard v1 zx2c4 Jason@zx2c4.com") = Ok h0 ∧ mixHash h0 (k_peerPub c) = Ok h1 ∧
    KDF1 c0 (x_pub eraw) = Ok c1 ∧ mixHash h1 (x_pub eraw) = Ok h2 ∧ x_dh eraw (k_peerPub c) = Ok es ∧
    KDF2 c1 es = Ok (c2, key1) ∧ aead_new key1 = Ok a1 ∧ aead_seal a1 zeroNonce (k_pub c) h2 = Ok encStatic ∧
    mixHash h2 encStatic = Ok h3 ∧ x_dh (k_priv c) (k_peerPub c) = Ok ss ∧ KDF2 c2 ss = Ok (c3, key2) ∧
    aead_new key2 = Ok a2 ∧ aead_seal a2 zeroNonce (tai64n (e_ts env)) h3 = Ok encTS ∧ mixHash h3 encTS = Ok h4 ∧
    let sender := if le32_at idxb 0 =? 0 then 1 else le32_at idxb 0 in
    let body := (((put_le32 msgInit ++ put_le32 sender) ++ x_pub eraw) ++ encStatic) ++ encTS in
    4 <= blen idxb ∧ blen encStatic = 48 ∧ blen encTS = 28 ∧ blen mac1 = 16 ∧ blen mac2 = 16 ∧
    Blake2s128Keyed (k_mac1Key c) body = Ok mac1 ∧ mac2_of ck (e_now env) (body ++ mac1) = Ok mac2 ∧
    st = mkInit sender eraw c3 h4 mac1 ∧ msg = (body ++ mac1) ++ mac2.
Proof.
  intros Hp Hpb Hmk Hck E. unfold makeInitiation in E.
  apply bind_Ok_inv in E as (eraw & Eraw & E). apply bind_Ok_inv in E as (ep & Eep & E).
  unfold NewPrivateKey in Eep. destruct (Z.eqb_spec (blen eraw) 32) as [Hraw|]; [|done]. injection Eep as <-.
  cbv zeta in E. apply bind_Ok_inv in E as (c0 & Ec0 & E). apply bind_Ok_inv in E as (h0 & Eh0 & E).
  apply bind_Ok_inv in E as (h1 & Eh1 & E). apply bind_Ok_inv in E as (c1 & Ec1 & E). apply bind_Ok_inv in E as (h2 & Eh2 & E).
  apply bind_Ok_inv in E as (pk & Epk & E). unfold NewPublicKey in Epk. destruct (Z.eqb_spec (blen (k_peerPub c)) 32) as [Hpeer|]; [|done].
  injection Epk as <-. apply bind_Ok_inv in E as (es & Ees & E). apply bind_Ok_inv in E as ([c2 key1] & Ek1 & E).
  apply bind_Ok_inv in E as (a1 & Ea1 & E). apply bind_Ok_inv in E as (encStatic & Ees1 & E). apply bind_Ok_inv in E as (h3 & Eh3 & E).
  apply bind_Ok_inv in E as (ss & Ess & E). apply bind_Ok_inv in E as ([c3 key2] & Ek2 & E).
  apply bind_Ok_inv in E as (a2 & Ea2 & E). apply bind_Ok_inv in E as (encTS & Ets & E). apply bind_Ok_inv in E as (h4 & Eh4 & E).
  apply bind_Ok_inv in E as (idxb & Eidx & E). apply bind_Ok_inv in E as (snd & Esnd & E).
  unfold le32 in Esnd. destruct ((0 <=? 0) && (0 + 4 <=? blen idxb)) eqn:Hidx; [|done]. injection Esnd as <-. zbool.
  destruct (tai64n_ok (e_ts env)) as [Htl Htb].
  destruct (aead_seal_ok _ _ _ _ _ Hpb Ees1) as (_ & Hes & _). destruct (aead_seal_ok _ _ _ _ _ Htb Ets) as (_ & Hts & _).
  rewrite Hp in Hes. rewrite Htl in Hts. set (sender := if le32_at idxb 0 =? 0 then 1 else le32_at idxb 0) in *.
  change (zeros initSize) with ([] ++ zeros 148) in E. pose proof (x_pub_len eraw) as Hxp.
  rewrite (copy_append [] 148 0 4) in E by done. rewrite bind_Ok in E. rewrite copy_append in E by done. rewrite bind_Ok in E.
  rewrite copy_append in E by (rewrite ?blen_app, ?Hxp; done). rewrite bind_Ok in E.
  rewrite copy_append in E by (rewrite ?blen_app, ?Hxp, ?Hes; done). rewrite bind_Ok in E.
  rewrite copy_append in E by (rewrite ?blen_app, ?Hxp, ?Hes, ?Hts; done). rewrite bind_Ok in E.
  rewrite slice_pre in E by (rewrite !blen_app, Hxp, Hes, Hts; done). rewrite bind_Ok in E. rewrite app_nil_l in E.
  set (body := (((put_le32 msgInit ++ put_le32 sender) ++ x_pub eraw) ++ encStatic) ++ encTS) in *.
  assert (Hbody : blen body = 116) by (unfold body; rewrite !blen_app, Hxp, Hes, Hts; done).
  destruct (Blake2s128Keyed_ok (k_mac1Key c) body Hmk) as (mac1 & Em1 & Hm1 & _). rewrite Em1, bind_Ok in E.
  rewrite copy_append in E by (rewrite ?Hbody, ?Hm1, ?Hxp, ?Hes, ?Hts; done). rewrite bind_Ok in E.
  replace (zeros _) with (zeros 16) in E by (rewrite Hm1, Hxp, Hes, Hts; done).
  assert (Hlen : blen (body ++ mac1) = 132) by (rewrite blen_app, Hbody, Hm1; done).
  assert (Hm2 : ∃ mac2, mac2_of ck (e_now env) (body ++ mac1) = Ok mac2 ∧ blen mac2 = 16 ∧ msg = (body ++ mac1) ++ mac2 ∧ st = mkInit sender eraw c3 h4 mac1).
  { unfold mac2_of. destruct (match ck_at ck with Some _ => _ | None => _ end).
    - rewrite slice_pre in E by done. rewrite bind_Ok in E.
      destruct (Blake2s128Keyed_ok (ck_cookie ck) (body ++ mac1) ltac:(lia)) as (mac2 & Em2 & Hm2 & _). rewrite Em2, bind_Ok in E.
      rewrite copy_append, bind_Ok in E by (rewrite ?Hlen, ?Hm2; done). rewrite Hm2 in E. injection E as <- <-.
      exists mac2. split_and!; try done. by rewrite app_nil_r.
    - rewrite bind_Ok in E. injection E as <- <-. by exists (zeros 16). }
  destruct Hm2 as (mac2 & Em2 & Hm2 & Emsg & Est).
  exists eraw, idxb, c0, h0, h1, c1, h2, es, c2, key1, a1, encStatic, h3, ss, c3, key2, a2, encTS, h4, mac1, mac2.
  cbv zeta. split_and!; done.
Qed.
(** Run a computation whose steps are known. *)
Ltac run :=
  repeat match goal with
  | |- context [Ok _ ≫= _] => rewrite bind_Ok
  | H : ?m = Ok _ |- context [?m ≫= _] => rewrite H, bind_Ok
  end; cbv beta iota.

Lemma new_keys_inv P R psk c : new_keys P R psk = Ok c →
  blen P = 32 ∧ k_priv c = P ∧ k_pub c = x_pub P ∧ k_peerPub c = R ∧ k_psk c = psk ∧
  Blake2s256 (lit "mac1----" ++ R) = Ok (k_mac1Key c) ∧ Blake2s256 (lit "cookie--" ++ R) = Ok (k_cookieKey c) ∧ blen (k_mac1Key c) = 32.
Proof.
  unfold new_keys, NewPrivateKey. destruct (Z.eqb_spec (blen P) 32); [|done]. rewrite bind_Ok. cbv zeta.
  destruct (Blake2s256_ok (lit "mac1----" ++ R)) as (m & Em & Hm & _). rewrite Em, bind_Ok.
  destruct (Blake2s256_ok (lit "cookie--" ++ R)) as (k & Ek & Hk & _). rewrite Ek, bind_Ok.
  intros [= <-]. by split_and!.
Qed.

(** The responder reads what the client sends. *)
Lemma initiation_consumed P R psk c ck env st msg idxb : new_keys P (x_pub R) psk = Ok c → blen R = 32 → blen (ck_cookie ck) = 16 →
  e_idx env = Ok idxb → bytes_ok idxb → makeInitiation c ck env = Ok (st, msg) →
  blen msg = 148 ∧ 0 < i_sender st < 4294967296 ∧ e_eraw env = Ok (i_epriv st) ∧ blen (i_epriv st) = 32 ∧
  Ok (bsub msg 132 148) = mac2_of ck (e_now env) (bsub msg 0 132) ∧
  responder_consume R msg = Ok (mkR (i_sender st) (x_pub (i_epriv st)) (x_pub P) (tai64n (e_ts env)) (i_chain st) (i_hash st)).
Proof.
  intros Hk HR Hck Eidx Hidxb E. destruct (new_keys_inv _ _ _ _ Hk) as (HP & Hpriv & Hpub & Hpeer & Hpsk & Hmac & _ & Hml).
  pose proof (x_pub_len P) as HPl. pose proof (x_pub_bytes P) as HPb.
  destruct (makeInitiation_inv c ck env st msg) as (eraw & idxb' & c0 & h0 & h1 & c1 & h2 & es & c2 & key1 & a1 & encStatic & h3 & ss & c3 & key2 & a2
    & encTS & h4 & mac1 & mac2 & Eraw & Hraw & Hpl & Eidx' & Ec0 & Eh0 & Eh1 & Ec1 & Eh2 & Ees & Ek1 & Ea1 & Ees1 & Eh3 & Ess & Ek2 & Ea2 & Ets & Eh4 & H); try done;
    rewrite ?Hpub; try done; try lia.
  cbv zeta in H. assert (idxb' = idxb) as -> by congruence. set (sender := if le32_at idxb 0 =? 0 then 1 else le32_at idxb 0) in *.
  pose proof (le32_at_range idxb 0 Hidxb) as Hr. assert (Hs : 0 < sender < 4294967296) by (unfold sender; destruct (Z.eqb_spec (le32_at idxb 0) 0); lia).
  destruct H as (Hil & Hes & Hts & Hm1 & Hm2 & Em1 & Em2 & -> & ->). cbn [i_sender i_epriv i_chain i_hash].
  set (body := (((put_le32 msgInit ++ put_le32 sender) ++ x_pub eraw) ++ encStatic) ++ encTS) in *. pose proof (x_pub_len eraw) as Hxp.
  assert (Hbody : blen body = 116) by (unfold body; rewrite !blen_app, Hxp, Hes, Hts; done).
  assert (Hl : blen ((body ++ mac1) ++ mac2) = 148) by (rewrite !blen_app, Hbody, Hm1, Hm2; done).
  assert (Hl1 : blen (body ++ mac1) = 132) by (rewrite blen_app, Hbody, Hm1; done).
  split_and!; try done; try lia.
  { assert (bsub ((body ++ mac1) ++ mac2) 132 148 = mac2) as ->.
    { rewrite <- (app_nil_r ((body ++ mac1) ++ mac2)), <- (app_assoc (body ++ mac1)). apply bsub_mid; rewrite ?Hl1, ?Hm2; done. }
    assert (bsub ((body ++ mac1) ++ mac2) 0 132 = body ++ mac1) as ->
      by exact (bsub_mid [] (body ++ mac1) mac2 0 132 eq_refl ltac:(rewrite Hl1; done)). done. }
  set (msg := (body ++ mac1) ++ mac2) in *.
  assert (Emsg : msg = put_le32 1 ++ put_le32 sender ++ x_pub eraw ++ encStatic ++ encTS ++ mac1 ++ mac2)
    by (unfold msg, body; rewrite <- !app_assoc; done).
  assert (B1 : bsub msg 0 116 = body) by (unfold msg; rewrite <- app_assoc; exact (bsub_mid [] body (mac1 ++ mac2) 0 116 eq_refl ltac:(rewrite Hbody; done))).
  assert (B2 : bsub msg 116 132 = mac1) by (unfold msg; rewrite <- app_assoc; apply bsub_mid; rewrite ?Hbody, ?Hm1; done).
  assert (B3 : bsub msg 8 40 = x_pub eraw).
  { rewrite Emsg, (app_assoc (put_le32 1)). apply bsub_mid; rewrite ?Hxp; done. }
  assert (B4 : bsub msg 40 88 = encStatic).
  { rewrite Emsg, (app_assoc (put_le32 1)), (app_assoc (put_le32 1 ++ _)). apply bsub_mid; rewrite !blen_app, ?Hxp, ?Hes; done. }
  assert (B5 : bsub msg 88 116 = encTS).
  { rewrite Emsg, (app_assoc (put_le32 1)), (app_assoc (put_le32 1 ++ _)), (app_assoc ((put_le32 1 ++ _) ++ _)). apply bsub_mid; rewrite !blen_app, ?Hxp, ?Hes, ?Hts; done. }
  assert (L0 : le32_at msg 0 = 1) by (rewrite Emsg; exact (le32_at_put [] 1 _ ltac:(lia))).
  assert (L4 : le32_at msg 4 = sender) by (rewrite Emsg; exact (le32_at_put (put_le32 1) sender _ ltac:(lia))).
  rewrite Hpub in Ees1. destruct (aead_seal_ok _ _ _ _ _ HPb Ees1) as (_ & _ & Eo1).
  destruct (aead_seal_ok _ _ _ _ _ (proj2 (tai64n_ok (e_ts env))) Ets) as (_ & _ & Eo2).
  rewrite Hpeer in Eh1, Ees, Ess. rewrite Hpriv in Ess. rewrite (x_dh_comm eraw R Hraw HR) in Ees. rewrite (x_dh_comm P R HP HR) in Ess.
  unfold responder_consume. rewrite Hl, L0, L4, B1, B2, B3, B4, B5. cbn [Z.eqb Pos.eqb negb orb]. cbv zeta. run.
  rewrite bool_decide_eq_true_2 by done. cbn [negb]. run. done.
Qed.

(** The client accepts the answer and both ends have the same keys. *)
Lemma reply_consumed P R psk c st e index rs reply rx tx now : new_keys P R psk = Ok c → blen (i_epriv st) = 32 → blen e = 32 →
  0 <= index < 4294967296 → 0 <= i_sender st < 4294967296 →
  rs = mkR (i_sender st) (x_pub (i_epriv st)) (x_pub P) (r_ts rs) (i_chain st) (i_hash st) →
  responder_reply psk rs e index = Ok (reply, rx, tx) →
  blen reply = 92 ∧ le32_at reply 0 = msgResp ∧ le32_at reply 8 = i_sender st ∧
  consumeResponse c st reply now = Ok (mkSession (i_sender st) index rx tx 0 replay0 now None false).
Proof.
  intros Hk Hep He Hi Hs Ers E. destruct (new_keys_inv _ _ _ _ Hk) as (HP & Hpriv & Hpub & Hpeer & Hpsk & _).
  rewrite Ers in E. unfold responder_reply in E. cbn [r_chain r_hash r_epub r_static r_sender] in E. cbv zeta in E.
  apply bind_Ok_inv in E as (c1 & Ec1 & E). apply bind_Ok_inv in E as (h1 & Eh1 & E). apply bind_Ok_inv in E as (ee & Eee & E).
  apply bind_Ok_inv in E as (c2 & Ec2 & E). apply bind_Ok_inv in E as (se & Ese & E). apply bind_Ok_inv in E as (c3 & Ec3 & E).
  apply bind_Ok_inv in E as ([[c4 tau] key] & Ek & E). apply bind_Ok_inv in E as (h2 & Eh2 & E). apply bind_Ok_inv in E as (a & Ea & E).
  apply bind_Ok_inv in E as (empty & Ee & E). apply bind_Ok_inv in E as (mk & Emk & E). apply bind_Ok_inv in E as (mac1 & Em & E).
  apply bind_Ok_inv in E as ([k1 k2] & Ek12 & E). apply bind_Ok_inv in E as (rx' & Erx & E). apply bind_Ok_inv in E as (tx' & Etx & E).
  set (head := put_le32 2 ++ put_le32 index ++ put_le32 (i_sender st) ++ x_pub e ++ empty) in *.
  assert (Emsg : head ++ mac1 ++ zeros 16 = reply) by congruence. assert (rx' = rx) as -> by congruence. assert (tx' = tx) as -> by congruence. destruct (aead_seal_ok a zeroNonce [] h2 empty (Forall_nil_2 _) Ee) as (_ & Hel & Eo). rewrite blen_nil in Hel.
  pose proof (x_pub_len e) as Hxe. assert (Hh : blen head = 60) by (unfold head; rewrite !blen_app, Hxe, Hel; done).
  assert (Hm : blen mac1 = 16) by (destruct (Blake2s256_ok (lit "mac1----" ++ x_pub P)) as (y & Ey & Hy & _);
    destruct (Blake2s128Keyed_ok mk head) as (z & Ez & Hz & _); [replace mk with y by congruence; lia|]; congruence).
  assert (Er : reply = put_le32 2 ++ put_le32 index ++ put_le32 (i_sender st) ++ x_pub e ++ empty ++ mac1 ++ zeros 16)
    by (rewrite <- Emsg; unfold head; rewrite <- !app_assoc; done).
  assert (Hl : blen reply = 92) by (rewrite <- Emsg, !blen_app, Hh, Hm; done).
  assert (L0 : le32_at reply 0 = 2) by (rewrite Er; exact (le32_at_put [] 2 _ ltac:(lia))).
  assert (L8 : le32_at reply 8 = i_sender st) by (rewrite Er, (app_assoc (put_le32 2)); exact (le32_at_put (put_le32 2 ++ put_le32 index) (i_sender st) _ Hs)).
  split_and!; try done.
  assert (B1 : bsub reply 0 60 = head) by (rewrite <- Emsg; exact (bsub_mid [] head _ 0 60 eq_refl ltac:(rewrite Hh; done))).
  assert (B2 : bsub reply 60 76 = mac1) by (rewrite <- Emsg; apply bsub_mid; rewrite ?Hh, ?Hm; done).
  assert (B3 : bsub reply 4 8 = put_le32 index) by (rewrite Er; apply bsub_mid; done).
  assert (B4 : bsub reply 12 44 = x_pub e).
  { rewrite Er, (app_assoc (put_le32 2)), (app_assoc (put_le32 2 ++ _)). apply bsub_mid; rewrite ?Hxe; done. }
  assert (B5 : bsub reply 44 60 = empty).
  { rewrite Er, (app_assoc (put_le32 2)), (app_assoc (put_le32 2 ++ _)), (app_assoc ((put_le32 2 ++ _) ++ _)). apply bsub_mid; rewrite !blen_app, ?Hxe, ?Hel; done. }
  rewrite (x_dh_comm e (i_epriv st)) in Eee by done. rewrite (x_dh_comm e P) in Ese by done.
  unfold consumeResponse. rewrite Hpub, Hpriv, Hpsk. run.
  rewrite (slice_ok reply 0 60), (slice_ok reply 60 76), (slice_ok reply 4 8), (slice_ok reply 12 44), (slice_ok reply 44 60), B1, B2, B3, B4, B5 by lia.
  assert (Eli : le32 (put_le32 index) 0 = Ok index).
  { rewrite le32_ok by (rewrite ?blen_put_le32; lia). f_equal. pose proof (le32_at_put [] index [] Hi) as Li. by rewrite app_nil_r in Li. }
  assert (Enp : NewPublicKey (x_pub e) = Ok (x_pub e)) by (unfold NewPublicKey; rewrite Hxe; done).
  run. rewrite bool_decide_eq_true_2 by done. cbn [negb]. run. rewrite Eo. run. done.
Qed.
(** ** Every step returns *)
Lemma mixHash_ok h d : ∃ x, mixHash h d = Ok x.
Proof. destruct (Blake2s256_ok (h ++ d)) as (x & E & _). by exists x. Qed.
(** A hash or a derivation succeeds, whatever is to be shown of the rest. *)
Lemma step_hash {B} (Q : Res B → Prop) d (f : list Z → Res B) : (∀ x, blen x = 32 → Q (f x)) → Q (Blake2s256 d ≫= f).
Proof. intros H. destruct (Blake2s256_ok d) as (x & -> & ? & _). rewrite bind_Ok. auto. Qed.
Lemma step_mix {B} (Q : Res B → Prop) h d (f : list Z → Res B) : (∀ x, Q (f x)) → Q (mixHash h d ≫= f).
Proof. intros H. destruct (mixHash_ok h d) as (x & ->). rewrite bind_Ok. auto. Qed.
Lemma step_kdf1 {B} (Q : Res B → Prop) k i (f : list Z → Res B) : (∀ x, Q (f x)) → Q (KDF1 k i ≫= f).
Proof. intros H. destruct (KDF1_ok k i) as (x & -> & _). rewrite bind_Ok. auto. Qed.
Lemma step_kdf2 {B} (Q : Res B → Prop) k i (f : list Z * list Z → Res B) : (∀ x y, Q (f (x, y))) → Q (KDF2 k i ≫= f).
Proof. intros H. destruct (KDF2_ok k i) as (x & y & -> & _). rewrite bind_Ok. auto. Qed.
Lemma step_kdf3 {B} (Q : Res B → Prop) k i (f : list Z * list Z * list Z → Res B) : (∀ x y z, Q (f (x, y, z))) → Q (KDF3 k i ≫= f).
Proof. intros H. destruct (KDF3_ok k i) as (x & y & z & -> & _). rewrite bind_Ok. auto. Qed.
Lemma step_mac {B} (Q : Res B → Prop) k d (f : list Z → Res B) : blen k <= 32 → (∀ x, blen x = 16 → Q (f x)) → Q (Blake2s128Keyed k d ≫= f).
Proof. intros Hk H. destruct (Blake2s128Keyed_ok k d Hk) as (x & -> & ? & _). rewrite bind_Ok. auto. Qed.
Lemma NewPublicKey_returns r : returns (NewPublicKey r).
Proof. unfold NewPublicKey. by destruct (_ =? _). Qed.

Lemma consumeResponse_returns c st msg now : blen msg = respSize → bytes_ok msg → returns (consumeResponse c st msg now).
Proof.
  intros Hl Hb. unfold respSize in Hl. unfold consumeResponse. apply step_hash. intros k Hk.
  rewrite (slice_ok msg 0 60), (slice_ok msg 60 76), (slice_ok msg 4 8), (slice_ok msg 12 44), (slice_ok msg 44 60), ?bind_Ok by lia.
  apply step_mac; [lia|]. intros want _. rewrite ?bind_Ok. destruct (negb _); [done|]. rewrite ?bind_Ok.
  rewrite le32_ok, !bind_Ok by (rewrite ?blen_bsub; lia).
  apply step_kdf1. intros c1. apply step_mix. intros h1. apply returns_bind; [apply NewPublicKey_returns|]. intros rp _.
  apply returns_bind; [apply x_dh_returns|]. intros ee _. apply step_kdf1. intros c2.
  apply returns_bind; [apply x_dh_returns|]. intros se _. apply step_kdf1. intros c3.
  apply step_kdf3. intros c4 tau key. cbv beta iota. apply step_mix. intros h2.
  apply returns_bind; [apply aead_new_returns|]. intros a _. rewrite ?bind_Ok.
  pose proof (aead_open_returns a zeroNonce (bsub msg 44 60) h2 (bytes_ok_bsub msg 44 60 Hb)) as Ho.
  destruct (aead_open a zeroNonce (bsub msg 44 60) h2) as [[|]| | |]; try done.
  apply step_kdf2. intros k1 k2. cbv beta iota. apply returns_bind; [apply aead_new_returns|]. intros s _.
  apply returns_bind; [apply aead_new_returns|]. done.
Qed.

Lemma consumeCookie_returns c st msg now : blen msg = cookieSize → bytes_ok msg → returns (consumeCookie c st msg now).
Proof.
  intros Hl Hb. unfold cookieSize in Hl. unfold consumeCookie. rewrite (slice_ok msg 8 32), (slice_ok msg 32 64), !bind_Ok by lia.
  pose proof (xOpen_returns (k_cookieKey c) (bsub msg 8 32) (bsub msg 32 64) (i_mac1 st) (bytes_ok_bsub msg 32 64 Hb)) as Ho.
  destruct (xOpen _ _ _ _); try done. by destruct (_ =? _).
Qed.

Lemma step_copy n {B} (Q : Res B → Prop) b lo hi src (f : list Z → Res B) : blen b = n → 0 <= lo <= hi ∧ hi <= n → (∀ b', blen b' = n → Q (f b')) →
  Q (copy_into b lo hi src ≫= f).
Proof.
  intros Hn H Hf. unfold copy_into. rewrite !(proj2 (Z.leb_le _ _)) by lia. cbn [andb]. rewrite bind_Ok. apply Hf. rewrite blen_bcopy; lia.
Qed.

(** What the sources of random bytes give. *)
Record env_ok (env : init_env) : Prop := {
  eo_raw : returns (e_eraw env);
  eo_idx : returns (e_idx env);
  eo_idx_ok : ∀ b, e_idx env = Ok b → blen b = 4 ∧ bytes_ok b
}.

Lemma makeInitiation_returns c ck env : blen (k_mac1Key c) <= 32 → blen (ck_cookie ck) <= 32 → env_ok env → returns (makeInitiation c ck env).
Proof.
  intros Hk Hc [Hr Hi Hio]. unfold makeInitiation. apply returns_bind; [done|]. intros eraw _.
  apply returns_bind; [unfold NewPrivateKey; by destruct (_ =? _)|]. intros ep _. cbv zeta.
  apply step_hash. intros c0 _. apply step_mix. intros h0. apply step_mix. intros h1. apply step_kdf1. intros c1. apply step_mix. intros h2.
  apply returns_bind; [apply NewPublicKey_returns|]. intros pk _. apply returns_bind; [apply x_dh_returns|]. intros es _.
  apply step_kdf2. intros c2 k1. cbv beta iota. apply returns_bind; [apply aead_new_returns|]. intros a1 _.
  apply returns_bind; [apply aead_seal_returns|]. intros s1 _. apply step_mix. intros h3.
  apply returns_bind; [apply x_dh_returns|]. intros ss _. apply step_kdf2. intros c3 k2. cbv beta iota.
  apply returns_bind; [apply aead_new_returns|]. intros a2 _. apply returns_bind; [apply aead_seal_returns|]. intros s2 _.
  apply step_mix. intros h4. apply returns_bind; [done|]. intros idxb Hb. destruct (Hio idxb Hb) as [Hl _].
  rewrite le32_ok, bind_Ok by lia.
  apply (step_copy 148); [done|lia|]. intros m1 H1. apply (step_copy 148); [done|lia|]. intros m2 H2. apply (step_copy 148); [done|lia|]. intros m3 H3.
  apply (step_copy 148); [done|lia|]. intros m4 H4. apply (step_copy 148); [done|lia|]. intros m5 H5.
  rewrite slice_ok, bind_Ok by lia. apply step_mac; [done|]. intros mac1 _. apply (step_copy 148); [done|lia|]. intros m6 H6.
  apply returns_bind; [|done]. destruct (match ck_at ck with Some _ => _ | None => _ end); [|done].
  rewrite slice_ok, bind_Ok by lia. apply step_mac; [done|]. intros mac2 _. unfold copy_into. by rewrite H6.
Qed.
(** With an AEAD that does not fail and points of full order, both sides succeed. *)
Definition succeeds {B} (m : Res B) : Prop := ∃ b, m = Ok b.
Lemma succeeds_bind {B C} (m : Res B) (f : B → Res C) : succeeds m → (∀ b, succeeds (f b)) → succeeds (m ≫= f).
Proof. intros (b & ->) H. apply H. Qed.
Record aead_works : Prop := {
  aw_new : ∀ k, succeeds (aead_new k);
  aw_seal : ∀ a pt aad, succeeds (aead_seal a zeroNonce pt aad)
}.

Lemma makeInitiation_succeeds c ck env eraw idxb : aead_works → blen (k_mac1Key c) <= 32 → blen (ck_cookie ck) <= 32 →
  e_eraw env = Ok eraw → blen eraw = 32 → e_idx env = Ok idxb → blen idxb = 4 → blen (k_peerPub c) = 32 →
  succeeds (x_dh eraw (k_peerPub c)) → succeeds (x_dh (k_priv c) (k_peerPub c)) → succeeds (makeInitiation c ck env).
Proof.
  intros [Hn Hse] Hk Hc Er Hr Ei Hi Hp Hes Hss. unfold makeInitiation. rewrite Er, bind_Ok. unfold NewPrivateKey, NewPublicKey. rewrite Hr, Hp. cbn [Z.eqb Pos.eqb].
  rewrite bind_Ok. cbv zeta. apply step_hash. intros c0 _. apply step_mix. intros h0. apply step_mix. intros h1. apply step_kdf1. intros c1. apply step_mix. intros h2.
  rewrite bind_Ok. apply succeeds_bind; [done|]. intros es. apply step_kdf2. intros c2 k1. cbv beta iota.
  apply succeeds_bind; [apply Hn|]. intros a1. apply succeeds_bind; [apply Hse|]. intros s1. apply step_mix. intros h3.
  apply succeeds_bind; [done|]. intros ss. apply step_kdf2. intros c3 k2. cbv beta iota.
  apply succeeds_bind; [apply Hn|]. intros a2. apply succeeds_bind; [apply Hse|]. intros s2. apply step_mix. intros h4.
  rewrite Ei, bind_Ok, le32_ok, bind_Ok by lia.
  apply (step_copy 148); [done|lia|]. intros m1 H1. apply (step_copy 148); [done|lia|]. intros m2 H2. apply (step_copy 148); [done|lia|]. intros m3 H3.
  apply (step_copy 148); [done|lia|]. intros m4 H4. apply (step_copy 148); [done|lia|]. intros m5 H5.
  rewrite slice_ok, bind_Ok by lia. apply step_mac; [done|]. intros mac1 _. apply (step_copy 148); [done|lia|]. intros m6 H6.
  apply succeeds_bind; [|intros ?; eexists; done]. destruct (match ck_at ck with Some _ => _ | None => _ end); [|by eexists].
  rewrite slice_ok, bind_Ok by lia. apply step_mac; [done|]. intros mac2 _. unfold copy_into. rewrite H6. by eexists.
Qed.
Lemma responder_reply_succeeds psk rs e index : aead_works →
  succeeds (x_dh e (r_epub rs)) → succeeds (x_dh e (r_static rs)) → succeeds (responder_reply psk rs e index).
Proof.
  intros [Hn Hse] Hee Hss. unfold responder_reply. cbv zeta. apply step_kdf1. intros c1. apply step_mix. intros h1.
  apply succeeds_bind; [done|]. intros ee. apply step_kdf1. intros c2. apply succeeds_bind; [done|]. intros se. apply step_kdf1. intros c3.
  apply step_kdf3. intros c4 tau key. cbv beta iota. apply step_mix. intros h2. apply succeeds_bind; [apply Hn|]. intros a.
  apply succeeds_bind; [apply Hse|]. intros ct. apply step_hash. intros k Hk. apply step_mac; [lia|]. intros m _.
  apply step_kdf2. intros k1 k2. cbv beta iota. apply succeeds_bind; [apply Hn|]. intros rx. apply succeeds_bind; [apply Hn|]. intros tx. by eexists.
Qed.
End Handshake.

Section Claims.
Context {A : AEAD} {X : X25519}.

(** C11: The handshake agrees.  Whatever the keys, random bytes and clock, when the
    client makes an initiation, the responder it is meant for reads from it the
    client's public key and timestamp; and for every answer such a responder makes,
    the client recognises the answer as its own and installs a session that sends
    with the responder's receiving key and receives with its sending key, under the
    two indexes exchanged. *)
Theorem handshake_agrees (P R psk : list Z) (c : keys) (ck : cookie_state) (env : init_env) (idxb : list Z) (st : initState) (msg : list Z) :
  new_keys P (x_pub R) psk = Ok c → blen R = 32 → blen (ck_cookie ck) = 16 → e_idx env = Ok idxb → bytes_ok idxb →
  makeInitiation c ck env = Ok (st, msg) →
  ∃ rs, responder_consume R msg = Ok rs ∧ r_static rs = x_pub P ∧ r_ts rs = tai64n (e_ts env) ∧ r_sender rs = i_sender st ∧
    ∀ e index reply rx tx now, blen e = 32 → 0 <= index < 4294967296 → responder_reply psk rs e index = Ok (reply, rx, tx) →
      blen reply = respSize ∧ le32_at reply 0 = msgResp ∧ le32_at reply 8 = i_sender st ∧
      consumeResponse c st reply now = Ok (mkSession (i_sender st) index rx tx 0 replay0 now None false).
Proof.
  intros Hk HR Hc Ei Hb E. destruct (initiation_consumed P R psk c ck env st msg idxb Hk HR Hc Ei Hb E) as (_ & Hs & _ & He & _ & Ec).
  eexists. split; [exact Ec|]. split_and!; try done. intros e index reply rx tx now Hle Hi Er.
  eapply (reply_consumed P (x_pub R) psk c st e index); eauto; try done. lia.
Qed.

(** A server under load answers an initiation with a cookie, sealed for the [mac1]
    it received. *)
Definition cookie_reply (R : list Z) (receiver : Z) (nonce cookie mac1 : list Z) : Res (list Z) :=
  k ← Blake2s256 (lit "cookie--" ++ x_pub R);
  ct ← xSeal k nonce cookie mac1;
  Ok (put_le32 3 ++ put_le32 receiver ++ nonce ++ ct).

(** Cookies.  A cookie reply to an initiation is accepted, and within two
    minutes of it every further initiation carries the MAC of its first 132 bytes
    under that cookie in its last field; after two minutes the field is zero. *)
Theorem cookie_used (P R psk nonce cookie reply : list Z) (c : keys) (st : initState) (now : Z) :
  new_keys P (x_pub R) psk = Ok c → blen R = 32 → blen nonce = 24 → blen cookie = 16 → bytes_ok cookie →
  cookie_reply R (i_sender st) nonce cookie (i_mac1 st) = Ok reply →
  blen reply = cookieSize ∧
  ∃ ck, consumeCookie c st reply now = Ok ck ∧
    ∀ env idxb st' msg, e_idx env = Ok idxb → bytes_ok idxb → makeInitiation c ck env = Ok (st', msg) →
      if e_now env - now <? 2 * minute then Blake2s128Keyed cookie (bsub msg 0 132) = Ok (bsub msg 132 148)
      else bsub msg 132 148 = zeros 16.
Proof.
  intros Hk HR Hn Hc Hb E. destruct (new_keys_inv _ _ _ _ Hk) as (_ & _ & _ & _ & _ & _ & Hck & _).
  unfold cookie_reply in E. rewrite Hck, bind_Ok in E. apply bind_Ok_inv in E as (ct & Ect & E).
  assert (Er : reply = put_le32 3 ++ put_le32 (i_sender st) ++ nonce ++ ct) by congruence.
  destruct (xSeal_opens _ _ _ _ _ Hb Ect) as (_ & Hl & Eo).
  assert (Hlen : blen reply = 64) by (rewrite Er, !blen_app, Hn, Hl, Hc; done). split; [done|].
  assert (B1 : bsub reply 8 32 = nonce) by (rewrite Er, (app_assoc (put_le32 3)); apply bsub_mid; rewrite ?Hn; done).
  assert (B2 : bsub reply 32 64 = ct).
  { replace reply with (((put_le32 3 ++ put_le32 (i_sender st)) ++ nonce) ++ ct ++ []) by (rewrite Er, app_nil_r, <- !app_assoc; done).
    apply bsub_mid; rewrite !blen_app, ?Hn, ?Hl, ?Hc; done. }
  exists (mkCookie cookie (Some now)). split.
  - unfold consumeCookie. rewrite (slice_ok reply 8 32), (slice_ok reply 32 64), B1, B2, !bind_Ok, Eo, Hc by lia. done.
  - intros env idxb st' msg Ei Hib Em.
    destruct (initiation_consumed P R psk c (mkCookie cookie (Some now)) env st' msg idxb Hk HR Hc Ei Hib Em) as (_ & _ & _ & _ & Hm & _).
    unfold mac2_of in Hm. cbn [ck_at ck_cookie] in Hm. destruct (_ <? _); congruence.
Qed.
End Claims.

(** ** A concrete instance

    Agreement by multiplication modulo 2^255 - 19, with the portable AEAD. *)
Definition toy_p : Z := 2 ^ 255 - 19.
Lemma leBig_le_bytes n v : 0 <= v < 256 ^ Z.of_nat n → leBig (le_bytes n v) = v.
Proof.
  revert v. induction n as [|n IH]; intros v Hv; cbn [le_bytes].
  - change (256 ^ Z.of_nat 0) with 1 in Hv. assert (v = 0) as -> by lia. done.
  - rewrite Nat2Z.inj_succ, Z.pow_succ_r in Hv by lia. rewrite leBig_cons, IH by (split; [apply Z.div_pos|apply Z.div_lt_upper_bound]; lia).
    symmetry. rewrite Z.add_comm. apply Z.div_mod. lia.
Qed.
Lemma le_bytes_ok n v : blen (le_bytes n v) = Z.of_nat n ∧ bytes_ok (le_bytes n v).
Proof.
  revert v. induction n as [|n IH]; intros v; cbn [le_bytes]; [split; [done|constructor]|]. destruct (IH (v `div` 256)) as [H1 H2].
  split; [rewrite blen_cons, H1; lia|]. constructor; [apply Z.mod_pos_bound; lia|done].
Qed.
Definition toyX : X25519.
Proof.
  refine {| x_pub k := le_bytes 32 ((9 * leBig k) `mod` toy_p);
            x_dh a b := let v := (leBig a * leBig b) `mod` toy_p in
              if v =? 0 then Err "crypto/ecdh: bad X25519 remote ECDH input: low order point" else Ok (le_bytes 32 v) |}.
  - intros k. apply (le_bytes_ok 32).
  - intros k. apply (le_bytes_ok 32).
  - intros a b. cbv zeta. by destruct (_ =? 0).
  - intros a b _ _. cbv zeta. assert (Hp : 0 < toy_p < 256 ^ Z.of_nat 32) by done.
    rewrite !leBig_le_bytes by (pose proof (Z.mod_pos_bound (9 * leBig a) toy_p); pose proof (Z.mod_pos_bound (9 * leBig b) toy_p); lia).
    rewrite !Zmult_mod_idemp_r. replace (leBig a * (9 * leBig b)) with (leBig b * (9 * leBig a)) by ring. done.
Defined.

Definition toy_env : init_env := mkEnv (Ok (range 40 32)) (Ok [1; 2; 3; 4]) 1700000000123456789 5.
Definition toy_keys : Res keys := @new_keys toyX (range 1 32) (@x_pub toyX (range 7 32)) (range 90 32).

Lemma pureAEAD_works : @aead_works pureAEAD.
Proof. split; [by eexists|]. intros a pt aad. destruct (Seal_spec a zeroNonce pt aad eq_refl) as (ct & E & _). by exists ct. Qed.
Lemma toy_keys_ok : succeeds toy_keys.
Proof.
  unfold toy_keys, new_keys. change (NewPrivateKey (range 1 32)) with (Ok (range 1 32)). rewrite bind_Ok. cbv zeta. apply step_hash. intros m _. apply step_hash. intros k _. by eexists.
Qed.

Lemma toy_idx_ok : bytes_ok [1; 2; 3; 4].
Proof. apply bytes_okb_ok. reflexivity. Qed.
Lemma toy_initiation c : toy_keys = Ok c → succeeds (@makeInitiation pureAEAD toyX c no_cookie toy_env).
Proof.
  intros Ek. pose proof (new_keys_inv _ _ _ _ Ek) as (_ & Hpriv & _ & Hpeer & _ & _ & _ & Hml).
  eapply (@makeInitiation_succeeds pureAEAD toyX c no_cookie toy_env); [exact pureAEAD_works|rewrite Hml; lia|done|reflexivity|reflexivity|reflexivity|reflexivity| | |];
    rewrite ?Hpeer, ?Hpriv; [reflexivity|eexists; vm_compute; reflexivity..].
Qed.

Lemma handshake_agrees_witness :
  ∃ c st msg rs reply rx tx, toy_keys = Ok c ∧ @makeInitiation pureAEAD toyX c no_cookie toy_env = Ok (st, msg) ∧
    @responder_consume pureAEAD toyX (range 7 32) msg = Ok rs ∧ r_static rs = @x_pub toyX (range 1 32) ∧
    @responder_reply pureAEAD toyX (range 90 32) rs (range 60 32) 99 = Ok (reply, rx, tx) ∧
    @consumeResponse pureAEAD toyX c st reply 3 = Ok (@mkSession pureAEAD (i_sender st) 99 rx tx 0 replay0 3 None false).
Proof.
  destruct toy_keys_ok as (c & Ek). destruct (toy_initiation c Ek) as ([st msg] & Em).
  destruct (@handshake_agrees pureAEAD toyX (range 1 32) (range 7 32) (range 90 32) c no_cookie toy_env [1; 2; 3; 4] st msg
    Ek eq_refl eq_refl eq_refl toy_idx_ok Em) as (rs & Ec & Hs & _ & _ & Hr).
  destruct (@initiation_consumed pureAEAD toyX (range 1 32) (range 7 32) (range 90 32) c no_cookie toy_env st msg [1; 2; 3; 4]
    Ek eq_refl eq_refl eq_refl toy_idx_ok Em) as (_ & _ & Eraw & _ & _ & Ec').
  assert (Hre : r_epub rs = @x_pub toyX (range 40 32)) by (rewrite Ec' in Ec; apply (f_equal (fun r => match r with Ok a => r_epub a | _ => [] end)) in Ec;
    rewrite <- Ec; cbn [r_epub]; f_equal; apply (f_equal (fun r => match r with Ok a => a | _ => [] end)) in Eraw; symmetry; exact Eraw).
  destruct (@responder_reply_succeeds pureAEAD toyX (range 90 32) rs (range 60 32) 99 pureAEAD_works) as ([[reply rx] tx] & Er).
  - rewrite Hre. eexists. vm_compute. reflexivity.
  - rewrite Hs. eexists. vm_compute. reflexivity.
  - exists c, st, msg, rs, reply, rx, tx.
    exact (conj Ek (conj Em (conj Ec (conj Hs (conj Er (proj2 (proj2 (proj2 (Hr (range 60 32) 99 reply rx tx 3 eq_refl ltac:(lia) Er))))))))).
Defined.

Lemma xSeal_pure key nonce pt aad : blen nonce = 24 → succeeds (@xSeal pureAEAD key nonce pt aad).
Proof.
  intros Hn. unfold xSeal. rewrite Hn. cbn [Z.eqb Pos.eqb negb]. rewrite !slice_ok, bind_Ok by lia. unfold hChaCha20.
  rewrite !le32_ok, !bind_Ok by (rewrite ?blen_bsub; lia). cbv zeta. cbn [aead_new pureAEAD]. rewrite !bind_Ok.
  destruct (Seal_spec (flat_map put_le32 (let x := Nat.iter 10 double_round (chacha_const ++ key_words key ++
    [le32_at (bsub nonce 0 16) 0; le32_at (bsub nonce 0 16) 4; le32_at (bsub nonce 0 16) 8; le32_at (bsub nonce 0 16) 12]) in
    [gb x 0; gb x 1; gb x 2; gb x 3; gb x 12; gb x 13; gb x 14; gb x 15])) (zeros 4 ++ bsub nonce 16 24) pt aad) as (ct & E & _).
  - rewrite blen_app, blen_bsub by lia. done.
  - exists ct. exact E.
Qed.
Definition toy_state : initState := mkInit 5 (range 40 32) (zeros 32) (zeros 32) (range 1 16).
Lemma cookie_used_witness :
  ∃ c reply ck, toy_keys = Ok c ∧ @cookie_reply pureAEAD toyX (range 7 32) 5 (range 3 24) (range 8 16) (range 1 16) = Ok reply ∧
    @consumeCookie pureAEAD c toy_state reply 12 = Ok ck.
Proof.
  destruct toy_keys_ok as (c & Ek).
  assert (H : succeeds (@cookie_reply pureAEAD toyX (range 7 32) 5 (range 3 24) (range 8 16) (range 1 16))).
  { unfold cookie_reply. apply step_hash. intros k _. apply succeeds_bind; [|intros ct; eexists; reflexivity]. apply xSeal_pure. reflexivity. }
  destruct H as (reply & Er).
  destruct (@cookie_used pureAEAD toyX (range 1 32) (range 7 32) (range 90 32) (range 3 24) (range 8 16) reply c toy_state 12
    Ek eq_refl eq_refl eq_refl ltac:(apply bytes_okb_ok; reflexivity) Er) as (_ & ck & Ec & _).
  exists c, reply, ck. exact (conj Ek (conj Er Ec)).
Defined.
