(* ===== verification/WireGuard.v ===== *)
(** * The WireGuard client: [internal/wireguard/client.go]

    Sessions are objects of a store, shared by the table of sessions by local index,
    the current pointer and the callers that hold one; a goroutine's turn under a
    lock is one operation.  Clock readings, the outcome of a UDP write and the choice
    of [select] among ready cases are arguments.  [Close] of a session's two AEAD
    handles is recorded in the object. *)

From S2P Require Import Prelude Netip GoStrings Packet Crypto Replay Handshake.
Local Open Scope Z_scope.

Definition rekeyAfterTime : Z := 110 * second.
Definition rejectAfterTime : Z := 170 * second.

(** [Diagnostics], with the two byte counters of [Stats]. *)
Record Diagnostics := mkDiag { RawRX : Z; WrongEndpoint : Z; ShortRX : Z; UnknownType : Z; NoSession : Z;
  AuthFail : Z; ReplayDrop : Z; InvalidInner : Z; PlainQHigh : Z; PlainDrop : Z; TransportRX : Z; TXDatagrams : Z; TXErrors : Z;
  TxBytes : Z; RxBytes : Z }.
Definition diag0 : Diagnostics := mkDiag 0 0 0 0 0 0 0 0 0 0 0 0 0 0 0.

(** The counter that one event adds to. *)
Inductive tick := TRaw | TWrong | TShort | TUnknown | TNoSession | TAuth | TReplay | TInner | TDrop | TErr
  | THigh (cur : Z) | TRecv (n : Z) | TSent (n : Z).
Definition bump (t : tick) (d : Diagnostics) : Diagnostics :=
  let '(mkDiag raw wr sh un no au re inn qh dr rx tx er tb rb) := d in
  match t with
  | TRaw => mkDiag (u64 (raw + 1)) wr sh un no au re inn qh dr rx tx er tb rb
  | TWrong => mkDiag raw (u64 (wr + 1)) sh un no au re inn qh dr rx tx er tb rb
  | TShort => mkDiag raw wr (u64 (sh + 1)) un no au re inn qh dr rx tx er tb rb
  | TUnknown => mkDiag raw wr sh (u64 (un + 1)) no au re inn qh dr rx tx er tb rb
  | TNoSession => mkDiag raw wr sh un (u64 (no + 1)) au re inn qh dr rx tx er tb rb
  | TAuth => mkDiag raw wr sh un no (u64 (au + 1)) re inn qh dr rx tx er tb rb
  | TReplay => mkDiag raw wr sh un no au (u64 (re + 1)) inn qh dr rx tx er tb rb
  | TInner => mkDiag raw wr sh un no au re (u64 (inn + 1)) qh dr rx tx er tb rb
  | TDrop => mkDiag raw wr sh un no au re inn qh (u64 (dr + 1)) rx tx er tb rb
  | TErr => mkDiag raw wr sh un no au re inn qh dr rx tx (u64 (er + 1)) tb rb
  | THigh cur => mkDiag raw wr sh un no au re inn (if cur <=? qh then qh else cur) dr rx tx er tb rb
  | TRecv n => mkDiag raw wr sh un no au re inn qh dr (u64 (rx + 1)) tx er tb (u64 (rb + n))
  | TSent n => mkDiag raw wr sh un no au re inn qh dr rx (u64 (tx + 1)) er (u64 (tb + n)) rb
  end.

(** [net.UDPAddr] and the comparison of its addresses, where an IPv4 address and its
    16-byte form are equal. *)
Record UDPAddr := mkUDP { ua_ip : list Z; ua_port : Z }.
Definition v4InV6Prefix : list Z := zeros 10 ++ [255; 255].
Definition ip_equal (a b : list Z) : bool :=
  if blen a =? blen b then bool_decide (a = b)
  else if (blen a =? 4) && (blen b =? 16) then bool_decide (b = v4InV6Prefix ++ a)
  else if (blen a =? 16) && (blen b =? 4) then bool_decide (a = v4InV6Prefix ++ b)
  else false.
Definition sameEndpoint (a b : UDPAddr) : bool := (ua_port a =? ua_port b) && ip_equal (ua_ip a) (ua_ip b).

(** A datagram given to the network: the local port it leaves from and its bytes. *)
Record datagram := mkOut { out_port : Z; out_bytes : list Z }.

Section Client.
Context {A : AEAD} {X : X25519}.

(** What [New] fixes for the client's lifetime. *)
Record Params := mkParams { p_keys : keys; p_mtu : Z; p_keepalive : Z; p_endpoint : UDPAddr; p_ports : Z * Z }.

Record Client := mkClient {
  params : Params;
  activePath : Z;
  cookie : cookie_state;
  respCh : list (list Z);
  cookieCh : list (list Z);
  store : gmap nat session;          (* every session ever made *)
  next_id : nat;
  sessions : gmap Z nat;
  current : option nat;
  plain : list (list Z);
  done_ : bool;
  lastHandshake : Z;
  rekeying : bool;
  diag : Diagnostics;
  wire : list datagram               (* written to the sockets *)
}.

Definition NewClient (p : Params) : Client :=
  mkClient p 0 no_cookie [] [] ∅ 0 ∅ None [] false 0 false diag0 [].

Definition set_diag (c : Client) (d : Diagnostics) : Client :=
  mkClient (params c) (activePath c) (cookie c) (respCh c) (cookieCh c) (store c) (next_id c) (sessions c) (current c) (plain c) (done_ c) (lastHandshake c) (rekeying c) d (wire c).
Definition count (t : tick) (c : Client) : Client := set_diag c (bump t (diag c)).
Definition set_path (c : Client) (p : Z) : Client :=
  mkClient (params c) p (cookie c) (respCh c) (cookieCh c) (store c) (next_id c) (sessions c) (current c) (plain c) (done_ c) (lastHandshake c) (rekeying c) (diag c) (wire c).
Definition set_cookie (c : Client) (k : cookie_state) : Client :=
  mkClient (params c) (activePath c) k (respCh c) (cookieCh c) (store c) (next_id c) (sessions c) (current c) (plain c) (done_ c) (lastHandshake c) (rekeying c) (diag c) (wire c).
Definition set_chans (c : Client) (r k : list (list Z)) : Client :=
  mkClient (params c) (activePath c) (cookie c) r k (store c) (next_id c) (sessions c) (current c) (plain c) (done_ c) (lastHandshake c) (rekeying c) (diag c) (wire c).
Definition set_store (c : Client) (st : gmap nat session) : Client :=
  mkClient (params c) (activePath c) (cookie c) (respCh c) (cookieCh c) st (next_id c) (sessions c) (current c) (plain c) (done_ c) (lastHandshake c) (rekeying c) (diag c) (wire c).
Definition set_table (c : Client) (st : gmap nat session) (nx : nat) (ss : gmap Z nat) (cur : option nat) : Client :=
  mkClient (params c) (activePath c) (cookie c) (respCh c) (cookieCh c) st nx ss cur (plain c) (done_ c) (lastHandshake c) (rekeying c) (diag c) (wire c).
Definition set_plain (c : Client) (q : list (list Z)) : Client :=
  mkClient (params c) (activePath c) (cookie c) (respCh c) (cookieCh c) (store c) (next_id c) (sessions c) (current c) q (done_ c) (lastHandshake c) (rekeying c) (diag c) (wire c).
Definition set_wire (c : Client) (w : list datagram) : Client :=
  mkClient (params c) (activePath c) (cookie c) (respCh c) (cookieCh c) (store c) (next_id c) (sessions c) (current c) (plain c) (done_ c) (lastHandshake c) (rekeying c) (diag c) w.
Definition set_flags (c : Client) (d : bool) (last : Z) (rk : bool) : Client :=
  mkClient (params c) (activePath c) (cookie c) (respCh c) (cookieCh c) (store c) (next_id c) (sessions c) (current c) (plain c) d last rk (diag c) (wire c).

(** ** Sessions *)
Definition set_counter (s : session) (n : Z) : session :=
  mkSession (localIndex s) (remoteIndex s) (send s) (recv s) n (sreplay s) (created s) (retiredAt s) (closed s).
Definition set_replay (s : session) (r : replay) : session :=
  mkSession (localIndex s) (remoteIndex s) (send s) (recv s) (sendCounter s) r (created s) (retiredAt s) (closed s).
Definition set_retired (s : session) (t : Z) : session :=
  mkSession (localIndex s) (remoteIndex s) (send s) (recv s) (sendCounter s) (sreplay s) (created s) (Some t) (closed s).
Definition close_session (s : session) : session :=
  mkSession (localIndex s) (remoteIndex s) (send s) (recv s) (sendCounter s) (sreplay s) (created s) (retiredAt s) true.

(** (usable, shouldRekey); the nil session is [None]. *)
Definition sessionUsable (s : option session) (now : Z) : bool * bool :=
  match s with
  | None => (false, false)
  | Some s =>
      if 2 ^ 60 <=? sendCounter s then (false, false) else
      let age := now - created s in
      let age := if age <? 0 then 0 else age in
      if rejectAfterTime <=? age then (false, false) else
      (true, rekeyAfterTime <=? age)
  end.
Definition current_obj (c : Client) : option session := id ← current c; store c !! id.
Definition currentSession (c : Client) : Res nat :=
  match current c with None => Err "no session" | Some id => Ok id end.

(** [installSession] of a new session: the object is stored, the previous current
    session is retired. *)
Definition installSession (c : Client) (s : session) (now : Z) : Client :=
  let st := match current c with
            | Some id => match store c !! id with
                         | Some cur => match retiredAt cur with
                                       | None => <[id := set_retired cur now]> (store c)
                                       | Some _ => store c
                                       end
                         | None => store c
                         end
            | None => store c
            end in
  let id := next_id c in
  set_table c (<[id := s]> st) (S id) (<[localIndex s := id]> (sessions c)) (Some id).

(** One tick of the reaper. *)
Definition reapable (c : Client) (now : Z) (id : nat) : bool :=
  negb (bool_decide (current c = Some id)) &&
  match store c !! id with
  | Some s => match retiredAt s with Some t => 3 * minute <? now - t | None => false end
  | None => false
  end.
Definition close_all (ids : list nat) (st : gmap nat session) : gmap nat session :=
  fold_left (fun st id => alter close_session id st) ids st.
Definition reap (c : Client) (now : Z) : Client :=
  let victims := List.filter (fun kv => reapable c now (snd kv)) (map_to_list (sessions c)) in
  set_table c (close_all (map snd victims) (store c)) (next_id c)
    (fold_left (fun m kv => delete (fst kv) m) victims (sessions c)) (current c).

(** [Close], once. *)
Definition Close (c : Client) : Client :=
  if done_ c then c else
  set_table (set_flags c true (lastHandshake c) (rekeying c))
    (close_all (map snd (map_to_list (sessions c))) (store c)) (next_id c) ∅ None.

(** ** Paths *)
Definition port_at (c : Client) (i : Z) : Z := if i =? 0 then fst (p_ports (params c)) else snd (p_ports (params c)).
Definition LocalPort (c : Client) : Z := port_at c (Z.land (activePath c) 1).
Definition LocalPorts (c : Client) : Z * Z := p_ports (params c).
Definition StandbyPort (c : Client) : Z := port_at c (Z.lxor (Z.land (activePath c) 1) 1).
Definition switchActivePath (c : Client) : Client * (Z * Z) :=
  let old := Z.land (activePath c) 1 in
  let next := Z.lxor old 1 in
  (set_path c next, (port_at c old, port_at c next)).

(** ** Sending *)

Definition nonce_of (counter : Z) : Res (list Z) := copy_into (zeros 12) 4 12 (put_le64 counter).

(** Operations over the client's state, which survives a failure. *)
Definition tick_ (t : tick) : SR Client unit := fun c => (count t c, Ok tt).
Definition deref (id : nat) : SR Client session := fun c =>
  (c, match store c !! id with Some s => Ok s | None => Panic end).
Definition put_session (id : nat) (s : session) : SR Client unit := fun c =>
  (set_store c (<[id := s]> (store c)), Ok tt).

(** [activeConn().WriteToUDP(out, endpoint)], which fails with [werr]. *)
Definition write_udp (out : list Z) (werr : option string) : SR Client unit := fun c =>
  match werr with
  | None => (set_wire c (wire c ++ [mkOut (LocalPort c) out]), Ok tt)
  | Some e => (c, Err e)
  end.

Definition write_counted (out : list Z) (werr : option string) : SR Client unit := fun c =>
  match write_udp out werr c with
  | (c, Ok _) => tick_ (TSent (blen out)) c
  | (c, Err e) => (count TErr c, Err e)
  | other => other
  end.

(** [SendPacket] after the session was chosen; [werr] is the error of the write. *)
Definition transmit (id : nat) (raw : list Z) (werr : option string) : SR Client unit :=
  s ← deref id;
  let padded := Pad16 raw in
  let counter := sendCounter s in
  _ ← put_session id (set_counter s (u64 (counter + 1)));
  nonce ← liftR (nonce_of counter);
  sealed ← liftR (aead_seal (send s) nonce padded []);
  let out := zeros (16 + blen sealed) in
  out ← liftR (copy_into out 0 4 (put_le32 msgTransport));
  out ← liftR (copy_into out 4 8 (put_le32 (remoteIndex s)));
  out ← liftR (copy_into out 8 16 (put_le64 counter));
  out ← liftR (copy_into out 16 (blen out) sealed);
  write_counted out werr.

(** The guard at the start of [SendPacket]. *)
Definition mtu_refuses (c : Client) (raw : list Z) : bool :=
  (0 <? blen raw) && (0 <? p_mtu (params c)) && (p_mtu (params c) <? blen raw).

(** ** Receiving *)
Definition plain_cap : Z := 8192.
Definition chan_cap : Z := 8.

(** [select { case c.plain <- plain: case <-c.done: default: }]; [pick] is the choice
    when both cases are ready. *)
Definition deliver (c : Client) (pkt : list Z) (pick : bool) : Client :=
  if (blen (plain c) <? plain_cap) && (negb (done_ c) || pick) then set_plain c (plain c ++ [pkt])
  else if done_ c then c
  else count TDrop c.

(** The loop that raises the high-water mark of the queue. *)
Definition note_high : SR Client unit := fun c => tick_ (THigh (blen (plain c))) c.
Definition push_plain (pkt : list Z) (pick : bool) : SR Client unit := fun c => (deliver c pkt pick, Ok tt).

Definition handleTransport (raw : list Z) (pick : bool) : SR Client unit :=
  if blen raw <? 32 then tick_ TShort else
  f4 ← liftR (slice raw 4 8);
  idx ← liftR (le32 f4 0);
  f8 ← liftR (slice raw 8 16);
  lo ← liftR (le32 f8 0);
  hi ← liftR (le32 f8 4);
  let counter := lo + hi * 4294967296 in
  c ← sget;
  match sessions c !! idx with
  | None => tick_ TNoSession
  | Some id =>
      s ← deref id;
      nonce ← liftR (nonce_of counter);
      ct ← liftR (slice raw 16 (blen raw));
      match aead_open (recv s) nonce ct [] with
      | Err _ => tick_ TAuth
      | Ok pt =>
          '(r, accepted) ← liftR (Accept counter (sreplay s));
          _ ← put_session id (set_replay s r);
          if negb accepted then tick_ TReplay else
          pt ← liftR (TrimToIPLength pt);
          if blen pt =? 0 then tick_ TInner else
          b0 ← liftR (Prelude.idx pt 0);
          if negb (Z.shiftr b0 4 =? 4) && negb (Z.shiftr b0 4 =? 6) then tick_ TInner else
          _ ← tick_ (TRecv (blen raw));
          _ ← note_high;
          push_plain pt pick
      | Panic => liftR Panic
      | OutOfFuel => liftR OutOfFuel
      end
  end.

(** One datagram of [reader]. *)
Definition reader_step (from : UDPAddr) (raw : list Z) (pick : bool) : SR Client unit :=
  _ ← tick_ TRaw;
  c ← sget;
  if negb (sameEndpoint from (p_endpoint (params c))) then tick_ TWrong else
  if blen raw <? 4 then tick_ TShort else
  f ← liftR (slice raw 0 4);
  typ ← liftR (le32 f 0);
  if typ =? msgResp then
    sput (if blen (respCh c) <? chan_cap then set_chans c (respCh c ++ [raw]) (cookieCh c) else c)
  else if typ =? msgCookie then
    sput (if blen (cookieCh c) <? chan_cap then set_chans c (respCh c) (cookieCh c ++ [raw]) else c)
  else if typ =? msgTransport then handleTransport raw pick
  else tick_ TUnknown.

(** ** The handshake loop *)

(** What [select] finds ready: a queued response or cookie reply, the timer, the
    caller's context or the client's shutdown; and what happens meanwhile: a datagram
    read by [reader]. *)
Inductive event :=
| EvArrive (from : UDPAddr) (raw : list Z) (pick : bool)
| EvResp (now installed : Z)
| EvCookie (now : Z)
| EvTimer
| EvCtx (err : string)
| EvDone.

Inductive waited := WSession (id : nat) | WCookie | WTimeout | WBlocked.

(** The inner loop.  An event whose channel is empty is not ready and is passed over;
    when the events end the loop is still waiting. *)
Fixpoint wait (st : initState) (evs : list event) : SR Client (waited * list event) :=
  match evs with
  | [] => mret (WBlocked, [])
  | EvArrive from raw pick :: evs => _ ← reader_step from raw pick; wait st evs
  | EvResp now installed :: evs =>
      c ← sget;
      match respCh c with
      | [] => wait st evs
      | raw :: rest =>
          _ ← sput (set_chans c rest (cookieCh c));
          if blen raw =? respSize then
            f ← liftR (slice raw 8 12);
            receiver ← liftR (le32 f 0);
            if receiver =? i_sender st then
              match consumeResponse (p_keys (params c)) st raw now with
              | Ok s =>
                  c ← sget;
                  let id := next_id c in
                  let c := installSession c s installed in
                  _ ← sput (set_flags c (done_ c) installed (rekeying c));
                  mret (WSession id, evs)
              | Err _ => wait st evs
              | Panic => liftR Panic
              | OutOfFuel => liftR OutOfFuel
              end
            else wait st evs
          else wait st evs
      end
  | EvCookie now :: evs =>
      c ← sget;
      match cookieCh c with
      | [] => wait st evs
      | raw :: rest =>
          _ ← sput (set_chans c (respCh c) rest);
          if blen raw =? cookieSize then
            f ← liftR (slice raw 4 8);
            receiver ← liftR (le32 f 0);
            if receiver =? i_sender st then
              match consumeCookie (p_keys (params c)) st raw now with
              | Ok ck => c ← sget; _ ← sput (set_cookie c ck); mret (WCookie, evs)
              | Err _ => wait st evs
              | Panic => liftR Panic
              | OutOfFuel => liftR OutOfFuel
              end
            else wait st evs
          else wait st evs
      end
  | EvTimer :: evs => mret (WTimeout, evs)
  | EvCtx err :: _ => sfail err
  | EvDone :: evs => c ← sget; if done_ c then sfail "use of closed network connection" else wait st evs
  end.

(** The loop over attempts; each has its random bytes, clock readings and the outcome
    of its write.  A loop that is still waiting is [OutOfFuel]. *)
Fixpoint attempts (remaining attempt : nat) (env : nat → init_env) (werr : nat → option string) (timeoutsOnPath : Z) (evs : list event) :
    SR Client (nat * list event) :=
  match remaining with
  | O => sfail "WireGuard handshake timed out"
  | S remaining =>
      c ← sget;
      '(st, msg) ← liftR (makeInitiation (p_keys (params c)) (cookie c) (env attempt));
      _ ← write_udp msg (werr attempt);
      '(w, evs) ← wait st evs;
      match w with
      | WSession id => mret (id, evs)
      | WBlocked => liftR OutOfFuel
      | WCookie => attempts remaining (S attempt) env werr 0 evs
      | WTimeout =>
          let timeoutsOnPath := timeoutsOnPath + 1 in
          if timeoutsOnPath =? 3 then
            c ← sget;
            _ ← sput (fst (switchActivePath c));
            attempts remaining (S attempt) env werr 0 evs
          else attempts remaining (S attempt) env werr timeoutsOnPath evs
      end
  end.
Definition handshake (env : nat → init_env) (werr : nat → option string) (evs : list event) : SR Client (nat * list event) :=
  attempts 5 0 env werr 0 evs.

(** ** Choosing the session *)

(** The compare-and-swap of [startBackgroundRekey]: true when the goroutine starts. *)
Definition startBackgroundRekey (base : option nat) : SR Client bool := fun c =>
  match base with
  | None => (c, Ok false)
  | Some _ => if rekeying c then (c, Ok false) else (set_flags c (done_ c) (lastHandshake c) true, Ok true)
  end.

(** The check both halves of [ensureSession] make: the current session if usable, with
    whether a background rekey was started. *)
Definition select_current (now : Z) : SR Client (option (nat * bool)) := fun c =>
  match current c with
  | None => (c, Ok None)
  | Some id =>
      let '(usable, rekey) := sessionUsable (store c !! id) now in
      if usable then
        if rekey then (started ← startBackgroundRekey (Some id); mret (Some (id, started))) c
        else (c, Ok (Some (id, false)))
      else (c, Ok None)
  end.
Definition ensureSession (now1 now2 : Z) (env : nat → init_env) (werr : nat → option string) (evs : list event) : SR Client (nat * bool) :=
  r ← select_current now1;
  match r with
  | Some r => mret r
  | None =>
      r ← select_current now2;
      match r with
      | Some r => mret r
      | None => '(id, _) ← handshake env werr evs; mret (id, false)
      end
  end.

(** The goroutine of [startBackgroundRekey]. *)
Definition background_rekey (base : nat) (now : Z) (env : nat → init_env) (werr : nat → option string) (evs : list event) : SR Client unit := fun c =>
  let finish c := set_flags c (done_ c) (lastHandshake c) false in
  if done_ c then (finish c, Ok tt) else
  let skip := match current c with
              | Some id => negb (id =? base)%nat &&
                  let '(usable, rekey) := sessionUsable (store c !! id) now in usable && negb rekey
              | None => false
              end in
  if skip then (finish c, Ok tt) else
  match handshake env werr evs c with
  | (c, Ok _) | (c, Err _) => (finish c, Ok tt)
  | (c, Panic) => (finish c, Panic)
  | (c, OutOfFuel) => (c, OutOfFuel)
  end.

Definition SendPacket (raw : list Z) (now1 now2 : Z) (env : nat → init_env) (hs_werr : nat → option string) (evs : list event)
    (werr : option string) : SR Client unit := fun c =>
  if mtu_refuses c raw then (count TErr c, Err "inner packet exceeds tunnel MTU") else
  ('(id, _) ← ensureSession now1 now2 env hs_werr evs; transmit id raw werr) c.

(** One tick of [keepalive]. *)
Definition keepalive_step (now1 now2 : Z) (env : nat → init_env) (hs_werr : nat → option string) (evs : list event)
    (werr : option string) : SR Client unit := fun c =>
  match currentSession c with
  | Ok _ => match SendPacket [] now1 now2 env hs_werr evs werr c with
            | (c, Ok _) | (c, Err _) => (c, Ok tt)
            | other => other
            end
  | _ => (c, Ok tt)
  end.

(** ** The client as a state machine

    One step is one goroutine's turn.  Callers may hold any session that was ever
    made, so that a send can use one that is no longer current. *)
Definition fresh (s : session) : Prop :=
  sendCounter s = 0 ∧ sreplay s = replay0 ∧ retiredAt s = None ∧ closed s = false.

(** A step that leaves sessions and delivered packets alone. *)
Definition aside (c c' : Client) : Prop :=
  params c' = params c ∧ store c' = store c ∧ next_id c' = next_id c ∧ sessions c' = sessions c ∧ current c' = current c ∧ plain c' = plain c.

Inductive step (c : Client) : Client → Prop :=
| step_recv from raw pick c' r : bytes_ok raw → reader_step from raw pick c = (c', r) → step c c'
| step_send id raw werr c' r : is_Some (store c !! id) → transmit id raw werr c = (c', r) → step c c'
| step_install s now : fresh s → step c (installSession c s now)
| step_reap now : step c (reap c now)
| step_close : step c (Close c)
| step_take pkt q : plain c = pkt :: q → step c (set_plain c q)
| step_aside c' : aside c c' → step c c'.

Lemma aside_refl c : aside c c.
Proof. by split_and!. Qed.
Lemma aside_trans c1 c2 c3 : aside c1 c2 → aside c2 c3 → aside c1 c3.
Proof. intros (?&?&?&?&?&?) (?&?&?&?&?&?). split_and!; congruence. Qed.

(** *** Monadic computations, taken apart *)
Lemma SR_bind_run {S B C} (m : SR S B) (f : B → SR S C) s s' r :
  (m ≫= f) s = (s', r) →
  (∃ s1 b, m s = (s1, Ok b) ∧ f b s1 = (s', r)) ∨ (∃ r0, m s = (s', r0) ∧ (∀ b, r0 ≠ Ok b) ∧ (∀ d, r ≠ Ok d) ∧ (returns r0 → returns r)).
Proof.
  unfold mbind, SR_bind. destruct (m s) as [s1 [b| e| |]]; intros E; [left; by exists s1, b|right; injection E as <- <-; eexists; by split_and!..].
Qed.
Lemma liftR_run {S B C} (r0 : Res B) (f : B → SR S C) s :
  (liftR r0 ≫= f) s = match r0 with Ok b => f b s | Err e => (s, Err e) | Panic => (s, Panic) | OutOfFuel => (s, OutOfFuel) end.
Proof. by destruct r0. Qed.

(** What a received datagram does to the state: nothing to the sessions, or one
    session's replay window moves, and then at most one packet is delivered. *)
Definition transport_fields (raw : list Z) : Z * Z :=
  (le32_at raw 4, le32_at raw 8 + le32_at raw 12 * 4294967296).

Lemma sget_run {S C} (f : S → SR S C) s : (sget ≫= f) s = f s s.
Proof. done. Qed.
Lemma deref_run {C} id (f : session → SR Client C) c :
  (deref id ≫= f) c = match store c !! id with Some s => f s c | None => (c, Panic) end.
Proof. unfold mbind, SR_bind, deref. by destruct (store c !! id). Qed.
Lemma put_session_run {C} id s (f : unit → SR Client C) c : (put_session id s ≫= f) c = f tt (set_store c (<[id := s]> (store c))).
Proof. done. Qed.
Lemma tick_run {C} t (f : unit → SR Client C) c : (tick_ t ≫= f) c = f tt (count t c).
Proof. done. Qed.

Lemma nonce_of_ok n : nonce_of n = Ok (zeros 4 ++ put_le64 n).
Proof. unfold nonce_of. change (zeros 12) with (zeros 4 ++ zeros 8). by rewrite copy_append by done. Qed.
Lemma le32_at_bsub b lo hi i : 0 <= lo → 0 <= i → i + 4 <= hi - lo → hi <= blen b → le32_at (bsub b lo hi) i = le32_at b (lo + i).
Proof. intros. unfold le32_at. rewrite !gb_bsub by lia. rewrite !Z.add_assoc. done. Qed.
Lemma TrimToIPLength_total b : ∃ p, TrimToIPLength b = Ok p ∧ (bytes_ok b → bytes_ok p).
Proof.
  unfold TrimToIPLength. pose proof (blen_nonneg b). destruct (Z.ltb_spec (blen b) 1); [by exists b|]. rewrite idx_ok, bind_Ok by lia. cbv zeta.
  repeat match goal with
  | |- context [be16 b ?i] => rewrite (be16_ok b i), bind_Ok by lia
  | |- context [slice b 0 ?n] => rewrite (slice_ok b 0 n) by (pose proof (blen_nonneg b); lia)
  | |- context [if ?e then _ else _] => destruct e eqn:?; zbool
  end; eexists; split; auto with go.
Qed.

(** The inner packet is one of IPv4 or IPv6. *)
Definition inner_ok (p : list Z) : bool :=
  negb (blen p =? 0) && ((Z.shiftr (gb p 0) 4 =? 4) || (Z.shiftr (gb p 0) 4 =? 6)).

(** [handleTransport] on a datagram of 32 bytes or more, as one case analysis. *)
Lemma handleTransport_eq raw pick c : 32 <= blen raw →
  let '(ix, counter) := transport_fields raw in
  handleTransport raw pick c =
  match sessions c !! ix with
  | None => (count TNoSession c, Ok tt)
  | Some id =>
      match store c !! id with
      | None => (c, Panic)
      | Some s =>
          match aead_open (recv s) (zeros 4 ++ put_le64 counter) (bsub raw 16 (blen raw)) [] with
          | Err _ => (count TAuth c, Ok tt)
          | Ok pt =>
              match Accept counter (sreplay s) with
              | Ok (r, accepted) =>
                  let c1 := set_store c (<[id := set_replay s r]> (store c)) in
                  if negb accepted then (count TReplay c1, Ok tt) else
                  match TrimToIPLength pt with
                  | Ok p => if inner_ok p then (deliver (count (THigh (blen (plain c))) (count (TRecv (blen raw)) c1)) p pick, Ok tt)
                            else (count TInner c1, Ok tt)
                  | _ => (c1, Panic)
                  end
              | Err e => (c, Err e)
              | Panic => (c, Panic)
              | OutOfFuel => (c, OutOfFuel)
              end
          | Panic => (c, Panic)
          | OutOfFuel => (c, OutOfFuel)
          end
      end
  end.
Proof.
  intros Hl. unfold transport_fields, handleTransport. rewrite (proj2 (Z.ltb_ge (blen raw) 32)) by lia. cbv iota.
  rewrite (slice_ok raw 4 8), (slice_ok raw 8 16), (slice_ok raw 16 (blen raw)) by lia. rewrite ?liftR_run; cbv beta iota.
  rewrite (le32_ok (bsub raw 4 8) 0) by (rewrite ?blen_bsub; lia). rewrite ?liftR_run; cbv beta iota.
  rewrite (le32_ok (bsub raw 8 16) 0) by (rewrite ?blen_bsub; lia). rewrite ?liftR_run; cbv beta iota.
  rewrite (le32_ok (bsub raw 8 16) 4) by (rewrite ?blen_bsub; lia). rewrite ?liftR_run; cbv beta iota.
  rewrite !le32_at_bsub by lia. change (4 + 0) with 4. change (8 + 0) with 8. change (8 + 4) with 12. cbv zeta. set (counter := le32_at raw 8 + _).
  rewrite sget_run. destruct (sessions c !! le32_at raw 4) as [id|]; [|reflexivity].
  rewrite deref_run. destruct (store c !! id) as [s|]; [|reflexivity].
  rewrite nonce_of_ok, liftR_run, liftR_run. destruct (aead_open _ _ _ _) as [pt|e| |]; try done.
  rewrite liftR_run. destruct (Accept counter (sreplay s)) as [[r [|]]|e| |]; try done.
  rewrite put_session_run. cbn [negb]. rewrite liftR_run.
  destruct (TrimToIPLength_total pt) as (p & -> & _). unfold inner_ok. destruct (Z.eqb_spec (blen p) 0) as [|Hp]; [done|]. cbn [negb andb].
  pose proof (blen_nonneg p). rewrite idx_ok by lia. rewrite liftR_run, <- negb_orb. destruct (_ || _); done.
Qed.

(** ** The invariant *)
Record table_ok (c : Client) : Prop := {
  t_next : ∀ id s, store c !! id = Some s → (id < next_id c)%nat;
  t_table : ∀ ix id, sessions c !! ix = Some id →
    ∃ s, store c !! id = Some s ∧ localIndex s = ix ∧ closed s = false ∧ (current c ≠ Some id → retiredAt s ≠ None);
  t_cur : ∀ id, current c = Some id → ∃ s, store c !! id = Some s ∧ sessions c !! localIndex s = Some id ∧ retiredAt s = None;
  t_win : ∀ id s, store c !! id = Some s → (∃ S, window (sreplay s) S) ∧ 0 <= sendCounter s < 18446744073709551616;
  t_plain : blen (plain c) <= plain_cap
}.

Lemma NewClient_ok p : table_ok (NewClient p).
Proof. by split. Qed.
Lemma table_ok_aside c c' : aside c c' → table_ok c → table_ok c'.
Proof. intros (_ & E1 & E2 & E3 & E4 & E5) [H1 H2 H3 H4 H5]. split; rewrite ?E1, ?E2, ?E3, ?E4, ?E5; done. Qed.

(** What a received datagram can do. *)
Inductive received (c : Client) (raw : list Z) (c' : Client) : Prop :=
| rc_aside : aside c c' → received c raw c'
| rc_opened id s pt r b : sessions c !! fst (transport_fields raw) = Some id → store c !! id = Some s →
    aead_open (recv s) (zeros 4 ++ put_le64 (snd (transport_fields raw))) (bsub raw 16 (blen raw)) [] = Ok pt →
    Accept (snd (transport_fields raw)) (sreplay s) = Ok (r, b) →
    params c' = params c → store c' = <[id := set_replay s r]> (store c) → next_id c' = next_id c → sessions c' = sessions c → current c' = current c →
    (plain c' = plain c ∨ b = true ∧ blen (plain c) < plain_cap ∧ ∃ p, TrimToIPLength pt = Ok p ∧ inner_ok p = true ∧ plain c' = plain c ++ [p]) →
    received c raw c'.

Lemma transport_counter raw : bytes_ok raw → 0 <= snd (transport_fields raw) < 18446744073709551616.
Proof. intros Hb. cbn [snd transport_fields]. pose proof (le32_at_range raw 8 Hb). pose proof (le32_at_range raw 12 Hb). lia. Qed.

Lemma handleTransport_received c raw pick c' r : table_ok c → bytes_ok raw → handleTransport raw pick c = (c', r) → r = Ok tt ∧ received c raw c'.
Proof.
  intros [Hnx Htab Hcur Hwin Hpl] Hb E. destruct (decide (blen raw < 32)) as [Hs|Hs].
  { unfold handleTransport in E. rewrite (proj2 (Z.ltb_lt _ _)) in E by done. injection E as <- <-. split; [done|]. by apply rc_aside. }
  pose proof (handleTransport_eq raw pick c ltac:(lia)) as Eq. pose proof (transport_counter raw Hb) as Hc. pose proof (rc_opened c raw c') as Hop.
  destruct (transport_fields raw) as [ix n]. cbn [fst snd] in *. rewrite E in Eq. clear E.
  destruct (sessions c !! ix) as [id|] eqn:Ex; [|injection Eq as -> ->; split; [done|by apply rc_aside]].
  destruct (Htab _ _ Ex) as (s & Es & _). rewrite Es in Eq. destruct (Hwin _ _ Es) as [(S & Hw) _].
  pose proof (aead_open_returns (recv s) (zeros 4 ++ put_le64 n) (bsub raw 16 (blen raw)) [] (bytes_ok_bsub raw 16 (blen raw) Hb)) as Ho.
  destruct (aead_open (recv s) (zeros 4 ++ put_le64 n) (bsub raw 16 (blen raw)) []) as [pt|e| |] eqn:Eo; try done.
  2:{ injection Eq as -> ->. split; [done|by apply rc_aside]. }
  destruct (Accept_window (sreplay s) S n Hw Hc) as (rp & b & Ea & _). rewrite Ea in Eq. specialize (Hop id s pt rp b eq_refl Es Eo Ea). cbv zeta in Eq.
  destruct b; cbn [negb] in Eq; [|injection Eq as -> ->; split; [done|apply Hop; by try left]].
  destruct (TrimToIPLength_total pt) as (p & Ep & _). rewrite Ep in Eq.
  destruct (inner_ok p) eqn:Ei; [|injection Eq as -> ->; split; [done|apply Hop; by try left]]. injection Eq as -> ->. split; [done|].
  unfold deliver in *. cbn [plain done_ count set_diag set_store] in *.
  destruct ((blen (plain c) <? plain_cap) && (negb (done_ c) || pick)) eqn:Ed; [zbool|destruct (done_ c)]; apply Hop; cbn; try done; try (by left).
  right. split_and!; try done. by exists p.
Qed.

Lemma reader_step_received c from raw pick c' r : table_ok c → bytes_ok raw → reader_step from raw pick c = (c', r) → r = Ok tt ∧ received c raw c'.
Proof.
  intros Hok Hb. unfold reader_step. rewrite tick_run, sget_run. set (c1 := count TRaw c).
  assert (H1 : aside c c1) by done. assert (Hok1 : table_ok c1) by by eapply table_ok_aside.
  destruct (negb _); [intros [= <- <-]; split; [done|by apply rc_aside]|].
  destruct (Z.ltb_spec (blen raw) 4); [intros [= <- <-]; split; [done|by apply rc_aside]|].
  rewrite slice_ok by lia. rewrite liftR_run. cbv beta iota. rewrite le32_ok by (rewrite ?blen_bsub; lia). rewrite liftR_run. cbv beta iota.
  destruct (_ =? msgResp); [intros [= <- <-]; split; [done|apply rc_aside; by destruct (_ <? _)]|].
  destruct (_ =? msgCookie); [intros [= <- <-]; split; [done|apply rc_aside; by destruct (_ <? _)]|].
  destruct (_ =? msgTransport); [|intros [= <- <-]; split; [done|by apply rc_aside]].
  intros E. destruct (handleTransport_received _ _ _ _ _ Hok1 Hb E) as [-> Hr]. split; [done|].
  destruct Hr as [(?&?&?&?&?&?)|id s pt rp b]; [apply rc_aside; by split_and!|by eapply rc_opened].
Qed.

Definition transport_message (s : session) (sealed : list Z) : list Z :=
  put_le32 msgTransport ++ put_le32 (remoteIndex s) ++ put_le64 (sendCounter s) ++ sealed.

Lemma transmit_eq id raw werr c s : store c !! id = Some s →
  transmit id raw werr c =
  let c1 := set_store c (<[id := set_counter s (u64 (sendCounter s + 1))]> (store c)) in
  match aead_seal (send s) (zeros 4 ++ put_le64 (sendCounter s)) (Pad16 raw) [] with
  | Ok sealed => write_counted (transport_message s sealed) werr c1
  | Err e => (c1, Err e)
  | Panic => (c1, Panic)
  | OutOfFuel => (c1, OutOfFuel)
  end.
Proof.
  intros Hs. unfold transmit. rewrite deref_run, Hs. cbv zeta. rewrite put_session_run, nonce_of_ok, liftR_run, liftR_run. cbv beta iota.
  destruct (aead_seal _ _ _ _) as [sealed|e| |]; try done. pose proof (blen_nonneg sealed) as Hl.
  change (zeros (16 + blen sealed)) with ([] ++ zeros (16 + blen sealed)).
  rewrite (copy_append [] _ 0 4) by (rewrite ?blen_put_le32; done || lia). rewrite liftR_run. cbv beta iota.
  rewrite copy_append by (rewrite ?blen_put_le32; done || lia). rewrite liftR_run. cbv beta iota.
  rewrite copy_append by (change (blen (put_le64 (sendCounter s))) with 8; rewrite ?blen_put_le32; done || lia). rewrite liftR_run. cbv beta iota.
  assert (H8 : blen (put_le64 (sendCounter s)) = 8) by done. rewrite !blen_put_le32, H8.
  replace (16 + blen sealed - 4 - 4 - 8) with (blen sealed) by lia.
  rewrite copy_append by (rewrite ?blen_app, ?H8, ?blen_put_le32, ?blen_zeros, ?blen_nil; lia). rewrite liftR_run. cbv beta iota.
  rewrite Z.sub_diag. change (zeros 0) with (@nil Z). rewrite app_nil_r, app_nil_l, <- !app_assoc. done.
Qed.

(** The effect of a send: its session's counter moves, nothing else of the table. *)
Lemma transmit_effect id raw werr c s c' r : store c !! id = Some s → transmit id raw werr c = (c', r) →
  params c' = params c ∧ store c' = <[id := set_counter s (u64 (sendCounter s + 1))]> (store c) ∧ next_id c' = next_id c ∧
  sessions c' = sessions c ∧ current c' = current c ∧ plain c' = plain c ∧ (r = Ok tt ∨ ∃ e, r = Err e) ∧
  (r = Ok tt → ∃ sealed, aead_seal (send s) (zeros 4 ++ put_le64 (sendCounter s)) (Pad16 raw) [] = Ok sealed ∧
    wire c' = wire c ++ [mkOut (LocalPort c) (transport_message s sealed)]) ∧
  (r ≠ Ok tt → wire c' = wire c).
Proof.
  intros Hs E. rewrite (transmit_eq id raw werr c s Hs) in E. cbv zeta in E.
  pose proof (aead_seal_returns (send s) (zeros 4 ++ put_le64 (sendCounter s)) (Pad16 raw) []) as Hr.
  destruct (aead_seal _ _ _ _) as [sealed|e| |] eqn:Ea; try done.
  - unfold write_counted, write_udp in E. destruct werr as [e|]; injection E as <- <-; cbn; split_and!; try done; eauto.
  - injection E as <- <-. split_and!; try done. right. eauto.
Qed.

(** ** Sessions over time *)

(** A later state of a session: same keys and indexes, at most [n] more sends, and
    whatever the replay window had accepted it still knows. *)
Record later (n : Z) (s s' : session) : Prop := {
  l_ids : localIndex s' = localIndex s ∧ remoteIndex s' = remoteIndex s ∧ send s' = send s ∧ recv s' = recv s ∧ created s' = created s;
  l_counter : sendCounter s + n < 18446744073709551616 → sendCounter s <= sendCounter s' <= sendCounter s + n;
  l_replay : ∀ S, window (sreplay s) S → ∃ S', window (sreplay s') S' ∧ S ⊆ S';
  l_closed : closed s = true → closed s' = true
}.
Lemma later_refl n s : 0 <= n → later n s s.
Proof. intros Hn. split; try done; [lia|]. intros S HS. by exists S. Qed.
Lemma later_trans n m s1 s2 s3 : 0 <= n → 0 <= m → later n s1 s2 → later m s2 s3 → later (n + m) s1 s3.
Proof.
  intros Hn Hm [(?&?&?&?&?) C1 R1 K1] [(?&?&?&?&?) C2 R2 K2]. split.
  - split_and!; congruence.
  - intros H'. specialize (C1 ltac:(lia)). specialize (C2 ltac:(lia)). lia.
  - intros S HS. destruct (R1 S HS) as (S1 & Hw1 & Hs1). destruct (R2 S1 Hw1) as (S2 & Hw2 & Hs2). exists S2. split; [done|]. by etrans.
  - auto.
Qed.

Definition evolves (n : Z) (c c' : Client) : Prop :=
  (next_id c <= next_id c')%nat ∧ params c' = params c ∧ ∀ id s, store c !! id = Some s → ∃ s', store c' !! id = Some s' ∧ later n s s'.

Lemma evolves_insert n c c' id s s' : 0 <= n → store c !! id = Some s → store c' = <[id := s']> (store c) → later n s s' → next_id c' = next_id c → params c' = params c →
  evolves n c c'.
Proof.
  intros Hn Hs E Hl Hx Hp. split; [lia|]. split; [done|]. intros i t Ht. rewrite E. destruct (decide (i = id)) as [->|Hne].
  - rewrite lookup_insert_eq. assert (t = s) as -> by congruence. by exists s'.
  - rewrite lookup_insert_ne by done. exists t. split; [done|]. by apply later_refl.
Qed.
Lemma evolves_same n c c' : 0 <= n → store c' = store c → next_id c' = next_id c → params c' = params c → evolves n c c'.
Proof. intros Hn E Hx Hp. split; [lia|]. split; [done|]. intros i t Ht. rewrite E. exists t. split; [done|]. by apply later_refl. Qed.

(** Rewriting one session of the table. *)
Lemma table_ok_update c c' id s s' : table_ok c → store c !! id = Some s → store c' = <[id := s']> (store c) → next_id c' = next_id c →
  sessions c' = sessions c → current c' = current c → blen (plain c') <= plain_cap →
  localIndex s' = localIndex s → closed s' = closed s → retiredAt s' = retiredAt s → (∃ S, window (sreplay s') S) → 0 <= sendCounter s' < 18446744073709551616 →
  table_ok c'.
Proof.
  intros [H1 H2 H3 H4 H5] Hs E En Et Ec Hp Hi Hcl Hr Hw Hn. split; rewrite ?E, ?En, ?Et, ?Ec; try done.
  - intros i t Ht. destruct (decide (i = id)) as [->|Hne]; [by eapply H1|]. rewrite lookup_insert_ne in Ht by done. by eapply H1.
  - intros ix i Hx. destruct (H2 ix i Hx) as (t & Ht & Hrest). destruct (decide (i = id)) as [->|Hne].
    + rewrite lookup_insert_eq. assert (t = s) as -> by congruence. exists s'. rewrite Hi, Hcl, Hr. done.
    + rewrite lookup_insert_ne by done. by exists t.
  - intros i Hc. destruct (H3 i Hc) as (t & Ht & Hrest). destruct (decide (i = id)) as [->|Hne].
    + rewrite lookup_insert_eq. assert (t = s) as -> by congruence. exists s'. rewrite Hi, Hr. done.
    + rewrite lookup_insert_ne by done. by exists t.
  - intros i t Ht. destruct (decide (i = id)) as [->|Hne].
    + rewrite lookup_insert_eq in Ht. injection Ht as <-. done.
    + rewrite lookup_insert_ne in Ht by done. by eapply H4.
Qed.

Lemma received_ok c raw c' : table_ok c → bytes_ok raw → received c raw c' → table_ok c' ∧ evolves 0 c c'.
Proof.
  intros Hok Hb [Ha|id s pt r b Hx Hs Ho Ha Epar E1 E2 E3 E4 Hpl].
  - split; [by eapply table_ok_aside|]. destruct Ha as (?&?&?&?). by apply evolves_same.
  - destruct (t_win _ Hok _ _ Hs) as [(S & Hw) Hn].
    destruct (Accept_window (sreplay s) S _ Hw (transport_counter raw Hb)) as (r' & b' & Ea & Hw' & _).
    assert (r' = r) as -> by congruence. assert (b' = b) as -> by congruence. split.
    + eapply (table_ok_update c c' id s (set_replay s r)); try done; [|by eexists].
      pose proof (t_plain _ Hok). destruct Hpl as [->|(_ & Hlt & p & _ & _ & ->)]; [done|]. rewrite blen_snoc. unfold plain_cap in *. lia.
    + eapply (evolves_insert 0 c c' id s (set_replay s r)); try done. split; try done; [cbn; lia|]. cbn [sreplay set_replay].
      intros S0 HS0. destruct (Accept_window (sreplay s) S0 _ HS0 (transport_counter raw Hb)) as (r2 & b2 & Ea2 & Hw2 & _).
      assert (r2 = r) as -> by congruence. assert (b2 = b) as -> by congruence. eexists. split; [exact Hw2|]. destruct b; set_solver.
Qed.

Lemma close_all_lookup ids st id : close_all ids st !! id = (if bool_decide (id ∈ ids) then close_session else Datatypes.id) <$> (st !! id).
Proof.
  unfold close_all. revert st. induction ids as [|i ids IH]; intros st; cbn [fold_left].
  - rewrite bool_decide_eq_false_2 by apply not_elem_of_nil. by destruct (st !! id).
  - rewrite IH. destruct (decide (i = id)) as [->|Hne].
    + rewrite lookup_alter_eq, (bool_decide_eq_true_2 (id ∈ id :: ids)) by left. destruct (st !! id) as [s|]; [|done]. cbn. by destruct (bool_decide _).
    + rewrite lookup_alter_ne by done. f_equal. erewrite (bool_decide_ext (id ∈ ids)); [done|]. rewrite elem_of_cons. naive_solver.
Qed.
Lemma delete_all_lookup (kvs : list (Z * nat)) (m : gmap Z nat) ix :
  fold_left (fun m kv => delete (fst kv) m) kvs m !! ix = if bool_decide (ix ∈ map fst kvs) then None else m !! ix.
Proof.
  revert m. induction kvs as [|[k v] kvs IH]; intros m; cbn [fold_left map fst]; [by rewrite bool_decide_eq_false_2 by apply not_elem_of_nil|].
  rewrite IH. destruct (decide (k = ix)) as [->|Hne].
  - rewrite lookup_delete_eq, (bool_decide_eq_true_2 (ix ∈ ix :: _)) by left. by destruct (bool_decide _).
  - rewrite lookup_delete_ne by done. erewrite (bool_decide_ext (ix ∈ map fst kvs)); [done|]. rewrite elem_of_cons. naive_solver.
Qed.

(** Which sessions a tick of the reaper closes and which entries it removes. *)
Definition victims (c : Client) (now : Z) : list (Z * nat) :=
  List.filter (fun kv => reapable c now (snd kv)) (map_to_list (sessions c)).
Lemma elem_victims c now ix id : (ix, id) ∈ victims c now ↔ sessions c !! ix = Some id ∧ reapable c now id = true.
Proof. unfold victims. rewrite list_elem_of_In, filter_In, <- list_elem_of_In, elem_of_map_to_list. done. Qed.
Lemma reap_sessions c now ix : sessions (reap c now) !! ix = match sessions c !! ix with Some id => if reapable c now id then None else Some id | None => None end.
Proof.
  unfold reap. cbn [sessions set_table]. fold (victims c now). rewrite delete_all_lookup. destruct (sessions c !! ix) as [id|] eqn:E; [|by destruct (bool_decide _)].
  destruct (reapable c now id) eqn:Er.
  - rewrite bool_decide_eq_true_2; [done|]. apply list_elem_of_In, in_map_iff. exists (ix, id). split; [done|]. rewrite <- list_elem_of_In. by apply elem_victims.
  - rewrite bool_decide_eq_false_2; [done|]. intros Hin. apply list_elem_of_In, in_map_iff in Hin as ([k i] & Hk & Hin). cbn in Hk. subst.
    rewrite <- list_elem_of_In in Hin. apply elem_victims in Hin as [H1 H2]. congruence.
Qed.
Lemma reap_store c now id : table_ok c →
  (∃ s', store (reap c now) !! id = Some s') → ∃ s, store c !! id = Some s ∧
    store (reap c now) !! id = Some (if bool_decide (sessions c !! localIndex s = Some id) && reapable c now id then close_session s else s).
Proof.
  intros Hok (s' & E). unfold reap in *. cbn [store set_table] in *. fold (victims c now) in *. rewrite close_all_lookup in *.
  destruct (store c !! id) as [s|] eqn:Es; [|done]. exists s. split; [done|]. cbn [fmap option_fmap option_map]. f_equal.
  assert (Hiff : id ∈ map snd (victims c now) ↔ sessions c !! localIndex s = Some id ∧ reapable c now id = true).
  { rewrite list_elem_of_In, in_map_iff. split.
    - intros ([ix i] & Hi & Hin). cbn in Hi. subst i. rewrite <- list_elem_of_In in Hin. apply elem_victims in Hin as [H1 H2]. split; [|done].
      destruct (t_table _ Hok _ _ H1) as (s2 & Hs2 & <- & _). by assert (s2 = s) as -> by congruence.
    - intros [H1 H2]. exists (localIndex s, id). split; [done|]. rewrite <- list_elem_of_In. by apply elem_victims. }
  destruct (bool_decide (id ∈ _)) eqn:Eb.
  - apply bool_decide_eq_true in Eb. apply Hiff in Eb as [H1 H2]. by rewrite bool_decide_eq_true_2, H2.
  - apply bool_decide_eq_false in Eb. destruct (bool_decide (sessions c !! localIndex s = Some id)) eqn:E1; [|done]. apply bool_decide_eq_true in E1.
    destruct (reapable c now id) eqn:E2; [|done]. by destruct Eb; apply Hiff.
Qed.

Lemma reap_ok c now : table_ok c → table_ok (reap c now) ∧ evolves 0 c (reap c now).
Proof.
  intros Hok. pose proof (reap_store c now) as Hst. assert (Hdom : ∀ id s, store c !! id = Some s → ∃ s', store (reap c now) !! id = Some s').
  { intros id s Hs. unfold reap. cbn [store set_table]. rewrite close_all_lookup, Hs. by eexists. }
  split.
  - split.
    + intros id s' E. destruct (Hst id Hok (ex_intro _ s' E)) as (s & Hs & _). by apply (t_next _ Hok id s).
    + intros ix id Hx. rewrite reap_sessions in Hx. destruct (sessions c !! ix) as [i|] eqn:Ex; [|done].
      destruct (reapable c now i) eqn:Er; [done|]. injection Hx as ->. destruct (t_table _ Hok _ _ Ex) as (s & Hs & Hi & Hc & Hr).
      destruct (Hst id Hok (Hdom id s Hs)) as (s1 & Hs1 & E). assert (s1 = s) as -> by congruence. rewrite Er, andb_false_r in E. by exists s.
    + intros id Hc. destruct (t_cur _ Hok id Hc) as (s & Hs & Hx & Hr). destruct (Hst id Hok (Hdom id s Hs)) as (s1 & Hs1 & E).
      assert (s1 = s) as -> by congruence. assert (Er : reapable c now id = false) by (unfold reapable; rewrite bool_decide_eq_true_2 by done; done).
      rewrite Er, andb_false_r in E. exists s. split; [done|]. split; [|done]. by rewrite reap_sessions, Hx, Er.
    + intros id s' E. destruct (Hst id Hok (ex_intro _ s' E)) as (s & Hs & E'). rewrite E in E'. injection E' as ->.
      destruct (t_win _ Hok _ _ Hs) as [Hw Hn]. by destruct (_ && _).
    + apply (t_plain _ Hok).
  - split; [done|]. split; [done|]. intros id s Hs. destruct (Hst id Hok (Hdom id s Hs)) as (s1 & Hs1 & E). assert (s1 = s) as -> by congruence.
    eexists. split; [exact E|]. destruct (_ && _); [|by apply later_refl]. split; try done; [cbn; lia|]. intros S HS. by exists S.
Qed.

Lemma Close_ok c : table_ok c → table_ok (Close c) ∧ evolves 0 c (Close c).
Proof.
  intros Hok. unfold Close. destruct (done_ c); [split; [done|by apply evolves_same]|].
  assert (Hst : ∀ id s', close_all (map snd (map_to_list (sessions c))) (store c) !! id = Some s' → ∃ s, store c !! id = Some s ∧ (s' = s ∨ s' = close_session s)).
  { intros id s' E. rewrite close_all_lookup in E. destruct (store c !! id) as [s|]; [|done]. exists s. split; [done|]. injection E as <-. destruct (bool_decide _); auto. }
  split.
  - split; cbn [store next_id sessions current plain set_table set_flags]; try done.
    + intros id s' E. destruct (Hst id s' E) as (s & Hs & _). by apply (t_next _ Hok id s).
    + intros id s' E. destruct (Hst id s' E) as (s & Hs & [->| ->]); by apply (t_win _ Hok id s).
    + apply (t_plain _ Hok).
  - split; [done|]. split; [done|]. intros id s Hs. cbn [store set_table]. rewrite close_all_lookup, Hs. eexists. split; [done|].
    destruct (bool_decide _); [|by apply later_refl]. split; try done; [cbn; lia|]. intros S HS. by exists S.
Qed.

(** The store after the previous session was retired. *)
Definition retire_current (c : Client) (now : Z) : gmap nat session :=
  match current_obj c with
  | Some cur => match current c, retiredAt cur with Some id, None => <[id := set_retired cur now]> (store c) | _, _ => store c end
  | None => store c
  end.
Lemma installSession_eq c s now : installSession c s now =
  set_table c (<[next_id c := s]> (retire_current c now)) (S (next_id c)) (<[localIndex s := next_id c]> (sessions c)) (Some (next_id c)).
Proof.
  unfold installSession, retire_current, current_obj. f_equal. f_equal. destruct (current c) as [id|]; [|done]. cbn [mbind option_bind].
  by destruct (store c !! id).
Qed.
Lemma retire_lookup c now id : table_ok c →
  retire_current c now !! id = (if bool_decide (current c = Some id) then fun s => set_retired s now else Datatypes.id) <$> (store c !! id).
Proof.
  intros Hok. unfold retire_current, current_obj. destruct (current c) as [i|] eqn:Ec.
  - destruct (t_cur _ Hok i Ec) as (s & Hs & _ & Hr). cbn [mbind option_bind]. rewrite Hs, Hr. destruct (decide (i = id)) as [->|Hne].
    + rewrite lookup_insert_eq, bool_decide_eq_true_2, Hs by done. done.
    + rewrite lookup_insert_ne, bool_decide_eq_false_2 by (done || congruence). by destruct (store c !! id).
  - rewrite bool_decide_eq_false_2 by done. cbn. by destruct (store c !! id).
Qed.

Lemma install_ok c s now : table_ok c → fresh s → table_ok (installSession c s now) ∧ evolves 0 c (installSession c s now).
Proof.
  intros Hok (Hn & Hrp & Hra & Hcl). rewrite installSession_eq.
  assert (Hlt : ∀ id t, store c !! id = Some t → id ≠ next_id c) by (intros id t Ht; pose proof (t_next _ Hok _ _ Ht); lia).
  assert (Hinv : ∀ id t', retire_current c now !! id = Some t' → ∃ t, store c !! id = Some t ∧ t' = (if bool_decide (current c = Some id) then set_retired t now else t)).
  { intros id t' E. rewrite retire_lookup in E by done. destruct (store c !! id) as [t|]; [|done]. exists t. split; [done|]. injection E as <-. by destruct (bool_decide _). }
  assert (Hnone : ∀ id, id ≠ next_id c → ∀ t', <[next_id c := s]> (retire_current c now) !! id = Some t' → retire_current c now !! id = Some t')
    by (intros id Hne t'; by rewrite lookup_insert_ne by done).
  split.
  - split; cbn [store next_id sessions current plain set_table].
    + intros id t' E. destruct (decide (id = next_id c)) as [->|Hne]; [lia|]. destruct (Hinv id t' (Hnone id Hne t' E)) as (t & Ht & _).
      pose proof (t_next _ Hok _ _ Ht). lia.
    + intros ix id Hx. destruct (decide (ix = localIndex s)) as [->|Hix].
      * rewrite lookup_insert_eq in Hx. injection Hx as <-. rewrite lookup_insert_eq. exists s. done.
      * rewrite lookup_insert_ne in Hx by done. destruct (t_table _ Hok _ _ Hx) as (t & Ht & Hi & Hc & Hr). pose proof (Hlt _ _ Ht) as Hne.
        rewrite lookup_insert_ne, retire_lookup, Ht by done. eexists. split; [done|]. destruct (bool_decide (current c = Some id)) eqn:Eb; cbn; [done|].
        apply bool_decide_eq_false in Eb. auto.
    + intros id [= <-]. rewrite lookup_insert_eq. exists s. split; [done|]. split; [by rewrite lookup_insert_eq|done].
    + intros id t' E. destruct (decide (id = next_id c)) as [->|Hne].
      * rewrite lookup_insert_eq in E. injection E as <-. rewrite Hn, Hrp. split; [|lia]. exists []. apply window0.
      * destruct (Hinv id t' (Hnone id Hne t' E)) as (t & Ht & ->). pose proof (t_win _ Hok _ _ Ht). by destruct (bool_decide _).
    + apply (t_plain _ Hok).
  - split; [cbn; lia|]. split; [done|]. intros id t Ht. cbn [store set_table]. rewrite lookup_insert_ne, retire_lookup, Ht by (try done; by apply not_eq_sym, (Hlt _ t)).
    eexists. split; [done|]. destruct (bool_decide _); [|by apply later_refl]. split; try done; [cbn; lia|]. intros S HS. by exists S.
Qed.
Lemma wg_step_ok c c' : table_ok c → step c c' → table_ok c' ∧ evolves 1 c c'.
Proof.
  assert (Hup : ∀ c c', evolves 0 c c' → evolves 1 c c').
  { intros c1 c2 (H1 & H2 & H3). split; [done|]. split; [done|]. intros id s Hs. destruct (H3 id s Hs) as (s' & Hs' & Hl). exists s'. split; [done|].
    pose proof (later_trans 0 1 s s' s' ltac:(lia) ltac:(lia) Hl (later_refl 1 s' ltac:(lia))) as H. exact H. }
  intros Hok [from raw pick c1 r Hb E|id raw werr c1 r (s & Hs) E|s now Hf|now| |pkt q Hq|c1 Ha].
  - destruct (reader_step_received _ _ _ _ _ _ Hok Hb E) as [_ Hr]. destruct (received_ok _ _ _ Hok Hb Hr). auto.
  - destruct (transmit_effect _ _ _ _ _ _ _ Hs E) as (E0 & E1 & E2 & E3 & E4 & E5 & _). destruct (t_win _ Hok _ _ Hs) as [Hw Hn]. split.
    + eapply (table_ok_update c c1 id s); eauto; try done; [|apply u64_range]. rewrite E5. apply (t_plain _ Hok).
    + eapply (evolves_insert 1 c c1 id s); eauto; [lia|]. split; try done; cbn; [|eauto]. intros H. rewrite u64_small by lia. lia.
  - destruct (install_ok c s now Hok Hf). auto.
  - destruct (reap_ok c now Hok). auto.
  - destruct (Close_ok c Hok). auto.
  - split; [|apply evolves_same; done]. destruct Hok as [H1 H2 H3 H4 H5]. split; try done. cbn. rewrite Hq, blen_cons in H5. lia.
  - split; [by eapply table_ok_aside|]. destruct Ha as (?&?&?&?). by apply evolves_same.
Qed.

Lemma wg_steps_ok n c c' : table_ok c → nsteps step n c c' → table_ok c' ∧ evolves (Z.of_nat n) c c'.
Proof.
  intros Hok H. revert Hok. induction H as [c|n c1 c2 c3 H1 H2 IH]; intros Hok; [split; [done|by apply evolves_same]|].
  destruct (wg_step_ok _ _ Hok H1) as [Hok2 (Hx1 & Hp1 & Hs1)]. destruct (IH Hok2) as [Hok3 (Hx2 & Hp2 & Hs2)]. split; [done|].
  split; [lia|]. split; [congruence|]. intros id s Hs. destruct (Hs1 id s Hs) as (s2 & Hs2' & Hl1). destruct (Hs2 id s2 Hs2') as (s3 & Hs3 & Hl2).
  exists s3. split; [done|]. replace (Z.of_nat (S n)) with (1 + Z.of_nat n) by lia. eapply later_trans; eauto; lia.
Qed.
Lemma reachable_ok p c : rtc step (NewClient p) c → table_ok c.
Proof. intros H. apply rtc_nsteps in H as (n & H). by destruct (wg_steps_ok n _ _ (NewClient_ok p) H). Qed.
Lemma rtc_table_ok c c' : table_ok c → rtc step c c' → table_ok c'.
Proof. intros Hok H. apply rtc_nsteps in H as (n & H). by destruct (wg_steps_ok n c c' Hok H). Qed.
End Client.
