(* ===== verification/WgLoop.v ===== *)
(** * The handshake loop of the WireGuard client: [handshake] of [internal/wireguard/client.go]

    The loop of [WireGuard] is made of steps of the client's state machine; it returns
    as soon as the timer has fired once per attempt; and it moves to the other UDP
    socket after three timeouts. *)

From S2P Require Import Prelude Netip GoStrings Packet Crypto Replay Handshake WireGuard.
Local Open Scope Z_scope.

Section Loop.
Context {A : AEAD} {X : X25519}.

(** ** The handshake is made of steps *)
Lemma aside_step c c' : aside c c' → rtc step c c'.
Proof. intros H. by apply rtc_once, step_aside. Qed.
Lemma consumeResponse_fresh k st raw now s : consumeResponse k st raw now = Ok s → fresh s.
Proof.
  unfold consumeResponse. intros E. repeat match type of E with
  | (_ ≫= _) = Ok _ => apply bind_Ok_inv in E as (? & _ & E)
  | match ?x with _ => _ end = Ok _ => destruct x; try discriminate E
  end. injection E as <-. by split_and!.
Qed.

Definition event_ok (e : event) : Prop := match e with EvArrive _ raw _ => bytes_ok raw | _ => True end.
Lemma sput_run {S C} (s0 : S) (f : unit → SR S C) s : (sput s0 ≫= f) s = f tt s0.
Proof. done. Qed.

(** A received datagram leaves the rest of the client alone. *)
Definition chan_ok (c : Client) : Prop := Forall bytes_ok (respCh c) ∧ Forall bytes_ok (cookieCh c) ∧ blen (ck_cookie (cookie c)) = 16.
Definition framed (c c' : Client) : Prop :=
  params c' = params c ∧ activePath c' = activePath c ∧ cookie c' = cookie c ∧ wire c' = wire c ∧ done_ c' = done_ c ∧
  lastHandshake c' = lastHandshake c ∧ rekeying c' = rekeying c.
Lemma framed_refl c : framed c c.
Proof. by split_and!. Qed.

Lemma handleTransport_framed c raw pick c' r : handleTransport raw pick c = (c', r) → framed c c' ∧ respCh c' = respCh c ∧ cookieCh c' = cookieCh c.
Proof.
  destruct (decide (blen raw < 32)) as [Hs|Hs].
  { unfold handleTransport. rewrite (proj2 (Z.ltb_lt _ _)) by done. by intros [= <- _]. }
  pose proof (handleTransport_eq raw pick c ltac:(lia)) as E. destruct (transport_fields raw) as [ix n]. rewrite E. clear E. cbv zeta. unfold deliver.
  repeat match goal with |- match ?x with _ => _ end = _ → _ => destruct x end;
  repeat match goal with |- (if ?x then _ else _, _) = _ → _ => destruct x end; by intros [= <- _].
Qed.
Lemma reader_step_framed c from raw pick c' r : bytes_ok raw → chan_ok c → reader_step from raw pick c = (c', r) → framed c c' ∧ chan_ok c'.
Proof.
  intros Hb (Hr & Hk & Hc). unfold reader_step. rewrite tick_run, sget_run. set (c1 := count TRaw c).
  assert (Hf : framed c c1) by done. assert (Hch : chan_ok c1) by done.
  destruct (negb _); [by intros [= <- _]|]. destruct (blen raw <? 4); [by intros [= <- _]|].
  rewrite liftR_run. destruct (slice raw 0 4) as [f| | |]; try (by intros [= <- _]). rewrite liftR_run.
  destruct (le32 f 0) as [typ| | |]; try (by intros [= <- _]).
  destruct (typ =? msgResp); [intros [= <- _]; destruct (_ <? _); split; try done; split_and!; try done; apply Forall_app; by split; [|constructor]|].
  destruct (typ =? msgCookie); [intros [= <- _]; destruct (_ <? _); split; try done; split_and!; try done; apply Forall_app; by split; [|constructor]|].
  destruct (typ =? msgTransport); [|by intros [= <- _]].
  intros E. destruct (handleTransport_framed _ _ _ _ _ E) as [Hf' [E1 E2]]. split; [done|]. unfold chan_ok. rewrite E1, E2. destruct Hf' as (_ & _ & -> & _). done.
Qed.

(** What the inner loop does with its events: those it leaves are a suffix, it uses up
    one timer exactly when it times out, and it waits on only when there are none left. *)
Definition timers (evs : list event) : nat := length (List.filter (fun e => match e with EvTimer => true | _ => false end) evs).
Definition quiet (e : event) : Prop := match e with EvArrive _ raw _ => bytes_ok raw | EvTimer => True | _ => False end.

Lemma wait_rest (P : event → Prop) st evs c c' w evs' : Forall P evs → wait st evs c = (c', Ok (w, evs')) →
  Forall P evs' ∧ timers evs = ((match w with WTimeout => 1 | _ => 0 end) + timers evs')%nat ∧ (w = WBlocked → evs' = []) ∧ (∀ id, w = WSession id → is_Some (store c' !! id)).
Proof.
  intros Hev. revert c. induction Hev as [|e evs He Hev IH]; intros c E; cbn [wait] in E; [injection E as _ <- <-; done|].
  destruct e as [from raw pick|now inst|now| |err|].
  - destruct (SR_bind_run _ _ _ _ _ E) as [(c1 & u & _ & E1)|(r0 & _ & _ & Hr & _)]; [by eapply IH|by destruct (Hr (w, evs'))].
  - rewrite sget_run in E. destruct (respCh c) as [|raw rest]; [by eapply IH|]. rewrite sput_run in E.
    destruct (blen raw =? respSize); [|by eapply IH]. rewrite liftR_run in E. destruct (slice raw 8 12) as [f| | |]; try done. rewrite liftR_run in E.
    destruct (le32 f 0) as [rc| | |]; try done. destruct (rc =? i_sender st); [|by eapply IH].
    destruct (consumeResponse _ st raw now) as [s| | |]; try done; [|by eapply IH]. rewrite sget_run, sput_run in E. injection E as <- <- <-. split_and!; try done.
    intros id [= <-]. rewrite installSession_eq. cbn [store set_flags set_table next_id set_chans]. rewrite lookup_insert_eq. by eexists.
  - rewrite sget_run in E. destruct (cookieCh c) as [|raw rest]; [by eapply IH|]. rewrite sput_run in E.
    destruct (blen raw =? cookieSize); [|by eapply IH]. rewrite liftR_run in E. destruct (slice raw 4 8) as [f| | |]; try done. rewrite liftR_run in E.
    destruct (le32 f 0) as [rc| | |]; try done. destruct (rc =? i_sender st); [|by eapply IH].
    destruct (consumeCookie _ st raw now) as [ck| | |]; try done; [|by eapply IH]. rewrite sget_run, sput_run in E. by injection E as _ <- <-.
  - by injection E as _ <- <-.
  - done.
  - rewrite sget_run in E. destruct (done_ c); [done|]. by eapply IH.
Qed.

Lemma wait_steps st evs c c' r : table_ok c → Forall event_ok evs → wait st evs c = (c', r) → rtc step c c'.
Proof.
  intros Hok Hev. revert c Hok. induction Hev as [|e evs He Hev IH]; intros c Hok E; cbn [wait] in E; [injection E as <- _; constructor|].
  assert (Hnext : ∀ c1, table_ok c → rtc step c c1 → wait st evs c1 = (c', r) → rtc step c c').
  { intros c1 _ H1 E1. etrans; [exact H1|]. apply IH; [|done]. apply rtc_nsteps in H1 as (n & H1). by destruct (wg_steps_ok n c c1 Hok H1). }
  destruct e as [from raw pick|now inst|now| |err|].
  - destruct (reader_step from raw pick c) as [c1 r1] eqn:E1. destruct (reader_step_received _ _ _ _ _ _ Hok He E1) as [-> _].
    assert (Hs : rtc step c c1) by (apply rtc_once; by eapply step_recv). eapply Hnext; eauto. unfold mbind, SR_bind in E. by rewrite E1 in E.
  - rewrite sget_run in E. destruct (respCh c) as [|raw rest]; [by eapply Hnext; [..|exact E]; [done|constructor]|].
    rewrite sput_run in E. set (c1 := set_chans c rest (cookieCh c)) in *. assert (Hs : rtc step c c1) by by apply aside_step.
    destruct (blen raw =? respSize); [|by eapply Hnext; [..|exact E]]. rewrite liftR_run in E.
    destruct (slice raw 8 12) as [f| | |]; try (by injection E as <- _). rewrite liftR_run in E.
    destruct (le32 f 0) as [rc| | |]; try (by injection E as <- _). destruct (rc =? i_sender st); [|by eapply Hnext; [..|exact E]].
    destruct (consumeResponse _ st raw now) as [s| | |] eqn:Ec; try (by injection E as <- _); [|by eapply Hnext; [..|exact E]].
    rewrite sget_run, sput_run in E. injection E as <- _. etrans; [exact Hs|].
    eapply rtc_l; [apply (step_install c1 s inst); by eapply consumeResponse_fresh|]. by apply aside_step.
  - rewrite sget_run in E. destruct (cookieCh c) as [|raw rest]; [by eapply Hnext; [..|exact E]; [done|constructor]|].
    rewrite sput_run in E. set (c1 := set_chans c (respCh c) rest) in *. assert (Hs : rtc step c c1) by by apply aside_step.
    destruct (blen raw =? cookieSize); [|by eapply Hnext; [..|exact E]]. rewrite liftR_run in E.
    destruct (slice raw 4 8) as [f| | |]; try (by injection E as <- _). rewrite liftR_run in E.
    destruct (le32 f 0) as [rc| | |]; try (by injection E as <- _). destruct (rc =? i_sender st); [|by eapply Hnext; [..|exact E]].
    destruct (consumeCookie _ st raw now) as [ck| | |]; try (by injection E as <- _); [|by eapply Hnext; [..|exact E]].
    rewrite sget_run, sput_run in E. injection E as <- _. etrans; [exact Hs|]. by apply aside_step.
  - by injection E as <- _.
  - by injection E as <- _.
  - rewrite sget_run in E. destruct (done_ c); [by injection E as <- _|]. by eapply Hnext; [..|exact E].
Qed.

Lemma attempts_steps n k env werr t evs c c' r : table_ok c → Forall event_ok evs → attempts n k env werr t evs c = (c', r) → rtc step c c'.
Proof.
  revert k t evs c. induction n as [|n IH]; intros k t evs c Hok Hev E; cbn [attempts] in E; [by injection E as <- _|].
  rewrite sget_run, liftR_run in E. destruct (makeInitiation _ _ _) as [[st msg]| | |]; try (by injection E as <- _).
  destruct (SR_bind_run _ _ _ _ _ E) as [(c1 & u & Ew & E1)|(r0 & Ew & _)].
  2:{ unfold write_udp in Ew. destruct (werr k); injection Ew as <- _; [done|by apply aside_step]. }
  assert (Hs1 : rtc step c c1) by (unfold write_udp in Ew; destruct (werr k); injection Ew as <- _; [done|by apply aside_step]).
  assert (Hok1 : table_ok c1) by (apply rtc_nsteps in Hs1 as (m & Hs1'); by destruct (wg_steps_ok m c c1 Hok Hs1')).
  destruct (SR_bind_run _ _ _ _ _ E1) as [(c2 & [w evs'] & Ewt & E2)|(r0 & Ewt & _)].
  2:{ etrans; [exact Hs1|]. by eapply wait_steps. }
  assert (Hs2 : rtc step c1 c2) by by eapply wait_steps. assert (Hs12 : rtc step c c2) by by etrans.
  assert (Hok2 : table_ok c2) by (apply rtc_nsteps in Hs12 as (m & Hs'); by destruct (wg_steps_ok m c c2 Hok Hs')).
  assert (Hev' : Forall event_ok evs') by by eapply wait_rest.
  destruct w as [id| | |]; cbv zeta in E2.
  - by injection E2 as <- _.
  - etrans; [exact Hs12|]. by eapply IH.
  - destruct (_ =? 3).
    + rewrite sget_run, sput_run in E2. set (c3 := fst (switchActivePath c2)) in *. assert (Ha : aside c2 c3) by done.
      etrans; [exact Hs12|]. etrans; [by apply aside_step|]. eapply IH; [|done|exact E2]. by eapply table_ok_aside.
    + etrans; [exact Hs12|]. by eapply IH.
  - by injection E2 as <- _.
Qed.

(** ** The inner loop returns, and a session it reports is the current one *)
Definition installed (c : Client) (id : nat) : Prop := current c = Some id ∧ ∃ s, store c !! id = Some s ∧ fresh s.

Lemma consumeCookie_len k st raw now ck : consumeCookie k st raw now = Ok ck → blen (ck_cookie ck) = 16.
Proof.
  unfold consumeCookie. intros E. apply bind_Ok_inv in E as (nonce & _ & E). apply bind_Ok_inv in E as (ct & _ & E).
  destruct (xOpen _ _ _ _) as [pt| | |]; try done. destruct (Z.eqb_spec (blen pt) 16); [|done]. by injection E as <-.
Qed.

Lemma wait_returns st evs c c' r : table_ok c → chan_ok c → Forall event_ok evs → wait st evs c = (c', r) →
  returns r ∧ chan_ok c' ∧ (∀ id evs', r = Ok (WSession id, evs') → installed c' id).
Proof.
  intros Hok Hch Hev. revert c Hok Hch. induction Hev as [|e evs He Hev IH]; intros c Hok Hch E; cbn [wait] in E; [by injection E as <- <-|].
  destruct e as [from raw pick|now inst|now| |err|].
  - destruct (reader_step from raw pick c) as [c1 r1] eqn:E1. destruct (reader_step_received _ _ _ _ _ _ Hok He E1) as [-> Hr].
    destruct (received_ok _ _ _ Hok He Hr) as [Hok1 _]. destruct (reader_step_framed _ _ _ _ _ _ He Hch E1) as [_ Hch1].
    unfold mbind, SR_bind in E. rewrite E1 in E. by apply (IH c1).
  - rewrite sget_run in E. destruct (respCh c) as [|raw rest] eqn:Eq; [by apply (IH c)|]. rewrite sput_run in E. set (c1 := set_chans c rest (cookieCh c)) in *.
    destruct Hch as (Hr & Hk & Hc). rewrite Eq in Hr. inversion_clear Hr as [|? ? Hraw Hrest].
    assert (Hok1 : table_ok c1) by (by eapply (table_ok_aside c)). assert (Hch1 : chan_ok c1) by done.
    destruct (Z.eqb_spec (blen raw) respSize) as [Hl|]; [|by apply (IH c1)]. unfold respSize in Hl. rewrite slice_ok, liftR_run, le32_ok, liftR_run in E by (rewrite ?blen_bsub; lia).
    destruct (_ =? i_sender st); [|by apply (IH c1)].
    pose proof (consumeResponse_returns (p_keys (params c)) st raw now Hl Hraw) as Hret.
    destruct (consumeResponse (p_keys (params c)) st raw now) as [s| | |] eqn:Ec; try done; [|by apply (IH c1)].
    rewrite sget_run, sput_run in E. injection E as <- <-. split; [done|]. split; [done|]. intros id evs' [= <- _]. split; [done|].
    exists s. rewrite installSession_eq. cbn [store set_flags set_table]. rewrite lookup_insert_eq. split; [done|]. by eapply consumeResponse_fresh.
  - rewrite sget_run in E. destruct (cookieCh c) as [|raw rest] eqn:Eq; [by apply (IH c)|]. rewrite sput_run in E. set (c1 := set_chans c (respCh c) rest) in *.
    destruct Hch as (Hr & Hk & Hc). rewrite Eq in Hk. inversion_clear Hk as [|? ? Hraw Hrest].
    assert (Hok1 : table_ok c1) by (by eapply (table_ok_aside c)). assert (Hch1 : chan_ok c1) by done.
    destruct (Z.eqb_spec (blen raw) cookieSize) as [Hl|]; [|by apply (IH c1)]. unfold cookieSize in Hl. rewrite slice_ok, liftR_run, le32_ok, liftR_run in E by (rewrite ?blen_bsub; lia).
    destruct (_ =? i_sender st); [|by apply (IH c1)].
    pose proof (consumeCookie_returns (p_keys (params c)) st raw now Hl Hraw) as Hret.
    destruct (consumeCookie (p_keys (params c)) st raw now) as [ck| | |] eqn:Ec; try done; [|by apply (IH c1)].
    rewrite sget_run, sput_run in E. injection E as <- <-. split; [done|]. split; [|done]. split_and!; try done. by eapply consumeCookie_len.
  - by injection E as <- <-.
  - by injection E as <- <-.
  - rewrite sget_run in E. destruct (done_ c); [by injection E as <- <-|]. by apply (IH c).
Qed.

Definition envs_ok (env : nat → init_env) : Prop := ∀ k, env_ok (env k).

(** With a timer event for every attempt left the loop returns. *)
Lemma attempts_returns n k env werr t evs c c' r : table_ok c → chan_ok c → blen (k_mac1Key (p_keys (params c))) <= 32 → envs_ok env →
  Forall event_ok evs → (n <= timers evs)%nat → attempts n k env werr t evs c = (c', r) →
  returns r ∧ ∀ id evs', r = Ok (id, evs') → installed c' id.
Proof.
  intros Hok Hch Hmk Henv. revert k t evs c Hok Hch Hmk. induction n as [|n IH]; intros k t evs c Hok Hch Hmk Hev Ht E; cbn [attempts] in E; [by injection E as <- <-|].
  rewrite sget_run, liftR_run in E.
  pose proof (makeInitiation_returns (p_keys (params c)) (cookie c) (env k) Hmk ltac:(destruct Hch as (_ & _ & ->); lia) (Henv k)) as Hm.
  destruct (makeInitiation (p_keys (params c)) (cookie c) (env k)) as [[st msg]| | |]; try done; [|by injection E as <- <-].
  unfold mbind at 1, SR_bind at 1, write_udp in E. destruct (werr k); [by injection E as <- <-|]. set (c1 := set_wire c _) in E.
  assert (Hok1 : table_ok c1) by (by eapply (table_ok_aside c)). assert (Hch1 : chan_ok c1) by done.
  destruct (wait st evs c1) as [c2 r2] eqn:Ew. destruct (wait_returns _ _ _ _ _ Hok1 Hch1 Hev Ew) as (Hr2 & Hch2 & Hid).
  pose proof (wait_steps _ _ _ _ _ Hok1 Hev Ew) as Hs2. pose proof (rtc_table_ok _ _ Hok1 Hs2) as Hok2.
  assert (Hp2 : params c2 = params c) by (apply rtc_nsteps in Hs2 as (m & Hs'); destruct (wg_steps_ok m c1 c2 Hok1 Hs') as [_ (_ & -> & _)]; done).
  unfold mbind at 1, SR_bind at 1 in E. rewrite Ew in E. destruct r2 as [[w evs']| | |]; try done; [|by injection E as <- <-].
  destruct (wait_rest event_ok _ _ _ _ _ _ Hev Ew) as (Hev' & Htm & Hbl & _).
  destruct w as [id| | |]; cbv zeta in E.
  - injection E as <- <-. split; [done|]. intros id' evs'' [= <- _]. by eapply Hid.
  - eapply (IH (S k) 0 evs' c2); eauto; [by rewrite Hp2|lia].
  - destruct (_ =? 3).
    + rewrite sget_run, sput_run in E. eapply (IH (S k) 0 evs' (fst (switchActivePath c2))); eauto; [by eapply (table_ok_aside c2)|change (params (fst (switchActivePath c2))) with (params c2); by rewrite Hp2|lia].
    + eapply (IH (S k) (t + 1) evs' c2); eauto; [by rewrite Hp2|lia].
  - specialize (Hbl eq_refl). subst evs'. unfold timers in Htm at 2. cbn in Htm. lia.
Qed.

Lemma attempts_stored n k env werr t evs c c' id evs' : attempts n k env werr t evs c = (c', Ok (id, evs')) → is_Some (store c' !! id).
Proof.
  revert k t evs c. induction n as [|n IH]; intros k t evs c E; cbn [attempts] in E; [done|].
  rewrite sget_run, liftR_run in E. destruct (makeInitiation _ _ _) as [[st msg]| | |]; try done.
  destruct (SR_bind_run _ _ _ _ _ E) as [(c1 & u & _ & E1)|(r0 & _ & _ & Hr & _)]; [|by destruct (Hr (id, evs'))].
  destruct (SR_bind_run _ _ _ _ _ E1) as [(c2 & [w evs2] & Ew & E2)|(r0 & _ & _ & Hr & _)]; [|by destruct (Hr (id, evs'))].
  destruct w as [i| | |]; cbv zeta in E2; [|by eapply IH| |done].
  - injection E2 as <- <- _. by eapply (wait_rest (fun _ => True)); [by apply List.Forall_forall|exact Ew|].
  - destruct (_ =? 3); [rewrite sget_run, sput_run in E2|]; by eapply IH.
Qed.

(** ** Nobody answers *)
Lemma framed_trans c1 c2 c3 : framed c1 c2 → framed c2 c3 → framed c1 c3.
Proof. intros (?&?&?&?&?&?&?) (?&?&?&?&?&?&?). split_and!; congruence. Qed.
Lemma wait_quiet st evs c : table_ok c → chan_ok c → Forall quiet evs → (0 < timers evs)%nat →
  ∃ c' evs', wait st evs c = (c', Ok (WTimeout, evs')) ∧ framed c c' ∧ table_ok c' ∧ chan_ok c' ∧ Forall quiet evs' ∧ timers evs = S (timers evs').
Proof.
  intros Hok Hch Hq. revert c Hok Hch. induction Hq as [|e evs He Hq IH]; intros c Hok Hch Ht; [unfold timers in Ht; cbn in Ht; lia|].
  destruct e as [from raw pick|now inst|now| |err|]; try done; cbn [wait].
  - destruct (reader_step from raw pick c) as [c1 r1] eqn:E1. destruct (reader_step_received _ _ _ _ _ _ Hok He E1) as [-> Hr].
    destruct (received_ok _ _ _ Hok He Hr) as [Hok1 _]. destruct (reader_step_framed _ _ _ _ _ _ He Hch E1) as [Hf Hch1].
    destruct (IH c1 Hok1 Hch1 Ht) as (c' & evs' & E & Hf' & Hrest). exists c', evs'. unfold mbind, SR_bind. rewrite E1.
    split; [done|]. split; [|done]. by eapply framed_trans.
  - exists c, evs. split_and!; try done.
Qed.

(** One attempt that nobody answers. *)
Lemma attempt_quiet n k env werr t evs c st msg : table_ok c → chan_ok c → Forall quiet evs → (0 < timers evs)%nat → werr k = None →
  makeInitiation (p_keys (params c)) (cookie c) (env k) = Ok (st, msg) →
  ∃ c' evs', framed (set_wire c (wire c ++ [mkOut (LocalPort c) msg])) c' ∧ table_ok c' ∧ chan_ok c' ∧ Forall quiet evs' ∧ timers evs = S (timers evs') ∧
    attempts (S n) k env werr t evs c =
      if t + 1 =? 3 then attempts n (S k) env werr 0 evs' (fst (switchActivePath c')) else attempts n (S k) env werr (t + 1) evs' c'.
Proof.
  intros Hok Hch Hq Ht Hw Em. set (c1 := set_wire c (wire c ++ [mkOut (LocalPort c) msg])).
  destruct (wait_quiet st evs c1) as (c' & evs' & E & Hf & Hok' & Hch' & Hq' & Ht'); try done; [by eapply (table_ok_aside c)|].
  exists c', evs'. split_and!; try done. cbn [attempts]. rewrite sget_run, liftR_run, Em. cbv beta iota.
  unfold mbind at 1, SR_bind at 1, write_udp. rewrite Hw. fold c1. unfold mbind at 1, SR_bind at 1. rewrite E. cbv zeta.
  destruct (t + 1 =? 3); done.
Qed.

Lemma framed_ports c c' : framed c c' → LocalPort c' = LocalPort c ∧ StandbyPort c' = StandbyPort c.
Proof. intros (Hp & Ha & _). unfold LocalPort, StandbyPort, port_at. by rewrite Hp, Ha. Qed.
Lemma land_1_cases x : Z.land x 1 = 0 ∨ Z.land x 1 = 1.
Proof. change 1 with (2 ^ 1 - 1) at 1 2 3. rewrite land_ones_mod by lia. pose proof (Z.mod_pos_bound x (2 ^ 1)). lia. Qed.
Lemma switch_ports c : let c' := fst (switchActivePath c) in
  LocalPort c' = StandbyPort c ∧ StandbyPort c' = LocalPort c ∧ snd (switchActivePath c) = (LocalPort c, LocalPort c').
Proof.
  cbn [switchActivePath fst snd]. unfold LocalPort, StandbyPort, port_at. cbn [activePath set_path params].
  by destruct (land_1_cases (activePath c)) as [-> | ->].
Qed.

(** C30: The handshake always ends.  From every reachable state, whatever datagrams
    arrive, once the timer has fired five times the loop has returned, without a
    panic; a session it returns is the client's current one, unused; and everything it
    did to the client is a sequence of steps of the client's state machine. *)
Theorem handshake_returns (p : Params) (c : Client) (env : nat → init_env) (werr : nat → option string) (evs : list event) :
  rtc step (NewClient p) c → chan_ok c → blen (k_mac1Key (p_keys p)) = 32 → envs_ok env → Forall event_ok evs → (5 <= timers evs)%nat →
  let '(c', r) := handshake env werr evs c in
  returns r ∧ rtc step c c' ∧ ∀ id evs', r = Ok (id, evs') → installed c' id.
Proof.
  intros Hr Hch Hmk Henv Hev Ht. pose proof (reachable_ok _ _ Hr) as Hok. destruct (handshake env werr evs c) as [c' r] eqn:E. unfold handshake in E.
  assert (Hp : params c = p) by (apply rtc_nsteps in Hr as (m & Hr); destruct (wg_steps_ok m _ _ (NewClient_ok p) Hr) as [_ (_ & -> & _)]; done).
  destruct (attempts_returns 5 0 env werr 0 evs c c' r) as [H1 H2]; try done; [rewrite Hp; lia|].
  split; [done|]. split; [|done]. by eapply attempts_steps.
Qed.

(** Failover.  When nobody answers, the handshake sends five initiations, three
    from the active UDP socket and two from the standby one, fails with a timeout, and
    leaves the roles of the two sockets exchanged. *)
Theorem handshake_fails_over (p : Params) (c : Client) (env : nat → init_env) (evs : list event) (msg : nat → list Z) :
  rtc step (NewClient p) c → chan_ok c → Forall quiet evs → (5 <= timers evs)%nat →
  (∀ k, (k < 5)%nat → ∃ st, makeInitiation (p_keys (params c)) (cookie c) (env k) = Ok (st, msg k)) →
  ∃ c', handshake env (fun _ => None) evs c = (c', Err "WireGuard handshake timed out") ∧
    wire c' = wire c ++ [mkOut (LocalPort c) (msg 0%nat); mkOut (LocalPort c) (msg 1%nat); mkOut (LocalPort c) (msg 2%nat);
                         mkOut (StandbyPort c) (msg 3%nat); mkOut (StandbyPort c) (msg 4%nat)] ∧
    LocalPort c' = StandbyPort c ∧ StandbyPort c' = LocalPort c.
Proof.
  intros Hr Hch Hq Ht Hm. pose proof (reachable_ok _ _ Hr) as Hok. unfold handshake.
  destruct (Hm 0%nat ltac:(lia)) as (st0 & E0). destruct (Hm 1%nat ltac:(lia)) as (st1 & E1). destruct (Hm 2%nat ltac:(lia)) as (st2 & E2).
  destruct (Hm 3%nat ltac:(lia)) as (st3 & E3). destruct (Hm 4%nat ltac:(lia)) as (st4 & E4).
  destruct (attempt_quiet 4 0 env (fun _ => None) 0 evs c st0 (msg 0%nat) Hok Hch Hq ltac:(lia) eq_refl E0) as (c1 & ev1 & F1 & K1 & H1 & Q1 & T1 & ->). change (0 + 1 =? 3) with false; change (0 + 1) with 1; cbv iota.
  pose proof (framed_ports _ _ F1) as [L1 S1]. destruct F1 as (P1 & A1 & C1 & W1 & _). cbn in P1, C1, W1, L1, S1.
  rewrite <- P1, <- C1 in E1, E2, E3, E4.
  destruct (attempt_quiet 3 1 env (fun _ => None) 1 ev1 c1 st1 (msg 1%nat) K1 H1 Q1 ltac:(lia) eq_refl E1) as (c2 & ev2 & F2 & K2 & H2 & Q2 & T2 & ->). change (1 + 1 =? 3) with false; change (1 + 1) with 2; cbv iota.
  pose proof (framed_ports _ _ F2) as [L2 S2]. destruct F2 as (P2 & A2 & C2 & W2 & _). cbn in P2, C2, W2, L2, S2.
  rewrite <- P2, <- C2 in E2, E3, E4.
  destruct (attempt_quiet 2 2 env (fun _ => None) 2 ev2 c2 st2 (msg 2%nat) K2 H2 Q2 ltac:(lia) eq_refl E2) as (c3 & ev3 & F3 & K3 & H3 & Q3 & T3 & ->). change (2 + 1 =? 3) with true; cbv iota.
  pose proof (framed_ports _ _ F3) as [L3 S3]. destruct F3 as (P3 & A3 & C3 & W3 & _). cbn in P3, C3, W3, L3, S3.
  destruct (switch_ports c3) as (L & S & _). set (c4 := fst (switchActivePath c3)) in *.
  rewrite <- P3, <- C3 in E3, E4. assert (K4 : table_ok c4) by by eapply (table_ok_aside c3).
  destruct (attempt_quiet 1 3 env (fun _ => None) 0 ev3 c4 st3 (msg 3%nat) K4 H3 Q3 ltac:(lia) eq_refl E3) as (c5 & ev5 & F5 & K5 & H5 & Q5 & T5 & ->). change (0 + 1 =? 3) with false; change (0 + 1) with 1; cbv iota.
  pose proof (framed_ports _ _ F5) as [L5 S5]. destruct F5 as (P5 & A5 & C5 & W5 & _). cbn [params cookie wire set_wire] in P5, C5, W5. change (LocalPort (set_wire c4 _)) with (LocalPort c4) in L5. change (StandbyPort (set_wire c4 _)) with (StandbyPort c4) in S5.
  change (params c3) with (params c4) in E4. change (cookie c3) with (cookie c4) in E4. rewrite <- P5, <- C5 in E4.
  destruct (attempt_quiet 0 4 env (fun _ => None) 1 ev5 c5 st4 (msg 4%nat) K5 H5 Q5 ltac:(lia) eq_refl E4) as (c6 & ev6 & F6 & K6 & H6 & Q6 & T6 & ->). change (1 + 1 =? 3) with false; change (1 + 1) with 2; cbv iota. cbn [attempts].
  pose proof (framed_ports _ _ F6) as [L6 S6]. destruct F6 as (P6 & A6 & C6 & W6 & _). cbn [wire set_wire] in W6. change (LocalPort (set_wire c5 _)) with (LocalPort c5) in L6. change (StandbyPort (set_wire c5 _)) with (StandbyPort c5) in S6.
  exists c6. split; [done|].
  assert (LocalPort c1 = LocalPort c ∧ StandbyPort c1 = StandbyPort c) as [X1 Y1] by done.
  assert (LocalPort c2 = LocalPort c ∧ StandbyPort c2 = StandbyPort c) as [X2 Y2] by (split; [rewrite <- X1|rewrite <- Y1]; done).
  assert (LocalPort c3 = LocalPort c ∧ StandbyPort c3 = StandbyPort c) as [X3 Y3] by (split; [rewrite <- X2|rewrite <- Y2]; done).
  split.
  - rewrite W6, W5. change (wire c4) with (wire c3). rewrite W3, W2, W1, <- !app_assoc. cbn [app]. rewrite L5, L, Y3, X1, X2. done.
  - rewrite L6, S6, L5, S5, L, S, X3, Y3. done.
Qed.
End Loop.

(** ** A concrete client *)
Definition toy_params (k : keys) : Params := mkParams k 1400 25 (mkUDP [10; 0; 0; 1] 51820) (1111, 2222).

Lemma handshake_returns_witness :
  ∃ k, toy_keys = Ok k ∧
    let '(c', r) := @handshake pureAEAD toyX (fun _ => toy_env) (fun _ => None) (replicate 5 EvTimer) (NewClient (toy_params k)) in returns r.
Proof.
  destruct toy_keys_ok as (k & Ek). exists k. split; [exact Ek|]. pose proof (new_keys_inv _ _ _ _ Ek) as (_ & _ & _ & _ & _ & _ & _ & Hml).
  pose proof (@handshake_returns pureAEAD toyX (toy_params k) (NewClient (toy_params k)) (fun _ => toy_env) (fun _ => None) (replicate 5 EvTimer)) as H.
  destruct (@handshake pureAEAD toyX _ _ _ _) as [c' r].
  apply H; [constructor|split_and!; [constructor..|reflexivity]|exact Hml| |repeat constructor|cbn; lia].
  intros _. split; [exact I|exact I|]. intros b [= <-]. split; [reflexivity|exact toy_idx_ok].
Defined.

Lemma handshake_fails_over_witness :
  ∃ k st msg c', toy_keys = Ok k ∧ @makeInitiation pureAEAD toyX k no_cookie toy_env = Ok (st, msg) ∧
    @handshake pureAEAD toyX (fun _ => toy_env) (fun _ => None) (replicate 5 EvTimer) (NewClient (toy_params k)) = (c', Err "WireGuard handshake timed out") ∧
    wire c' = [mkOut 1111 msg; mkOut 1111 msg; mkOut 1111 msg; mkOut 2222 msg; mkOut 2222 msg] ∧ LocalPort c' = 2222.
Proof.
  destruct toy_keys_ok as (k & Ek). destruct (toy_initiation k Ek) as ([st msg] & Em).
  destruct (@handshake_fails_over pureAEAD toyX (toy_params k) (NewClient (toy_params k)) (fun _ => toy_env) (replicate 5 EvTimer) (fun _ => msg))
    as (c' & E & Hw & Hl & _).
  - constructor.
  - split_and!; [constructor..|reflexivity].
  - repeat constructor.
  - cbn. lia.
  - intros j _. exists st. exact Em.
  - exists k, st, msg, c'. exact (conj Ek (conj Em (conj E (conj Hw Hl)))).
Defined.
