(* ===== verification/WgTunnel.v ===== *)
(** * The WireGuard tunnel: theorems about the client of [internal/wireguard/client.go]

    The session table, transport packets from one end to the other, replayed and
    repeated nonces, and the choice of the session to send with. *)

From S2P Require Import Prelude Netip GoStrings Packet Crypto Replay Handshake WireGuard WgLoop.
Local Open Scope Z_scope.

Section Tunnel.
Context {A : AEAD} {X : X25519}.

(** ** Whole operations are sequences of steps *)
Lemma select_current_aside now c c' r : select_current now c = (c', r) → aside c c'.
Proof.
  unfold select_current, startBackgroundRekey. destruct (current c) as [id|]; [|by intros [= <- _]].
  destruct (sessionUsable _ now) as [[|] [|]]; try (by intros [= <- _]). unfold mbind, SR_bind. destruct (rekeying c); by intros [= <- _].
Qed.
Lemma select_current_some now c c' id b : table_ok c → select_current now c = (c', Ok (Some (id, b))) →
  current c = Some id ∧ ∃ s, store c !! id = Some s ∧ fst (sessionUsable (Some s) now) = true.
Proof.
  intros Hok. unfold select_current, startBackgroundRekey. destruct (current c) as [i|] eqn:Ec; [|done].
  destruct (t_cur _ Hok _ Ec) as (s & Hs & _). rewrite Hs. destruct (sessionUsable (Some s) now) as [[|] rk] eqn:Eu; [|done].
  destruct rk; [unfold mbind, SR_bind; destruct (rekeying c)|]; intros [= _ <- _]; (split; [done|]); exists s; rewrite Eu; done.
Qed.

Lemma ensureSession_steps now1 now2 env werr evs c c' r : table_ok c → Forall event_ok evs → ensureSession now1 now2 env werr evs c = (c', r) →
  rtc step c c' ∧ ∀ id b, r = Ok (id, b) → is_Some (store c' !! id).
Proof.
  intros Hok Hev E. unfold ensureSession in E. destruct (SR_bind_run _ _ _ _ _ E) as [(c1 & r1 & E1 & E')|(r0 & E1 & _ & Hr & _)].
  2:{ split; [apply aside_step; by eapply select_current_aside|]. intros id b ->. by destruct (Hr (id, b)). }
  pose proof (select_current_aside _ _ _ _ E1) as Ha1. pose proof (table_ok_aside _ _ Ha1 Hok) as Hok1. clear E. destruct r1 as [[id b]|].
  { injection E' as <- <-. split; [by apply aside_step|]. intros i b' [= <- _]. destruct (select_current_some _ _ _ _ _ Hok E1) as (_ & s & Hs & _).
    destruct Ha1 as (_ & -> & _). by exists s. }
  destruct (SR_bind_run _ _ _ _ _ E') as [(c2 & r2 & E2 & E'')|(r0 & E2 & _ & Hr & _)].
  2:{ split; [etrans; apply aside_step; [done|by eapply select_current_aside]|]. intros id b ->. by destruct (Hr (id, b)). }
  pose proof (select_current_aside _ _ _ _ E2) as Ha2. pose proof (table_ok_aside _ _ Ha2 Hok1) as Hok2. clear E'. destruct r2 as [[id b]|].
  { injection E'' as <- <-. split; [etrans; by apply aside_step|]. intros i b' [= <- _]. destruct (select_current_some _ _ _ _ _ Hok1 E2) as (_ & s & Hs & _).
    destruct Ha2 as (_ & -> & _). by exists s. }
  assert (H02 : rtc step c c2) by (etrans; by apply aside_step).
  destruct (SR_bind_run _ _ _ _ _ E'') as [(c3 & [id evs'] & E3 & E4)|(r0 & E3 & _ & Hr & _)].
  2:{ split; [etrans; [exact H02|]; by eapply attempts_steps|]. intros id b ->. by destruct (Hr (id, b)). }
  injection E4 as <- <-. split; [etrans; [exact H02|]; by eapply attempts_steps|]. intros i b [= <- _]. by eapply attempts_stored.
Qed.
Lemma SendPacket_steps raw now1 now2 env hs evs werr c c' r : table_ok c → Forall event_ok evs → SendPacket raw now1 now2 env hs evs werr c = (c', r) → rtc step c c'.
Proof.
  intros Hok Hev. unfold SendPacket. destruct (mtu_refuses c raw); [intros [= <- _]; by apply aside_step|]. intros E.
  destruct (SR_bind_run _ _ _ _ _ E) as [(c1 & [id b] & E1 & E2)|(r0 & E1 & _)]; destruct (ensureSession_steps _ _ _ _ _ _ _ _ Hok Hev E1) as [Hs Hid]; [|done].
  etrans; [exact Hs|]. apply rtc_once. eapply step_send; [|exact E2]. by eapply Hid.
Qed.
Lemma keepalive_steps now1 now2 env hs evs werr c c' r : table_ok c → Forall event_ok evs → keepalive_step now1 now2 env hs evs werr c = (c', r) → rtc step c c'.
Proof.
  intros Hok Hev. unfold keepalive_step. destruct (currentSession c); try (by intros [= <- _]).
  destruct (SendPacket [] now1 now2 env hs evs werr c) as [c1 r1] eqn:E. pose proof (SendPacket_steps _ _ _ _ _ _ _ _ _ _ Hok Hev E) as H.
  by destruct r1; intros [= <- _].
Qed.
Lemma background_rekey_steps base now env hs evs c c' r : table_ok c → Forall event_ok evs → background_rekey base now env hs evs c = (c', r) → rtc step c c'.
Proof.
  intros Hok Hev. unfold background_rekey. destruct (done_ c); [intros [= <- _]; by apply aside_step|].
  destruct (match current c with Some _ => _ | None => _ end); [intros [= <- _]; by apply aside_step|].
  destruct (handshake env hs evs c) as [c1 r1] eqn:E. pose proof (attempts_steps _ _ _ _ _ _ _ _ _ Hok Hev E) as H.
  destruct r1; intros [= <- _]; try done; (etrans; [exact H|]; by apply aside_step).
Qed.

(** The whole operations of the client. *)
Inductive operation (c c' : Client) : Prop :=
| op_send raw now1 now2 env hs evs werr r : Forall event_ok evs → SendPacket raw now1 now2 env hs evs werr c = (c', r) → operation c c'
| op_keepalive now1 now2 env hs evs werr r : Forall event_ok evs → keepalive_step now1 now2 env hs evs werr c = (c', r) → operation c c'
| op_rekey base now env hs evs r : Forall event_ok evs → background_rekey base now env hs evs c = (c', r) → operation c c'
| op_step : step c c' → operation c c'.
Lemma operation_steps c c' : table_ok c → operation c c' → rtc step c c'.
Proof. intros Hok [? ? ? ? ? ? ? ? Hev E|? ? ? ? ? ? ? Hev E|? ? ? ? ? ? Hev E|H]; eauto using SendPacket_steps, keepalive_steps, background_rekey_steps, rtc_once. Qed.
Lemma operations_steps p c : rtc operation (NewClient p) c → rtc step (NewClient p) c.
Proof.
  intros H. apply (rtc_ind_r (fun c => rtc step (NewClient p) c)) in H; [done|constructor|].
  intros c1 c2 _ H12 IH. etrans; [exact IH|]. apply operation_steps; [|done]. by eapply reachable_ok.
Qed.

(** C25: The session table.  After any sequence of operations of the client, in any
    interleaving of their steps: the current session is in the table under its own
    index, open and not retired; every session in the table is there under its own
    index and open, so that no closed key is looked up, and is the current one or marked
    as retired; the queue of packets is within its bound.  A tick of the reaper removes
    exactly the sessions retired more than three minutes ago. *)
Theorem session_table (p : Params) (c : Client) :
  rtc operation (NewClient p) c →
  (∀ id, current c = Some id → ∃ s, store c !! id = Some s ∧ sessions c !! localIndex s = Some id ∧ closed s = false ∧ retiredAt s = None) ∧
  (∀ ix id, sessions c !! ix = Some id →
     ∃ s, store c !! id = Some s ∧ localIndex s = ix ∧ closed s = false ∧ (current c = Some id ∨ ∃ t, retiredAt s = Some t)) ∧
  blen (plain c) <= plain_cap ∧
  (∀ now ix id, sessions (reap c now) !! ix = Some id ↔ sessions c !! ix = Some id ∧
     (current c = Some id ∨ ∃ s t, store c !! id = Some s ∧ retiredAt s = Some t ∧ now - t <= 3 * minute)).
Proof.
  intros Hr. pose proof (reachable_ok _ _ (operations_steps _ _ Hr)) as Hok. split_and!.
  - intros id Hc. destruct (t_cur _ Hok _ Hc) as (s & Hs & Hx & Hn). destruct (t_table _ Hok _ _ Hx) as (s' & Hs' & _ & Hcl & _).
    assert (s' = s) as -> by congruence. by exists s.
  - intros ix id Hx. destruct (t_table _ Hok _ _ Hx) as (s & Hs & Hi & Hcl & Hn). exists s. split_and!; try done.
    destruct (decide (current c = Some id)) as [|Hne]; [by left|right]. specialize (Hn Hne). destruct (retiredAt s) as [t|]; [by exists t|done].
  - apply (t_plain _ Hok).
  - intros now ix id. rewrite reap_sessions. destruct (sessions c !! ix) as [i|] eqn:Ex; [|split; [done|by intros [? _]]].
    destruct (t_table _ Hok _ _ Ex) as (s & Hs & _ & _ & Hn). unfold reapable. rewrite Hs.
    destruct (decide (current c = Some i)) as [Hc|Hc].
    + rewrite bool_decide_eq_true_2 by done. cbn [negb andb]. split; [intros [= <-]; auto|by intros [? _]].
    + rewrite bool_decide_eq_false_2 by done. cbn [negb andb]. specialize (Hn Hc). destruct (retiredAt s) as [t|] eqn:Et; [|done].
      destruct (Z.ltb_spec (3 * minute) (now - t)).
      * split; [done|]. intros [[= ->] [?|(s' & t' & Hs' & Ht' & Hle)]]; [done|]. assert (s' = s) as -> by congruence. assert (t' = t) as -> by congruence. lia.
      * split; [intros [= <-]|by intros [? _]]. split; [done|]. right. by exists s, t.
Qed.

(** ** Receiving *)
Lemma plain_changed_opened c raw c' : received c raw c' → plain c' ≠ plain c →
  ∃ id s pt p r, sessions c !! fst (transport_fields raw) = Some id ∧ store c !! id = Some s ∧
    aead_open (recv s) (zeros 4 ++ put_le64 (snd (transport_fields raw))) (bsub raw 16 (blen raw)) [] = Ok pt ∧
    Accept (snd (transport_fields raw)) (sreplay s) = Ok (r, true) ∧ store c' !! id = Some (set_replay s r) ∧
    TrimToIPLength pt = Ok p ∧ inner_ok p = true ∧ plain c' = plain c ++ [p].
Proof.
  intros [(_ & _ & _ & _ & _ & H)|id s pt r b Hx Hs Ho Ha _ E1 _ _ _ [H|(-> & _ & p & Hp & Hi & H)]] Hne; try done.
  exists id, s, pt, p, r. split_and!; try done. rewrite E1. apply lookup_insert_eq.
Qed.

(** C27: No packet is delivered twice.  A datagram that gave the application a packet
    was authenticated by the session it names, whose key opened it to that packet; and
    however the client goes on, receiving the same datagram again while its index still
    names that session delivers nothing. *)
Theorem delivered_once (p : Params) (c c1 c2 : Client) (from from' : UDPAddr) (pick pick' : bool) (raw : list Z) :
  rtc operation (NewClient p) c → bytes_ok raw → c1 = fst (reader_step from raw pick c) → plain c1 ≠ plain c →
  ∃ id s pt pkt, sessions c !! fst (transport_fields raw) = Some id ∧ store c !! id = Some s ∧
    aead_open (recv s) (zeros 4 ++ put_le64 (snd (transport_fields raw))) (bsub raw 16 (blen raw)) [] = Ok pt ∧
    TrimToIPLength pt = Ok pkt ∧ plain c1 = plain c ++ [pkt] ∧
    (rtc step c1 c2 → sessions c2 !! fst (transport_fields raw) = Some id → plain (fst (reader_step from' raw pick' c2)) = plain c2).
Proof.
  intros Hr Hb -> Hne. pose proof (reachable_ok _ _ (operations_steps _ _ Hr)) as Hok.
  destruct (reader_step from raw pick c) as [c1 r1] eqn:E1. cbn [fst] in *. destruct (reader_step_received _ _ _ _ _ _ Hok Hb E1) as [_ Hrc].
  destruct (received_ok _ _ _ Hok Hb Hrc) as [Hok1 _].
  destruct (plain_changed_opened _ _ _ Hrc Hne) as (id & s & pt & pkt & r & Hx & Hs & Ho & Ha & Hs1 & Hp & _ & Hpl).
  exists id, s, pt, pkt. split_and!; try done. intros Hst Hx2. apply rtc_nsteps in Hst as (n & Hst). destruct (wg_steps_ok n _ _ Hok1 Hst) as [Hok2 (_ & _ & Hev)].
  destruct (Hev _ _ Hs1) as (s2 & Hs2 & Hl). pose proof (transport_counter raw Hb) as Hc.
  destruct (t_win _ Hok _ _ Hs) as [(S & Hw) _]. destruct (Accept_window _ S _ Hw Hc) as (r' & b' & Ea & Hw' & _). rewrite Ha in Ea. injection Ea as <- <-.
  destruct (l_replay _ _ _ Hl _ Hw') as (S2 & Hw2 & Hsub). assert (Hin : snd (transport_fields raw) ∈ S2) by (apply Hsub; left).
  destruct (reader_step from' raw pick' c2) as [c3 r3] eqn:E3. cbn [fst]. destruct (reader_step_received _ _ _ _ _ _ Hok2 Hb E3) as [_ Hrc3].
  destruct (decide (plain c3 = plain c2)) as [|Hne3]; [done|]. exfalso.
  destruct (plain_changed_opened _ _ _ Hrc3 Hne3) as (i & t & _ & _ & r2 & Hx3 & Hs3 & _ & Ha3 & _). assert (i = id) as -> by congruence. assert (t = s2) as -> by congruence.
  destruct (Accept_window _ S2 _ Hw2 Hc) as (r4 & b4 & Ea4 & _ & Hb4 & _). rewrite Ha3 in Ea4. injection Ea4 as _ <-. by apply Hb4.
Qed.

(** ** Sending *)
Lemma le64_put pre v post : 0 <= v < 18446744073709551616 →
  le32_at (pre ++ put_le64 v ++ post) (blen pre) + le32_at (pre ++ put_le64 v ++ post) (blen pre + 4) * 4294967296 = v.
Proof.
  intros Hv. unfold put_le64. rewrite <- app_assoc. rewrite le32_at_put by (apply Z.mod_pos_bound; lia).
  pose proof (le32_at_put (pre ++ put_le32 (v `mod` 4294967296)) ((v `div` 4294967296) `mod` 4294967296) post) as H.
  rewrite blen_app, blen_put_le32, <- app_assoc in H. rewrite H by (apply Z.mod_pos_bound; lia). Z.div_mod_to_equations. lia.
Qed.
Lemma blen_put_le64 v : blen (put_le64 v) = 8.
Proof. done. Qed.
Lemma put_le64_inj a b : 0 <= a < 18446744073709551616 → 0 <= b < 18446744073709551616 → put_le64 a = put_le64 b → a = b.
Proof. intros Ha Hb E. pose proof (le64_put [] a [] Ha) as H1. pose proof (le64_put [] b [] Hb) as H2. rewrite E in H1. congruence. Qed.

(** C28: No nonce is used twice.  Take two sends with one session, with any steps of the
    client in between (fewer than 2^63): if the session could be selected before the
    first, that is it had sent fewer than 2^60 packets, the two are sealed under the
    same key with different nonces, and each nonce is the one its datagram carries. *)
Theorem nonces_differ (p : Params) (c c1 c2 c3 : Client) (id : nat) (raw raw' : list Z) (werr werr' : option string) (s : session) (n : nat) (r r' : Res unit) :
  rtc operation (NewClient p) c → store c !! id = Some s → sendCounter s < 2 ^ 60 → transmit id raw werr c = (c1, r) →
  nsteps step n c1 c2 → Z.of_nat n < 2 ^ 63 → transmit id raw' werr' c2 = (c3, r') →
  ∃ s', store c2 !! id = Some s' ∧ send s' = send s ∧ sendCounter s < sendCounter s' ∧
    zeros 4 ++ put_le64 (sendCounter s') ≠ zeros 4 ++ put_le64 (sendCounter s) ∧
    (r = Ok tt → ∃ sealed, aead_seal (send s) (zeros 4 ++ put_le64 (sendCounter s)) (Pad16 raw) [] = Ok sealed ∧
       wire c1 = wire c ++ [mkOut (LocalPort c) (transport_message s sealed)]) ∧
    (r' = Ok tt → ∃ sealed, aead_seal (send s') (zeros 4 ++ put_le64 (sendCounter s')) (Pad16 raw') [] = Ok sealed ∧
       wire c3 = wire c2 ++ [mkOut (LocalPort c2) (transport_message s' sealed)]).
Proof.
  intros Hr Hs Hc E1 Hn Hlt E2. pose proof (reachable_ok _ _ (operations_steps _ _ Hr)) as Hok.
  pose proof (step_send c id raw werr c1 r (mk_is_Some _ _ Hs) E1) as Hst. destruct (wg_step_ok _ _ Hok Hst) as [Hok1 _].
  destruct (transmit_effect _ _ _ _ _ _ _ Hs E1) as (_ & Es & _ & _ & _ & _ & _ & Hw & _). destruct (t_win _ Hok _ _ Hs) as [_ Hrange].
  destruct (wg_steps_ok n _ _ Hok1 Hn) as [Hok2 (_ & _ & Hev)]. destruct (Hev id (set_counter s (u64 (sendCounter s + 1)))) as (s' & Hs' & Hl).
  { rewrite Es. apply lookup_insert_eq. }
  destruct (t_win _ Hok2 _ _ Hs') as [_ Hrange']. pose proof (l_counter _ _ _ Hl) as Hcnt. cbn [sendCounter set_counter] in Hcnt. rewrite u64_small in Hcnt by lia.
  specialize (Hcnt ltac:(lia)). destruct (l_ids _ _ _ Hl) as (_ & _ & Hsend & _). cbn [send set_counter] in Hsend.
  destruct (transmit_effect _ _ _ _ _ _ _ Hs' E2) as (_ & _ & _ & _ & _ & _ & _ & Hw' & _).
  exists s'. split_and!; try done; [lia|]. intros E. apply app_inv_head, put_le64_inj in E; lia.
Qed.

(** C26: Through the tunnel.  A packet sent by one client, of exactly its IP length and
    accepted by the network, reaches the application of the peer unchanged: if the
    peer's session under the index has the matching key and its replay window has room
    for the counter, receiving the datagram appends the packet to the peer's queue. *)
Theorem tunnel_roundtrip (p : Params) (a a' b : Client) (id idb : nat) (sa sb : session) (raw S : list Z) (from : UDPAddr) (pick : bool) :
  store a !! id = Some sa → 0 <= sendCounter sa < 18446744073709551616 - 2048 → 0 <= remoteIndex sa < 4294967296 →
  bytes_ok raw → ip_length_exact raw → transmit id raw None a = (a', Ok tt) →
  rtc operation (NewClient p) b → sessions b !! remoteIndex sa = Some idb → store b !! idb = Some sb → recv sb = send sa →
  window (sreplay sb) S → sendCounter sa ∉ S → (∀ m, m ∈ S → m < sendCounter sa + 2048) →
  blen (plain b) < plain_cap → done_ b = false → sameEndpoint from (p_endpoint p) = true →
  ∃ d b', wire a' = wire a ++ [d] ∧ reader_step from (out_bytes d) pick b = (b', Ok tt) ∧ plain b' = plain b ++ [raw].
Proof.
  intros Hsa Hcn Hri Hraw Hip E Hr Hx Hsb Hkey Hw Hnew Hroom Hq Hd Hfrom.
  assert (Hp : params b = p) by (pose proof (operations_steps _ _ Hr) as Hr'; apply rtc_nsteps in Hr' as (m & Hr'); destruct (wg_steps_ok m _ _ (NewClient_ok p) Hr') as [_ (_ & -> & _)]; done).
  destruct (transmit_effect _ _ _ _ _ _ _ Hsa E) as (_ & _ & _ & _ & _ & _ & _ & Hwire & _). destruct (Hwire eq_refl) as (sealed & Eseal & Ew).
  destruct (aead_seal_ok _ _ _ _ _ (bytes_ok_Pad16 _ Hraw) Eseal) as (_ & Hlen & Eopen). pose proof (blen_nonneg (Pad16 raw)).
  set (m := transport_message sa sealed) in *. assert (Hpl : blen (Pad16 raw) >= 16).
  { pose proof (blen_Pad16 raw). pose proof (Z.mod_pos_bound (16 - blen raw `mod` 16) 16). destruct Hip as [(_ & _ & ?)|(_ & _ & ?)]; lia. }
  assert (Hm : blen m = 16 + blen sealed) by (unfold m, transport_message; rewrite !blen_app, !blen_put_le32, blen_put_le64; lia).
  assert (F : transport_fields m = (remoteIndex sa, sendCounter sa)).
  { unfold transport_fields, m, transport_message. f_equal; [exact (le32_at_put (put_le32 msgTransport) _ _ Hri)|].
    rewrite (app_assoc (put_le32 msgTransport)). exact (le64_put (put_le32 msgTransport ++ put_le32 (remoteIndex sa)) (sendCounter sa) sealed ltac:(lia)). }
  assert (Hct : bsub m 16 (blen m) = sealed).
  { unfold m, transport_message. rewrite (app_assoc (put_le32 _)), (app_assoc (put_le32 _ ++ _)), <- (app_nil_r sealed) at 1. apply bsub_mid; [done|]. fold (transport_message sa sealed) m. rewrite Hm, !blen_app, !blen_put_le32, blen_put_le64. lia. }
  exists (mkOut (LocalPort a) m). pose proof (handleTransport_eq m pick (count TRaw b) ltac:(lia)) as Hh. rewrite F in Hh.
  cbn [sessions store count set_diag] in Hh. rewrite Hx, Hsb, Hkey, Hct, Eopen in Hh.
  destruct (Accept_window (sreplay sb) S (sendCounter sa) Hw ltac:(lia)) as (rp & bb & Ea & _ & _ & Hex). rewrite Ea in Hh.
  assert (bb = true) as -> by (apply Hex; [lia|done]). cbv zeta in Hh. cbn [negb] in Hh. rewrite (TrimToIPLength_pad raw Hip) in Hh.
  assert (Hin : inner_ok raw = true).
  { unfold inner_ok. destruct Hip as [(-> & _ & ?)|(-> & _ & ?)]; rewrite (proj2 (Z.eqb_neq (blen raw) 0)) by lia; done. }
  rewrite Hin in Hh. unfold deliver in Hh. cbn [plain done_ count set_diag set_store] in Hh. rewrite (proj2 (Z.ltb_lt _ _)), Hd in Hh by done. cbn [negb orb andb] in Hh.
  eexists. split; [done|]. cbn [out_bytes]. unfold reader_step. rewrite tick_run, sget_run. change (params (count TRaw b)) with (params b). rewrite Hp, Hfrom. cbn [negb].
  rewrite (proj2 (Z.ltb_ge (blen m) 4)) by lia. rewrite slice_ok by lia. rewrite liftR_run, le32_ok, liftR_run by (rewrite ?blen_bsub; lia).
  rewrite le32_at_bsub by lia. assert (le32_at m (0 + 0) = 4) as -> by exact (le32_at_put [] msgTransport _ ltac:(unfold msgTransport; lia)).
  change (4 =? msgResp) with false. change (4 =? msgCookie) with false. change (4 =? msgTransport) with true. cbv iota. rewrite Hh. split; [done|]. done.
Qed.

(** ** Choosing the session *)

(** A periodic rekey never delays a packet.  While the current session has sent
    fewer than 2^60 packets and is younger than 170 seconds, choosing the session to
    send with takes it at once, whatever happens on the network; from 110 seconds on it
    also starts one background rekey.  Any other session it gives out is the current
    one at the second look or the result of a handshake, and when no handshake took
    place it is within the same limits. *)
Theorem session_selection (p : Params) (c c' : Client) (now1 now2 : Z) (env : nat → init_env) (werr : nat → option string) (evs : list event) :
  rtc operation (NewClient p) c → Forall event_ok evs →
  (∀ id s, current c = Some id → store c !! id = Some s → sendCounter s < 2 ^ 60 → Z.max 0 (now1 - created s) < rejectAfterTime →
     let old := rekeyAfterTime <=? Z.max 0 (now1 - created s) in
     ensureSession now1 now2 env werr evs c =
       (set_flags c (done_ c) (lastHandshake c) (rekeying c || old), Ok (id, old && negb (rekeying c)))) ∧
  (∀ id b, ensureSession now1 now2 env werr evs c = (c', Ok (id, b)) →
     (∃ s now, current c = Some id ∧ store c !! id = Some s ∧ (now = now1 ∨ now = now2) ∧
        sendCounter s < 2 ^ 60 ∧ Z.max 0 (now - created s) < rejectAfterTime) ∨
     (∃ evs', handshake env werr evs c = (c', Ok (id, evs')))).
Proof.
  intros Hr Hev. pose proof (reachable_ok _ _ (operations_steps _ _ Hr)) as Hok.
  assert (Hus : ∀ s now, sessionUsable (Some s) now = if decide (sendCounter s < 2 ^ 60 ∧ Z.max 0 (now - created s) < rejectAfterTime)
    then (true, rekeyAfterTime <=? Z.max 0 (now - created s)) else (false, false)).
  { intros s now. unfold sessionUsable. replace (if now - created s <? 0 then 0 else now - created s) with (Z.max 0 (now - created s)) by (destruct (Z.ltb_spec (now - created s) 0); lia).
    destruct (Z.leb_spec (2 ^ 60) (sendCounter s)); [rewrite decide_False by lia; done|]. destruct (Z.leb_spec rejectAfterTime (Z.max 0 (now - created s))); [rewrite decide_False by lia|rewrite decide_True by lia]; done. }
  split.
  - intros id s Hc Hs H1 H2. cbv zeta. unfold ensureSession, select_current, startBackgroundRekey. unfold mbind at 1, SR_bind at 1. rewrite Hc, Hs, Hus, decide_True by done.
    destruct (rekeyAfterTime <=? _); [|cbn; rewrite orb_false_r; by destruct c]. unfold mbind, SR_bind. destruct (rekeying c) eqn:Er; cbn; [|done]. rewrite <- Er. by destruct c.
  - intros id b E. unfold ensureSession in E.
    assert (Hlim : ∀ s now, fst (sessionUsable (Some s) now) = true → sendCounter s < 2 ^ 60 ∧ Z.max 0 (now - created s) < rejectAfterTime).
    { intros s now. rewrite Hus. destruct (decide _); [tauto|done]. }
    assert (Hnone : ∀ now c1 c2, select_current now c1 = (c2, Ok None) → c2 = c1).
    { intros now d d'. unfold select_current, startBackgroundRekey. destruct (current d) as [i|]; [|congruence]. destruct (sessionUsable _ now) as [[|] [|]]; try congruence.
      unfold mbind, SR_bind. destruct (rekeying d); discriminate. }
    destruct (SR_bind_run _ _ _ _ _ E) as [(c1 & r1 & E1 & E')|(r0 & _ & _ & Hr' & _)]; [|by destruct (Hr' (id, b))].
    destruct r1 as [[i bi]|]; [injection E' as _ <- _; destruct (select_current_some _ _ _ _ _ Hok E1) as (Hc & s & Hs & Hu); left; exists s, now1; destruct (Hlim _ _ Hu); by split_and!; [..|left| |]|].
    apply Hnone in E1 as ->. destruct (SR_bind_run _ _ _ _ _ E') as [(c2 & r2 & E2 & E'')|(r0 & _ & _ & Hr' & _)]; [|by destruct (Hr' (id, b))].
    destruct r2 as [[i bi]|]; [injection E'' as _ <- _; destruct (select_current_some _ _ _ _ _ Hok E2) as (Hc & s & Hs & Hu); left; exists s, now2; destruct (Hlim _ _ Hu); by split_and!; [..|right| |]|].
    apply Hnone in E2 as ->. destruct (SR_bind_run _ _ _ _ _ E'') as [(c3 & [i evs'] & E3 & E4)|(r0 & _ & _ & Hr' & _)]; [|by destruct (Hr' (id, b))].
    right. injection E4 as -> -> _. by exists evs'.
Qed.
End Tunnel.

(** ** A concrete pair of clients *)
Definition demo_params : Params := toy_params (mkKeys [] [] [] [] [] []).
Definition demo_session (local remote : Z) (k1 k2 : list Z) : @session pureAEAD := @mkSession pureAEAD local remote k1 k2 0 replay0 100 None false.
Definition demo_a : @Client pureAEAD := installSession (NewClient demo_params) (demo_session 7 9 (range 1 32) (range 2 32)) 5.
Definition demo_b : @Client pureAEAD := installSession (NewClient demo_params) (demo_session 9 7 (range 2 32) (range 1 32)) 5.
Definition demo_from : UDPAddr := mkUDP [10; 0; 0; 1] 51820.
Lemma demo_reachable s : fresh s → rtc (@operation pureAEAD toyX) (NewClient demo_params) (installSession (NewClient demo_params) s 5).
Proof. intros H. apply rtc_once, op_step, step_install. exact H. Qed.
Lemma demo_fresh l r k1 k2 : fresh (demo_session l r k1 k2).
Proof. by split_and!. Qed.

Lemma session_table_witness :
  ∃ s, store demo_a !! 0%nat = Some s ∧ sessions demo_a !! localIndex s = Some 0%nat ∧ closed s = false ∧ retiredAt s = None.
Proof. exact (proj1 (@session_table pureAEAD toyX demo_params demo_a (demo_reachable _ (demo_fresh _ _ _ _))) 0%nat eq_refl). Defined.

Definition demo_sent : @Client pureAEAD * Res unit := transmit 0 udp_sample None demo_a.
Definition demo_datagram : list Z := match wire (fst demo_sent) with d :: _ => out_bytes d | [] => [] end.
Lemma demo_datagram_ok : bytes_okb demo_datagram = true ∧ plain (fst (reader_step demo_from demo_datagram true demo_b)) = [udp_sample].
Proof. vm_compute. split; reflexivity. Qed.

Lemma delivered_once_witness :
  plain (fst (reader_step demo_from demo_datagram true (fst (reader_step demo_from demo_datagram true demo_b)))) =
  plain (fst (reader_step demo_from demo_datagram true demo_b)).
Proof.
  destruct demo_datagram_ok as [Hb Hp].
  destruct (@delivered_once pureAEAD toyX demo_params demo_b (fst (reader_step demo_from demo_datagram true demo_b))
    (fst (reader_step demo_from demo_datagram true demo_b)) demo_from demo_from true true demo_datagram) as (id & s & pt & pkt & Hx & _ & _ & _ & _ & H).
  - exact (demo_reachable _ (demo_fresh _ _ _ _)).
  - apply bytes_okb_ok. exact Hb.
  - reflexivity.
  - rewrite Hp. discriminate.
  - apply H; [constructor|]. rewrite <- Hx. vm_compute. reflexivity.
Defined.

Lemma nonces_differ_witness :
  ∃ s', store (fst demo_sent) !! 0%nat = Some s' ∧ zeros 4 ++ put_le64 (sendCounter s') ≠ zeros 4 ++ put_le64 0.
Proof.
  destruct (@nonces_differ pureAEAD toyX demo_params demo_a (fst demo_sent) (fst demo_sent) (fst (transmit 0 [] None (fst demo_sent))) 0 udp_sample [] None None
    (demo_session 7 9 (range 1 32) (range 2 32)) 0 (snd demo_sent) (snd (transmit 0 [] None (fst demo_sent)))) as (s' & Hs & _ & _ & Hne & _).
  - exact (demo_reachable _ (demo_fresh _ _ _ _)).
  - reflexivity.
  - cbn. lia.
  - apply surjective_pairing.
  - constructor.
  - cbn. lia.
  - apply surjective_pairing.
  - exists s'. split; [exact Hs|exact Hne].
Defined.

Lemma tunnel_roundtrip_witness :
  ∃ d b', wire (fst demo_sent) = [d] ∧ reader_step demo_from (out_bytes d) true demo_b = (b', Ok tt) ∧ plain b' = [udp_sample].
Proof.
  assert (E : snd demo_sent = Ok tt) by (vm_compute; reflexivity).
  refine (@tunnel_roundtrip pureAEAD toyX demo_params demo_a (fst demo_sent) demo_b 0 0 (demo_session 7 9 (range 1 32) (range 2 32))
    (demo_session 9 7 (range 2 32) (range 1 32)) udp_sample [] demo_from true eq_refl _ _ _ _ _ (demo_reachable _ (demo_fresh _ _ _ _)) eq_refl eq_refl eq_refl window0 _ _ _ eq_refl eq_refl).
  - cbn. lia.
  - cbn. lia.
  - apply bytes_okb_ok. reflexivity.
  - left. split_and!; [reflexivity|reflexivity|]. vm_compute. discriminate.
  - rewrite <- E. apply surjective_pairing.
  - apply not_elem_of_nil.
  - intros m Hm. destruct (not_elem_of_nil _ Hm).
  - reflexivity.
Defined.

Lemma session_selection_witness :
  @ensureSession pureAEAD toyX 130000000000 0 (fun _ => toy_env) (fun _ => None) [] demo_a = (set_flags demo_a false 0 true, Ok (0%nat, true)).
Proof.
  refine (proj1 (@session_selection pureAEAD toyX demo_params demo_a demo_a 130000000000 0 (fun _ => toy_env) (fun _ => None) []
    (demo_reachable _ (demo_fresh _ _ _ _)) ltac:(constructor)) 0%nat (demo_session 7 9 (range 1 32) (range 2 32)) eq_refl eq_refl _ _).
  - cbn. lia.
  - vm_compute. reflexivity.
Defined.
