(* ===== verification/WgOpen.v ===== *)
(** * Opening a WireGuard client: [New] of [internal/wireguard/client.go], [bind_windows.go]

    The keys, the endpoint, the two UDP sockets and their binding to the physical
    interface.  The world is the list of sockets that are open; what the network calls
    answer are arguments.  A failing [New] leaves no socket behind. *)

From S2P Require Import Prelude Netip GoStrings Crypto Replay Handshake WireGuard.
Local Open Scope Z_scope.

(** ** The sockets *)
(** One call of [net.ListenUDP]: the local port or an error, and what setting the socket
    option of the interface answers. *)
Record udp_answer := mkAnswer { ud_listen : Z + string; ud_control : option string }.
(** An open socket: its port, whether it is an IPv6 one, and the option set on it. *)
Record socket := mkSocket { sk_port : Z; sk_v6 : bool; sk_if : option Z }.

(** [IP.To4() == nil] *)
Definition is_v6 (ip : list Z) : bool := negb ((blen ip =? 4) || (blen ip =? 16) && bool_decide (take 12 ip = v4InV6Prefix)).
(** The value of the option: the index itself for IPv6, and for IPv4 the four bytes of
    the index in network order, read back as a number of the machine (little endian). *)
Definition unicast_if (index : Z) (ipv6 : bool) : Z := if ipv6 then index else le32_at (enc32 index) 0.
Definition bindUDPToInterface (control : option string) (index : Z) (s : socket) : socket * option string :=
  match control with
  | Some e => (s, Some e)
  | None => (mkSocket (sk_port s) (sk_v6 s) (Some (unicast_if index (sk_v6 s))), None)
  end.

Section Open.
Context {U : Unicode} {A : AEAD} {X : X25519}.
(** [net.ResolveUDPAddr] *)
Context (ResolveUDPAddr : list Z → option UDPAddr).

Definition resolveEndpoint (s : list Z) : Res UDPAddr :=
  let s := TrimSpace s in
  if bool_decide (s = []) then Err "empty endpoint" else
  match ResolveUDPAddr s with Some a => Ok a | None => Err "resolve endpoint" end.
Definition close_socket (s : socket) (open : list socket) : list socket := filter (fun x => sk_port x ≠ sk_port s) open.
Definition openPath (index : Z) (v6 : bool) (a : udp_answer) : SR (list socket) socket := fun open =>
  match ud_listen a with
  | inr e => (open, Err e)
  | inl port =>
      let s := mkSocket port v6 None in
      if negb (index =? 0) then
        match bindUDPToInterface (ud_control a) index s with
        | (s, Some e) => (close_socket s (s :: open), Err "bind WireGuard UDP to physical interface")
        | (s, None) => (s :: open, Ok s)
        end
      else (s :: open, Ok s)
  end.
(** The second path; the first is closed if it fails. *)
Definition openSecond (index : Z) (v6 : bool) (a : udp_answer) (conn0 : socket) : SR (list socket) socket := fun open =>
  let (open, r) := openPath index v6 a open in
  match r with Err e => (close_socket conn0 open, Err e) | _ => (open, r) end.
Record open_params := mkOpen {
  np_private : list Z; np_peer : list Z; np_psk : list Z; np_endpoint : list Z; np_index : Z; np_mtu : Z; np_keepalive : Z }.
Definition New (p : open_params) (a0 a1 : udp_answer) : SR (list socket) Client :=
  keys ← liftR (new_keys (np_private p) (np_peer p) (np_psk p));
  ep ← liftR (resolveEndpoint (np_endpoint p));
  let v6 := is_v6 (ua_ip ep) in
  conn0 ← openPath (np_index p) v6 a0;
  conn1 ← openSecond (np_index p) v6 a1 conn0;
  mret (NewClient (mkParams keys (np_mtu p) (np_keepalive p) ep (sk_port conn0, sk_port conn1))).
End Open.

(** ** Properties *)
(** In memory the IPv4 option is the index in network byte order, as the option asks. *)
Lemma unicast_if_network index : 0 <= index < 2 ^ 32 → put_le32 (unicast_if index false) = enc32 index.
Proof.
  intros H. unfold unicast_if, put_le32, le32_at, enc32, gb. cbn -[Z.div Z.modulo Z.mul Z.add].
  set (a := (index `div` 16777216) `mod` 256). set (b := (index `div` 65536) `mod` 256). set (c := (index `div` 256) `mod` 256). set (d := index `mod` 256).
  assert (Ha : 0 <= a < 256) by (apply Z.mod_pos_bound; lia). assert (Hb : 0 <= b < 256) by (apply Z.mod_pos_bound; lia).
  assert (Hc : 0 <= c < 256) by (apply Z.mod_pos_bound; lia). assert (Hd : 0 <= d < 256) by (apply Z.mod_pos_bound; lia).
  clearbody a b c d.
  change (default 0 ([a; b; c; d] !! Z.to_nat 0)) with a. change (default 0 ([a; b; c; d] !! Z.to_nat (0 + 1))) with b.
  change (default 0 ([a; b; c; d] !! Z.to_nat (0 + 2))) with c. change (default 0 ([a; b; c; d] !! Z.to_nat (0 + 3))) with d.
  f_equal; [|f_equal; [|f_equal; [|f_equal]]]; Z.div_mod_to_equations; lia.
Qed.

Section OpenProps.
Context {U : Unicode} {A : AEAD} {X : X25519}.
Context (ResolveUDPAddr : list Z → option UDPAddr).

Definition free_port (port : Z) (open : list socket) : Prop := ∀ s, s ∈ open → sk_port s ≠ port.
Lemma close_socket_free s open : free_port (sk_port s) open → close_socket s (s :: open) = open.
Proof.
  intros H. unfold close_socket. rewrite filter_cons_False by (intros Hn; by apply Hn).
  induction open as [|x open IH]; [done|]. rewrite filter_cons_True by (apply H; by left). f_equal. apply IH. intros y Hy. apply H. by right.
Qed.
Definition bound_to (index : Z) (v6 : bool) (s : socket) : Prop :=
  sk_v6 s = v6 ∧ sk_if s = (if index =? 0 then None else Some (unicast_if index v6)).

Lemma openPath_spec index v6 a open : (∀ port, ud_listen a = inl port → free_port port open) →
  match openPath index v6 a open with
  | (open', Ok s) => open' = s :: open ∧ bound_to index v6 s ∧ ud_listen a = inl (sk_port s)
  | (open', Err _) => open' = open
  | _ => False
  end.
Proof.
  intros Hf. unfold openPath, bound_to. destruct (ud_listen a) as [port|e]; [|done].
  specialize (Hf port eq_refl). destruct (Z.eqb_spec index 0) as [->|Hi]; cbn [negb]; [done|].
  unfold bindUDPToInterface. destruct (ud_control a); [|done]. by apply close_socket_free.
Qed.

Lemma new_keys_returns priv peer psk : returns (new_keys priv peer psk).
Proof.
  unfold new_keys. apply returns_bind; [unfold NewPrivateKey; by case_match|intros ? _]. cbv zeta.
  destruct (Blake2s256_ok (lit "mac1----" ++ peer)) as (m & -> & _). rewrite bind_Ok.
  destruct (Blake2s256_ok (lit "cookie--" ++ peer)) as (k & -> & _). by rewrite bind_Ok.
Qed.

(** A client is opened whole or not at all.  [New] returns a client that knows
    exactly the two sockets it opened, both of the endpoint's family and both bound to
    the chosen interface, with the first as the active path and its packets sent to the
    resolved endpoint; or it returns an error, and then no socket of it is open,
    whichever call failed. *)
Theorem New_opens p a0 a1 open :
  (∀ p0, ud_listen a0 = inl p0 → free_port p0 open) →
  (∀ p0 p1, ud_listen a0 = inl p0 → ud_listen a1 = inl p1 → p1 ≠ p0 ∧ free_port p1 open) →
  match New ResolveUDPAddr p a0 a1 open with
  | (open', Ok c) => ∃ s0 s1 ep, open' = s1 :: s0 :: open ∧ LocalPorts c = (sk_port s0, sk_port s1) ∧ LocalPort c = sk_port s0 ∧
      StandbyPort c = sk_port s1 ∧ ResolveUDPAddr (TrimSpace (np_endpoint p)) = Some ep ∧ p_endpoint (params c) = ep ∧
      bound_to (np_index p) (is_v6 (ua_ip ep)) s0 ∧ bound_to (np_index p) (is_v6 (ua_ip ep)) s1 ∧
      new_keys (np_private p) (np_peer p) (np_psk p) = Ok (p_keys (params c))
  | (open', Err _) => open' = open
  | _ => False
  end.
Proof.
  intros H0 H1. unfold New. unfold mbind, SR_bind, liftR, mret, SR_ret, openSecond.
  pose proof (new_keys_returns (np_private p) (np_peer p) (np_psk p)) as Hk.
  destruct (new_keys _ _ _) as [keys|e| |]; [|done..].
  unfold resolveEndpoint. cbv zeta. destruct (bool_decide _); [done|].
  destruct (ResolveUDPAddr (TrimSpace (np_endpoint p))) as [ep|] eqn:Eep; [|done].
  pose proof (openPath_spec (np_index p) (is_v6 (ua_ip ep)) a0 open H0) as P0.
  destruct (openPath _ _ a0 open) as [open0 [s0|e| |]]; [|done..]. destruct P0 as (-> & B0 & E0).
  assert (Hf1 : ∀ port, ud_listen a1 = inl port → free_port port (s0 :: open)).
  { intros p1 E1 s [->|Hs]%elem_of_cons; [|by apply (H1 _ _ E0 E1)]. intros E. by destruct (H1 _ _ E0 E1). }
  pose proof (openPath_spec (np_index p) (is_v6 (ua_ip ep)) a1 (s0 :: open) Hf1) as P1.
  destruct (openPath _ _ a1 (s0 :: open)) as [open1 [s1|e| |]]; [|subst open1; by apply close_socket_free, H0|done..].
  destruct P1 as (-> & B1 & E1). by exists s0, s1, ep.
Qed.
End OpenProps.

(** ** An example: the second socket cannot be bound, then it can *)
#[local] Existing Instance ascii_unicode.
#[local] Existing Instance pureAEAD.
#[local] Existing Instance toyX.
Definition demo_resolve (s : list Z) : option UDPAddr := Some (mkUDP [192; 0; 2; 1] 51820).
Definition demo_open : open_params := mkOpen (zeros 32) (zeros 32) (zeros 32) (lit " 192.0.2.1:51820 ") 7 1380 25.
Definition demo_new (control : option string) : list socket * Res Client :=
  New demo_resolve demo_open (mkAnswer (inl 5000) None) (mkAnswer (inl 5001) control) [].
Lemma New_opens_witness :
  (demo_new (Some "denied"%string)).1 = [] ∧
  match demo_new None with (open', Ok c) => LocalPorts c = (5000, 5001) ∧ length open' = 2%nat | _ => False end.
Proof.
  assert (Hf : ∀ port, free_port port []) by (intros port s []%elem_of_nil).
  assert (H : ∀ control, _) by (intros control; exact (New_opens demo_resolve demo_open (mkAnswer (inl 5000) None) (mkAnswer (inl 5001) control) []
    (fun p0 _ => Hf p0) (fun p0 p1 E0 E1 => conj (ltac:(injection E0 as <-; injection E1 as <-; discriminate) : p1 ≠ p0) (Hf p1)))).
  pose proof (H (Some "denied"%string)) as H1. pose proof (H None) as H2. fold (demo_new (Some "denied"%string)) in H1. fold (demo_new None) in H2.
  assert (E1 : is_Ok (demo_new (Some "denied"%string)).2 = false) by (vm_compute; reflexivity).
  assert (E2 : is_Ok (demo_new None).2 = true ∧ match demo_new None with (_, Ok c) => LocalPorts c = (5000, 5001) | _ => False end) by (vm_compute; split; reflexivity).
  split.
  - destruct (demo_new (Some "denied"%string)) as [o [c|e| |]]; [discriminate E1|exact H1|destruct H1..].
  - destruct (demo_new None) as [o [c|e| |]]; [|discriminate (proj1 E2)..]. split; [exact (proj2 E2)|].
    destruct H2 as (s0 & s1 & ep & -> & _). reflexivity.
Defined.
