(* ===== verification/Utf.v ===== *)
(** * Text encodings: what the code uses of Go's [unicode/utf8], [unicode/utf16] and
    [syscall]

    Strings are UTF-8 and the system takes UTF-16.  The conversions of [syscall] are
    those of Go 1.23: an unpaired surrogate is kept as three bytes.  [utf16Ptr] gives
    the null pointer for a string with a zero byte. *)

From S2P Require Import Prelude GoStrings.
Local Open Scope Z_scope.

Definition RuneError : Z := 0xFFFD.
Definition between (lo x hi : Z) : bool := (lo <=? x) && (x <=? hi).
Definition continuation (b : Z) : bool := between 0x80 b 0xBF.

(** [utf8.DecodeRuneInString] on a string that is not empty: the rune and its width. *)
Definition second_range (b0 : Z) : Z * Z :=
  if b0 =? 0xE0 then (0xA0, 0xBF) else if b0 =? 0xED then (0x80, 0x9F)
  else if b0 =? 0xF0 then (0x90, 0xBF) else if b0 =? 0xF4 then (0x80, 0x8F) else (0x80, 0xBF).
Definition DecodeRune (s : list Z) : Z * nat :=
  match s with
  | [] => (RuneError, 0%nat)
  | b0 :: r =>
      if b0 <? 0x80 then (b0, 1%nat) else
      if negb (between 0xC2 b0 0xF4) then (RuneError, 1%nat) else
      let '(lo, hi) := second_range b0 in
      match r with
      | b1 :: r =>
          if negb (between lo b1 hi) then (RuneError, 1%nat) else
          if b0 <? 0xE0 then ((b0 - 0xC0) * 64 + (b1 - 0x80), 2%nat) else
          match r with
          | b2 :: r =>
              if negb (continuation b2) then (RuneError, 1%nat) else
              if b0 <? 0xF0 then ((b0 - 0xE0) * 4096 + (b1 - 0x80) * 64 + (b2 - 0x80), 3%nat) else
              match r with
              | b3 :: _ =>
                  if negb (continuation b3) then (RuneError, 1%nat) else
                  ((b0 - 0xF0) * 262144 + (b1 - 0x80) * 4096 + (b2 - 0x80) * 64 + (b3 - 0x80), 4%nat)
              | [] => (RuneError, 1%nat)
              end
          | [] => (RuneError, 1%nat)
          end
      | [] => (RuneError, 1%nat)
      end
  end.
(** [[]rune(s)]; one unit of fuel per byte. *)
Fixpoint runes_fuel (fuel : nat) (s : list Z) : list Z :=
  match fuel with
  | O => []
  | S fuel => match s with [] => [] | _ => let (r, n) := DecodeRune s in r :: runes_fuel fuel (drop n s) end
  end.
Definition runes (s : list Z) : list Z := runes_fuel (length s) s.
Definition surrogate (r : Z) : bool := between 0xD800 r 0xDFFF.
Definition valid_rune (r : Z) : bool := between 0 r 0x10FFFF && negb (surrogate r).
(** [utf8.AppendRune] *)
Definition three_bytes (r : Z) : list Z := [0xE0 + r `div` 4096; 0x80 + (r `div` 64) `mod` 64; 0x80 + r `mod` 64].
Definition EncodeRune (r : Z) : list Z :=
  if negb (valid_rune r) then [0xEF; 0xBF; 0xBD] else
  if r <? 0x80 then [r] else
  if r <? 0x800 then [0xC0 + r `div` 64; 0x80 + r `mod` 64] else
  if r <? 0x10000 then three_bytes r else
  [0xF0 + r `div` 262144; 0x80 + (r `div` 4096) `mod` 64; 0x80 + (r `div` 64) `mod` 64; 0x80 + r `mod` 64].
(** [string(runes)] *)
Definition string_of (rs : list Z) : list Z := flat_map EncodeRune rs.

(** [utf16.AppendRune] and [utf16.Encode]. *)
Definition AppendRune16 (r : Z) : list Z :=
  if between 0 r 0xFFFF && negb (surrogate r) then [r] else
  if between 0x10000 r 0x10FFFF then [0xD800 + ((r - 0x10000) `div` 1024); 0xDC00 + ((r - 0x10000) `mod` 1024)] else [RuneError].
Definition utf16_Encode (rs : list Z) : list Z := flat_map AppendRune16 rs.
(** [encodeWTF16] *)
Fixpoint encodeWTF16 (fuel : nat) (s : list Z) : list Z :=
  match fuel with
  | O => []
  | S fuel =>
      match s with
      | [] => []
      | _ =>
          let (r, n) := DecodeRune s in
          match s with
          | b0 :: b1 :: b2 :: rest =>
              if (r =? RuneError) && (b0 =? 0xED) && between 0xA0 b1 0xBF && continuation b2 then
                ((b0 - 0xE0) * 4096 + (b1 - 0x80) * 64 + (b2 - 0x80)) :: encodeWTF16 fuel rest
              else AppendRune16 r ++ encodeWTF16 fuel (drop n s)
          | _ => AppendRune16 r ++ encodeWTF16 fuel (drop n s)
          end
      end
  end.
(** [syscall.UTF16FromString]: [None] is EINVAL. *)
Definition UTF16FromString (s : list Z) : option (list Z) :=
  if contains_byte s 0 then None else Some (encodeWTF16 (length s) s ++ [0]).
(** What [utf16Ptr] points to; [None] is the null pointer. *)
Definition utf16Ptr (s : list Z) : option (list Z) := UTF16FromString s.
(** [decodeWTF16] *)
Fixpoint decodeWTF16 (u : list Z) : list Z :=
  match u with
  | [] => []
  | r :: u' =>
      if negb (surrogate r) then EncodeRune r ++ decodeWTF16 u' else
      match u' with
      | r2 :: u'' =>
          if (r <? 0xDC00) && between 0xDC00 r2 0xDFFF
          then EncodeRune (0x10000 + (r - 0xD800) * 1024 + (r2 - 0xDC00)) ++ decodeWTF16 u''
          else three_bytes r ++ decodeWTF16 u'
      | [] => three_bytes r
      end
  end.
Fixpoint until_nul (u : list Z) : list Z := match u with [] => [] | c :: u => if c =? 0 then [] else c :: until_nul u end.
Definition UTF16ToString (u : list Z) : list Z := decodeWTF16 (until_nul u).

(** ** Round trips *)
Lemma between_spec lo x hi : between lo x hi = true ↔ lo <= x <= hi.
Proof. unfold between. rewrite andb_true_iff, !Z.leb_le. done. Qed.
Lemma between_false lo x hi : between lo x hi = false ↔ x < lo ∨ hi < x.
Proof. unfold between. rewrite andb_false_iff, !Z.leb_gt. done. Qed.
Lemma valid_rune_spec r : valid_rune r = true ↔ 0 <= r < 0xD800 ∨ 0xE000 <= r <= 0x10FFFF.
Proof. unfold valid_rune, surrogate. rewrite andb_true_iff, negb_true_iff, between_spec, between_false. lia. Qed.
Lemma cont64 x : continuation (0x80 + x `mod` 64) = true.
Proof. apply between_spec. pose proof (Z.mod_pos_bound x 64 ltac:(lia)). lia. Qed.

Lemma DecodeRune_Encode r s : valid_rune r = true → DecodeRune (EncodeRune r ++ s) = (r, length (EncodeRune r)).
Proof.
  intros Hv. unfold EncodeRune. rewrite Hv. cbn [negb]. apply valid_rune_spec in Hv.
  destruct (Z.ltb_spec r 0x80); [cbn [app DecodeRune length]; by rewrite (proj2 (Z.ltb_lt r 0x80)) by lia|].
  assert (Hd : ∀ b0, between 0xC2 b0 0xF4 = true → (b0 <? 0x80) = false ∧ negb (between 0xC2 b0 0xF4) = false).
  { intros b0 H0. rewrite H0. apply between_spec in H0. split; [apply Z.ltb_ge; lia|done]. }
  destruct (Z.ltb_spec r 0x800); [|destruct (Z.ltb_spec r 0x10000)]; cbn [three_bytes app length]; unfold DecodeRune.
  - destruct (Hd (0xC0 + r `div` 64)) as [-> ->]; [apply between_spec; Z.to_euclidean_division_equations; lia|].
    assert (second_range (0xC0 + r `div` 64) = (0x80, 0xBF)) as ->.
    { unfold second_range. rewrite !(proj2 (Z.eqb_neq _ _)) by (Z.to_euclidean_division_equations; lia). done. }
    fold (continuation (0x80 + r `mod` 64)). rewrite cont64, (proj2 (Z.ltb_lt _ 0xE0)) by (Z.to_euclidean_division_equations; lia). cbn [negb].
    f_equal. Z.to_euclidean_division_equations; lia.
  - set (b0 := 0xE0 + r `div` 4096). set (b1 := 0x80 + (r `div` 64) `mod` 64).
    destruct (Hd b0) as [-> ->]; [apply between_spec; unfold b0; Z.to_euclidean_division_equations; lia|].
    assert (Hb1 : let '(lo, hi) := second_range b0 in between lo b1 hi = true).
    { unfold second_range. destruct (Z.eqb_spec b0 0xE0) as [E|E]; [apply between_spec; unfold b0, b1 in *; Z.to_euclidean_division_equations; lia|].
      destruct (Z.eqb_spec b0 0xED) as [E'|E']; [apply between_spec; unfold b0, b1 in *; Z.to_euclidean_division_equations; lia|].
      rewrite !(proj2 (Z.eqb_neq _ _)) by (unfold b0; Z.to_euclidean_division_equations; lia). apply between_spec. unfold b1. Z.to_euclidean_division_equations; lia. }
    destruct (second_range b0) as [lo hi]. rewrite Hb1, cont64, (proj2 (Z.ltb_ge b0 0xE0)), (proj2 (Z.ltb_lt b0 0xF0)) by (unfold b0; Z.to_euclidean_division_equations; lia).
    cbn [negb]. f_equal. unfold b0, b1. Z.to_euclidean_division_equations; lia.
  - set (b0 := 0xF0 + r `div` 262144). set (b1 := 0x80 + (r `div` 4096) `mod` 64).
    destruct (Hd b0) as [-> ->]; [apply between_spec; unfold b0; Z.to_euclidean_division_equations; lia|].
    assert (Hb1 : let '(lo, hi) := second_range b0 in between lo b1 hi = true).
    { unfold second_range. rewrite !(proj2 (Z.eqb_neq b0 _)) by (unfold b0; Z.to_euclidean_division_equations; lia).
      destruct (Z.eqb_spec b0 0xF0) as [E|E]; [apply between_spec; unfold b0, b1 in *; Z.to_euclidean_division_equations; lia|].
      destruct (Z.eqb_spec b0 0xF4) as [E'|E']; apply between_spec; unfold b0, b1 in *; Z.to_euclidean_division_equations; lia. }
    destruct (second_range b0) as [lo hi]. rewrite Hb1, !cont64, (proj2 (Z.ltb_ge b0 0xE0)), (proj2 (Z.ltb_ge b0 0xF0)) by (unfold b0; Z.to_euclidean_division_equations; lia).
    cbn [negb]. f_equal. unfold b0, b1. Z.to_euclidean_division_equations; lia.
Qed.
Lemma EncodeRune_cons r : ∃ b t, EncodeRune r = b :: t.
Proof. unfold EncodeRune, three_bytes. repeat destruct (_ <? _); destruct (negb _); eauto. Qed.
Definition valid_runes (rs : list Z) : Prop := Forall (fun r => valid_rune r = true) rs.
Lemma runes_string_of rs : valid_runes rs → runes (string_of rs) = rs.
Proof.
  intros Hv. unfold runes. assert (H : ∀ fuel, (length (string_of rs) <= fuel)%nat → runes_fuel fuel (string_of rs) = rs); [|by apply H].
  induction Hv as [|r rs Hr Hv IH]; intros fuel Hf; [by destruct fuel|]. unfold string_of in *. cbn [flat_map] in *. rewrite length_app in Hf.
  pose proof (DecodeRune_Encode r (flat_map EncodeRune rs) Hr) as Hd. pose proof (drop_app_length (EncodeRune r) (flat_map EncodeRune rs)) as Hdr.
  destruct (EncodeRune_cons r) as (b & t & E). rewrite E in *. destruct fuel as [|fuel]; [cbn in Hf; lia|]. cbn [runes_fuel app] in *.
  rewrite Hd, Hdr, IH; [done|]. cbn [length] in Hf. lia.
Qed.
Lemma encode_string_of rs : valid_runes rs → ∀ fuel, (length (string_of rs) <= fuel)%nat → encodeWTF16 fuel (string_of rs) = utf16_Encode rs.
Proof.
  unfold string_of, utf16_Encode. induction 1 as [|r rs Hr Hv IH]; intros fuel Hf; [by destruct fuel|]. cbn [flat_map] in *. rewrite length_app in Hf.
  pose proof (DecodeRune_Encode r (flat_map EncodeRune rs) Hr) as Hd. pose proof (drop_app_length (EncodeRune r) (flat_map EncodeRune rs)) as Hdr.
  assert (Hne : r = RuneError → ∃ t, EncodeRune r ++ flat_map EncodeRune rs = 0xEF :: t) by (intros ->; by eexists).
  assert (Hlen : (1 <= length (EncodeRune r))%nat) by (destruct (EncodeRune_cons r) as (b & t & ->); cbn; lia).
  destruct fuel as [|fuel]; [lia|]. set (s := EncodeRune r ++ flat_map EncodeRune rs) in *.
  assert (Hs : s ≠ []) by (unfold s; destruct (EncodeRune_cons r) as (b & t & ->); done). clearbody s.
  assert (Hrun : AppendRune16 r ++ encodeWTF16 fuel (drop (length (EncodeRune r)) s) = AppendRune16 r ++ flat_map AppendRune16 rs) by (rewrite Hdr, IH by lia; done).
  cbn [encodeWTF16]. destruct s as [|b0 s]; [done|]. rewrite Hd. destruct s as [|b1 [|b2 s]]; [exact Hrun..|].
  destruct (Z.eqb_spec r RuneError) as [E|E]; [|exact Hrun]. destruct (Hne E) as [t [= -> _]]. exact Hrun.
Qed.
Lemma decode_utf16 rs : valid_runes rs → decodeWTF16 (utf16_Encode rs) = string_of rs.
Proof.
  induction 1 as [|r rs Hr Hv IH]; [done|]. unfold string_of, utf16_Encode in *. cbn [flat_map]. rewrite <- IH. apply valid_rune_spec in Hr. unfold AppendRune16.
  destruct (between 0 r 0xFFFF && negb (surrogate r)) eqn:E.
  - apply andb_true_iff in E as [_ E]. cbn [app decodeWTF16]. by rewrite E.
  - assert (Hr' : 0x10000 <= r <= 0x10FFFF).
    { apply andb_false_iff in E as [E|E]; [apply between_false in E; lia|]. apply negb_false_iff, between_spec in E. lia. }
    rewrite (proj2 (between_spec _ _ _) Hr'). set (hi := 0xD800 + _). set (lo := 0xDC00 + _).
    assert (Hh : 0xD800 <= hi < 0xDC00 ∧ 0xDC00 <= lo <= 0xDFFF ∧ 0x10000 + (hi - 0xD800) * 1024 + (lo - 0xDC00) = r) by (unfold hi, lo; Z.to_euclidean_division_equations; lia).
    clearbody hi lo. destruct Hh as (Hh & Hl & E'). cbn [app decodeWTF16].
    assert (surrogate hi = true) as -> by (apply between_spec; lia). cbn [negb].
    rewrite (proj2 (Z.ltb_lt hi 0xDC00)), (proj2 (between_spec _ lo _)) by lia. cbn [andb]. by rewrite E'.
Qed.
Lemma AppendRune16_nonzero r : r ≠ 0 → Forall (fun u => u ≠ 0) (AppendRune16 r).
Proof.
  intros Hr. unfold AppendRune16. destruct (_ && _); [by repeat constructor|]. destruct (between 0x10000 r 0x10FFFF) eqn:E; [|by repeat constructor].
  apply between_spec in E. repeat constructor; Z.to_euclidean_division_equations; lia.
Qed.
Lemma until_nul_app x y : Forall (fun u => u ≠ 0) x → until_nul (x ++ 0 :: y) = x.
Proof. induction 1 as [|c x Hc Hx IH]; [done|]. cbn. by rewrite (proj2 (Z.eqb_neq _ _) Hc), IH. Qed.
Definition proper_text (rs : list Z) : Prop := valid_runes rs ∧ Forall (fun r => r ≠ 0) rs.
Lemma EncodeRune_nonzero r : r ≠ 0 → valid_rune r = true → Forall (fun b => b ≠ 0) (EncodeRune r).
Proof.
  intros Hr Hv. unfold EncodeRune. rewrite Hv. apply valid_rune_spec in Hv. cbn [negb].
  repeat destruct (_ <? _); unfold three_bytes; repeat constructor; try done; Z.to_euclidean_division_equations; lia.
Qed.
Lemma string_of_nonzero rs : proper_text rs → contains_byte (string_of rs) 0 = false.
Proof.
  intros [Hv Hz]. unfold contains_byte, string_of. apply not_true_iff_false. rewrite existsb_exists. intros (b & Hb & E). apply Z.eqb_eq in E as <-.
  apply in_flat_map in Hb as (r & Hr & Hb). unfold valid_runes in Hv. rewrite List.Forall_forall in Hv, Hz.
  pose proof (EncodeRune_nonzero r (Hz r Hr) (Hv r Hr)) as Hn. rewrite List.Forall_forall in Hn. by apply (Hn 0).
Qed.
(** A text given to the system and read back is the same text. *)
Lemma UTF16_roundtrip rs : proper_text rs → ∃ u, UTF16FromString (string_of rs) = Some (u ++ [0]) ∧ Forall (fun c => c ≠ 0) u ∧ ∀ x, UTF16ToString (u ++ 0 :: x) = string_of rs.
Proof.
  intros Hp. pose proof Hp as [Hv Hz]. exists (utf16_Encode rs). unfold UTF16FromString. rewrite string_of_nonzero, encode_string_of by done.
  assert (Hu : Forall (fun c => c ≠ 0) (utf16_Encode rs)).
  { unfold utf16_Encode. clear Hp Hv. induction Hz as [|r rs Hr Hz IH]; [constructor|]. cbn. apply Forall_app. split; [by apply AppendRune16_nonzero|done]. }
  split_and!; try done. intros x. unfold UTF16ToString. rewrite until_nul_app by done. by apply decode_utf16.
Qed.
