(* ===== verification/Win32.v ===== *)
(** * The window: texts, dialogs and messages ([cmd/splitwire/win32_windows.go])

    The wrappers of the system's calls.  The calls are operations on a state of the
    desktop; what the system documents of the ones that move text is the class
    [WindowsLaws].  The theorem is what the rest of the window relies on: a control
    holds the string it was given, with what was appended to it. *)

From S2P Require Import Prelude GoStrings Fmt Utf.
Local Open Scope Z_scope.

(** ** The system *)
Class Windows := {
  desktop : Type;
  SetWindowTextW : Z → option (list Z) → desktop → desktop;
  GetWindowTextLengthW : Z → desktop → Z;
  GetWindowTextW : Z → Z → desktop → list Z;       (** what is written to the buffer *)
  EditSetSel : Z → Z → Z → desktop → desktop;       (** [EM_SETSEL] *)
  EditReplaceSel : Z → option (list Z) → desktop → desktop   (** [EM_REPLACESEL] *)
}.

Section Texts.
Context {W : Windows}.
Definition setText (hwnd : Z) (s : list Z) (d : desktop) : desktop := SetWindowTextW hwnd (utf16Ptr s) d.
Definition textLength (hwnd : Z) (d : desktop) : Z := GetWindowTextLengthW hwnd d.
Definition appendEditText (hwnd : Z) (s : list Z) (d : desktop) : desktop :=
  if (hwnd =? 0) || bool_decide (s = []) then d else
  let n := textLength hwnd d in
  EditReplaceSel hwnd (utf16Ptr s) (EditSetSel hwnd n n d).
Definition getText (hwnd : Z) (d : desktop) : list Z :=
  let n := GetWindowTextLengthW hwnd d in
  let buf := zeros (n + 1) in
  if blen buf =? 0 then [] else UTF16ToString (bcopy buf 0 (GetWindowTextW hwnd (blen buf) d)).
End Texts.

(** What is documented: the text of a window, which ends at the first zero of what it is
    given (nothing, for the null pointer), and its selection. *)
Class WindowsLaws (W : Windows) := {
  wtext : desktop → Z → list Z;
  wsel : desktop → Z → Z * Z;
  wtext_nonzero : ∀ d h, Forall (fun u => u ≠ 0) (wtext d h);
  set_law : ∀ h p d h', wtext (SetWindowTextW h p d) h' = if h' =? h then until_nul (default [] p) else wtext d h';
  length_law : ∀ h d, GetWindowTextLengthW h d = blen (wtext d h);
  get_law : ∀ h n d, 0 < n → GetWindowTextW h n d = take (Z.to_nat (n - 1)) (wtext d h) ++ [0];
  setsel_law : ∀ h a b d, 0 <= a <= b → b <= blen (wtext d h) →
    wsel (EditSetSel h a b d) h = (a, b) ∧ ∀ h', wtext (EditSetSel h a b d) h' = wtext d h';
  replacesel_law : ∀ h p d h', wtext (EditReplaceSel h p d) h' =
    if h' =? h then let '(a, b) := wsel d h in take (Z.to_nat a) (wtext d h) ++ until_nul (default [] p) ++ drop (Z.to_nat b) (wtext d h) else wtext d h'
}.

(** ** Dialogs, files and messages *)
Definition multiUTF16 (parts : list (list Z)) : list Z :=
  let out := flat_map (fun p => utf16_Encode (runes p) ++ [0]) parts in
  match rev out with 0 :: _ => out | _ => out ++ [0] end.
Definition config_filter : list Z :=
  multiUTF16 [lit "WireGuard config (*.conf)"; lit "*.conf"; lit "All files (*.*)"; lit "*.*"; []].
(** The buffer of [openConfigDialog] and what becomes of the dialog's answer: [dialog] is
    the buffer after the call, if it succeeded. *)
Definition dialog_size : Z := 32768.
Definition dialog_buffer (initial : list Z) : list Z :=
  if bool_decide (initial = []) then zeros dialog_size else
  bcopy (zeros dialog_size) 0 (default [] (UTF16FromString initial)).
Definition openConfigDialog (dialog : list Z → option (list Z)) (initial : list Z) : option (list Z) :=
  match dialog (dialog_buffer initial) with Some buf => Some (UTF16ToString buf) | None => None end.
(** The shell's answer: 32 and less is an error, named by [callErr] if there is one. *)
Definition shell_error (what : string) (r : Z) (callErr : option string) : option string :=
  if r <=? 32 then Some (match callErr with Some e => e | None => text (lit what ++ fmt_d r) end) else None.
Definition openTextFile_call (ShellExecuteW : list (option (list Z)) → Z * option string) (path : list Z) : option string :=
  if bool_decide (path = []) then Some "empty path"%string else
  let '(r, callErr) := ShellExecuteW [utf16Ptr (lit "open"); utf16Ptr (lit "notepad.exe"); utf16Ptr ([34] ++ path ++ [34])] in
  shell_error "ShellExecuteW failed: code " r callErr.
Definition lowWord (v : Z) : Z := Z.land v 0xffff.
(** [messageLoop] on the answers of [GetMessageW] with the messages, and what
    [DispatchMessageW] does with each; [None] when it is still waiting. *)
Fixpoint messageLoop {S M : Type} (dispatch : M → S → S) (quit : M → Z) (answers : list (Z * M)) (s : S) : S * option Z :=
  match answers with
  | [] => (s, None)
  | (r, m) :: rest =>
      if i32 r =? -1 then (s, Some 1)
      else if r =? 0 then (s, Some (quit m))
      else messageLoop dispatch quit rest (dispatch m s)
  end.

(** ** Texts arrive *)
Inductive text_op := Set_ (hwnd : Z) (rs : list Z) | Append (hwnd : Z) (rs : list Z).
Definition op_ok (o : text_op) : Prop := match o with Set_ h rs | Append h rs => h ≠ 0 ∧ proper_text rs end.
(** The strings that the program has put into its controls. *)
Definition put_text (o : text_op) (m : Z → list Z) : Z → list Z := fun h =>
  match o with Set_ h' rs => if h =? h' then rs else m h | Append h' rs => if h =? h' then m h ++ rs else m h end.
Section Refine.
Context {W : Windows} {L : WindowsLaws W}.
Definition do_op (o : text_op) (d : desktop) : desktop :=
  match o with Set_ h rs => setText h (string_of rs) d | Append h rs => appendEditText h (string_of rs) d end.
Definition shows (d : desktop) (m : Z → list Z) : Prop := ∀ h, wtext d h = utf16_Encode (m h) ∧ proper_text (m h).

Lemma utf16Ptr_text rs : proper_text rs → until_nul (default [] (utf16Ptr (string_of rs))) = utf16_Encode rs.
Proof.
  intros Hp. unfold utf16Ptr, UTF16FromString. rewrite string_of_nonzero, encode_string_of by (try apply Hp; done). cbn.
  destruct (UTF16_roundtrip rs Hp) as (u & E & Hu & _). unfold UTF16FromString in E. rewrite string_of_nonzero, encode_string_of in E by (try apply Hp; done).
  injection E as E. apply app_inj_tail in E as [-> _]. by apply until_nul_app.
Qed.
Lemma string_of_nil rs : string_of rs = [] → rs = [].
Proof. destruct rs as [|r rs]; [done|]. cbn. destruct (EncodeRune_cons r) as (b & t & ->). done. Qed.
Lemma utf16_Encode_app a b : utf16_Encode (a ++ b) = utf16_Encode a ++ utf16_Encode b.
Proof. apply flat_map_app. Qed.
Lemma proper_text_app a b : proper_text a → proper_text b → proper_text (a ++ b).
Proof. intros [H1 H2] [H3 H4]. split; apply Forall_app; done. Qed.

Lemma do_op_shows o d m : op_ok o → shows d m → shows (do_op o d) (put_text o m).
Proof.
  intros Ho Hs h. destruct (Hs h) as [Ht Hp]. destruct o as [h' rs|h' rs]; destruct Ho as [Hz Hrs]; cbn [do_op put_text].
  - unfold setText. rewrite set_law, utf16Ptr_text by done. by destruct (Z.eqb_spec h h').
  - unfold appendEditText. rewrite (proj2 (Z.eqb_neq _ _) Hz). cbn [orb]. destruct (bool_decide_reflect (string_of rs = [])) as [E|E].
    { apply string_of_nil in E as ->. rewrite app_nil_r. by destruct (h =? h'). }
    cbv zeta. unfold textLength. rewrite length_law. destruct (setsel_law h' (blen (wtext d h')) (blen (wtext d h')) d) as [Esel Etxt]; [pose proof (blen_nonneg (wtext d h')); lia|lia|].
    rewrite replacesel_law, Esel, !Etxt, utf16Ptr_text by done. destruct (Z.eqb_spec h h') as [->|]; [|done]. split; [|by apply proper_text_app].
    unfold blen. rewrite Nat2Z.id, firstn_all, drop_all, app_nil_r, Ht. symmetry. apply utf16_Encode_app.
Qed.
Lemma getText_shows d m h : shows d m → getText h d = string_of (m h).
Proof.
  intros Hs. destruct (Hs h) as [Ht Hp]. unfold getText. cbv zeta. rewrite length_law. pose proof (blen_nonneg (wtext d h)).
  assert (Hz : blen (zeros (blen (wtext d h) + 1)) = blen (wtext d h) + 1) by (rewrite blen_zeros; lia).
  rewrite Hz, (proj2 (Z.eqb_neq _ 0)), get_law by lia. replace (Z.to_nat (blen (wtext d h) + 1 - 1)) with (length (wtext d h)) by (unfold blen; lia). rewrite firstn_all.
  assert (E : bcopy (zeros (blen (wtext d h) + 1)) 0 (wtext d h ++ [0]) = wtext d h ++ [0]).
  { assert (Hl : blen (wtext d h ++ [0]) = blen (wtext d h) + 1) by (rewrite blen_app; done).
    apply bytes_eq; [rewrite blen_bcopy by lia; lia|]. intros i Hi. rewrite blen_bcopy in Hi by lia. rewrite gb_bcopy_in by lia. f_equal. lia. }
  rewrite E. unfold UTF16ToString. rewrite until_nul_app by apply wtext_nonzero. rewrite Ht. apply decode_utf16, Hp.
Qed.

(** A control holds the string that was put into it: whatever texts the program sets
    and appends, in any order and to any controls, reading a control gives exactly the
    last text set and what was appended to it since, for all texts of valid characters
    other than the zero character. *)
Theorem controls_hold_text (d : desktop) (m : Z → list Z) (ops : list text_op) (h : Z) :
  shows d m → Forall op_ok ops →
  getText h (fold_left (fun d o => do_op o d) ops d) = string_of (fold_left (fun m o => put_text o m) ops m h).
Proof.
  intros Hs Ho. apply getText_shows. revert d m Hs. induction Ho as [|o ops Ho Hos IH]; intros d m Hs; [done|]. cbn. apply IH. by apply do_op_shows.
Qed.
End Refine.

(** A system that behaves as documented. *)
Record refDesktop := mkDesktop { rd_text : Z → list Z; rd_sel : Z → Z * Z }.
Definition upd {A} (h : Z) (x : A) (f : Z → A) : Z → A := fun h' => if h' =? h then x else f h'.
Definition rd_shown (d : refDesktop) (h : Z) : list Z := until_nul (rd_text d h).
Definition refWindows : Windows := {|
  desktop := refDesktop;
  SetWindowTextW h p d := mkDesktop (upd h (default [] p) (rd_text d)) (rd_sel d);
  GetWindowTextLengthW h d := blen (rd_shown d h);
  GetWindowTextW h n d := take (Z.to_nat (n - 1)) (rd_shown d h) ++ [0];
  EditSetSel h a b d := mkDesktop (rd_text d) (upd h (a, b) (rd_sel d));
  EditReplaceSel h p d :=
    mkDesktop (upd h (take (Z.to_nat (rd_sel d h).1) (rd_shown d h) ++ until_nul (default [] p) ++ drop (Z.to_nat (rd_sel d h).2) (rd_shown d h)) (rd_text d)) (rd_sel d) |}.
Lemma until_nul_nonzero u : Forall (fun c => c ≠ 0) (until_nul u).
Proof. induction u as [|c u IH]; [constructor|]. cbn. destruct (Z.eqb_spec c 0); by constructor. Qed.
Lemma until_nul_id u : Forall (fun c => c ≠ 0) u → until_nul u = u.
Proof. induction 1 as [|c u Hc Hu IH]; [done|]. cbn. by rewrite (proj2 (Z.eqb_neq _ _) Hc), IH. Qed.
Definition refWindowsLaws : WindowsLaws refWindows.
Proof.
  refine (Build_WindowsLaws refWindows rd_shown (fun d => rd_sel d) _ _ _ _ _ _).
  - intros d h. apply until_nul_nonzero.
  - intros h p d h'. cbn. unfold rd_shown, upd. cbn. destruct (h' =? h); reflexivity.
  - done.
  - done.
  - intros h a b d _ _. cbn. unfold upd. by rewrite Z.eqb_refl.
  - intros h p d h'. cbn. unfold rd_shown at 1, upd. cbn. destruct (h' =? h); [|done]. destruct (rd_sel d h) as [a b]. cbn. apply until_nul_id.
    apply Forall_app; split; [apply Forall_take; apply until_nul_nonzero|]. apply Forall_app; split; [apply until_nul_nonzero|]. apply Forall_drop. apply until_nul_nonzero.
Defined.
Lemma controls_hold_text_witness :
  let ops := [Set_ 7 (runes (lit "лог")); Append 7 (runes (lit " 🙂")); Set_ 8 (runes (lit "x"))] in
  getText 7 (fold_left (fun d o => @do_op refWindows o d) ops (mkDesktop (fun _ => []) (fun _ => (0, 0)))) = lit "лог 🙂".
Proof.
  cbv zeta. refine (eq_trans (@controls_hold_text refWindows refWindowsLaws _ (fun _ => []) _ 7 _ _) _); [| |vm_compute; reflexivity].
  - intros h. split; [reflexivity|]. split; apply List.Forall_nil.
  - assert (Hp : ∀ rs, forallb (fun r => valid_rune r && negb (r =? 0)) rs = true → proper_text rs).
    { intros rs H. rewrite forallb_forall in H. split; apply List.Forall_forall; intros r Hr; specialize (H r Hr); apply andb_true_iff in H as [H1 H2]; [exact H1|].
      apply negb_true_iff, Z.eqb_neq in H2. exact H2. }
    repeat (apply List.Forall_cons; [split; [discriminate|apply Hp; vm_compute; reflexivity]|]). apply List.Forall_nil.
Defined.

(** ** The dialog's filter *)
(** The strings of a block that ends with an empty one. *)
Fixpoint block_strings (fuel : nat) (u : list Z) : list (list Z) :=
  match fuel with
  | O => []
  | S fuel => match until_nul u with [] => [] | w => w :: block_strings fuel (drop (S (length w)) u) end
  end.
Lemma block_run parts : Forall (fun rs => proper_text rs ∧ rs ≠ []) parts → ∀ fuel, (length parts < fuel)%nat →
  block_strings fuel (flat_map (fun p => utf16_Encode (runes p) ++ [0]) (map string_of parts ++ [[]])) = map utf16_Encode parts.
Proof.
  induction 1 as [|rs parts [Hp Hne] Hps IH]; intros fuel Hf; (destruct fuel as [|fuel]; [cbn in Hf; lia|]); [done|]. cbn [map app flat_map block_strings].
  rewrite runes_string_of by apply Hp. rewrite <- app_assoc. cbn [app]. set (rest := flat_map _ _).
  assert (Hu : Forall (fun c => c ≠ 0) (utf16_Encode rs)).
  { rewrite <- (utf16Ptr_text rs Hp). apply until_nul_nonzero. }
  rewrite until_nul_app by done. destruct rs as [|r rs]; [done|]. unfold utf16_Encode at 1. cbn [flat_map].
  assert (Hr : ∃ x y, AppendRune16 r = x :: y) by (unfold AppendRune16; destruct (_ && _); [eauto|]; destruct (between _ _ _); eauto).
  destruct Hr as (x & y & Er). rewrite Er. cbn [app]. change (x :: y ++ flat_map AppendRune16 rs) with ((x :: y) ++ flat_map AppendRune16 rs). rewrite <- Er.
  change (AppendRune16 r ++ flat_map AppendRune16 rs) with (utf16_Encode (r :: rs)). f_equal. 
  assert (Ed : drop (S (length (utf16_Encode (r :: rs)))) (utf16_Encode (r :: rs) ++ 0 :: rest) = rest).
  { replace (utf16_Encode (r :: rs) ++ 0 :: rest) with ((utf16_Encode (r :: rs) ++ [0]) ++ rest) by (by rewrite <- app_assoc).
    replace (S (length (utf16_Encode (r :: rs)))) with (length (utf16_Encode (r :: rs) ++ [0])) by (rewrite length_app; cbn [length]; lia). apply drop_app_length. }
  rewrite Ed. apply IH. cbn in Hf. lia.
Qed.
(** The system reads the strings back from the block, and the block ends with two zeros. *)
Lemma multiUTF16_spec parts : Forall (fun rs => proper_text rs ∧ rs ≠ []) parts → parts ≠ [] →
  block_strings (S (length parts)) (multiUTF16 (map string_of parts ++ [[]])) = map utf16_Encode parts ∧
  ∃ u, multiUTF16 (map string_of parts ++ [[]]) = u ++ [0; 0].
Proof.
  intros Hp Hne. set (out := flat_map (fun p => utf16_Encode (runes p) ++ [0]) (map string_of parts ++ [[]])).
  assert (Eo : ∃ u, out = u ++ [0; 0]).
  { unfold out. rewrite flat_map_app. destruct parts as [|x parts _] using rev_ind; [done|]. rewrite map_app, flat_map_app. cbn [map flat_map].
    exists (flat_map (fun p => utf16_Encode (runes p) ++ [0]) (map string_of parts) ++ utf16_Encode (runes (string_of x))).
    change (utf16_Encode (runes []) ++ [0]) with [0]. cbn [app]. rewrite app_nil_r, <- !app_assoc. done. }
  assert (Em : multiUTF16 (map string_of parts ++ [[]]) = out) by (unfold multiUTF16; fold out; destruct Eo as [u ->]; by rewrite rev_app_distr).
  rewrite Em. split; [apply block_run; [done|lia]|exact Eo].
Qed.
