(* ===== verification/Relaunch.v ===== *)
(** * The relaunch with administrator rights ([RelaunchElevated] of
    [internal/winutil/winutil_windows.go])

    A process without the rights starts another copy of itself and passes its
    arguments on as one line of text: each is escaped ([syscall.EscapeArg]) and the
    results are joined with spaces.  The new process splits the line again when the
    runtime fills [os.Args] ([commandLineToArgv] of package [os]).  Both routines of
    the standard library are written out; the theorem is that the arguments arrive
    as they were. *)

From S2P Require Import Prelude GoStrings Fmt Utf Win32 HostPort BrowserProxy LogHub WinUtil GuiText.
Local Open Scope Z_scope.

Definition quote : Z := 34.
Definition backslash : Z := 92.
Definition is_blank (c : Z) : bool := (c =? 32) || (c =? 9).

(** ** [syscall.EscapeArg] *)
Fixpoint escape_loop (s : list Z) (slashes : nat) : list Z * nat :=
  match s with
  | [] => ([], slashes)
  | c :: s =>
      if c =? backslash then let (r, n) := escape_loop s (S slashes) in (c :: r, n)
      else if c =? quote then let (r, n) := escape_loop s 0 in (replicate slashes backslash ++ [backslash; c] ++ r, n)
      else let (r, n) := escape_loop s 0 in (c :: r, n)
  end.
Definition EscapeArg (s : list Z) : list Z :=
  if blen s =? 0 then [quote; quote] else
  let needsBackslash := existsb (fun c => (c =? quote) || (c =? backslash)) s in
  let hasSpace := existsb is_blank s in
  if negb needsBackslash && negb hasSpace then s else
  if negb needsBackslash then quote :: s ++ [quote] else
  let (body, slashes) := escape_loop s 0 in
  if hasSpace then quote :: body ++ replicate slashes backslash ++ [quote] else body.

(** ** [commandLineToArgv] *)
Fixpoint readNextArg (cmd b : list Z) (inquote : bool) (nslash : nat) : list Z * list Z :=
  match cmd with
  | [] => (b ++ replicate nslash backslash, [])
  | c :: cmd =>
      if is_blank c && negb inquote then (b ++ replicate nslash backslash, cmd)
      else if c =? quote then
        let b := b ++ replicate (nslash / 2) backslash in
        if Nat.even nslash then
          match cmd with
          | d :: cmd' => if inquote && (d =? quote) then readNextArg cmd' (b ++ [c]) (negb inquote) 0 else readNextArg cmd b (negb inquote) 0
          | [] => readNextArg cmd b (negb inquote) 0
          end
        else readNextArg cmd (b ++ [c]) inquote 0
      else if c =? backslash then readNextArg cmd b inquote (S nslash)
      else readNextArg cmd (b ++ replicate nslash backslash ++ [c]) inquote 0
  end.
Fixpoint commandLineToArgv (fuel : nat) (cmd : list Z) : Res (list (list Z)) :=
  match fuel with
  | O => OutOfFuel
  | S fuel =>
      match cmd with
      | [] => Ok []
      | c :: rest =>
          if is_blank c then commandLineToArgv fuel rest else
          let (arg, rest) := readNextArg cmd [] false 0 in
          args ← commandLineToArgv fuel rest; Ok (arg :: args)
      end
  end.

(** ** The relaunch *)
(** [IsAdmin], from the answer of [IsUserAnAdmin]. *)
Definition IsAdmin (r : Z) : bool := negb (r =? 0).
Definition relaunch_params (args : list (list Z)) : list Z := Join (map EscapeArg args) [32].

(** [RelaunchElevated]; [executable] is [os.Executable], [cwd] is [os.Getwd] (empty if it
    fails), and the shell takes the verb, the file, the parameters and the directory. *)
Definition RelaunchElevated (executable : Res (list Z)) (args : list (list Z)) (cwd : list Z)
    (ShellExecuteW : list (option (list Z)) → Z * option string) : Res (option string) :=
  match executable with
  | Err e => Ok (Some e)
  | Ok exe =>
      let '(r, callErr) := ShellExecuteW [utf16Ptr (lit "runas"); utf16Ptr exe; utf16Ptr (relaunch_params args); utf16Ptr cwd] in
      Ok (shell_error "ShellExecuteW elevation failed: code " r callErr)
  | Panic => Panic
  | OutOfFuel => OutOfFuel
  end.

(** ** Arguments survive *)
Lemma escape_plain s : existsb (fun c => (c =? quote) || (c =? backslash)) s = false → escape_loop s 0 = (s, 0%nat).
Proof.
  induction s as [|c s IH]; [done|]. cbn [existsb escape_loop]. intros [H1 H2]%orb_false_iff. apply orb_false_iff in H1 as [-> ->]. by rewrite IH.
Qed.
(** Reading what was escaped: the backslashes that are pending are the same on both sides. *)
Lemma read_escaped s : ∀ k tail b q, (existsb is_blank s = true → q = true) →
  ∃ b', readNextArg ((escape_loop s k).1 ++ tail) b q k = readNextArg tail b' q (escape_loop s k).2 ∧
    b' ++ replicate (escape_loop s k).2 backslash = b ++ replicate k backslash ++ s.
Proof.
  induction s as [|c s IH]; intros k tail b q Hq; cbn [escape_loop]; [exists b; by rewrite app_nil_r|].
  assert (Hq' : existsb is_blank s = true → q = true) by (intros H; apply Hq; cbn; by rewrite H, orb_true_r).
  assert (Hc : is_blank c && negb q = false) by (destruct (is_blank c) eqn:E; [|done]; rewrite Hq by (cbn; by rewrite E); done).
  destruct (Z.eqb_spec c backslash) as [->|Hb].
  - destruct (IH (S k) tail b q Hq') as (b' & E & Eb). destruct (escape_loop s (S k)) as [r n]. cbn [fst snd app] in *. exists b'. split; [exact E|].
    rewrite Eb, replicate_S_end, <- !app_assoc. done.
  - destruct (Z.eqb_spec c quote) as [->|Hqt].
    + destruct (IH 0%nat tail (b ++ replicate k backslash ++ [quote]) q Hq') as (b' & E & Eb). destruct (escape_loop s 0) as [r n]. cbn [fst snd] in *.
      exists b'. split; [|rewrite Eb, <- !app_assoc; done]. rewrite <- E, <- !app_assoc.
      assert (Hs : ∀ m k' t, readNextArg (replicate m backslash ++ t) b q k' = readNextArg t b q (m + k')).
      { induction m as [|m IHm]; intros k' t; [done|]. cbn [replicate app readNextArg]. change (is_blank backslash) with false.
        change (backslash =? quote) with false. rewrite Z.eqb_refl. cbn [andb]. rewrite IHm. f_equal. lia. }
      rewrite Hs. change ([backslash; quote] ++ r ++ tail) with (replicate 1 backslash ++ quote :: r ++ tail). rewrite Hs. cbn [readNextArg].
      change (is_blank quote) with false. rewrite Z.eqb_refl. cbn [andb].
      replace (1 + (k + k))%nat with (S (2 * k)) by lia. rewrite Nat.even_succ, Nat.odd_mul. cbn [Nat.odd Nat.even negb andb].
      replace (S (2 * k) / 2)%nat with k; [by rewrite <- app_assoc|].
      replace (S (2 * k)) with (1 + k * 2)%nat by lia. rewrite Nat.div_add by lia. done.
    + destruct (IH 0%nat tail (b ++ replicate k backslash ++ [c]) q Hq') as (b' & E & Eb). destruct (escape_loop s 0) as [r n]. cbn [fst snd app] in *.
      exists b'. split; [|rewrite Eb, <- !app_assoc; done]. cbn [readNextArg]. rewrite Hc, (proj2 (Z.eqb_neq _ _) Hqt), (proj2 (Z.eqb_neq _ _) Hb). exact E.
Qed.
Lemma read_slashes m : ∀ k t b q, readNextArg (replicate m backslash ++ t) b q k = readNextArg t b q (m + k).
Proof.
  induction m as [|m IHm]; intros k t b q; [done|]. cbn [replicate app readNextArg]. change (is_blank backslash) with false.
  change (backslash =? quote) with false. rewrite Z.eqb_refl. cbn [andb]. rewrite IHm. f_equal. lia.
Qed.
(** What follows an argument: nothing, or a space and the rest. *)
Definition following (rest : list Z) : Prop := rest = [] ∨ ∃ r, rest = 32 :: r.
Lemma read_end rest b k : following rest → readNextArg rest b false k = (b ++ replicate k backslash, tail rest).
Proof. by intros [->|[r ->]]. Qed.
Lemma read_closing rest b k : following rest → readNextArg (quote :: rest) b true (2 * k) = (b ++ replicate k backslash, tail rest).
Proof.
  intros Hf. cbn [readNextArg]. change (is_blank quote) with false. rewrite Z.eqb_refl, Nat.even_mul. cbn [andb orb Nat.even negb].
  replace (2 * k / 2)%nat with k by (rewrite Nat.mul_comm, Nat.div_mul by lia; done).
  destruct Hf as [->|[r ->]]; cbn; by rewrite app_nil_r.
Qed.
Lemma read_quoted s rest : following rest →
  readNextArg (quote :: (escape_loop s 0).1 ++ replicate (escape_loop s 0).2 backslash ++ quote :: rest) [] false 0 = (s, tail rest).
Proof.
  intros Hf. cbn [readNextArg]. change (is_blank quote) with false. rewrite Z.eqb_refl. cbn [andb Nat.even negb replicate app].
  change (0 / 2)%nat with 0%nat. cbn [replicate app]. 
  destruct (read_escaped s 0 (replicate (escape_loop s 0).2 backslash ++ quote :: rest) [] true) as (b & E & Eb); [done|]. 
  assert (Eq : readNextArg ((escape_loop s 0).1 ++ replicate (escape_loop s 0).2 backslash ++ quote :: rest) [] true 0 = (s, tail rest)).
  { rewrite E, read_slashes. replace ((escape_loop s 0).2 + (escape_loop s 0).2)%nat with (2 * (escape_loop s 0).2)%nat by lia.
    rewrite read_closing by done. by rewrite Eb. }
  destruct ((escape_loop s 0).1 ++ _) eqn:El; [|exact Eq]. by destruct (escape_loop s 0).1, (replicate _ _).
Qed.
Lemma read_arg s rest : following rest → readNextArg (EscapeArg s ++ rest) [] false 0 = (s, tail rest).
Proof.
  intros Hf. unfold EscapeArg. destruct (Z.eqb_spec (blen s) 0) as [E|E]; [apply blen_0_nil in E as ->; exact (read_quoted [] rest Hf)|]. cbv zeta.
  destruct (existsb (fun c => _) s) eqn:Eb; cbn [negb andb].
  - pose proof (read_quoted s rest Hf) as Hq. pose proof (read_escaped s 0 rest [] false) as Hn. destruct (escape_loop s 0) as [body n]. cbn [fst snd app replicate] in *.
    destruct (existsb is_blank s); [cbn [app]; rewrite <- !app_assoc; exact Hq|]. destruct Hn as (b & -> & Hb); [done|]. by rewrite read_end, Hb.
  - pose proof (read_quoted s rest Hf) as Hq. pose proof (read_escaped s 0 rest [] false) as Hn. rewrite escape_plain in * by done. cbn [fst snd app replicate] in *.
    destruct (existsb is_blank s); cbn [negb]; [cbn [app]; rewrite <- app_assoc; exact Hq|]. destruct Hn as (b & -> & Hb); [done|]. by rewrite read_end, <- Hb.
Qed.
Lemma escape_head s : ∃ c r, EscapeArg s = c :: r ∧ is_blank c = false.
Proof.
  unfold EscapeArg. destruct (Z.eqb_spec (blen s) 0) as [E|E]; [by exists quote, [quote]|]. cbv zeta. destruct s as [|c s]; [done|].
  destruct (existsb is_blank (c :: s)) eqn:Es; rewrite ?andb_false_r; cbn [negb].
  - destruct (negb _); [by eexists quote, _|]. destruct (escape_loop _ _). by eexists quote, _.
  - cbn [existsb] in Es. apply orb_false_iff in Es as [Ec _]. destruct (negb _); [by exists c, s|]. cbn [escape_loop].
    destruct (Z.eqb_spec c backslash) as [->|]; [destruct (escape_loop s 1); by eexists backslash, _|].
    destruct (Z.eqb_spec c quote) as [->|]; destruct (escape_loop s 0); [by eexists backslash, _|by eexists c, _].
Qed.
Lemma argv_run args : ∀ fuel, (length (relaunch_params args) < fuel)%nat → commandLineToArgv fuel (relaunch_params args) = Ok args.
Proof.
  unfold relaunch_params. induction args as [|a args IH]; intros fuel Hf; [by destruct fuel; [cbn in Hf; lia|]|].
  destruct fuel as [|fuel]; [lia|]. set (rest := match args with [] => [] | _ => 32 :: Join (map EscapeArg args) [32] end).
  assert (Ej : Join (map EscapeArg (a :: args)) [32] = EscapeArg a ++ rest) by (unfold rest; destruct args; cbn; [by rewrite app_nil_r|done]).
  rewrite Ej in *. destruct (escape_head a) as (c & r & Ea & Hc).
  assert (Hr : following rest) by (unfold rest; destruct args; [by left|right; eauto]). pose proof (read_arg a rest Hr) as Hread.
  assert (Hl : (length (Join (map EscapeArg args) [32%Z]) <= length rest)%nat) by (unfold rest; destruct args; cbn; lia).
  assert (Et : tail rest = Join (map EscapeArg args) [32]) by (unfold rest; by destruct args). clearbody rest.
  rewrite Ea in *. cbn [commandLineToArgv app] in *. rewrite Hc, Hread, Et, IH; [done|]. cbn [length] in Hf. rewrite length_app in Hf. lia.
Qed.

(** ** Through the system *)
Definition utf8_text (s : list Z) : Prop := ∃ rs, proper_text rs ∧ s = string_of rs.
Lemma utf8_text_app a b : utf8_text a → utf8_text b → utf8_text (a ++ b).
Proof.
  intros (x & Hx & ->) (y & Hy & ->). exists (x ++ y). split; [by apply proper_text_app|]. unfold string_of. by rewrite flat_map_app.
Qed.
Lemma utf8_text_nil : utf8_text [].
Proof. exists []. split; [split; constructor|done]. Qed.
Lemma utf8_text_ascii c : 0 < c < 0x80 → utf8_text [c].
Proof.
  intros H. exists [c]. assert (Hv : valid_rune c = true) by (apply valid_rune_spec; lia). split; [split; apply List.Forall_cons; [done|apply List.Forall_nil|lia|apply List.Forall_nil]|].
  unfold string_of, EncodeRune. cbn [flat_map]. rewrite Hv, (proj2 (Z.ltb_lt c 0x80)) by lia. done.
Qed.
Lemma utf8_text_slashes n : utf8_text (replicate n backslash).
Proof. induction n as [|n IH]; [apply utf8_text_nil|]. apply (utf8_text_app [backslash]); [by apply utf8_text_ascii|done]. Qed.
Lemma EncodeRune_high r : valid_rune r = true → 0x80 <= r → Forall (fun b => 0x80 <= b) (EncodeRune r).
Proof.
  intros Hv Hr. unfold EncodeRune. rewrite Hv, (proj2 (Z.ltb_ge r 0x80)) by lia. cbn [negb].
  assert (Hd : ∀ d, 0 < d → 0 <= r `div` d) by (intros; apply Z.div_pos; lia).
  pose proof (Hd 64 ltac:(lia)). pose proof (Hd 4096 ltac:(lia)). pose proof (Hd 262144 ltac:(lia)).
  pose proof (Z.mod_pos_bound r 64 ltac:(lia)). pose proof (Z.mod_pos_bound (r `div` 64) 64 ltac:(lia)). pose proof (Z.mod_pos_bound (r `div` 4096) 64 ltac:(lia)).
  destruct (r <? 0x800); [|destruct (r <? 0x10000)]; unfold three_bytes; repeat apply List.Forall_cons; try apply List.Forall_nil; lia.
Qed.
Lemma escape_high b : Forall (fun c => 0x80 <= c) b → b ≠ [] → ∀ s k, (escape_loop (b ++ s) k).1 = b ++ (escape_loop s 0).1.
Proof.
  induction 1 as [|c b Hc Hb IH]; intros Hne s k; [done|]. cbn [app escape_loop].
  rewrite (proj2 (Z.eqb_neq c backslash)), (proj2 (Z.eqb_neq c quote)) by (unfold backslash, quote; lia).
  destruct b as [|c' b]; [cbn [app]; by destruct (escape_loop s 0)|]. specialize (IH ltac:(done) s 0%nat). destruct (escape_loop ((c' :: b) ++ s) 0). cbn in *. by rewrite IH.
Qed.
Lemma escape_text rs : proper_text rs → ∀ k, utf8_text (escape_loop (string_of rs) k).1.
Proof.
  intros [Hv Hz]. revert Hz. induction Hv as [|r rs Hr Hv IH]; intros Hz k; [apply utf8_text_nil|]. inversion Hz as [|? ? Hr0 Hz']; subst. specialize (IH Hz').
  assert (Hone : utf8_text (EncodeRune r)) by (exists [r]; split; [split; apply List.Forall_cons; try done; apply List.Forall_nil|unfold string_of; cbn; by rewrite app_nil_r]).
  unfold string_of in *. cbn [flat_map]. destruct (Z.ltb_spec r 0x80) as [Hl|Hl].
  - apply valid_rune_spec in Hr as Hr'. assert (E : EncodeRune r = [r]) by (unfold EncodeRune; by rewrite Hr, (proj2 (Z.ltb_lt r 0x80)) by lia). rewrite E in *. cbn [app escape_loop].
    destruct (r =? backslash); [specialize (IH (S k)); destruct (escape_loop _ (S k)); by apply (utf8_text_app [r])|]. specialize (IH 0%nat).
    destruct (r =? quote); destruct (escape_loop _ 0); cbn [fst] in *; [|by apply (utf8_text_app [r])].
    apply utf8_text_app; [apply utf8_text_slashes|]. apply (utf8_text_app [backslash]); [by apply utf8_text_ascii|]. by apply (utf8_text_app [r]).
  - rewrite escape_high; [by apply utf8_text_app|by apply EncodeRune_high|]. destruct (EncodeRune_cons r) as (b & t & ->). done.
Qed.
Lemma EscapeArg_text s : utf8_text s → utf8_text (EscapeArg s).
Proof.
  assert (Hq : utf8_text [quote]) by (by apply utf8_text_ascii).
  intros Hs. unfold EscapeArg. destruct (_ =? 0); [by apply (utf8_text_app [quote])|]. cbv zeta. destruct (_ && _); [done|].
  destruct (negb _); [apply (utf8_text_app [quote]); [done|]; by apply utf8_text_app|].
  destruct Hs as (rs & Hp & ->). pose proof (escape_text rs Hp 0) as He. destruct (escape_loop (string_of rs) 0) as [body n]. cbn in He.
  destruct (existsb _ _); [|done]. apply (utf8_text_app [quote]); [done|]. apply utf8_text_app; [done|]. apply utf8_text_app; [apply utf8_text_slashes|done].
Qed.
Lemma params_text args : Forall utf8_text args → utf8_text (relaunch_params args).
Proof.
  unfold relaunch_params. induction 1 as [|a args Ha Hs IH]; [apply utf8_text_nil|]. cbn. destruct args; [by apply EscapeArg_text|].
  apply utf8_text_app; [by apply EscapeArg_text|]. apply (utf8_text_app [32]); [by apply utf8_text_ascii|done].
Qed.

(** C22: the relaunched program sees the same arguments: whatever the arguments are, with
    spaces, quotes, backslashes before quotes or at the end, characters outside ASCII or
    empty ones among them, the shell is asked once to run the program elevated with a line
    in UTF-16 that the new process's runtime converts back and splits into exactly those
    arguments, so that it finds the same configuration on its command line; and the call
    reports an error exactly when the shell's answer is 32 or less. *)
Theorem relaunch_same_arguments (args : list (list Z)) (exe cwd : list Z) (shell : list (option (list Z)) → Z * option string) :
  Forall utf8_text args →
  ∃ verb line, utf16Ptr (lit "runas") = Some verb ∧
    (UTF16ToString verb = lit "runas") ∧
    commandLineToArgv (S (length (UTF16ToString line))) (UTF16ToString line) = Ok args ∧
    (∃ err, RelaunchElevated (Ok exe) args cwd shell = Ok err ∧ (is_Some err ↔ fst (shell [Some verb; utf16Ptr exe; Some line; utf16Ptr cwd]) <= 32)).
Proof.
  intros Ha. destruct (params_text args Ha) as (rs & Hp & Es). destruct (UTF16_roundtrip rs Hp) as (u & Eu & _ & Hu).
  assert (Ev : utf16Ptr (lit "runas") = Some (lit "runas" ++ [0])) by reflexivity.
  exists (lit "runas" ++ [0]), (u ++ [0]). split_and!; [exact Ev|reflexivity|rewrite (Hu []), <- Es; apply argv_run; lia|].
  unfold RelaunchElevated. rewrite Ev, Es. unfold utf16Ptr at 2 5. rewrite Eu. unfold utf16Ptr. destruct (shell _) as [r e]. cbn [fst]. eexists. split; [done|].
  unfold shell_error. destruct (Z.leb_spec r 32); [split; [done|by eexists]|]. split; [by intros [? ?]|lia].
Qed.
Lemma relaunch_same_arguments_witness :
  ∃ err, RelaunchElevated (Ok (lit "C:\s.exe")) [lit "--config"; lit "C:\мои файлы"; []] (lit "C:") (fun _ => (42, None)) = Ok err ∧ (is_Some err ↔ 42 <= 32).
Proof.
  destruct (relaunch_same_arguments [lit "--config"; lit "C:\мои файлы"; []] (lit "C:\s.exe") (lit "C:") (fun _ => (42, None))) as (verb & line & _ & _ & _ & H).
  - repeat (apply List.Forall_cons; [match goal with |- utf8_text ?s => exists (runes s) end; split; [split; apply List.Forall_forall; intros r Hr; vm_compute in Hr; decompose [or] Hr; subst; done|vm_compute; reflexivity]|]).
    apply List.Forall_nil.
  - exact H.
Defined.
Example relaunch_example : relaunch_params [lit "--config"; lit "C:\VPN files\my.conf"; []; lit "a\b"] =
  lit "--config " ++ [quote] ++ lit "C:\VPN files\my.conf" ++ [quote] ++ lit " " ++ [quote; quote] ++ lit " a\b".
Proof. vm_compute. reflexivity. Qed.
