(* ===== verification/Status.v ===== *)
(** * The status report ([Status] of the engine, [Stats] and [Diagnostics] of the client)

    What the engine reports of itself: the counters of Runner.v and of the WireGuard
    client, the line that [diagnosticLoop] logs every thirty seconds, and what
    [Session.Status] gives the window.  The accounting of received datagrams is the
    property: none is left out of the report. *)

From S2P Require Import Prelude Netip GoStrings Fmt Config Tracker Runner Packet Crypto Replay Handshake WireGuard.
Local Open Scope Z_scope.

Record Status := mkStatus {
  Captured : Z; Tunneled : Z; Bypassed : Z; Dropped : Z; WGTxBytes : Z; WGRxBytes : Z;
  DomainIPs : Z;
  LastHandshake : option Z;             (** [None]: the zero time *)
  ProcessResolved : Z; ProcessMissed : Z; DiscoveryPackets : Z; DomainMatches : Z; SNILearned : Z; QUICSuppressed : Z; Reconnects : Z;
  ProxyTunnel : Z; ProxyDirect : Z;
  WGWriteOK : Z; WGWriteErrors : Z; ReverseNATMiss : Z; InboundInjected : Z; InboundErrors : Z; InboundOther : Z;
  OversizeSegmented : Z; OversizeDropped : Z; SendQueueHigh : Z; SendQueueDelayMaxMS : Z;
  StickyUnknownDirect : Z; PreexistingTCPReset : Z;
  WGRawRX : Z; WGNoSession : Z; WGAuthFail : Z; WGReplayDrop : Z; WGInvalidInner : Z; WGPlainQHigh : Z; WGPlainDrop : Z;
  FragReassembled : Z; FragRefragmented : Z; FragErrors : Z; FragTimeouts : Z
}.
(** [Status{}] *)
Definition noStatus : Status := mkStatus 0 0 0 0 0 0 0 None 0 0 0 0 0 0 0 0 0 0 0 0 0 0 0 0 0 0 0 0 0 0 0 0 0 0 0 0 0 0 0 0.

Section Report.
Context {A : AEAD}.
Definition Stats (c : Client) : Z * Z := (TxBytes (diag c), RxBytes (diag c)).
Definition ClientLastHandshake (c : Client) : option Z := if lastHandshake c =? 0 then None else Some (lastHandshake c).
Definition RunnerStatus (r : Runner) (c : Client) : Status :=
  let '(tx, rx) := Stats c in
  let wd := diag c in
  let n := r_stat r in
  mkStatus (n captured) (n tunneled) (n bypassed) (n dropped) tx rx (Count (r_domains r)) (ClientLastHandshake c)
    (n procResolved) (n procMissed) (n discoveryPackets) (n domainMatches) (n sniLearned) (n quicSuppressed) (n reconnects)
    (n proxyTunnelled) (n proxyDirected) (n wgWriteOK) (n wgWriteErrors) (n reverseNATMiss) (n inboundInjected) (n inboundErrors) (n inboundOther)
    (n oversizeSegmented) (n oversizeDropped) (n sendQueueHigh) (n sendQueueDelayMaxMS) (n stickyUnknownDirect) (n preexistingTCPReset)
    (RawRX wd) (NoSession wd) (AuthFail wd) (ReplayDrop wd) (InvalidInner wd) (PlainQHigh wd) (PlainDrop wd)
    (n fragReassembled) (n fragRefragmented) (n fragErrors) (n fragTimeouts).
(** [Session.Status]; [None] is the nil session, or one without an engine. *)
Definition SessionStatus (s : option (Runner * Client)) : Status :=
  match s with None => noStatus | Some (r, c) => RunnerStatus r c end.
End Report.

(** The line of [diagnosticLoop]. *)
Definition field (name : string) (v : Z) : list Z := lit name ++ fmt_d v.
Definition diagnostic_line (s : Status) : list Z :=
  field "[diag] cap=" (Captured s) ++ field " tunnel=" (Tunneled s) ++ field " direct=" (Bypassed s) ++ field " drop=" (Dropped s) ++
  field " procMiss=" (ProcessMissed s) ++ field " stickyMiss=" (StickyUnknownDirect s) ++ field " preTCP=" (PreexistingTCPReset s) ++
  field " seg=" (OversizeSegmented s) ++ field " oversizeDrop=" (OversizeDropped s) ++ field " qHigh=" (SendQueueHigh s) ++
  field " qDelayMax=" (SendQueueDelayMaxMS s) ++ field "ms wgWrite=" (WGWriteOK s) ++ field "/" (WGWriteErrors s) ++ field " rawRX=" (WGRawRX s) ++
  field " noSession=" (WGNoSession s) ++ field " auth=" (WGAuthFail s) ++ field " replay=" (WGReplayDrop s) ++ field " invalidInner=" (WGInvalidInner s) ++
  field " plainQHigh=" (WGPlainQHigh s) ++ field " plainDrop=" (WGPlainDrop s) ++ field " frag=" (FragReassembled s) ++ field "/" (FragRefragmented s) ++
  field "/" (FragErrors s) ++ field " timeout=" (FragTimeouts s) ++ field " natMiss=" (ReverseNATMiss s) ++ field " otherIn=" (InboundOther s) ++
  field " inbound=" (InboundInjected s) ++ field "/" (InboundErrors s).

(** ** The accounting of datagrams *)
(** The datagrams that were received and not counted under what became of them. *)
Definition unexplained (d : Diagnostics) : Z :=
  u64 (RawRX d - (WrongEndpoint d + ShortRX d + UnknownType d + NoSession d + AuthFail d + ReplayDrop d + InvalidInner d + TransportRX d)).
Definition weight (t : tick) : Z :=
  match t with
  | TRaw => 1
  | TWrong | TShort | TUnknown | TNoSession | TAuth | TReplay | TInner | TRecv _ => -1
  | TDrop | TErr | THigh _ | TSent _ => 0
  end.
Lemma u64_add_r a b : u64 (a + u64 b) = u64 (a + b).
Proof. apply Zplus_mod_idemp_r. Qed.
Lemma u64_add_l a b : u64 (u64 a + b) = u64 (a + b).
Proof. apply Zplus_mod_idemp_l. Qed.
Lemma u64_sub_r a b : u64 (a - u64 b) = u64 (a - b).
Proof. apply Zminus_mod_idemp_r. Qed.
Lemma unexplained_bump t d : unexplained (bump t d) = u64 (unexplained d + weight t).
Proof.
  unfold unexplained. rewrite u64_add_l. destruct d as [raw wr sh un no au re inn qh dr rx tx er tb rb].
  destruct t; cbn [bump RawRX WrongEndpoint ShortRX UnknownType NoSession AuthFail ReplayDrop InvalidInner TransportRX weight]; rewrite ?Z.add_0_r; try done.
  1: { replace (u64 (raw + 1) - _) with (- (wr + sh + un + no + au + re + inn + rx) + u64 (raw + 1)) by lia. rewrite u64_add_r. f_equal. lia. }
  all: match goal with |- u64 ?e = u64 ?e' =>
         match e with context [u64 ?x] => replace e with ((e + u64 x) - u64 x) by lia; set (y := e + u64 x); assert (Hy : y = e' + x) by (unfold y; lia); clearbody y end end;
       rewrite u64_sub_r; f_equal; lia.
Qed.
Section Accounting.
Context {A : AEAD}.
(** A response or a cookie reply from the server, which the handshake consumes. *)
Definition handshake_datagram (c : Client) (from : UDPAddr) (raw : list Z) : bool :=
  sameEndpoint from (p_endpoint (params c)) && (4 <=? blen raw) && ((le32_at raw 0 =? msgResp) || (le32_at raw 0 =? msgCookie)).
(** Received datagrams, in any order and from anywhere; [pick] is the choice of [select]. *)
Fixpoint receive (l : list (UDPAddr * list Z * bool)) (c : Client) : Client :=
  match l with [] => c | (from, raw, pick) :: l => receive l (reader_step from raw pick c).1 end.
Definition handshakes (c : Client) (l : list (UDPAddr * list Z * bool)) : Z :=
  blen (List.filter (fun '(from, raw, _) => handshake_datagram c from raw) l).

Lemma unexplained_count t c : unexplained (diag (count t c)) = u64 (unexplained (diag c) + weight t).
Proof. apply unexplained_bump. Qed.
Lemma unexplained_deliver c p pick : unexplained (diag (deliver c p pick)) = unexplained (diag c).
Proof.
  unfold deliver. destruct (_ && _); [done|]. destruct (done_ c); [done|]. rewrite unexplained_count. cbn [weight]. rewrite Z.add_0_r. unfold unexplained. apply Zmod_mod.
Qed.
Lemma transport_accounts raw pick c c' r : table_ok c → bytes_ok raw → handleTransport raw pick c = (c', r) →
  unexplained (diag c') = u64 (unexplained (diag c) - 1).
Proof.
  intros Hok Hb E. destruct (handleTransport_received _ _ _ _ _ Hok Hb E) as [-> _]. destruct (Z.ltb_spec (blen raw) 32) as [Hs|Hs].
  { unfold handleTransport in E. rewrite (proj2 (Z.ltb_lt _ _) Hs) in E. injection E as <-. apply unexplained_count. }
  pose proof (handleTransport_eq raw pick c Hs) as Ee. destruct (transport_fields raw) as [ix n]. rewrite Ee in E. clear Ee. cbv zeta in E.
  destruct (sessions c !! ix) as [id|]; [|injection E as <-; apply unexplained_count]. destruct (store c !! id) as [s|]; [|done].
  destruct (aead_open _ _ _ _) as [pt|e| |]; try done; [|injection E as <-; apply unexplained_count]. destruct (Accept _ _) as [[rp acc]| | |]; try done.
  destruct (negb acc); [injection E as <-; apply unexplained_count|]. destruct (TrimToIPLength pt) as [p| | |]; try done.
  destruct (inner_ok p); injection E as <-; [|apply unexplained_count].
  rewrite unexplained_deliver, !unexplained_count, u64_add_l. cbn [weight diag set_store]. f_equal. lia.
Qed.
Lemma reader_accounts from raw pick c : table_ok c → bytes_ok raw →
  let c' := (reader_step from raw pick c).1 in
  unexplained (diag c') = u64 (unexplained (diag c) + if handshake_datagram c from raw then 1 else 0) ∧ params c' = params c ∧ table_ok c'.
Proof.
  intros Hok Hb. cbv zeta. destruct (reader_step from raw pick c) as [c' r] eqn:E. cbn [fst].
  destruct (reader_step_received _ _ _ _ _ _ Hok Hb E) as [-> Hr].
  split; [|split; [|exact (proj1 (received_ok _ _ _ Hok Hb Hr))]; by destruct Hr as [(?&?)|]].
  unfold reader_step in E. rewrite tick_run, sget_run in E. set (c1 := count TRaw c) in *.
  assert (H1 : unexplained (diag c1) = u64 (unexplained (diag c) + 1)) by apply unexplained_count.
  assert (Hsub : u64 (unexplained (diag c1) - 1) = u64 (unexplained (diag c) + 0)).
  { rewrite H1. change (u64 (unexplained (diag c) + 1) - 1) with (u64 (unexplained (diag c) + 1) + -1). rewrite u64_add_l. f_equal. lia. }
  unfold handshake_datagram. change (params c1) with (params c) in E.
  destruct (sameEndpoint _ _); cbn [negb andb] in *; [|injection E as <-; rewrite unexplained_count; exact Hsub].
  destruct (Z.leb_spec 4 (blen raw)) as [Hl|Hl]; cbn [andb].
  2: { rewrite (proj2 (Z.ltb_lt _ _) Hl) in E. injection E as <-. rewrite unexplained_count. exact Hsub. }
  rewrite (proj2 (Z.ltb_ge _ _) Hl), slice_ok, liftR_run, le32_ok, liftR_run in E by (rewrite ?blen_bsub; lia).
  rewrite le32_at_bsub in E by lia. change (0 + 0) with 0 in E.
  destruct (_ =? msgResp); cbn [orb]; [injection E as <-; destruct (_ <? _); exact H1|].
  destruct (_ =? msgCookie); [injection E as <-; destruct (_ <? _); exact H1|].
  destruct (_ =? msgTransport); [|injection E as <-; rewrite unexplained_count; exact Hsub].
  rewrite (transport_accounts raw pick c1 c' _ (table_ok_aside c c1 ltac:(done) Hok) Hb E). exact Hsub.
Qed.

(** C31: the diagnostics account for everything that arrives: after any datagrams from
    anywhere, in any state the client can be in, the number received less the numbers
    from a wrong address, too short, of an unknown type, for no session, not authentic,
    replayed, without an IP packet inside and accepted has grown by exactly the number
    of handshake messages from the server (modulo the width of the counters). *)
Theorem diagnostics_account (p : Params) (c : Client) (l : list (UDPAddr * list Z * bool)) :
  rtc step (NewClient p) c → Forall (fun '(_, raw, _) => bytes_ok raw) l →
  unexplained (diag (receive l c)) = u64 (unexplained (diag c) + handshakes c l).
Proof.
  intros Hr Hl. pose proof (reachable_ok _ _ Hr) as Hok. clear Hr. revert c Hok. induction Hl as [|[[from raw] pick] l Hb Hl IH]; intros c Hok.
  - cbn. rewrite Z.add_0_r. unfold unexplained. symmetry. apply Zmod_mod.
  - cbn [receive]. destruct (reader_accounts from raw pick c Hok Hb) as (E & Ep & Hok'). rewrite IH, E, u64_add_l by done. f_equal.
    unfold handshakes.
    rewrite (List.filter_ext (fun '(f, x, _) => handshake_datagram (reader_step from raw pick c).1 f x) (fun '(f, x, _) => handshake_datagram c f x))
      by (intros [[f x] b]; unfold handshake_datagram; by rewrite Ep).
    cbn [List.filter]. destruct (handshake_datagram c from raw); rewrite ?blen_cons; lia.
Qed.
End Accounting.
Lemma diagnostics_account_witness :
  let p := mkParams (mkKeys [] [] [] [] [] []) 1420 25 (mkUDP [127; 0; 0; 1] 51820) (1000, 1001) in
  let from := mkUDP [127; 0; 0; 1] 51820 in
  let l := [(from, put_le32 msgCookie ++ zeros 60, true); (from, put_le32 msgTransport ++ zeros 60, true); (mkUDP [127; 0; 0; 1] 1, [], true); (from, [9; 9; 9; 9], false)] in
  unexplained (diag (@receive pureAEAD l (NewClient p))) = 1.
Proof.
  intros p from l. refine (eq_trans (@diagnostics_account pureAEAD p (NewClient p) l _ _) _); [apply rtc_refl| |vm_compute; reflexivity].
  repeat (apply List.Forall_cons; [apply bytes_okb_ok; vm_compute; reflexivity|]). apply List.Forall_nil.
Defined.
