(* ===== verification/GuiView.v ===== *)
(** * The window: what it shows ([refreshStatus], [formatGroups], [oneLine],
    [humanBytes], [previewConfig], [openRules] and [command] of
    [cmd/splitwire/main_windows.go])

    A control's text is the string that was given to it.  The clock, the offset of the
    local time zone, the answer of the file dialog and of [app.Inspect] are arguments.
    Gui.v has the state behind the window and its handlers; the main property here is
    that the status line tells the truth about it. *)

From S2P Require Import Prelude Netip GoStrings Config Fmt Utf Tracker Runner HostPort BrowserProxy LogHub WinUtil Session Gui GuiText Status.
Local Open Scope Z_scope.

(** ** Texts *)
(** [unicode.IsSpace] *)
Definition IsSpace (r : Z) : bool :=
  between 9 r 13 || (r =? 32) || (r =? 0x85) || (r =? 0xA0) || (r =? 0x1680) || between 0x2000 r 0x200A || between 0x2028 r 0x2029 ||
  (r =? 0x202F) || (r =? 0x205F) || (r =? 0x3000).
(** [strings.Fields]; on ASCII the library takes a shortcut to the same result. *)
Definition keep (cur : list Z) : list (list Z) := match cur with [] => [] | _ => [cur] end.
Fixpoint fields_loop (fuel : nat) (s cur : list Z) : list (list Z) :=
  match fuel with
  | O => []
  | S fuel =>
      match s with
      | [] => keep cur
      | _ =>
          let (r, n) := DecodeRune s in
          if IsSpace r then keep cur ++ fields_loop fuel (drop n s) [] else fields_loop fuel (drop n s) (cur ++ take n s)
      end
  end.
Definition Fields (s : list Z) : list (list Z) := fields_loop (S (length s)) s [].
Definition ellipsis : list Z := lit "…".
Definition oneLine (s : list Z) (max : Z) : list Z :=
  let s := Join (Fields s) (lit " ") in
  let r := runes s in
  if (max <? blen r) && (1 <? max) then string_of (take (Z.to_nat (max - 1)) r) ++ ellipsis else s.
Definition humanBytes (n : Z) : list Z :=
  if n <? 1024 then fmt_d n ++ lit " B"
  else if n <? 1024 * 1024 then fmt_1f n 1024 ++ lit " KiB"
  else if n <? 1024 * 1024 * 1024 then fmt_1f n (1024 * 1024) ++ lit " MiB"
  else fmt_1f n (1024 * 1024 * 1024) ++ lit " GiB".

(** [netip.Addr.String] and [netip.Prefix.String]. *)
Definition word16 (v : list Z) (i : nat) : Z := gb v (Z.of_nat (2 * i)) * 256 + gb v (Z.of_nat (2 * i) + 1).
Fixpoint zero_run (n : nat) (v : list Z) (i : nat) : nat :=
  match n with O => 0 | S n => if word16 v i =? 0 then S (zero_run n v (S i)) else 0 end.
Fixpoint longest_run (n : nat) (v : list Z) (i start stop : nat) : nat * nat :=
  match n with
  | O => (start, stop)
  | S n =>
      let l := zero_run (8 - i) v i in
      if (2 <=? l)%nat && (stop - start <? l)%nat then longest_run n v (S i) i (i + l) else longest_run n v (S i) start stop
  end.
Fixpoint groups6 (n : nat) (v : list Z) (i start stop : nat) : list Z :=
  match n with
  | O => []
  | S n =>
      if (8 <=? i)%nat then [] else
      if (i =? start)%nat then
        [58; 58] ++ (if (8 <=? stop)%nat then [] else fmt_digits 64 16 (word16 v stop) [] ++ groups6 n v (S stop) start stop)
      else (if (0 <? i)%nat then [58] else []) ++ fmt_digits 64 16 (word16 v i) [] ++ groups6 n v (S i) start stop
  end.
Definition string4 (v : list Z) : list Z := Join (map fmt_d v) [46].
Definition AddrString (a : Addr) : list Z :=
  match a with
  | AddrZero => lit "invalid IP"
  | Addr4 v => string4 v
  | Addr6 v =>
      if bool_decide (take 12 v = zeros 10 ++ [255; 255]) then lit "::ffff:" ++ string4 (drop 12 v) else
      let (start, stop) := longest_run 8 v 0 255 255 in groups6 9 v 0 start stop
  end.
Definition PrefixString (p : Prefix) : list Z :=
  if (pfx_bits p <? 0) || bool_decide (pfx_addr p = AddrZero) then lit "invalid Prefix"
  else AddrString (pfx_addr p) ++ lit "/" ++ fmt_d (pfx_bits p).

Definition crlf : list Z := [cr; lf].
Fixpoint format_groups (gs : list Group) : list Z :=
  match gs with
  | [] => []
  | g :: rest =>
      lit "[" ++ gName g ++ lit "]" ++ crlf ++
      lit "Apps: " ++ Join (gApps g) (lit ", ") ++ crlf ++
      (if 0 <? blen (gDomains g) then lit "Domains: " ++ Join (gDomains g) (lit ", ") ++ crlf else []) ++
      (if 0 <? blen (gNetworks g) then lit "Networks: " ++ Join (map PrefixString (gNetworks g)) (lit ", ") ++ crlf else []) ++
      (match rest with [] => [] | _ => crlf end) ++ format_groups rest
  end.
Definition formatGroups (info : Info) : list Z :=
  (if bool_decide (in_ruleSource info = []) then [] else
   lit "Правила: " ++ in_ruleSource info ++ (if in_usedDefault info then lit " (default)" else []) ++ crlf ++ crlf) ++
  format_groups (in_groups info) ++
  (if blen (in_groups info) =? 0 then lit "Нет групп маршрутизации." else []).
Example prefix_strings :
  map PrefixString [mkPrefix (Addr4 [10; 0; 0; 0]) 8; mkPrefix (Addr6 ([0x20; 0x01; 0x0d; 0xb8] ++ zeros 11 ++ [1])) 64; mkPrefix (Addr6 (zeros 16)) 0;
                    mkPrefix (Addr6 ([0xfe; 0x80] ++ zeros 6 ++ [0; 1; 0; 0; 0; 0; 0; 2])) 10] =
  [lit "10.0.0.0/8"; lit "2001:db8::1/64"; lit "::/0"; lit "fe80::1:0:0:2/10"].
Proof. vm_compute. reflexivity. Qed.
Example human_bytes : map humanBytes [0; 1023; 1024; 1536; 1048575; 3221225472; 18446744073709551615] =
  [lit "0 B"; lit "1023 B"; lit "1.0 KiB"; lit "1.5 KiB"; lit "1024.0 KiB"; lit "3.0 GiB"; lit "17179869184.0 GiB"].
Proof. vm_compute. reflexivity. Qed.

(** ** Times *)
Definition sec : Z := 1000000000.
(** [Duration.Round(time.Second)]: halves away from zero. *)
Definition RoundSecond (d : Z) : Z :=
  let r := Z.rem d sec in
  if d <? 0 then (if - r + - r <? sec then d - r else d - sec - r) else (if r + r <? sec then d - r else d + sec - r).
(** [Duration.String] of whole seconds, not negative. *)
Definition duration_text (d : Z) : list Z :=
  let u := Z.quot d sec in
  let m := u `div` 60 in
  (if 0 <? m then (if 0 <? m `div` 60 then fmt_d (m `div` 60) ++ lit "h" else []) ++ fmt_d (m `mod` 60) ++ lit "m" else []) ++
  fmt_d (u `mod` 60) ++ lit "s".
(** [t.Format("15:04:05")], given the offset of the zone in seconds. *)
Definition two (n : Z) : list Z := fmt_d (n `div` 10) ++ fmt_d (n `mod` 10).
Definition clock_text (zone t : Z) : list Z :=
  let s := (t `div` sec + zone) `mod` 86400 in
  two (s `div` 3600) ++ lit ":" ++ two ((s `div` 60) `mod` 60) ++ lit ":" ++ two (s `mod` 60).

(** ** The status panel *)
Record panel := mkPanel { stateText : list Z; networkText : list Z; handshakeText : list Z; proxyText : list Z; trafficText : list Z; packetsText : list Z }.
Definition state_starting := lit "Состояние: запускается…".
Definition state_stopping := lit "Состояние: отключается…".
Definition state_stopped := lit "Состояние: остановлен".
Definition state_error := lit "Состояние: ошибка — ".
Definition state_waiting := lit "Состояние: работает · handshake ещё не установлен".
Definition state_connected := lit "Состояние: подключено".
Definition state_stale := lit "Состояние: работает · handshake давно не обновлялся".
Definition age_of (now t : Z) : Z := let age := RoundSecond (now - t) in if age <? 0 then 0 else age.
Definition packets_text (s : Status) : list Z :=
  field "Пакеты: cap " (Captured s) ++ field " / WG " (Tunneled s) ++ field " / direct " (Bypassed s) ++ field " / drop " (Dropped s) ++
  field " · qMax " (SendQueueHigh s) ++ field "/" (SendQueueDelayMaxMS s) ++ field "ms · natMiss " (ReverseNATMiss s).
(** [refreshStatus]; [created] is whether the controls are there, [info] and [s] are
    what the session says of itself. *)
Definition refreshStatus (created : bool) (g : gui) (info : Info) (s : Status) (now zone : Z) (p : panel) : panel :=
  if negb created then p else
  if g_starting g then mkPanel state_starting (networkText p) (lit "WireGuard: инициализация…") (proxyText p) (trafficText p) (packetsText p) else
  if g_stopping g then mkPanel state_stopping (networkText p) (handshakeText p) (proxyText p) (trafficText p) (packetsText p) else
  match g_session g with
  | None =>
      mkPanel (if bool_decide (g_lastError g = ""%string) then state_stopped else state_error ++ oneLine (lit (g_lastError g)) 90)
        (lit "Сеть: —") (lit "WireGuard: —") (lit "Доменные правила: —") (lit "Трафик WG: TX 0 B / RX 0 B") (lit "Пакеты: tunnel 0 / bypass 0 / drop 0")
  | Some _ =>
      let '(state, handshake) :=
        match LastHandshake s with
        | None => (state_waiting, lit "WireGuard: ожидает первый туннельный пакет")
        | Some t =>
            let age := age_of now t in
            (if age <=? 180 * sec then state_connected else state_stale,
             lit "WireGuard: OK · " ++ clock_text zone t ++ lit " · " ++ duration_text age ++ lit " назад")
        end in
      mkPanel state (lit "Сеть: " ++ in_interface info ++ lit " · endpoint " ++ in_endpoint info) handshake
        (lit "Доменные правила: " ++ oneLine (in_mode info) 75)
        (lit "Трафик WG: TX " ++ humanBytes (WGTxBytes s) ++ lit " / RX " ++ humanBytes (WGRxBytes s))
        (packets_text s)
  end.

(** ** The commands *)
Definition title := lit "SplitWire".
Definition title_config := lit "SplitWire — конфигурация".
(** What a handler shows besides: a message box, a file in the editor. *)
Inductive shown := Box (t text : list Z) | Edited (path : list Z).
Record view := mkView { v_config : list Z; v_groups : list Z; v_log : list Z; v_shown : list shown }.
Definition set_groups (t : list Z) (v : view) : view := mkView (v_config v) t (v_log v) (v_shown v).
Definition show_box (t text : list Z) (v : view) : view := mkView (v_config v) (v_groups v) (v_log v) (v_shown v ++ [Box t text]).

Section Commands.
Context {U : Unicode} (inspect : list Z → Res Info).
Definition previewConfig (showError : bool) (v : view) : Res view :=
  let path := TrimSpace (v_config v) in
  if bool_decide (path = []) then Ok (set_groups (lit "Выберите WireGuard .conf") v) else
  match inspect path with
  | Ok info => Ok (set_groups (formatGroups info) v)
  | Err e =>
      let v := set_groups (lit "Ошибка конфигурации:" ++ crlf ++ lit e) v in
      Ok (if showError then show_box title_config (lit e) v else v)
  | Panic => Panic
  | OutOfFuel => OutOfFuel
  end.
(** [openTextFile]: the editor is started on the path, unless it is empty or the shell
    answers with an error. *)
Definition openTextFile (shell : list Z → option string) (path : list Z) (v : view) : view * option string :=
  if bool_decide (path = []) then (v, Some "empty path"%string) else
  match shell path with
  | Some e => (v, Some e)
  | None => (mkView (v_config v) (v_groups v) (v_log v) (v_shown v ++ [Edited path]), None)
  end.
Definition open_or_tell (shell : list Z → option string) (path : list Z) (v : view) : view :=
  let '(v, err) := openTextFile shell path v in match err with Some e => show_box title (lit e) v | None => v end.
Definition openRules (shell : list Z → option string) (v : view) : Res view :=
  let path := TrimSpace (v_config v) in
  if bool_decide (path = []) then Ok (show_box title (lit "Сначала выберите WireGuard config.") v) else
  match inspect path with
  | Ok info => Ok (open_or_tell shell (in_ruleSource info) v)
  | Err e => Ok (show_box title (lit e) v)
  | Panic => Panic
  | OutOfFuel => OutOfFuel
  end.
Definition idBrowse : Z := 1002.
Definition idStart : Z := 1003.
Definition idStop : Z := 1004.
Definition idRules : Z := 1005.
Definition idOpenLog : Z := 1014.
Definition idClearLog : Z := 1015.
Definition clear_error (y : system) : system :=
  let g := y_gui y in
  set_gui (mkGui (g_session g) (g_sessionCancel g) (g_startCancel g) (g_starting g) (g_stopping g) (g_closing g) ""
             (g_startResults g) (g_stopResults g) (g_startBtn g) (g_stopBtn g)) y.
(** What [beginStart] shows: the path that was chosen, then the groups or the error. *)
Definition start_view (dialog : option (list Z)) (y : system) (v : view) : Res view :=
  let g := y_gui y in
  if g_starting g || g_stopping g || is_some (g_session g) then Ok v else
  let text := TrimSpace (v_config v) in
  let chosen := if bool_decide (text = []) then match dialog with Some p => Some (p, p) | None => None end else Some (text, v_config v) in
  match chosen with
  | None => Ok v
  | Some (path, config) =>
      let v := mkView config (v_groups v) (v_log v) (v_shown v) in
      match inspect path with
      | Ok info => Ok (set_groups (formatGroups info) v)
      | Err e => Ok (show_box title_config (lit e) v)
      | Panic => Panic
      | OutOfFuel => OutOfFuel
      end
  end.
(** What [finishStart] shows; [info] is that of the new session. *)
Definition title_failed := lit "SplitWire — ошибка запуска".
Definition finish_view (info : Info) (y : system) (v : view) : view :=
  match g_startResults (y_gui y) with
  | None => v
  | Some r =>
      match sr_err r with
      | Some e => if fl_cancelled e then v else show_box title_failed (lit (fl_text e)) v
      | None => mkView (in_configPath info) (formatGroups info) (v_log v) (v_shown v)
      end
  end.
(** [command]: the whole handler, on the state, the log's ring and the view. *)
Definition command (id : Z) (dialog : option (list Z)) (shell : list Z → option string) (logPath : list Z)
    (y : system) (r : Ring) (v : view) : Res (system * Ring * view) :=
  if id =? idBrowse then
    match dialog with
    | Some p =>
        v ← previewConfig true (mkView p (v_groups v) (v_log v) (v_shown v));
        Ok (clear_error y, r, v)
    | None => Ok (y, r, v)
    end
  else if id =? idStart then v' ← start_view dialog y v; Ok (beginStart (TrimSpace (v_config v)) dialog inspect y, r, v')
  else if id =? idStop then Ok (beginStop y, r, v)
  else if id =? idRules then v ← openRules shell v; Ok (y, r, v)
  else if id =? idOpenLog then Ok (y, r, open_or_tell shell logPath v)
  else if id =? idClearLog then Ok (y, Clear r, mkView (v_config v) (v_groups v) [] (v_shown v))
  else Ok (y, r, v).
End Commands.

(** ** One line *)
Lemma high_bytes l : Forall (fun b => 0x80 <= b) l → lf ∉ l ∧ cr ∉ l.
Proof. unfold lf, cr. intros H. rewrite List.Forall_forall in H. split; intros Hin%list_elem_of_In; apply H in Hin; lia. Qed.
Lemma second_range_spec b0 b1 : between 0xC2 b0 0xF4 = true → between (second_range b0).1 b1 (second_range b0).2 = true →
  0x80 <= b1 <= 0xBF ∧ (b0 = 0xE0 → 0xA0 <= b1) ∧ (b0 = 0xED → b1 <= 0x9F) ∧ (b0 = 0xF0 → 0x90 <= b1) ∧ (b0 = 0xF4 → b1 <= 0x8F).
Proof.
  rewrite !between_spec. unfold second_range. intros H0.
  destruct (Z.eqb_spec b0 0xE0); [cbn [fst snd]; lia|]. destruct (Z.eqb_spec b0 0xED); [cbn [fst snd]; lia|].
  destruct (Z.eqb_spec b0 0xF0); [cbn [fst snd]; lia|]. destruct (Z.eqb_spec b0 0xF4); cbn [fst snd]; lia.
Qed.
(** Decoding gives a valid rune and takes at least one byte; what it takes is free of
    line breaks unless the rune is a space. *)
Lemma DecodeRune_spec s : bytes_ok s → s ≠ [] → let '(r, n) := DecodeRune s in
  valid_rune r = true ∧ (1 <= n <= length s)%nat ∧ (IsSpace r = false → lf ∉ take n s ∧ cr ∉ take n s) ∧ (r < 0x80 → take n s = [r]).
Proof.
  intros Hb Hne. destruct s as [|b0 s]; [done|]. pose proof (Forall_inv Hb) as Hb0. cbv beta in Hb0. clear Hb Hne. unfold DecodeRune.
  destruct (Z.ltb_spec b0 0x80) as [Hl|Hl].
  { split_and!; [apply valid_rune_spec; lia|lia|cbn; lia| |done]. cbn [take]. unfold IsSpace, between, lf, cr. intros H. repeat (apply orb_false_iff in H as [H ?]).
    split; intros E%list_elem_of_singleton; subst b0; done. }
  assert (Hbad : valid_rune RuneError = true ∧ (1 <= 1 <= length (b0 :: s))%nat ∧ (IsSpace RuneError = false → lf ∉ take 1 (b0 :: s) ∧ cr ∉ take 1 (b0 :: s)) ∧ (RuneError < 0x80 → take 1 (b0 :: s) = [RuneError])).
  { split_and!; [done|lia|cbn; lia| |done]. intros _. apply high_bytes. by repeat constructor. }
  destruct (between 0xC2 b0 0xF4) eqn:H0; cbn [negb]; [|exact Hbad]. pose proof (second_range_spec b0) as Hsr. destruct (second_range b0) as [lo hi]. cbn [fst snd] in Hsr.
  destruct s as [|b1 s]; [exact Hbad|]. specialize (Hsr b1 H0). destruct (between lo b1 hi); cbn [negb]; [|exact Hbad]. specialize (Hsr eq_refl). apply between_spec in H0.
  destruct (Z.ltb_spec b0 0xE0).
  { split_and!; [apply valid_rune_spec; lia|lia|cbn; lia| |lia]. intros _. apply high_bytes. repeat constructor; lia. }
  destruct s as [|b2 s]; [exact Hbad|]. destruct (continuation b2) eqn:H2; cbn [negb]; [|exact Hbad]. apply between_spec in H2. destruct (Z.ltb_spec b0 0xF0).
  { split_and!; [apply valid_rune_spec; lia|lia|cbn; lia| |lia]. intros _. apply high_bytes. repeat constructor; lia. }
  destruct s as [|b3 s]; [exact Hbad|]. destruct (continuation b3) eqn:H3; cbn [negb]; [|exact Hbad]. apply between_spec in H3.
  split_and!; [apply valid_rune_spec; lia|lia|cbn; lia| |lia]. intros _. apply high_bytes. repeat constructor; lia.
Qed.
Definition no_breaks (s : list Z) : Prop := lf ∉ s ∧ cr ∉ s.
Lemma no_breaks_app a b : no_breaks a → no_breaks b → no_breaks (a ++ b).
Proof. unfold no_breaks. rewrite !elem_of_app. tauto. Qed.
Lemma fields_no_breaks fuel : ∀ s cur, bytes_ok s → no_breaks cur → Forall no_breaks (fields_loop fuel s cur).
Proof.
  assert (Hk : ∀ cur, no_breaks cur → Forall no_breaks (keep cur)) by (intros [|c cur] H; cbn; [apply List.Forall_nil|apply List.Forall_cons; [exact H|apply List.Forall_nil]]).
  induction fuel as [|fuel IH]; intros s cur Hb Hc; [constructor|]. cbn [fields_loop]. destruct s as [|b s]; [by apply Hk|].
  pose proof (DecodeRune_spec (b :: s) Hb ltac:(done)) as Hd. destruct (DecodeRune (b :: s)) as [r n]. destruct Hd as (_ & _ & Hs & _).
  assert (Hdr : bytes_ok (drop n (b :: s))) by (by apply Forall_drop). destruct (IsSpace r).
  - apply Forall_app. split; [by apply Hk|]. apply IH; [done|]. split; apply not_elem_of_nil.
  - apply IH; [done|]. apply no_breaks_app; [done|by apply Hs].
Qed.
Lemma Join_no_breaks l sep : Forall no_breaks l → no_breaks sep → no_breaks (Join l sep).
Proof.
  intros Hl Hs. induction Hl as [|x l Hx Hl IH]; [split; apply not_elem_of_nil|]. cbn. destruct l; [done|]. by repeat apply no_breaks_app.
Qed.
Lemma bytes_ok_Fields fuel : ∀ s cur, bytes_ok s → bytes_ok cur → Forall bytes_ok (fields_loop fuel s cur).
Proof.
  assert (Hk : ∀ cur, bytes_ok cur → Forall bytes_ok (keep cur)) by (intros [|c cur] H; cbn; [apply List.Forall_nil|apply List.Forall_cons; [exact H|apply List.Forall_nil]]).
  induction fuel as [|fuel IH]; intros s cur Hb Hc; [constructor|]. cbn [fields_loop]. destruct s as [|b s]; [by apply Hk|].
  destruct (DecodeRune (b :: s)) as [r n]. assert (Hdr : bytes_ok (drop n (b :: s))) by (by apply Forall_drop).
  destruct (IsSpace r); [apply Forall_app; split; [by apply Hk|]; apply IH; [done|constructor]|].
  apply IH; [done|]. apply bytes_ok_app. split; [done|by apply Forall_take].
Qed.
Lemma bytes_ok_Join l sep : Forall bytes_ok l → bytes_ok sep → bytes_ok (Join l sep).
Proof. intros Hl Hs. induction Hl as [|x l Hx Hl IH]; [constructor|]. cbn. destruct l; [done|]. by rewrite !bytes_ok_app. Qed.
Lemma runes_valid fuel : ∀ s, bytes_ok s → valid_runes (runes_fuel fuel s).
Proof.
  induction fuel as [|fuel IH]; intros s Hb; [constructor|]. cbn [runes_fuel]. destruct s as [|b s]; [constructor|].
  pose proof (DecodeRune_spec (b :: s) Hb ltac:(done)) as Hd. destruct (DecodeRune (b :: s)) as [r n]. destruct Hd as (Hv & _).
  constructor; [done|]. apply IH. by apply Forall_drop.
Qed.
Lemma runes_no_breaks fuel : ∀ s, bytes_ok s → no_breaks s → no_breaks (runes_fuel fuel s).
Proof.
  induction fuel as [|fuel IH]; intros s Hb Hn; [split; apply not_elem_of_nil|]. cbn [runes_fuel]. destruct s as [|b s]; [split; apply not_elem_of_nil|].
  pose proof (DecodeRune_spec (b :: s) Hb ltac:(done)) as Hd. set (t := b :: s) in *. clearbody t. destruct (DecodeRune t) as [r n]. destruct Hd as (_ & _ & _ & Ha).
  apply (no_breaks_app [r]).
  - destruct Hn as [Hn1 Hn2]. unfold no_breaks, lf, cr in *. split; intros E%list_elem_of_singleton; subst r; [apply Hn1|apply Hn2];
      (apply (subseteq_take n t); rewrite Ha by lia; apply list_elem_of_singleton; done).
  - apply IH; [by apply Forall_drop|]. destruct Hn as [H1 H2]. split; intros Hin; [apply H1|apply H2]; exact (subseteq_drop n t _ Hin).
Qed.
Lemma Encode_no_breaks r : r ≠ lf → r ≠ cr → valid_rune r = true → no_breaks (EncodeRune r).
Proof.
  unfold lf, cr. intros H1 H2 Hv. unfold EncodeRune. rewrite Hv. apply valid_rune_spec in Hv. cbn [negb].
  destruct (Z.ltb_spec r 0x80); [split; rewrite list_elem_of_singleton; unfold lf, cr; lia|].
  assert (Hd : ∀ d, 0 < d → 0 <= r `div` d) by (intros; apply Z.div_pos; lia). pose proof (λ x, Z.mod_pos_bound x 64 ltac:(lia)) as Hm.
  pose proof (Hd 64 ltac:(lia)). pose proof (Hd 4096 ltac:(lia)). pose proof (Hd 262144 ltac:(lia)).
  pose proof (Hm r). pose proof (Hm (r `div` 64)). pose proof (Hm (r `div` 4096)). clear Hd Hm.
  destruct (r <? 0x800); [|destruct (r <? 0x10000)]; apply high_bytes; unfold three_bytes; repeat apply List.Forall_cons; try apply List.Forall_nil; lia.
Qed.
(** The text of a status line has no line break and at most [max] characters. *)
Lemma oneLine_spec s max : bytes_ok s → 1 < max → no_breaks (oneLine s max) ∧ blen (runes (oneLine s max)) <= max.
Proof.
  intros Hb Hm. unfold oneLine. cbv zeta. set (t := Join (Fields s) (lit " ")).
  assert (Ht : no_breaks t).
  { apply Join_no_breaks; [apply fields_no_breaks; [done|split; apply not_elem_of_nil]|]. unfold no_breaks, lf, cr. split; intros H%list_elem_of_In; cbn in H; lia. }
  assert (Hbt : bytes_ok t) by (apply bytes_ok_Join; [apply bytes_ok_Fields; [done|constructor]|apply bytes_okb_ok; reflexivity]).
  rewrite (proj2 (Z.ltb_lt 1 max)), andb_true_r by lia. destruct (Z.ltb_spec max (blen (runes t))) as [Hl|Hl]; [|by split].
  pose proof (runes_valid (length t) t Hbt) as Hv. pose proof (runes_no_breaks (length t) t Hbt Ht) as [Hn1 Hn2]. fold (runes t) in Hv, Hn1, Hn2.
  set (rs := take (Z.to_nat (max - 1)) (runes t)). assert (Hv' : valid_runes rs) by (by apply Forall_take).
  assert (Hr : ∀ r, r ∈ rs → r ≠ lf ∧ r ≠ cr ∧ valid_rune r = true).
  { intros r Hin. split_and!; [intros ->; apply Hn1|intros ->; apply Hn2|]; [exact (subseteq_take _ _ _ Hin)..|].
    unfold valid_runes in Hv'. rewrite List.Forall_forall in Hv'. by apply Hv', list_elem_of_In. }
  assert (Ee : string_of rs ++ ellipsis = string_of (rs ++ [0x2026])) by (unfold string_of; rewrite flat_map_app; done). split.
  - apply no_breaks_app; [|unfold no_breaks, lf, cr; split; intros H%list_elem_of_In; cbn in H; lia].
    unfold string_of. clearbody rs. clear -Hr. induction rs as [|r rs IH]; [split; apply not_elem_of_nil|]. cbn [flat_map].
    destruct (Hr r) as (? & ? & ?); [by left|]. apply no_breaks_app; [by apply Encode_no_breaks|]. apply IH. intros r' Hin. apply Hr. by right.
  - rewrite Ee, runes_string_of by (apply Forall_app; split; [done|by repeat constructor]). rewrite blen_app. change (blen [0x2026]) with 1.
    unfold rs, blen in *. rewrite length_take. lia.
Qed.

(** ** The status line tells the truth *)
Definition running_texts : list (list Z) := [state_connected; state_waiting; state_stale].
Definition is_running (g : gui) : Prop := g_starting g = false ∧ g_stopping g = false ∧ is_Some (g_session g).
Definition error_text (g : gui) : list Z := state_error ++ oneLine (lit (g_lastError g)) 90.
(** The line as a function of the state. *)
Lemma state_line g info s now zone p :
  let line := stateText (refreshStatus true g info s now zone p) in
  (g_starting g = true ∧ line = state_starting) ∨
  (g_starting g = false ∧ g_stopping g = true ∧ line = state_stopping) ∨
  (g_starting g = false ∧ g_stopping g = false ∧ g_session g = None ∧ (line = state_stopped ∨ line = error_text g)) ∨
  (is_running g ∧ ((LastHandshake s = None ∧ line = state_waiting) ∨
    ∃ t, LastHandshake s = Some t ∧ ((age_of now t <= 180 * sec ∧ line = state_connected) ∨ (180 * sec < age_of now t ∧ line = state_stale)))).
Proof.
  unfold refreshStatus, is_running. cbn [negb]. destruct (g_starting g); [by left|]. right. destruct (g_stopping g); [by left|]. right.
  destruct (g_session g) as [i|].
  - right. split; [eauto|]. destruct (LastHandshake s) as [t|]; [|by left]. right. exists t. split; [done|].
    cbn [stateText]. destruct (Z.leb_spec (age_of now t) (180 * sec)); [by left|by right].
  - left. split_and!; try done. cbn [stateText]. destruct (bool_decide _); [by left|by right].
Qed.
(** The text of an error can be told from the others by its first characters. *)
Lemma error_text_differs g : error_text g ∉ state_starting :: state_stopping :: state_stopped :: running_texts.
Proof.
  assert (H : ∀ x, take 26 x ≠ take 26 state_error → error_text g ≠ x).
  { intros x Hx E. apply Hx. rewrite <- E. reflexivity. }
  unfold running_texts. rewrite !not_elem_of_cons. split_and!; try (apply H; vm_compute; discriminate). apply not_elem_of_nil.
Qed.
Lemma age_recent now t : 0 <= now - t → age_of now t <= 180 * sec ↔ now - t < 180 * sec + sec `div` 2.
Proof.
  intros H. unfold age_of, RoundSecond. rewrite (proj2 (Z.ltb_ge (now - t) 0)) by lia. cbv zeta.
  rewrite Z.rem_mod_nonneg by (unfold sec; lia). unfold sec. set (d := now - t) in *. clearbody d.
  pose proof (Z.div_mod d 1000000000 ltac:(lia)). pose proof (Z.mod_pos_bound d 1000000000 ltac:(lia)). 
  change (1000000000 `div` 2) with 500000000. set (q := d `div` 1000000000) in *. set (r := d `mod` 1000000000) in *. clearbody q r.
  destruct (Z.ltb_spec (r + r) 1000000000); match goal with |- context [if ?a <? 0 then _ else _] => destruct (Z.ltb_spec a 0) end; lia.
Qed.
Lemma inv_running y : inv y → y_window y = true → is_running (y_gui y) → ∃ i, g_session (y_gui y) = Some i ∧ y_live y = [i].
Proof.
  intros [(P & Hs & _) (Q & still & Hq & _ & Hl) _ _ _ _] Hw (E1 & E2 & [i Ei]). exists i. split; [done|]. rewrite Hl. unfold live_of. rewrite E1 in Hs. rewrite E1, E2 in Hq. cbn in Hq.
  inversion Hs as [E3 E4| | |]. inversion Hq as [o E5 E6 E7 E8 E9| | | |]. rewrite Hw, Ei. done.
Qed.
Lemma inv_stopped y : inv y → g_starting (y_gui y) = false → g_session (y_gui y) = None → y_live y = [] ∧ y_starters y = [] ∧ y_stoppers y = [].
Proof.
  intros [(P & Hs & _) (Q & still & Hq & _ & Hl) _ _ _ _] E1 E2. rewrite Hl. unfold live_of. rewrite E1 in Hs. rewrite E2 in Hq |- *.
  inversion Hs as [E3 E4| | |]. inversion Hq. split_and!; try done. cbn. by destruct (y_window y && _).
Qed.

(** What a refresh shows, in every reachable state of the window: the line says that a
    session is running exactly when the window has one and neither starts nor stops, and
    then that session is the only one started and not closed; it says
    connected only if a handshake was made and its age, rounded to the second, is at most
    three minutes; and when it says stopped or shows an error, no session is alive and no
    start or stop is under way. *)
Theorem status_line_honest (y : system) (info : Info) (s : Status) (now zone : Z) (p : panel) :
  reachable y → y_window y = true →
  let line := stateText (refreshStatus true (y_gui y) info s now zone p) in
  (line ∈ running_texts ↔ is_running (y_gui y)) ∧
  (line ∈ running_texts → ∃ i, g_session (y_gui y) = Some i ∧ y_live y = [i]) ∧
  (line = state_connected ↔ is_running (y_gui y) ∧ ∃ t, LastHandshake s = Some t ∧ age_of now t <= 180 * sec) ∧
  (line = state_stopped ∨ line = error_text (y_gui y) → y_live y = [] ∧ y_starters y = [] ∧ y_stoppers y = []).
Proof.
  intros Hr Hw line. pose proof (reachable_inv y Hr) as Hi. pose proof (error_text_differs (y_gui y)) as He. rewrite !not_elem_of_cons in He.
  destruct He as (He1 & He2 & He3 & He4). pose proof (state_line (y_gui y) info s now zone p) as H. cbv zeta in H. fold line in H. clearbody line.
  assert (Hn : state_starting ∉ running_texts ∧ state_stopping ∉ running_texts ∧ state_stopped ∉ running_texts).
  { split_and!; apply (bool_decide_unpack _); vm_compute; done. }
  destruct Hn as (Hn1 & Hn2 & Hn3).
  assert (Hd : state_starting ≠ state_stopped ∧ state_stopping ≠ state_stopped ∧ state_waiting ≠ state_stopped ∧ state_connected ≠ state_stopped ∧ state_stale ≠ state_stopped ∧
    state_waiting ≠ state_connected ∧ state_stale ≠ state_connected ∧ state_starting ≠ state_connected ∧ state_stopping ≠ state_connected) by (split_and!; vm_compute; discriminate).
  destruct Hd as (D1 & D2 & D3 & D4 & D5 & D6 & D7 & D8 & D9).
  unfold running_texts in *. rewrite !not_elem_of_cons in He4. destruct He4 as (F1 & F2 & F3 & _).
  destruct H as [[Es ->]|[(Es & Ep & ->)|[(Es & Ep & Eg & Hl)|[Hrun Hl]]]].
  - split_and!; [split; [done|by intros (? & _); congruence]|done|split; [congruence|by intros [(? & _) _]; congruence]|intros [?|?]; congruence].
  - split_and!; [split; [done|by intros (_ & ? & _); congruence]|done|split; [congruence|by intros [(_ & ? & _) _]; congruence]|intros [?|?]; congruence].
  - assert (Hnr : ¬ is_running (y_gui y)) by (intros (_ & _ & [? ?]); congruence).
    assert (Hnl : line ∉ [state_connected; state_waiting; state_stale]) by (destruct Hl as [->| ->]; [done|]; rewrite !not_elem_of_cons; split_and!; try done; apply not_elem_of_nil).
    split_and!; [tauto|tauto|split; [|tauto]; intros ->; destruct Hnl; by left|]. intros _. by apply inv_stopped.
  - assert (Hin : line ∈ [state_connected; state_waiting; state_stale]) by (destruct Hl as [(_ & ->)|(t & _ & [(_ & ->)|(_ & ->)])]; repeat first [by left|right]).
    split_and!; [tauto|intros _; by apply inv_running| |].
    + split; [intros ->|intros [_ (t & Et & Ha)]]; destruct Hl as [(El & E)|(t' & El & [(Ha' & E)|(Ha' & E)])]; try congruence; [eauto|]. exfalso.
      assert (t' = t) as -> by congruence. lia.
    + intros Hx. destruct Hl as [(_ & ->)|(t & _ & [(_ & ->)|(_ & ->)])]; destruct Hx; congruence.
Qed.
Definition demo_info : Info := mkInfo (lit "C:\vpn.conf") (lit "C:\vpn.conf") false (lit "10.0.0.1:51820") (lit "Ethernet") (lit "PAC") [] 1420.
Definition demo_status : Status :=
  mkStatus 5 3 2 0 1536 20 0 (Some (10 * sec)) 0 0 0 0 0 0 0 0 0 0 0 0 0 0 0 0 0 0 0 0 0 0 0 0 0 0 0 0 0 0 0 0.
Definition no_panel : panel := mkPanel [] [] [] [] [] [].
Example status_panel : refreshStatus true (y_gui connected) demo_info demo_status (75 * sec) 3600 no_panel =
  mkPanel state_connected (lit "Сеть: Ethernet · endpoint 10.0.0.1:51820") (lit "WireGuard: OK · 01:00:10 · 1m5s назад") (lit "Доменные правила: PAC")
    (lit "Трафик WG: TX 1.5 KiB / RX 20 B") (lit "Пакеты: cap 5 / WG 3 / direct 2 / drop 0 · qMax 0/0ms · natMiss 0").
Proof. vm_compute. reflexivity. Qed.
Lemma status_line_honest_witness :
  stateText (refreshStatus true (y_gui connected) demo_info demo_status (75 * sec) 3600 no_panel) = state_connected ∧ y_live connected = [1%nat].
Proof.
  destruct (status_line_honest connected demo_info demo_status (75 * sec) 3600 no_panel connected_reachable eq_refl) as (H1 & H2 & H3 & _).
  assert (Hr : is_running (y_gui connected)) by (split_and!; [reflexivity|reflexivity|exists 1%nat; reflexivity]). split.
  - apply H3. split; [exact Hr|]. exists (10 * sec). split; [reflexivity|]. vm_compute. discriminate.
  - destruct (H2 (proj2 H1 Hr)) as (i & Hi & Hl). rewrite Hl. injection Hi as <-. reflexivity.
Defined.

(** ** The commands keep the state sound *)
(** Whatever the user clicks, and whatever the dialog, the file and the editor answer, the
    state stays one of those the invariant of Gui.v describes, and the command returns. *)
Lemma clear_error_inv y : inv y → inv (clear_error y).
Proof. intros [H1 H2 H3 H4 H5 H6]. open_state y. split; assumption. Qed.
Lemma command_sound {U : Unicode} inspect id dialog shell logPath y r v :
  (∀ path, returns (inspect path)) → inv y → y_window y = true →
  ∃ y' r' v', command inspect id dialog shell logPath y r v = Ok (y', r', v') ∧ inv y' ∧
    (id ≠ idClearLog → r' = r) ∧ (id ≠ idStart → id ≠ idStop → y_live y' = y_live y ∧ y_starters y' = y_starters y ∧ y_stoppers y' = y_stoppers y).
Proof.
  intros Hret Hi Hw. unfold command.
  assert (Hp : ∀ b v, ∃ v', previewConfig inspect b v = Ok v').
  { intros b v0. unfold previewConfig. destruct (bool_decide _); [eauto|]. specialize (Hret (TrimSpace (v_config v0))). destruct (inspect _); try done; eauto. }
  assert (Ho : ∃ v', openRules inspect shell v = Ok v').
  { unfold openRules. destruct (bool_decide _); [eauto|]. specialize (Hret (TrimSpace (v_config v))). destruct (inspect _); try done; eauto. }
  assert (Hs : ∃ v', start_view inspect dialog y v = Ok v').
  { unfold start_view. destruct (_ || _); [eauto|].
    destruct (if bool_decide _ then _ else _) as [[path config]|]; [|eauto]. specialize (Hret path). destruct (inspect path); try done; eauto. }
  destruct (Z.eqb_spec id idBrowse) as [->|]; [destruct dialog as [p|]|].
  { destruct (Hp true (mkView p (v_groups v) (v_log v) (v_shown v))) as [v' ->]. rewrite bind_Ok. do 3 eexists. split_and!; [done|by apply clear_error_inv|done|done]. }
  { do 3 eexists. by split_and!. }
  destruct (Z.eqb_spec id idStart) as [->|].
  { destruct Hs as [v' ->]. rewrite bind_Ok. do 3 eexists. split_and!; [done|eapply step_user; [exact Hi|by constructor]|done|done]. }
  destruct (Z.eqb_spec id idStop) as [->|].
  { do 3 eexists. split_and!; [done|eapply step_user; [exact Hi|by constructor]|done|done]. }
  destruct (Z.eqb_spec id idRules) as [->|].
  { destruct Ho as [v' ->]. rewrite bind_Ok. do 3 eexists. by split_and!. }
  destruct (Z.eqb_spec id idOpenLog) as [->|]; [do 3 eexists; by split_and!|].
  destruct (Z.eqb_spec id idClearLog) as [->|]; do 3 eexists; by split_and!.
Qed.
(** The figure of [humanBytes] is within half a tenth of its unit, as long as the number
    is exact as a float. *)
Lemma humanBytes_close n d : 0 <= n < 2 ^ 53 → 0 < d → Z.abs (2 * (round_even (float64 n * 10) d * d - n * 10)) <= d.
Proof. intros Hn Hd. rewrite float64_small by done. by apply round_even_close. Qed.
