(* ===== verification/WinMain.v ===== *)
(** * The window as a whole: [main], [windowProc] and [createControls] of
    [cmd/splitwire/main_windows.go]

    The state of the user interface is the system of Gui.v, the log's ring, the texts
    and the status panel of GuiView.v and the places of the controls (GuiLayout.v).
    [windowProc] takes a message of the system apart and runs the handler, with the
    refreshes of the panel that the handlers make on the way.  The property is that the
    status line is right at all times, not only just after a refresh.  [main] is the
    list of what it does until the message loop ends. *)

From S2P Require Import Prelude Netip GoStrings Config Fmt Utf Win32 Tracker Runner HostPort BrowserProxy LogHub WinUtil Session Gui GuiText GuiLayout Status GuiView.
Local Open Scope Z_scope.

Record ui := mkUi { u_sys : system; u_ring : Ring; u_view : view; u_panel : panel; u_created : bool; u_layout : option controls; u_quit : bool }.
(** What the outside answers while a message is handled. *)
Record outside := mkOutside {
  o_dialog : option (list Z); o_shell : list Z → option string; o_inspect : list Z → Res Info;
  o_info : Info; o_status : Status; o_now : Z; o_zone : Z
}.
Definition set_sys (y : system) (u : ui) : ui := mkUi y (u_ring u) (u_view u) (u_panel u) (u_created u) (u_layout u) (u_quit u).
Definition set_view (v : view) (u : ui) : ui := mkUi (u_sys u) (u_ring u) v (u_panel u) (u_created u) (u_layout u) (u_quit u).
Definition set_panel (p : panel) (u : ui) : ui := mkUi (u_sys u) (u_ring u) (u_view u) p (u_created u) (u_layout u) (u_quit u).
Definition refresh (o : outside) (u : ui) : ui :=
  set_panel (refreshStatus (u_created u) (y_gui (u_sys u)) (o_info o) (o_status o) (o_now o) (o_zone o) (u_panel u)) u.

Definition wmCreate : Z := 0x0001.
Definition wmDestroy : Z := 0x0002.
Definition wmSize : Z := 0x0005.
Definition wmClose : Z := 0x0010.
Definition wmCommand : Z := 0x0111.
Definition wmTimer : Z := 0x0113.
Definition wmAppLog : Z := 0x8001.
Definition wmAppStartDone : Z := 0x8002.
Definition wmAppStopDone : Z := 0x8003.
Definition statusTimerID : Z := 1.
Definition number (m : message) : Z := match m with StartDone => wmAppStartDone | StopDone => wmAppStopDone end.

Section Proc.
Context {U : Unicode} (logPath initialConfig : list Z).

(** [mk]: the controls in the order they are made, with class, text, style and id. *)
Record control := mkControl { ct_class : list Z; ct_text : list Z; ct_style : Z; ct_id : Z }.
Definition wsChild : Z := 0x40000000.
Definition wsVisible : Z := 0x10000000.
Definition wsTabStop : Z := 0x00010000.
Definition wsBorder : Z := 0x00800000.
Definition wsVScroll : Z := 0x00200000.
Definition wsHScroll : Z := 0x00100000.
Definition esMultiline : Z := 0x0004.
Definition esAutoVScroll : Z := 0x0040.
Definition esAutoHScroll : Z := 0x0080.
Definition esReadOnly : Z := 0x0800.
Definition bsPushButton : Z := 0.
Definition bsGroupBox : Z := 7.
Definition styles (l : list Z) : Z := fold_left Z.lor l 0.
Definition mk (class : string) (text : list Z) (style id : Z) : control := mkControl (lit class) text (styles [style; wsChild; wsVisible]) id.
Definition push := styles [bsPushButton; wsTabStop].
Definition text_area := styles [wsBorder; wsVScroll; wsHScroll; esMultiline; esAutoVScroll; esAutoHScroll; esReadOnly].
Definition first_groups : list Z := lit "Выберите конфиг для просмотра правил.".
Definition first_panel : panel :=
  mkPanel state_stopped (lit "Сеть: —") (lit "WireGuard: —") (lit "Доменные правила: —") (lit "Трафик WG: TX 0 B / RX 0 B") (lit "Пакеты: 0").
Definition made_controls : list control := [
  mk "STATIC" (lit "Конфиг:") 0 0;
  mk "EDIT" initialConfig (styles [wsBorder; wsTabStop; esAutoHScroll]) 1001;
  mk "BUTTON" (lit "Обзор…") push idBrowse;
  mk "BUTTON" (lit "Подключить") push idStart;
  mk "BUTTON" (lit "Отключить") push idStop;
  mk "BUTTON" (lit "Правила") push idRules;
  mk "BUTTON" (lit "Состояние") bsGroupBox 0;
  mk "STATIC" (stateText first_panel) 0 1006;
  mk "STATIC" (networkText first_panel) 0 1007;
  mk "STATIC" (handshakeText first_panel) 0 1008;
  mk "STATIC" (proxyText first_panel) 0 1009;
  mk "STATIC" (trafficText first_panel) 0 1010;
  mk "STATIC" (packetsText first_panel) 0 1011;
  mk "BUTTON" (lit "Группы маршрутизации") bsGroupBox 0;
  mk "EDIT" first_groups text_area 1012;
  mk "BUTTON" (lit "Лог") bsGroupBox 0;
  mk "EDIT" [] text_area 1013;
  mk "BUTTON" (lit "Открыть лог") push idOpenLog;
  mk "BUTTON" (lit "Очистить окно") push idClearLog ].
(** [createControls]: the controls, and the texts they have when it returns. *)
Definition createControls (o : outside) (u : ui) : Res ui :=
  let v := mkView initialConfig first_groups (normalizeEditNewlines (Snapshot (u_ring u))) (v_shown (u_view u)) in
  v ← (if bool_decide (initialConfig = []) then Ok v else previewConfig (o_inspect o) false v);
  Ok (mkUi (u_sys u) (u_ring u) v first_panel true (u_layout u) (u_quit u)).

(** Whether the handler of a command goes on to a refresh. *)
Definition start_refreshes (o : outside) (u : ui) : bool :=
  let g := y_gui (u_sys u) in
  negb (g_starting g || g_stopping g || is_some (g_session g)) &&
  (negb (bool_decide (TrimSpace (v_config (u_view u)) = [])) || is_some (o_dialog o)).
Definition stop_refreshes (u : ui) : bool :=
  let g := y_gui (u_sys u) in g_starting g || (is_some (g_session g) && negb (g_stopping g)).
Definition on_command (o : outside) (id : Z) (u : ui) : Res ui :=
  '(y, r, v) ← command (o_inspect o) id (o_dialog o) (o_shell o) logPath (u_sys u) (u_ring u) (u_view u);
  let u' := mkUi y r v (u_panel u) (u_created u) (u_layout u) (u_quit u) in
  Ok (if ((id =? idStart) && start_refreshes o u) || ((id =? idStop) && stop_refreshes u) then refresh o u' else u').
Definition on_startDone (o : outside) (u : ui) : ui :=
  let u' := set_view (finish_view (o_info o) (u_sys u) (u_view u)) (set_sys (finishStart (u_sys u)) u) in
  if is_some (g_startResults (y_gui (u_sys u))) then refresh o u' else u'.
Definition on_stopDone (o : outside) (u : ui) : ui :=
  let g := y_gui (u_sys u) in
  let u' := set_sys (finishStop (u_sys u)) u in
  if negb (is_some (g_stopResults g)) && g_starting g then u' else refresh o u'.
Definition on_log (u : ui) : ui :=
  let '(r, edit) := refreshLogRing (u_ring u) (v_log (u_view u)) in
  mkUi (u_sys u) r (mkView (v_config (u_view u)) (v_groups (u_view u)) edit (v_shown (u_view u))) (u_panel u) (u_created u) (u_layout u) (u_quit u).

(** [windowProc] while the window's state is there ([activeGUI]); the system's own
    handling of other messages leaves it alone. *)
Definition windowProc (o : outside) (message wParam lParam : Z) (u : ui) : Res ui :=
  if message =? wmCreate then createControls o u
  else if message =? wmSize then
    let '(w, h) := sizeFromLParam lParam in
    Ok (mkUi (u_sys u) (u_ring u) (u_view u) (u_panel u) (u_created u) (Some (layout w h)) (u_quit u))
  else if message =? wmCommand then on_command o (lowWord wParam) u
  else if message =? wmTimer then Ok (if wParam =? statusTimerID then refresh o u else u)
  else if message =? wmAppLog then Ok (if u_created u then on_log u else u)
  else if message =? wmAppStartDone then Ok (on_startDone o u)
  else if message =? wmAppStopDone then Ok (on_stopDone o u)
  else if message =? wmClose then Ok (set_sys (closeWindow (u_sys u)) u)
  else if message =? wmDestroy then Ok (mkUi (u_sys u) (u_ring u) (u_view u) (u_panel u) (u_created u) (u_layout u) true)
  else Ok u.

(** ** Steps *)
(** A message of the queue, an input of the user or the system, a turn of a goroutine. *)
Inductive ui_step : ui → ui → Prop :=
  | ui_message o u u' m q : y_window (u_sys u) = true → y_queue (u_sys u) = m :: q →
      windowProc o (number m) 0 0 (set_sys (set_queue q (u_sys u)) u) = Ok u' → ui_step u u'
  | ui_input o u u' message wParam lParam : y_window (u_sys u) = true → (∀ path, returns (o_inspect o path)) →
      message ∉ [wmCreate; wmAppStartDone; wmAppStopDone] → windowProc o message wParam lParam u = Ok u' → ui_step u u'
  | ui_starter u l1 g l2 outcome gs y' : y_starters (u_sys u) = l1 ++ g :: l2 → starter_step outcome g (u_sys u) = Some (gs, y') →
      ui_step u (set_sys (set_starters (l1 ++ gs ++ l2) y') u)
  | ui_stopper u l1 g l2 err gs y' : y_stoppers (u_sys u) = l1 ++ g :: l2 → stopper_step err g (u_sys u) = Some (gs, y') →
      ui_step u (set_sys (set_stoppers (l1 ++ gs ++ l2) y') u).
(** After [main] has created the window and refreshed the panel. *)
Definition opened (o : outside) (ring : Ring) (u : ui) : Prop :=
  ∃ u0, createControls o (mkUi initial ring (mkView [] [] [] []) first_panel false None false) = Ok u0 ∧ u = refresh o u0.
End Proc.

(** ** The status line is right at all times *)
Definition line_ok (g : gui) (line : list Z) : Prop :=
  if g_starting g then line = state_starting
  else if g_stopping g then line = state_stopping
  else match g_session g with
       | None => line = state_stopped ∨ ∃ e, line = state_error ++ oneLine e 90
       | Some _ => line ∈ running_texts
       end.
(** The fields that decide about the line. *)
Definition same_phase (g g' : gui) : Prop := g_starting g' = g_starting g ∧ g_stopping g' = g_stopping g ∧ g_session g' = g_session g.
Lemma line_ok_phase g g' line : same_phase g g' → line_ok g line → line_ok g' line.
Proof. intros (E1 & E2 & E3). unfold line_ok. by rewrite E1, E2, E3. Qed.
Lemma refresh_line g info s now zone p : line_ok g (stateText (refreshStatus true g info s now zone p)).
Proof.
  unfold line_ok, refreshStatus. cbn [negb]. destruct (g_starting g); [done|]. destruct (g_stopping g); [done|]. destruct (g_session g).
  - destruct (LastHandshake s) as [t|]; [destruct (_ <=? _)|]; cbn [stateText]; unfold running_texts; repeat first [by left|right].
  - cbn [stateText]. destruct (bool_decide _); [by left|right; by eexists].
Qed.
Lemma starter_phase outcome g y gs y' : starter_step outcome g y = Some (gs, y') → same_phase (y_gui y) (y_gui y').
Proof.
  destruct g as [ctx|ctx|r|r|]; cbn; intros E.
  - destruct outcome; [|destruct (is_cancelled _ _); [done|]]; by injection E as <- <-.
  - by injection E as <- <-.
  - destruct (sr_s r); [destruct (y_root y)|]; by injection E as <- <-.
  - destruct (is_some _); [done|]. by injection E as <- <-.
  - injection E as <- <-. unfold post. by destruct (y_window y).
Qed.
Lemma stopper_phase err g y gs y' : stopper_step err g y = Some (gs, y') → same_phase (y_gui y) (y_gui y').
Proof.
  destruct g as [s c|e|]; cbn; intros E.
  - injection E as <- <-. by destruct c.
  - destruct (is_some _); [done|]. by injection E as <- <-.
  - injection E as <- <-. unfold post. by destruct (y_window y).
Qed.
Lemma close_phase y : same_phase (y_gui y) (y_gui (closeWindow y)).
Proof.
  unfold closeWindow. destruct (g_closing (y_gui y)); [done|]. destruct y as [g st sp q li ca ro wi nx]. cbn. destruct g as [se sc stc sta stp cl le sr pr b1 b2]. cbn.
  destruct stc, se, sc; by split_and!.
Qed.

Record ui_ok (u : ui) : Prop := mkUiOk {
  ok_inv : inv (u_sys u); ok_created : u_created u = true; ok_line : line_ok (y_gui (u_sys u)) (stateText (u_panel u)) }.
Lemma refresh_ok o u : inv (u_sys u) → u_created u = true → ui_ok (refresh o u).
Proof. intros Hi Hc. split; cbn; [done|done|]. rewrite Hc. apply refresh_line. Qed.
Lemma keep_ok u u' : ui_ok u → inv (u_sys u') → u_created u' = true → u_panel u' = u_panel u → same_phase (y_gui (u_sys u)) (y_gui (u_sys u')) → ui_ok u'.
Proof. intros [H1 H2 H3] Hi Hc Hp Hs. split; try done. rewrite Hp. by eapply line_ok_phase. Qed.

Section Always.
Context {U : Unicode} (logPath initialConfig : list Z).
Lemma on_command_ok o id u u' : (∀ path, returns (o_inspect o path)) → ui_ok u → y_window (u_sys u) = true → on_command logPath o id u = Ok u' → ui_ok u'.
Proof.
  intros Hret Hu Hw E. pose proof Hu as [Hi Hc Hl]. unfold on_command in E.
  destruct (command_sound (o_inspect o) id (o_dialog o) (o_shell o) logPath (u_sys u) (u_ring u) (u_view u) Hret Hi Hw) as (y & r & v & Ec & Hi' & _ & Hother).
  rewrite Ec, bind_Ok in E. cbv beta iota zeta in E. injection E as <-.
  destruct ((id =? idStart) && start_refreshes o u || (id =? idStop) && stop_refreshes u) eqn:Er; [by apply refresh_ok|].
  apply orb_false_iff in Er as [Er1 Er2]. apply (keep_ok u); try done. cbn [u_sys]. unfold command in Ec.
  destruct (Z.eqb_spec id idBrowse) as [->|].
  { destruct (o_dialog o); [|by injection Ec as <- _ _]. apply bind_Ok_inv in Ec as (v1 & _ & Ec). by injection Ec as <- _ _. }
  destruct (Z.eqb_spec id idStart) as [->|].
  { apply bind_Ok_inv in Ec as (v1 & _ & Ec). injection Ec as <- _ _. cbn [andb] in Er1. unfold start_refreshes in Er1. unfold beginStart.
    destruct (_ || _ || _); [done|]. cbn [negb andb] in Er1. apply orb_false_iff in Er1 as [Eb Ed]. apply negb_false_iff in Eb. rewrite Eb. by destruct (o_dialog o). }
  destruct (Z.eqb_spec id idStop) as [->|].
  { injection Ec as <- _ _. cbn [andb] in Er2. unfold stop_refreshes in Er2. unfold beginStop. destruct (g_starting (y_gui (u_sys u))); [done|]. cbn [orb] in Er2.
    destruct (g_session (y_gui (u_sys u))) as [s|]; [|done]. cbn in Er2. apply negb_false_iff in Er2. by rewrite Er2. }
  destruct (Z.eqb_spec id idRules) as [->|]; [apply bind_Ok_inv in Ec as (v1 & _ & Ec); by injection Ec as <- _ _|].
  destruct (Z.eqb_spec id idOpenLog) as [->|]; [by injection Ec as <- _ _|]. destruct (Z.eqb_spec id idClearLog) as [->|]; by injection Ec as <- _ _.
Qed.
Lemma ui_step_ok u u' : ui_ok u → ui_step logPath initialConfig u u' → ui_ok u'.
Proof.
  intros Hu Hs. pose proof Hu as [Hi Hc Hl]. destruct Hs as [o u u' m q Hw Hq E|o u u' msg wp lp Hw Hret Hm E|u l1 g l2 outcome gs y' El E|u l1 g l2 err gs y' El E].
  - pose proof (step_message (u_sys u) m q Hi Hw Hq) as Hi'. set (u1 := set_sys (set_queue q (u_sys u)) u) in *.
    destruct m; cbn in E; injection E as <-.
    + unfold on_startDone. cbn [u_sys set_sys u1]. change (g_startResults (y_gui (set_queue q (u_sys u)))) with (g_startResults (y_gui (u_sys u))).
      destruct (g_startResults (y_gui (u_sys u))) as [r|] eqn:Er; cbn [is_some]; [by apply refresh_ok|]. apply (keep_ok u); try done.
      cbn. unfold finishStart. cbn. by rewrite Er.
    + unfold on_stopDone. cbn [u_sys set_sys u1]. change (y_gui (set_queue q (u_sys u))) with (y_gui (u_sys u)).
      destruct (negb _ && _) eqn:Eb; [|by apply refresh_ok]. apply andb_true_iff in Eb as [E1 E2]. apply (keep_ok u); try done.
      cbn. unfold finishStop. cbn. destruct (g_stopResults (y_gui (u_sys u))); [done|]. by rewrite E2.
  - rewrite !not_elem_of_cons in Hm. destruct Hm as (Hm1 & Hm2 & Hm3 & _). unfold windowProc in E.
    rewrite (proj2 (Z.eqb_neq _ _) Hm1), (proj2 (Z.eqb_neq _ _) Hm2), (proj2 (Z.eqb_neq _ _) Hm3) in E.
    destruct (msg =? wmSize); [destruct (sizeFromLParam lp); injection E as <-; by apply (keep_ok u)|].
    destruct (msg =? wmCommand); [by eapply on_command_ok|].
    destruct (msg =? wmTimer); [injection E as <-; destruct (wp =? _); [by apply refresh_ok|done]|].
    destruct (msg =? wmAppLog).
    { rewrite Hc in E. injection E as <-. unfold on_log. destruct (refreshLogRing _ _). apply (keep_ok u); done. }
    destruct (msg =? wmClose).
    { injection E as <-. apply (keep_ok u); try done; [|apply close_phase]. eapply step_user; [exact Hi|by constructor]. }
    destruct (msg =? wmDestroy); injection E as <-; [by apply (keep_ok u)|done].
  - apply (keep_ok u); try done; [by eapply step_starter|]. cbn. by eapply starter_phase.
  - apply (keep_ok u); try done; [by eapply step_stopper|]. cbn. by eapply stopper_phase.
Qed.
Lemma opened_ok o ring u : (∀ path, returns (o_inspect o path)) → opened initialConfig o ring u → ui_ok u.
Proof.
  intros Hret (u0 & E & ->). unfold createControls in E. apply bind_Ok_inv in E as (v & _ & E). injection E as <-. apply refresh_ok; [apply inv_initial|done].
Qed.
Lemma always_ok o ring u u' : (∀ path, returns (o_inspect o path)) → opened initialConfig o ring u → rtc (ui_step logPath initialConfig) u u' → ui_ok u'.
Proof. intros Hret Ho Hr. pose proof (opened_ok o ring u Hret Ho) as Hok. clear Ho. induction Hr as [|u1 u2 u3 H12 _ IH]; [done|]. apply IH. by eapply ui_step_ok. Qed.

(** What a step of the window is to the controller. *)
Lemma ui_step_sys u u' : ui_step logPath initialConfig u u' →
  u_sys u' = u_sys u ∨ u_sys u' = clear_error (u_sys u) ∨ internal (u_sys u) (u_sys u') ∨ user (u_sys u) (u_sys u').
Proof.
  intros Hs. destruct Hs as [o u u' m q Hw Hq E|o u u' msg wp lp Hw Hret Hm E|u l1 g l2 outcome gs y' El E|u l1 g l2 err gs y' El E].
  - right; right; left. assert (Ey : u_sys u' = handle m (set_queue q (u_sys u))).
    { destruct m; cbn in E; injection E as <-; [unfold on_startDone|unfold on_stopDone]; cbn [u_sys set_sys]; by case_match. }
    rewrite Ey. by constructor.
  - rewrite !not_elem_of_cons in Hm. destruct Hm as (Hm1 & Hm2 & Hm3 & _). unfold windowProc in E.
    rewrite (proj2 (Z.eqb_neq _ _) Hm1), (proj2 (Z.eqb_neq _ _) Hm2), (proj2 (Z.eqb_neq _ _) Hm3) in E.
    destruct (msg =? wmSize); [destruct (sizeFromLParam lp); injection E as <-; by left|].
    destruct (msg =? wmCommand).
    { unfold on_command in E. apply bind_Ok_inv in E as ([[y r] v] & Ec & E). injection E as <-.
      assert (Hy : y = u_sys u ∨ y = clear_error (u_sys u) ∨ user (u_sys u) y).
      { unfold command in Ec. repeat case_match; try (apply bind_Ok_inv in Ec as (v1 & _ & Ec)); injection Ec as <- _ _; auto;
          right; right; by constructor. }
      assert (Es : ∀ b u2, u_sys (if b : bool then refresh o u2 else u2) = u_sys u2) by (by intros [] ?). rewrite Es. tauto. }
    destruct (msg =? wmTimer); [injection E as <-; left; by destruct (wp =? _)|].
    destruct (msg =? wmAppLog); [injection E as <-; left; destruct (u_created u); [unfold on_log; by destruct (refreshLogRing _ _)|done]|].
    destruct (msg =? wmClose); [injection E as <-; right; right; right; by constructor|].
    destruct (msg =? wmDestroy); injection E as <-; by left.
  - right; right; left. by apply (in_start (u_sys u) l1 g l2 outcome gs y').
  - right; right; left. by apply (in_stop (u_sys u) l1 g l2 err gs y').
Qed.
(** Runs in which Stop is never pressed while a start is under way. *)
Definition patient_step (u u' : ui) : Prop := ui_step logPath initialConfig u u' ∧ ¬ stop_in_start (u_sys u').
Lemma patient_ctx o ring u u' : (∀ path, returns (o_inspect o path)) → opened initialConfig o ring u → rtc patient_step u u' → ctx_ok (u_sys u').
Proof.
  intros Hret Ho Hr. pose proof (opened_ok o ring u Hret Ho) as Hok. assert (Hx : ctx_ok (u_sys u)).
  { destruct Ho as (u0 & E & ->). unfold createControls in E. apply bind_Ok_inv in E as (v & _ & E). injection E as <-. apply ctx_initial. }
  clear Ho. induction Hr as [|u1 u2 u3 [H12 Hn] _ IH]; [done|]. apply IH; [by eapply ui_step_ok|].
  pose proof (ok_inv _ Hok) as Hi. destruct (ui_step_sys _ _ H12) as [->|[->|[H|H]]]; [done| |by eapply ctx_internal|by eapply ctx_user].
  intros Hw. destruct (Hx Hw) as [H1 H2 H3]. by split.
Qed.
End Always.

Lemma error_differs e : state_error ++ e ∉ state_starting :: state_stopping :: state_stopped :: running_texts.
Proof.
  assert (H : ∀ x, take 26 x ≠ take 26 state_error → state_error ++ e ≠ x) by (intros x Hx E; apply Hx; rewrite <- E; reflexivity).
  unfold running_texts. rewrite !not_elem_of_cons. split_and!; try (apply H; vm_compute; discriminate). apply not_elem_of_nil.
Qed.
Lemma phase_texts : state_starting ∉ state_stopped :: running_texts ∧ state_stopping ∉ state_stopped :: running_texts ∧ state_stopped ∉ running_texts.
Proof. split_and!; apply (bool_decide_unpack _); vm_compute; done. Qed.

(** One session is started and not closed, and nothing else is under way: no goroutine
    starts or stops one, and no result of such a goroutine waits to be taken. *)
Definition in_service (y : system) : Prop :=
  (∃ i, y_live y = [i]) ∧ y_starters y = [] ∧ y_stoppers y = [] ∧ g_startResults (y_gui y) = None ∧ g_stopResults (y_gui y) = None.
Lemma in_service_running y : inv y → y_window y = true → in_service y ↔ is_running (y_gui y).
Proof.
  intros Hi Hw. split.
  - intros ([i Hl] & E1 & E2 & E3 & E4). destruct Hi as [(P & Hs & _) (Q & still & Hq & _ & Hlv) H1 _ _ _].
    assert (Es : g_starting (y_gui y) = false) by (rewrite E1, E3 in Hs; by inversion Hs). rewrite E2, E4, Es, andb_true_r in Hq.
    assert (Hst : g_stopping (y_gui y) = false ∧ still = true) by (by inversion Hq). destruct Hst as [Est ->]. split_and!; [done|done|].
    unfold live_of in Hlv. rewrite Hl, E1, E3, Hw in Hlv. cbn in Hlv. destruct (g_session (y_gui y)); [by eexists|done].
  - intros Hr. destruct (inv_running y Hi Hw Hr) as (i & _ & Hl). destruct Hr as (E1 & E2 & _).
    destruct Hi as [(P & Hs & _) (Q & still & Hq & _) _ _ _ _]. rewrite E1 in Hs. rewrite E1, E2 in Hq. cbn in Hq.
    assert (H1 : y_starters y = [] ∧ g_startResults (y_gui y) = None) by (by inversion Hs).
    assert (H2 : y_stoppers y = [] ∧ g_stopResults (y_gui y) = None) by (by inversion Hq).
    destruct H1, H2. split_and!; eauto.
Qed.

(** C17: the status line and the sessions agree at all times: from the moment the window
    is open, after any messages, clicks and turns of the goroutines that start and stop
    sessions, and whatever files, dialogs and the system answer, the line on the screen
    says that a session is running exactly when one has been started and not closed and
    no start or stop is under way or waiting to be taken up; and while it says stopped or
    shows an error, every session is closed and no start or stop is under way.  Moreover,
    if Stop was never pressed while a start was under way, then a session that the line
    calls running has a context that is not cancelled.  (If it was, the context can be
    cancelled and the line still say running: [Gui.stop_is_lost] is such a run.) *)
Theorem status_line_always {U : Unicode} (logPath initialConfig : list Z) (o : outside) (ring : Ring) (u u' : ui) :
  (∀ path, returns (o_inspect o path)) → opened initialConfig o ring u → rtc (ui_step logPath initialConfig) u u' → y_window (u_sys u') = true →
  let line := stateText (u_panel u') in
  let y := u_sys u' in
  (line ∈ running_texts ↔ in_service y) ∧
  (line = state_stopped ∨ (∃ e, line = state_error ++ e) → y_live y = [] ∧ y_starters y = [] ∧ y_stoppers y = []) ∧
  (rtc (patient_step logPath initialConfig) u u' → line ∈ running_texts →
    ∃ i c, y_live y = [i] ∧ g_session (y_gui y) = Some i ∧ g_sessionCancel (y_gui y) = Some c ∧ is_cancelled c y = false).
Proof.
  intros Hret Ho Hr Hw line y. destruct (always_ok logPath initialConfig o ring u u' Hret Ho Hr) as [Hi _ Hl].
  pose proof (fun H => patient_ctx logPath initialConfig o ring u u' Hret Ho H) as Hctx. fold line y in Hl, Hi, Hw, Hctx.
  rewrite (in_service_running y Hi Hw).
  assert (Hline : (line ∈ running_texts ↔ is_running (y_gui y)) ∧
    (line = state_stopped ∨ (∃ e, line = state_error ++ e) → y_live y = [] ∧ y_starters y = [] ∧ y_stoppers y = [])).
  { clear Hctx. clearbody line y. destruct phase_texts as (P1 & P2 & P3). apply not_elem_of_cons in P1 as [P1 P1'], P2 as [P2 P2'].
    assert (Herr : ∀ e x, state_error ++ e = x → x ∉ state_starting :: state_stopping :: state_stopped :: running_texts) by (intros e x <-; apply error_differs).
    unfold line_ok in Hl. destruct (g_starting (y_gui y)) eqn:E1; [subst line|destruct (g_stopping (y_gui y)) eqn:E2; [subst line|destruct (g_session (y_gui y)) as [i|] eqn:E3]].
    - split; [split; [done|by intros (H & _); congruence]|]. intros [H|[e H]]; [congruence|]. destruct (Herr e state_starting); [done|by left].
    - split; [split; [done|by intros (_ & H & _); congruence]|]. intros [H|[e H]]; [congruence|]. destruct (Herr e state_stopping); [done|by right; left].
    - assert (Hrun : is_running (y_gui y)) by (split_and!; eauto). split; [done|]. intros [->|[e ->]]; [done|]. destruct (Herr e _ eq_refl). by do 3 right.
    - assert (Hnl : line ∉ running_texts) by (destruct Hl as [->|[e ->]]; [done|]; intros Hin; destruct (Herr (oneLine e 90) _ eq_refl); by do 3 right).
      assert (Hnr : ¬ is_running (y_gui y)) by (intros (_ & _ & [? ?]); congruence). split; [tauto|]. intros _. by apply inv_stopped. }
  destruct Hline as [H1 H2]. split_and!; [done|done|]. intros Hp Hin. apply H1 in Hin. destruct (inv_running y Hi Hw Hin) as (i & Es & Hlive).
  destruct (Hctx Hp Hw) as [_ _ Hse]. destruct Hin as (_ & Est & _). destruct (Hse i Es Est) as (c & Ec & Hc). exists i, c. split_and!; try done.
  unfold is_cancelled. destruct Hi as [_ _ _ [_ Hroot] _ _]. rewrite Hroot, Hw. cbn [negb orb]. by apply bool_decide_eq_false_2.
Qed.

(** ** A run of the window *)
#[local] Existing Instance ascii_unicode.
Definition demo_outside : outside :=
  mkOutside None (fun _ => None) (fun _ => Ok demo_info) demo_info demo_status (75 * sec) 3600.
Definition demo_created : ui := mkUi initial (NewRing 4096) (mkView (lit "c.conf") (formatGroups demo_info) [] []) first_panel true None false.
Definition demo_open : ui := refresh demo_outside demo_created.
Definition turn (u : ui) : ui :=
  match y_starters (u_sys u) with
  | g :: l => match starter_step None g (u_sys u) with Some (gs, y') => set_sys (set_starters (gs ++ l) y') u | None => u end
  | [] => u
  end.
Definition running_line (u : ui) : bool := bool_decide (stateText (u_panel u) ∈ running_texts).
#[export] Instance stop_in_start_dec y : base.Decision (stop_in_start y).
Proof. unfold stop_in_start. apply _. Defined.
Lemma turn_step lp ic u : ¬ stop_in_start (u_sys (turn u)) → rtc (patient_step lp ic) u (turn u).
Proof.
  unfold turn. destruct (y_starters (u_sys u)) as [|g l] eqn:E; [intros; apply rtc_refl|]. destruct (starter_step None g (u_sys u)) as [[gs y']|] eqn:Eg; [|intros; apply rtc_refl].
  intros Hn. apply rtc_once. split; [|done]. by apply (ui_starter lp ic u [] g l None gs y').
Qed.
Lemma patient_steps lp ic u u' : rtc (patient_step lp ic) u u' → rtc (ui_step lp ic) u u'.
Proof. intros H. induction H as [|u1 u2 u3 [H12 _] _ IH]; [apply rtc_refl|]. by eapply rtc_l. Qed.
Definition unwrap (u : ui) (r : Res ui) : ui := match r with Ok x => x | _ => u end.
Definition demo_started : ui := unwrap demo_open (windowProc (lit "l") (lit "c.conf") demo_outside wmCommand idStart 0 demo_open).
Definition demo_waiting : ui := turn (turn (turn (turn (turn demo_started)))).
Definition demo_running : ui :=
  unwrap demo_open (windowProc (lit "l") (lit "c.conf") demo_outside wmAppStartDone 0 0 (set_sys (set_queue [] (u_sys demo_waiting)) demo_waiting)).
Lemma demo_patient : rtc (patient_step (lit "l") (lit "c.conf")) demo_open demo_running.
Proof.
  assert (Hret : ∀ path, returns (o_inspect demo_outside path)) by (intros path; exact I).
  transitivity demo_started; [apply rtc_once; split; [|apply (bool_decide_unpack _); vm_compute; exact I]|transitivity demo_waiting].
  - apply (ui_input (lit "l") (lit "c.conf") demo_outside demo_open demo_started wmCommand idStart 0); [reflexivity|exact Hret| |vm_compute; reflexivity].
    apply (bool_decide_unpack _). vm_compute. exact I.
  - unfold demo_waiting. do 4 (etransitivity; [apply turn_step; apply (bool_decide_unpack _); vm_compute; exact I|]). apply turn_step. apply (bool_decide_unpack _). vm_compute. exact I.
  - apply rtc_once. split; [|apply (bool_decide_unpack _); vm_compute; exact I].
    apply (ui_message (lit "l") (lit "c.conf") demo_outside demo_waiting demo_running StartDone []); vm_compute; reflexivity.
Qed.
Lemma status_line_always_witness : running_line demo_running = true ∧ in_service (u_sys demo_running) ∧
  ∃ c, g_sessionCancel (y_gui (u_sys demo_running)) = Some c ∧ is_cancelled c (u_sys demo_running) = false.
Proof.
  assert (Hret : ∀ path, returns (o_inspect demo_outside path)) by (intros path; exact I).
  assert (Ho : opened (lit "c.conf") demo_outside (NewRing 4096) demo_open) by (exists demo_created; split; [vm_compute; reflexivity|unfold demo_open; reflexivity]).
  assert (Hw : y_window (u_sys demo_running) = true) by (vm_compute; reflexivity).
  assert (Hline : running_line demo_running = true) by (vm_compute; reflexivity).
  destruct (status_line_always (lit "l") (lit "c.conf") demo_outside (NewRing 4096) demo_open demo_running Hret Ho
    (patient_steps _ _ _ _ demo_patient) Hw) as (Hiff & _ & Hctx).
  assert (Hin : stateText (u_panel demo_running) ∈ running_texts) by (exact (bool_decide_unpack _ (Is_true_eq_left _ Hline))).
  split; [exact Hline|]. split; [apply Hiff; exact Hin|]. destruct (Hctx demo_patient Hin) as (i & c & _ & _ & H). exists c. exact H.
Defined.

(** Every control that can be addressed has a number of its own, and the buttons that
    [command] knows are exactly those that can be pressed. *)
Definition pushed (c : control) : bool := bool_decide (ct_class c = lit "BUTTON") && (Z.land (ct_style c) 0xF =? bsPushButton).
Lemma controls_addressed ic : NoDup (List.filter (fun i => negb (i =? 0)) (map ct_id (made_controls ic))) ∧
  map ct_id (List.filter pushed (made_controls ic)) = [idBrowse; idStart; idStop; idRules; idOpenLog; idClearLog].
Proof. split; [apply (bool_decide_unpack _)|]; vm_compute; done. Qed.

(** ** [main] *)
(** What the outside answers at startup, and what is done in turn; a deferred call runs
    when [main] returns, the last one first. *)
Record startup := mkStartup {
  su_dir : Res (list Z); su_admin : bool; su_relaunch : option string; su_log : option string;
  su_args : list (list Z); su_last : list Z; su_register : option string; su_hwnd : Z
}.
Inductive effect :=
  | Told (text : list Z)                 (** a message box *)
  | Relaunched
  | HistoryRead
  | LogOpened
  | LogClosed
  | RootCancelled
  | StateCleared                        (** [activeGUI = nil] *)
  | ClassRegistered
  | WindowCreated (config : list Z)      (** with the path shown in it *)
  | NotifySet
  | Shown
  | TimerSet
  | Refreshed
  | Looped.
(** [AppDir] *)
Definition AppDir (executable : Res (list Z)) (dirOf : list Z → list Z) : Res (list Z) := exe ← executable; Ok (dirOf exe).
Definition tell_error (e : option string) : list effect := match e with Some e => [Told (lit e)] | None => [] end.
Section Main.
Context {U : Unicode} (Abs : list Z → option (list Z)).
Definition initial_config (s : startup) : list Z :=
  let c := configArg Abs (su_args s) in if bool_decide (c = []) then su_last s else c.
Definition main (s : startup) : list effect :=
  match su_dir s with
  | Err e => [Told (lit e)]
  | Ok dir =>
      if negb (su_admin s) then
        Relaunched :: match su_relaunch s with
                      | Some e => [Told (lit "Не удалось запросить права администратора:" ++ [10] ++ lit e)]
                      | None => []
                      end
      else
        HistoryRead ::
        match su_log s with
        | Some e => [Told (lit "Не удалось открыть лог:" ++ [10] ++ lit e)]
        | None =>
            let deferred := [StateCleared; RootCancelled; LogClosed] in
            LogOpened ::
            match su_register s with
            | Some e => Told (lit e) :: deferred
            | None =>
                ClassRegistered ::
                (if su_hwnd s =? 0 then Told (lit "CreateWindowExW failed") :: deferred
                 else [WindowCreated (initial_config s); NotifySet; Shown; TimerSet; Refreshed; Looped] ++ deferred)
            end
        end
  | Panic | OutOfFuel => []
  end.
(** The ring that the log control starts from, filled with the end of the old log. *)
Definition history_limit : Z := Z.shiftl 160 10.
Definition ring_limit : Z := Z.shiftl 256 10.
Definition first_ring (file : option (list Z)) : Res Ring :=
  history ← tailFile file history_limit;
  Seed history (NewRing ring_limit).
(** It is made whatever the file holds, keeps all of what was read of it, and the first
    refresh of the control shows exactly that. *)
Lemma first_ring_spec file : ∃ history r, tailFile file history_limit = Ok history ∧ first_ring file = Ok r ∧
  Snapshot r = history ∧ snd (refreshLogRing r []) = normalizeEditNewlines history.
Proof.
  assert (Hh : ∃ h, tailFile file history_limit = Ok h ∧ blen h <= history_limit).
  { destruct file as [c|]; [|exists []; split; [done|vm_compute; discriminate]].
    destruct (tailFile_spec c history_limit ltac:(vm_compute; discriminate)) as (a & b & E & _ & Hb & _). eauto. }
  destruct Hh as (h & E & Hl). unfold first_ring. rewrite E, bind_Ok. unfold Seed.
  assert (El : last_bytes (r_maxBytes (NewRing ring_limit)) (r_buf (NewRing ring_limit) ++ h) = h).
  { change (r_buf (NewRing ring_limit) ++ h) with h. apply last_bytes_le. etrans; [exact Hl|]. vm_compute. discriminate. }
  rewrite append_spec, bind_Ok, El by (vm_compute; done). exists h. eexists. split_and!; [done|done|done|].
  unfold refreshLogRing, DrainAndAck. cbn [r_resync r_buf Text Replace snd]. done.
Qed.
(** A window is there only with administrator rights and an open log; the log that was
    opened is closed last, after everything that may still write to it is cancelled;
    without the rights nothing but the relaunch happens; and unless the window came up or
    the relaunch was accepted the user is told why. *)
Lemma main_spec s : returns (su_dir s) →
  let es := main s in
  (∀ c, WindowCreated c ∈ es → su_admin s = true ∧ su_log s = None ∧ LogOpened ∈ es ∧ c = initial_config s) ∧
  (LogOpened ∈ es → ∃ pre, es = pre ++ [StateCleared; RootCancelled; LogClosed] ∧ LogClosed ∉ pre) ∧
  (is_Ok (su_dir s) = true → su_admin s = false → Relaunched ∈ es ∧ HistoryRead ∉ es ∧ LogOpened ∉ es) ∧
  (Looped ∈ es ∨ (∃ t, Told t ∈ es) ∨ (Relaunched ∈ es ∧ su_relaunch s = None)).
Proof.
  intros Hd. unfold main. destruct (su_dir s) as [dir|e| |]; try done.
  2: { split_and!; [intros c H|intros H|done|right; left; eexists; left]; apply list_elem_of_singleton in H; done. }
  destruct (su_admin s); cbn [negb].
  2: { destruct (su_relaunch s) as [e|]; (split_and!; [intros c H; set_solver|intros H; set_solver|intros _ _; split_and!; set_solver|]);
       [right; left; eexists; right; left|right; right; split; [left|done]]. }
  destruct (su_log s) as [e|].
  { split_and!; [intros c H; set_solver|intros H; set_solver|done|right; left; eexists; right; left]. }
  destruct (su_register s) as [e|].
  { split_and!; [intros c H; set_solver| |done|right; left; eexists; right; right; left].
    intros _. exists [HistoryRead; LogOpened; Told (lit e)]. split; [done|set_solver]. }
  destruct (su_hwnd s =? 0).
  - split_and!; [intros c H; set_solver| |done|right; left; eexists; right; right; right; left].
    intros _. exists [HistoryRead; LogOpened; ClassRegistered; Told (lit "CreateWindowExW failed")]. split; [done|set_solver].
  - split_and!; [intros c H; split_and!; try done; set_solver| |done|left; set_solver].
    intros _. exists [HistoryRead; LogOpened; ClassRegistered; WindowCreated (initial_config s); NotifySet; Shown; TimerSet; Refreshed; Looped]. split; [done|set_solver].
Qed.
End Main.
